(* ===== verification/_CoqProject ===== *)
-Q . S2P
Prelude.v
Js.v
Regex.v
Interleaving.v
CommonUtils.v
JsonParse.v
CastHelper.v
CommonService.v
ClientRegistration.v
ResponseCode.v
CredentialTemplates.v
CredentialOffer.v
IssuerMetadata.v
W3cSchema.v
StatusList.v
Table.v
X509.v
Oid4vcData.v
Oid4vcRepository.v
Oid4vcService.v
Oid4vcOffers.v
Oid4vcInvariant.v
Oid4vcTables.v
Oid4vcPlaces.v
Oid4vcProofs.v
AttributeValidation.v
Ecosystem.v
Intent.v
IntentService.v
IntentInvariant.v
IntentProofs.v
Oid4vpData.v
Oid4vp.v
Oid4vpProofs.v
Oid4vpExamples.v
GatewayAuth.v
MarketplaceData.v
MarketplaceRepository.v
MarketplaceClient.v
Entitlement.v
MarketplaceGuard.v
Metering.v
MarketplaceWebhook.v
MarketplaceService.v
MarketplaceInvariant.v
MarketplaceOnboarding.v
MarketplaceWebhookProofs.v
OrganizationData.v
OrganizationRepository.v
Organization.v
OrganizationInvariant.v
OrganizationProofs.v
UserData.v
UserRepository.v
User.v
Fido.v
UserFrames.v
UserInvariant.v
UserTokens.v
UserProofs.v
IssuanceQueue.v
IssuanceCoordinator.v
IssuanceData.v
IssuanceWork.v
CredentialDelivery.v
BulkIssuance.v
BulkIssuanceProofs.v
DidcommData.v
Connection.v
ProofFormats.v
Verification.v
IssuanceRecords.v
Didcomm.v
DidcommProofs.v
LedgerData.v
Schema.v
CredentialDefinition.v
LedgerProofs.v
Webhook.v
Utilities.v
