(* ===== verification/Prelude.v ===== *)
(** * Verification of the CREDEBL SSI platform

    The platform is a set of NestJS micro-services that issue and verify credentials
    through external agents.  This development models the parts that decide something
    by themselves, translated from [src/] file by file, and proves what they promise.

    ** Parts

    - Marketplace ([apps/marketplace]).  A buyer of the Microsoft marketplace offer is
      resolved, linked to an account and to an organization, and activated; usage is
      metered by the hour and submitted; webhooks change subscriptions.
      [MarketplaceData] has the rows of the seven tables, the payloads, and the world:
      tables, requests sent, clock readings and identifiers drawn.
      [MarketplaceRepository] is [marketplace.repository.ts], one definition per
      method; [MarketplaceClient] the publisher token and the Microsoft client;
      [Entitlement], [Metering], [MarketplaceWebhook] (with the reconciliation) the
      services of the same names; [MarketplaceService] is [marketplace.service.ts] and
      the dispatch of [marketplace.controller.ts], [handle].
      Calls go from the service to the other services and from all of them to the
      repository and the client.  [MarketplaceInvariant], [MarketplaceOnboarding] and
      [MarketplaceWebhookProofs] hold the theorems about the whole, evaluated at the
      deployment at the end of [MarketplaceClient].
    - Issuance work ([apps/issuance]).  [IssuanceQueue] is the admission queue inside
      one worker ([issuance-admission.queue.ts]); [IssuanceCoordinator] the permits
      the workers share in Redis, the guards of bulk rows and the batch counters
      ([issuance-work.coordinator.ts]), with [libs/context/src/issuanceDeadline.ts].
      A request takes a permit from the coordinator after a slot of the queue.
    - Bulk issuance ([apps/issuance]).  The rows of an uploaded file become jobs, and each
      job offers a credential and sends its link.  [IssuanceData] has the rows, jobs, other
      parties and the state that the workers share; [IssuanceWork] the calls of the
      coordinator again, cut in steps, with the queries of
      [issuance.repository.ts]; [CredentialDelivery] the out-of-band offers and
      [BulkIssuance] the bulk part of [issuance.service.ts] with [issuance.processor.ts].
      [BulkIssuanceProofs] runs any number of these computations interleaved and has the
      theorems about files and a sample.
      [AttributeValidation] is [libs/helpers]: columns and values against a template.
    - OpenID4VC issuance ([apps/oid4vc-issuance]).  [StatusList] is
      [status-list-allocator.service.ts]; [CredentialTemplates] and [CredentialOffer]
      are the data and the functions of [credential-sessions.builder.ts];
      [IssuerMetadata] is [issuer.metadata.ts].  An offer refers to configurations
      the metadata declares.  [Oid4vcData] has the rows of the issuance service, the calls it
      makes to the agent and its state, which contains the status lists;
      [Oid4vcRepository] is [oid4vc-issuance.repository.ts], [Oid4vcService] the issuers and
      templates of [oid4vc-issuance.service.ts], [Oid4vcOffers] its credential offers,
      the webhook and the messages.
      [Oid4vcInvariant] and [Oid4vcTables] say what the operations do to the tables,
      [Oid4vcPlaces] what offers do to the status lists; [Oid4vcProofs]
      has the theorems and a deployment.
    - Verification ([apps/verification]).  [ResponseCode] has the response codes
      ([response-code/proof-response-code.service.ts]), the redirect allow-list
      ([redirect-uri.util.ts]) and the operations of [verification.service.ts] that
      use them.
    - Exchanges with wallets ([apps/connection], [apps/verification], [apps/issuance]).
      Three services record what an organization's agent reports - connections,
      presentations and credentials, which refer to connections - in tables they share, and
      ask the agent for more.  [DidcommData] has the rows, what is sent, how rejections
      become errors, and the state, which contains that of [ResponseCode] and the files of
      [IssuanceData]; [Connection] is [connection.service.ts] with its repository,
      [Verification] is [verification.service.ts] with its repository, whose formats are
      [ProofFormats], and [IssuanceRecords] the rest of [issuance.service.ts].  Each has its
      messages ([handle]); [Didcomm] serves those of all three in any order and shows what
      they keep, [DidcommProofs] follows the response codes through them and deletes an
      organization's records, with a sample deployment.
    - X.509 ([apps/x509]).  [X509] is the certificate service and its repository.
    - Ecosystems ([apps/ecosystem]).  [Ecosystem] has the invitations, the creation of
      ecosystems and the joining and leaving of organizations.  [Intent] has the intents
      that ecosystems name, the templates assigned to them and the notices that explain
      them, with their part of [ecosystem.repository.ts], and [IntentService] the service
      and the messages; the state contains that of [Ecosystem].  [IntentInvariant]
      says what the operations do to the rows, [IntentProofs] has the theorems.
    - OpenID4VP verification ([apps/oid4vc-verification]).  [Oid4vpData] has the verifiers,
      what is sent to their agent, the state, which contains that of [Intent], and
      [oid4vc-verification.repository.ts]; [Oid4vp] is the service and its messages.  A
      session for an intent asks [IntentService] for the template and the notice.
      [Oid4vpProofs] has the theorems about sessions and rows, and
      [Oid4vpExamples] runs both services together.
    - Organizations ([apps/organization]).  [OrganizationData] has the rows, the other
      parties and the state of a run, with the ways computations are combined: awaited,
      started and not awaited ([spawn]), and together ([par], whose order [schedule]
      decides).  [OrganizationRepository] is [organization.repository.ts] with
      [libs/org-roles] and [libs/user-org-roles], [Organization] the service and the
      messages of [organization.controller.ts] that write ([handle]).
      [OrganizationInvariant] holds the invariant that every message keeps,
      [OrganizationProofs] the theorems and a sample platform.
    - Users ([apps/user]).  [UserData] has the rows, the other parties and the state;
      [UserRepository] is [user.repository.ts], [User] the service, [Fido] the passkeys with
      their repositories, and [UserFrames] the messages that write ([handle]) and what most
      of the operations leave alone, [UserInvariant] that every
      message is a step in the life of an account; [UserTokens] and
      [UserProofs] have the theorems, applied at the deployment at the end
      of [UserInvariant].  Passwords and tokens are
      Keycloak's: [ClientRegistration] is [libs/client-registration] with
      [libs/keycloak-url], written against the HTTP client of [CommonService].
    - Common library ([libs/common]).  [CommonUtils] is [common.utils.ts]
      and [error-handler.util.ts], [CastHelper]
      is [cast.helper.ts], [CommonService] is
      [common.service.ts] over an HTTP client that is an interface ([HttpClient]); the first two use [Regex],
      regular expressions with a matcher that is
      proved to decide their language.  Organizations take slugs, limits and the
      namespaces of DIDs from them.
    - Gateway ([apps/api-gateway]).  [GatewayAuth] is what [jwt.strategy.ts] makes of a
      verified token and the guards that decide on it; [MarketplaceGuard] the guards that
      ask the marketplace service, run against [Entitlement].
    - Ledger ([apps/ledger]).  [W3cSchema] is [w3c.schema.builder.ts] with the keyword
      classes of [libs/validations].  [LedgerData] has the rows of schemas and credential
      definitions, what is asked of an organization's agent and of the file server, and the
      state; [Schema] is [schema.service.ts] with its repository, [CredentialDefinition]
      the same for definitions with [ledger.service.ts].  [LedgerProofs] serves the messages
      of all three in any order, while others provision agents, and has the theorems and a
      deployment.
    - Webhooks ([apps/webhook]).  [Webhook] is [webhook.service.ts] with its repository and
      the validation of URLs ([url-validator.util.ts]): an organization registers a URL and
      a secret, which is stored encrypted, and events are posted there, signed and retried.
    - [Utilities] has three small services, a Module each: notifications
      ([apps/notification]), short URLs, stored objects and alerts ([apps/utility]), and
      the listings of places ([apps/geo-location]).

    ** Shared files

    This file has the exceptions, the effect type [eff S A] (a state passed along and a
    value or an exception at the end), [preserves] with the tactic [solve_preserves],
    [frames] with [solve_frames], [run], [cases_if] and the list lemmas.  [Interleaving]
    has computations that are cut in atomic steps ([prog]), pools of them ([istep]) and the
    rules by which an invariant is proved for every schedule ([safe], [neutral]).  [Js] has what the services use of
    JavaScript: strings ([Str]), number literals ([Num]), dates ([Date]), JSON values
    ([Json]) and URI encoding ([Uri]).  [JsonParse] is [JSON.parse].  [Table] has the
    operations of the database client on a table.

    ** What the theorems show

    - Identifiers are unique: a status list index that is handed out is not handed out
      again before its release ([status_list_no_reuse]) and a well-formed request gets one
      ([status_list_allocate_total]), as long as transactions do not interleave
      ([status_list_concurrent_duplicate] shows what happens when they do).
    - Work is bounded: the queue, the permits, deadlines and settings stay in their
      limits in every interleaving ([admission_bounded], [permits_bounded],
      [issuance_deadline_bounded]), nothing is dispatched without a permit or after its
      deadline ([dispatch_guarded]), waiting for one passes the deadline by no more than its
      last steps take ([acquire_terminates]), and a batch is completed once
      ([batch_completed_once]).
    - A row is offered at most once however its jobs interleave, crash and fail
      ([offered_at_most_once]); while its outcome is uncertain its file is not retried
      ([retry_refused]); rows are queued in order ([queued_in_order]), the last job settles
      the file ([completion_status]) and a failed one interrupts it ([failure_interrupts]).
      Files and credentials are checked exactly against their template
      ([validateFileHeaders_exact], [validateW3CSchemaAttributes_exact]).
    - The marketplace tables keep what their unique indexes demand after any sequence of
      messages and jobs ([constraints_served]); who may onboard, and with what effect
      ([linkAccount_identity], [linkOrganization_guard], [activate_guard]); webhooks are
      authorized, recorded and effective ([webhook_authorized], [webhook_recorded],
      [webhook_effect]); the billed overage is what exceeds the plan
      ([overage_conserved]); entitlements refine an abstract decision
      ([isFeatureAllowed_spec]).
    - The gateway admits exactly the callers that hold a required role in the organization
      a request names ([org_roles_guard_exact], [ecosystem_roles_guard_exact]), keeps
      holders apart whatever a token claims ([holder_separation]) and asks for
      entitlements where it must ([entitlement_guard_decision]).
    - Every ecosystem keeps its lead and every member was invited
      ([every_ecosystem_led], [members_invited]).
    - The live certificates of an organization never overlap ([live_certificates_disjoint],
      [activation_exact]).
    - A response code is consumed at most once ([response_code_single_use]), its outcome
      is final ([terminal_is_final]) and redirects stay inside the allow-list
      ([redirect_allowed_sound], [allowlist_round_trip]).
    - Whatever connections, verification and issuance serve together, rows stay unique and
      refer to rows that exist, as the tables demand ([exchanges_consistent]), labels of wallets are stored masked
      ([labels_masked]), a response code stands for a request that named its redirect target,
      which was allowed, and is completed only by a verified proof
      ([sessions_authorized]), a proof is served to its organization only ([proof_served]), and an organization's records go in
      one order and leave nothing behind ([organization_cleared]).  What is asked is sorted
      into attributes and predicates ([request_partition]) and what is read of a proof is
      what was asked and revealed ([indy_details_exact]).
    - Schemas and credential definitions are recorded when an agent answered that it
      published them, with what it answered, and it is asked only for requests that passed
      every check ([schema_published], [definition_published]); the rows are unique, refer
      to what exists, and active names and tags are distinct ([ledger_consistent]).  A
      migration changes one row ([migration_effect]).
    - Events go to the URL an organization registered, if its host resolves outside the
      private ranges when it is asked, for each post anew ([private_ranges_exact]), at most
      four times and not after they were accepted ([deliveries_guarded]), signed with the registered secret ([registered_key]).
    - Short URLs read back ([short_url_round_trip]), notifications go to registered endpoints
      ([notifications_consistent]), alerts are two hours apart unless requests meet
      ([alerts_spaced], [alert_twice]), and listings are complete ([cities_listed]).
    - A built offer is valid against its templates and inside its certificate's
      validity ([offer_sound], [validation_exact]) and declared by the issuer
      ([offer_declared]); a W3C schema declares what it requires
      ([w3c_required_declared]).
    - An offer that fails gives back its places in status lists, and one that succeeds took
      free ones and recorded them ([offer_places]); a change of a template reaches the agent or is undone
      ([template_change_published]), issuers and templates stay consistent
      ([issuers_consistent]), and names distinct while changes give them
      ([template_names_unique]).
    - Whoever has a role in an organization created it or accepted an invitation to it
      ([members_admitted]), an answer is final ([answered_final]) and within the limits of
      the plan ([acceptance_bounded]); the primary DID changes as a whole
      ([setPrimaryDid_effect]), and a deletion removes all of an organization or nothing
      ([deleteOrganization_effect]).
    - A verified address was invited or answered with the code mailed to it
      ([verified_by_proof]); accounts stay unique and keep what identifies them
      ([accounts_final]); a password is set only for whom it may be ([passwords_guarded]), a
      reset token serves once ([reset_token_single_use]) and sessions stay within the limit
      when messages do not overlap ([sessions_bounded]).
    - A session is signed by the organization's DID or a certificate of its that is valid
      then, names one of its verifiers and asks for what it says or the template its intent
      selects ([sessions_signed], [template_selected]); organizations do not touch each
      other's verifiers and templates ([tenants_isolated]), and a verifier goes when the agent
      agreed ([verifier_deleted]).  The rows of intents, assignments, notices and verifiers
      refer to rows that exist and repeat none, whatever both services serve
      ([intents_and_verifiers_consistent]), and notices are the ecosystem lead's
      ([notices_by_lead]).
    - The helpers keep what they are given: encrypted credentials and built URLs read back
      ([credential_round_trip], [query_round_trip]), escaped text has no markup
      ([escapeHtml_sound]), pages hold every item once ([pages_cover]) and numbers stay in
      their bounds ([toNumber_bounds]).
    - Some theorems state where the code does less than it announces:
      [status_list_retry_is_stuck], [settled_never_resubmitted],
      [blocked_without_reason], [no_billable_issuance], [alias_format_unvalidated], [mdoc_alias_undeclared],
      [array_children_rejected], [unsatisfiable_schema], [part_of_name_refused],
      [uploaded_then_refused], [migrated_unlisted], [comma_is_lost],
      [usernameLogin_unchecked] and [primary_of_every_organization].

    ** Modelling choices

    - A string is a list of 8-bit characters standing for UTF-16 code units below 256;
      equality, order, slicing and case mapping are those of the language on such
      strings.  Integers of the [number] type are [Z]; where a bound matters (safe
      integers, the 24-hour window, bitmap sizes) it is written out.  A [Date] is its
      time value in milliseconds.
    - [null] and [undefined] are both [None] where the code does not tell them apart.
    - A table is the list of its rows.  A statement that breaks a unique index throws
      [P2002]; one that misses its row throws [P2025].  A transaction that throws puts the
      tables back and keeps the rest of the world.  Foreign keys are taken to hold.
    - Random draws, fresh identifiers, clock readings, Redis and Microsoft replies,
      digests, token verification, the URL class, the syntax of regular expressions and, for the
      exchanges with wallets and the ledger, what the agent and the database's collation answer
      are parameters, given by type classes ([RandomSource], [UuidSource], [Environment],
      [Env], [Agents], [LedgerData.Platform], [Network], [ObjectStore], [IssuerAgent], [VerifierAgent], [Web], [Storage], [Deployment], [RunUuid], [Parties], [Crypto], [AgentService], [Identity], [Platform], [UrlParser],
      [RegExpSyntax]).  Their laws are the documented ones: identifiers are distinct, and a digest that is used as a key does
      not collide ([Collision_free]).  Clock readings are arbitrary, except where a
      computation waits: then time has passed.
    - Concurrency: the queue, the Redis hash and the response codes are step relations
      or event lists, one step per atomic command or callback, in any order; bulk issuance
      is a pool of computations that interleave at every [await], with crashes.  The
      marketplace messages run one after the other.
    - Fuel: [Metering.chunks] and [JsonParse] take the length of their input, which
      bounds their turns; [Coordinator.acquire_loop] takes the time left before the
      deadline, and [acquire_terminates] shows that this is enough; [Webhook.attempts] takes
      the number of retries the service asks for, three; slices of a list take
      its length.

    ** Not modelled

    The gateway's controllers, the services that relay requests to an agent
    (agent service, cloud wallet), the nesting of the columns of a CSV file
    ([unflattenCsvRow], which works by aliasing: what an upload makes of a file is a
    parameter), the relaying of invitations to users, the listings of organizations and ecosystems,
    storage, logging and configuration.  They are calls to processes outside the
    repository with little logic in between; the manifest lists each with its reason. *)

From stdpp Require Export base tactics gmap strings list fin_maps option sorting pretty.
From Stdlib Require Export ZArith Lia Ascii.

#[export] Set Default Goal Selector "!".
#[export] Set Default Proof Using "Type".

#[global] Arguments String.append : simpl nomatch.

Create HintDb platform.
Create Rewrite HintDb platform.

(** ** Exceptions

    The services throw NestJS HTTP exceptions, plain [Error] objects and the
    errors of the database client.  [exn_code] is the [code] property that the
    Prisma errors carry ([P2002] for a unique constraint, [P2025] for a missing
    record); [exn_status] is the [status] property of the HTTP ones. *)

Inductive exn_kind :=
  | BadRequestException | UnauthorizedException | ForbiddenException
  | NotFoundException | ConflictException | NotAcceptableException | UnprocessableEntityException
  | InternalServerErrorException | ServiceUnavailableException
  | HttpException | RpcException | PlainError | PrismaError.

#[export] Instance exn_kind_eq_dec : EqDecision exn_kind.
Proof. solve_decision. Defined.

Record exn := Exn {
  exn_class : exn_kind;
  exn_message : string;
  exn_status : option Z;
  exn_code : option string;
}.

#[export] Instance exn_eq_dec : EqDecision exn.
Proof. solve_decision. Defined.

Definition http_status (k : exn_kind) : option Z :=
  match k with
  | BadRequestException => Some 400%Z
  | UnauthorizedException => Some 401%Z
  | ForbiddenException => Some 403%Z
  | NotFoundException => Some 404%Z
  | NotAcceptableException => Some 406%Z
  | ConflictException => Some 409%Z
  | UnprocessableEntityException => Some 422%Z
  | InternalServerErrorException => Some 500%Z
  | ServiceUnavailableException => Some 503%Z
  | HttpException | RpcException | PlainError | PrismaError => None
  end.

(** [new XException(message)] for the NestJS classes, [new Error(message)]. *)
Definition http_exn (k : exn_kind) (message : string) : exn :=
  Exn k message (http_status k) None.

Definition js_error (message : string) : exn := Exn PlainError message None None.
Definition prisma_unique : exn := Exn PrismaError "Unique constraint failed" None (Some "P2002").
Definition prisma_missing : exn := Exn PrismaError "Record not found" None (Some "P2025").

(** ** Effects

    A computation reads and writes a state and ends with a value or an
    exception.  The state is kept when an exception is thrown, as the writes
    an [async] function has already made are; only [transaction] undoes them. *)

Inductive result (A : Type) : Type :=
  | Ok (a : A)
  | Throw (e : exn).
Arguments Ok {A} a.
Arguments Throw {A} e.

Definition is_ok {A} (r : result A) : bool :=
  match r with Ok _ => true | Throw _ => false end.

Definition eff (S A : Type) : Type := S -> result A * S.

#[export] Instance result_ret : MRet result := @Ok.
#[export] Instance result_bind : MBind result := fun _ _ f r =>
  match r with Ok a => f a | Throw e => Throw e end.

#[export] Instance eff_ret {S} : MRet (eff S) := fun _ a s => (Ok a, s).
#[export] Instance eff_bind {S} : MBind (eff S) := fun _ _ f m s =>
  match m s with
  | (Ok a, s') => f a s'
  | (Throw e, s') => (Throw e, s')
  end.

(** A chain of fallible steps that succeeds has succeeded at every step. *)
Lemma result_bind_ok {A B} (m : result A) (k : A -> result B) b : m ≫= k = Ok b -> exists a, m = Ok a /\ k a = Ok b.
Proof. destruct m as [a|e]; simpl; [by exists a | done]. Qed.

Section eff_operations.
Context {S : Type}.

Definition throw {A} (e : exn) : eff S A := fun s => (Throw e, s).
Definition get : eff S S := fun s => (Ok s, s).
Definition gets {A} (f : S -> A) : eff S A := fun s => (Ok (f s), s).
Definition put (s' : S) : eff S unit := fun _ => (Ok tt, s').
Definition modify (f : S -> S) : eff S unit := fun s => (Ok tt, f s).
Definition lift {A} (r : result A) : eff S A := fun s => (r, s).
Definition when (b : bool) (m : eff S unit) : eff S unit :=
  if b then m else mret tt.

(** [try { m } catch (e) { h(e) }] *)
Definition try_catch {A} (m : eff S A) (h : exn -> eff S A) : eff S A := fun s =>
  match m s with
  | (Ok a, s') => (Ok a, s')
  | (Throw e, s') => h e s'
  end.

(** [try { m } finally { f }]: an exception of [f] replaces the outcome. *)
Definition try_finally {A} (m : eff S A) (f : eff S unit) : eff S A := fun s =>
  let (r, s') := m s in
  match f s' with
  | (Ok _, s'') => (r, s'')
  | (Throw e, s'') => (Throw e, s'')
  end.

(** [prisma.$transaction(async tx => m)]: an exception rolls the database
    back; [rollback s s'] is [s'] with the database of [s]. *)
Definition transaction (rollback : S -> S -> S) {A} (m : eff S A) : eff S A := fun s =>
  match m s with
  | (Ok a, s') => (Ok a, s')
  | (Throw e, s') => (Throw e, rollback s s')
  end.

(** [catch (error) { throw new RpcException(error.response ? error.response : error) }] *)
Definition rpc {A} (m : eff S A) : eff S A :=
  try_catch m (fun e => throw (Exn RpcException (exn_message e) (exn_status e) (exn_code e))).

(** [for (const x of xs) { await f(x) }] *)
Fixpoint for_each {A} (xs : list A) (f : A -> eff S unit) : eff S unit :=
  match xs with
  | [] => mret tt
  | x :: xs' => _ ← f x; for_each xs' f
  end.
End eff_operations.

(** Node's [randomUUID()] and the [@default(uuid())] columns: the [n]-th identifier
    drawn is different from the others. *)
Class UuidSource := {
  uuid : nat -> string;
  uuid_inj :: Inj (=) (=) uuid;
}.

(** The equations by which proofs run a computation step by step. *)
Section eff_equations.
Context {S : Type}.
Implicit Types s : S.

Lemma run_ret {A} (a : A) s : (mret a : eff S A) s = (Ok a, s).
Proof. done. Qed.
Lemma run_throw {A} e s : (throw e : eff S A) s = (Throw e, s).
Proof. done. Qed.
Lemma run_bind {A B} (m : eff S A) (k : A -> eff S B) s :
  (m ≫= k) s = match m s with (Ok a, s') => k a s' | (Throw e, s') => (Throw e, s') end.
Proof. done. Qed.
Lemma run_bind_ok {A B} (m : eff S A) (k : A -> eff S B) s s' a :
  m s = (Ok a, s') -> (m ≫= k) s = k a s'.
Proof. intros E. by rewrite run_bind, E. Qed.
Lemma run_bind_throw {A B} (m : eff S A) (k : A -> eff S B) s s' e :
  m s = (Throw e, s') -> (m ≫= k) s = (Throw e, s').
Proof. intros E. by rewrite run_bind, E. Qed.

(** A run of a sequence that returns decomposes into runs that return. *)
Lemma bind_ok_inv {A B} (m : eff S A) (k : A -> eff S B) s s' b :
  (m ≫= k) s = (Ok b, s') -> exists a s0, m s = (Ok a, s0) /\ k a s0 = (Ok b, s').
Proof. rewrite run_bind. destruct (m s) as [[a|e] s0]; naive_solver. Qed.

Lemma rpc_state {A} (m : eff S A) s : (rpc m s).2 = (m s).2.
Proof. unfold rpc, try_catch. by destruct (m s) as [[a|e] s']. Qed.

Lemma for_each_app {A} (xs ys : list A) (f : A -> eff S unit) s :
  for_each (xs ++ ys) f s = (_ ← for_each xs f; for_each ys f) s.
Proof.
  revert s. induction xs as [|x xs IH]; intros s; [done|]. simpl.
  rewrite !run_bind. destruct (f x s) as [[[]|e] s']; [apply IH | done].
Qed.

(** The loop rule: an invariant kept by every iteration holds at the end. *)
Lemma for_each_invariant {A} (P : S -> Prop) (xs : list A) (f : A -> eff S unit) :
  (forall x s, x ∈ xs -> P s -> P (f x s).2) -> forall s, P s -> P (for_each xs f s).2.
Proof.
  induction xs as [|x xs IH]; intros Hf s Hs; [done|]. simpl. rewrite run_bind.
  pose proof (Hf x s ltac:(left) Hs) as Hx. destruct (f x s) as [[[]|e] s']; [|done].
  apply IH; [|done]. intros y s0 Hy. apply Hf. by right.
Qed.
End eff_equations.

#[export] Hint Rewrite @run_ret @run_throw @run_bind : platform.

(** ** Invariants

    [preserves I m]: running [m], to a value or an exception, keeps [I]. *)

Definition preserves {S A} (I : S -> Prop) (m : eff S A) : Prop := forall s, I s -> I (m s).2.

Section preserves.
Context {S : Type} (I : S -> Prop).

Lemma preserves_ret {A} (a : A) : preserves I (mret a).
Proof. by intros s Hs. Qed.
Lemma preserves_throw {A} e : preserves I (throw e : eff S A).
Proof. by intros s Hs. Qed.
Lemma preserves_lift {A} (r : result A) : preserves I (lift r).
Proof. by intros s Hs. Qed.
Lemma preserves_gets {A} (f : S -> A) : preserves I (gets f).
Proof. by intros s Hs. Qed.
Lemma preserves_modify f : (forall s, I s -> I (f s)) -> preserves I (modify f).
Proof. intros H s Hs. by apply H. Qed.

(** The continuation may use what the first computation establishes of its value. *)
Lemma preserves_bind_post {A B} (Q : A -> Prop) (m : eff S A) (k : A -> eff S B) :
  preserves I m -> (forall s a s', I s -> m s = (Ok a, s') -> Q a) ->
  (forall a, Q a -> preserves I (k a)) -> preserves I (m ≫= k).
Proof.
  intros Hm HQ Hk s Hs. rewrite run_bind. specialize (Hm s Hs). specialize (HQ s).
  destruct (m s) as [[a|e] s']; [|done]. eapply Hk; [by eapply HQ | done].
Qed.

Lemma preserves_bind {A B} (m : eff S A) (k : A -> eff S B) :
  preserves I m -> (forall a, preserves I (k a)) -> preserves I (m ≫= k).
Proof. intros Hm Hk. by apply (preserves_bind_post (fun _ => True)). Qed.

Lemma preserves_try {A} (m : eff S A) h :
  preserves I m -> (forall e, preserves I (h e)) -> preserves I (try_catch m h).
Proof.
  intros Hm Hh s Hs. unfold try_catch. specialize (Hm s Hs).
  destruct (m s) as [[a|e] s']; [done | by apply Hh].
Qed.

Lemma preserves_for_each {A} (xs : list A) (f : A -> eff S unit) :
  (forall x, x ∈ xs -> preserves I (f x)) -> preserves I (for_each xs f).
Proof. intros H s. apply for_each_invariant. intros x s' Hx. by apply H. Qed.
End preserves.

#[export] Hint Resolve preserves_ret preserves_throw preserves_lift preserves_gets : platform.

(** Steps through binds, handlers and case distinctions; the lemmas of the [platform]
    database close the leaves. *)
Ltac solve_preserves :=
  repeat first
    [ solve [auto with platform]
    | apply preserves_bind; [|intros ?]
    | apply preserves_try; [|intros ?]
    | apply preserves_for_each; intros ? ?
    | case_match ].

(** ** Frames

    [frames R m]: running [m] relates the states before and after by [R]. *)

Definition frames {S A} (R : relation S) (m : eff S A) : Prop := forall s, R s (m s).2.

Section frames.
Context {S : Type} (R : relation S) `{!PreOrder R}.

Lemma frames_ret {A} (a : A) : frames R (mret a).
Proof using All. intros s. simpl. reflexivity. Qed.
Lemma frames_throw {A} e : frames R (throw e : eff S A).
Proof using All. intros s. simpl. reflexivity. Qed.
Lemma frames_lift {A} (r : result A) : frames R (lift r).
Proof using All. intros s. simpl. reflexivity. Qed.
Lemma frames_gets {A} (f : S -> A) : frames R (gets f).
Proof using All. intros s. simpl. reflexivity. Qed.

Lemma frames_bind {A B} (m : eff S A) (k : A -> eff S B) : frames R m -> (forall a, frames R (k a)) -> frames R (m ≫= k).
Proof using All.
  intros Hm Hk s. rewrite run_bind. specialize (Hm s). destruct (m s) as [[a|e] s1]; [|done].
  etrans; [exact Hm | apply Hk].
Qed.

Lemma frames_try {A} (m : eff S A) h : frames R m -> (forall e, frames R (h e)) -> frames R (try_catch m h).
Proof using All.
  intros Hm Hh s. unfold try_catch. specialize (Hm s). destruct (m s) as [[a|e] s1]; [done|].
  etrans; [exact Hm | apply Hh].
Qed.
Lemma frames_for_each {A} (xs : list A) (f : A -> eff S unit) : (forall x, x ∈ xs -> frames R (f x)) -> frames R (for_each xs f).
Proof using All.
  induction xs as [|x xs IH]; intros Hf; [apply frames_ret|]. apply frames_bind; [apply Hf; left|].
  intros _. apply IH. intros y Hy. apply Hf. by right.
Qed.

(** What holds after a sequence, when the first computation only frames the state. *)
Lemma after_frame {A B} (m : eff S A) (k : A -> eff S B) (I : S -> Prop) s : frames R m ->
  (forall s1, R s s1 -> I s1) -> (forall a s1, m s = (Ok a, s1) -> R s s1 -> I (k a s1).2) -> I ((m ≫= k) s).2.
Proof using Type.
  intros Hm Hthrow Hk. rewrite run_bind. specialize (Hm s). destruct (m s) as [[a|e] s1] eqn:E; [by apply Hk | by apply Hthrow].
Qed.
End frames.

(** A computation that frames the state by a smaller relation. *)
Lemma frames_mono {S A} (R R' : relation S) (m : eff S A) : (forall s s', R s s' -> R' s s') -> frames R m -> frames R' m.
Proof. intros H Hm s. apply H, Hm. Qed.

Ltac solve_frames :=
  repeat first
    [ solve [auto with platform]
    | apply frames_ret; exact _
    | apply frames_throw; exact _
    | apply frames_lift; exact _
    | apply frames_gets; exact _
    | apply frames_bind; [exact _ | | intros ?]
    | apply frames_try; [exact _ | | intros ?]
    | apply frames_for_each; [exact _ | intros ? ?]
    | case_match ].

(** [run] computes a sequence of effects; [run in H] does so in a hypothesis. *)
Ltac eff_unfold :=
  unfold rpc, throw, get, gets, put, modify, lift, when, try_catch, try_finally, transaction,
    mret, eff_ret, mbind, eff_bind in *.
Tactic Notation "run" := eff_unfold; simpl in *.

(** Case analysis on every test of the goal or of a hypothesis. *)
Ltac cases_if :=
  repeat match goal with
  | H : context [if ?b then _ else _] |- _ => destruct b eqn:?; simplify_eq/=
  | |- context [if ?b then _ else _] => destruct b eqn:?; simplify_eq/=
  end.

(** ** Lists *)

(** Membership through the boolean operations of the language's arrays. *)
Lemma elem_of_filter_b {A} (p : A -> bool) l x : x ∈ List.filter p l <-> x ∈ l /\ p x = true.
Proof. by rewrite !list_elem_of_In, filter_In. Qed.

Lemma filter_sublist {A} (p : A -> bool) (l : list A) : List.filter p l `sublist_of` l.
Proof. induction l as [|a l IH]; simpl; [done|]. case_match; by constructor. Qed.
Lemma filter_NoDup {A K} (f : A -> K) (p : A -> bool) l : NoDup (f <$> l) -> NoDup (f <$> List.filter p l).
Proof. intros H. eapply sublist_NoDup; [exact H|]. apply fmap_sublist, filter_sublist. Qed.
Lemma NoDup_new {A K} (f : A -> K) (l : list A) x : NoDup (f <$> l) -> (forall y, y ∈ l -> f y <> f x) -> NoDup (f <$> (l ++ [x])%list).
Proof.
  intros H Hd. rewrite fmap_app. apply NoDup_app. split; [done|]. split; [|apply NoDup_singleton].
  intros s (y & -> & Hy)%list_elem_of_fmap Hs%list_elem_of_singleton. by apply (Hd y).
Qed.

Lemma filter_b_nil {A} (p : A -> bool) l : List.filter p l = [] <-> forall x, x ∈ l -> p x = false.
Proof.
  split.
  - intros H x Hx. destruct (p x) eqn:E; [|done]. assert (Hin : x ∈ List.filter p l) by (by apply elem_of_filter_b).
    rewrite H in Hin. by apply elem_of_nil in Hin.
  - intros H. destruct (List.filter p l) as [|x l'] eqn:E; [done|].
    assert (Hin : x ∈ List.filter p l) by (rewrite E; left). apply elem_of_filter_b in Hin as [Hin Hp]. by rewrite H in Hp.
Qed.

Lemma existsb_elem {A} (p : A -> bool) l : existsb p l = true <-> exists x, x ∈ l /\ p x = true.
Proof. rewrite existsb_exists. by setoid_rewrite list_elem_of_In. Qed.

Lemma existsb_mem s l : existsb (String.eqb s) l = true <-> s ∈ l.
Proof.
  rewrite existsb_elem. split; [|intros H; exists s; split; [done | apply String.eqb_refl]].
  by intros (x & Hx & ->%String.eqb_eq).
Qed.

Section lists.
Context {A : Type}.
Implicit Types l : list A.

Lemma filter_ext_length (P Q : A -> Prop) `{!forall x, Decision (P x), !forall x, Decision (Q x)} l :
  (forall x, x ∈ l -> P x <-> Q x) -> length (filter P l) = length (filter Q l).
Proof.
  induction l as [|x l IH]; intros Hiff; [done|]. rewrite !filter_cons.
  pose proof (Hiff x ltac:(left)). specialize (IH ltac:(intros; apply Hiff; by right)).
  repeat case_decide; simpl; tauto || lia.
Qed.

Lemma filter_fmap_length {B} (P : A -> Prop) `{!forall x, Decision (P x)} (f : B -> A) (l : list B) :
  length (filter P (f <$> l)) = length (filter (fun x => P (f x)) l).
Proof.
  induction l as [|x l IH]; [done|]. rewrite fmap_cons, !filter_cons.
  repeat case_decide; simpl; tauto || lia.
Qed.

Lemma filter_none (P : A -> Prop) `{!forall x, Decision (P x)} l :
  (forall x, x ∈ l -> ~ P x) -> filter P l = [].
Proof.
  induction l as [|x l IH]; intros Hn; [done|]. rewrite filter_cons, decide_False by (apply Hn; left).
  apply IH. intros y Hy. apply Hn. by right.
Qed.

Lemma filter_every (P : A -> Prop) `{!forall x, Decision (P x)} l :
  (forall x, x ∈ l -> P x) -> filter P l = l.
Proof.
  induction l as [|x l IH]; intros Hn; [done|]. rewrite filter_cons, decide_True by (apply Hn; left).
  f_equal. apply IH. intros y Hy. apply Hn. by right.
Qed.
End lists.
