(* ===== verification/Js.v ===== *)
(** * The parts of the JavaScript language and library the services rely on

    Strings are sequences of UTF-16 code units below 256 (Latin-1), integers of
    the [number] type are [Z], a [Date] is its time value in milliseconds. *)

From S2P Require Import Prelude.

(** ** Truthiness and defaults *)

(** [s || d] on a value that may be absent or empty. *)
Definition truthy_str (o : option string) : bool :=
  match o with Some s => negb (String.eqb s "") | None => false end.

Definition str_or (o : option string) (d : string) : string :=
  match o with Some s => if String.eqb s "" then d else s | None => d end.

(** [a || b] where both sides may be absent. *)
Definition opt_str_or (a b : option string) : option string :=
  if truthy_str a then a else b.

(** [n || d]: 0 is falsy too. *)
Definition num_or (o : option Z) (d : Z) : Z :=
  match o with Some n => if (n =? 0)%Z then d else n | None => d end.

(** [`${process.env.X}`.toLowerCase() === 'true'] is the test on an absent
    variable too: the template literal turns [undefined] into a string. *)
Definition template_str (o : option string) : string :=
  match o with Some s => s | None => "undefined" end.

(** ** Strings *)

Module Str.
Definition code (c : ascii) : N := N_of_ascii c.

(** WhiteSpace and LineTerminator code points below 256. *)
Definition is_space (c : ascii) : bool :=
  let n := code c in
  ((9 <=? n) && (n <=? 13))%N || (n =? 32)%N || (n =? 160)%N.

Definition lower (c : ascii) : ascii :=
  let n := code c in
  if (((65 <=? n) && (n <=? 90)) || ((192 <=? n) && (n <=? 222) && negb (n =? 215)))%N
  then ascii_of_N (n + 32) else c.

Fixpoint toLowerCase (s : string) : string :=
  match s with
  | EmptyString => EmptyString
  | String c s' => String (lower c) (toLowerCase s')
  end.

Fixpoint trim_start (s : string) : string :=
  match s with
  | EmptyString => EmptyString
  | String c s' => if is_space c then trim_start s' else s
  end.

(** Drops the longest suffix whose characters satisfy [p]. *)
Fixpoint drop_end (p : ascii -> bool) (s : string) : string :=
  match s with
  | EmptyString => EmptyString
  | String c s' =>
      match drop_end p s' with
      | EmptyString => if p c then EmptyString else String c EmptyString
      | r => String c r
      end
  end.

Definition trim (s : string) : string := drop_end is_space (trim_start s).

(** [s.split(c)] for a one-character separator. *)
Fixpoint split (sep : ascii) (s : string) : list string :=
  match s with
  | EmptyString => [""]
  | String c s' =>
      if Ascii.eqb c sep then "" :: split sep s'
      else match split sep s' with
           | [] => [String c ""]
           | w :: ws => String c w :: ws
           end
  end.

(** [ws.join(c)] *)
Fixpoint join (sep : ascii) (ws : list string) : string :=
  match ws with
  | [] => ""
  | [w] => w
  | w :: ws' => w +:+ String sep (join sep ws')
  end.

Fixpoint startsWith (p s : string) : bool :=
  match p, s with
  | EmptyString, _ => true
  | String a p', String b s' => Ascii.eqb a b && startsWith p' s'
  | _, _ => false
  end.

Fixpoint contains (p s : string) : bool :=
  startsWith p s || match s with EmptyString => false | String _ s' => contains p s' end.

Definition len (s : string) : nat := String.length s.

(** ** Laws *)

Lemma join_split sep s : join sep (split sep s) = s.
Proof.
  induction s as [|c s IH]; [done|]. simpl.
  destruct (Ascii.eqb_spec c sep) as [->|Hne].
  - destruct (split sep s) as [|w ws] eqn:E; [by destruct s; simpl in *; repeat case_match|].
    simpl in *. by rewrite IH.
  - destruct (split sep s) as [|w ws] eqn:E; [by destruct s; simpl in *; repeat case_match|].
    simpl in *. destruct ws; simpl in *; by rewrite <- IH.
Qed.

Lemma split_nonempty sep s : split sep s <> [].
Proof. destruct s as [|c s]; simpl; [done|]. destruct (Ascii.eqb c sep); [done|]. by destruct (split sep s). Qed.

Lemma split_app_sep sep a b : split sep (a +:+ String sep b) = (split sep a ++ split sep b)%list.
Proof.
  induction a as [|c a IH]; simpl; [by rewrite Ascii.eqb_refl|].
  destruct (Ascii.eqb c sep); [by rewrite IH|]. rewrite IH.
  destruct (split sep a) as [|w ws] eqn:E; [by apply split_nonempty in E | done].
Qed.

Lemma split_no_sep c s : contains (String c "") s = false -> split c s = [s].
Proof.
  induction s as [|d s IH]; [done|]. cbn [contains startsWith split]. intros H.
  apply orb_false_iff in H as [H1 H2]. rewrite andb_true_r in H1. rewrite Ascii.eqb_sym, H1, IH by done. done.
Qed.

(** Fields without the separator come back from their joined text. *)
Lemma split_join c l : l <> [] -> Forall (fun s => contains (String c "") s = false) l -> split c (join c l) = l.
Proof.
  induction l as [|s l IH]; [done|]. intros _ [Hs Hl]%Forall_cons. destruct l as [|s' l]; [by apply split_no_sep|].
  change (join c (s :: s' :: l)) with (s +:+ String c (join c (s' :: l))).
  rewrite split_app_sep, IH, split_no_sep by done. done.
Qed.

Lemma lower_idem c : lower (lower c) = lower c.
Proof. by destruct c as [[] [] [] [] [] [] [] []]. Qed.

Lemma toLowerCase_idem s : toLowerCase (toLowerCase s) = toLowerCase s.
Proof. induction s as [|c s IH]; simpl; [done|]. by rewrite lower_idem, IH. Qed.

Lemma toLowerCase_length s : String.length (toLowerCase s) = String.length s.
Proof. induction s; simpl; congruence. Qed.

Lemma toLowerCase_empty s : toLowerCase s = "" <-> s = "".
Proof. destruct s; simpl; naive_solver. Qed.

Lemma startsWith_spec p s : startsWith p s = true <-> exists r, s = p +:+ r.
Proof.
  revert s. induction p as [|a p IH]; intros [|b s]; simpl; [by split; [intros _; eexists | ]..| |].
  { split; [done | by intros [r ?]]. }
  rewrite andb_true_iff, Ascii.eqb_eq, IH. split.
  - intros [-> [r ->]]. by exists r.
  - intros [r [= -> ->]]. eauto.
Qed.

(** [drop_end] returns a prefix whose last character fails [p]. *)
Lemma drop_end_prefix p s : exists t, s = drop_end p s +:+ t.
Proof.
  induction s as [|c s [t IH]]; [by exists ""|]. simpl.
  destruct (drop_end p s) as [|d r] eqn:E; simpl in *.
  - destruct (p c); [by exists (String c s) | by exists s].
  - exists t. by rewrite IH at 1.
Qed.

Lemma drop_end_idem p s : drop_end p (drop_end p s) = drop_end p s.
Proof.
  induction s as [|c s IH]; [done|]. simpl.
  destruct (drop_end p s) as [|d r] eqn:E; simpl in *.
  - destruct (p c) eqn:Hc; simpl; [done | by rewrite Hc].
  - by rewrite IH.
Qed.

Lemma trim_start_drop_end s : trim_start s = s -> trim_start (drop_end is_space s) = drop_end is_space s.
Proof.
  destruct s as [|c s]; [done|]. simpl. destruct (is_space c) eqn:Hc.
  - intros H. exfalso. assert (Hlen : String.length (trim_start s) <= String.length s).
    { clear. induction s as [|d s IH]; simpl; [done|]. case_match; simpl; lia. }
    rewrite H in Hlen. simpl in Hlen. lia.
  - intros _. destruct (drop_end is_space s); simpl; by rewrite Hc.
Qed.

Lemma trim_start_idem s : trim_start (trim_start s) = trim_start s.
Proof. induction s as [|c s IH]; [done|]. simpl. case_match eqn:E; [done|]. simpl. by rewrite E. Qed.

Lemma trim_idem s : trim (trim s) = trim s.
Proof.
  unfold trim. rewrite trim_start_drop_end by apply trim_start_idem. apply drop_end_idem.
Qed.
End Str.

#[export] Hint Rewrite Str.toLowerCase_idem Str.trim_idem Str.join_split : platform.

(** ** Numbers *)

Module Num.
Definition MAX_SAFE_INTEGER : Z := 9007199254740991.

Definition isSafeInteger (n : Z) : bool := (Z.abs n <=? MAX_SAFE_INTEGER)%Z.

Definition digit (c : ascii) : option Z :=
  let n := Z.of_N (N_of_ascii c) in
  if ((48 <=? n) && (n <=? 57))%Z then Some (n - 48)%Z else None.

Fixpoint digits_acc (acc : Z) (s : string) : option Z :=
  match s with
  | EmptyString => Some acc
  | String c s' =>
      match digit c with
      | Some d => digits_acc (10 * acc + d) s'
      | None => None
      end
  end.

(** [/^[1-9]\d*$/.test(raw)] together with [Number(raw)]: the value of a
    decimal literal without sign or leading zero.  [Number] rounds above
    [MAX_SAFE_INTEGER], where every caller rejects the value anyway. *)
Definition positive_literal (s : string) : option Z :=
  match s with
  | EmptyString => None
  | String c s' =>
      match digit c with
      | Some d => if (d =? 0)%Z then None else digits_acc d s'
      | None => None
      end
  end.

(** [Number(s)] of a numeric literal whose value is an integer: surrounding white
    space is dropped and the empty string is 0.  [None] is NaN, an infinity or a value
    that is not an integer; only decimal literals are read. *)
Fixpoint take_digits (acc : Z) (count : nat) (s : string) : Z * nat * string :=
  match s with
  | String c s' =>
      match digit c with
      | Some d => take_digits (10 * acc + d) (S count) s'
      | None => (acc, count, s)
      end
  | EmptyString => (acc, count, s)
  end.

Definition scaled (mantissa : Z) (exponent : Z) : option Z :=
  if (mantissa =? 0)%Z then Some 0%Z
  else if (0 <=? exponent)%Z then if (exponent <=? 400)%Z then Some (mantissa * 10 ^ exponent)%Z else None
  else if (mantissa mod 10 ^ (- exponent) =? 0)%Z then Some (mantissa / 10 ^ (- exponent))%Z else None.

Definition read_sign (s : string) : Z * string :=
  match s with
  | String "-" s' => ((-1)%Z, s')
  | String "+" s' => (1%Z, s')
  | _ => (1%Z, s)
  end.

Definition Number (s : string) : option Z :=
  let s := Str.trim s in
  if String.eqb s "" then Some 0%Z else
  let '(sign, s) := read_sign s in
  let '(int, n, s) := take_digits 0 0 s in
  let '(mantissa, m, s) := match s with String "." s' => take_digits int 0 s' | _ => (int, O, s) end in
  if Nat.eqb (n + m) 0 then None else
  let fraction := Z.of_nat m in
  match s with
  | EmptyString => scaled (sign * mantissa) (- fraction)
  | String c s' =>
      if Ascii.eqb (Str.lower c) "e" then
        let '(esign, s') := read_sign s' in
        let '(e, k, s') := take_digits 0 0 s' in
        if Nat.eqb k 0 || negb (String.eqb s' "") then None else scaled (sign * mantissa) (esign * e - fraction)
      else None
  end.

Lemma digit_range c d : digit c = Some d -> (0 <= d <= 9)%Z.
Proof. unfold digit. intros H. case_match eqn:E; simplify_eq. lia. Qed.

Lemma digits_acc_ge acc s n : (0 <= acc)%Z -> digits_acc acc s = Some n -> (acc <= n)%Z.
Proof.
  revert acc. induction s as [|c s IH]; intros acc Hacc H; simpl in H; [naive_solver lia|].
  destruct (digit c) as [d|] eqn:Hd; [|done]. apply digit_range in Hd.
  apply IH in H; lia.
Qed.

Lemma positive_literal_pos s n : positive_literal s = Some n -> (0 < n)%Z.
Proof.
  destruct s as [|c s]; [done|]. simpl. destruct (digit c) as [d|] eqn:Hd; [|done].
  apply digit_range in Hd. case_match eqn:E; [done|].
  intros H. apply digits_acc_ge in H; lia.
Qed.
End Num.

(** ** Dates

    The proleptic Gregorian calendar on days since 1970-01-01, as [Date] has it. *)

Module Date.
Open Scope Z_scope.

Definition ms_per_hour : Z := 3600000.
Definition ms_per_day : Z := 86400000.

(** Year, month (1..12) and day of a day number. *)
Definition civil_of_days (days : Z) : Z * Z * Z :=
  let z := days + 719468 in
  let era := z / 146097 in
  let doe := z - era * 146097 in
  let yoe := (doe - doe / 1460 + doe / 36524 - doe / 146096) / 365 in
  let doy := doe - (365 * yoe + yoe / 4 - yoe / 100) in
  let mp := (5 * doy + 2) / 153 in
  let d := doy - (153 * mp + 2) / 5 + 1 in
  let m := if mp <? 10 then mp + 3 else mp - 9 in
  ((if m <=? 2 then yoe + era * 400 + 1 else yoe + era * 400), m, d).

Definition days_of_civil (y m d : Z) : Z :=
  let y' := if m <=? 2 then y - 1 else y in
  let era := y' / 400 in
  let yoe := y' - era * 400 in
  let doy := (153 * (if m <=? 2 then m + 9 else m - 3) + 2) / 5 + d - 1 in
  let doe := yoe * 365 + yoe / 4 - yoe / 100 + doy in
  era * 146097 + doe - 719468.

Definition getUTCFullYear (t : Z) : Z := (civil_of_days (t / ms_per_day)).1.1.
(** 1-based, [getUTCMonth() + 1] *)
Definition month (t : Z) : Z := (civil_of_days (t / ms_per_day)).1.2.

(** [new Date(Date.UTC(t.getUTCFullYear(), t.getUTCMonth(), 1))] *)
Definition month_start (t : Z) : Z :=
  days_of_civil (getUTCFullYear t) (month t) 1 * ms_per_day.

(** [t.setUTCMinutes(0, 0, 0)] *)
Definition hour_start (t : Z) : Z := t / ms_per_hour * ms_per_hour.

(** [String(n).padStart(2, '0')] *)
Definition pad2 (n : Z) : string :=
  let s := pretty n in if Nat.ltb (String.length s) 2 then "0" +:+ s else s.

(** *** Strings of a date

    [toISOString] for the years 0 to 9999 and the ISO forms [Date.parse] accepts:
    a calendar date, or a date and a time with [Z] or an offset. *)

Fixpoint fixed (width : nat) (n : Z) : string :=
  match width with
  | O => ""
  | S w => fixed w (n / 10) +:+ String (ascii_of_N (Z.to_N (48 + n mod 10))) ""
  end.

Definition toISOString (t : Z) : string :=
  let '(y, m, d) := civil_of_days (t / ms_per_day) in
  let ms := t mod ms_per_day in
  fixed 4 y +:+ "-" +:+ fixed 2 m +:+ "-" +:+ fixed 2 d +:+ "T" +:+
  fixed 2 (ms / 3600000) +:+ ":" +:+ fixed 2 (ms / 60000 mod 60) +:+ ":" +:+
  fixed 2 (ms / 1000 mod 60) +:+ "." +:+ fixed 3 (ms mod 1000) +:+ "Z".

(** Reads [width] digits. *)
Fixpoint read_fixed (width : nat) (acc : Z) (s : string) : option (Z * string) :=
  match width, s with
  | O, _ => Some (acc, s)
  | S w, String c s' =>
      match Num.digit c with
      | Some d => read_fixed w (10 * acc + d) s'
      | None => None
      end
  | S _, EmptyString => None
  end.

Definition read_char (c : ascii) (s : string) : option string :=
  match s with
  | String a s' => if Ascii.eqb a c then Some s' else None
  | EmptyString => None
  end.

(** The fraction of a second in milliseconds; digits beyond the third are dropped. *)
Fixpoint read_fraction (weight acc : Z) (s : string) : Z * string :=
  match s with
  | String c s' =>
      match Num.digit c with
      | Some d => read_fraction (weight / 10) (acc + d * weight) s'
      | None => (acc, s)
      end
  | EmptyString => (acc, s)
  end.

Definition days_in_month (y m : Z) : Z :=
  (if m =? 12 then days_of_civil (y + 1) 1 1 else days_of_civil y (m + 1) 1) - days_of_civil y m 1.

Definition read_zone (s : string) : option Z :=
  match s with
  | String c s' =>
      if Ascii.eqb c "Z" then if String.eqb s' "" then Some 0 else None
      else
        let sign := if Ascii.eqb c "+" then Some (-1) else if Ascii.eqb c "-" then Some 1 else None in
        g ← sign; '(h, s') ← read_fixed 2 0 s'; s' ← read_char ":" s'; '(m, s') ← read_fixed 2 0 s';
        if String.eqb s' "" && (h <? 24) && (m <? 60) then Some (g * (h * 3600000 + m * 60000)) else None
  | EmptyString => None
  end.

Definition parse (s : string) : option Z :=
  '(y, s) ← read_fixed 4 0 s; s ← read_char "-" s;
  '(m, s) ← read_fixed 2 0 s; s ← read_char "-" s;
  '(d, s) ← read_fixed 2 0 s;
  if negb ((1 <=? m) && (m <=? 12) && (1 <=? d) && (d <=? days_in_month y m)) then None else
  let day := days_of_civil y m d * ms_per_day in
  if String.eqb s "" then Some day else
  s ← read_char "T" s;
  '(h, s) ← read_fixed 2 0 s; s ← read_char ":" s;
  '(mi, s) ← read_fixed 2 0 s; s ← read_char ":" s;
  '(sec, s) ← read_fixed 2 0 s;
  let '(ms, s) := match read_char "." s with
                  | Some s' => read_fraction 100 0 s'
                  | None => (0, s)
                  end in
  z ← read_zone s;
  if (h <? 24) && (mi <? 60) && (sec <? 60)
  then Some (day + h * 3600000 + mi * 60000 + sec * 1000 + ms + z) else None.

#[global] Arguments toISOString : simpl never.
#[global] Arguments parse : simpl never.

(** *** Laws of the calendar *)

Lemma doe_bounds doe : 0 <= doe < 146097 ->
  let yoe := (doe - doe / 1460 + doe / 36524 - doe / 146096) / 365 in
  0 <= yoe < 400 /\ 0 <= doe - (365 * yoe + yoe / 4 - yoe / 100) < 367.
Proof. intros H. simpl. Z.to_euclidean_division_equations. lia. Qed.

Lemma civil_round_trip z : let '(y, m, d) := civil_of_days z in days_of_civil y m d = z.
Proof.
  unfold civil_of_days, days_of_civil.
  set (era := (z + 719468) / 146097). set (doe := z + 719468 - era * 146097).
  assert (Hdoe : 0 <= doe < 146097).
  { unfold doe, era. pose proof (Z.mod_pos_bound (z + 719468) 146097).
    pose proof (Z.div_mod (z + 719468) 146097). lia. }
  pose proof (doe_bounds doe Hdoe) as [Hy Hd]. cbv zeta in *.
  set (yoe := (doe - doe / 1460 + doe / 36524 - doe / 146096) / 365) in *.
  set (doy := doe - (365 * yoe + yoe / 4 - yoe / 100)) in *.
  set (mp := (5 * doy + 2) / 153).
  assert (Hmp : 0 <= mp < 12) by (unfold mp; Z.to_euclidean_division_equations; lia).
  assert (Hera : (yoe + era * 400) / 400 = era) by (Z.to_euclidean_division_equations; lia).
  destruct (Z.ltb_spec mp 10).
  - destruct (Z.leb_spec (mp + 3) 2); [lia|]. rewrite Hera.
    replace (yoe + era * 400 - era * 400) with yoe by lia.
    replace (mp + 3 - 3) with mp by lia. unfold doy, doe. lia.
  - destruct (Z.leb_spec (mp - 9) 2); [|lia].
    replace (yoe + era * 400 + 1 - 1) with (yoe + era * 400) by lia. rewrite Hera.
    replace (yoe + era * 400 - era * 400) with yoe by lia.
    replace (mp - 9 + 9) with mp by lia. unfold doy, doe. lia.
Qed.

Lemma civil_of_days_inj z z' : civil_of_days z = civil_of_days z' -> z = z'.
Proof.
  intros E. pose proof (civil_round_trip z) as H. pose proof (civil_round_trip z') as H'.
  rewrite <- E in H'. destruct (civil_of_days z) as [[y m] d]. congruence.
Qed.

Lemma hour_start_le t : hour_start t <= t < hour_start t + ms_per_hour.
Proof. unfold hour_start, ms_per_hour. pose proof (Z.div_mod t 3600000). pose proof (Z.mod_pos_bound t 3600000). lia. Qed.

Lemma hour_start_idem t : hour_start (hour_start t) = hour_start t.
Proof. unfold hour_start. by rewrite Z.div_mul by done. Qed.
End Date.

(** ** JSON.stringify on strings and arrays of strings *)

Module Json.
Definition dquote : ascii := "034".
Definition backslash : ascii := "092".

Definition hex_digit (n : N) : ascii := ascii_of_N (if (n <? 10)%N then 48 + n else 87 + n).

(** The escape of one code unit. *)
Definition escape (c : ascii) : string :=
  let n := N_of_ascii c in
  let short s := String backslash s in
  match n with
  | 34%N => short (String dquote "")
  | 92%N => short (String backslash "")
  | 8%N => short "b" | 9%N => short "t" | 10%N => short "n" | 12%N => short "f" | 13%N => short "r"
  | _ => if (n <? 32)%N
         then short ("u00" +:+ String (hex_digit (n / 16)) (String (hex_digit (n mod 16)) ""))
         else String c ""
  end.

Fixpoint escape_all (s : string) : string :=
  match s with
  | EmptyString => EmptyString
  | String c s' => escape c +:+ escape_all s'
  end.

Definition quote (s : string) : string := String dquote (escape_all s +:+ String dquote "").

Fixpoint elements (ws : list string) : string :=
  match ws with
  | [] => ""
  | [w] => quote w
  | w :: ws' => quote w +:+ "," +:+ elements ws'
  end.

Definition stringify_array (ws : list string) : string := "[" +:+ elements ws +:+ "]".

(** *** Injectivity *)

Definition compatible (a b : string) : bool := Str.startsWith a b || Str.startsWith b a.

Lemma app_assoc_str (a b c : string) : (a +:+ b) +:+ c = a +:+ b +:+ c.
Proof. induction a as [|x a IH]; [done|]. simpl. by rewrite IH. Qed.

Lemma app_compatible a b x y : a +:+ x = b +:+ y -> compatible a b = true.
Proof.
  unfold compatible. revert b. induction a as [|c a IH]; intros [|d b] H; [done..|].
  simpl in *. injection H as -> H. rewrite Ascii.eqb_refl. by apply IH in H.
Qed.

Definition all_chars : list ascii := map (fun n => ascii_of_nat n) (seq 0 256).

Lemma in_all_chars c : In c all_chars.
Proof.
  apply in_map_iff. exists (nat_of_ascii c). rewrite ascii_nat_embedding. split; [done|].
  apply in_seq. pose proof (nat_ascii_bounded c). lia.
Qed.

Lemma prefix_free_checked :
  forallb (fun c => negb (Str.startsWith (String dquote "") (escape c)) &&
    forallb (fun d => Ascii.eqb c d || negb (compatible (escape c) (escape d))) all_chars) all_chars = true.
Proof. vm_compute. reflexivity. Qed.

Lemma escape_cases c :
  Str.startsWith (String dquote "") (escape c) = false /\
  forall d, c = d \/ compatible (escape c) (escape d) = false.
Proof.
  pose proof prefix_free_checked as H. rewrite forallb_forall in H.
  apply (fun H => H c (in_all_chars c)), andb_true_iff in H as [H1%negb_true_iff H2].
  split; [done|]. intros d. rewrite forallb_forall in H2. specialize (H2 d (in_all_chars d)).
  apply orb_true_iff in H2 as [->%Ascii.eqb_eq|H2%negb_true_iff]; auto.
Qed.

Lemma app_inv_str (a x y : string) : a +:+ x = a +:+ y -> x = y.
Proof. induction a as [|c a IH]; simpl; [done|]. intros [=]. auto. Qed.

Lemma escape_not_quote c x y : escape c +:+ x <> String dquote y.
Proof.
  intros H. destruct (escape_cases c) as [Hq _]. destruct (escape c) as [|d e] eqn:E.
  - destruct c as [[] [] [] [] [] [] [] []]; discriminate E.
  - injection H as -> _. by destruct e.
Qed.

Lemma escape_all_inj s t x y :
  escape_all s +:+ String dquote x = escape_all t +:+ String dquote y -> s = t /\ x = y.
Proof.
  revert t. induction s as [|c s IH]; intros [|d t]; simpl; rewrite ?app_assoc_str.
  - intros [=]. done.
  - intros H. symmetry in H. by apply escape_not_quote in H.
  - intros H. by apply escape_not_quote in H.
  - intros H. destruct (escape_cases c) as [_ Hc]. destruct (Hc d) as [<-|Hd].
    + apply app_inv_str, IH in H as [-> ->]. done.
    + apply app_compatible in H. congruence.
Qed.

Lemma quote_inj s t x y : quote s +:+ x = quote t +:+ y -> s = t /\ x = y.
Proof.
  unfold quote. simpl. rewrite !app_assoc_str. simpl. intros H. injection H as H.
  by apply escape_all_inj in H.
Qed.

Lemma elements_inj ws vs x y :
  length ws = length vs -> elements ws +:+ x = elements vs +:+ y -> ws = vs /\ x = y.
Proof.
  revert vs. induction ws as [|w ws IH]; intros [|v vs] Hl H; try discriminate Hl; [done|].
  destruct ws as [|w' ws], vs as [|v' vs]; try discriminate Hl; cbn [elements] in H.
  - apply quote_inj in H as [-> ->]. done.
  - rewrite !app_assoc_str in H. apply quote_inj in H as [-> H]. injection H as H.
    destruct (IH (v' :: vs)) as [-> ->]; [simpl in *; lia|done|done].
Qed.

Lemma stringify_array_inj ws vs : length ws = length vs -> stringify_array ws = stringify_array vs -> ws = vs.
Proof. unfold stringify_array. intros Hl [= H]. by apply elements_inj in H as [-> _]. Qed.

(** *** Values *)

Inductive value :=
  | JNull
  | JBool (b : bool)
  | JNum (n : Z)
  | JStr (s : string)
  | JArr (vs : list value)
  | JObj (fs : list (string * value)).

Fixpoint stringify (v : value) : string :=
  match v with
  | JNull => "null"
  | JBool b => if b then "true" else "false"
  | JNum n => pretty n
  | JStr s => quote s
  | JArr vs => "[" +:+ Str.join "," (map stringify vs) +:+ "]"
  | JObj fs => "{" +:+ Str.join "," (map (fun f => quote f.1 +:+ ":" +:+ stringify f.2) fs) +:+ "}"
  end.

(** [o[k]]: the own property, [None] for [undefined]. *)
Fixpoint field (k : string) (fs : list (string * value)) : option value :=
  match fs with
  | [] => None
  | (k', v) :: fs' => if String.eqb k k' then Some v else field k fs'
  end.

(** [o[k] = v]: an existing property keeps its place, a new one goes last. *)
Fixpoint set_field (k : string) (v : value) (fs : list (string * value)) : list (string * value) :=
  match fs with
  | [] => [(k, v)]
  | (k', v') :: fs' => if String.eqb k k' then (k, v) :: fs' else (k', v') :: set_field k v fs'
  end.

(** [{ ...a, ...b }] *)
Definition spread (a b : list (string * value)) : list (string * value) :=
  fold_left (fun acc f => set_field f.1 f.2 acc) b a.

Definition get (k : string) (v : value) : option value :=
  match v with JObj fs => field k fs | _ => None end.

Definition as_str (v : option value) : option string :=
  match v with Some (JStr s) => Some s | _ => None end.

(** JavaScript truthiness. *)
Definition truthy (v : value) : bool :=
  match v with
  | JNull => false
  | JBool b => b
  | JNum n => negb (n =? 0)%Z
  | JStr s => negb (String.eqb s "")
  | JArr _ | JObj _ => true
  end.

(** The properties every object literal inherits from [Object.prototype]; all are
    truthy. *)
Definition object_prototype : list string :=
  ["constructor"; "__defineGetter__"; "__defineSetter__"; "hasOwnProperty"; "__lookupGetter__";
   "__lookupSetter__"; "isPrototypeOf"; "propertyIsEnumerable"; "toString"; "valueOf"; "__proto__";
   "toLocaleString"].

(** [Boolean(o[k])] *)
Definition property_truthy (k : string) (fs : list (string * value)) : bool :=
  match field k fs with
  | Some v => truthy v
  | None => existsb (String.eqb k) object_prototype
  end.

(** A property of an object literal under construction: [undefined] ones are
    dropped when the object is serialised. *)
Definition opt_field (k : string) (v : option value) : list (string * value) :=
  match v with Some v => [(k, v)] | None => [] end.

Lemma field_set_eq k v fs : field k (set_field k v fs) = Some v.
Proof.
  induction fs as [|[k' v'] fs IH]; simpl; [by rewrite String.eqb_refl|].
  destruct (String.eqb k k') eqn:E; simpl; [by rewrite String.eqb_refl | by rewrite E].
Qed.

Lemma field_set_ne k k' v fs : k <> k' -> field k (set_field k' v fs) = field k fs.
Proof.
  intros Hne. induction fs as [|[k0 v0] fs IH]; simpl.
  - by destruct (String.eqb_spec k k').
  - destruct (String.eqb_spec k' k0) as [<-|]; simpl.
    + by destruct (String.eqb_spec k k').
    + destruct (String.eqb k k0); [done | apply IH].
Qed.

Lemma field_spread k a b :
  field k (spread a b) = match field k (rev b) with Some v => Some v | None => field k a end.
Proof.
  unfold spread. induction b as [|[k' v] b IH] using rev_ind; [done|].
  rewrite fold_left_app, rev_app_distr. simpl. destruct (String.eqb_spec k k') as [->|Hne].
  - by rewrite field_set_eq.
  - by rewrite field_set_ne.
Qed.
End Json.

(** ** decodeURIComponent

    Percent escapes of the code points below 256, in UTF-8.  The result is [None]
    where the function throws, and for code points the string model leaves out. *)

Module Uri.
Definition hex (c : ascii) : option N :=
  let n := N_of_ascii c in
  if ((48 <=? n) && (n <=? 57))%N then Some (n - 48)%N
  else if ((65 <=? n) && (n <=? 70))%N then Some (n - 55)%N
  else if ((97 <=? n) && (n <=? 102))%N then Some (n - 87)%N
  else None.

Fixpoint decode (s : string) : option string :=
  match s with
  | EmptyString => Some ""
  | String "%" (String a (String b s1)) =>
      h ← hex a; l ← hex b;
      let n := (16 * h + l)%N in
      if (n <? 128)%N then r ← decode s1; Some (String (ascii_of_N n) r)
      else if ((n =? 194) || (n =? 195))%N then
        match s1 with
        | String "%" (String c (String d s2)) =>
            h' ← hex c; l' ← hex d;
            let n' := (16 * h' + l')%N in
            if ((128 <=? n') && (n' <? 192))%N
            then r ← decode s2; Some (String (ascii_of_N (64 * (n - 192) + (n' - 128))) r)
            else None
        | _ => None
        end
      else None
  | String "%" _ => None
  | String c s' => r ← decode s'; Some (String c r)
  end.

Definition hex_upper (n : N) : ascii := ascii_of_N (if (n <? 10)%N then 48 + n else 55 + n).

Definition percent (n : N) : string := String "%" (String (hex_upper (n / 16)) (String (hex_upper (n mod 16)) "")).

(** [encodeURIComponent] keeps letters, digits and [-_.!~*'()]. *)
Definition component_char (c : ascii) : string :=
  let n := N_of_ascii c in
  if (((48 <=? n) && (n <=? 57)) || ((65 <=? n) && (n <=? 90)) || ((97 <=? n) && (n <=? 122))
      || (n =? 45) || (n =? 95) || (n =? 46) || (n =? 33) || (n =? 126) || (n =? 42) || (n =? 39)
      || (n =? 40) || (n =? 41))%N then String c ""
  else if (n <? 128)%N then percent n
  else percent (192 + n / 64) +:+ percent (128 + n mod 64).

Fixpoint encodeURIComponent (s : string) : string :=
  match s with
  | EmptyString => EmptyString
  | String c s' => component_char c +:+ encodeURIComponent s'
  end.

(** One character of an [application/x-www-form-urlencoded] serialisation. *)
Definition form_char (c : ascii) : string :=
  let n := N_of_ascii c in
  if (((48 <=? n) && (n <=? 57)) || ((65 <=? n) && (n <=? 90)) || ((97 <=? n) && (n <=? 122))
      || (n =? 42) || (n =? 45) || (n =? 46) || (n =? 95))%N then String c ""
  else if (n =? 32)%N then "+"
  else if (n <? 128)%N then percent n
  else percent (192 + n / 64) +:+ percent (128 + n mod 64).

Fixpoint form_encode (s : string) : string :=
  match s with
  | EmptyString => EmptyString
  | String c s' => form_char c +:+ form_encode s'
  end.

(** [new URLSearchParams(o).toString()] *)
Definition form (fs : list (string * string)) : string :=
  Str.join "&" (map (fun f => form_encode f.1 +:+ "=" +:+ form_encode f.2) fs).

Lemma decode_component_char c r : decode (component_char c +:+ r) = d ← decode r; Some (String c d).
Proof. destruct c as [[] [] [] [] [] [] [] []]; reflexivity. Qed.

(** What [encodeURIComponent] writes, [decodeURIComponent] reads back. *)
Lemma decode_encode s : decode (encodeURIComponent s) = Some s.
Proof. induction s as [|c s IH]; [done|]. simpl. by rewrite decode_component_char, IH. Qed.

(** A string without percent signs is its own decoding. *)
Lemma decode_plain s : Str.contains "%" s = false -> decode s = Some s.
Proof.
  induction s as [|c s IH]; [done|]. intros H.
  assert (Hc : Ascii.eqb "%" c = false /\ Str.contains "%" s = false).
  { cbn [Str.contains Str.startsWith] in H. apply orb_false_iff in H as [H1 H2].
    by rewrite andb_true_r in H1. }
  destruct Hc as [Hc Hs]. apply IH in Hs.
  destruct c as [[] [] [] [] [] [] [] []]; try discriminate Hc; cbn [decode]; by rewrite Hs.
Qed.
End Uri.
