(* ===== verification/Regex.v ===== *)
(** * Regular expressions

    The anchored expressions [/^...$/.test(s)] of the source, as terms with a matcher by
    derivatives and the language each denotes; and the replacements
    [s.replace(/[p]+/g, w)] and [s.replace(/[p]/g, w)] over a class of characters. *)

From S2P Require Import Prelude Js.

Module Regex.
Inductive re :=
  | Void
  | Eps
  | Cls (p : ascii -> bool)
  | Cat (a b : re)
  | Alt (a b : re)
  | Star (a : re).

(** The language of an expression. *)
Inductive lang : re -> string -> Prop :=
  | l_eps : lang Eps ""
  | l_cls p c : p c = true -> lang (Cls p) (String c "")
  | l_cat a b s t : lang a s -> lang b t -> lang (Cat a b) (s +:+ t)
  | l_left a b s : lang a s -> lang (Alt a b) s
  | l_right a b s : lang b s -> lang (Alt a b) s
  | l_stop a : lang (Star a) ""
  | l_more a c s t : lang a (String c s) -> lang (Star a) t -> lang (Star a) (String c s +:+ t).

Fixpoint nullable (r : re) : bool :=
  match r with
  | Eps | Star _ => true
  | Void | Cls _ => false
  | Cat a b => nullable a && nullable b
  | Alt a b => nullable a || nullable b
  end.

(** Sums and products that drop the empty cases, so that derivatives stay small. *)
Definition cat (a b : re) : re :=
  match a, b with Void, _ => Void | _, Void => Void | Eps, _ => b | _, _ => Cat a b end.
Definition alt (a b : re) : re :=
  match a, b with Void, _ => b | _, Void => a | _, _ => Alt a b end.

Fixpoint deriv (c : ascii) (r : re) : re :=
  match r with
  | Void | Eps => Void
  | Cls p => if p c then Eps else Void
  | Cat a b => if nullable a then alt (cat (deriv c a) b) (deriv c b) else cat (deriv c a) b
  | Alt a b => alt (deriv c a) (deriv c b)
  | Star a => cat (deriv c a) (Star a)
  end.

(** [/^r$/.test(s)] *)
Fixpoint test (r : re) (s : string) : bool :=
  match s with
  | EmptyString => nullable r
  | String c s' => test (deriv c r) s'
  end.

(** ** Expressions as they are written *)

Definition opt (a : re) : re := Alt a Eps.
Definition plus (a : re) : re := Cat a (Star a).
Fixpoint exactly (n : nat) (a : re) : re := match n with O => Eps | S n' => Cat a (exactly n' a) end.
Fixpoint upto (n : nat) (a : re) : re := match n with O => Eps | S n' => Alt Eps (Cat a (upto n' a)) end.
Definition between (m n : nat) (a : re) : re := Cat (exactly m a) (upto (n - m) a).
Fixpoint str (w : string) : re :=
  match w with EmptyString => Eps | String c w' => Cat (Cls (Ascii.eqb c)) (str w') end.
Definition seq (l : list re) : re := foldr Cat Eps l.
Definition any (l : list re) : re := foldr Alt Void l.

Definition in_range (a b c : ascii) : bool := (Str.code a <=? Str.code c)%N && (Str.code c <=? Str.code b)%N.
Fixpoint one_of (w : string) (c : ascii) : bool :=
  match w with EmptyString => false | String d w' => Ascii.eqb c d || one_of w' c end.
Definition digit : ascii -> bool := in_range "0" "9".
Definition lower_letter : ascii -> bool := in_range "a" "z".
Definition letter (c : ascii) : bool := lower_letter c || in_range "A" "Z" c.
Definition alnum (c : ascii) : bool := letter c || digit c.

(** ** The matcher decides the language *)

Lemma lang_cat_iff a b s : lang (Cat a b) s <-> exists u v, s = u +:+ v /\ lang a u /\ lang b v.
Proof. split; [intros H; inversion H; subst; eauto | intros (u & v & -> & ? & ?); by constructor]. Qed.

Lemma nullable_spec r : nullable r = true <-> lang r "".
Proof.
  induction r as [| |p|a IHa b IHb|a IHa b IHb|a IHa]; simpl.
  - split; [done | intros H; inversion H].
  - split; [constructor | done].
  - split; [done | intros H; inversion H].
  - rewrite andb_true_iff, IHa, IHb. split.
    + intros [Ha Hb]. apply (l_cat a b "" ""); done.
    + intros (u & v & Huv & Hu & Hv)%lang_cat_iff. destruct u, v; done.
  - rewrite orb_true_iff, IHa, IHb. split.
    + intros [H|H]; [by apply l_left | by apply l_right].
    + intros H. inversion H; subst; auto.
  - split; [constructor | done].
Qed.

Lemma lang_cat a b s : lang (cat a b) s <-> lang (Cat a b) s.
Proof.
  assert (Hvoid : forall s, lang Void s -> False) by (intros ? H; inversion H).
  destruct a, b; simpl; try done; split; intros H; try (exfalso; by eapply Hvoid);
    try (inversion H as [| |x y s1 t Hs Ht| | | |]; subst; solve [exfalso; eauto | by inversion Hs; subst]);
    try (change s with ("" +:+ s); constructor; [constructor | done]).
Qed.

Lemma lang_alt a b s : lang (alt a b) s <-> lang (Alt a b) s.
Proof.
  assert (Hvoid : forall s, lang Void s -> False) by (intros ? H; inversion H).
  destruct a, b; simpl; try done; split; intros H; try (exfalso; by eapply Hvoid); try (by apply l_left); try (by apply l_right);
    try (inversion H; subst; [exfalso; eauto | done] || (inversion H; subst; [done | exfalso; eauto])).
Qed.

Lemma cat_inv a b c s : lang (Cat a b) (String c s) <->
  (exists u v, s = u +:+ v /\ lang a (String c u) /\ lang b v) \/ (lang a "" /\ lang b (String c s)).
Proof.
  split.
  - intros (u & v & Huv & Hu & Hv)%lang_cat_iff. destruct u as [|d u]; simpl in Huv.
    + right. by rewrite Huv.
    + left. injection Huv as -> ->. by exists u, v.
  - intros [(u & v & -> & Hu & Hv)|[Ha Hb]].
    + by apply (l_cat a b (String c u) v).
    + by apply (l_cat a b "" (String c s)).
Qed.

Lemma star_inv a c s : lang (Star a) (String c s) <-> exists u v, s = u +:+ v /\ lang a (String c u) /\ lang (Star a) v.
Proof.
  split.
  - intros H. inversion H; subst. eauto.
  - intros (u & v & -> & Hu & Hv). by apply l_more.
Qed.

Lemma deriv_spec c r s : lang (deriv c r) s <-> lang r (String c s).
Proof.
  revert s. induction r as [| |p|a IHa b IHb|a IHa b IHb|a IHa]; intros s; simpl.
  - split; intros H; inversion H.
  - split; intros H; inversion H.
  - split.
    + destruct (p c) eqn:E; intros H; inversion H. by constructor.
    + intros H. inversion H as [|? ? Hp| | | | |]; subst. rewrite Hp. constructor.
  - rewrite cat_inv. destruct (nullable a) eqn:E.
    + rewrite lang_alt. split.
      * intros H. inversion H as [| | |? ? ? Hl|? ? ? Hr| |]; subst.
        -- left. apply lang_cat in Hl. inversion Hl; subst. eexists _, _. split_and!; [done|by apply IHa|done].
        -- right. split; [by apply nullable_spec | by apply IHb].
      * intros [(u & v & -> & Hu & Hv)|[_ Hb]].
        -- apply l_left, lang_cat. constructor; [by apply IHa | done].
        -- apply l_right. by apply IHb.
    + rewrite lang_cat. split.
      * intros H. inversion H; subst. left. eexists _, _. split_and!; [done|by apply IHa|done].
      * intros [(u & v & -> & Hu & Hv)|[Ha _]]; [constructor; [by apply IHa | done]|].
        apply nullable_spec in Ha. congruence.
  - rewrite lang_alt. split; intros H; inversion H; subst; (by apply l_left, IHa) || (by apply l_right, IHb).
  - rewrite lang_cat, star_inv. split.
    + intros H. inversion H; subst. eexists _, _. split_and!; [done|by apply IHa|done].
    + intros (u & v & -> & Hu & Hv). constructor; [by apply IHa | done].
Qed.

Lemma test_spec r s : test r s = true <-> lang r s.
Proof.
  revert r. induction s as [|c s IH]; intros r; simpl; [apply nullable_spec|]. by rewrite IH, deriv_spec.
Qed.

(** *** Reading the language of the combinators *)

Fixpoint every (p : ascii -> bool) (s : string) : bool :=
  match s with EmptyString => true | String c s' => p c && every p s' end.

Lemma app_str_nil (s : string) : s +:+ "" = s.
Proof. induction s as [|c s IH]; [done|]. simpl. by rewrite IH. Qed.

Lemma every_app p s t : every p (s +:+ t) = every p s && every p t.
Proof. induction s as [|c s IH]; [done|]. simpl. by rewrite IH, andb_assoc. Qed.

Lemma lang_cls p s : lang (Cls p) s <-> exists c, s = String c "" /\ p c = true.
Proof.
  split; [intros H; inversion H; subst; eauto | intros (c & -> & H); by constructor].
Qed.

Lemma lang_alt_iff a b s : lang (Alt a b) s <-> lang a s \/ lang b s.
Proof. split; [intros H; inversion H; subst; auto | intros [H|H]; [by apply l_left | by apply l_right]]. Qed.

Lemma lang_star_cls p s : lang (Star (Cls p)) s <-> every p s = true.
Proof.
  induction s as [|c s IH]; simpl; [split; [done | constructor]|].
  rewrite star_inv, andb_true_iff, <- IH. split.
  - intros (u & v & -> & (d & [= <- ->] & Hp)%lang_cls & Hv). done.
  - intros [Hp Hs]. exists "", s. split_and!; [done|by constructor|done].
Qed.

Lemma lang_plus_cls p s : lang (plus (Cls p)) s <-> s <> "" /\ every p s = true.
Proof.
  unfold plus. rewrite lang_cat_iff. split.
  - intros (u & v & -> & (c & -> & Hc)%lang_cls & Hv%lang_star_cls). simpl. by rewrite Hc.
  - destruct s as [|c s]; intros [Hne H]; [done|]. simpl in H. apply andb_true_iff in H as [Hc Hs].
    exists (String c ""), s. split_and!; [done|by constructor|by apply lang_star_cls].
Qed.

Lemma lang_exactly p n s : lang (exactly n (Cls p)) s <-> String.length s = n /\ every p s = true.
Proof.
  revert s. induction n as [|n IH]; intros s; simpl.
  - split; [intros H; by inversion H | intros [H _]; destruct s; [constructor | done]].
  - rewrite lang_cat_iff. split.
    + intros (u & v & -> & (c & -> & Hc)%lang_cls & [Hl He]%IH). simpl. rewrite Hc, Hl. done.
    + destruct s as [|c s]; simpl; [by intros [? _]|]. intros [[= Hl] [Hc Hs]%andb_true_iff].
      exists (String c ""), s. split_and!; [done|by constructor|by apply IH].
Qed.

Lemma lang_upto p n s : lang (upto n (Cls p)) s <-> (String.length s <= n)%nat /\ every p s = true.
Proof.
  revert s. induction n as [|n IH]; intros s; simpl.
  - split; [intros H; inversion H; simpl; auto | intros [H _]; destruct s; [constructor | simpl in H; lia]].
  - rewrite lang_alt_iff, lang_cat_iff. split.
    + intros [H|(u & v & -> & (c & -> & Hc)%lang_cls & [Hl He]%IH)]; [inversion H; simpl; split; [lia | done]|].
      simpl. rewrite Hc. split; [lia | done].
    + destruct s as [|c s]; simpl; [left; constructor|]. intros [Hl [Hc Hs]%andb_true_iff]. right.
      exists (String c ""), s. split_and!; [done|by constructor|apply IH; split; [lia | done]].
Qed.

Lemma length_app_str (s t : string) : String.length (s +:+ t) = (String.length s + String.length t)%nat.
Proof. induction s as [|c s IH]; [done|]. simpl. by rewrite IH. Qed.

Lemma split_at_length (s : string) m : (m <= String.length s)%nat -> exists u v, s = u +:+ v /\ String.length u = m.
Proof.
  revert m. induction s as [|c s IH]; intros [|m]; simpl; intros Hm; try lia.
  - by exists "", "".
  - by exists "", (String c s).
  - destruct (IH m) as (u & v & -> & Hu); [lia|]. exists (String c u), v. simpl. by rewrite Hu.
Qed.

Lemma lang_between p m n s : (m <= n)%nat ->
  lang (between m n (Cls p)) s <-> (m <= String.length s <= n)%nat /\ every p s = true.
Proof.
  intros Hmn. unfold between. rewrite lang_cat_iff. split.
  - intros (u & v & -> & [Hl He]%lang_exactly & [Hl' He']%lang_upto).
    rewrite length_app_str, every_app, He, He'. split; [lia | done].
  - intros [[Hm Hn] He]. destruct (split_at_length s m Hm) as (u & v & -> & Hu).
    rewrite length_app_str in Hn. rewrite every_app, andb_true_iff in He. destruct He as [Heu Hev].
    exists u, v. split; [done|]. split; [by apply lang_exactly|]. apply lang_upto. split; [lia | done].
Qed.

Lemma lang_str w s : lang (str w) s <-> s = w.
Proof.
  revert s. induction w as [|c w IH]; intros s; simpl; [split; [intros H; by inversion H | intros ->; constructor]|].
  rewrite lang_cat_iff. split.
  - intros (u & v & -> & (d & -> & Hd%Ascii.eqb_eq)%lang_cls & ->%IH). by rewrite Hd.
  - intros ->. exists (String c ""), w. split_and!; [done|constructor; apply Ascii.eqb_refl|by apply IH].
Qed.

(** ** Replacements *)

(** [s.replace(/[p]/g, w)] *)
Fixpoint replace_each (p : ascii -> bool) (w : string) (s : string) : string :=
  match s with
  | EmptyString => EmptyString
  | String c s' => if p c then w +:+ replace_each p w s' else String c (replace_each p w s')
  end.

(** [s.replace(/[p]+/g, w)]: [in_run] tells that the character before was in a run,
    which has been replaced already. *)
Fixpoint replace_runs (p : ascii -> bool) (w : string) (in_run : bool) (s : string) : string :=
  match s with
  | EmptyString => EmptyString
  | String c s' =>
      if p c then if in_run then replace_runs p w true s' else w +:+ replace_runs p w true s'
      else String c (replace_runs p w false s')
  end.

Lemma replace_each_app p w s t : replace_each p w (s +:+ t) = replace_each p w s +:+ replace_each p w t.
Proof.
  induction s as [|c s IH]; [done|]. simpl. rewrite IH. destruct (p c); [by rewrite Json.app_assoc_str | done].
Qed.

Lemma every_replace_each (p q : ascii -> bool) w s :
  every q w = true -> (forall c, p c = false -> q c = true) -> every q (replace_each p w s) = true.
Proof.
  intros Hw Hq. induction s as [|c s IH]; [done|]. simpl. destruct (p c) eqn:E; simpl.
  - by rewrite every_app, Hw, IH.
  - by rewrite Hq, IH.
Qed.
End Regex.
