(* ===== verification/Interleaving.v ===== *)
(** * Interleaved computations

    An [async] function gives up control at every [await]: between two of its steps the
    other functions of the process, and the other processes, run.  [prog] is such a
    function cut into its atomic steps; [istep] runs a pool of them in any order, lets
    any of them vanish (a crash) and lets the rest of the system act.  An invariant is
    proved one step at a time: [safe] follows the local knowledge of one run, which the
    steps of the others must leave true. *)

From S2P Require Import Prelude.

Section prog.
Context {W : Type}.

Inductive prog (A : Type) : Type :=
  | Return (r : result A)
  | Step (X : Type) (m : W -> X * W) (k : X -> prog A).
Arguments Return {A} r.
Arguments Step {A X} m k.

(** What follows a computation, for either outcome *)
Fixpoint afterwards {A B} (p : prog A) (h : result A -> prog B) : prog B :=
  match p with
  | Return r => h r
  | Step m k => Step m (fun x => afterwards (k x) h)
  end.

Definition raise {A} (e : exn) : prog A := Return (Throw e).

#[global] Instance prog_ret : MRet prog := fun _ a => Return (Ok a).
#[global] Instance prog_bind : MBind prog := fun _ _ f p =>
  afterwards p (fun r => match r with Ok a => f a | Throw e => raise e end).

Definition catching {A} (p : prog A) (h : exn -> prog A) : prog A :=
  afterwards p (fun r => match r with Ok a => mret a | Throw e => h e end).
Definition finally {A} (p : prog A) (f : result A -> prog unit) : prog A :=
  afterwards p (fun r => afterwards (f r) (fun r' => match r' with Ok _ => Return r | Throw e => raise e end)).

(** One atomic step *)
Definition act {A} (m : eff W A) : prog A := Step m Return.
Definition lifted {A} (r : result A) : prog A := Return r.

Fixpoint each {A} (xs : list A) (f : A -> prog unit) : prog unit :=
  match xs with
  | [] => mret tt
  | x :: xs' => _ ← f x; each xs' f
  end.

(** A run without interruption *)
Fixpoint alone {A} (p : prog A) : eff W A := fun w =>
  match p with
  | Return r => (r, w)
  | Step m k => alone (k (m w).1) (m w).2
  end.

Lemma alone_after {A B} (p : prog A) (h : result A -> prog B) w : alone (afterwards p h) w = alone (h (alone p w).1) (alone p w).2.
Proof using Type. revert w. induction p as [r|X m k IH]; intros w; [done | apply IH]. Qed.

Lemma alone_bind {A B} (p : prog A) (k : A -> prog B) w :
  alone (p ≫= k) w = match alone p w with (Ok a, w') => alone (k a) w' | (Throw e, w') => (Throw e, w') end.
Proof using Type. unfold mbind, prog_bind. rewrite alone_after. by destruct (alone p w) as [[a|e] w']. Qed.

Lemma alone_catching {A} (p : prog A) h w :
  alone (catching p h) w = match alone p w with (Ok a, w') => (Ok a, w') | (Throw e, w') => alone (h e) w' end.
Proof using Type. unfold catching. rewrite alone_after. by destruct (alone p w) as [[a|e] w']. Qed.

Lemma alone_finally {A} (p : prog A) f w :
  alone (finally p f) w = let (r, w') := alone p w in match alone (f r) w' with (Ok _, w2) => (r, w2) | (Throw e, w2) => (Throw e, w2) end.
Proof using Type.
  unfold finally. rewrite alone_after. destruct (alone p w) as [r w']. cbn [fst snd]. rewrite alone_after. by destruct (alone (f r) w') as [[[]|e] w2].
Qed.

(** ** Pools of runs *)

Section pool.
Context {A : Type}.
Variable start : nat -> prog A -> Prop.     (* the programs that may be started, by run *)
Variable other : relation W.                (* the steps of the rest of the system *)

Inductive istep : gmap nat (prog A) * W -> gmap nat (prog A) * W -> Prop :=
  | step_run t X (m : W -> X * W) k ps w : ps !! t = Some (Step m k) -> istep (ps, w) (<[t := k (m w).1]> ps, (m w).2)
  | step_start t p ps w : ps !! t = None -> start t p -> istep (ps, w) (<[t := p]> ps, w)
  | step_end t ps w : istep (ps, w) (delete t ps, w)
  | step_other ps w w' : other w w' -> istep (ps, w) (ps, w').

(** A run that is not interrupted is one of the schedules. *)
Lemma alone_steps t p ps w : rtc istep (<[t := p]> ps, w) (<[t := Return (alone p w).1]> ps, (alone p w).2).
Proof using Type.
  revert w. induction p as [r|X m k IH]; intros w; [apply rtc_refl|]. eapply rtc_l; [apply (step_run t X m k); apply lookup_insert_eq|].
  rewrite insert_insert_eq. apply IH.
Qed.

(** ** Invariants of a pool

    [Inv] holds between all steps; [G t w w'] is what the steps of run [t] promise to the
    other runs. *)
Variable Inv : W -> Prop.
Variable G : nat -> relation W.

(** Local knowledge of run [t] that nobody else can make false *)
Definition stable (t : nat) (P : W -> Prop) : Prop :=
  (forall t' w w', t' <> t -> Inv w -> G t' w w' -> P w -> P w') /\ (forall w w', Inv w -> other w w' -> P w -> P w').

Fixpoint safe {B} (t : nat) (P : W -> Prop) (p : prog B) (Q : result B -> (W -> Prop) -> Prop) : Prop :=
  match p with
  | Return r => Q r P
  | Step m k => forall w, Inv w -> P w -> Inv (m w).2 /\ G t w (m w).2 /\
      exists P', P' (m w).2 /\ stable t P' /\ safe t P' (k (m w).1) Q
  end.

Lemma safe_after {B C} t P (p : prog B) (h : result B -> prog C) Q :
  safe t P p (fun r P' => safe t P' (h r) Q) -> safe t P (afterwards p h) Q.
Proof using Type.
  revert P. induction p as [r|X m k IH]; intros P H; [exact H|]. simpl. intros w Hw HP.
  destruct (H w Hw HP) as (H1 & H2 & P' & H3 & H4 & H5). split_and!; [done..|]. exists P'. split_and!; [done..|]. by apply IH.
Qed.

Lemma safe_bind {B C} t P (p : prog B) (f : B -> prog C) Q :
  safe t P p (fun r P' => match r with Ok b => safe t P' (f b) Q | Throw e => Q (Throw e) P' end) -> safe t P (p ≫= f) Q.
Proof using Type.
  intros H. apply safe_after. revert H. revert P. induction p as [r|X m k IH]; intros P H; [by destruct r|].
  simpl. intros w Hw HP. destruct (H w Hw HP) as (H1 & H2 & P' & H3 & H4 & H5). split_and!; [done..|]. exists P'. split_and!; [done..|]. by apply IH.
Qed.

Lemma safe_conseq {B} t P (p : prog B) (Q Q' : result B -> (W -> Prop) -> Prop) :
  (forall r P', Q r P' -> Q' r P') -> safe t P p Q -> safe t P p Q'.
Proof using Type.
  intros HQ. revert P. induction p as [r|X m k IH]; intros P H; [by apply HQ|]. simpl. intros w Hw HP.
  destruct (H w Hw HP) as (H1 & H2 & P' & H3 & H4 & H5). split_and!; [done..|]. exists P'. split_and!; [done..|]. by apply IH.
Qed.

Lemma safe_act {B} t (P : W -> Prop) (m : eff W B) (Q : result B -> (W -> Prop) -> Prop) :
  (forall w, Inv w -> P w -> Inv (m w).2 /\ G t w (m w).2 /\ exists P', P' (m w).2 /\ stable t P' /\ Q (m w).1 P') ->
  safe t P (act m) Q.
Proof using Type. intros H w Hw HP. destruct (H w Hw HP) as (H1 & H2 & P' & H3 & H4 & H5). eauto 8. Qed.

Lemma safe_catching {B} t P (p : prog B) h Q :
  safe t P p (fun r P' => match r with Ok b => Q (Ok b) P' | Throw e => safe t P' (h e) Q end) -> safe t P (catching p h) Q.
Proof using Type. intros H. apply safe_after. revert H. apply safe_conseq. by intros [b|e] P' H. Qed.

Lemma safe_finally {B} t P (p : prog B) f Q :
  safe t P p (fun r P' => safe t P' (f r) (fun r' P2 => Q (match r' with Ok _ => r | Throw e => Throw e end) P2)) -> safe t P (finally p f) Q.
Proof using Type.
  intros H. apply safe_after. revert H. apply safe_conseq. intros r P' H. apply safe_after. revert H. apply safe_conseq. by intros [[]|e] P2 H.
Qed.

(** *** Computations that leave the local knowledge as it is *)

Fixpoint neutral {B} (t : nat) (P : W -> Prop) (p : prog B) : Prop :=
  match p with
  | Return _ => True
  | Step m k => (forall w, Inv w -> P w -> Inv (m w).2 /\ G t w (m w).2 /\ P (m w).2) /\ forall x, neutral t P (k x)
  end.

Lemma neutral_after {B C} t P (p : prog B) (h : result B -> prog C) : neutral t P p -> (forall r, neutral t P (h r)) -> neutral t P (afterwards p h).
Proof using Type. induction p as [r|X m k IH]; simpl; [auto|]. intros [H1 H2] H3. split; [done|]. intros x. by apply IH. Qed.

Lemma neutral_bind {B C} t P (p : prog B) (f : B -> prog C) : neutral t P p -> (forall b, neutral t P (f b)) -> neutral t P (p ≫= f).
Proof using Type. intros Hp Hf. apply neutral_after; [done|]. by intros [b|e]; [apply Hf|]. Qed.

Lemma neutral_catching {B} t P (p : prog B) h : neutral t P p -> (forall e, neutral t P (h e)) -> neutral t P (catching p h).
Proof using Type. intros Hp Hh. apply neutral_after; [done|]. by intros [b|e]; [|apply Hh]. Qed.

Lemma neutral_finally {B} t P (p : prog B) f : neutral t P p -> (forall r, neutral t P (f r)) -> neutral t P (finally p f).
Proof using Type. intros Hp Hf. apply neutral_after; [done|]. intros r. apply neutral_after; [apply Hf|]. by intros [?|?]. Qed.

Lemma neutral_each {B} t P (xs : list B) f : (forall x, neutral t P (f x)) -> neutral t P (each xs f).
Proof using Type. intros Hf. induction xs; [done|]. apply neutral_bind; [apply Hf | intros; assumption]. Qed.

Lemma neutral_act {B} t P (m : eff W B) : (forall w, Inv w -> P w -> Inv (m w).2 /\ G t w (m w).2 /\ P (m w).2) -> neutral t P (act m).
Proof using Type. intros H. by split. Qed.

Lemma safe_neutral {B} t P (p : prog B) Q : stable t P -> neutral t P p -> (forall r, Q r P) -> safe t P p Q.
Proof using Type.
  intros HP Hp HQ. induction p as [r|X m k IH]; simpl in *; [done|]. destruct Hp as [H1 H2]. intros w Hw HPw.
  destruct (H1 w Hw HPw) as (? & ? & ?). split_and!; [done..|]. exists P. auto.
Qed.

(** *** The invariant holds in every interleaving. *)

Definition run_safe (t : nat) (p : prog A) (w : W) : Prop := exists P, P w /\ stable t P /\ safe t P p (fun _ _ => True).

Hypothesis start_safe : forall t p, start t p -> safe t (fun _ => True) p (fun _ _ => True).
Hypothesis other_safe : forall w w', Inv w -> other w w' -> Inv w'.

Lemma istep_invariant ps w ps' w' : istep (ps, w) (ps', w') -> Inv w -> (forall t p, ps !! t = Some p -> run_safe t p w) ->
  Inv w' /\ forall t p, ps' !! t = Some p -> run_safe t p w'.
Proof using start_safe other_safe.
  intros H Hw Hps. inversion H; subst; clear H.
  - match goal with E : ps !! _ = Some _ |- _ => destruct (Hps _ _ E) as (P & HP & Hst & Hs) end.
    destruct (Hs w Hw HP) as (? & ? & P' & ? & ? & ?).
    split; [done|]. intros t' p [[<- <-]|[Hne Hp]]%lookup_insert_Some; [by exists P'|].
    destruct (Hps _ _ Hp) as (P0 & HP0 & [Hst1 Hst2] & Hs0). exists P0. split_and!; [|done|done]. by apply (Hst1 t w).
  - split; [done|]. intros t' p' [[<- <-]|[_ Hp]]%lookup_insert_Some; [|by apply Hps].
    exists (fun _ => True). split_and!; [done| |by apply start_safe]. by split.
  - split; [done|]. intros t' p' [_ Hp]%lookup_delete_Some. by apply Hps.
  - split; [by eapply other_safe|]. intros t p Hp. destruct (Hps _ _ Hp) as (P0 & HP0 & [Hst1 Hst2] & Hs0).
    exists P0. split_and!; [|done|done]. by apply (Hst2 w).
Qed.

Lemma interleaving_invariant ps w ps' w' : rtc istep (ps, w) (ps', w') -> Inv w -> (forall t p, ps !! t = Some p -> run_safe t p w) -> Inv w'.
Proof using start_safe other_safe.
  intros H. change w' with ((ps', w').2). change (ps, w) with ((ps, w).1, (ps, w).2) in H.
  enough (Hall : forall s s', rtc istep s s' -> Inv s.2 -> (forall t p, s.1 !! t = Some p -> run_safe t p s.2) -> Inv s'.2) by apply (Hall _ _ H).
  intros s s' Hs. clear H. induction Hs as [s|[ps0 w0] [ps1 w1] s' Hstep _ IH]; intros Hw Hps; [done|].
  destruct (istep_invariant _ _ _ _ Hstep Hw Hps) as [Hw1 Hps1]. by apply IH.
Qed.
End pool.
End prog.
Arguments prog W A : clear implicits.
Arguments Return {W A} r.
Arguments Step {W A X} m k.

(** Steps through the combinators; the [platform] database closes the leaves. *)
Ltac solve_neutral :=
  repeat first
    [ solve [auto with platform]
    | apply neutral_bind; [|intros ?]
    | apply neutral_catching; [|intros ?]
    | apply neutral_finally; [|intros ?]
    | apply neutral_each; intros ?
    | exact I
    | case_match ].
