(* ===== verification/CommonUtils.v ===== *)
(** * Shared utilities of the services

    [libs/common/src/common.utils.ts]: pages of a list, the ledger a DID names, the URLs
    of an agent, and the escaping of text put into HTML. *)

From S2P Require Import Prelude Js Regex.

Open Scope Z_scope.

(** ** The language's arrays *)

(** [xs.slice(from, to)]: a negative index counts from the end. *)
Definition slice_index (n i : Z) : Z := if i <? 0 then Z.max (n + i) 0 else Z.min i n.

Definition slice {A} (xs : list A) (from to : Z) : list A :=
  let n := Z.of_nat (length xs) in
  let a := slice_index n from in
  take (Z.to_nat (slice_index n to - a)) (drop (Z.to_nat a) xs).

(** [Math.ceil(a / b)] on integers *)
Definition ceil_div (a b : Z) : Z := - ((- a) / b).

(** ** Pages *)

Record page {T} := Page {
  page_number : Z;
  pageSize : Z;
  previousPage : option Z;
  nextPage : option Z;
  totalItems : Z;
  lastPage : Z;
  data : list T;
}.
Arguments page T : clear implicits.

(** An argument is [None] where [Number] of it is [NaN]. *)
Definition paginator {T} (items : list T) (current_page items_per_page : option Z) : page T :=
  let p := num_or current_page 1 in
  let per_page := num_or items_per_page 10 in
  let offset := (p - 1) * per_page in
  let total_pages := ceil_div (Z.of_nat (length items)) per_page in
  {| page_number := p;
     pageSize := per_page;
     previousPage := if 1 <? p then Some (p - 1) else None;
     nextPage := if p <? total_pages then Some (p + 1) else None;
     totalItems := Z.of_nat (length items);
     lastPage := total_pages;
     data := slice items offset (offset + per_page) |}.

(** ** Ledgers *)

Definition POLYGON : string := "polygon".
Definition ETHR : string := "ethr".
Definition TESTNET : string := "testnet".
Definition SEPOLIA : string := "sepolia".
Definition MAINNET : string := "mainnet".

Definition networkNamespace (did : string) : option string :=
  let segments := Str.split ":" did in
  let hasPolygon := existsb (Str.contains POLYGON) segments in
  let hasEthereum := existsb (Str.contains ETHR) segments in
  let hasTestnet := existsb (fun s => Str.contains TESTNET s || Str.contains SEPOLIA s) segments in
  if hasPolygon || hasEthereum then
    Some (if hasTestnet
          then template_str (segments !! 1%nat) +:+ ":" +:+ template_str (segments !! 2%nat)
          else template_str (segments !! 1%nat) +:+ ":" +:+ MAINNET)
  else segments !! 1%nat.

(** [None] is [null]; the argument is [None] when it is [null] or [undefined]. *)
Definition didLedgerNamespace (did : option string) : option string :=
  let segments := match did with Some d => Str.split ":" d | None => [] end in
  if negb (bool_decide (segments !! 0%nat = Some "did")) || (length segments <? 3)%nat then None else
  let method := template_str (segments !! 1%nat) in
  if String.eqb method POLYGON || String.eqb method ETHR then networkNamespace (default "" did)
  else if String.eqb method "indy" then
    if (5 <=? length segments)%nat
    then Some (template_str (segments !! 2%nat) +:+ ":" +:+ template_str (segments !! 3%nat)) else None
  else None.

(** ** Agent URLs *)

Definition agentUrlMap : list (string * string) := [
  ("connection-invitation", "/didcomm/oob/create-invitation");
  ("sign-data-from-agent", "/agent/credential/sign");
  ("verify-signed-data-from-agent", "/agent/verify");
  ("create-offer", "/didcomm/credentials/create-offer");
  ("create-offer-oob", "/didcomm/credentials/create-offer-oob");
  ("get-offer-by-cred-id", "/didcomm/credentials/#");
  ("get-proof-presentation-by-id", "/didcomm/proofs/#");
  ("request-proof", "/didcomm/proofs/request-proof");
  ("accept-presentation", "/didcomm/proofs/#/accept-presentation");
  ("create-request-out-of-band", "/didcomm/proofs/create-request-oob");
  ("get-verified-proof", "/didcomm/proofs/#/form-data");
  ("get-question-answer-record", "/didcomm/question-answer");
  ("send-question", "/didcomm/question-answer/question/#");
  ("send-basic-message", "/didcomm/basic-messages/#");
  ("create-oid4vc-issuer", "/openid4vc/issuer");
  ("get-all-oid4vc-issuers", "/openid4vc/issuer");
  ("delete-oid4vc-issuer", "/openid4vc/issuer/#");
  ("get-issuer-by-id", "/openid4vc/issuer/#");
  ("create-oid4vc-template", "/openid4vc/issuer/#");
  ("create-oid4vc-credential-offer", "/openid4vc/issuance-sessions/create-credential-offer");
  ("update-oid4vc-credential-offer", "/openid4vc/issuance-sessions/#");
  ("get-oid4vc-session-by-id", "/openid4vc/issuance-sessions/#");
  ("get-oid4vc-sessions", "/openid4vc/issuance-sessions");
  ("delete-oid4vc-credential-offer", "/openid4vc/issuance-sessions");
  ("create-x509-certificate", "/x509");
  ("decode-x509-certificate", "/x509/decode");
  ("import-x509-certificate", "/x509/import");
  ("create-oid4vp-verifier", "/openid4vc/verifier");
  ("update-oid4vp-verifier", "/openid4vc/verifier/#");
  ("delete-oid4vp-verifier", "/openid4vc/verifier/#");
  ("get-oid4vp-verifier-session-id", "/openid4vc/verification-sessions/#");
  ("get-oid4vp-verifier-session-query", "/openid4vc/verification-sessions");
  ("get-oid4vp-verifier-session-response-id", "/openid4vc/verification-sessions/response/#");
  ("oid4vp-verification-session", "/openid4vc/verification-sessions/create-presentation-request");
  ("verify-oid4vp-verifier-session-auth-response", "/openid4vc/verification-sessions/verify-authorization-response")].

(** [map.get(k)] on a [Map] with distinct keys *)
Fixpoint map_get {V} (k : string) (entries : list (string * V)) : option V :=
  match entries with
  | [] => None
  | (k', v) :: entries' => if String.eqb k k' then Some v else map_get k entries'
  end.

(** The text a replacement stands for when a match [m] stands between [before] and
    [after]: [$$], [$&], [$`] and [$'] are patterns, and [m] has no groups. *)
Fixpoint substitution (m before after repl : string) : string :=
  match repl with
  | String "$" (String c r as rest) =>
      if Ascii.eqb c "$" then String "$" (substitution m before after r)
      else if Ascii.eqb c "&" then m +:+ substitution m before after r
      else if Ascii.eqb c "`" then before +:+ substitution m before after r
      else if Ascii.eqb c "'" then after +:+ substitution m before after r
      else String "$" (substitution m before after rest)
  | String c r => String c (substitution m before after r)
  | EmptyString => EmptyString
  end.

(** [s.replace('c', repl)]: the first occurrence only. *)
Fixpoint replace_first (c : ascii) (repl before s : string) : string :=
  match s with
  | EmptyString => EmptyString
  | String d s' =>
      if Ascii.eqb c d then substitution (String c "") before s' repl +:+ s'
      else String d (replace_first c repl (before +:+ String d "") s')
  end.

Definition getAgentUrl (agentEndPoint urlFlag : string) (paramId : option string) : result string :=
  if String.eqb agentEndPoint "" then Throw (http_exn NotFoundException "Invalid agent endpoint provided") else
  match map_get urlFlag agentUrlMap with
  | Some urlSuffix =>
      let resolvedUrlPath := if truthy_str paramId then replace_first "#" (default "" paramId) "" urlSuffix else urlSuffix in
      Ok (agentEndPoint +:+ resolvedUrlPath)
  | None => Throw (http_exn NotFoundException "Please check the url suffix.")
  end.

Definition convertUrlToDeepLinkUrl (deepLinkDomain : option string) (url : string) : result string :=
  if truthy_str deepLinkDomain then Ok (default "" deepLinkDomain +:+ url)
  else Throw (http_exn NotFoundException "Deeplink Domain not found. Please make sure to add it in your environment variables").

Definition shouldLoadOidcModules (hide : option string) : bool :=
  negb (String.eqb "true" (Str.toLowerCase (default "true" hide))).
Definition shouldLoadNatsNotification (enable : option string) : bool := bool_decide (enable = Some "true").

(** ** HTML *)

Definition dquote : ascii := "034".

Definition escapeHtml (value : string) : string :=
  let s := Regex.replace_each (Ascii.eqb "&") "&amp;" value in
  let s := Regex.replace_each (Ascii.eqb "<") "&lt;" s in
  let s := Regex.replace_each (Ascii.eqb ">") "&gt;" s in
  let s := Regex.replace_each (Ascii.eqb dquote) "&quot;" s in
  let s := Regex.replace_each (Ascii.eqb "'") "&#39;" s in
  Regex.replace_each (Ascii.eqb "/") "&#x2F;" s.

(** ** Laws *)

(** *** Pages *)

Lemma ceil_div_spec a b : 0 < b -> (ceil_div a b - 1) * b < a <= ceil_div a b * b.
Proof. intros Hb. unfold ceil_div. pose proof (Z.div_mod (- a) b). pose proof (Z.mod_pos_bound (- a) b). nia. Qed.

Lemma slice_nonneg {A} (xs : list A) a b : 0 <= a <= b ->
  slice xs a b = take (Z.to_nat (b - a)) (drop (Z.to_nat a) xs).
Proof.
  intros Hab. unfold slice, slice_index. rewrite (proj2 (Z.ltb_ge a 0)), (proj2 (Z.ltb_ge b 0)) by lia.
  destruct (Z_lt_le_dec a (Z.of_nat (length xs))) as [Ha|Ha].
  - rewrite (Z.min_l a) by lia. destruct (Z_lt_le_dec b (Z.of_nat (length xs))) as [Hb|Hb].
    + by rewrite Z.min_l by lia.
    + rewrite Z.min_r by lia. rewrite !take_ge; [done|rewrite length_drop; lia..].
  - by rewrite !drop_ge, !take_nil by lia.
Qed.

(** The items of the pages of a list, from one page up. *)
Definition page_items {T} (items : list T) (size : Z) (p : Z) : list T := data (paginator items (Some p) (Some size)).

Lemma page_items_eq {T} (items : list T) size p : 0 < size -> 0 < p ->
  page_items items size p = take (Z.to_nat size) (drop (Z.to_nat ((p - 1) * size)) items).
Proof.
  intros Hs Hp. unfold page_items, paginator. simpl.
  rewrite (proj2 (Z.eqb_neq p 0)), (proj2 (Z.eqb_neq size 0)) by lia.
  rewrite slice_nonneg by nia. do 2 f_equal. lia.
Qed.

Lemma pages_prefix {T} (items : list T) size n : 0 < size ->
  concat (map (page_items items size) (map Z.of_nat (seq 1 n))) = take (Z.to_nat size * n) items.
Proof.
  intros Hs. induction n as [|n IH]; [by rewrite Nat.mul_0_r|].
  rewrite seq_S, !map_app, concat_app, IH. cbn [map concat]. rewrite app_nil_r, page_items_eq by lia.
  replace (Z.to_nat ((Z.of_nat (1 + n) - 1) * size)) with (Z.to_nat size * n)%nat by lia.
  rewrite take_take_drop. f_equal. lia.
Qed.

(** For a positive page size the pages 1 to [lastPage] of a list hold its items in
    order, each exactly once; each of them has at least one item and at most [pageSize];
    [nextPage] leads from each to the one after and ends at the last. *)
Theorem pages_cover {T} (items : list T) size :
  0 < size ->
  let last := lastPage (paginator items (Some 1) (Some size)) in
  concat (map (page_items items size) (map Z.of_nat (seq 1 (Z.to_nat last)))) = items /\
  forall p, 1 <= p <= last ->
    1 <= Z.of_nat (length (page_items items size p)) <= size /\
    nextPage (paginator items (Some p) (Some size)) = (if p =? last then None else Some (p + 1)).
Proof.
  intros Hs last. assert (Hl : last = ceil_div (Z.of_nat (length items)) size).
  { unfold last, paginator. simpl. by rewrite (proj2 (Z.eqb_neq size 0)) by lia. }
  pose proof (ceil_div_spec (Z.of_nat (length items)) size Hs) as Hc. rewrite <- Hl in Hc. split.
  - rewrite pages_prefix by done. apply take_ge. nia.
  - intros p Hp. split.
    + rewrite page_items_eq by lia. rewrite length_take, length_drop. nia.
    + unfold paginator. simpl. rewrite (proj2 (Z.eqb_neq p 0)), (proj2 (Z.eqb_neq size 0)) by lia. rewrite <- Hl.
      destruct (Z.eqb_spec p last), (Z.ltb_spec p last); done || lia.
Qed.

Example pages_cover_witness : concat (map (page_items ["a"; "b"; "c"; "d"; "e"] 2) [1; 2; 3]) = ["a"; "b"; "c"; "d"; "e"].
Proof. destruct (pages_cover ["a"; "b"; "c"; "d"; "e"] 2) as [H _]; [lia|]. exact H. Defined.

(** *** HTML *)

(** What [escapeHtml] makes of one character. *)
Definition escape_char (c : ascii) : string :=
  if Ascii.eqb "&" c then "&amp;" else if Ascii.eqb "<" c then "&lt;" else if Ascii.eqb ">" c then "&gt;"
  else if Ascii.eqb dquote c then "&quot;" else if Ascii.eqb "'" c then "&#39;" else if Ascii.eqb "/" c then "&#x2F;"
  else String c "".

Fixpoint escape_chars (s : string) : string :=
  match s with EmptyString => "" | String c s' => escape_char c +:+ escape_chars s' end.

(** The six replacements one after the other are one replacement of each character: no
    replacement touches what an earlier one wrote. *)
Lemma escapeHtml_chars s : escapeHtml s = escape_chars s.
Proof.
  assert (Happ : forall a b, escapeHtml (a +:+ b) = escapeHtml a +:+ escapeHtml b).
  { intros a b. unfold escapeHtml. by rewrite !Regex.replace_each_app. }
  assert (Hone : forall c, escapeHtml (String c "") = escape_char c) by (by intros [[] [] [] [] [] [] [] []]).
  induction s as [|c s IH]; [done|]. change (String c s) with (String c "" +:+ s). rewrite Happ, IH, Hone. done.
Qed.

(** The character references a browser reads back, at the start of a text. *)
Definition references : list (string * ascii) :=
  [("amp;", "&"%char); ("lt;", "<"%char); ("gt;", ">"%char); ("quot;", dquote); ("#39;", "'"%char); ("#x2F;", "/"%char)].

Fixpoint after (p s : string) : option string :=
  match p, s with
  | EmptyString, _ => Some s
  | String a p', String b s' => if Ascii.eqb a b then after p' s' else None
  | _, _ => None
  end.

Fixpoint reference (rs : list (string * ascii)) (s : string) : option (ascii * string) :=
  match rs with
  | [] => None
  | (w, c) :: rs' => match after w s with Some r => Some (c, r) | None => reference rs' s end
  end.

(** HTML's reading of a text: a reference of the list above stands for its character. *)
Fixpoint html_text (fuel : nat) (s : string) : string :=
  match fuel, s with
  | S n, String c s' =>
      if Ascii.eqb c "&" then
        match reference references s' with
        | Some (d, r) => String d (html_text n r)
        | None => String c (html_text n s')
        end
      else String c (html_text n s')
  | _, _ => ""
  end.

(** A character with a meaning of its own in HTML text or in a quoted attribute. *)
Definition markup (c : ascii) : bool := Regex.one_of ("<>'/" +:+ String dquote "") c.

Lemma html_text_escape n c s : html_text (S n) (escape_char c +:+ s) = String c (html_text n s).
Proof. destruct c as [[] [] [] [] [] [] [] []]; reflexivity. Qed.

Lemma escape_char_plain c : Regex.every (fun c => negb (markup c)) (escape_char c) = true.
Proof. by destruct c as [[] [] [] [] [] [] [] []]. Qed.

(** The escaped text has no character that opens or closes a tag or an attribute
    value, and a browser that resolves its references reads the original text. *)
Theorem escapeHtml_sound s :
  Regex.every (fun c => negb (markup c)) (escapeHtml s) = true /\
  html_text (String.length s) (escapeHtml s) = s.
Proof.
  rewrite escapeHtml_chars. induction s as [|c s [IHp IHr]]; [done|]. simpl escape_chars. split.
  - by rewrite Regex.every_app, escape_char_plain, IHp.
  - change (String.length (String c s)) with (S (String.length s)). by rewrite html_text_escape, IHr.
Qed.

(** *** Agent URLs *)

Lemma substitution_plain m b a w : Regex.every (fun c => negb (Ascii.eqb c "$")) w = true -> substitution m b a w = w.
Proof.
  induction w as [|c w IH]; [done|]. cbn [Regex.every]. intros [Hc Hw]%andb_true_iff. specialize (IH Hw).
  destruct (Ascii.eqb_spec c "$") as [->|Hne]; [done|]. clear Hc.
  assert (H : substitution m b a (String c w) = String c (substitution m b a w)).
  { destruct c as [[] [] [] [] [] [] [] []]; try reflexivity. done. }
  by rewrite H, IH.
Qed.

Lemma replace_first_at c w b u v : Regex.every (fun d => negb (Ascii.eqb c d)) u = true ->
  Regex.every (fun d => negb (Ascii.eqb d "$")) w = true ->
  replace_first c w b (u +:+ String c v) = u +:+ w +:+ v.
Proof.
  revert b. induction u as [|d u IH]; intros b Hu Hw; simpl.
  - by rewrite Ascii.eqb_refl, substitution_plain.
  - simpl in Hu. apply andb_true_iff in Hu as [Hd%negb_true_iff Hu]. by rewrite Hd, IH.
Qed.

Lemma replace_first_absent c w b u : Regex.every (fun d => negb (Ascii.eqb c d)) u = true -> replace_first c w b u = u.
Proof.
  revert b. induction u as [|d u IH]; intros b Hu; simpl; [done|].
  simpl in Hu. apply andb_true_iff in Hu as [Hd%negb_true_iff Hu]. by rewrite Hd, IH.
Qed.

(** The place of the identifier in each path of the agent. *)
Definition has_slot (u : string) : bool := Str.contains "#" u.

(** A URL is the endpoint and the path of its flag, with the identifier in the place
    held for it: an identifier without [$] is taken as it is. *)
Lemma getAgentUrl_spec e flag id url : Regex.every (fun d => negb (Ascii.eqb d "$")) id = true -> id <> "" ->
  getAgentUrl e flag (Some id) = Ok url ->
  exists u, map_get flag agentUrlMap = Some u /\
    (if has_slot u then exists a b, u = a +:+ "#" +:+ b /\ url = e +:+ a +:+ id +:+ b else url = e +:+ u).
Proof.
  intros Hid Hne. unfold getAgentUrl. destruct (String.eqb e ""); [done|].
  destruct (map_get flag agentUrlMap) as [u|] eqn:Eu; [|done]. intros [= <-]. exists u. split; [done|].
  unfold truthy_str. rewrite (proj2 (String.eqb_neq id "")) by done. simpl negb. cbv iota. simpl default.
  assert (Hpaths : forall u, u ∈ map snd agentUrlMap ->
    if has_slot u then exists a b, u = a +:+ String "#" b /\ Regex.every (fun d => negb (Ascii.eqb "#" d)) a = true
    else Regex.every (fun d => negb (Ascii.eqb "#" d)) u = true).
  { clear. intros u Hu. repeat (apply elem_of_cons in Hu as [->|Hu]; [vm_compute; first [reflexivity | idtac]|]).
    all: try (by apply elem_of_nil in Hu).
    all: match goal with |- exists a b, ?w = _ /\ _ =>
      let rec go acc w := lazymatch w with
        | String "#" ?r => exists acc, r; split; reflexivity
        | String ?c ?r => let acc' := eval vm_compute in (acc +:+ String c "") in go acc' r end in
      go "" w end. }
  assert (Hu : u ∈ map snd agentUrlMap).
  { clear -Eu. induction agentUrlMap as [|[k v] m IH]; simpl in *; [done|]. case_match; simplify_eq; [left | right; auto]. }
  specialize (Hpaths u Hu). destruct (has_slot u).
  - destruct Hpaths as (a & b & -> & Ha). exists a, b. split; [done|]. by rewrite replace_first_at.
  - by rewrite replace_first_absent.
Qed.

(** *** Ledgers *)

(** A DID names a network of testing. *)
Definition for_tests (segments : list string) : bool :=
  existsb (fun s => Str.contains TESTNET s || Str.contains SEPOLIA s) segments.

(** The namespaces a DID, given by its segments, may name. *)
Inductive names : list string -> string -> Prop :=
  | names_indy network pool id rest : names ("did" :: "indy" :: network :: pool :: id :: rest) (network +:+ ":" +:+ pool)
  | names_test m network rest : m = POLYGON \/ m = ETHR -> for_tests ("did" :: m :: network :: rest) = true ->
      names ("did" :: m :: network :: rest) (m +:+ ":" +:+ network)
  | names_main m id rest : m = POLYGON \/ m = ETHR -> for_tests ("did" :: m :: id :: rest) = false ->
      names ("did" :: m :: id :: rest) (m +:+ ":" +:+ MAINNET).

(** A namespace is read off a DID exactly in the three ways above: the network and
    pool of an Indy DID, the network of a Polygon or Ethereum DID whose text mentions a
    test network, and the main network of every other Polygon or Ethereum DID; all other
    DIDs name none. *)
Theorem didLedgerNamespace_spec did ns :
  didLedgerNamespace (Some did) = Some ns <-> names (Str.split ":" did) ns.
Proof.
  unfold didLedgerNamespace, networkNamespace. simpl default. fold (for_tests (Str.split ":" did)).
  destruct (Str.split ":" did) as [|a [|m [|n rest]]] eqn:E.
  1-3: rewrite ?orb_true_r; split; [by rewrite ?orb_true_r | intros H; inversion H].
  cbn [list_lookup lookup length]. 
  destruct (bool_decide _) eqn:Ea; [apply bool_decide_eq_true in Ea as [= ->] | apply bool_decide_eq_false in Ea].
  2: { split; [done | intros H; by inversion H; subst]. }
  simpl negb. change (Nat.ltb _ 3 ) with false. cbn [orb template_str].
  assert (Hchain : m = POLYGON \/ m = ETHR -> existsb (Str.contains POLYGON) ("did" :: m :: n :: rest) || existsb (Str.contains ETHR) ("did" :: m :: n :: rest) = true).
  { intros [-> | ->]; [done|]. apply orb_true_iff. by right. }
  destruct (String.eqb m POLYGON || String.eqb m ETHR) eqn:Em.
  { apply orb_true_iff in Em. rewrite !String.eqb_eq in Em. rewrite Hchain by done. destruct (for_tests _) eqn:Et; split.
    1,3: intros [= <-]; by constructor.
    all: intros H; inversion H; subst; [by destruct Em|congruence..]. }
  apply orb_false_iff in Em as [Hp%String.eqb_neq He%String.eqb_neq].
  destruct (String.eqb_spec m "indy") as [->|Hi].
  - destruct rest as [|p [|id rest]]; cbn [length Nat.leb]; try (split; [done | intros H; inversion H; subst; naive_solver]).
    split; [intros [= <-]; constructor | intros H; inversion H; subst; [done|naive_solver..]].
  - split; [done | intros H; inversion H; subst; naive_solver].
Qed.

(** An Ethereum DID on a network the code does not know is taken for one of the main
    network. *)
Example unknown_network_is_mainnet : didLedgerNamespace (Some "did:ethr:goerli:0xabc") = Some "ethr:mainnet".
Proof. reflexivity. Qed.

Example substitution_patterns : replace_first "#" "$x$&$$y" "" "/a/#/b" = "/a/$x#$y/b".
Proof. reflexivity. Qed.

(** * Errors of the services

    [ErrorHandler] of [libs/common/src/utils/error-handler.util.ts]: what a service answers
    for an error it caught. *)

Open Scope Z_scope.

Definition getStatusCodeByMessage (message : string) : Z :=
  let m := Str.toLowerCase message in
  let includes := existsb (fun s => Str.contains s m) in
  if includes ["already exists"; "already assigned"; "duplicate"; "conflict"] then 409
  else if includes ["invalid"; "required"; "validation"; "bad request"] then 400
  else if includes ["not found"; "does not exist"] then 404
  else if includes ["unauthorized"; "not authorized"] then 401
  else if includes ["forbidden"; "permission denied"] then 403
  else 500.

(** The response of the error that a NATS call throws has no message. *)
Definition categorize (e : exn) (defaultMessage : string) : exn :=
  let rpc_ m s := Exn RpcException m (Some s) None in
  match exn_class e with
  | RpcException => e
  | PlainError | PrismaError =>
      let m := if String.eqb (exn_message e) "" then defaultMessage else exn_message e in rpc_ m (getStatusCodeByMessage m)
  | HttpException => rpc_ "HTTP Exception" (default 500 (exn_status e))
  | _ => rpc_ (exn_message e) (default 500 (exn_status e))
  end.

Section handled.
Context {S : Type}.

(** [catch (error) { throw new RpcException(CommonUtils.categorize(error, defaultMessage)) }] *)
Definition handled {A} (defaultMessage : string) (m : eff S A) : eff S A :=
  try_catch m (fun e => throw (categorize e defaultMessage)).
End handled.
