(* ===== verification/JsonParse.v ===== *)
(** * JSON.parse

    A recursive-descent reader of JSON texts.  Numbers must denote integers and
    characters lie below 256, as in the rest of the string model; [None] is a
    [SyntaxError] or a text outside these bounds. *)

From S2P Require Import Prelude Js.

Module JsonParse.
Definition is_ws (c : ascii) : bool :=
  let n := N_of_ascii c in ((n =? 32) || (n =? 9) || (n =? 10) || (n =? 13))%N.

Fixpoint skip (s : string) : string :=
  match s with
  | String c s' => if is_ws c then skip s' else s
  | EmptyString => EmptyString
  end.

Definition hex4 (a b c d : ascii) : option ascii :=
  x ← Uri.hex a; y ← Uri.hex b; z ← Uri.hex c; t ← Uri.hex d;
  let n := (4096 * x + 256 * y + 16 * z + t)%N in
  if (n <? 256)%N then Some (ascii_of_N n) else None.

(** The characters of a string literal, after its opening quote. *)
Fixpoint chars (s : string) : option (string * string) :=
  match s with
  | EmptyString => None
  | String c s' =>
      if Ascii.eqb c Json.dquote then Some (EmptyString, s')
      else if Ascii.eqb c Json.backslash then
        match s' with
        | String "u" (String a (String b (String e (String d s2)))) =>
            x ← hex4 a b e d; '(r, rest) ← chars s2; Some (String x r, rest)
        | String e s2 =>
            x ← (if Ascii.eqb e Json.dquote then Some Json.dquote
                 else if Ascii.eqb e Json.backslash then Some Json.backslash
                 else if Ascii.eqb e "/" then Some "/"%char
                 else if Ascii.eqb e "b" then Some "008"%char
                 else if Ascii.eqb e "t" then Some "009"%char
                 else if Ascii.eqb e "n" then Some "010"%char
                 else if Ascii.eqb e "f" then Some "012"%char
                 else if Ascii.eqb e "r" then Some "013"%char
                 else None);
            '(r, rest) ← chars s2; Some (String x r, rest)
        | EmptyString => None
        end
      else if (N_of_ascii c <? 32)%N then None
      else '(r, rest) ← chars s'; Some (String c r, rest)
  end.

(** The longest prefix made of the characters of a number. *)
Fixpoint number_text (s : string) : string * string :=
  match s with
  | String c s' =>
      if match Num.digit c with Some _ => true | None => false end
         || Ascii.eqb c "-" || Ascii.eqb c "+" || Ascii.eqb c "." || Ascii.eqb c "e" || Ascii.eqb c "E"
      then let '(t, r) := number_text s' in (String c t, r)
      else (EmptyString, s)
  | EmptyString => (EmptyString, EmptyString)
  end.

Definition literal (w : string) (v : Json.value) (s : string) : option (Json.value * string) :=
  if Str.startsWith w s then Some (v, String.substring (String.length w) (String.length s) s) else None.

Fixpoint value (fuel : nat) (s : string) : option (Json.value * string) :=
  match fuel with
  | O => None
  | S n =>
      let elements := fix elements (m : nat) (s : string) : option (list Json.value * string) :=
        match m with
        | O => None
        | S m' =>
            '(v, s) ← value n s;
            match skip s with
            | String "," s' => '(vs, s) ← elements m' s'; Some (v :: vs, s)
            | String "]" s' => Some ([v], s')
            | _ => None
            end
        end in
      let members := fix members (m : nat) (s : string) : option (list (string * Json.value) * string) :=
        match m with
        | O => None
        | S m' =>
            match skip s with
            | String c s' =>
                if negb (Ascii.eqb c Json.dquote) then None else
                '(k, s) ← chars s';
                match skip s with
                | String ":" s' =>
                    '(v, s) ← value n s';
                    match skip s with
                    | String "," s' => '(fs, s) ← members m' s'; Some ((k, v) :: fs, s)
                    | String "}" s' => Some ([(k, v)], s')
                    | _ => None
                    end
                | _ => None
                end
            | EmptyString => None
            end
        end in
      match skip s with
      | String c s' =>
          if Ascii.eqb c Json.dquote then '(t, r) ← chars s'; Some (Json.JStr t, r)
          else if Ascii.eqb c "[" then
            match skip s' with
            | String "]" r => Some (Json.JArr [], r)
            | _ => '(vs, r) ← elements n s'; Some (Json.JArr vs, r)
            end
          else if Ascii.eqb c "{" then
            match skip s' with
            | String "}" r => Some (Json.JObj [], r)
            | _ => '(fs, r) ← members n s'; Some (Json.JObj (Json.spread [] fs), r)
            end
          else if Ascii.eqb c "t" then literal "true" (Json.JBool true) (String c s')
          else if Ascii.eqb c "f" then literal "false" (Json.JBool false) (String c s')
          else if Ascii.eqb c "n" then literal "null" Json.JNull (String c s')
          else
            let '(t, r) := number_text (String c s') in
            if String.eqb t "" then None else n ← Num.Number t; Some (Json.JNum n, r)
      | EmptyString => None
      end
  end.

(** Every nested value takes a character, so the length of the text is enough fuel. *)
Definition parse (s : string) : option Json.value :=
  '(v, r) ← value (S (String.length s)) s;
  if String.eqb (skip r) "" then Some v else None.

(** ** Strings read back *)

Lemma chars_escape c r : chars (Json.escape c +:+ r) = '(t, rest) ← chars r; Some (String c t, rest).
Proof. destruct c as [[] [] [] [] [] [] [] []]; reflexivity. Qed.

Lemma chars_quoted s r : chars (Json.escape_all s +:+ String Json.dquote r) = Some (s, r).
Proof.
  induction s as [|c s IH]; [done|]. simpl. by rewrite Json.app_assoc_str, chars_escape, IH.
Qed.

(** A string literal parses to the string it was made from. *)
Lemma parse_quote s : parse (Json.quote s) = Some (Json.JStr s).
Proof.
  unfold parse, Json.quote. cbn [String.length]. simpl. unfold value. simpl.
  replace (Json.escape_all s +:+ String Json.dquote "") with (Json.escape_all s +:+ String Json.dquote "") by done.
  by rewrite chars_quoted.
Qed.

Example parse_object :
  parse (Json.stringify (Json.JObj [("a", Json.JArr [Json.JNum (-12); Json.JBool true; Json.JNull]); ("b", Json.JStr "x")]))
  = Some (Json.JObj [("a", Json.JArr [Json.JNum (-12); Json.JBool true; Json.JNull]); ("b", Json.JStr "x")]).
Proof. reflexivity. Qed.
End JsonParse.
