(* ===== verification/CastHelper.v ===== *)
(** * Casting and validation helpers

    [libs/common/src/cast.helper.ts]: the transformations and validators that requests
    pass before they reach a service, and the encryption of client credentials.  The
    tests of the class-validator package and the AES cipher are parameters. *)

From S2P Require Import Prelude Js JsonParse Regex.

Open Scope Z_scope.

(** ** Scalars *)

Definition toBoolean (value : string) : bool :=
  let value := Str.toLowerCase value in String.eqb "true" value || String.eqb "1" value.

(** The integer a number literal of many digits becomes: 53 bits, halves to even. *)
Definition round53 (z : Z) : Z :=
  let a := Z.abs z in
  if a <=? 2 ^ 53 then z else
  let e := Z.log2 a - 52 in
  let q := a / 2 ^ e in
  let r := a mod 2 ^ e in
  let half := 2 ^ (e - 1) in
  let q := if (half <? r) || ((half =? r) && Z.odd q) then q + 1 else q in
  Z.sgn z * (q * 2 ^ e).

(** [Number.parseInt(s, 10)]; [None] is [NaN]. *)
Definition parseInt (s : string) : option Z :=
  let '(sign, s) := Num.read_sign (Str.trim_start s) in
  let '(n, count, _) := Num.take_digits 0 0 s in
  if Nat.eqb count 0 then None else Some (round53 (sign * n)).

Record ToNumberOptions := ToNumber {
  o_default : option Z;
  o_min : option Z;
  o_max : option Z;
}.

Definition no_options : ToNumberOptions := ToNumber None None None.

(** [String(n)] of a number that may be [undefined] *)
Definition number_str (n : option Z) : string := match n with Some n => pretty n | None => "undefined" end.

(** Comparisons with [undefined] are false. *)
Definition below (a b : option Z) : bool := match a, b with Some a, Some b => a <? b | _, _ => false end.

Definition toNumber (value : string) (opts : ToNumberOptions) : option Z :=
  let newValue := parseInt (if String.eqb value "" then number_str (o_default opts) else value) in
  let newValue := match newValue with Some n => Some n | None => o_default opts end in
  if num_or (o_min opts) 0 =? 0 then newValue else
  let newValue := if below newValue (o_min opts) then o_min opts else newValue in
  if below (o_max opts) newValue then o_max opts else newValue.

(** The first character in upper case.  The capitals of the letters 181 and 255 lie above
    the characters of the string model, and the one of 223 is two letters: those letters
    are kept. *)
Definition upper (c : ascii) : ascii :=
  let n := Str.code c in
  if (((97 <=? n) && (n <=? 122)) || ((224 <=? n) && (n <=? 254) && negb (n =? 247)))%N then ascii_of_N (n - 32) else c.

Definition capitalize (s : string) : string := match s with String c s' => String (upper c) s' | EmptyString => "" end.

(** The first separator of the namespace becomes a space. *)
Fixpoint replace_one (a b : ascii) (s : string) : string :=
  match s with
  | EmptyString => EmptyString
  | String c s' => if Ascii.eqb a c then String b s' else String c (replace_one a b s')
  end.

Definition ledgerName (value : string) : result string :=
  let network := capitalize (replace_one ":" " " value) in
  match Str.split " " network with
  | w0 :: w1 :: _ => Ok (w0 +:+ " " +:+ capitalize w1)
  | _ => Throw (js_error "Cannot read properties of undefined (reading 'charAt')")
  end.

(** ** Text *)

Definition dquote : ascii := "034".

(** Letters, digits, white space and the punctuation of the expression *)
Definition safe_char (c : ascii) : bool :=
  Regex.alnum c || Str.is_space c || Regex.one_of ("!@#$%^&*()_+-=[]{};':\|,.<>/?" +:+ String dquote "") c.
Definition safeRegex : Regex.re := Regex.Star (Regex.Cls safe_char).
Definition isSafeString (value : string) : bool := Regex.test safeRegex value.

Definition sql_keywords : list string :=
  ["SELECT"; "INSERT"; "UPDATE"; "DELETE"; "DROP"; "UNION"; "ALTER"; "CREATE"; "EXEC"; "FROM"; "WHERE"; "AND"; "OR"].

(** [\w] *)
Definition word_char (c : ascii) : bool := Regex.alnum c || Ascii.eqb c "_".

(** The text after a prefix that may differ in case. *)
Fixpoint after_nocase (p s : string) : option string :=
  match p, s with
  | EmptyString, _ => Some s
  | String a p', String b s' => if Ascii.eqb (Str.lower a) (Str.lower b) then after_nocase p' s' else None
  | _, _ => None
  end.

(** [^\b(SELECT|...)\b] with the flag [i] *)
Definition starts_with_keyword (s : string) : bool :=
  existsb (fun k => match after_nocase k s with
    | Some (String c _) => negb (word_char c)
    | Some EmptyString => true
    | None => false
    end) sql_keywords.

(** [IsNotSQLInjection]: a value that is not a string passes. *)
Definition isNotSQLInjection (value : Json.value) : bool :=
  match value with Json.JStr s => negb (starts_with_keyword s) | _ => true end.

(** [/^[a-zA-Z0-9]+$/] *)
Definition validateWalletName (walletName : string) : result unit :=
  if Regex.test (Regex.plus (Regex.Cls Regex.alnum)) walletName then Ok tt
  else Throw (http_exn BadRequestException "seed must be at most 32 characters").

(** [/^[a-zA-Z0-9._-]+@[a-zA-Z0-9.-]+\.[a-zA-Z]{2,4}$/] *)
Definition local_char (c : ascii) : bool := Regex.alnum c || Regex.one_of "._-" c.
Definition domain_char (c : ascii) : bool := Regex.alnum c || Regex.one_of ".-" c.
Definition emailRegex : Regex.re := Regex.seq [
  Regex.plus (Regex.Cls local_char); Regex.str "@"; Regex.plus (Regex.Cls domain_char); Regex.str ".";
  Regex.between 2 4 (Regex.Cls Regex.letter)].
Definition validateEmail (email : string) : bool := Regex.test emailRegex email.

(** *** [IsHostPortOrDomainConstraint] *)

Definition scheme : Regex.re := Regex.opt (Regex.Alt (Regex.str "http://") (Regex.str "https://")).
Definition port : Regex.re := Regex.between 1 5 (Regex.Cls Regex.digit).
Definition path : Regex.re := Regex.opt (Regex.Cat (Regex.str "/") (Regex.Star (Regex.Cls (fun c => negb (Str.is_space c))))).

(** [25[0-5]|2[0-4][0-9]|[01]?[0-9][0-9]?] *)
Definition d : Regex.re := Regex.Cls Regex.digit.
Definition octet : Regex.re := Regex.any [
  Regex.Cat (Regex.str "25") (Regex.Cls (Regex.in_range "0" "5"));
  Regex.Cat (Regex.str "2") (Regex.Cat (Regex.Cls (Regex.in_range "0" "4")) d);
  Regex.Cat (Regex.opt (Regex.Cls (Regex.one_of "01"))) (Regex.Cat d (Regex.opt d))].
Definition ipv4 : Regex.re := Regex.Cat (Regex.exactly 3 (Regex.Cat octet (Regex.str "."))) octet.
Definition hostPortRegex : Regex.re := Regex.seq [scheme; ipv4; Regex.str ":"; port; path].

(** [[a-zA-Z0-9](?:[a-zA-Z0-9-]{0,61}[a-zA-Z0-9])?] *)
Definition label_char (c : ascii) : bool := Regex.alnum c || Ascii.eqb c "-".
Definition label : Regex.re := Regex.Cat (Regex.Cls Regex.alnum)
  (Regex.opt (Regex.Cat (Regex.between 0 61 (Regex.Cls label_char)) (Regex.Cls Regex.alnum))).
Definition domain : Regex.re := Regex.Cat (Regex.plus (Regex.Cat label (Regex.str ".")))
  (Regex.Cat (Regex.exactly 2 (Regex.Cls Regex.letter)) (Regex.Star (Regex.Cls Regex.letter))).
Definition domainRegex : Regex.re := Regex.seq [
  scheme; Regex.Alt (Regex.str "localhost") domain; Regex.opt (Regex.Cat (Regex.str ":") port); path].

Definition isHostPortOrDomain (value : string) : bool := Regex.test hostPortRegex value || Regex.test domainRegex value.

(** [ImageBase64Validator]: [mime] and [base64] are the package's tests. *)
Section image.
Variables (mime : option string -> bool) (base64 : string -> bool).

Definition validateImage (value : string) : result bool :=
  if String.eqb "" value then Ok true else
  match Str.split "," value with
  | [head; base64Data] =>
      let mimeType := Str.split ":" (default "" (Str.split ";" head !! 0%nat)) !! 1%nat in
      if negb (mime mimeType) then Throw (http_exn BadRequestException "Please provide valid MIME type")
      else if negb (base64 base64Data) || String.eqb "" base64Data
      then Throw (http_exn BadRequestException "Invalid base64 string") else Ok true
  | _ => Throw (http_exn BadRequestException "Invalid data URI")
  end.
End image.

(** ** Schemas *)

Definition is_string (v : option Json.value) : bool := match v with Some (Json.JStr _) => true | _ => false end.
Definition truthy (v : option Json.value) : bool := match v with Some v => Json.truthy v | None => false end.

(** The first of the named properties that is missing or of the wrong type: the [switch]
    stops at it. *)
Fixpoint first_error (cases : list (bool * string)) : list string :=
  match cases with
  | [] => []
  | (wrong, message) :: cases' => if wrong then [message] else first_error cases'
  end.

Definition at_position (i : nat) (what suffix : string) : string := what +:+ " required at position " +:+ pretty (S i) +:+ suffix.

(** One attribute of a schema of either kind. *)
Definition attribute_errors (names : list string) (missing suffix : string) (i : nat) (attribute : Json.value) : list string :=
  if negb (Json.truthy attribute) then [at_position i missing suffix]
  else first_error (map (fun k => (negb (truthy (Json.get k attribute)), at_position i (k +:+ " is") suffix)) names).

Definition list_errors (names : list string) (empty missing suffix : string) (attributes : option Json.value) : list string :=
  match attributes with
  | Some (Json.JArr ((_ :: _) as l)) => concat (imap (attribute_errors names missing suffix) l)
  | _ => [empty]
  end.

Definition indy_errors (p : Json.value) : list string :=
  first_error [
    (negb (truthy (Json.get "name" p)), "name is required for indy schema type");
    (negb (is_string (Json.get "name" p)), "name must be string");
    (negb (truthy (Json.get "version" p)), "version is required for indy schema type")] ++
  list_errors ["displayName"; "attributeName"; "schemaDataType"] "attributes array must not be empty for indy schema type"
    "attributes are" " in indy schema type" (Json.get "attributes" p).

Definition w3c_errors (p : Json.value) : list string :=
  first_error [
    (negb (truthy (Json.get "schemaName" p)), "schemaName is required for w3c schema type");
    (negb (is_string (Json.get "schemaName" p)), "schemaName must be string");
    (negb (truthy (Json.get "did" p)), "did is required for w3c schema type");
    (negb (is_string (Json.get "did" p)), "did must be string");
    (negb (truthy (Json.get "description" p)), "description is required for w3c schema type");
    (negb (is_string (Json.get "description" p)), "description must be string")] ++
  list_errors ["title"; "type"] "schemaAttributes array must not be empty for w3c schema type"
    "schemaAttributes are" " in w3c schema type" (Json.get "schemaAttributes" p).

Definition schema_errors (schemaPayload : Json.value) (schemaType : string) : list string :=
  if String.eqb "indy" schemaType then indy_errors schemaPayload
  else if String.eqb "w3c" schemaType then w3c_errors schemaPayload
  else [].

Definition validateSchemaPayload (schemaPayload : Json.value) (schemaType : string) : result unit :=
  match schema_errors schemaPayload schemaType with
  | [] => Ok tt
  | errors => Throw (http_exn BadRequestException (Str.join "," errors))
  end.

Definition checkDidLedgerAndNetwork (schemaType did : string) : bool :=
  let cleanSchemaType := Str.toLowerCase (Str.trim schemaType) in
  let cleanDid := Str.toLowerCase (Str.trim did) in
  if String.eqb "polygon" cleanSchemaType then Str.contains "polygon" cleanDid
  else if String.eqb "ethr" cleanSchemaType then Str.contains "ethr" cleanDid
  else if String.eqb "no_ledger" cleanSchemaType then Str.startsWith "did:key" cleanDid || Str.startsWith "did:web" cleanDid
  else false.

(** *** [ValidateNestedStructureFields]: which of [properties] and [items] are there *)

Definition nested_valid (schemaDataType : option string) (properties items : bool) : bool :=
  if bool_decide (schemaDataType = Some "object") then properties && negb items
  else if bool_decide (schemaDataType = Some "array") then items && negb properties
  else negb items && negb properties.

Definition nested_message (schemaDataType : option string) (properties items : bool) : string :=
  let object := bool_decide (schemaDataType = Some "object") in
  let array := bool_decide (schemaDataType = Some "array") in
  if object && items then "'items' is not allowed when schemaDataType is object"
  else if object && negb properties then "'properties' is required when schemaDataType is object"
  else if array && properties then "'properties' is not allowed when schemaDataType is array"
  else if array && negb items then "'items' is required when schemaDataType is array"
  else if negb object && negb array && properties then "'properties' is only allowed when schemaDataType is object"
  else if negb object && negb array && items then "'items' is only allowed when schemaDataType is array"
  else "Invalid structure based on schemaDataType".

(** ** Issuance *)

(** The readings of the clock are taken one after the other; the first is today's. *)
Section dates.
Variable reading : nat -> Z.

Definition date_of (s : string) : string := default "" (Str.split "T" s !! 0%nat).

Fixpoint update_dates (currentDate : string) (n : nat) (dates : list string) : list string :=
  match dates with
  | [] => []
  | issuanceDate :: dates' =>
      if String.eqb (date_of issuanceDate) currentDate then issuanceDate :: update_dates currentDate n dates'
      else Date.toISOString (reading n) :: update_dates currentDate (S n) dates'
  end.

(** The [issuanceDate]s of the credentials *)
Definition validateAndUpdateIssuanceDates (dates : list string) : list string :=
  update_dates (date_of (Date.toISOString (reading 0))) 1 dates.
End dates.

Record IJsonldCredential := Jsonld {
  j_schemaName : string;
  j_schemaLedgerId : string;
  j_credentialData : list (string * Json.value);
  j_orgDid : option string;
  j_orgId : string;
  j_isReuseConnection : option bool;
}.

Definition EMAIL_COLUMN : string := "email_identifier".

(** [`${v}`] of a value; a list prints as its JSON text here. *)
Definition template_value (v : option Json.value) : string :=
  match v with
  | None => "undefined"
  | Some (Json.JStr s) => s
  | Some (Json.JObj _) => "[object Object]"
  | Some v => Json.stringify v
  end.

Definition jsonld_subject (data : list (string * Json.value)) : list (string * Json.value) :=
  List.filter (fun f => negb (String.eqb EMAIL_COLUMN f.1)) data.

Definition createOobJsonldIssuancePayload (c : IJsonldCredential) (prettyVc : Json.value) (now : Z) : Json.value :=
  let proofType := if match j_orgDid c with Some o => Str.contains "polygon" o | None => false end
    then "EcdsaSecp256k1Signature2019" else "Ed25519Signature2018" in
  Json.JObj ([
    ("credentialOffer", Json.JArr [Json.JObj [
      ("emailId", Json.JStr (template_value (Json.field EMAIL_COLUMN (j_credentialData c))));
      ("credential", Json.JObj [
        ("@context", Json.JArr [Json.JStr "https://www.w3.org/2018/credentials/v1"; Json.JStr (j_schemaLedgerId c)]);
        ("type", Json.JArr [Json.JStr "VerifiableCredential"; Json.JStr (j_schemaName c)]);
        ("issuer", Json.JObj [("id", Json.JStr (template_str (j_orgDid c)))]);
        ("issuanceDate", Json.JStr (Date.toISOString now));
        ("credentialSubject", Json.JObj (jsonld_subject (j_credentialData c)));
        ("prettyVc", prettyVc)]);
      ("options", Json.JObj [("proofType", Json.JStr proofType); ("proofPurpose", Json.JStr "assertionMethod")])]]);
    ("comment", Json.JStr "string");
    ("protocolVersion", Json.JStr "v2");
    ("credentialType", Json.JStr "jsonld");
    ("orgId", Json.JStr (j_orgId c))] ++
    Json.opt_field "isReuseConnection" (Json.JBool <$> j_isReuseConnection c)).

(** ** Client credentials *)

(** The cipher of the crypto-js package: encryption draws a salt; [None] is a text that
    does not decrypt to UTF-8, at which the package throws. *)
Class Cipher := {
  aes_encrypt : nat -> string -> string -> string;     (* salt, text, key *)
  aes_decrypt : string -> string -> option string;     (* text, key *)
  decrypt_encrypt salt text key : aes_decrypt (aes_encrypt salt text key) key = Some text;
}.

Section credentials.
Context `{Cipher}.

Definition no_key : exn := js_error "CRYPTO_PRIVATE_KEY environment variable is not set".

Definition encryptClientCredential (key : option string) (salt : nat) (clientCredential : string) : result string :=
  if truthy_str key then Ok (aes_encrypt salt (Json.quote clientCredential) (default "" key)) else Throw no_key.

(** What is not valid JSON is returned as it is; [JsonParse] reads integers only. *)
Definition decryptClientCredential (key : option string) (encrypted : string) : result Json.value :=
  if truthy_str key then
    match aes_decrypt encrypted (default "" key) with
    | None => Throw (js_error "Malformed UTF-8 data")
    | Some text =>
        if String.eqb text "" then Ok (Json.JStr encrypted)
        else Ok (default (Json.JStr text) (JsonParse.parse text))
    end
  else Throw no_key.
End credentials.

(** ** Query strings *)

(** A value that [String] prints. *)
Inductive query_value := QStr (s : string) | QNum (n : Z) | QBool (b : bool) | QObject (printed : string).
Definition print_value (v : query_value) : string :=
  match v with QStr s => s | QNum n => pretty n | QBool b => if b then "true" else "false" | QObject p => p end.

(** The properties in the order of [Object.entries]; [None] is [null] or [undefined]. *)
Definition criteria (queryParams : list (string * option query_value)) : list string :=
  omap (fun '(k, v) => (fun v => Uri.encodeURIComponent k +:+ "=" +:+ Uri.encodeURIComponent (print_value v)) <$> v) queryParams.

Definition buildUrlWithQuery (baseUrl : string) (queryParams : list (string * option query_value)) : string :=
  match criteria queryParams with
  | [] => baseUrl
  | criteriaParams => baseUrl +:+ "?" +:+ Str.join "&" criteriaParams
  end.

(** ** Laws *)

(** *** Numbers *)

(** With a minimum that is not zero, [toNumber] returns a number between the bounds
    (or [undefined] when it has no number at all), and the number read when that lies
    between them. *)
Theorem toNumber_bounds v o m n :
  o_min o = Some m -> m <> 0 -> (forall M, o_max o = Some M -> m <= M) -> toNumber v o = Some n ->
  m <= n /\ (forall M, o_max o = Some M -> n <= M) /\
  (forall k, parseInt v = Some k -> m <= k -> (forall M, o_max o = Some M -> k <= M) -> n = k).
Proof.
  intros Hm Hz HM. unfold toNumber. rewrite Hm. cbn [num_or]. rewrite (proj2 (Z.eqb_neq m 0) Hz), (proj2 (Z.eqb_neq m 0) Hz).
  assert (Hv : forall k, parseInt v = Some k -> String.eqb v "" = false) by (intros k; by destruct v).
  destruct (match parseInt _ with Some n => Some n | None => o_default o end) as [x|] eqn:Ex; cbn [below].
  2: { destruct (o_max o); done. }
  assert (Hk : forall k, parseInt v = Some k -> x = k).
  { intros k Hp. rewrite (Hv k Hp), Hp in Ex. congruence. }
  destruct (Z.ltb_spec x m), (o_max o) as [M|]; cbn [below]; try specialize (HM M eq_refl).
  all: repeat match goal with |- context [?a <? ?b] => destruct (Z.ltb_spec a b) end; intros [= <-]; try lia.
  all: split_and!; [lia | intros ? [= <-]; lia || done | intros k Hp Hk1 Hk2; pose proof (Hk k Hp); try specialize (Hk2 M eq_refl); lia].
Qed.

Example toNumber_bounds_witness : 1 <= 50.
Proof.
  apply (toNumber_bounds "500" (ToNumber (Some 10) (Some 1) (Some 50)) 1 50); [reflexivity|lia| |reflexivity].
  intros M [= <-]. lia.
Defined.

(** A maximum alone, or with the minimum 0, is not enforced; nor is the minimum 0. *)
Example maximum_ignored : toNumber "500" (ToNumber None None (Some 50)) = Some 500 /\
  toNumber "500" (ToNumber None (Some 0) (Some 50)) = Some 500 /\ toNumber "-5" (ToNumber None (Some 0) None) = Some (-5).
Proof. done. Qed.

(** *** E-mail addresses and hosts *)

(** [validateEmail] accepts exactly the addresses [local@domain.tld] with a local
    part of letters, digits, dots, underscores and hyphens, a domain of letters, digits,
    dots and hyphens, neither of them empty, and two to four letters at the end. *)
Theorem validateEmail_exact e : validateEmail e = true <-> exists l d t, e = l +:+ "@" +:+ d +:+ "." +:+ t /\
  (l <> "" /\ Regex.every local_char l = true) /\ (d <> "" /\ Regex.every domain_char d = true) /\
  (2 <= String.length t <= 4)%nat /\ Regex.every Regex.letter t = true.
Proof.
  unfold validateEmail, emailRegex. rewrite Regex.test_spec. unfold Regex.seq. cbn [foldr].
  split.
  - intros H. apply Regex.lang_cat_iff in H as (l & ? & -> & Hl%Regex.lang_plus_cls & H).
    apply Regex.lang_cat_iff in H as (? & ? & -> & ->%Regex.lang_str & H).
    apply Regex.lang_cat_iff in H as (d & ? & -> & Hd%Regex.lang_plus_cls & H).
    apply Regex.lang_cat_iff in H as (? & ? & -> & ->%Regex.lang_str & H).
    apply Regex.lang_cat_iff in H as (t & z & -> & [Ht Ht']%Regex.lang_between & Hz); [|lia].
    inversion Hz; subst. rewrite Regex.app_str_nil. by exists l, d, t.
  - intros (l & d & t & -> & Hl & Hd & Ht). constructor; [by apply Regex.lang_plus_cls|].
    constructor; [by apply Regex.lang_str|]. constructor; [by apply Regex.lang_plus_cls|].
    constructor; [by apply Regex.lang_str|]. rewrite <- (Regex.app_str_nil t) at 1.
    constructor; [apply Regex.lang_between; (lia || done) | constructor].
Qed.

Lemma octet_value o : Regex.lang octet o -> exists n, Num.digits_acc 0 o = Some n /\ 0 <= n <= 255.
Proof.
  assert (Hdig : forall c, Regex.digit c = true -> exists n, Num.digit c = Some n /\ 0 <= n <= 9).
  { intros [[] [] [] [] [] [] [] []]; try discriminate; eexists; (split; [reflexivity | cbn; lia]). }
  assert (Hrange : forall a b c, Regex.in_range a b c = true -> (Str.code a <= Str.code c <= Str.code b)%N).
  { intros a b c [?%N.leb_le ?%N.leb_le]%andb_true_iff. done. }
  unfold octet, Regex.any. cbn [foldr]. rewrite !Regex.lang_alt_iff. intros [H|[H|[H|H]]]; [| | |inversion H].
  - apply Regex.lang_cat_iff in H as (? & ? & -> & ->%Regex.lang_str & (c & -> & Hc)%Regex.lang_cls).
    destruct c as [[] [] [] [] [] [] [] []]; try discriminate Hc; eexists; (split; [reflexivity | cbn; lia]).
  - apply Regex.lang_cat_iff in H as (? & ? & -> & ->%Regex.lang_str & H).
    apply Regex.lang_cat_iff in H as (? & ? & -> & (c & -> & Hc)%Regex.lang_cls & (e & -> & He)%Regex.lang_cls).
    destruct (Hdig e He) as (n & Hn & ?). cbn.
    destruct c as [[] [] [] [] [] [] [] []]; try discriminate Hc; cbn; rewrite Hn; eexists; (split; [reflexivity | cbn; lia]).
  - apply Regex.lang_cat_iff in H as (u & v & -> & Hu & Hv).
    apply Regex.lang_cat_iff in Hv as (? & w & -> & (e & -> & He)%Regex.lang_cls & Hw).
    destruct (Hdig e He) as (n & Hn & ?).
    assert (Hhead : u = "" \/ u = "0" \/ u = "1").
    { apply Regex.lang_alt_iff in Hu as [(c & -> & Hc)%Regex.lang_cls|Hu]; [|inversion Hu; auto].
      destruct c as [[] [] [] [] [] [] [] []]; try discriminate Hc; auto. }
    apply Regex.lang_alt_iff in Hw as [(f & -> & Hf)%Regex.lang_cls|Hw].
    + destruct (Hdig f Hf) as (k & Hk & ?). destruct Hhead as [-> | [-> | ->]]; cbn; rewrite Hn, Hk; eexists; (split; [reflexivity | cbn; lia]).
    + inversion Hw; subst. destruct Hhead as [-> | [-> | ->]]; cbn; rewrite Hn; eexists; (split; [reflexivity | cbn; lia]).
Qed.

(** A host given by numbers is accepted only with four octets of at most 255 each and
    a port of at most five digits, after an optional scheme and before an optional path. *)
Theorem host_octets_bounded s : Regex.test hostPortRegex s = true ->
  exists sch a b c d port path,
    s = sch +:+ a +:+ "." +:+ b +:+ "." +:+ c +:+ "." +:+ d +:+ ":" +:+ port +:+ path /\
    (sch = "" \/ sch = "http://" \/ sch = "https://") /\
    Forall (fun o => exists n, Num.digits_acc 0 o = Some n /\ 0 <= n <= 255) [a; b; c; d] /\
    (1 <= String.length port <= 5)%nat /\ Regex.every Regex.digit port = true.
Proof.
  rewrite Regex.test_spec. unfold hostPortRegex, Regex.seq. cbn [foldr]. intros H.
  apply Regex.lang_cat_iff in H as (sch & ? & -> & Hsch & H).
  apply Regex.lang_cat_iff in H as (ip & ? & -> & Hip & H).
  apply Regex.lang_cat_iff in H as (? & ? & -> & ->%Regex.lang_str & H).
  apply Regex.lang_cat_iff in H as (po & ? & -> & [Hl Hd]%Regex.lang_between & H); [|lia].
  apply Regex.lang_cat_iff in H as (pa & z & -> & Hpa & Hz).
  unfold ipv4 in Hip. cbn [Regex.exactly] in Hip.
  apply Regex.lang_cat_iff in Hip as (abc & d4 & -> & Habc & Ho4).
  apply Regex.lang_cat_iff in Habc as (? & ? & -> & H1 & Habc).
  apply Regex.lang_cat_iff in Habc as (? & ? & -> & H2 & Habc).
  apply Regex.lang_cat_iff in Habc as (? & e & -> & H3 & He).
  apply Regex.lang_cat_iff in H1 as (d1 & ? & -> & Ho1 & ->%Regex.lang_str).
  apply Regex.lang_cat_iff in H2 as (d2 & ? & -> & Ho2 & ->%Regex.lang_str).
  apply Regex.lang_cat_iff in H3 as (d3 & ? & -> & Ho3 & ->%Regex.lang_str).
  inversion He; subst. inversion Hz; subst. exists sch, d1, d2, d3, d4, po, pa. split_and!; [| | |lia|lia|done].
  - by rewrite !Json.app_assoc_str, Regex.app_str_nil.
  - apply Regex.lang_alt_iff in Hsch as [Hs|Hs]; [|inversion Hs; auto].
    apply Regex.lang_alt_iff in Hs as [->%Regex.lang_str | ->%Regex.lang_str]; auto.
  - repeat constructor; by apply octet_value.
Qed.

Example host_octets_bounded_witness : exists sch a b c d port path,
  "http://10.0.0.255:8080/x" = sch +:+ a +:+ "." +:+ b +:+ "." +:+ c +:+ "." +:+ d +:+ ":" +:+ port +:+ path /\
  (sch = "" \/ sch = "http://" \/ sch = "https://") /\
  Forall (fun o => exists n, Num.digits_acc 0 o = Some n /\ 0 <= n <= 255) [a; b; c; d] /\
  (1 <= String.length port <= 5)%nat /\ Regex.every Regex.digit port = true.
Proof. apply (host_octets_bounded "http://10.0.0.255:8080/x"). vm_compute. reflexivity. Defined.

Example hosts_checked : isHostPortOrDomain "256.1.1.1:80" = false /\ isHostPortOrDomain "https://localhost:99999/a" = true /\
  isHostPortOrDomain "a-.example.com" = false /\ isHostPortOrDomain "sub.example.com:443" = true.
Proof. by vm_compute. Qed.

(** *** Schemas *)

(** A property that is there and truthy, and one that is a nonempty string. *)
Definition given (p : Json.value) (k : string) : Prop := exists v, Json.get k p = Some v /\ Json.truthy v = true.
Definition given_string (p : Json.value) (k : string) : Prop := exists s, Json.get k p = Some (Json.JStr s) /\ s <> "".
Definition given_list (p : Json.value) (k : string) (names : list string) : Prop :=
  exists l, Json.get k p = Some (Json.JArr l) /\ l <> [] /\ Forall (fun a => Forall (given a) names) l.

(** What a schema request must have. *)
Definition well_formed (p : Json.value) (schemaType : string) : Prop :=
  (schemaType = "indy" -> given_string p "name" /\ given p "version" /\
    given_list p "attributes" ["displayName"; "attributeName"; "schemaDataType"]) /\
  (schemaType = "w3c" -> Forall (given_string p) ["schemaName"; "did"; "description"] /\
    given_list p "schemaAttributes" ["title"; "type"]).

Lemma first_error_nil cases : first_error cases = [] <-> Forall (fun c => c.1 = false) cases.
Proof.
  induction cases as [|[[] m] cases IH]; simpl; [by split| |].
  - split; [done | by intros [? _]%Forall_cons].
  - rewrite Forall_cons, IH. naive_solver.
Qed.

Lemma given_truthy p k : truthy (Json.get k p) = true <-> given p k.
Proof. unfold truthy, given. destruct (Json.get k p); naive_solver. Qed.

Lemma given_string_tests p k :
  negb (truthy (Json.get k p)) = false /\ negb (is_string (Json.get k p)) = false <-> given_string p k.
Proof.
  unfold given_string. destruct (Json.get k p) as [[| | |s| |]|]; simpl; try naive_solver.
  rewrite !negb_false_iff, negb_true_iff, String.eqb_neq. naive_solver.
Qed.

Lemma concat_nil {A} (ls : list (list A)) : concat ls = [] <-> Forall (fun l => l = []) ls.
Proof.
  induction ls as [|l ls IH]; simpl; [by split|]. rewrite Forall_cons, <- IH. split; [apply app_eq_nil | by intros [-> ->]].
Qed.

Lemma given_object a names : names <> [] -> Forall (given a) names -> Json.truthy a = true.
Proof. intros Hne Hn. destruct names as [|k ?]; [done|]. apply Forall_cons in Hn as [(v & Hv & _) _]. by destruct a. Qed.

Lemma attribute_errors_nil names missing suffix i a : names <> [] ->
  attribute_errors names missing suffix i a = [] <-> Forall (given a) names.
Proof.
  intros Hne. unfold attribute_errors. destruct (Json.truthy a) eqn:E; simpl.
  - rewrite first_error_nil, Forall_map. apply Forall_iff. intros k. simpl. by rewrite negb_false_iff, given_truthy.
  - split; [done|]. intros H. apply given_object in H; congruence.
Qed.

Lemma list_errors_nil names empty missing suffix p k : names <> [] ->
  list_errors names empty missing suffix (Json.get k p) = [] <-> given_list p k names.
Proof.
  intros Hne. unfold list_errors, given_list. destruct (Json.get k p) as [[| | | |[|a l]|]|]; try (split; [done | naive_solver]).
  rewrite concat_nil. assert (H : Forall (fun e => e = []) (imap (attribute_errors names missing suffix) (a :: l)) <->
    Forall (fun a => Forall (given a) names) (a :: l)).
  { generalize (a :: l). intros l0. rewrite !Forall_lookup. setoid_rewrite list_lookup_imap. split.
    - intros H i x Hx. specialize (H i). rewrite Hx in H. by eapply attribute_errors_nil, H.
    - intros H i e He. destruct (l0 !! i) as [x|] eqn:Hx; [|done]. injection He as <-. apply attribute_errors_nil; [done|by eapply H]. }
  rewrite H. naive_solver.
Qed.

(** A schema request passes validation exactly when every property its type needs is
    there, of the right type and not empty, for the schema and for each attribute. *)
Theorem validateSchemaPayload_exact p schemaType :
  validateSchemaPayload p schemaType = Ok tt <-> well_formed p schemaType.
Proof.
  assert (H : validateSchemaPayload p schemaType = Ok tt <-> schema_errors p schemaType = []).
  { unfold validateSchemaPayload. by destruct (schema_errors p schemaType). }
  rewrite H. clear H. unfold schema_errors, well_formed, indy_errors, w3c_errors.
  assert (Happ : forall (a b : list string), (a ++ b)%list = [] <-> a = [] /\ b = []).
  { intros a b. split; [apply app_eq_nil | by intros [-> ->]]. }
  destruct (String.eqb_spec "indy" schemaType) as [Hi|Hi], (String.eqb_spec "w3c" schemaType) as [Hw|Hw]; subst; try done.
  - rewrite Happ, list_errors_nil, first_error_nil, !Forall_cons by done. simpl.
    split.
    + intros [(H1 & H2 & H3 & _) H4]. split; [intros _ | done]. split; [by apply given_string_tests|].
      split; [by apply given_truthy, negb_false_iff | done].
    + intros [H _]. destruct (H eq_refl) as ([H1 H2]%given_string_tests & H3%given_truthy & H4). by rewrite H1, H2, H3.
  - rewrite Happ, list_errors_nil, first_error_nil, !Forall_cons by done. simpl.
    split.
    + intros [(H1 & H2 & H3 & H4 & H5 & H6 & _) H7]. split; [done | intros _]. split; [|done].
      repeat constructor; by apply given_string_tests.
    + intros [_ H]. destruct (H eq_refl) as [Hs H4]. destruct Hs as (H1 & H2 & H3 & _).
      apply given_string_tests in H1 as [-> ->], H2 as [-> ->], H3 as [-> ->]. done.
Qed.

(** A structure that is refused is refused with a message about the offending property. *)
Lemma nested_message_explains ty properties items :
  nested_valid ty properties items = false <-> nested_message ty properties items <> "Invalid structure based on schemaDataType".
Proof.
  unfold nested_valid, nested_message.
  repeat case_bool_decide; simplify_eq; destruct properties, items; simpl; split; done.
Qed.

(** *** Dates *)

Lemma update_dates_today reading today n ds : (forall n, date_of (Date.toISOString (reading n)) = today) ->
  Forall (fun d => date_of d = today) (update_dates reading today n ds).
Proof.
  intros Hr. revert n. induction ds as [|d ds IH]; intros n; simpl; [constructor|].
  destruct (String.eqb_spec (date_of d) today); constructor; auto.
Qed.

(** While the day does not change, every credential leaves with today's date, and one
    that had it is unchanged. *)
Lemma issuance_dates_today reading ds : (forall n, date_of (Date.toISOString (reading n)) = date_of (Date.toISOString (reading 0%nat))) ->
  Forall (fun d => date_of d = date_of (Date.toISOString (reading 0%nat))) (validateAndUpdateIssuanceDates reading ds).
Proof. exact (update_dates_today reading _ 1 ds). Qed.

(** *** Client credentials *)

(** What was encrypted with a key decrypts with it to the same credential, whatever
    salt was drawn and whatever the credential looks like. *)
Theorem credential_round_trip `{Cipher} key salt c encrypted :
  encryptClientCredential key salt c = Ok encrypted -> decryptClientCredential key encrypted = Ok (Json.JStr c).
Proof.
  unfold encryptClientCredential, decryptClientCredential. destruct (truthy_str key); [|done]. intros [= <-].
  rewrite decrypt_encrypt, JsonParse.parse_quote. by destruct c.
Qed.

Module CipherSample.
(** A cipher that writes the key in front of the text. *)
#[local] Instance prefix_cipher : Cipher.
Proof.
  refine {| aes_encrypt _ t k := k +:+ t;
    aes_decrypt t k := if Str.startsWith k t then Some (String.substring (String.length k) (String.length t) t) else None |}.
  intros _ t k. assert (Hs : Str.startsWith k (k +:+ t) = true) by (apply Str.startsWith_spec; by exists t).
  rewrite Hs. f_equal. clear Hs. induction k as [|c k IH]; simpl; [|].
  - induction t as [|c t IH]; [done|]. simpl. by rewrite IH.
  - clear IH. assert (Hsub : forall (k t : string) n, (String.length t <= n)%nat -> String.substring (String.length k) n (k +:+ t) = t).
    { clear. intros k. induction k as [|c k IH]; intros t n Hn; simpl; [|by apply IH].
      revert n Hn. induction t as [|c t IH]; intros n Hn; [by destruct n|]. destruct n as [|n]; simpl in *; [lia|]. rewrite IH; [done|lia]. }
    apply Hsub. rewrite Regex.length_app_str. lia.
Defined.

Example credential_round_trip_witness : decryptClientCredential (Some "key") ("key" +:+ Json.quote "1234") = Ok (Json.JStr "1234").
Proof. apply (credential_round_trip (Some "key") 0 "1234"). reflexivity. Defined.
End CipherSample.

(** *** Query strings *)

(** The reading of a query: pairs between [&], each of a name and a value around [=]. *)
Definition parse_pair (s : string) : option (string * string) :=
  match Str.split "=" s with
  | [k; v] => k ← Uri.decode k; v ← Uri.decode v; Some (k, v)
  | _ => None
  end.
Definition parse_query (q : string) : option (list (string * string)) := mapM parse_pair (Str.split "&" q).

(** The parameters that are neither [null] nor [undefined]. *)
Definition defined (ps : list (string * option query_value)) : list (string * string) :=
  omap (fun '(k, v) => (fun v => (k, print_value v)) <$> v) ps.

Lemma component_plain c s : Regex.one_of "&=?#" c = true -> Str.contains (String c "") (Uri.encodeURIComponent s) = false.
Proof.
  intros Hc. induction s as [|d s IH]; [done|]. cbn [Uri.encodeURIComponent].
  assert (Happ : forall a b, Str.contains (String c "") a = false -> Str.contains (String c "") b = false -> Str.contains (String c "") (a +:+ b) = false).
  { clear. induction a as [|e a IH]; intros b Ha Hb; [done|]. cbn [Str.contains Str.startsWith String.append] in *.
    apply orb_false_iff in Ha as [-> Ha]. by rewrite IH. }
  apply Happ; [|done]. clear IH Happ. 
  assert (Hfour : c = "&"%char \/ c = "="%char \/ c = "?"%char \/ c = "#"%char).
  { unfold Regex.one_of in Hc. rewrite !orb_true_iff, !Ascii.eqb_eq in Hc. naive_solver. }
  destruct Hfour as [-> | [-> | [-> | ->]]]; destruct d as [[] [] [] [] [] [] [] []]; reflexivity.
Qed.

Lemma parse_pair_written k v : parse_pair (Uri.encodeURIComponent k +:+ "=" +:+ Uri.encodeURIComponent v) = Some (k, v).
Proof.
  unfold parse_pair. simpl String.append. rewrite Str.split_app_sep, !Str.split_no_sep by by apply component_plain.
  simpl. by rewrite !Uri.decode_encode.
Qed.

Lemma criterion_plain k v : Str.contains "&" (Uri.encodeURIComponent k +:+ "=" +:+ Uri.encodeURIComponent v) = false.
Proof.
  assert (Happ : forall a b, Str.contains "&" a = false -> Str.contains "&" b = false -> Str.contains "&" (a +:+ b) = false).
  { induction a as [|e a IH]; intros b Ha Hb; [done|]. cbn [Str.contains Str.startsWith String.append] in *.
    apply orb_false_iff in Ha as [-> Ha]. by rewrite IH. }
  apply Happ; [by apply component_plain|]. apply (Happ "="); [done | by apply component_plain].
Qed.

(** A URL is the base followed by a query that reads back as the parameters that are
    neither null nor undefined, in their order and whatever characters they have; without
    such a parameter it is the base. *)
Theorem query_round_trip baseUrl ps :
  (defined ps = [] /\ buildUrlWithQuery baseUrl ps = baseUrl) \/
  (exists q, buildUrlWithQuery baseUrl ps = baseUrl +:+ "?" +:+ q /\ parse_query q = Some (defined ps)).
Proof.
  assert (Hc : criteria ps = map (fun '(k, v) => Uri.encodeURIComponent k +:+ "=" +:+ Uri.encodeURIComponent v) (defined ps)).
  { unfold criteria, defined. induction ps as [|[k [v|]] ps IH]; [done| |exact IH]. exact (f_equal _ IH). }
  unfold buildUrlWithQuery. rewrite Hc. destruct (defined ps) as [|p l] eqn:E; [by left|]. right.
  exists (Str.join "&" (map (fun '(k, v) => Uri.encodeURIComponent k +:+ "=" +:+ Uri.encodeURIComponent v) (p :: l))).
  split; [done|]. unfold parse_query. rewrite Str.split_join; [| done |].
  - clear. induction (p :: l) as [|[k v] l0 IH]; [done|]. cbn [map mapM]. by rewrite parse_pair_written, IH.
  - apply Forall_map, Forall_forall. intros [k v] _. apply criterion_plain.
Qed.
