(* ===== verification/CommonService.v ===== *)
(** * Common service

    [common.service.ts]: the HTTP verbs the services share with the mapping of their
    errors, the encryption of values that cross the network, and the helpers for agents.
    The HTTP client ([axios]) and the cipher ([crypto-js]) are other people's code:
    [HttpClient] is the interface the callers are written against. *)

From S2P Require Import Prelude Js JsonParse CastHelper.

Open Scope Z_scope.

(** ** Values of type [any]

    [None] stands for [undefined]. *)

Definition any : Type := option Json.value.

(** What a template literal makes of a value *)
Fixpoint json_string (v : Json.value) : string :=
  match v with
  | Json.JNull => "null"
  | Json.JBool b => if b then "true" else "false"
  | Json.JNum n => pretty n
  | Json.JStr s => s
  | Json.JArr vs => Str.join "," (map (fun x => match x with Json.JNull => "" | _ => json_string x end) vs)
  | Json.JObj _ => "[object Object]"
  end.
Definition any_string (a : any) : string := match a with Some v => json_string v | None => "undefined" end.
Definition any_truthy (a : any) : bool := match a with Some v => Json.truthy v | None => false end.

Definition not_an_object : exn := js_error "Cannot read properties of undefined".

(** [a.k] *)
Definition prop (k : string) (a : any) : result any :=
  match a with None | Some Json.JNull => Throw not_an_object | Some v => Ok (Json.get k v) end.

(** [a?.k] *)
Definition prop_opt (k : string) (a : any) : any := match a with None => None | Some v => Json.get k v end.

(** [a[n]] for a number [n] *)
Definition item (n : nat) (a : any) : result any :=
  match a with
  | None | Some Json.JNull => Throw not_an_object
  | Some (Json.JArr vs) => Ok (vs !! n)
  | Some (Json.JStr s) => Ok ((fun c => Json.JStr (String c "")) <$> String.get n s)
  | Some _ => Ok None
  end.

(** A string that may be absent, as a value *)
Definition of_str (o : option string) : any := Json.JStr <$> o.

(** [a === b]: objects and arrays are compared by identity, so two that were parsed apart
    differ. *)
Definition strict_equal (a b : Json.value) : bool :=
  match a, b with
  | Json.JNull, Json.JNull => true
  | Json.JBool x, Json.JBool y => Bool.eqb x y
  | Json.JNum x, Json.JNum y => x =? y
  | Json.JStr x, Json.JStr y => String.eqb x y
  | _, _ => false
  end.

(** ** Environment *)

Class ProcessEnv := { process_env : string -> option string }.

Definition env_string `{ProcessEnv} (name : string) : string := template_str (process_env name).

(** ** Requests *)

Inductive http_method := GET | POST | PUT | DELETE.
#[export] Instance http_method_eq_dec : EqDecision http_method.
Proof. solve_decision. Defined.

Inductive http_body :=
  | NoBody
  | JsonBody (v : Json.value)
  | FormBody (fields : list (string * any)).      (* [qs.stringify] of an object *)

Record http_request := Request {
  rq_method : http_method;
  rq_url : string;
  rq_body : http_body;
  rq_headers : list (string * string);
}.

(** An error of the client: its message, and status and body of the response if there is one *)
Record axios_error := AxiosError { ae_message : string; ae_response : option (Z * any) }.

(** The client: a request is answered by the body of the response, or fails. *)
Class HttpClient (W : Type) := axios : http_request -> eff W (any + axios_error).

Definition http_error (status : Z) (message : option string) : exn :=
  Exn HttpException (default "Http Exception" message) (Some status) None.

Section http.
Context {W : Type} `{HttpClient W}.

Definition ae_string (e : axios_error) : string := "AxiosError: " +:+ ae_message e.

(** [error.response.data] of an error without a response throws. *)
Definition handleCommonErrors {A} (e : axios_error) : eff W A :=
  let with_data x := match ae_response e with Some _ => throw x | None => throw not_an_object end in
  if Str.contains "ECONNREFUSED" (ae_message e) then throw (http_error 404 None)
  else if Str.contains "ERR_HTTP_INVALID_HEADER_VALUE" (ae_string e) then throw (http_error 401 None)
  else if Str.contains "404" (ae_string e) then with_data (http_error 404 None)
  else if Str.contains "400" (ae_string e) then with_data (http_error 400 (Some (ae_message e)))
  else if Str.contains "422" (ae_string e) then with_data (http_error 422 None)
  else match ae_response e with
    | Some (status, _) => throw (http_error status (Some (ae_message e)))
    | None => throw not_an_object
    end.

Definition httpPost (url : string) (payload : http_body) (headers : list (string * string)) : eff W any :=
  answer ← axios (Request POST url payload headers);
  match answer with inl v => mret v | inr e => handleCommonErrors e end.

Definition httpGet (url : string) (headers : list (string * string)) : eff W any :=
  answer ← axios (Request GET url NoBody headers);
  match answer with inl v => mret v | inr e => handleCommonErrors e end.

(** The handler reads the body of the response first, which an error may not have.  The
    answer is the whole response, of which no modelled caller reads anything. *)
Definition httpDelete (url : string) (headers : list (string * string)) : eff W any :=
  answer ← axios (Request DELETE url NoBody headers);
  match answer with
  | inl v => mret v
  | inr e => match ae_response e with Some _ => handleCommonErrors e | None => throw not_an_object end
  end.

Definition sendError {A} (e : axios_error) : eff W A :=
  match ae_response e with
  | Some (status, _) => throw (http_error (if status =? 0 then 500 else status) None)
  | None => throw not_an_object
  end.

(** A body [null] ends in the handler, which throws. *)
Definition filterResponse (data : any) : result any :=
  if any_truthy data && bool_decide (prop_opt "message" data <> None) && bool_decide (prop_opt "success" data <> None) then Ok data
  else
    results ← prop "results" data;
    result ← prop "result" data;
    let inner := if any_truthy results then data else if any_truthy result then result else data in
    Ok (Some (Json.JObj ([("message", Json.JStr "fetched"); ("success", Json.JBool true)] ++ Json.opt_field "data" inner)))%list.

Definition httpPut (url : string) (payload : http_body) (headers : list (string * string)) : eff W any :=
  answer ← axios (Request PUT url payload headers);
  match answer with
  | inl v => match filterResponse v with Ok r => mret r | Throw _ => throw not_an_object end
  | inr e => sendError e
  end.

(** ** Agents *)

Context `{ProcessEnv}.

Definition normalizeUrlWithProtocol (baseUrl : string) : string :=
  if Str.startsWith "http://" baseUrl || Str.startsWith "https://" baseUrl then baseUrl
  else env_string "API_GATEWAY_PROTOCOL" +:+ "://" +:+ baseUrl.

Definition checkAgentHealth (baseUrl apiKey : option string) : eff W bool :=
  if negb (truthy_str baseUrl) || negb (truthy_str apiKey) then throw (http_exn BadRequestException "Invalid agent details")
  else try_catch (
    r ← httpGet (default "" baseUrl +:+ "/agent") [("authorization", default "" apiKey)];
    up ← lift (prop "isInitialized" r);
    mret (any_truthy up)) (fun _ => throw (js_error "")).

Definition getBaseAgentToken (agentEndPoint apiKey : string) : eff W any :=
  r ← httpPost (normalizeUrlWithProtocol agentEndPoint +:+ "/agent/token") (JsonBody (Json.JStr ""))
    [("Accept", "application/json"); ("Authorization", apiKey)];
  if any_truthy r then lift (prop "token" r) else throw (http_exn NotFoundException "Error while fetching base wallet token").

Definition getTenantWalletToken (agentEndPoint apiKey tenantId : string) : eff W any :=
  r ← httpPost (normalizeUrlWithProtocol agentEndPoint +:+ "/multi-tenancy/get-token/" +:+ tenantId) (JsonBody (Json.JObj []))
    [("Accept", "application/json"); ("Authorization", apiKey)];
  if any_truthy r then lift (prop "token" r) else throw (http_exn NotFoundException "Error while fetching tenant wallet token").
End http.

Record IOptionalParams := OptionalParams {
  op_alias : option string;
  op_myDid : option string;
  op_outOfBandId : option string;
  op_state : option string;
  op_theirDid : option string;
  op_theirLabel : option string;
  op_threadId : option string;
  op_connectionId : option string;
}.

Definition criterion (name : string) (o : option string) : list string :=
  if truthy_str o then [name +:+ "=" +:+ default "" o] else [].

Definition createDynamicUrl (o : IOptionalParams) : string :=
  let criteriaParams := (criterion "alias" (op_alias o) ++ criterion "myDid" (op_myDid o) ++ criterion "outOfBandId" (op_outOfBandId o) ++
    criterion "state" (op_state o) ++ criterion "theirDid" (op_theirDid o) ++ criterion "theirLabel" (op_theirLabel o) ++
    criterion "threadId" (op_threadId o) ++ criterion "connectionId" (op_connectionId o))%list in
  if (0 <? length criteriaParams)%nat then "?" +:+ Str.join "&" criteriaParams else "".

Definition spaceValidate (text customMessage : string) : result unit :=
  if String.eqb (Str.trim text) "" then Throw (http_exn BadRequestException customMessage) else Ok tt.

(** ** Encrypted values *)

Section secrets.
Context `{Cipher} `{ProcessEnv}.

Definition CRYPTO_PRIVATE_KEY : option string := process_env "CRYPTO_PRIVATE_KEY".
Definition invalid_credentials : exn := http_exn BadRequestException "Invalid Credentials".

Definition decryptPassword (encryptedPassword : option string) : result Json.value :=
  match encryptedPassword, CRYPTO_PRIVATE_KEY with
  | Some text, Some key =>
      match aes_decrypt text key ≫= JsonParse.parse with Some v => Ok v | None => Throw invalid_credentials end
  | _, _ => Throw invalid_credentials
  end.

Definition dataEncryption (salt : nat) (data : string) : result string :=
  match CRYPTO_PRIVATE_KEY with
  | Some key => Ok (aes_encrypt salt (Json.quote data) key)
  | None => Throw not_an_object
  end.

Lemma decryptPassword_encrypted salt data encrypted :
  dataEncryption salt data = Ok encrypted -> decryptPassword (Some encrypted) = Ok (Json.JStr data).
Proof.
  unfold dataEncryption, decryptPassword. destruct CRYPTO_PRIVATE_KEY as [key|]; [|done]. intros [= <-].
  by rewrite decrypt_encrypt; simpl; rewrite JsonParse.parse_quote.
Qed.
End secrets.

(** ** Frames

    A verb frames the state if its request does. *)

Section frames.
Context {W : Type} `{HttpClient W} (R : relation W) `{!PreOrder R}.

Lemma frames_handleCommonErrors {A} e : frames R (handleCommonErrors (A := A) e).
Proof using All. unfold handleCommonErrors. destruct (ae_response e) as [[]|]; repeat case_match; by apply frames_throw. Qed.

Lemma frames_httpPost url b h : frames R (axios (Request POST url b h)) -> frames R (httpPost url b h).
Proof using All. intros Hx. apply frames_bind; [exact _ | done|]. intros [v|e]; [by apply frames_ret | apply frames_handleCommonErrors]. Qed.

Lemma frames_httpGet url h : frames R (axios (Request GET url NoBody h)) -> frames R (httpGet url h).
Proof using All. intros Hx. apply frames_bind; [exact _ | done|]. intros [v|e]; [by apply frames_ret | apply frames_handleCommonErrors]. Qed.

Lemma frames_httpDelete url h : frames R (axios (Request DELETE url NoBody h)) -> frames R (httpDelete url h).
Proof using All.
  intros Hx. apply frames_bind; [exact _ | done|]. intros [v|e]; [by apply frames_ret|].
  case_match; [apply frames_handleCommonErrors | by apply frames_throw].
Qed.

Lemma frames_httpPut url b h : frames R (axios (Request PUT url b h)) -> frames R (httpPut url b h).
Proof using All.
  intros Hx. apply frames_bind; [exact _ | done|]. intros [v|e]; [case_match; [by apply frames_ret | by apply frames_throw]|].
  unfold sendError. destruct (ae_response e) as [[]|]; by apply frames_throw.
Qed.
End frames.
