(* ===== verification/ClientRegistration.v ===== *)
(** * Client registration

    [keycloak-url.service.ts] and [client-registration.service.ts]: the requests to the
    administration interface of Keycloak and what is read from their answers.  Methods that
    no service calls are left out.  Logging is left out. *)

From S2P Require Import Prelude Js JsonParse CastHelper CommonService.

Open Scope Z_scope.

(** ** Addresses *)

Module KeycloakUrl.
Section urls.
Context `{ProcessEnv}.

Definition domain : string := env_string "KEYCLOAK_DOMAIN".
Definition of_realm (realm : option string) : string := domain +:+ "admin/realms/" +:+ template_str realm.

Definition createUserURL (realm : option string) : string := of_realm realm +:+ "/users".

Definition getUserByUsernameURL (realm username : option string) : string :=
  domain +:+ "admin/realms/" +:+ Uri.encodeURIComponent (template_str realm) +:+ "/users?username=" +:+
  Uri.encodeURIComponent (template_str username) +:+ "&exact=true".

Definition GetUserInfoURL (realm : option string) (userid : string) : string := of_realm realm +:+ "/users/" +:+ userid.
Definition GetSATURL (realm : option string) : string := domain +:+ "realms/" +:+ template_str realm +:+ "/protocol/openid-connect/token".
Definition ResetPasswordURL (realm : option string) (userid : string) : string :=
  of_realm realm +:+ "/users/" +:+ userid +:+ "/reset-password".
Definition createClientURL (realm : option string) : string := of_realm realm +:+ "/clients".
Definition GetClientURL (realm : option string) (clientid : string) : string := of_realm realm +:+ "/clients?clientId=" +:+ clientid.
Definition GetClientSecretURL (realm : option string) (clientid : string) : string :=
  of_realm realm +:+ "/clients/" +:+ clientid +:+ "/client-secret".
Definition GetClientRoleURL (realm : option string) (clientid roleName : string) : string :=
  if String.eqb roleName "" then of_realm realm +:+ "/clients/" +:+ clientid +:+ "/roles"
  else of_realm realm +:+ "/clients/" +:+ clientid +:+ "/roles/" +:+ roleName.
Definition GetRealmRoleURL (realm : option string) (roleName : string) : string :=
  if String.eqb roleName "" then of_realm realm +:+ "/roles" else of_realm realm +:+ "/roles/" +:+ roleName.
Definition GetClientUserRoleURL (realm : option string) (userId : string) (clientId : option string) : string :=
  if truthy_str clientId then of_realm realm +:+ "/users/" +:+ userId +:+ "/role-mappings/clients/" +:+ default "" clientId
  else of_realm realm +:+ "/users/" +:+ userId +:+ "/role-mappings/realm".
Definition GetClientIdpURL (realm : option string) (idp : string) : string := of_realm realm +:+ "/clients/" +:+ idp.
Definition GetServiceAccountUserURL (realm : option string) (clientIdpId : string) : string :=
  of_realm realm +:+ "/clients/" +:+ clientIdpId +:+ "/service-account-user".
End urls.
End KeycloakUrl.

(** ** Records *)

Record CreateUserDto := CreateUser {
  cu_username : option string;
  cu_email : option string;
  cu_password : any;
  cu_firstName : any;
  cu_lastName : any;
  cu_isHolder : bool;
}.

Record TokenPayload := Payload {
  tp_client_id : any;
  tp_client_secret : any;
  tp_grant_type : string;
  tp_scope : option string;
}.

Definition invalidKeycloakId : exn := http_exn NotFoundException "keycloakId is invalid".
Definition clientMissing : exn := http_exn BadRequestException "Client ID and client secret are missing".
Definition invalidInputs : exn := js_error "Invalid inputs while getting token.".

(** [username?.toLowerCase()] of a record of Keycloak *)
Definition lower_username (candidate : Json.value) : result (option string) :=
  match candidate with
  | Json.JNull => Throw not_an_object
  | _ => match Json.get "username" candidate with
      | None | Some Json.JNull => Ok None
      | Some (Json.JStr s) => Ok (Some (Str.toLowerCase s))
      | Some _ => Throw (js_error "toLowerCase is not a function")
      end
  end.

Fixpoint find_user (expected : option string) (users : list Json.value) : result Json.value :=
  match users with
  | [] => Throw invalidKeycloakId
  | u :: us =>
      name ← lower_username u;
      if bool_decide (name = expected) then (if Json.truthy u then Ok u else Throw invalidKeycloakId) else find_user expected us
  end.

Definition findMatchingKeycloakUser (users : any) (expectedUsername : option string) : result Json.value :=
  match users with
  | None | Some Json.JNull => Throw invalidKeycloakId
  | Some (Json.JArr us) => find_user (Str.toLowerCase <$> expectedUsername) us
  | Some _ => Throw (js_error "find is not a function")
  end.

(** [/^[a-zA-Z0-9._%+-]+$/] *)
Definition local_part_char (c : ascii) : bool :=
  let n := N_of_ascii c in
  (((97 <=? n) && (n <=? 122)) || ((65 <=? n) && (n <=? 90)) || ((48 <=? n) && (n <=? 57)))%N ||
  existsb (Ascii.eqb c) ["."; "_"; "%"; "+"; "-"]%char.
Definition valid_local_part (s : string) : bool := negb (String.eqb s "") && forallb local_part_char (String.list_ascii_of_string s).

(** Reading the clock *)
Class Clock (W : Type) := date_now : eff W Z.

Section service.
Context {W : Type} `{HttpClient W} `{!Clock W} `{ProcessEnv} `{Cipher}.
Implicit Types (realm : option string) (token : any).

Definition getAuthHeader token : list (string * string) := [("authorization", "Bearer " +:+ any_string token)].
Definition form_header : list (string * string) := [("Content-Type", "application/x-www-form-urlencoded")].
Definition KEYCLOAK_REALM : option string := process_env "KEYCLOAK_REALM".

(** ** Users *)

Definition resetPasswordOfKeycloakUser realm (resetPasswordValue : any) (userid : any) token : eff W any :=
  httpPut (KeycloakUrl.ResetPasswordURL realm (any_string userid))
    (JsonBody (Json.JObj (("type", Json.JStr "password") :: Json.opt_field "value" resetPasswordValue ++ [("temporary", Json.JBool false)])%list))
    (getAuthHeader token).

(** The record of a user, and the password set on it *)
Definition set_password_of realm (username : option string) (password : any) token : eff W any :=
  users ← httpGet (KeycloakUrl.getUserByUsernameURL realm username) (getAuthHeader token);
  match_ ← lift (findMatchingKeycloakUser users username);
  let id := Json.get "id" match_ in
  _ ← resetPasswordOfKeycloakUser realm password id token;
  mret id.

Definition resetPasswordOfUser (user : CreateUserDto) realm token : eff W unit :=
  _ ← set_password_of realm (cu_email user) (cu_password user) token; mret tt.

(** What both ways of creating a user send *)
Definition user_payload (now : Z) (username email : option string) (user : CreateUserDto) : Json.value :=
  let str k o := Json.opt_field k (Json.JStr <$> o) in
  Json.JObj (("createdTimestamp", Json.JNum now) :: str "username" username ++
    [("enabled", Json.JBool true); ("totp", Json.JBool false); ("emailVerified", Json.JBool true)] ++
    Json.opt_field "firstName" (cu_firstName user) ++ Json.opt_field "lastName" (cu_lastName user) ++ str "email" email ++
    [("disableableCredentialTypes", Json.JArr []); ("requiredActions", Json.JArr []); ("notBefore", Json.JNum 0);
     ("access", Json.JObj (map (fun k => (k, Json.JBool true)) ["manageGroupMembership"; "view"; "mapRoles"; "impersonate"; "manage"]));
     ("realmRoles", Json.JArr [Json.JStr "mb-user"]);
     ("attributes", Json.JObj (if cu_isHolder user then [("userRole", Json.JStr "holder")] else []))])%list.

Definition createUser (user : CreateUserDto) realm token : eff W any :=
  now ← date_now;
  _ ← httpPost (KeycloakUrl.createUserURL realm) (JsonBody (user_payload now (cu_email user) (cu_email user) user)) (getAuthHeader token);
  set_password_of realm (cu_email user) (cu_password user) token.

Definition CLOUD_WALLET_EMAIL_DOMAIN : option string := process_env "CLOUD_WALLET_EMAIL_DOMAIN".

(** The address a user has at Keycloak: its own, or one made of its name *)
Definition placeholder_email (user : CreateUserDto) : result string :=
  if negb (truthy_str (cu_email user)) && negb (valid_local_part (template_str (cu_username user)))
  then Throw (http_exn BadRequestException "username is not valid for a placeholder email")
  else if negb (truthy_str (cu_email user)) && negb (truthy_str CLOUD_WALLET_EMAIL_DOMAIN)
  then Throw (http_exn InternalServerErrorException "CLOUD_WALLET_EMAIL_DOMAIN is not configured")
  else Ok (Str.toLowerCase (if truthy_str (cu_email user) then default "" (cu_email user)
    else template_str (cu_username user) +:+ "@" +:+ template_str CLOUD_WALLET_EMAIL_DOMAIN)).

Definition createUserByUsername (user : CreateUserDto) realm token : eff W (any * string) :=
  email ← lift (placeholder_email user);
  now ← date_now;
  _ ← httpPost (KeycloakUrl.createUserURL realm) (JsonBody (user_payload now (cu_username user) (Some email) user)) (getAuthHeader token);
  id ← set_password_of realm (cu_username user) (cu_password user) token;
  mret (id, email).

Definition getUserInfoByUserId (userId : option string) token : eff W any :=
  httpGet (KeycloakUrl.GetUserInfoURL KEYCLOAK_REALM (match userId with Some u => u | None => "null" end)) (getAuthHeader token).

(** ** Tokens *)

Definition token_form (p : TokenPayload) : http_body :=
  FormBody ([("client_id", tp_client_id p); ("client_secret", tp_client_secret p); ("grant_type", of_str (Some (tp_grant_type p)))] ++
    match tp_scope p with Some s => [("scope", of_str (Some s))] | None => [] end)%list.

Definition getToken (p : TokenPayload) : eff W any :=
  if negb (String.eqb (tp_grant_type p) "client_credentials") || negb (any_truthy (tp_client_id p)) || negb (any_truthy (tp_client_secret p))
  then throw invalidInputs
  else httpPost (KeycloakUrl.GetSATURL KEYCLOAK_REALM) (token_form p) form_header.

Definition credentials_token (id secret : any) : eff W any :=
  r ← getToken (Payload id secret "client_credentials" None);
  lift (prop "access_token" r).

(** The two stored secrets, decrypted; both absent is an error of its own. *)
Definition client_secrets (clientId clientSecret : option string) : result (Json.value * Json.value) :=
  if negb (truthy_str clientId) && negb (truthy_str clientSecret) then Throw clientMissing
  else id ← decryptPassword clientId; secret ← decryptPassword clientSecret; Ok (id, secret).

Definition getManagementToken (clientId clientSecret : option string) : eff W any :=
  s ← lift (client_secrets clientId clientSecret);
  credentials_token (Some s.1) (Some s.2).

Definition getPlatformManagementToken : eff W any :=
  let clientId := process_env "KEYCLOAK_MANAGEMENT_CLIENT_ID" in
  let clientSecret := process_env "KEYCLOAK_MANAGEMENT_CLIENT_SECRET" in
  if negb (truthy_str clientId) || negb (truthy_str clientSecret)
  then throw (http_exn BadRequestException "Keycloak management credentials are missing in environment")
  else credentials_token (of_str clientId) (of_str clientSecret).

Definition password_form (id secret : Json.value) (email : string) (password : any) : http_body :=
  FormBody [("client_id", Some id); ("client_secret", Some secret); ("username", of_str (Some email)); ("password", password);
    ("grant_type", of_str (Some "password"))].

Definition getUserToken (email : string) (password : any) (clientId clientSecret : option string) : eff W any :=
  s ← lift (client_secrets clientId clientSecret);
  if negb (Json.truthy s.1) || negb (Json.truthy s.2) || String.eqb email "" || negb (any_truthy password) then throw invalidInputs
  else httpPost (KeycloakUrl.GetSATURL KEYCLOAK_REALM) (password_form s.1 s.2 email password) form_header.

Definition getAccessToken (refreshToken : string) (clientId clientSecret : option string) : eff W any :=
  s ← lift (client_secrets clientId clientSecret);
  if negb (Json.truthy s.1) || negb (Json.truthy s.2) || String.eqb refreshToken "" then throw invalidInputs
  else httpPost (KeycloakUrl.GetSATURL KEYCLOAK_REALM)
    (FormBody [("client_id", Some s.1); ("client_secret", Some s.2); ("grant_type", of_str (Some "refresh_token"));
      ("refresh_token", of_str (Some refreshToken))]) form_header.

Definition generateTokenUsingAdminCredentials (clientId clientSecret grantType : option string) : eff W any :=
  httpPost (KeycloakUrl.GetSATURL KEYCLOAK_REALM)
    (FormBody [("client_id", of_str clientId); ("client_secret", of_str clientSecret);
      ("grant_type", of_str (Some (default "client_credentials" grantType)))]) form_header.

(** ** Clients *)

Definition client_payload (orgName orgId : string) : Json.value :=
  let realm := template_str KEYCLOAK_REALM in
  let flag b k := (k, Json.JBool b) in
  Json.JObj ([("clientId", Json.JStr orgId); ("name", Json.JStr orgName)] ++
    Json.opt_field "adminUrl" (of_str (process_env "KEYCLOAK_ADMIN_URL")) ++
    [flag false "alwaysDisplayInConsole";
     ("access", Json.JObj [flag true "view"; flag true "configure"; flag true "manage"]);
     ("attributes", Json.JObj [("orgId", Json.JStr orgId)]);
     ("authenticationFlowBindingOverrides", Json.JObj []);
     flag false "authorizationServicesEnabled"; flag false "bearerOnly"; flag true "directAccessGrantsEnabled"; flag true "enabled";
     ("protocol", Json.JStr "openid-connect"); ("description", Json.JStr "rest-api");
     ("rootUrl", Json.JStr "${authBaseUrl}"); ("baseUrl", Json.JStr ("/realms/" +:+ realm +:+ "/account/"));
     flag false "surrogateAuthRequired"; ("clientAuthenticatorType", Json.JStr "client-secret");
     ("defaultRoles", Json.JArr [Json.JStr "manage-account"; Json.JStr "view-profile"]);
     ("redirectUris", Json.JArr [Json.JStr ("/realms/" +:+ realm +:+ "/account/*")]);
     ("webOrigins", Json.JArr []); ("notBefore", Json.JNum 0);
     flag false "consentRequired"; flag true "standardFlowEnabled"; flag false "implicitFlowEnabled";
     flag true "serviceAccountsEnabled"; flag false "publicClient"; flag false "frontchannelLogout"; flag false "fullScopeAllowed";
     ("nodeReRegistrationTimeout", Json.JNum 0)])%list.

(** [response[0].k] *)
Definition first_prop (k : string) (response : any) : result any := r ← item 0 response; prop k r.

Definition createClient (orgName orgId : string) token : eff W (any * any * any) :=
  _ ← httpPost (KeycloakUrl.createClientURL KEYCLOAK_REALM) (JsonBody (client_payload orgName orgId)) (getAuthHeader token);
  client ← httpGet (KeycloakUrl.GetClientURL KEYCLOAK_REALM orgId) (getAuthHeader token);
  id ← lift (first_prop "id" client);
  client_id ← lift (first_prop "clientId" client);
  secret ← httpGet (KeycloakUrl.GetClientSecretURL KEYCLOAK_REALM (any_string id)) (getAuthHeader token);
  client_secret ← lift (prop "value" secret);
  mret (id, client_id, client_secret).

Definition generateClientSecret (idpId : string) token : eff W any :=
  _ ← httpPost (KeycloakUrl.GetClientSecretURL KEYCLOAK_REALM idpId) (JsonBody (Json.JObj [])) (getAuthHeader token);
  secret ← httpGet (KeycloakUrl.GetClientSecretURL KEYCLOAK_REALM idpId) (getAuthHeader token);
  lift (prop "value" secret).

Definition deleteClient (idpId : string) token : eff W any :=
  httpDelete (KeycloakUrl.GetClientIdpURL KEYCLOAK_REALM idpId) (getAuthHeader token).

Definition getClientRedirectUrl (clientId : option string) token : eff W any :=
  id ← lift (decryptPassword clientId);
  httpGet (KeycloakUrl.GetClientURL KEYCLOAK_REALM (json_string id)) (getAuthHeader token).

Definition fetchClientDetails (clientId : string) token : eff W any :=
  httpGet (KeycloakUrl.GetClientURL KEYCLOAK_REALM clientId) (getAuthHeader token).

(** ** Roles *)

Definition createUserClientRole (idpId : string) token (userId : string) (payload : list Json.value) : eff W string :=
  _ ← httpPost (KeycloakUrl.GetClientUserRoleURL KEYCLOAK_REALM userId (Some idpId)) (JsonBody (Json.JArr payload)) (getAuthHeader token);
  mret "User client role is assigned".

(** A failure is read as an answer. *)
Definition deleteUserClientRoles (idpId : string) token (userId : string) : eff W bool :=
  try_catch (_ ← httpDelete (KeycloakUrl.GetClientUserRoleURL KEYCLOAK_REALM userId (Some idpId)) (getAuthHeader token); mret true)
    (fun _ => mret true).

Definition createUserHolderRole token (userId : string) (payload : list Json.value) : eff W string :=
  _ ← httpPost (KeycloakUrl.GetClientUserRoleURL KEYCLOAK_REALM userId None) (JsonBody (Json.JArr payload)) (getAuthHeader token);
  mret "User holder role is assigned".

Definition getAllClientRoles (idpId : string) token : eff W any :=
  httpGet (KeycloakUrl.GetClientRoleURL KEYCLOAK_REALM idpId "") (getAuthHeader token).

Definition getClientSpecificRoles (idpId : string) token (roleName : string) : eff W any :=
  httpGet (KeycloakUrl.GetClientRoleURL KEYCLOAK_REALM idpId roleName) (getAuthHeader token).

Definition getAllRealmRoles token : eff W any := httpGet (KeycloakUrl.GetRealmRoleURL KEYCLOAK_REALM "") (getAuthHeader token).

Definition createClientRole (idpId : string) token (name description : string) : eff W string :=
  _ ← httpPost (KeycloakUrl.GetClientRoleURL KEYCLOAK_REALM idpId "")
    (JsonBody (Json.JObj [("clientRole", Json.JBool true); ("name", Json.JStr name); ("description", Json.JStr description)]))
    (getAuthHeader token);
  mret "Client role is created".
End service.

(** ** Frames

    A relation that holds across every request but a [PUT] holds across every operation
    here but those that set a password. *)

Class Quiet {W} `{HttpClient W} `{!Clock W} (R : relation W) := {
  quiet_preorder :: PreOrder R;
  quiet_axios r : rq_method r <> PUT -> frames R (axios r);
  quiet_clock : frames R date_now;
}.

Section quiet.
Context {W : Type} `{HttpClient W} `{!Clock W} `{ProcessEnv} `{Cipher} (R : relation W) `{HR : !Quiet R}.

Lemma quiet_httpPost url b h : frames R (httpPost url b h).
Proof using HR. apply frames_httpPost; [exact _ | by apply quiet_axios]. Qed.
Lemma quiet_httpGet url h : frames R (httpGet url h).
Proof using HR. apply frames_httpGet; [exact _ | by apply quiet_axios]. Qed.
Lemma quiet_httpDelete url h : frames R (httpDelete url h).
Proof using HR. apply frames_httpDelete; [exact _ | by apply quiet_axios]. Qed.
#[local] Hint Resolve quiet_httpPost quiet_httpGet quiet_httpDelete : platform.
#[local] Hint Extern 1 (frames _ date_now) => apply quiet_clock : platform.

Lemma quiet_credentials_token id secret : frames R (credentials_token id secret).
Proof using HR. unfold credentials_token, getToken. solve_frames. Qed.
#[local] Hint Resolve quiet_credentials_token : platform.
Lemma quiet_getManagementToken id secret : frames R (getManagementToken id secret).
Proof using HR. unfold getManagementToken. solve_frames. Qed.
Lemma quiet_getUserToken e pw id secret : frames R (getUserToken e pw id secret).
Proof using HR. unfold getUserToken. solve_frames. Qed.
Lemma quiet_getAccessToken t id secret : frames R (getAccessToken t id secret).
Proof using HR. unfold getAccessToken. solve_frames. Qed.
Lemma quiet_getClientRedirectUrl id token : frames R (getClientRedirectUrl id token).
Proof using HR. unfold getClientRedirectUrl. solve_frames. Qed.
Lemma quiet_getAllRealmRoles token : frames R (getAllRealmRoles token).
Proof using HR. apply quiet_httpGet. Qed.
Lemma quiet_createUserHolderRole token u p : frames R (createUserHolderRole token u p).
Proof using HR. unfold createUserHolderRole. solve_frames. Qed.

(** What remains of the operations that set a password *)
Lemma quiet_createUser user realm token : frames R (set_password_of realm (cu_email user) (cu_password user) token) ->
  frames R (createUser user realm token).
Proof using HR. intros Hs. unfold createUser. solve_frames. Qed.
Lemma quiet_createUserByUsername user realm token : frames R (set_password_of realm (cu_username user) (cu_password user) token) ->
  frames R (createUserByUsername user realm token).
Proof using HR. intros Hs. unfold createUserByUsername. solve_frames. Qed.
Lemma quiet_resetPasswordOfUser user realm token : frames R (set_password_of realm (cu_email user) (cu_password user) token) ->
  frames R (resetPasswordOfUser user realm token).
Proof using HR. intros Hs. unfold resetPasswordOfUser. solve_frames. Qed.
End quiet.

#[export] Hint Extern 1 (frames ?R (httpPost _ _ _)) => apply (quiet_httpPost R) : platform.
#[export] Hint Extern 1 (frames ?R (httpGet _ _)) => apply (quiet_httpGet R) : platform.
#[export] Hint Extern 1 (frames ?R (getManagementToken _ _)) => apply (quiet_getManagementToken R) : platform.
#[export] Hint Extern 1 (frames ?R (getUserToken _ _ _ _)) => apply (quiet_getUserToken R) : platform.
#[export] Hint Extern 1 (frames ?R (getAccessToken _ _ _)) => apply (quiet_getAccessToken R) : platform.
#[export] Hint Extern 1 (frames ?R (getClientRedirectUrl _ _)) => apply (quiet_getClientRedirectUrl R) : platform.
#[export] Hint Extern 1 (frames ?R (getAllRealmRoles _)) => apply (quiet_getAllRealmRoles R) : platform.
#[export] Hint Extern 1 (frames ?R (createUserHolderRole _ _ _)) => apply (quiet_createUserHolderRole R) : platform.
