(* ===== verification/ResponseCode.v ===== *)
(** * Verification: response codes and redirect targets

    [src/apps/verification/src/response-code/]: the single-use codes by which a relying
    party fetches the outcome of a same-device proof, kept in Redis, and the
    allow-list of redirect targets.  A key holds the object its JSON text encodes:
    [JSON.stringify] is injective on the sessions, so comparing texts compares them. *)

From S2P Require Import Prelude Js.

Open Scope Z_scope.

(** ** Sessions *)

Module ResponseCode.
Inductive ResponseCodeStatus := PENDING | COMPLETED | FAILED | EXPIRED.

#[global] Instance status_eq_dec : EqDecision ResponseCodeStatus.
Proof. solve_decision. Defined.

Record IResponseCodeResult := Result { rc_state : string; rc_presentationId : option string }.

#[global] Instance result_eq_dec : EqDecision IResponseCodeResult.
Proof. solve_decision. Defined.

Record IResponseCodeSession := Session {
  orgId : string;
  threadId : string;
  redirectUri : string;
  status : ResponseCodeStatus;
  result : option IResponseCodeResult;
  createdAt : string;
}.

#[global] Instance session_eq_dec : EqDecision IResponseCodeSession.
Proof. solve_decision. Defined.

(** [exec] and the single commands may fail: the command is not run, or it is run and
    its reply is lost. *)
Inductive delivery := Delivered | ReplyLost | Refused.

Inductive stored := SessionValue (s : IResponseCodeSession) | TokenValue (token : string).

#[global] Instance stored_eq_dec : EqDecision stored.
Proof. solve_decision. Defined.

(** The keys with their time of expiry. *)
Notation redis := (gmap string (stored * Z)).

Record world := World {
  store : redis;
  drawn : nat;
  commands : nat;
}.

(** The network, the clock at each command and [process.env]. *)
Class Environment := {
  deliver : nat -> delivery;
  clock : nat -> Z;
  env : string -> option string;
}.

Definition DEFAULT_PENDING_TTL_SECONDS : Z := 600.
Definition DEFAULT_RESULT_TTL_SECONDS : Z := 60.
Definition MAX_TTL_SECONDS : Z := 3600.

Definition resolveTtlSeconds (value : option string) (fallback : Z) : Z :=
  match value ≫= Num.Number with
  | Some n => if (0 <? n) && (n <=? MAX_TTL_SECONDS) then n else fallback
  | None => fallback
  end.

Definition tokenKey (token : string) : string := "verification:response-code:" +:+ token.
Definition threadIndexKey (thread : string) : string := "verification:idx:thread:" +:+ thread.

(** *** Redis commands at time [t] *)

Definition GET (t : Z) (k : string) (r : redis) : option stored :=
  '(v, e) ← r !! k; if t <? e then Some v else None.

Definition SET (t : Z) (k : string) (v : stored) (ttl : Z) (r : redis) : redis := <[k := (v, t + ttl * 1000)]> r.

Definition EXPIRE (t : Z) (k : string) (ttl : Z) (r : redis) : redis :=
  match GET t k r with Some v => <[k := (v, t + ttl * 1000)]> r | None => r end.

(** The number of keys removed. *)
Definition DEL (t : Z) (k : string) (r : redis) : Z * redis :=
  (if GET t k r then 1 else 0, delete k r).

Definition MARK_TERMINAL_SCRIPT (t : Z) (tokenK indexK : string) (raw updated : IResponseCodeSession) (ttl : Z) (r : redis) : Z * redis :=
  if decide (GET t tokenK r = Some (SessionValue raw))
  then (1, EXPIRE t indexK ttl (SET t tokenK (SessionValue updated) ttl r))
  else (0, r).

(** The transactions of the service. *)
Definition create_commands (t : Z) (token : string) (s : IResponseCodeSession) (ttl : Z) (r : redis) : redis :=
  SET t (threadIndexKey (threadId s)) (TokenValue token) ttl (SET t (tokenKey token) (SessionValue s) ttl r).

Definition consume_commands (t : Z) (token thread : string) (r : redis) : Z * redis :=
  let '(n, r1) := DEL t (tokenKey token) r in (n, (DEL t (threadIndexKey thread) r1).2).

Section service.
Context {E : Environment} {U : UuidSource}.

Definition pendingTtlSeconds : Z := resolveTtlSeconds (env "PROOF_RESPONSE_CODE_PENDING_TTL_SECONDS") DEFAULT_PENDING_TTL_SECONDS.
Definition resultTtlSeconds : Z := resolveTtlSeconds (env "PROOF_RESPONSE_CODE_RESULT_TTL_SECONDS") DEFAULT_RESULT_TTL_SECONDS.

Definition redis_error : exn := js_error "Connection is closed.".

(** One round trip to Redis. *)
Definition exec {A} (f : Z -> redis -> A * redis) : eff world A := fun w =>
  let n := commands w in
  match deliver n with
  | Delivered => let (a, r) := f (clock n) (store w) in (Ok a, World r (drawn w) (S n))
  | ReplyLost => (Throw redis_error, World (f (clock n) (store w)).2 (drawn w) (S n))
  | Refused => (Throw redis_error, World (store w) (drawn w) (S n))
  end.

(** [randomBytes(32).toString('base64url')] *)
Definition random_token : eff world string := fun w => (Ok (uuid (drawn w)), World (store w) (S (drawn w)) (commands w)).

Definition createSession (org thread uri : string) : eff world string :=
  token ← random_token;
  created ← gets (fun w => Date.toISOString (clock (commands w)));
  _ ← exec (fun t r => (tt, create_commands t token (Session org thread uri PENDING None created) pendingTtlSeconds r));
  mret token.

Definition getSession (token : string) : eff world (option IResponseCodeSession) :=
  raw ← exec (fun t r => (GET t (tokenKey token) r, r));
  mret (match raw with Some (SessionValue s) => Some s | _ => None end).

Definition markTerminalByThreadId (thread : string) (st : ResponseCodeStatus) (res : IResponseCodeResult) : eff world unit :=
  let indexKey := threadIndexKey thread in
  token ← exec (fun t r => (GET t indexKey r, r));
  match token with
  | Some (TokenValue token) =>
      if String.eqb token "" then mret tt else
      raw ← exec (fun t r => (GET t (tokenKey token) r, r));
      match raw with
      | Some (SessionValue s) =>
          if decide (status s = PENDING) then
            let updated := Session (orgId s) (threadId s) (redirectUri s) st (Some res) (createdAt s) in
            _ ← exec (fun t r => MARK_TERMINAL_SCRIPT t (tokenKey token) indexKey s updated resultTtlSeconds r);
            mret tt
          else mret tt
      | _ => mret tt
      end
  | _ => mret tt
  end.

Definition consume (token thread : string) : eff world bool :=
  n ← exec (fun t r => consume_commands t token thread r); mret (n =? 1).

(** *** The callers in [verification.service.ts] *)

Record IProofCallbackResult := Callback {
  cb_status : ResponseCodeStatus;
  cb_threadId : option string;
  cb_result : option IResponseCodeResult;
}.

Definition expired_callback : IProofCallbackResult := Callback EXPIRED None None.

Definition unavailable : exn :=
  Exn RpcException "Proof result is temporarily unavailable, please retry" (Some 503) None.

Definition getProofCallbackResult (code : string) : eff world IProofCallbackResult :=
  if String.eqb code "" then mret expired_callback else
  try_catch
    (session ← getSession code;
     match session with
     | None => mret expired_callback
     | Some s =>
         if decide (status s = PENDING) then mret (Callback PENDING None None) else
         consumed ← consume code (threadId s);
         if negb consumed then mret expired_callback
         else mret (Callback (status s) (Some (threadId s)) (result s))
     end)
    (fun _ => throw unavailable).

Definition toTerminalResponseCodeStatus (state : string) (isVerified : bool) : option ResponseCodeStatus :=
  if String.eqb state "done" then Some (if isVerified then COMPLETED else FAILED)
  else if String.eqb state "declined" || String.eqb state "abandoned" then Some FAILED
  else None.

Definition updateResponseCodeSession (thread state : string) (isVerified : bool) (presentation : option string) : eff world unit :=
  match toTerminalResponseCodeStatus state isVerified with
  | Some st =>
      if String.eqb thread "" then mret tt
      else try_catch (markTerminalByThreadId thread st (Result state presentation)) (fun _ => mret tt)
  | None => mret tt
  end.
End service.

(** ** Interleavings

    Replicas interleave at the commands, so a reader or a marker acts on what it read
    earlier.  An event is one command that writes; its arguments are unconstrained,
    which covers every client that runs the operations above. *)

Inductive event :=
  | Create (t : Z) (s : IResponseCodeSession) (ttl : Z)
  | Mark (t : Z) (token thread : string) (raw updated : IResponseCodeSession) (ttl : Z)
  | Consume (t : Z) (token thread : string).

Record history := History {
  h_store : redis;
  h_drawn : nat;
  h_consumed : list string;
}.

Section interleavings.
Context {U : UuidSource}.

Definition step (e : event) (h : history) : history :=
  match e with
  | Create t s ttl => History (create_commands t (uuid (h_drawn h)) s ttl (h_store h)) (S (h_drawn h)) (h_consumed h)
  | Mark t token thread raw updated ttl =>
      History (MARK_TERMINAL_SCRIPT t (tokenKey token) (threadIndexKey thread) raw updated ttl (h_store h)).2 (h_drawn h) (h_consumed h)
  | Consume t token thread =>
      let '(n, r) := consume_commands t token thread (h_store h) in
      History r (h_drawn h) (if n =? 1 then token :: h_consumed h else h_consumed h)
  end.

Definition run_events (es : list event) (h : history) : history := foldl (fun h e => step e h) h es.
Definition no_history : history := History ∅ 0 [].

(** *** Keys *)

Lemma tokenKey_inj a b : tokenKey a = tokenKey b -> a = b.
Proof. apply Json.app_inv_str. Qed.

Lemma keys_disjoint a b : tokenKey a <> threadIndexKey b.
Proof. done. Qed.

(** A token has a session exactly when its key is bound. *)
Definition bound (h : history) (token : string) : Prop := is_Some (h_store h !! tokenKey token).

Lemma bound_insert_index (r : redis) thread (v : stored * Z) token :
  is_Some (<[threadIndexKey thread := v]> r !! tokenKey token) <-> is_Some (r !! tokenKey token).
Proof. rewrite lookup_insert_ne; [done|]. intros H. by apply (keys_disjoint token thread). Qed.

Lemma bound_step e h token : bound (step e h) token ->
  (bound h token \/ token = uuid (h_drawn h) /\ exists t s ttl, e = Create t s ttl) /\
  forall t thread, e = Consume t token thread -> False.
Proof.
  unfold bound. destruct e as [t s ttl|t token' thread raw updated ttl|t token' thread]; simpl.
  - unfold create_commands, SET. rewrite bound_insert_index. destruct (decide (token = uuid (h_drawn h))) as [->|Hne].
    + intros _. split; [right; eauto | done].
    + rewrite lookup_insert_ne by (intros H0%tokenKey_inj; congruence). intros H. split; [by left | done].
  - unfold MARK_TERMINAL_SCRIPT. destruct (decide _) as [Hg|]; simpl; [|intros H; split; [by left | done]].
    intros H. split; [left | done].
    assert (Hset : is_Some (SET t (tokenKey token') (SessionValue updated) ttl (h_store h) !! tokenKey token)).
    { unfold EXPIRE in H. destruct (GET t (threadIndexKey thread) _); [by rewrite bound_insert_index in H | done]. }
    unfold SET in Hset. destruct (decide (token = token')) as [->|Hne].
    + unfold GET in Hg. destruct (h_store h !! tokenKey token') as [[v e]|]; [by eexists | done].
    + by rewrite lookup_insert_ne in Hset by (intros H0%tokenKey_inj; congruence).
  - unfold consume_commands, DEL. simpl. intros H. rewrite lookup_delete_is_Some in H. destruct H as [_ H].
    rewrite lookup_delete_is_Some in H. destruct H as [Hne H]. split; [by left|]. intros t' th [= -> -> ->]. done.
Qed.

(** Codes are drawn once; a consumed one is never bound again. *)
Record codes_ok (h : history) : Prop := CodesOk {
  bound_drawn : forall token, bound h token -> exists n, (n < h_drawn h)%nat /\ token = uuid n;
  consumed_drawn : forall token, token ∈ h_consumed h -> exists n, (n < h_drawn h)%nat /\ token = uuid n;
  consumed_unbound : forall token, token ∈ h_consumed h -> ~ bound h token;
  consumed_once : NoDup (h_consumed h);
}.

Lemma drawn_step e h : (h_drawn h <= h_drawn (step e h))%nat.
Proof. destruct e; simpl; lia. Qed.

Lemma codes_ok_step e h : codes_ok h -> codes_ok (step e h).
Proof.
  intros [Hb Hd Hu Hn].
  assert (Hcons : forall token, token ∈ h_consumed (step e h) -> token ∈ h_consumed h \/
    (exists t thread, e = Consume t token thread) /\ bound h token).
  { intros token. destruct e as [| |t token' thread]; simpl; [by left..|].
    unfold bound, consume_commands, DEL, GET. simpl. intros H.
    destruct (h_store h !! tokenKey token') as [[v x]|] eqn:Hl; simpl in H; [|by left].
    destruct (t <? x); simpl in H; [|by left]. apply elem_of_cons in H as [->|H]; [|by left]. right. rewrite Hl. eauto. }
  assert (Hle := drawn_step e h). split.
  - intros token Hbd. apply bound_step in Hbd as [[Hbd|(-> & t & s & ttl & ->)] _].
    + apply Hb in Hbd as (n & ? & ?). exists n. split; [lia | done].
    + exists (h_drawn h). simpl. split; [lia | done].
  - intros token [Hc|[_ Hbd]]%Hcons; [apply Hd in Hc as (n & ? & ?) | apply Hb in Hbd as (n & ? & ?)];
      exists n; (split; [lia | done]).
  - intros token Hc Hbd. apply bound_step in Hbd as [Hbd Hnot].
    apply Hcons in Hc as [Hc|[(t & thread & He) _]]; [|by eapply Hnot].
    destruct Hbd as [Hbd|(-> & _)]; [by eapply Hu|]. apply Hd in Hc as (n & Hlt & Heq). apply uuid_inj in Heq. lia.
  - destruct e as [| |t token' thread]; simpl; [done..|]. unfold consume_commands, DEL, GET. simpl.
    destruct (h_store h !! tokenKey token') as [[v x]|] eqn:Hl; simpl; [|done]. destruct (t <? x); simpl; [|done].
    apply NoDup_cons. split; [|done]. intros Hc. apply (Hu _ Hc). unfold bound. rewrite Hl. by eexists.
Qed.

(** C34. Whatever commands the replicas interleave, a response code is consumed at most once, and a
    consumed code stays without a session for ever: a marker that read the session before
    it was consumed does not bring it back. *)
Theorem response_code_single_use es :
  let h := run_events es no_history in
  NoDup (h_consumed h) /\ forall token, token ∈ h_consumed h -> forall es', ~ bound (run_events es' h) token.
Proof.
  assert (Hrun : forall l h, codes_ok h -> codes_ok (run_events l h)).
  { intros l. induction l as [|e l IH] using rev_ind; intros h Hh; [done|]. unfold run_events. rewrite foldl_app. simpl.
    apply codes_ok_step. by apply IH. }
  assert (H0 : codes_ok no_history).
  { split; [intros token H | intros token H; by apply elem_of_nil in H.. | constructor]. unfold bound in H. simpl in H.
    rewrite lookup_empty in H. by destruct H. }
  simpl. pose proof (Hrun es _ H0) as Hh. split; [apply Hh|]. intros token Hc es'.
  assert (Hkeep : forall l h, token ∈ h_consumed h -> token ∈ h_consumed (run_events l h)).
  { clear. intros l. induction l as [|e l IH] using rev_ind; intros h Hh; [done|]. unfold run_events. rewrite foldl_app. simpl.
    apply IH in Hh. fold (run_events l h). generalize dependent (run_events l h). intros h' Hh'.
    destruct e as [| |t token' thread]; simpl; [done..|]. match goal with |- _ ∈ (if ?b then _ else _) => destruct b end; [by right | done]. }
  apply (consumed_unbound _ (Hrun es' _ Hh)). by apply Hkeep.
Qed.

(** A marker acts only on a session it read as pending. *)
Definition guarded (e : event) : Prop :=
  match e with Mark _ _ _ raw _ _ => status raw = PENDING | _ => True end.

(** The key of [token] holds [v] or nothing, and [token] is not drawn again. *)
Definition holds_at_most (token : string) (v : stored * Z) (h : history) : Prop :=
  (exists n, (n < h_drawn h)%nat /\ token = uuid n) /\
  (h_store h !! tokenKey token = Some v \/ h_store h !! tokenKey token = None).

Lemma holds_step token s x e h : status s <> PENDING -> guarded e ->
  holds_at_most token (SessionValue s, x) h -> holds_at_most token (SessionValue s, x) (step e h).
Proof.
  intros Hs Hg [(n & Hn & Htok) Hold]. pose proof (drawn_step e h) as Hle. split; [exists n; split; [lia | done]|].
  destruct e as [t s' ttl|t token' thread raw updated ttl|t token' thread]; simpl in *.
  - unfold create_commands, SET. rewrite lookup_insert_ne by (intros H; by apply (keys_disjoint token (threadId s'))).
    rewrite lookup_insert_ne; [done|]. intros H%tokenKey_inj. rewrite Htok in H. apply uuid_inj in H. lia.
  - unfold MARK_TERMINAL_SCRIPT. destruct (decide _) as [Hget|]; [|done]. simpl.
    assert (Hne : token' <> token).
    { intros ->. unfold GET in Hget. destruct Hold as [Hold|Hold]; rewrite Hold in Hget; simpl in Hget; [|done].
      destruct (t <? x); [|done]. by injection Hget as <-. }
    assert (Hset : SET t (tokenKey token') (SessionValue updated) ttl (h_store h) !! tokenKey token = h_store h !! tokenKey token).
    { unfold SET. rewrite lookup_insert_ne; [done|]. intros H0%tokenKey_inj; congruence. }
    unfold EXPIRE. destruct (GET t (threadIndexKey thread) _); [|by rewrite Hset].
    rewrite lookup_insert_ne by (intros H; by apply (keys_disjoint token thread)). by rewrite Hset.
  - unfold consume_commands, DEL. simpl.
    rewrite lookup_delete_ne by (intros H; by apply (keys_disjoint token thread)).
    destruct (decide (token' = token)) as [->|Hne]; [rewrite lookup_delete_eq; by right|].
    by rewrite lookup_delete_ne by (intros H0%tokenKey_inj; congruence).
Qed.

(** Once a session has left PENDING, no interleaving of markers that read an earlier pending
    session changes it or extends its life: it is unchanged until it is consumed. *)
Theorem terminal_is_final es h token s x n :
  (n < h_drawn h)%nat -> token = uuid n -> h_store h !! tokenKey token = Some (SessionValue s, x) ->
  status s <> PENDING -> Forall guarded es ->
  h_store (run_events es h) !! tokenKey token = Some (SessionValue s, x) \/ ~ bound (run_events es h) token.
Proof.
  intros Hn Htok Hst Hs Hg.
  assert (Hrun : holds_at_most token (SessionValue s, x) (run_events es h)).
  { induction es as [|e l IH] using rev_ind; [split; [by exists n | by left]|].
    apply Forall_app in Hg as [Hg He%Forall_inv]. unfold run_events. rewrite foldl_app. simpl.
    apply holds_step; [done..|]. by apply IH. }
  destruct Hrun as [_ [H|H]]; [by left|]. right. unfold bound. rewrite H. by intros [? [=]].
Qed.
End interleavings.
End ResponseCode.

(** ** Redirect targets *)

Module RedirectUri.
(** The WHATWG [URL] class: parsing, and serialising with a query parameter replaced. *)
Record url := Url { protocol : string; origin : string; pathname : string; href : string }.

Class UrlParser := {
  parse_url : string -> option url;
  with_param : url -> string -> string -> string;
}.

Definition parseRedirectUriAllowlist (stored : option string) : list string :=
  List.filter (fun e => Nat.ltb 0 (String.length e)) (map Str.trim (Str.split "," (str_or stored ""))).

Section redirect.
Context {P : UrlParser}.

(** [path.replace(/\/+$/, '')] *)
Definition no_trailing_slash (path : string) : string := Str.drop_end (fun c => Ascii.eqb c "/") path.

Definition matchesAllowlistEntry (target : url) (allowed : string) : bool :=
  match parse_url allowed with
  | None => false
  | Some a =>
      if negb (String.eqb (origin target) (origin a)) then false
      else
        let allowedPath := no_trailing_slash (pathname a) in
        let targetPath := no_trailing_slash (pathname target) in
        if String.eqb "" allowedPath then true
        else String.eqb targetPath allowedPath || Str.startsWith (allowedPath +:+ "/") targetPath
  end.

Definition hasAllowedRedirectProtocol (uri : string) (allowHttp : bool) : bool :=
  match parse_url uri with
  | Some u => String.eqb "https:" (protocol u) || (allowHttp && String.eqb "http:" (protocol u))
  | None => false
  end.

Definition isRedirectUriAllowed (uri : string) (allowlist : list string) (allowHttp : bool) : bool :=
  if negb (hasAllowedRedirectProtocol uri allowHttp) then false
  else match parse_url uri with
       | Some target => existsb (matchesAllowlistEntry target) allowlist
       | None => false
       end.

Definition buildReturnUrl (uri code : string) : result string :=
  match parse_url uri with
  | Some u => Ok (with_param u "response_code" code)
  | None => Throw (js_error "Invalid URL")
  end.

Definition appendReturnUrl (deepLink returnUrl : string) : string :=
  deepLink +:+ "&returnUrl=" +:+ Uri.encodeURIComponent returnUrl.

(** [[...new Set(uris.map(uri => uri.trim()))]], and what is stored. *)
Fixpoint dedup (seen : list string) (l : list string) : list string :=
  match l with
  | [] => []
  | x :: l' => if existsb (String.eqb x) seen then dedup seen l' else x :: dedup (x :: seen) l'
  end.

Definition setRedirectUris (uris : list string) (allowHttp : bool) : result string :=
  let normalized := dedup [] (map Str.trim uris) in
  if negb (forallb (fun u => hasAllowedRedirectProtocol u allowHttp) normalized)
  then Throw (http_exn BadRequestException "redirectUriHttpsRequired")
  else Ok (Str.join "," normalized).

(** ** Laws *)

Lemma startsWith_segments a t : Str.startsWith (a +:+ "/") t = true ->
  Str.split "/" a `prefix_of` Str.split "/" t.
Proof.
  intros [r ->]%Str.startsWith_spec. rewrite Json.app_assoc_str. simpl. rewrite Str.split_app_sep. by eexists.
Qed.

(** A redirect target is allowed only over https (or http when it is switched on), when some
    entry of the allow-list has the same origin and the entry's path segments begin the
    target's: no other host and no longer segment that merely starts alike passes. *)
Theorem redirect_allowed_sound uri allowlist allowHttp : isRedirectUriAllowed uri allowlist allowHttp = true ->
  exists target entry a, parse_url uri = Some target /\ entry ∈ allowlist /\ parse_url entry = Some a /\
    (protocol target = "https:" \/ allowHttp = true /\ protocol target = "http:") /\ origin target = origin a /\
    (no_trailing_slash (pathname a) = "" \/
     Str.split "/" (no_trailing_slash (pathname a)) `prefix_of` Str.split "/" (no_trailing_slash (pathname target))).
Proof.
  unfold isRedirectUriAllowed, hasAllowedRedirectProtocol. destruct (parse_url uri) as [t|]; [|done].
  destruct (negb _) eqn:Hp; [done|]. apply negb_false_iff, orb_true_iff in Hp.
  intros (e & He & Hm)%existsb_exists. unfold matchesAllowlistEntry in Hm.
  destruct (parse_url e) as [a|] eqn:Ha; [|done]. destruct (String.eqb_spec (origin t) (origin a)) as [Ho|]; [|done].
  exists t, e, a. split_and!; try done; [by apply list_elem_of_In | |].
  - destruct Hp as [Hp|Hp]; [left; by apply String.eqb_eq in Hp|]. right. apply andb_true_iff in Hp as [? Hp%String.eqb_eq]. done.
  - cbn [negb] in Hm. destruct (String.eqb_spec "" (no_trailing_slash (pathname a))) as [Heq|]; [by left|]. right.
    apply orb_true_iff in Hm as [->%String.eqb_eq|Hm]; [done | by apply startsWith_segments].
Qed.

(** The stored allow-list reads back as the trimmed entries that were set, provided none is
    empty or contains a comma. *)
Theorem allowlist_round_trip uris allowHttp stored :
  setRedirectUris uris allowHttp = Ok stored -> uris <> [] ->
  Forall (fun u => Str.trim u <> "" /\ Str.contains "," (Str.trim u) = false) uris ->
  parseRedirectUriAllowlist (Some stored) = dedup [] (map Str.trim uris).
Proof.
  unfold setRedirectUris. destruct (negb _); [done|]. intros H0 Hne Hall. injection H0 as <-.
  set (l := dedup [] (map Str.trim uris)).
  assert (Hin : forall seen l0 x, x ∈ dedup seen l0 -> x ∈ l0).
  { intros seen l0. revert seen. induction l0 as [|y l0 IH]; intros seen x; simpl; [done|].
    destruct (existsb _ seen); [right; by eapply IH|]. intros [->|Hx]%elem_of_cons; [by left | right; by eapply IH]. }
  assert (Hl : Forall (fun u => u <> "" /\ Str.contains "," u = false /\ Str.trim u = u) l).
  { apply Forall_forall. intros x Hx. apply Hin in Hx. apply list_elem_of_fmap in Hx as (u & -> & Hu).
    rewrite Forall_forall in Hall. destruct (Hall u Hu). by rewrite Str.trim_idem. }
  assert (Hlne : l <> []) by (unfold l; destruct uris; [done | simpl; done]).
  assert (Hj : Str.join "," l <> "").
  { destruct l as [|x l']; [done|]. apply Forall_cons in Hl as [(Hx & _) _]. destruct x; [done|]. by destruct l'. }
  unfold parseRedirectUriAllowlist, str_or. apply String.eqb_neq in Hj. rewrite Hj.
  rewrite Str.split_join; [|done | eapply Forall_impl; [exact Hl | by intros ? (_ & ? & _)]].
  clear Hj Hlne. induction Hl as [|x l' (Hx & _ & Ht) _ IH]; [done|]. simpl. rewrite Ht, IH. by destruct x.
Qed.
End redirect.
End RedirectUri.

(** ** Evaluation *)

Module ResponseCodeSample.
#[local] Instance tokens : UuidSource.
Proof. refine {| uuid n := "tok" +:+ pretty n |}. Defined.

Definition session : ResponseCode.IResponseCodeSession :=
  ResponseCode.Session "org" "thread" "https://rp.example/cb" ResponseCode.PENDING None "".
Definition done_session : ResponseCode.IResponseCodeSession :=
  ResponseCode.Session "org" "thread" "https://rp.example/cb" ResponseCode.COMPLETED (Some (ResponseCode.Result "done" None)) "".

(** A code is created, completed and read; a second reader and a late marker follow. *)
Definition race : list ResponseCode.event :=
  [ResponseCode.Create 0 session 600; ResponseCode.Mark 10 "tok0" "thread" session done_session 60;
   ResponseCode.Consume 20 "tok0" "thread"; ResponseCode.Consume 21 "tok0" "thread";
   ResponseCode.Mark 22 "tok0" "thread" session done_session 60].

Example race_outcome : ResponseCode.h_consumed (ResponseCode.run_events race ResponseCode.no_history) = ["tok0"] /\
  ResponseCode.h_store (ResponseCode.run_events race ResponseCode.no_history) = ∅.
Proof. split; vm_compute; reflexivity. Qed.

Example terminal_is_final_witness :
  ResponseCode.h_store (ResponseCode.run_events [ResponseCode.Mark 30 "tok0" "thread" session session 600]
    (ResponseCode.run_events (take 2 race) ResponseCode.no_history)) !! ResponseCode.tokenKey "tok0"
    = Some (ResponseCode.SessionValue done_session, 60010).
Proof.
  destruct (ResponseCode.terminal_is_final [ResponseCode.Mark 30 "tok0" "thread" session session 600]
    (ResponseCode.run_events (take 2 race) ResponseCode.no_history) "tok0" done_session 60010 0) as [H|H].
  - vm_compute. lia.
  - reflexivity.
  - vm_compute. reflexivity.
  - discriminate.
  - repeat constructor.
  - exact H.
  - exfalso. apply H. unfold ResponseCode.bound. vm_compute. by eexists.
Defined.

(** A toy parser: everything after the third slash is the path. *)
#[local] Instance toy_parser : RedirectUri.UrlParser.
Proof.
  refine {|
    RedirectUri.parse_url s :=
      match Str.split "/" s with
      | p :: "" :: host :: path => Some (RedirectUri.Url p (p +:+ "//" +:+ host) ("/" +:+ Str.join "/" path) s)
      | _ => None
      end;
    RedirectUri.with_param u k v := RedirectUri.href u +:+ "?" +:+ k +:+ "=" +:+ v |}.
Defined.

Example redirect_allowed_sound_witness :
  (exists t e a, RedirectUri.parse_url "https://rp.example/cb/x" = Some t /\ e ∈ ["https://rp.example/cb"] /\
     RedirectUri.parse_url e = Some a /\ RedirectUri.origin t = RedirectUri.origin a) /\
  RedirectUri.isRedirectUriAllowed "https://rp.example/cbx" ["https://rp.example/cb"] false = false.
Proof.
  split; [|vm_compute; reflexivity].
  destruct (RedirectUri.redirect_allowed_sound "https://rp.example/cb/x" ["https://rp.example/cb"] false)
    as (t & e & a & Ht & He & Ha & _ & Ho & _); [vm_compute; reflexivity|].
  exists t, e, a. split; [exact Ht|]. split; [exact He|]. split; [exact Ha | exact Ho].
Defined.

Example allowlist_round_trip_witness :
  RedirectUri.parseRedirectUriAllowlist (Some "https://a.example/x,https://b.example/") = ["https://a.example/x"; "https://b.example/"].
Proof.
  apply (RedirectUri.allowlist_round_trip [" https://a.example/x"; "https://b.example/"] false).
  - vm_compute. reflexivity.
  - discriminate.
  - repeat constructor; try discriminate; vm_compute; reflexivity.
Defined.

(** A target that contains a comma is split when it is read back. *)
Example comma_is_lost : RedirectUri.parseRedirectUriAllowlist (Some "https://a.example/x,y") = ["https://a.example/x"; "y"].
Proof. reflexivity. Qed.
End ResponseCodeSample.
