(* ===== verification/CredentialTemplates.v ===== *)
(** * OpenID4VC issuance: credential templates

    [apps/oid4vc-issuance/interfaces/oid4vc-template.interfaces.ts] and the check of a
    payload against a template of
    [apps/oid4vc-issuance/libs/helpers/credential-sessions.builder.ts]. *)

From S2P Require Import Prelude Js.

(** ** Templates *)

Inductive AttributeType := STRING | NUMBER | BOOLEAN | DATE_T | OBJECT | ARRAY | IMAGE.

Record ClaimDisplay := Display { d_name : string; d_locale : option string }.

Inductive CredentialAttribute :=
  Attribute (key : string) (mandatory : bool) (value_type : AttributeType) (disclose : bool)
    (children : option (list CredentialAttribute)) (display : option (list ClaimDisplay)).

Definition attr_key (a : CredentialAttribute) : string := let 'Attribute k _ _ _ _ _ := a in k.
Definition attr_mandatory (a : CredentialAttribute) : bool := let 'Attribute _ m _ _ _ _ := a in m.
Definition attr_disclose (a : CredentialAttribute) : bool := let 'Attribute _ _ _ d _ _ := a in d.
Definition attr_children (a : CredentialAttribute) : option (list CredentialAttribute) := let 'Attribute _ _ _ _ c _ := a in c.
Definition attr_display (a : CredentialAttribute) : option (list ClaimDisplay) := let 'Attribute _ _ _ _ _ d := a in d.

(** Induction through the children. *)
Section attribute_induction.
Variable P : CredentialAttribute -> Prop.
Hypothesis step : forall k m t d cs dis, Forall P (default [] cs) -> P (Attribute k m t d cs dis).

Fixpoint attribute_ind' (a : CredentialAttribute) : P a :=
  match a with
  | Attribute k m t d cs dis =>
      step k m t d cs dis
        (match cs return Forall P (default [] cs) with
         | Some l => (fix go l : Forall P l :=
             match l with
             | [] => List.Forall_nil P
             | c :: l' => List.Forall_cons P c l' (attribute_ind' c) (go l')
             end) l
         | None => List.Forall_nil P
         end)
  end.
End attribute_induction.

(** The JSON column [attributes] of a template: nothing checks which of the two shapes
    it has, so every property may be absent. *)
Record namespace := Namespace {
  ns_namespace : string;
  ns_attributes : list CredentialAttribute;
}.

Record template_body := Body {
  vct : option string;
  attributes : option (list CredentialAttribute);
  doctype : option string;
  namespaces : option (list namespace);
}.

Inductive SignerOption := DID | X509_P256 | X509_ED25519.

#[export] Instance signer_option_eq_dec : EqDecision SignerOption.
Proof. solve_decision. Defined.

Record credential_template := Template {
  t_id : string;
  t_name : string;
  t_format : option string;
  t_signerOption : SignerOption;
  t_attributes : template_body;
  t_appearance : Json.value;
}.

(** [CredentialFormat] *)
Inductive CredentialFormat := SdJwtVc | Mdoc.
Definition format_text (f : CredentialFormat) : string := match f with SdJwtVc => "dc+sd-jwt" | Mdoc => "mso_mdoc" end.

#[export] Instance credential_format_eq_dec : EqDecision CredentialFormat.
Proof. solve_decision. Defined.

(** ** Property access on a JSON value

    [v?.[k]]: the elements and the length of an array or a string are properties too. *)

Definition index_of_key (k : string) : option Z :=
  if String.eqb k "0" then Some 0%Z else Num.positive_literal k.

Definition prop (k : string) (v : option Json.value) : option Json.value :=
  match v with
  | Some (Json.JObj fs) => Json.field k fs
  | Some (Json.JArr vs) =>
      if String.eqb k "length" then Some (Json.JNum (Z.of_nat (length vs)))
      else i ← index_of_key k; vs !! Z.to_nat i
  | Some (Json.JStr s) =>
      if String.eqb k "length" then Some (Json.JNum (Z.of_nat (String.length s)))
      else i ← index_of_key k; c ← String.get (Z.to_nat i) s; Some (Json.JStr (String c ""))
  | _ => None
  end.

(** ** Payload validation *)

Definition isEmpty (v : option Json.value) : bool :=
  match v with
  | None | Some Json.JNull => true
  | Some (Json.JStr s) => String.eqb (Str.trim s) ""
  | Some (Json.JObj fs) => match fs with [] => true | _ => false end
  | Some _ => false
  end.

(** ['object' === typeof v && null !== v] *)
Definition is_object (v : option Json.value) : bool :=
  match v with Some (Json.JObj _) | Some (Json.JArr _) => true | _ => false end.

Definition child_path (path key : string) : string := if String.eqb path "" then key else path +:+ "." +:+ key.

Definition missing_message (path : string) : string := "Missing mandatory attribute: " +:+ path.

Fixpoint validateAttribute (path : string) (data : option Json.value) (a : CredentialAttribute) : list string :=
  match a with
  | Attribute key mandatory _ _ children _ =>
      let currentPath := child_path path key in
      let value := prop key data in
      (if mandatory && isEmpty value then [missing_message currentPath] else []) ++
      (match children with
       | Some cs => if is_object value then concat (map (validateAttribute currentPath value) cs) else []
       | None => []
       end)
  end.

Definition validateAttributes (attrs : list CredentialAttribute) (data : option Json.value) (path : string) : list string :=
  concat (map (validateAttribute path data) attrs).

Definition validateNamespace (nss : option Json.value) (ns : namespace) : list string :=
  match prop (ns_namespace ns) nss with
  | Some v => if Json.truthy v then validateAttributes (ns_attributes ns) (Some v) (ns_namespace ns)
              else ["Missing namespace: " +:+ ns_namespace ns]
  | None => ["Missing namespace: " +:+ ns_namespace ns]
  end.

Definition validatePayloadAgainstTemplate (t : credential_template) (payload : Json.value) : list string :=
  if bool_decide (t_format t = Some (format_text SdJwtVc)) then
    validateAttributes (default [] (attributes (t_attributes t))) (Some payload) ""
  else if bool_decide (t_format t = Some (format_text Mdoc)) then
    match prop "namespaces" (Some payload) with
    | Some v =>
        if Json.truthy v then concat (map (validateNamespace (Some v)) (default [] (namespaces (t_attributes t))))
        else ["Missing namespaces object in mdoc payload."]
    | None => ["Missing namespaces object in mdoc payload."]
    end
  else [].

Definition truthy_prop (k : string) (v : option Json.value) : bool :=
  match prop k v with Some x => Json.truthy x | None => false end.

(** *** Specification

    [missing attrs data path p]: somewhere in the tree of [attrs] a mandatory attribute,
    whose path is [p], has no value in [data]; children count only where their parent's
    value is an object. *)
Inductive missing : list CredentialAttribute -> option Json.value -> string -> string -> Prop :=
  | missing_here a attrs data path :
      a ∈ attrs -> attr_mandatory a = true -> isEmpty (prop (attr_key a) data) = true ->
      missing attrs data path (child_path path (attr_key a))
  | missing_below a cs attrs data path p :
      a ∈ attrs -> attr_children a = Some cs -> is_object (prop (attr_key a) data) = true ->
      missing cs (prop (attr_key a) data) (child_path path (attr_key a)) p ->
      missing attrs data path p.

Lemma elem_of_concat {A} (x : A) ls : x ∈ concat ls <-> exists l, l ∈ ls /\ x ∈ l.
Proof.
  induction ls as [|l ls IH]; simpl.
  - split; [intros H; by apply elem_of_nil in H | intros (l & Hl & _); by apply elem_of_nil in Hl].
  - rewrite elem_of_app, IH. setoid_rewrite elem_of_cons. naive_solver.
Qed.

Lemma elem_of_validateAttributes e attrs data path :
  e ∈ validateAttributes attrs data path <-> exists a, a ∈ attrs /\ e ∈ validateAttribute path data a.
Proof.
  unfold validateAttributes. rewrite elem_of_concat. split.
  - intros (l & (a & -> & Ha)%list_elem_of_fmap & He). by exists a.
  - intros (a & Ha & He). exists (validateAttribute path data a). split; [|done]. apply list_elem_of_fmap. by exists a.
Qed.

Lemma validateAttribute_sound e a : forall path data attrs, a ∈ attrs -> e ∈ validateAttribute path data a ->
  exists p, e = missing_message p /\ missing attrs data path p.
Proof.
  revert e. induction a as [k m ty d cs dis IH] using attribute_ind'. intros e path data attrs Ha He.
  simpl in He. apply elem_of_app in He as [He|He].
  - destruct (m && _) eqn:Hm; [|by apply elem_of_nil in He]. apply andb_true_iff in Hm as [Hm Hempty].
    apply list_elem_of_singleton in He as ->. eexists. split; [done|].
    by apply (missing_here (Attribute k m ty d cs dis)).
  - destruct cs as [cs|]; [|by apply elem_of_nil in He]. destruct (is_object _) eqn:Hobj; [|by apply elem_of_nil in He].
    apply elem_of_validateAttributes in He as (c & Hc & He). rewrite Forall_forall in IH. simpl in IH.
    destruct (IH c Hc e _ _ cs Hc He) as (p & -> & Hp). exists p. split; [done|].
    by apply (missing_below (Attribute k m ty d (Some cs) dis) cs).
Qed.

Lemma validateAttributes_complete attrs data path p :
  missing attrs data path p -> missing_message p ∈ validateAttributes attrs data path.
Proof.
  induction 1 as [a attrs data path Ha Hm He|a cs attrs data path p Ha Hcs Hobj _ IH];
    apply elem_of_validateAttributes; exists a; (split; [done|]); destruct a as [k m ty d cs' dis]; simpl in *.
  - rewrite Hm, He. apply elem_of_app. left. by left.
  - subst cs'. rewrite Hobj. apply elem_of_app. by right.
Qed.

Lemma elem_of_validateNamespace e nss ns : e ∈ validateNamespace nss ns <->
  (truthy_prop (ns_namespace ns) nss = false /\ e = "Missing namespace: " +:+ ns_namespace ns) \/
  (truthy_prop (ns_namespace ns) nss = true /\
   e ∈ validateAttributes (ns_attributes ns) (prop (ns_namespace ns) nss) (ns_namespace ns)).
Proof.
  unfold validateNamespace, truthy_prop. destruct (prop _ nss) as [v|]; [destruct (Json.truthy v)|];
    rewrite ?list_elem_of_singleton; naive_solver.
Qed.

Lemma elem_of_errors e attrs data path :
  e ∈ validateAttributes attrs data path <-> exists p, e = missing_message p /\ missing attrs data path p.
Proof.
  split.
  - intros (a & Ha & He)%elem_of_validateAttributes. by eapply validateAttribute_sound.
  - intros (p & -> & Hp). by apply validateAttributes_complete.
Qed.

(** C39. The errors reported for a payload are exactly the mandatory attributes without a value, at
    every depth of the template, and for an mdoc the namespaces that are missing. *)
Theorem validation_exact t payload e :
  (t_format t = Some (format_text SdJwtVc) ->
   e ∈ validatePayloadAgainstTemplate t payload <->
   exists p, e = missing_message p /\ missing (default [] (attributes (t_attributes t))) (Some payload) "" p) /\
  (t_format t = Some (format_text Mdoc) -> truthy_prop "namespaces" (Some payload) = true ->
   e ∈ validatePayloadAgainstTemplate t payload <->
   exists ns, ns ∈ default [] (namespaces (t_attributes t)) /\
     let nss := prop "namespaces" (Some payload) in
     (truthy_prop (ns_namespace ns) nss = false /\ e = "Missing namespace: " +:+ ns_namespace ns \/
      truthy_prop (ns_namespace ns) nss = true /\
      exists p, e = missing_message p /\ missing (ns_attributes ns) (prop (ns_namespace ns) nss) (ns_namespace ns) p)).
Proof.
  unfold validatePayloadAgainstTemplate. split; intros Hf.
  - rewrite bool_decide_true by done. apply elem_of_errors.
  - rewrite Hf, bool_decide_false, bool_decide_true by done. unfold truthy_prop at 1.
    destruct (prop "namespaces" (Some payload)) as [v|]; [|done]. intros ->. rewrite elem_of_concat. simpl.
    setoid_rewrite list_elem_of_fmap. split.
    + intros (l & (ns & -> & Hns) & He). exists ns. split; [done|]. by rewrite elem_of_validateNamespace, elem_of_errors in He.
    + intros (ns & Hns & He). exists (validateNamespace (Some v) ns). split; [by exists ns|].
      by rewrite elem_of_validateNamespace, elem_of_errors.
Qed.

(** Elements of an array of objects are not looked into: a mandatory child is reported
    missing whatever the elements hold. *)
Lemma array_children_rejected k m ty d c cs dis vs path data :
  prop k data = Some (Json.JArr vs) -> attr_mandatory c = true ->
  index_of_key (attr_key c) = None -> attr_key c <> "length" ->
  missing_message (child_path (child_path path k) (attr_key c)) ∈
    validateAttributes [Attribute k m ty d (Some (c :: cs)) dis] data path.
Proof.
  intros Hk Hm Hidx Hlen. apply validateAttributes_complete.
  eapply (missing_below (Attribute k m ty d (Some (c :: cs)) dis)); [by left | done | simpl; by rewrite Hk|].
  apply missing_here; [by left | done|]. simpl. rewrite Hk. simpl. apply String.eqb_neq in Hlen. by rewrite Hlen, Hidx.
Qed.
