(* ===== verification/CredentialOffer.v ===== *)
(** * OpenID4VC issuance: credential offers

    [apps/oid4vc-issuance/libs/helpers/credential-sessions.builder.ts]: from the request
    for an offer to the payload sent to the agent.  Errors are exceptions of the sum
    [result]; nothing is stored. *)

From S2P Require Import Prelude Js CredentialTemplates.

Open Scope Z_scope.

(** ** Requests, signers and certificates *)

Inductive SignerMethodOption := DID_METHOD | X5C.
Definition method_text (m : SignerMethodOption) : string := match m with DID_METHOD => "did" | X5C => "x5c" end.

#[export] Instance signer_method_eq_dec : EqDecision SignerMethodOption.
Proof. solve_decision. Defined.

Record ISignerOption := Signer {
  method : SignerMethodOption;
  did : option string;
  x5c : option (list string);
  keyId : option string;
}.

Record X509CertificateRecord := Certificate {
  certificateBase64 : string;
  cert_validFrom : Z;
  cert_expiry : Z;
}.

(** Dates arrive as text. *)
Record validityInfo := Validity { validFrom : string; validUntil : string }.

Record CredentialRequestDtoLike := CredentialRequest {
  templateId : string;
  payload : list (string * Json.value);
  q_validityInfo : option validityInfo;
}.

Record TxCode := Tx { tx_description : option string; tx_length : Z; input_mode : string }.
Record PreAuthorized := PreAuth { txCode : option TxCode; authorizationServerUrl : option string }.

Inductive AuthenticationType := PRE_AUTHORIZED_CODE | AUTHORIZATION_CODE | NO_AUTH.

#[export] Instance authentication_type_eq_dec : EqDecision AuthenticationType.
Proof. solve_decision. Defined.

Record CreateOidcCredentialOfferDtoLike := OfferDto {
  credentials : list CredentialRequestDtoLike;
  authorizationType : option AuthenticationType;
  preAuthorizedCodeFlowConfig : option PreAuthorized;
  authorizationCodeFlowConfig : option string;
  publicIssuerId : option string;
  isRevocable : option bool;
}.

Record BuiltCredential := Built {
  credentialSupportedId : string;
  signerOptions : option ISignerOption;
  b_format : CredentialFormat;
  b_payload : list (string * Json.value);
  disclosureFrame : option (list (string * Json.value));
}.

(** The two flows exclude each other. *)
Inductive flow :=
  | PreAuthorizedCode (c : PreAuthorized)
  | AuthorizationCode (authorizationServerUrl : string).

Record CredentialOfferPayload := Offer {
  o_credentials : list BuiltCredential;
  o_publicIssuerId : option string;
  o_isRevocable : option bool;
  o_flow : flow;
}.

Record GetAllCredentialOffer := OfferQuery {
  g_publicIssuerId : option string;
  g_preAuthorizedCode : option string;
  g_state : option string;
  g_credentialOfferUri : option string;
  g_authorizationCode : option string;
}.

Definition DEFAULT_TXCODE : TxCode := Tx (Some "test abc") 4 "numeric".

Definition unprocessable (message : string) : exn := http_exn UnprocessableEntityException message.

(** ** Formats and identifiers *)

Definition sdjwt_names : list string := ["sd-jwt"; "dc+sd-jwt"; "vc+sd-jwt"; "sdjwt"; "sd+jwt-vc"].
Definition mdoc_names : list string := ["mso_mdoc"; "mso-mdoc"; "mdoc"].

Definition mapDbFormatToApiFormat (dbFormat : option string) : result CredentialFormat :=
  let normalized := Str.toLowerCase (default "" dbFormat) in
  if existsb (String.eqb normalized) sdjwt_names then Ok SdJwtVc
  else if existsb (String.eqb normalized) mdoc_names then Ok Mdoc
  else Throw (unprocessable ("Unsupported template format: " +:+ template_str dbFormat)).

Definition formatSuffix (f : CredentialFormat) : string := match f with SdJwtVc => "sdjwt" | Mdoc => "mdoc" end.

Definition buildCredentialOfferUrl (baseUrl : string) (g : GetAllCredentialOffer) : string :=
  let param name v := if truthy_str v then [name +:+ "=" +:+ Uri.encodeURIComponent (default "" v)] else [] in
  let criteria := param "publicIssuerId" (g_publicIssuerId g) ++ param "preAuthorizedCode" (g_preAuthorizedCode g)
    ++ param "state" (g_state g) ++ param "credentialOfferUri" (g_credentialOfferUri g)
    ++ param "authorizationCode" (g_authorizationCode g) in
  match criteria with
  | [] => baseUrl
  | _ => baseUrl +:+ "?" +:+ Str.join "&" criteria
  end.

(** ** Selective disclosure *)

(** [childFrame._sd?.length || Object.keys(childFrame).some(k => '_sd' !== k)] *)
Definition hasChildDisclosure (frame : list (string * Json.value)) : bool :=
  match Json.field "_sd" frame with
  | Some (Json.JArr (_ :: _)) => true
  | _ => false
  end || existsb (fun f => negb (String.eqb "_sd" f.1)) frame.

(** The frame and the keys of [_sd] after an attribute. *)
Definition frame_state : Type := list (string * Json.value) * list string.

Definition close_frame (st : frame_state) : list (string * Json.value) :=
  match st.2 with
  | [] => st.1
  | sd => Json.set_field "_sd" (Json.JArr (map Json.JStr sd)) st.1
  end.

Fixpoint frame_attribute (payload : option Json.value) (st : frame_state) (a : CredentialAttribute) : frame_state :=
  match a with
  | Attribute key _ _ disclose children _ =>
      match children with
      | Some ((_ :: _) as cs) =>
          let build p := close_frame (fold_left (frame_attribute p) cs ([], [])) in
          match prop key payload with
          | Some (Json.JArr vs) =>
              let childFrame := build None in
              (Json.set_field key (Json.JArr (map (fun _ => Json.JObj childFrame) vs)) st.1, st.2)
          | v =>
              let childFrame := build v in
              if hasChildDisclosure childFrame then (Json.set_field key (Json.JObj childFrame) st.1, st.2) else st
          end
      | _ => if disclose then (st.1, st.2 ++ [key]) else st
      end
  end.

Definition buildDisclosureFrameFromTemplate (attrs : list CredentialAttribute) (payload : option Json.value) :
    list (string * Json.value) :=
  close_frame (fold_left (frame_attribute payload) attrs ([], [])).

(** ** Validity *)

(** [new Date(s)] and [d.toISOString()] *)
Definition iso (d : option Z) : result string :=
  match d with Some t => Ok (Date.toISOString t) | None => Throw (js_error "Invalid time value") end.

(** [a <= b] on dates: an invalid date compares false. *)
Definition le_date (a b : option Z) : bool :=
  match a, b with Some x, Some y => x <=? y | _, _ => false end.

Definition validateCredentialDatesInCertificateWindow (v : validityInfo) (c : X509CertificateRecord) :
    result (bool * list (string * Json.value)) :=
  let from := Date.parse (validFrom v) in
  let until := Date.parse (validUntil v) in
  let startValid := le_date (Some (cert_validFrom c)) from in
  let endValid := le_date until (Some (cert_expiry c)) in
  let durationValid := le_date from until in
  f ← iso from; u ← iso until; nb ← iso (Some (cert_validFrom c)); na ← iso (Some (cert_expiry c));
  mret (startValid && endValid && durationValid,
    [("credentialStartValid", Json.JBool startValid); ("credentialEndValid", Json.JBool endValid);
     ("credentialDurationValid", Json.JBool durationValid); ("credentialValidFrom", Json.JStr f);
     ("credentialValidTo", Json.JStr u); ("certificateNotBefore", Json.JStr nb);
     ("certificateNotAfter", Json.JStr na)]).

Definition dateToSeconds (d : option Z) : result Z :=
  match d with Some t => Ok (t / 1000) | None => Throw (js_error "dateToSeconds: invalid date") end.

(** The certificate the signer was configured with, among the active ones. *)
Definition matching_certificate (certs : list X509CertificateRecord) (signer : ISignerOption) : option X509CertificateRecord :=
  List.find (fun c => bool_decide (Some (certificateBase64 c) = x5c signer ≫= head)) certs.

Definition check_window (v : validityInfo) (c : X509CertificateRecord) : result unit :=
  '(ok, details) ← validateCredentialDatesInCertificateWindow v c;
  if negb ok then Throw (unprocessable (Json.stringify (Json.JObj details))) else mret tt.

(** ** The two builders *)

Definition expected_method (t : credential_template) : SignerMethodOption :=
  match t_signerOption t with DID => DID_METHOD | X509_P256 | X509_ED25519 => X5C end.

(** [nbf] and [exp] *)
Definition with_dates (p : list (string * Json.value)) (v : option validityInfo) : result (list (string * Json.value)) :=
  match v with
  | None => mret p
  | Some v =>
      let from := Date.parse (validFrom v) in
      let until := Date.parse (validUntil v) in
      if negb (le_date from until) then
        f ← iso from; u ← iso until;
        Throw (unprocessable (Json.stringify (Json.JObj [("credentialDurationValid", Json.JBool false);
          ("credentialValidFrom", Json.JStr f); ("credentialValidTo", Json.JStr u)])))
      else
        nbf ← dateToSeconds from; exp ← dateToSeconds until;
        mret (Json.set_field "exp" (Json.JNum exp) (Json.set_field "nbf" (Json.JNum nbf) p))
  end.

Definition buildSdJwtCredential (q : CredentialRequestDtoLike) (t : credential_template) (signers : list ISignerOption)
    (certs : list X509CertificateRecord) : result BuiltCredential :=
  let expected := expected_method t in
  match List.find (fun s => bool_decide (method s = expected)) signers with
  | None => Throw (unprocessable ("Signer option " +:+ Json.quote (method_text expected) +:+
              " is not configured for template " +:+ t_id t))
  | Some signer =>
      _ ← (match expected, q_validityInfo q with
           | X5C, Some v =>
               match certs with
               | [] => Throw (unprocessable "Active x.509 certificate details are required for x5c signer templates.")
               | _ =>
                   match matching_certificate certs signer with
                   | None => Throw (unprocessable "No active x.509 certificate matches the configured signer option.")
                   | Some c => check_window v c
                   end
               end
           | _, _ => mret tt
           end);
      p ← with_dates (payload q) (q_validityInfo q);
      let body := t_attributes t in
      let p := match vct body with
               | Some v => Json.set_field "vct" (Json.JStr v) p
               | None => List.filter (fun f => negb (String.eqb f.1 "vct")) p
               end in
      apiFormat ← mapDbFormatToApiFormat (t_format t);
      match attributes body with
      | None => Throw (js_error "attributes is not iterable")
      | Some attrs =>
          mret (Built (t_name t +:+ "-" +:+ formatSuffix apiFormat) (Some signer) apiFormat p
            (Some (buildDisclosureFrameFromTemplate attrs (Some (Json.JObj p)))))
      end
  end.

Definition missingValidityInfo : string := "Validity Info(validFrom, validTo) is required for validity of credential".

Definition validity_json (v : validityInfo) : Json.value :=
  Json.JObj [("validFrom", Json.JStr (validFrom v)); ("validUntil", Json.JStr (validUntil v))].

Definition buildMdocCredential (q : CredentialRequestDtoLike) (t : credential_template) (signers : list ISignerOption)
    (certs : list X509CertificateRecord) : result BuiltCredential :=
  match q_validityInfo q with
  | None => Throw (unprocessable missingValidityInfo)
  | Some v =>
      if String.eqb (validFrom v) "" || String.eqb (validUntil v) "" then Throw (unprocessable missingValidityInfo) else
      match signers with
      | [] => Throw (unprocessable "An x5c signer configuration is required for mdoc credentials.")
      | signer :: _ =>
          match x5c signer with
          | None | Some [] => Throw (unprocessable "An x5c signer configuration is required for mdoc credentials.")
          | Some _ =>
              match certs with
              | [] => Throw (unprocessable "Active x.509 certificate details are required for mdoc credentials.")
              | _ =>
                  match matching_certificate certs signer with
                  | None => Throw (unprocessable "No active x.509 certificate matches the configured signer option.")
                  | Some c =>
                      _ ← check_window v c;
                      let p := Json.set_field "validityInfo" (validity_json v) (payload q) in
                      apiFormat ← mapDbFormatToApiFormat (t_format t);
                      mret (Built (t_name t +:+ "-" +:+ formatSuffix apiFormat) (Some signer) apiFormat p None)
                  end
              end
          end
      end
  end.

(** ** The offer *)

(** [new Map(templates.map(t => [t.id, t]))]: the last template with an id wins. *)
Definition template_by_id (templates : list credential_template) (id : string) : option credential_template :=
  List.find (fun t => String.eqb (t_id t) id) (rev templates).

Definition buildCredential (templates : list credential_template) (signers : list ISignerOption)
    (certs : list X509CertificateRecord) (q : CredentialRequestDtoLike) : result BuiltCredential :=
  match template_by_id templates (templateId q) with
  | None => Throw (js_error "unreachable: the template ids were checked")
  | Some t =>
      let errors := validatePayloadAgainstTemplate t (Json.JObj (payload q)) in
      match errors with
      | _ :: _ => Throw (unprocessable (String.concat ", " errors))
      | [] =>
          apiFormat ← mapDbFormatToApiFormat (Some (default "dc+sd-jwt" (t_format t)));
          match apiFormat with
          | SdJwtVc => buildSdJwtCredential q t signers certs
          | Mdoc => buildMdocCredential q t signers certs
          end
      end
  end.

Fixpoint map_result {A B} (f : A -> result B) (l : list A) : result (list B) :=
  match l with
  | [] => mret []
  | x :: l' => y ← f x; ys ← map_result f l'; mret (y :: ys)
  end.

Definition choose_flow (dto : CreateOidcCredentialOfferDtoLike) (issuerUrl : option string) : result flow :=
  if bool_decide (authorizationType dto = Some NO_AUTH) then mret (PreAuthorizedCode (PreAuth None None))
  else if truthy_str issuerUrl then
    if String.eqb (Str.trim (default "" issuerUrl)) ""
    then Throw (http_exn BadRequestException "issuerDetails.authorizationServerUrl must be a non-empty string when provided")
    else mret (PreAuthorizedCode (PreAuth (Some DEFAULT_TXCODE) issuerUrl))
  else
    match preAuthorizedCodeFlowConfig dto, authorizationCodeFlowConfig dto with
    | Some c, None => mret (PreAuthorizedCode c)
    | None, Some u => mret (AuthorizationCode u)
    | _, _ => Throw (http_exn BadRequestException
        "Provide exactly one of preAuthorizedCodeFlowConfig or authorizationCodeFlowConfig.")
    end.

Definition buildCredentialOfferPayload (dto : CreateOidcCredentialOfferDtoLike) (templates : list credential_template)
    (issuerDetails : option (string * option string)) (signers : list ISignerOption) (certs : list X509CertificateRecord) :
    result CredentialOfferPayload :=
  let missing := List.filter (fun id => negb (bool_decide (is_Some (template_by_id templates id))))
                   (map templateId (credentials dto)) in
  match missing with
  | _ :: _ => Throw (http_exn NotFoundException ("Unknown template ids: " +:+ String.concat ", " missing))
  | [] =>
      built ← map_result (buildCredential templates signers certs) (credentials dto);
      let publicId := match publicIssuerId dto with Some p => Some p | None => fst <$> issuerDetails end in
      f ← choose_flow dto (issuerDetails ≫= snd);
      mret (Offer built (if truthy_str publicId then publicId else None) (isRevocable dto) f)
  end.

(** ** What a built offer guarantees *)

(** The dates of [v] are ordered and lie within the certificate's. *)
Definition within_window (v : validityInfo) (c : X509CertificateRecord) : Prop :=
  exists from until, Date.parse (validFrom v) = Some from /\ Date.parse (validUntil v) = Some until /\
    cert_validFrom c <= from <= until /\ until <= cert_expiry c.

(** The active certificate the signer of the credential was configured with. *)
Definition certified (certs : list X509CertificateRecord) (b : BuiltCredential) (v : validityInfo) : Prop :=
  exists c s, c ∈ certs /\ signerOptions b = Some s /\ Some (certificateBase64 c) = x5c s ≫= head /\ within_window v c.

(** The claims of an SD-JWT credential: the template's type, the dates of the request in
    order, and the request's other claims *)
Definition claimed (t : credential_template) (q : CredentialRequestDtoLike) (p : list (string * Json.value)) : Prop :=
  Json.field "vct" p = Json.JStr <$> vct (t_attributes t) /\
  match q_validityInfo q with
  | None => forall k, k <> "vct" -> Json.field k p = Json.field k (payload q)
  | Some v => exists from until, Date.parse (validFrom v) = Some from /\ Date.parse (validUntil v) = Some until /\ from <= until /\
      Json.field "nbf" p = Some (Json.JNum (from / 1000)) /\ Json.field "exp" p = Some (Json.JNum (until / 1000)) /\
      forall k, k ∉ ["vct"; "nbf"; "exp"] -> Json.field k p = Json.field k (payload q)
  end.

(** The signer of an SD-JWT credential is the first of the template's method, that of an mdoc
    the first of all; a validity is required of an mdoc only. *)
Definition sound_credential (templates : list credential_template) (signers : list ISignerOption) (certs : list X509CertificateRecord)
    (q : CredentialRequestDtoLike) (b : BuiltCredential) : Prop :=
  exists t, template_by_id templates (templateId q) = Some t /\
    mapDbFormatToApiFormat (t_format t) = Ok (b_format b) /\
    credentialSupportedId b = t_name t +:+ "-" +:+ formatSuffix (b_format b) /\
    validatePayloadAgainstTemplate t (Json.JObj (payload q)) = [] /\
    match b_format b with
    | Mdoc => exists s v, head signers = Some s /\ signerOptions b = Some s /\ q_validityInfo q = Some v /\ certified certs b v /\
        b_payload b = Json.set_field "validityInfo" (validity_json v) (payload q)
    | SdJwtVc => exists s, List.find (fun s => bool_decide (method s = expected_method t)) signers = Some s /\ signerOptions b = Some s /\
        claimed t q (b_payload b) /\
        forall v, q_validityInfo q = Some v -> expected_method t = X5C -> certified certs b v
    end.

Lemma le_date_spec a b : le_date a b = true -> exists x y, a = Some x /\ b = Some y /\ x <= y.
Proof. destruct a as [x|], b as [y|]; simpl; try done. intros H%Z.leb_le. eauto. Qed.

#[local] Arguments le_date : simpl never.

Lemma check_window_ok v c u : check_window v c = Ok u -> within_window v c.
Proof.
  unfold check_window. intros ([ok details] & Hv & H)%result_bind_ok.
  destruct ok; [|done]. clear H. unfold validateCredentialDatesInCertificateWindow in Hv.
  apply result_bind_ok in Hv as (f & Hf & Hv). apply result_bind_ok in Hv as (t & Ht & Hv).
  apply result_bind_ok in Hv as (nb & _ & Hv). apply result_bind_ok in Hv as (na & _ & Hv).
  injection Hv as Hok _. apply andb_true_iff in Hok as [Hok Hd]. apply andb_true_iff in Hok as [Hs He].
  apply le_date_spec in Hs as (x1 & y1 & E1 & H1 & L1), He as (x2 & y2 & H2 & E2 & L2), Hd as (x3 & y3 & H3 & H4 & L3).
  injection E1 as <-. injection E2 as <-.
  exists y1, x2. split; [done|]. split; [done|]. assert (x3 = y1 /\ y3 = x2) as [-> ->] by (split; congruence). lia.
Qed.

Lemma matching_spec certs s c : matching_certificate certs s = Some c ->
  c ∈ certs /\ Some (certificateBase64 c) = x5c s ≫= head.
Proof. intros [Hin Hb]%find_some. apply bool_decide_eq_true in Hb. split; [by apply list_elem_of_In | done]. Qed.

Lemma field_without k k' (p : list (string * Json.value)) :
  Json.field k (List.filter (fun f => negb (String.eqb f.1 k')) p) = if String.eqb k k' then None else Json.field k p.
Proof.
  induction p as [|[k0 v] p IH]; simpl; [by destruct (String.eqb k k')|]. destruct (String.eqb_spec k0 k') as [->|Hk]; simpl; rewrite IH.
  - by destruct (String.eqb_spec k k').
  - destruct (String.eqb_spec k k0) as [->|]; [|done]. by destruct (String.eqb_spec k0 k').
Qed.

Definition with_vct (o : option string) (p : list (string * Json.value)) : list (string * Json.value) :=
  match o with Some v => Json.set_field "vct" (Json.JStr v) p | None => List.filter (fun f => negb (String.eqb f.1 "vct")) p end.

Lemma field_with_vct k o p : Json.field k (with_vct o p) = if String.eqb k "vct" then Json.JStr <$> o else Json.field k p.
Proof.
  destruct o as [v|]; simpl; [|by rewrite field_without]. destruct (String.eqb_spec k "vct") as [->|]; [apply Json.field_set_eq | by apply Json.field_set_ne].
Qed.

Lemma claimed_payload t q p : with_dates (payload q) (q_validityInfo q) = Ok p -> claimed t q (with_vct (vct (t_attributes t)) p).
Proof.
  intros Hp. unfold claimed. rewrite field_with_vct. split; [done|]. unfold with_dates in Hp. destruct (q_validityInfo q) as [v|].
  2: { injection Hp as <-. intros k Hk. rewrite field_with_vct. by destruct (String.eqb_spec k "vct"). }
  destruct (le_date _ _) eqn:Hle; simpl in Hp; [|by apply result_bind_ok in Hp as (f & _ & (u & _ & Hp)%result_bind_ok)].
  apply le_date_spec in Hle as (from & until & Hf & Hu & Hle). rewrite Hf, Hu in Hp. injection Hp as <-.
  exists from, until. split_and!; try done.
  - rewrite field_with_vct. simpl. rewrite Json.field_set_ne by done. apply Json.field_set_eq.
  - rewrite field_with_vct. simpl. apply Json.field_set_eq.
  - intros k Hk. rewrite field_with_vct. destruct (String.eqb_spec k "vct") as [->|]; [set_solver|].
    rewrite !Json.field_set_ne; [done | set_solver..].
Qed.

Lemma buildSdJwt_ok q t signers certs b : buildSdJwtCredential q t signers certs = Ok b ->
  mapDbFormatToApiFormat (t_format t) = Ok (b_format b) /\
  credentialSupportedId b = t_name t +:+ "-" +:+ formatSuffix (b_format b) /\
  exists s, List.find (fun s => bool_decide (method s = expected_method t)) signers = Some s /\ signerOptions b = Some s /\
    claimed t q (b_payload b) /\ forall v, q_validityInfo q = Some v -> expected_method t = X5C -> certified certs b v.
Proof.
  unfold buildSdJwtCredential. destruct (List.find _ signers) as [s|] eqn:Hs; [|done].
  intros (u & Hcert & H)%result_bind_ok.
  apply result_bind_ok in H as (p & Hp & H). apply result_bind_ok in H as (f & Hf & H).
  destruct (attributes (t_attributes t)) as [attrs|]; [|done]. simpl in H. injection H as <-. simpl.
  split; [done|]. split; [done|]. exists s. split; [done|]. split; [done|]. split; [by apply (claimed_payload t q p)|].
  intros v Hv Hx. rewrite Hv, Hx in Hcert. destruct certs as [|c0 cs]; [done|].
  destruct (matching_certificate _ s) as [c|] eqn:Hm; [|done]. apply matching_spec in Hm as [Hin Hb].
  exists c, s. simpl. split_and!; try done. by eapply check_window_ok.
Qed.

Lemma buildMdoc_ok q t signers certs b : buildMdocCredential q t signers certs = Ok b ->
  mapDbFormatToApiFormat (t_format t) = Ok (b_format b) /\
  credentialSupportedId b = t_name t +:+ "-" +:+ formatSuffix (b_format b) /\
  exists s v, head signers = Some s /\ signerOptions b = Some s /\ q_validityInfo q = Some v /\ certified certs b v /\
    b_payload b = Json.set_field "validityInfo" (validity_json v) (payload q).
Proof.
  unfold buildMdocCredential. destruct (q_validityInfo q) as [v|]; [|done]. destruct (_ || _); [done|].
  destruct signers as [|s signers]; [done|]. destruct (x5c s) as [[|x xs]|] eqn:Hx; [done| |done].
  destruct certs as [|c0 cs]; [done|]. destruct (matching_certificate _ s) as [c|] eqn:Hm; [|done].
  apply matching_spec in Hm as [Hin Hb]. intros (u & Hw & H)%result_bind_ok. apply result_bind_ok in H as (f & Hf & H).
  simpl in H. injection H as <-. simpl. split; [done|]. split; [done|]. exists s, v. split_and!; try done.
  exists c, s. simpl. split_and!; try done. by eapply check_window_ok.
Qed.

Lemma map_result_ok {A B} (f : A -> result B) l ys : map_result f l = Ok ys -> Forall2 (fun x y => f x = Ok y) l ys.
Proof.
  revert ys. induction l as [|x l IH]; intros ys H; simpl in H; [injection H as <-; constructor|].
  apply result_bind_ok in H as (y & Hy & H). apply result_bind_ok in H as (ys' & Hys & H). simpl in H. injection H as <-.
  constructor; [done | by apply IH].
Qed.

(** A template whose format is absent is read as an SD-JWT here and refused by the builder. *)
Lemma buildCredential_ok templates signers certs q b :
  buildCredential templates signers certs q = Ok b -> sound_credential templates signers certs q b.
Proof.
  unfold buildCredential. destruct (template_by_id templates (templateId q)) as [t|] eqn:Ht; [|done].
  destruct (validatePayloadAgainstTemplate t _) eqn:Hv; [|done].
  intros (f & Hf & H)%result_bind_ok. exists t. destruct (t_format t) as [fmt|] eqn:Hfmt; simpl in Hf.
  - destruct f.
    + apply buildSdJwt_ok in H as (Hmap & Hid & Hd). rewrite Hfmt in Hmap.
      assert (b_format b = SdJwtVc) as Hb by congruence. rewrite Hb in *. by split_and!.
    + apply buildMdoc_ok in H as (Hmap & Hid & Hd). rewrite Hfmt in Hmap.
      assert (b_format b = Mdoc) as Hb by congruence. rewrite Hb in *. by split_and!.
  - injection Hf as <-. apply buildSdJwt_ok in H as (Hmap & _). by rewrite Hfmt in Hmap.
Qed.

(** C30. Every credential of a built offer belongs to the template its request names and passed
    that template's validation.  An SD-JWT credential carries the template's type and the
    request's claims, and its signer is the first configured one of the method, DID or
    certificate, that the template's signer stands for; where the request gives a validity,
    its dates are ordered and are the credential's, and with a certificate they lie within
    that of the active certificate of the signer.  An mdoc has the first configured signer,
    whatever the template says, and a validity, which lies within that of the signer's active
    certificate.  Nothing is checked of an SD-JWT credential without a validity, nor the key
    type of a certificate. *)
Theorem offer_sound dto templates issuer signers certs offer :
  buildCredentialOfferPayload dto templates issuer signers certs = Ok offer ->
  Forall2 (sound_credential templates signers certs) (credentials dto) (o_credentials offer).
Proof.
  unfold buildCredentialOfferPayload. destruct (List.filter _ _); [|done].
  intros (built & Hb & H)%result_bind_ok. apply result_bind_ok in H as (f & _ & H). simpl in H. injection H as <-. simpl.
  apply map_result_ok in Hb. eapply Forall2_impl; [exact Hb|]. intros q b. apply buildCredential_ok.
Qed.

(** A template stored under any other spelling of its format that the builders accept gets no
    payload validation at all. *)
Theorem alias_format_unvalidated t f p :
  t_format t = Some f -> f ∈ sdjwt_names ++ mdoc_names -> f <> "dc+sd-jwt" -> f <> "mso_mdoc" ->
  is_ok (mapDbFormatToApiFormat (t_format t)) = true /\ validatePayloadAgainstTemplate t p = [].
Proof.
  intros Hf Hin Hs Hm. unfold validatePayloadAgainstTemplate. rewrite Hf. split.
  - simpl in Hin. repeat (apply elem_of_cons in Hin as [->|Hin]; [reflexivity|]). by apply elem_of_nil in Hin.
  - rewrite !bool_decide_false; [done|..]; intros [= ->]; done.
Qed.

(** ** Evaluation *)

Module OfferSample.
Definition attrs : list CredentialAttribute :=
  [Attribute "name" true STRING true None None;
   Attribute "address" false OBJECT false (Some [Attribute "street" true STRING true None None]) None].

Definition template (format : string) : credential_template :=
  Template "t1" "Id" (Some format) X509_P256 (Body (Some "https://vct") (Some attrs) None None) Json.JNull.

Definition signer : ISignerOption := Signer X5C None (Some ["cert"]) None.
Definition certificate : X509CertificateRecord := Certificate "cert" 1700000000000 1800000000000.
Definition request_for (p : list (string * Json.value)) : CredentialRequestDtoLike :=
  CredentialRequest "t1" p (Some (Validity "2024-05-06T00:00:00.000Z" "2025-05-06")).
Definition full : list (string * Json.value) :=
  [("name", Json.JStr "Ann"); ("address", Json.JObj [("street", Json.JStr "Main")])].
Definition dto (p : list (string * Json.value)) : CreateOidcCredentialOfferDtoLike :=
  OfferDto [request_for p] (Some NO_AUTH) None None None (Some true).

Definition build (format : string) (p : list (string * Json.value)) : result CredentialOfferPayload :=
  buildCredentialOfferPayload (dto p) [template format] (Some ("issuer", None)) [signer] [certificate].

Example built_frame : exists o b, build "dc+sd-jwt" full = Ok o /\ o_credentials o = [b] /\
  disclosureFrame b = Some [("address", Json.JObj [("_sd", Json.JArr [Json.JStr "street"])]); ("_sd", Json.JArr [Json.JStr "name"])].
Proof. eexists _, _. split; [vm_compute; reflexivity | split; reflexivity]. Qed.

Example offer_sound_witness : exists o, build "dc+sd-jwt" full = Ok o /\
  Forall2 (sound_credential [template "dc+sd-jwt"] [signer] [certificate]) [request_for full] (o_credentials o).
Proof.
  eexists. split; [vm_compute; reflexivity|].
  apply (offer_sound (dto full) [template "dc+sd-jwt"] (Some ("issuer", None)) [signer] [certificate]).
  vm_compute. reflexivity.
Defined.

(** Signers are configured in the order of the templates: a certificate of another key type
    signs, and an mdoc is refused where a DID comes first. *)
Definition ed25519_signer : ISignerOption := Signer X5C None (Some ["ed25519 cert"]) None.
Definition did_signer : ISignerOption := Signer DID_METHOD (Some "did:key:z6Mk") None None.
Definition mdoc_template : credential_template := Template "t1" "Licence" (Some "mso_mdoc") X509_P256 (Body None None None (Some [])) Json.JNull.
Definition offered_with (t : credential_template) (p : list (string * Json.value)) (signers : list ISignerOption) : result (list (option ISignerOption)) :=
  o ← buildCredentialOfferPayload (dto p) [t] (Some ("issuer", None)) signers [certificate; Certificate "ed25519 cert" 1700000000000 1800000000000];
  Ok (map signerOptions (o_credentials o)).

Example signer_of_other_key : offered_with (template "dc+sd-jwt") full [ed25519_signer; signer] = Ok [Some ed25519_signer].
Proof. vm_compute. reflexivity. Qed.
Example mdoc_first_signer : let p := [("namespaces", Json.JObj [("org.iso", Json.JObj [])])] in
  offered_with mdoc_template p [signer; did_signer] = Ok [Some signer] /\
  offered_with mdoc_template p [did_signer; signer] = Throw (unprocessable "An x5c signer configuration is required for mdoc credentials.").
Proof. vm_compute. done. Qed.

(** The same request without its mandatory claim is refused under one spelling of the format
    and turned into an offer under another. *)
Example alias_format_unvalidated_witness :
  is_ok (build "dc+sd-jwt" []) = false /\ is_ok (build "vc+sd-jwt" []) = true /\
  validatePayloadAgainstTemplate (template "vc+sd-jwt") (Json.JObj []) = [].
Proof.
  split; [vm_compute; reflexivity|]. split; [vm_compute; reflexivity|].
  apply (alias_format_unvalidated (template "vc+sd-jwt") "vc+sd-jwt").
  - reflexivity.
  - apply (bool_decide_unpack _). vm_compute. exact I.
  - discriminate.
  - discriminate.
Defined.

Example validation_exact_witness :
  missing attrs (Some (Json.JObj [("address", Json.JObj [])])) "" "address.street".
Proof.
  destruct (validation_exact (template "dc+sd-jwt") (Json.JObj [("address", Json.JObj [])])
    (missing_message "address.street")) as [H _].
  destruct (H eq_refl) as [H1 _]. destruct H1 as (p & Hp & Hm).
  - apply (bool_decide_unpack _). vm_compute. exact I.
  - apply Json.app_inv_str in Hp as ->. exact Hm.
Defined.
End OfferSample.
