(* ===== verification/IssuerMetadata.v ===== *)
(** * OpenID4VC issuance: issuer metadata

    [apps/oid4vc-issuance/libs/helpers/issuer.metadata.ts]: the credential
    configurations an issuer advertises, built from its templates. *)

From S2P Require Import Prelude Js JsonParse CredentialTemplates CredentialOffer.

(** ** Static lists *)

Definition STATIC_CREDENTIAL_ALGS_FOR_SDJWT : list Json.value := map Json.JStr ["ES256"; "EdDSA"].
Definition STATIC_CREDENTIAL_ALGS_FOR_MDOC : list Json.value := map Json.JNum [-7; -9]%Z.
Definition STATIC_BINDING_METHODS_FOR_SDJWT : list string := ["did:key"; "did:web"; "did:jwk"; "jwk"].
Definition STATIC_BINDING_METHODS_FOR_MDOC : list string := ["cose_key"].
Definition ISSUER_DPOP_ALGS_DEFAULT : list string := ["RS256"; "ES256"].

(** ** Claims *)

Record Claim := mkClaim {
  path : list string;
  c_display : option (list ClaimDisplay);
  c_mandatory : bool;
}.

Definition claim_of (ns : option string) (parent : list string) (a : CredentialAttribute) : Claim :=
  let currentPath := parent ++ [attr_key a] in
  mkClaim (match ns with
           | Some n => if String.eqb n "" then currentPath else n :: currentPath
           | None => currentPath
           end) (attr_display a) (attr_mandatory a).

Fixpoint generateClaim (ns : option string) (parent : list string) (a : CredentialAttribute) : list Claim :=
  claim_of ns parent a ::
  match a with
  | Attribute key _ _ _ children _ =>
      match children with
      | Some cs => concat (map (generateClaim ns (parent ++ [key])) cs)
      | None => []
      end
  end.

Definition generateClaims (attrs : list CredentialAttribute) (ns : option string) (parent : list string) : list Claim :=
  concat (map (generateClaim ns parent) attrs).

Definition not_iterable : exn := js_error "attributes is not iterable".

Definition buildClaimsFromTemplate (b : template_body) : result (list Claim) :=
  match namespaces b with
  | Some nss => Ok (concat (map (fun ns => generateClaims (ns_attributes ns) (Some (ns_namespace ns)) []) nss))
  | None =>
      match attributes b with
      | Some attrs => Ok (generateClaims attrs None [])
      | None => Throw not_iterable
      end
  end.

(** ** Configurations *)

Record CredentialConfig := Config {
  cfg_format : CredentialFormat;
  scope : string;
  cfg_vct : option string;
  cfg_doctype : option string;
  credential_signing_alg_values_supported : list Json.value;
  cryptographic_binding_methods_supported : list string;
  proof_signing_alg_values_supported : list string;
  claims : list Claim;
  display : list Json.value;
}.

Definition buildSdJwtCredentialConfig (name : string) (b : template_body) : result (string * CredentialConfig) :=
  claims ← buildClaimsFromTemplate b;
  mret (name +:+ "-sdjwt",
    Config SdJwtVc ("openid4vc:" +:+ template_str (vct b) +:+ "-sdjwt") (vct b) None STATIC_CREDENTIAL_ALGS_FOR_SDJWT
      STATIC_BINDING_METHODS_FOR_SDJWT ["ES256"; "EdDSA"] claims []).

Definition buildMdocCredentialConfig (name : string) (b : template_body) : result (string * CredentialConfig) :=
  claims ← buildClaimsFromTemplate b;
  mret (name +:+ "-mdoc",
    Config Mdoc ("openid4vc:" +:+ template_str (doctype b) +:+ "-mdoc") None (doctype b) STATIC_CREDENTIAL_ALGS_FOR_MDOC
      STATIC_BINDING_METHODS_FOR_MDOC ["ES256"; "EdDSA"] claims []).

Definition buildCredentialConfig (name : string) (b : template_body) (f : CredentialFormat) : result (string * CredentialConfig) :=
  match f with
  | SdJwtVc => buildSdJwtCredentialConfig name b
  | Mdoc => buildMdocCredentialConfig name b
  end.

(** [coerceJsonObject] and [coerceJson]: a string is parsed, [null] when it does not parse. *)
Definition coerceJson (v : Json.value) : Json.value :=
  match v with
  | Json.JStr s => default Json.JNull (JsonParse.parse s)
  | _ => v
  end.

(** One entry of [appearance.display]; [undefined] properties are left out. *)
Definition display_entry (e : Json.value) : Json.value :=
  let copy k := Json.opt_field k (prop k (Some e)) in
  let logo := prop "logo" (Some e) in
  let background := prop "uri" (prop "background_image" (Some e)) in
  Json.JObj (copy "name" ++ copy "description" ++ copy "locale" ++
    (match logo with
     | Some l => if Json.truthy l then [("logo", Json.JObj (Json.opt_field "uri" (prop "uri" (Some l)) ++
                                                   Json.opt_field "alt_text" (prop "alt_text" (Some l))))] else []
     | None => []
     end) ++
    (match background with
     | Some u => if Json.truthy u then [("background_image", Json.JObj [("uri", u)])] else []
     | None => []
     end) ++ copy "background_color" ++ copy "text_color").

(** [appearance.display?.map(...) ?? []]; reading a property of [null] throws, and so does
    mapping what is not an array. *)
Definition displayConfigurations (appearance : Json.value) : result (list Json.value) :=
  match coerceJson appearance with
  | Json.JNull => Throw (js_error "Cannot read properties of null (reading 'display')")
  | v => match prop "display" (Some v) with
         | None | Some Json.JNull => Ok []
         | Some (Json.JArr es) => Ok (map display_entry es)
         | Some _ => Throw (js_error "display.map is not a function")
         end
  end.

Definition row_format (t : credential_template) : CredentialFormat :=
  if bool_decide (t_format t = Some (format_text Mdoc)) then Mdoc else SdJwtVc.

(** [Object.assign(map, { [key]: config })] *)
Fixpoint assign (k : string) (c : CredentialConfig) (m : list (string * CredentialConfig)) : list (string * CredentialConfig) :=
  match m with
  | [] => [(k, c)]
  | (k', c') :: m' => if String.eqb k k' then (k, c) :: m' else (k', c') :: assign k c m'
  end.

Definition add_template (m : list (string * CredentialConfig)) (t : credential_template) :
    result (list (string * CredentialConfig)) :=
  '(k, c) ← buildCredentialConfig (t_name t) (t_attributes t) (row_format t);
  d ← displayConfigurations (t_appearance t);
  mret (assign k (Config (cfg_format c) (scope c) (cfg_vct c) (cfg_doctype c) (credential_signing_alg_values_supported c)
    (cryptographic_binding_methods_supported c) (proof_signing_alg_values_supported c) (claims c) d) m).

Fixpoint add_templates (m : list (string * CredentialConfig)) (ts : list credential_template) :
    result (list (string * CredentialConfig)) :=
  match ts with
  | [] => mret m
  | t :: ts' => m' ← add_template m t; add_templates m' ts'
  end.

Definition buildCredentialConfigurationsSupported (ts : list credential_template) : result (list (string * CredentialConfig)) :=
  add_templates [] ts.

(** ** The issuer's payload *)

Definition isDisplayArray (v : Json.value) : option (list Json.value) :=
  match v with
  | Json.JArr es =>
      if forallb (fun e => match e with
                           | Json.JObj fs => match Json.field "name" fs with Some (Json.JStr _) => true | _ => false end
                           | _ => false
                           end) es
      then Some es else None
  | _ => None
  end.

Record issuer_payload := IssuerPayload {
  ip_display : list Json.value;
  dpopSigningAlgValuesSupported : list string;
  credentialConfigurationsSupported : list (string * CredentialConfig);
  batchSize : Z;
}.

Definition batchCredentialIssuanceDefault : Z := 0.

Definition buildIssuerPayload (configs : option (list (string * CredentialConfig))) (publicIssuerId : option string)
    (metadata : Json.value) (batch : option Z) (dpopAlgs : option (list string)) : result issuer_payload :=
  if negb (truthy_str publicIssuerId) then Throw (js_error "Invalid issuer: missing publicIssuerId")
  else Ok (IssuerPayload (default [] (isDisplayArray (coerceJson metadata))) (default ISSUER_DPOP_ALGS_DEFAULT dpopAlgs)
         (default [] configs) (default batchCredentialIssuanceDefault batch)).

Definition extractTemplateIds (credentials : option (list (option string))) : list string :=
  match credentials with
  | None => []
  | Some cs => omap (fun id => if truthy_str id then id else None) cs
  end.

Definition encodeIssuerPublicId (id : string) : result string :=
  if String.eqb id "" then Throw (js_error "issuerPublicId is required") else Ok (Uri.encodeURIComponent (Str.trim id)).

(** ** Laws *)

Definition keys (m : list (string * CredentialConfig)) : list string := m.*1.

Lemma keys_assign k c m x : x ∈ keys (assign k c m) <-> x = k \/ x ∈ keys m.
Proof.
  unfold keys. induction m as [|[k' c'] m IH]; simpl.
  - rewrite !elem_of_cons. naive_solver.
  - destruct (String.eqb_spec k k') as [->|]; simpl; rewrite !elem_of_cons; [naive_solver|]. rewrite IH. naive_solver.
Qed.

Lemma NoDup_assign k c m : NoDup (keys m) -> NoDup (keys (assign k c m)).
Proof.
  induction m as [|[k' c'] m IH]; simpl; [intros _; apply NoDup_singleton|].
  rewrite NoDup_cons. intros [Hn Hnd]. destruct (String.eqb_spec k k') as [->|Hne]; simpl; rewrite NoDup_cons; [done|].
  split; [|by apply IH]. intros [->|Hin]%keys_assign; done.
Qed.

(** The key under which a template is advertised. *)
Definition config_key (t : credential_template) : string := t_name t +:+ "-" +:+ formatSuffix (row_format t).

Lemma add_template_keys m t m' : add_template m t = Ok m' -> forall x, x ∈ keys m' <-> x = config_key t \/ x ∈ keys m.
Proof.
  unfold add_template. intros H x. apply result_bind_ok in H as ([k c] & Hc & H).
  apply result_bind_ok in H as (d & _ & H). injection H as <-. rewrite keys_assign.
  assert (k = config_key t) as ->; [|done]. unfold config_key, buildCredentialConfig, buildSdJwtCredentialConfig,
    buildMdocCredentialConfig in *.
  destruct (row_format t); apply result_bind_ok in Hc as (cl & _ & Hc); by injection Hc as <- _.
Qed.

Lemma add_templates_keys ts m m' : add_templates m ts = Ok m' ->
  forall x, x ∈ keys m' <-> x ∈ config_key <$> ts \/ x ∈ keys m.
Proof.
  revert m. induction ts as [|t ts IH]; intros m H x; simpl in H.
  - injection H as <-. simpl. split; [by right | intros [Hx|Hx]; [by apply elem_of_nil in Hx | done]].
  - apply result_bind_ok in H as (m1 & H1 & H). rewrite (IH m1 H x), (add_template_keys _ _ _ H1 x).
    simpl. rewrite elem_of_cons. naive_solver.
Qed.

Lemma template_by_id_elem ts id t : template_by_id ts id = Some t -> t ∈ ts /\ t_id t = id.
Proof.
  intros [Hin%in_rev Hid%String.eqb_eq]%find_some. split; [by apply list_elem_of_In | done].
Qed.

(** A format of [CredentialFormat] is read alike by the two builders. *)
Lemma row_format_agrees t f : mapDbFormatToApiFormat (t_format t) = Ok f ->
  (t_format t = Some (format_text SdJwtVc) \/ t_format t = Some (format_text Mdoc)) -> row_format t = f.
Proof.
  intros Hf [H|H]; rewrite H in Hf; vm_compute in Hf; injection Hf as <-; unfold row_format; rewrite H.
  - by rewrite bool_decide_false.
  - by rewrite bool_decide_true.
Qed.

(** C38. Every credential of a built offer refers to a configuration that the issuer's metadata,
    built from the same templates, declares, as long as the templates are stored under the
    two names of the enumeration. *)
Theorem offer_declared dto ts issuer signers certs offer configs :
  buildCredentialOfferPayload dto ts issuer signers certs = Ok offer ->
  buildCredentialConfigurationsSupported ts = Ok configs ->
  Forall (fun t => t_format t = Some (format_text SdJwtVc) \/ t_format t = Some (format_text Mdoc)) ts ->
  Forall (fun b => credentialSupportedId b ∈ keys configs) (o_credentials offer).
Proof.
  unfold buildCredentialOfferPayload. destruct (List.filter _ _); [|done]. intros H Hc Hts.
  apply result_bind_ok in H as (built & Hb & H). apply result_bind_ok in H as (f & _ & H).
  injection H as <-. simpl. apply map_result_ok in Hb.
  apply Forall_forall. intros b Hin. apply list_elem_of_lookup in Hin as [i Hi].
  destruct (Forall2_lookup_r _ _ _ _ _ Hb Hi) as (q & _ & Hq).
  apply buildCredential_ok in Hq as (t & Ht & Hmap & -> & _). apply template_by_id_elem in Ht as [Ht _].
  rewrite (add_templates_keys _ _ _ Hc). left. apply list_elem_of_fmap. exists t. split; [|done].
  unfold config_key. rewrite Forall_forall in Hts. by rewrite (row_format_agrees t (b_format b) Hmap (Hts t Ht)).
Qed.

(** Under another spelling an mdoc template is advertised as an SD-JWT: the offer's
    configuration does not exist. *)
Example mdoc_alias_undeclared :
  let t := Template "t1" "Id" (Some "mdoc") X509_P256 (Body None (Some []) (Some "doc") (Some [])) (Json.JObj []) in
  mapDbFormatToApiFormat (t_format t) = Ok Mdoc /\
  keys <$> (match buildCredentialConfigurationsSupported [t] with Ok m => Some m | Throw _ => None end) = Some ["Id-sdjwt"].
Proof. split; reflexivity. Qed.

Module MetadataSample.
Definition template : credential_template :=
  Template "t1" "Id" (Some "dc+sd-jwt") X509_P256 (Body (Some "https://vct") (Some OfferSample.attrs) None None)
    (Json.JObj [("display", Json.JArr [Json.JObj [("name", Json.JStr "Identity")]])]).

Example offer_declared_witness : exists o, 
  buildCredentialOfferPayload (OfferSample.dto OfferSample.full) [template] None [OfferSample.signer] [OfferSample.certificate] = Ok o /\
  Forall (fun b => credentialSupportedId b ∈ ["Id-sdjwt"]) (o_credentials o).
Proof.
  eexists. split; [vm_compute; reflexivity|].
  apply (offer_declared (OfferSample.dto OfferSample.full) [template] None [OfferSample.signer] [OfferSample.certificate] _
    (match buildCredentialConfigurationsSupported [template] with Ok m => m | Throw _ => [] end)).
  - vm_compute. reflexivity.
  - vm_compute. reflexivity.
  - repeat constructor.
Defined.
End MetadataSample.
