(* ===== verification/W3cSchema.v ===== *)
(** * Ledger: W3C schema builder

    [apps/ledger/libs/helpers/w3c.schema.builder.ts] with the keyword classes of
    [libs/validations]: from the attributes of a schema to its JSON Schema document.
    Numeric limits are integers. *)

From S2P Require Import Prelude Js.

Open Scope Z_scope.

Notation fields := (list (string * Json.value)).

(** The validity of a pattern for the [RegExp] constructor. *)
Class RegExpSyntax := { valid_regexp : string -> bool }.

(** ** Attributes *)

Record attribute_fields := Fields {
  attributeName : string;
  schemaDataType : string;
  displayName : option string;
  isRequired : bool;
  description : option string;
  minLength : option Z;
  maxLength : option Z;
  pattern : option string;
  minimum : option Z;
  maximum : option Z;
  exclusiveMinimum : option Z;
  exclusiveMaximum : option Z;
  multipleOf : option Z;
  minItems : option Z;
  maxItems : option Z;
  uniqueItems : option bool;
}.

Inductive IW3CAttributeValue :=
  W3C (f : attribute_fields) (items : option (list IW3CAttributeValue))
    (properties : option (list (string * IW3CAttributeValue))).

Definition fields_of (a : IW3CAttributeValue) : attribute_fields := let 'W3C f _ _ := a in f.
Definition items_of (a : IW3CAttributeValue) : option (list IW3CAttributeValue) := let 'W3C _ i _ := a in i.
Definition properties_of (a : IW3CAttributeValue) : option (list (string * IW3CAttributeValue)) := let 'W3C _ _ p := a in p.

(** ** Keywords *)

Section builder.
Context {R : RegExpSyntax}.

(** [new K(value).json(context)] for the keyword classes. *)
Definition keyword {A} (name : string) (value : option A) (ok : A -> bool) (error : string) (json : A -> Json.value)
    (context : fields) : result fields :=
  match value with
  | None => Ok context
  | Some v => if ok v then Ok (Json.set_field name (json v) context) else Throw (js_error error)
  end.

Definition count_error : string := "value must be an integer and greater than or equal to 0".

Definition MinLength (f : attribute_fields) := keyword "minLength" (minLength f) (fun v => 0 <=? v) count_error Json.JNum.
Definition MaxLength (f : attribute_fields) := keyword "maxLength" (maxLength f) (fun v => 0 <=? v) count_error Json.JNum.
Definition Pattern (f : attribute_fields) :=
  keyword "pattern" (pattern f) valid_regexp "value must be a valid regular expression pattern" Json.JStr.
Definition Minimum (f : attribute_fields) := keyword "minimum" (minimum f) (fun _ => true) "value must be a number" Json.JNum.
Definition ExclusiveMinimum (f : attribute_fields) :=
  keyword "exclusiveMinimum" (exclusiveMinimum f) (fun _ => true) "value must be a number" Json.JNum.
Definition MultipleOf (f : attribute_fields) :=
  keyword "multipleOf" (multipleOf f) (fun v => 0 <? v) "value must be a number greater than 0" Json.JNum.
Definition MinItems (f : attribute_fields) := keyword "minItems" (minItems f) (fun v => 0 <=? v) count_error Json.JNum.
Definition MaxItems (f : attribute_fields) := keyword "maxItems" (maxItems f) (fun v => 0 <=? v) count_error Json.JNum.
Definition UniqueItems (f : attribute_fields) :=
  keyword "uniqueItems" (uniqueItems f) (fun _ => true) "value must be a boolean" Json.JBool.

Definition lowered_type (f : attribute_fields) : string := Str.toLowerCase (schemaDataType f).
Definition is_type (f : attribute_fields) (ts : list string) : bool := existsb (String.eqb (lowered_type f)) ts.

Definition applyValidations (f : attribute_fields) (propertyObj : fields) : result fields :=
  c ← (if is_type f ["string"] then c ← MinLength f propertyObj; c ← MaxLength f c; Pattern f c else Ok propertyObj);
  c ← (if is_type f ["number"; "integer"] then c ← Minimum f c; c ← ExclusiveMinimum f c; MultipleOf f c else Ok c);
  if is_type f ["array"] then c ← MinItems f c; c ← MaxItems f c; UniqueItems f c else Ok c.

(** ** Properties *)

Definition title_of (f : attribute_fields) : string := str_or (displayName f) (attributeName f).
Definition field_description (f : attribute_fields) : string := attributeName f +:+ " field".

(** [{ type, title, description }]; only top-level attributes keep their own description. *)
Definition base (type title description : string) : fields :=
  [("type", Json.JStr type); ("title", Json.JStr title); ("description", Json.JStr description)].

Definition baseProperty (f : attribute_fields) : fields :=
  base (lowered_type f) (title_of f) (str_or (description f) (field_description f)).

Definition nestedBaseProperty (f : attribute_fields) : fields :=
  base (lowered_type f) (title_of f) (field_description f).

(** What [processAttributes] accumulates: properties and required names. *)
Definition acc : Type := fields * list string.

Definition names (l : list string) : Json.value := Json.JArr (map Json.JStr l).

(** [if (0 < required.length) o.required = required] *)
Definition with_required (o : fields) (required : list string) : fields :=
  match required with [] => o | _ => Json.set_field "required" (names required) o end.

(** The [items] schema of an array: an object with the given properties. *)
Definition items_schema (a : acc) : Json.value :=
  Json.JObj (with_required [("type", Json.JStr "object"); ("properties", Json.JObj a.1)] a.2).

Fixpoint fold_result {A S} (f : S -> A -> result S) (l : list A) (s : S) : result S :=
  match l with
  | [] => Ok s
  | x :: l' => s' ← f s x; fold_result f l' s'
  end.

Definition require (f : attribute_fields) (name : string) (required : list string) : list string :=
  if isRequired f then required ++ [name] else required.

Fixpoint processAttribute (s : acc) (a : IW3CAttributeValue) : result acc :=
  match a with
  | W3C f items properties =>
      let name := attributeName f in
      let required := require f name s.2 in
      let set p := (Json.set_field name (Json.JObj p) s.1, required) in
      if is_type f ["string"; "number"; "boolean"; "integer"] then
        p ← applyValidations f (baseProperty f); mret (set p)
      else if is_type f ["datetime-local"] then
        mret (set (Json.set_field "format" (Json.JStr "date-time") (Json.set_field "type" (Json.JStr "string") (baseProperty f))))
      else
        match is_type f ["array"], items with
        | true, Some its =>
            arrayItems ← fold_result (fun (st : acc) item =>
              match item with
              | W3C g _ iprops =>
                  let required := require g (attributeName g) st.2 in
                  match is_type g ["object"], iprops with
                  | true, Some ps =>
                      nested ← fold_result (fun (ns : acc) kp =>
                        match kp.2 with
                        | W3C h pitems _ =>
                            let nreq := require h (attributeName h) ns.2 in
                            match is_type h ["array"], pitems with
                            | true, Some its' =>
                                r ← fold_result processAttribute its' ([], []);
                                mret (Json.set_field (attributeName h)
                                  (Json.JObj (nestedBaseProperty h ++ [("items", items_schema r)])) ns.1, nreq)
                            | _, _ =>
                                p ← applyValidations h (nestedBaseProperty h);
                                mret (Json.set_field (attributeName h) (Json.JObj p) ns.1, nreq)
                            end
                        end) ps ([], []);
                      mret (Json.set_field (attributeName g)
                        (Json.JObj (with_required (base "object" (title_of g) (field_description g)
                           ++ [("properties", Json.JObj nested.1)]) nested.2)) st.1, required)
                  | _, _ =>
                      p ← applyValidations g (nestedBaseProperty g);
                      mret (Json.set_field (attributeName g) (Json.JObj p) st.1, required)
                  end
              end) its ([], []);
            p ← applyValidations f (baseProperty f ++ [("items", items_schema arrayItems)]);
            mret (set p)
        | _, _ =>
            match is_type f ["object"], properties with
            | true, Some ps =>
                nested ← fold_result (fun (ns : acc) kp =>
                  match kp.2 with
                  | W3C h pitems _ =>
                      let nreq := require h kp.1 ns.2 in
                      match is_type h ["array"], pitems with
                      | true, Some its' =>
                          r ← fold_result processAttribute its' ([], []);
                          p ← applyValidations h (Json.set_field "type" (Json.JStr "array") (nestedBaseProperty h) ++ [("items", items_schema r)]);
                          mret (Json.set_field (attributeName h) (Json.JObj p) ns.1, nreq)
                      | _, _ =>
                          p ← applyValidations h (nestedBaseProperty h);
                          mret (Json.set_field (attributeName h) (Json.JObj p) ns.1, nreq)
                      end
                  end) ps ([], []);
                mret (set (with_required (Json.set_field "type" (Json.JStr "object") (baseProperty f)
                  ++ [("properties", Json.JObj nested.1)]) nested.2))
            | _, _ => mret (s.1, required)
            end
        end
  end.

Definition processAttributes (attrs : list IW3CAttributeValue) : result acc := fold_result processAttribute attrs ([], []).
End builder.

#[local] Arguments is_type : simpl never.

(** ** The document *)

Definition str (s : string) : Json.value := Json.JStr s.
Definition uri_property : Json.value := Json.JObj [("type", str "string"); ("format", str "uri")].
Definition date_property : Json.value := Json.JObj [("type", str "string"); ("format", str "date-time")].
Definition reference (name : string) : Json.value := Json.JObj [("$ref", str ("#/$defs/" +:+ name))].

(** One or several references to [idAndType]. *)
Definition one_or_many : Json.value :=
  Json.JObj [("oneOf", Json.JArr [reference "idAndType";
    Json.JObj [("type", str "array"); ("items", reference "idAndType"); ("minItems", Json.JNum 1); ("uniqueItems", Json.JBool true)]])].

(** [s.replace(/\s+/g, '-')] *)
Fixpoint dash_spaces (in_space : bool) (s : string) : string :=
  match s with
  | EmptyString => EmptyString
  | String c s' =>
      if Str.is_space c then if in_space then dash_spaces true s' else String "-" (dash_spaces true s')
      else String c (dash_spaces false s')
  end.

Definition default_id (schemaName : string) : string :=
  "https://example.com/schemas/" +:+ dash_spaces false (Str.toLowerCase schemaName).

Definition definitions (properties : fields) (required : list string) : Json.value :=
  Json.JObj [
    ("context", Json.JObj [("type", str "array");
       ("prefixItems", Json.JArr [Json.JObj [("const", str "https://www.w3.org/2018/credentials/v1")]]);
       ("items", Json.JObj [("oneOf", Json.JArr [uri_property; Json.JObj [("type", str "object")];
          Json.JObj [("type", str "array"); ("items", Json.JBool false)]])]);
       ("minItems", Json.JNum 1); ("uniqueItems", Json.JBool true)]);
    ("credentialSubject", Json.JObj [("type", str "object"); ("required", names ("id" :: required));
       ("additionalProperties", Json.JBool false); ("properties", Json.JObj properties)]);
    ("credentialSchema", one_or_many);
    ("credentialStatus", one_or_many);
    ("idAndType", Json.JObj [("type", str "object"); ("required", names ["id"; "type"]);
       ("properties", Json.JObj [("id", uri_property); ("type", Json.JObj [("type", str "string")])])]);
    ("uriOrId", Json.JObj [("oneOf", Json.JArr [uri_property;
       Json.JObj [("type", str "object"); ("required", names ["id"]); ("properties", Json.JObj [("id", uri_property)])]])])].

Definition w3cSchemaBuilder `{R : RegExpSyntax} (attributes : list IW3CAttributeValue) (schemaName description : string)
    (schemaUrl : option string) : result fields :=
  '(processed, required) ← processAttributes attributes;
  let properties := Json.set_field "id" uri_property processed in
  mret [("$schema", str "https://json-schema.org/draft/2020-12/schema");
    ("$id", str (default (default_id schemaName) schemaUrl)); ("title", str schemaName); ("description", str description);
    ("type", str "object");
    ("required", names ["@context"; "issuer"; "issuanceDate"; "type"; "credentialSubject"]);
    ("properties", Json.JObj [("@context", reference "context");
       ("type", Json.JObj [("type", str "array"); ("items", Json.JObj [("anyOf", Json.JArr
          [Json.JObj [("const", str "VerifiableCredential")]; Json.JObj [("const", str schemaName)]])])]);
       ("credentialSubject", reference "credentialSubject"); ("id", uri_property); ("issuer", reference "uriOrId");
       ("issuanceDate", date_property); ("expirationDate", date_property);
       ("credentialStatus", reference "credentialStatus"); ("credentialSchema", reference "credentialSchema")]);
    ("$defs", definitions properties required)].

(** ** What is required is declared *)

(** The attributes for which [processAttributes] writes a property. *)
Definition supported (a : IW3CAttributeValue) : bool :=
  let f := fields_of a in
  is_type f ["string"; "number"; "boolean"; "integer"; "datetime-local"]
  || (is_type f ["array"] && bool_decide (is_Some (items_of a)))
  || (is_type f ["object"] && bool_decide (is_Some (properties_of a))).

Lemma set_field_keys k v o x : x ∈ (Json.set_field k v o).*1 <-> x = k \/ x ∈ o.*1.
Proof.
  induction o as [|[k' v'] o IH]; simpl; [rewrite !elem_of_cons; naive_solver|].
  destruct (String.eqb_spec k k') as [->|]; simpl; rewrite !elem_of_cons; [naive_solver|]. rewrite IH. naive_solver.
Qed.

Section declared.
Context {R : RegExpSyntax}.

(** An attribute adds its name to the properties and, when required, to the required names. *)
Definition adds (a : IW3CAttributeValue) (s s' : acc) : Prop :=
  s'.2 = require (fields_of a) (attributeName (fields_of a)) s.2 /\
  (s'.1 = s.1 /\ supported a = false \/
   exists p, s'.1 = Json.set_field (attributeName (fields_of a)) (Json.JObj p) s.1 /\ supported a = true).

Lemma basic_types f : is_type f ["string"; "number"; "boolean"; "integer"; "datetime-local"] =
  is_type f ["string"; "number"; "boolean"; "integer"] || is_type f ["datetime-local"].
Proof. unfold is_type. simpl. by rewrite !orb_false_r, !orb_assoc. Qed.

Lemma processAttribute_adds s a s' : processAttribute s a = Ok s' -> adds a s s'.
Proof.
  destruct a as [f items properties]. unfold adds, supported. cbn [fields_of items_of properties_of].
  rewrite basic_types. intros H. simpl in H.
  destruct (is_type f ["string"; "number"; "boolean"; "integer"]); cbn [orb].
  { apply result_bind_ok in H as (p & _ & H). injection H as <-. split; [done|]. right. by exists p. }
  destruct (is_type f ["datetime-local"]); cbn [orb].
  { injection H as <-. split; [done|]. right. by eexists. }
  destruct (is_type f ["array"]) eqn:Ha; [destruct items as [its|]|].
  { apply result_bind_ok in H as (its' & _ & H). apply result_bind_ok in H as (p & _ & H). injection H as <-.
    split; [done|]. right. exists p. by rewrite bool_decide_true. }
  all: rewrite ?andb_false_l, ?(bool_decide_false (is_Some None)) by (intros [? [=]]); cbn [andb orb].
  all: destruct (is_type f ["object"]); [destruct properties as [ps|]|].
  all: try (apply result_bind_ok in H as (nested & _ & H)); injection H as <-; (split; [done|]).
  all: try (right; eexists; split; [done|]; by rewrite bool_decide_true).
  all: left; split; [done|]; rewrite ?bool_decide_false by (intros [? [=]]); done.
Qed.

Lemma process_declared attrs s s' :
  Forall (fun a => supported a = true) attrs -> (forall x, x ∈ s.2 -> x ∈ s.1.*1) ->
  fold_result processAttribute attrs s = Ok s' -> forall x, x ∈ s'.2 -> x ∈ s'.1.*1.
Proof.
  intros Hs. revert s. induction Hs as [|a attrs Ha _ IH]; intros s Hin H; simpl in H; [by injection H as <-|].
  apply result_bind_ok in H as (s1 & H1 & H). apply processAttribute_adds in H1 as [Hreq [[_ Hno]|(p & Hp & _)]]; [congruence|].
  eapply IH; [|exact H]. intros x Hx. rewrite Hp, set_field_keys. rewrite Hreq in Hx. unfold require in Hx.
  destruct (isRequired _); [|by right; apply Hin]. apply elem_of_app in Hx as [Hx|Hx]; [by right; apply Hin|].
  left. by apply list_elem_of_singleton in Hx.
Qed.

(** The names a built document requires of the credential subject, and those it declares. *)
Definition subject (schema : fields) : option Json.value := Json.field "$defs" schema ≫= Json.get "credentialSubject".
Definition subject_required (schema : fields) : list string :=
  match subject schema ≫= Json.get "required" with
  | Some (Json.JArr vs) => omap (fun v => Json.as_str (Some v)) vs
  | _ => []
  end.
Definition subject_declared (schema : fields) : list string :=
  match subject schema ≫= Json.get "properties" with
  | Some (Json.JObj ps) => ps.*1
  | _ => []
  end.

Lemma as_str_names l : omap (fun v => Json.as_str (Some v)) (map Json.JStr l) = l.
Proof. induction l as [|x l IH]; simpl; [done | by f_equal]. Qed.

(** When every attribute has a type the builder writes a property for, whatever the subject of
    the document is required to have is declared, so that a credential can satisfy it
    although undeclared properties are refused. *)
Theorem w3c_required_declared attrs name desc url schema :
  w3cSchemaBuilder attrs name desc url = Ok schema -> Forall (fun a => supported a = true) attrs ->
  forall x, x ∈ subject_required schema -> x ∈ subject_declared schema.
Proof.
  unfold w3cSchemaBuilder. intros H Hs x. apply result_bind_ok in H as ([processed required] & Hp & H).
  injection H as <-. unfold subject_required, subject_declared, subject. simpl. rewrite as_str_names, set_field_keys.
  intros [->|Hx]%elem_of_cons; [by left|]. right.
  apply (process_declared attrs ([], []) (processed, required) Hs); [|done|done].
  intros y Hy. by apply elem_of_nil in Hy.
Qed.
End declared.

(** ** Evaluation *)

Module W3cSample.
#[local] Instance any_regexp : RegExpSyntax := {| valid_regexp _ := true |}.

Definition plain (name type : string) : attribute_fields :=
  Fields name type (Some name) true None None None None None None None None None None None None.

Definition attrs : list IW3CAttributeValue :=
  [W3C (plain "age" "Integer") None None;
   W3C (plain "tags" "array") (Some [W3C (plain "tag" "string") None None]) None].

Definition build (l : list IW3CAttributeValue) : result fields := w3cSchemaBuilder l "My  Schema" "d" None.

Example w3c_required_declared_witness : exists s, build attrs = Ok s /\ "tags" ∈ subject_declared s.
Proof.
  eexists. split; [vm_compute; reflexivity|].
  apply (w3c_required_declared attrs "My  Schema" "d" None).
  - vm_compute. reflexivity.
  - repeat constructor.
  - apply (bool_decide_unpack _). vm_compute. exact I.
Defined.

(** A required array without items is required but not declared: no subject satisfies the
    document. *)
Example unsatisfiable_schema : exists s, build [W3C (plain "tags" "array") None None] = Ok s /\
  subject_required s = ["id"; "tags"] /\ subject_declared s = ["id"].
Proof. eexists. split; [vm_compute; reflexivity|]. split; reflexivity. Qed.
End W3cSample.
