(* ===== verification/StatusList.v ===== *)
(** * Credential status lists

    [Bitmap] models [RandomBitmapIndexAllocator] and [Service] models
    [StatusListAllocatorService] of
    [src/apps/oid4vc-issuance/src/status-list-allocator.service.ts]. *)

From S2P Require Import Prelude Js.

Open Scope Z_scope.

(** Node's [crypto.randomInt(max)]: the [k]-th draw is an integer of [0, max). *)
Class RandomSource := {
  randomInt : nat -> Z -> Z;
  randomInt_range : forall k n, 0 < n -> 0 <= randomInt k n < n;
}.

Module Bitmap.

Record allocator := Allocator {
  capacity : Z;
  bitmap : list Z;         (* a [Uint8Array] *)
  allocatedCount : Z;
}.

(** [byte.toString(2).split('1').length - 1] *)
Fixpoint pos_ones (p : positive) : Z :=
  match p with
  | xH => 1
  | xO p' => pos_ones p'
  | xI p' => 1 + pos_ones p'
  end.

Definition popcount (byte : Z) : Z :=
  match byte with Zpos p => pos_ones p | _ => 0 end.

Fixpoint count_bytes (bm : list Z) (acc : Z) : Z :=
  match bm with
  | [] => acc
  | byte :: bm' => count_bytes bm' (if byte =? 0 then acc else acc + popcount byte)
  end.

Definition ceil_div8 (n : Z) : Z := (n + 7) / 8.

Definition zero_bytes (n : Z) : list Z := replicate (Z.to_nat n) 0.

(** [new RandomBitmapIndexAllocator(capacity, existing)] *)
Definition make (cap : Z) (existing : option (list Z)) : allocator :=
  let bm := match existing with Some e => e | None => zero_bytes (ceil_div8 cap) end in
  Allocator cap bm (count_bytes bm 0).

(** An element past the end of a typed array reads as [undefined], which the
    bitwise operators take as 0. *)
Definition byte_at (bm : list Z) (i : Z) : Z := default 0 (bm !! Z.to_nat i).

Definition isSet_in (bm : list Z) (index : Z) : bool :=
  let byteIndex := Z.shiftr index 3 in
  let bit := Z.land index 7 in
  negb (Z.land (byte_at bm byteIndex) (Z.shiftl 1 bit) =? 0).

Definition isSet (a : allocator) (index : Z) : bool := isSet_in (bitmap a) index.

(** Stores through a typed array: past the end they are ignored, and the
    value is reduced modulo 256. *)
Definition set_in (bm : list Z) (index : Z) : list Z :=
  let byteIndex := Z.shiftr index 3 in
  let bit := Z.land index 7 in
  alter (fun b => Z.lor b (Z.shiftl 1 bit) mod 256) (Z.to_nat byteIndex) bm.

Definition clear_in (bm : list Z) (index : Z) : list Z :=
  let byteIndex := Z.shiftr index 3 in
  let bit := Z.land index 7 in
  alter (fun b => Z.land b (Z.lnot (Z.shiftl 1 bit)) mod 256) (Z.to_nat byteIndex) bm.

Definition no_indexes_left : exn := js_error "No indexes left".

(** [this.set(idx); this.allocatedCount++] *)
Definition take_index (a : allocator) (idx : Z) : allocator :=
  Allocator (capacity a) (set_in (bitmap a) idx) (allocatedCount a + 1).

Section allocate.
Context `{RandomSource}.

(** The first loop of [allocate]: [n] attempts from draw [k] on. *)
Fixpoint random_attempts (a : allocator) (k n : nat) : option Z :=
  match n with
  | O => None
  | S n' =>
      let idx := randomInt k (capacity a) in
      if isSet a idx then random_attempts a (S k) n' else Some idx
  end.

(** The scan of one byte: [for (let bit = 8 - n; 8 > bit; bit++)]. *)
Fixpoint sweep_bits (a : allocator) (byteIdx : Z) (n : nat) : option Z :=
  match n with
  | O => None
  | S n' =>
      let idx := Z.shiftl byteIdx 3 + (8 - Z.of_nat n) in
      if (idx <? capacity a) && negb (isSet a idx) then Some idx
      else sweep_bits a byteIdx n'
  end.

(** The scan of the bytes: [for (let i = len - n; i < len; i++)]. *)
Fixpoint sweep_bytes (a : allocator) (startByte : Z) (n : nat) : option Z :=
  match n with
  | O => None
  | S n' =>
      let len := Z.of_nat (length (bitmap a)) in
      let byteIdx := (startByte + (len - Z.of_nat n)) mod len in
      match (if byte_at (bitmap a) byteIdx =? 255 then None else sweep_bits a byteIdx 8) with
      | Some idx => Some idx
      | None => sweep_bytes a startByte n'
      end
  end.

(** [seed] is the number of draws made before the call. *)
Definition allocate (seed : nat) (a : allocator) : result (Z * allocator) :=
  if allocatedCount a =? capacity a then Throw no_indexes_left
  else match random_attempts a seed 32 with
  | Some idx => Ok (idx, take_index a idx)
  | None =>
      let startByte := randomInt (seed + 32) (Z.of_nat (length (bitmap a))) in
      match sweep_bytes a startByte (length (bitmap a)) with
      | Some idx => Ok (idx, take_index a idx)
      | None => Throw no_indexes_left
      end
  end.
End allocate.

Definition invalid_index : exn := js_error "Invalid index".

Definition out_of_range (a : allocator) (index : Z) : bool :=
  (index <? 0) || (capacity a <=? index).

Definition isIndexAllocated (a : allocator) (index : Z) : result bool :=
  if out_of_range a index then Throw invalid_index else Ok (isSet a index).

Definition release (a : allocator) (index : Z) : result allocator :=
  if out_of_range a index then Throw invalid_index
  else if isSet a index
  then Ok (Allocator (capacity a) (clear_in (bitmap a) index) (allocatedCount a - 1))
  else Ok a.

(** ** The abstract state: the set of allocated indexes *)

Definition allocated (a : allocator) : gset Z :=
  list_to_set (filter (fun i => isSet a i = true) (seqZ 0 (capacity a))).

Record wf (a : allocator) : Prop := {
  wf_capacity : 0 <= capacity a;
  wf_length : Z.of_nat (length (bitmap a)) = ceil_div8 (capacity a);
  wf_bytes : Forall (fun b => 0 <= b < 256) (bitmap a);
  wf_padding : forall i, capacity a <= i < 8 * Z.of_nat (length (bitmap a)) -> isSet a i = false;
  wf_count : allocatedCount a = count_bytes (bitmap a) 0;
}.

(** *** Bits of a byte *)

Lemma index_split i : i = 8 * Z.shiftr i 3 + Z.land i 7.
Proof.
  rewrite Z.shiftr_div_pow2 by lia. change 7 with (Z.ones 3).
  rewrite Z.land_ones by lia. change (2 ^ 3) with 8. pose proof (Z.div_mod i 8). lia.
Qed.

Lemma bit_range i : 0 <= Z.land i 7 < 8.
Proof. change 7 with (Z.ones 3). rewrite Z.land_ones by lia. apply Z.mod_pos_bound. lia. Qed.

Lemma split_unique q r i : i = 8 * q + r -> 0 <= r < 8 -> Z.shiftr i 3 = q /\ Z.land i 7 = r.
Proof. pose proof (index_split i). pose proof (bit_range i). lia. Qed.

Lemma land_shiftl_1 b k : 0 <= k -> negb (Z.land b (Z.shiftl 1 k) =? 0) = Z.testbit b k.
Proof.
  intros Hk. replace (Z.land b (Z.shiftl 1 k)) with (if Z.testbit b k then Z.shiftl 1 k else 0).
  - rewrite Z.shiftl_1_l. pose proof (Z.pow_pos_nonneg 2 k). destruct (Z.testbit b k); simpl; lia.
  - apply Z.bits_inj'. intros n Hn. rewrite Z.land_spec, Z.shiftl_1_l.
    destruct (decide (n = k)) as [->|Hne].
    + rewrite Z.pow2_bits_true by lia. destruct (Z.testbit b k); simpl.
      * by rewrite Z.pow2_bits_true.
      * by rewrite Z.bits_0.
    + rewrite Z.pow2_bits_false, andb_false_r by lia. destruct (Z.testbit b k); simpl.
      * by rewrite Z.pow2_bits_false.
      * by rewrite Z.bits_0.
Qed.

Lemma isSet_testbit bm i : isSet_in bm i = Z.testbit (byte_at bm (Z.shiftr i 3)) (Z.land i 7).
Proof. unfold isSet_in. apply land_shiftl_1, bit_range. Qed.

(** Facts on a byte and a bit, checked on all of them. *)
Definition all_bytes (f : Z -> Z -> bool) : bool :=
  forallb (fun b => forallb (f b) (seqZ 0 8)) (seqZ 0 256).

Lemma all_bytes_spec f b k :
  all_bytes f = true -> 0 <= b < 256 -> 0 <= k < 8 -> f b k = true.
Proof.
  unfold all_bytes. rewrite forallb_forall. intros Hall Hb Hk.
  assert (Hin : forallb (f b) (seqZ 0 8) = true).
  { apply Hall, list_elem_of_In, elem_of_seqZ. lia. }
  rewrite forallb_forall in Hin. apply Hin, list_elem_of_In, elem_of_seqZ. lia.
Qed.

Definition byte_set (b k : Z) : Z := Z.lor b (Z.shiftl 1 k) mod 256.
Definition byte_clear (b k : Z) : Z := Z.land b (Z.lnot (Z.shiftl 1 k)) mod 256.

Definition byte_facts (b k : Z) : bool :=
  (0 <=? byte_set b k) && (byte_set b k <? 256) && (0 <=? byte_clear b k) && (byte_clear b k <? 256)
  && (popcount (byte_set b k) =? popcount b + (if Z.testbit b k then 0 else 1))
  && (popcount (byte_clear b k) =? popcount b - (if Z.testbit b k then 1 else 0))
  && forallb (fun j => Bool.eqb (Z.testbit (byte_set b k) j) ((j =? k) || Z.testbit b j)) (seqZ 0 8)
  && forallb (fun j => Bool.eqb (Z.testbit (byte_clear b k) j) (negb (j =? k) && Z.testbit b j)) (seqZ 0 8)
  && (popcount b =? Z.of_nat (length (filter (fun j => Z.testbit b j = true) (seqZ 0 8))))
  && ((b =? 255) || negb (forallb (Z.testbit b) (seqZ 0 8))).

Lemma byte_facts_hold b k : 0 <= b < 256 -> 0 <= k < 8 -> byte_facts b k = true.
Proof. apply all_bytes_spec. vm_compute. reflexivity. Qed.

Lemma byte_at_range bm i : Forall (fun b => 0 <= b < 256) bm -> 0 <= byte_at bm i < 256.
Proof.
  intros H. unfold byte_at. destruct (bm !! Z.to_nat i) as [b|] eqn:E; simpl; [|lia].
  rewrite Forall_lookup in H. eauto.
Qed.

Lemma byte_set_range b k : 0 <= b < 256 -> 0 <= k < 8 -> 0 <= byte_set b k < 256.
Proof. intros Hb Hk. pose proof (byte_facts_hold b k Hb Hk) as F. unfold byte_facts in F. lia. Qed.

Lemma byte_clear_range b k : 0 <= b < 256 -> 0 <= k < 8 -> 0 <= byte_clear b k < 256.
Proof. intros Hb Hk. pose proof (byte_facts_hold b k Hb Hk) as F. unfold byte_facts in F. lia. Qed.

Lemma forallb_bits f j : forallb f (seqZ 0 8) = true -> 0 <= j < 8 -> f j = true.
Proof. rewrite forallb_forall. intros H Hj. apply H, list_elem_of_In, elem_of_seqZ. lia. Qed.

Lemma byte_set_bit b k j :
  0 <= b < 256 -> 0 <= k < 8 -> 0 <= j < 8 -> Z.testbit (byte_set b k) j = (j =? k) || Z.testbit b j.
Proof.
  intros Hb Hk Hj. pose proof (byte_facts_hold b k Hb Hk) as F. unfold byte_facts in F.
  repeat (apply andb_true_iff in F as [F ?]). apply eqb_prop.
  by apply (forallb_bits (fun j => Bool.eqb (Z.testbit (byte_set b k) j) ((j =? k) || Z.testbit b j))).
Qed.

Lemma byte_clear_bit b k j :
  0 <= b < 256 -> 0 <= k < 8 -> 0 <= j < 8 -> Z.testbit (byte_clear b k) j = negb (j =? k) && Z.testbit b j.
Proof.
  intros Hb Hk Hj. pose proof (byte_facts_hold b k Hb Hk) as F. unfold byte_facts in F.
  repeat (apply andb_true_iff in F as [F ?]). apply eqb_prop.
  by apply (forallb_bits (fun j => Bool.eqb (Z.testbit (byte_clear b k) j) (negb (j =? k) && Z.testbit b j))).
Qed.

Lemma popcount_byte_set b k :
  0 <= b < 256 -> 0 <= k < 8 -> popcount (byte_set b k) = popcount b + (if Z.testbit b k then 0 else 1).
Proof. intros Hb Hk. pose proof (byte_facts_hold b k Hb Hk) as F. unfold byte_facts in F. lia. Qed.

Lemma popcount_byte_clear b k :
  0 <= b < 256 -> 0 <= k < 8 -> popcount (byte_clear b k) = popcount b - (if Z.testbit b k then 1 else 0).
Proof. intros Hb Hk. pose proof (byte_facts_hold b k Hb Hk) as F. unfold byte_facts in F. lia. Qed.

Lemma popcount_bits b :
  0 <= b < 256 -> popcount b = Z.of_nat (length (filter (fun j => Z.testbit b j = true) (seqZ 0 8))).
Proof. intros Hb. pose proof (byte_facts_hold b 0 Hb ltac:(lia)) as F. unfold byte_facts in F. lia. Qed.

(** *** Stores on the bitmap *)

Section stores.
Variables (bm : list Z) (i : Z).
Hypothesis Hbytes : Forall (fun b => 0 <= b < 256) bm.
Hypothesis Hi : 0 <= i < 8 * Z.of_nat (length bm).

Lemma store_index : (Z.to_nat (Z.shiftr i 3) < length bm)%nat.
Proof using Hi. pose proof (index_split i). pose proof (bit_range i). lia. Qed.

Lemma store_lookup : bm !! Z.to_nat (Z.shiftr i 3) = Some (byte_at bm (Z.shiftr i 3)).
Proof using Hi.
  unfold byte_at. destruct (lookup_lt_is_Some_2 _ _ store_index) as [b Hb]. by rewrite Hb.
Qed.

Lemma byte_at_alter f j :
  0 <= j ->
  byte_at (alter f (Z.to_nat (Z.shiftr i 3)) bm) j =
  if decide (j = Z.shiftr i 3) then f (byte_at bm j) else byte_at bm j.
Proof using Hi.
  intros Hj. unfold byte_at. case_decide as E.
  - subst. rewrite list_lookup_alter_eq, store_lookup. done.
  - rewrite list_lookup_alter_ne; [done|]. pose proof (index_split i). pose proof (bit_range i). lia.
Qed.

Lemma Forall_alter_store f :
  (forall b, 0 <= b < 256 -> 0 <= f b < 256) ->
  Forall (fun b => 0 <= b < 256) (alter f (Z.to_nat (Z.shiftr i 3)) bm).
Proof using Hbytes. intros Hf. apply Forall_alter; [done|]. intros. by apply Hf. Qed.

Lemma isSet_set_in j : 0 <= j -> isSet_in (set_in bm i) j = (j =? i) || isSet_in bm j.
Proof using Hbytes Hi.
  intros Hj. rewrite !isSet_testbit. unfold set_in.
  pose proof (index_split i). pose proof (index_split j).
  pose proof (bit_range i). pose proof (bit_range j).
  rewrite byte_at_alter by lia. case_decide as E.
  - rewrite (byte_set_bit (byte_at bm (Z.shiftr j 3)) (Z.land i 7)) by auto using byte_at_range.
    f_equal. lia.
  - replace (j =? i) with false by lia. done.
Qed.

Lemma isSet_clear_in j : 0 <= j -> isSet_in (clear_in bm i) j = negb (j =? i) && isSet_in bm j.
Proof using Hbytes Hi.
  intros Hj. rewrite !isSet_testbit. unfold clear_in.
  pose proof (index_split i). pose proof (index_split j).
  pose proof (bit_range i). pose proof (bit_range j).
  rewrite byte_at_alter by lia. case_decide as E.
  - rewrite (byte_clear_bit (byte_at bm (Z.shiftr j 3)) (Z.land i 7)) by auto using byte_at_range.
    f_equal. lia.
  - replace (j =? i) with false by lia. done.
Qed.
End stores.

(** *** The count *)

Definition total (bm : list Z) : Z := foldr (fun b acc => popcount b + acc) 0 bm.

Lemma count_bytes_total bm acc : count_bytes bm acc = acc + total bm.
Proof.
  revert acc. induction bm as [|b bm IH]; intros acc; simpl; [lia|]. rewrite IH.
  destruct (Z.eqb_spec b 0) as [->|]; simpl; lia.
Qed.

Lemma total_alter bm f n b :
  bm !! n = Some b -> total (alter f n bm) = total bm + popcount (f b) - popcount b.
Proof.
  revert n. induction bm as [|c bm IH]; intros [|n] H; simplify_eq/=; [lia|].
  rewrite IH by done. lia.
Qed.

Lemma total_set_in bm i :
  Forall (fun b => 0 <= b < 256) bm -> 0 <= i < 8 * Z.of_nat (length bm) ->
  total (set_in bm i) = total bm + (if isSet_in bm i then 0 else 1).
Proof.
  intros Hb Hi. unfold set_in. erewrite total_alter by by apply store_lookup.
  pose proof (popcount_byte_set (byte_at bm (Z.shiftr i 3)) (Z.land i 7)
                (byte_at_range _ _ Hb) (bit_range i)) as Hp.
  unfold byte_set in Hp. rewrite isSet_testbit. lia.
Qed.

Lemma total_clear_in bm i :
  Forall (fun b => 0 <= b < 256) bm -> 0 <= i < 8 * Z.of_nat (length bm) ->
  total (clear_in bm i) = total bm - (if isSet_in bm i then 1 else 0).
Proof.
  intros Hb Hi. unfold clear_in. erewrite total_alter by by apply store_lookup.
  pose proof (popcount_byte_clear (byte_at bm (Z.shiftr i 3)) (Z.land i 7)
                (byte_at_range _ _ Hb) (bit_range i)) as Hp.
  unfold byte_clear in Hp. rewrite isSet_testbit. lia.
Qed.

(** [allocatedCount] is the number of set bits. *)
Lemma total_filter bm :
  Forall (fun b => 0 <= b < 256) bm ->
  total bm = Z.of_nat (length (filter (fun i => isSet_in bm i = true) (seqZ 0 (8 * Z.of_nat (length bm))))).
Proof.
  induction 1 as [|b bm Hb Hbm IH]; [done|]. simpl total.
  replace (8 * Z.of_nat (length (b :: bm))) with (8 + 8 * Z.of_nat (length bm)) by (simpl; lia).
  rewrite seqZ_app, filter_app, length_app, Nat2Z.inj_add by lia. f_equal.
  - rewrite popcount_bits by done. f_equal. apply filter_ext_length. intros j Hj%elem_of_seqZ.
    rewrite isSet_testbit. destruct (split_unique 0 j j) as [-> ->]; [lia..|done].
  - rewrite IH. f_equal. rewrite <- (fmap_add_seqZ 8 0), filter_fmap_length.
    apply filter_ext_length. intros j Hj%elem_of_seqZ. simpl. rewrite !isSet_testbit.
    pose proof (index_split j). pose proof (bit_range j).
    destruct (split_unique (1 + Z.shiftr j 3) (Z.land j 7) (8 + j)) as [-> ->]; [lia..|].
    unfold byte_at. replace (Z.to_nat (1 + Z.shiftr j 3)) with (S (Z.to_nat (Z.shiftr j 3))) by lia. done.
Qed.

(** *** Laws of the operations *)

Lemma elem_of_allocated a i : i ∈ allocated a <-> 0 <= i < capacity a /\ isSet a i = true.
Proof. unfold allocated. rewrite elem_of_list_to_set, list_elem_of_filter, elem_of_seqZ, Z.add_0_l. tauto. Qed.

Lemma not_allocated a i : isSet a i = false -> i ∉ allocated a.
Proof. rewrite elem_of_allocated. intros Hf [_ Ht]. congruence. Qed.

Lemma capacity_le a : wf a -> capacity a <= 8 * Z.of_nat (length (bitmap a)) < capacity a + 8.
Proof. intros W. rewrite (wf_length _ W). unfold ceil_div8. pose proof (Z.div_mod (capacity a + 7) 8). pose proof (Z.mod_pos_bound (capacity a + 7) 8). lia. Qed.

Lemma total_allocated a : wf a -> total (bitmap a) = Z.of_nat (size (allocated a)).
Proof.
  intros W. pose proof (capacity_le a W) as Hcap. pose proof (wf_capacity a W).
  unfold allocated. rewrite size_list_to_set by (apply NoDup_filter, NoDup_seqZ).
  rewrite total_filter by apply W.
  replace (8 * Z.of_nat (length (bitmap a)))
    with (capacity a + (8 * Z.of_nat (length (bitmap a)) - capacity a)) by lia.
  rewrite seqZ_app, filter_app, length_app by lia.
  rewrite (filter_none _ (seqZ (0 + capacity a) _)); [cbn [length]; by rewrite Nat.add_0_r|].
  intros i Hi%elem_of_seqZ Hs. pose proof (wf_padding a W i ltac:(lia)). unfold isSet in *. congruence.
Qed.

Lemma count_allocated a : wf a -> allocatedCount a = Z.of_nat (size (allocated a)).
Proof. intros W. rewrite (wf_count a W), count_bytes_total, total_allocated by done. lia. Qed.

Lemma zero_bytes_unset n i : isSet_in (zero_bytes n) i = false.
Proof.
  rewrite isSet_testbit. unfold byte_at, zero_bytes.
  destruct (replicate _ _ !! _) as [b|] eqn:E; simpl; [|apply Z.bits_0].
  apply lookup_replicate in E as [-> _]. apply Z.bits_0.
Qed.

Lemma total_zero_bytes n : total (zero_bytes n) = 0.
Proof. unfold zero_bytes. induction (Z.to_nat n); simpl; lia. Qed.

Lemma ceil_div8_nonneg n : 0 <= n -> 0 <= ceil_div8 n.
Proof. intros. apply Z.div_pos; lia. Qed.

Lemma make_empty cap : 0 <= cap -> wf (make cap None) /\ allocated (make cap None) = ∅.
Proof.
  intros Hcap. split; [constructor; simpl|].
  - done.
  - unfold zero_bytes. rewrite length_replicate. pose proof (ceil_div8_nonneg cap Hcap). lia.
  - apply Forall_replicate. lia.
  - intros. apply zero_bytes_unset.
  - done.
  - apply set_eq. intros i. rewrite elem_of_allocated. unfold isSet. simpl. rewrite zero_bytes_unset. set_solver.
Qed.

(** The constructor applied to the exported bitmap rebuilds the allocator. *)
Lemma make_export a : wf a -> make (capacity a) (Some (bitmap a)) = a.
Proof. intros W. destruct a as [c bm n]. unfold make. simpl. f_equal. symmetry. apply (wf_count _ W). Qed.

Lemma take_index_spec a i :
  wf a -> 0 <= i < capacity a -> isSet a i = false ->
  wf (take_index a i) /\ allocated (take_index a i) = {[i]} ∪ allocated a.
Proof.
  intros W Hi Hfree. pose proof (capacity_le a W) as Hcap. pose proof (wf_bytes a W) as Hb.
  assert (Hset : forall j, 0 <= j -> isSet (take_index a i) j = (j =? i) || isSet a j).
  { intros j Hj. unfold isSet. simpl. apply isSet_set_in; [done|lia|done]. }
  split; [constructor; simpl|].
  - apply W.
  - unfold set_in. rewrite length_alter. apply W.
  - unfold set_in. apply Forall_alter_store; [done|]. intros b Hb'. apply byte_set_range; [done|]. apply bit_range.
  - unfold set_in. rewrite length_alter. intros j Hj. rewrite Hset by lia. rewrite (wf_padding a W j) by done. lia.
  - rewrite count_bytes_total, total_set_in by (done || lia). rewrite (wf_count a W), count_bytes_total.
    unfold isSet in Hfree. rewrite Hfree. lia.
  - apply set_eq. intros j. rewrite elem_of_union, elem_of_singleton, !elem_of_allocated.
    change (capacity (take_index a i)) with (capacity a).
    split.
    + intros [Hj Hs]. rewrite Hset in Hs by lia. destruct (Z.eqb_spec j i); naive_solver.
    + intros [->|[Hj Hs]]; (split; [done|]); rewrite Hset by lia; [by rewrite Z.eqb_refl|by rewrite Hs, orb_true_r].
Qed.

Section allocate_laws.
Context `{RandomSource}.

Lemma shl3 q : Z.shiftl q 3 = 8 * q.
Proof. rewrite Z.shiftl_mul_pow2 by lia. lia. Qed.

Lemma random_attempts_free a k n i :
  0 < capacity a -> random_attempts a k n = Some i -> 0 <= i < capacity a /\ isSet a i = false.
Proof.
  intros Hc. revert k. induction n as [|n IH]; intros k Hr; simplify_eq/=.
  destruct (isSet a (randomInt k (capacity a))) eqn:E; [by apply (IH (S k))|].
  simplify_eq. split; [by apply randomInt_range|done].
Qed.

Lemma sweep_bits_free a q n i :
  0 <= q -> (n <= 8)%nat -> sweep_bits a q n = Some i -> 0 <= i < capacity a /\ isSet a i = false.
Proof.
  intros Hq Hn. induction n as [|n IH]; intros Hr; simplify_eq/=. case_match eqn:E.
  - simplify_eq. rewrite shl3 in *. apply andb_true_iff in E as [E1%Z.ltb_lt E2%negb_true_iff].
    clear IH. split; [lia|done].
  - apply IH; [lia|done].
Qed.

Lemma sweep_bytes_free a s n i :
  (0 < length (bitmap a))%nat -> sweep_bytes a s n = Some i -> 0 <= i < capacity a /\ isSet a i = false.
Proof.
  intros Hlen. induction n as [|n IH]; intros Hr; [done|]. cbn -[Z.of_nat sweep_bits] in Hr.
  case_match eqn:E; [|by apply IH]. case_match; simplify_eq.
  eapply sweep_bits_free; [| |done]; [|done]. apply Z.mod_pos_bound. lia.
Qed.

Lemma sweep_bits_none a q n i :
  0 <= q -> (n <= 8)%nat -> sweep_bits a q n = None ->
  8 * q + 8 - Z.of_nat n <= i < 8 * q + 8 -> i < capacity a -> isSet a i = true.
Proof.
  intros Hq Hn. induction n as [|n IH]; intros Hr Hi Hc; [lia|]. cbn -[Z.of_nat] in Hr.
  rewrite shl3 in Hr. case_match eqn:E; [done|].
  destruct (decide (i = 8 * q + (8 - Z.of_nat (S n)))) as [->|Hne].
  - destruct (isSet a _); [done|]. cbn [negb] in E. rewrite andb_true_r in E. apply Z.ltb_ge in E. lia.
  - apply IH; [lia|done|lia|done].
Qed.

Lemma full_byte q i bm :
  0 <= q -> byte_at bm q = 255 -> 8 * q <= i < 8 * q + 8 -> isSet_in bm i = true.
Proof.
  intros Hq Hb Hi. rewrite isSet_testbit. destruct (split_unique q (i - 8 * q) i) as [-> ->]; [lia..|].
  rewrite Hb. apply (forallb_bits (Z.testbit 255)); [done|lia].
Qed.

Lemma sweep_bytes_none a s n q i :
  (n <= length (bitmap a))%nat -> sweep_bytes a s n = None ->
  (exists k, Z.of_nat (length (bitmap a)) - Z.of_nat n <= k < Z.of_nat (length (bitmap a)) /\
     q = (s + k) mod Z.of_nat (length (bitmap a))) ->
  8 * q <= i < 8 * q + 8 -> i < capacity a -> isSet a i = true.
Proof.
  induction n as [|n IH]; intros Hn Hr [k [Hk Hq]] Hi Hc; [lia|]. cbn -[Z.of_nat sweep_bits] in Hr.
  case_match eqn:E; [done|].
  destruct (decide (k = Z.of_nat (length (bitmap a)) - Z.of_nat (S n))) as [->|Hne].
  - rewrite <- Hq in E. assert (0 <= q) by (rewrite Hq; apply Z.mod_pos_bound; lia).
    destruct (byte_at (bitmap a) q =? 255) eqn:E255.
    + apply (full_byte q); [done|lia|done].
    + eapply sweep_bits_none; [| |done|..]; [done|done|lia|done].
  - apply IH; [lia|done| |done|done]. exists k. split; [lia|done].
Qed.

(** Every byte is visited by the circular scan. *)
Lemma sweep_covers s len q : 0 < len -> 0 <= q < len -> exists k, 0 <= k < len /\ q = (s + k) mod len.
Proof.
  intros Hl Hq. exists ((q - s) mod len). split; [by apply Z.mod_pos_bound|].
  rewrite Z.add_mod_idemp_r by lia. replace (s + (q - s)) with q by lia. by rewrite Z.mod_small.
Qed.

Lemma sweep_none_full a s i :
  wf a -> sweep_bytes a s (length (bitmap a)) = None -> 0 <= i < capacity a -> isSet a i = true.
Proof.
  intros W Hr Hi. pose proof (capacity_le a W). pose proof (index_split i). pose proof (bit_range i).
  apply (sweep_bytes_none a s (length (bitmap a)) (Z.shiftr i 3)); [lia|done| |lia|lia].
  destruct (sweep_covers s (Z.of_nat (length (bitmap a))) (Z.shiftr i 3)) as [k Hk]; [lia..|].
  exists k. intuition lia.
Qed.

Lemma all_set_full a :
  wf a -> (forall i, 0 <= i < capacity a -> isSet a i = true) -> allocatedCount a = capacity a.
Proof.
  intros W Hall. rewrite count_allocated by done. unfold allocated.
  rewrite size_list_to_set by (apply NoDup_filter, NoDup_seqZ).
  rewrite filter_every.
  - rewrite length_seqZ. pose proof (wf_capacity a W). lia.
  - intros i Hi%elem_of_seqZ. apply Hall. lia.
Qed.

Lemma allocate_spec seed a :
  wf a ->
  match allocate seed a with
  | Ok (i, a') => 0 <= i < capacity a /\ (i ∉ allocated a) /\ a' = take_index a i
  | Throw e => e = no_indexes_left /\ allocatedCount a = capacity a
  end.
Proof.
  intros W. unfold allocate. destruct (Z.eqb_spec (allocatedCount a) (capacity a)) as [Efull|Efull]; [split; [done|lia]|].
  assert (Hpos : 0 < capacity a).
  { pose proof (wf_capacity a W). destruct (decide (capacity a = 0)) as [E|]; [|lia].
    pose proof (count_allocated a W) as Hc. replace (allocated a) with (∅ : gset Z) in Hc.
    - rewrite size_empty in Hc. lia.
    - apply set_eq. intros i. rewrite elem_of_allocated. split; [intros []%not_elem_of_empty | lia]. }
  pose proof (capacity_le a W) as Hcap.
  destruct (random_attempts a seed 32) as [i|] eqn:Er.
  { apply random_attempts_free in Er as [Hi Hf]; [|done]. auto using not_allocated. }
  destruct (sweep_bytes _ _ _) as [i|] eqn:Es.
  - apply sweep_bytes_free in Es as [Hi Hf]; [|lia]. auto using not_allocated.
  - split; [done|]. apply all_set_full; [done|]. intros i Hi. by eapply sweep_none_full.
Qed.

Lemma allocate_some seed a :
  wf a -> allocatedCount a < capacity a ->
  exists i, allocate seed a = Ok (i, take_index a i) /\ 0 <= i < capacity a /\ isSet a i = false.
Proof.
  intros W Hlt. pose proof (allocate_spec seed a W) as Hs.
  destruct (allocate seed a) as [[i a']|e]; [|lia].
  destruct Hs as (Hi & Hn & ->). exists i. rewrite elem_of_allocated in Hn.
  split; [done|]. split; [done|]. destruct (isSet a i); tauto.
Qed.
End allocate_laws.

Lemma clear_index_spec a i :
  wf a -> 0 <= i < capacity a -> isSet a i = true ->
  let a' := Allocator (capacity a) (clear_in (bitmap a) i) (allocatedCount a - 1) in
  wf a' /\ allocated a' = allocated a ∖ {[i]}.
Proof.
  intros W Hi Hused a'. pose proof (capacity_le a W) as Hcap. pose proof (wf_bytes a W) as Hb.
  assert (Hset : forall j, 0 <= j -> isSet a' j = negb (j =? i) && isSet a j).
  { intros j Hj. unfold isSet. simpl. apply isSet_clear_in; [done|lia|done]. }
  split; [constructor; simpl|].
  - apply W.
  - unfold clear_in. rewrite length_alter. apply W.
  - unfold clear_in. apply Forall_alter_store; [done|]. intros b Hb'. apply byte_clear_range; [done|]. apply bit_range.
  - unfold clear_in. rewrite length_alter. intros j Hj. rewrite Hset by lia. by rewrite (wf_padding a W j), andb_false_r.
  - rewrite count_bytes_total, total_clear_in by (done || lia). rewrite (wf_count a W), count_bytes_total.
    unfold isSet in Hused. rewrite Hused. lia.
  - apply set_eq. intros j. rewrite elem_of_difference, elem_of_singleton, !elem_of_allocated.
    change (capacity a') with (capacity a). split.
    + intros [Hj Hs]. rewrite Hset in Hs by lia. destruct (Z.eqb_spec j i); naive_solver.
    + intros [[Hj Hs] Hne]. split; [done|]. rewrite Hset, Hs by lia. lia.
Qed.

Lemma release_spec a i :
  wf a ->
  match release a i with
  | Ok a' => 0 <= i < capacity a /\ wf a' /\ capacity a' = capacity a /\ allocated a' = allocated a ∖ {[i]}
  | Throw e => e = invalid_index /\ ~ (0 <= i < capacity a)
  end.
Proof.
  intros W. unfold release. destruct (out_of_range a i) eqn:E; unfold out_of_range in E; [split; [done|lia]|].
  assert (Hi : 0 <= i < capacity a) by lia. destruct (isSet a i) eqn:Es.
  - destruct (clear_index_spec a i W Hi Es) as [W' Ha]. split_and!; [lia..|exact W'|done|exact Ha].
  - split_and!; [lia..|done|done|]. pose proof (not_allocated a i Es). set_solver.
Qed.

End Bitmap.

(** ** [StatusListAllocatorService] *)

Module Service.
Import Bitmap.

(** The table [status_list_allocation], by primary key. *)
Record list_row := ListRow {
  row_orgId : string;
  row_issuerDid : string;
  row_listId : string;
  row_listSize : Z;
  row_allocatedCount : Z;
  row_bitmap : list Z;
  row_isActive : bool;
}.

(** The table [issued_oid4vc_credentials]; [credentialId] is unique. *)
Record issued_row := IssuedRow {
  iss_orgId : string;
  iss_credentialId : string;
  iss_listId : string;
  iss_index : Z;
  iss_issuanceSessionId : string;
  iss_statusListUri : string;
}.

Record state := State {
  lists : gmap string list_row;
  issued : list issued_row;
  uuids : nat;      (* identifiers drawn so far *)
  draws : nat;      (* random draws made so far *)
}.

Definition DEFAULT_STATUS_LIST_SIZE : Z := 131072.

Definition set_lists (f : gmap string list_row -> gmap string list_row) (s : state) : state :=
  State (f (lists s)) (issued s) (uuids s) (draws s).

Definition rollback (s s' : state) : state := State (lists s) (issued s) (uuids s') (draws s').

Definition deactivate (r : list_row) : list_row :=
  ListRow (row_orgId r) (row_issuerDid r) (row_listId r) (row_listSize r)
    (row_allocatedCount r) (row_bitmap r) false.

Definition store_bitmap (a : allocator) (r : list_row) : list_row :=
  ListRow (row_orgId r) (row_issuerDid r) (row_listId r) (row_listSize r)
    (allocatedCount a) (bitmap a) (row_isActive r).

(** [new RandomBitmapIndexAllocator(row.listSize, new Uint8Array(row.bitmap))] *)
Definition allocator_of (r : list_row) : allocator := make (row_listSize r) (Some (row_bitmap r)).

(** [findFirst({ where: { orgId, issuerDid, isActive: true } })] *)
Definition is_active_for (orgId issuerDid : string) (kr : string * list_row) : bool :=
  String.eqb (row_orgId kr.2) orgId && String.eqb (row_issuerDid kr.2) issuerDid && row_isActive kr.2.

Definition find_active (orgId issuerDid : string) (t : gmap string list_row) : option (string * list_row) :=
  List.find (is_active_for orgId issuerDid) (map_to_list t).

(** [findUnique({ where: { listId } })] *)
Definition find_list (listId : string) (t : gmap string list_row) : option (string * list_row) :=
  List.find (fun kr => String.eqb (row_listId kr.2) listId) (map_to_list t).

Section operations.
Context `{RandomSource} `{UuidSource}.

Definition randomUUID : eff state string := fun s =>
  (Ok (uuid (uuids s)), State (lists s) (issued s) (S (uuids s)) (draws s)).

(** [update({ where: { id }, data })] of an existing row *)
Definition update_list (id : string) (f : list_row -> list_row) : eff state unit := fun s =>
  match lists s !! id with
  | Some _ => (Ok tt, set_lists (alter f id) s)
  | None => (Throw prisma_missing, s)
  end.

Definition range_error : exn := js_error "Invalid typed array length".

Definition create_list (orgId issuerDid : string) (listSize : option Z) : eff state (string * list_row) :=
  listId ← randomUUID;
  id ← randomUUID;
  let size := num_or listSize DEFAULT_STATUS_LIST_SIZE in
  if ceil_div8 size <? 0 then throw range_error else
  let row := ListRow orgId issuerDid listId size 0 (zero_bytes (ceil_div8 size)) true in
  _ ← modify (set_lists (insert id row));
  mret (id, row).

(** Find the active list, or retire it when full and create another. *)
Definition active_list (orgId issuerDid : string) (listSize : option Z) : eff state (string * list_row) :=
  found ← gets (fun s => find_active orgId issuerDid (lists s));
  match found with
  | Some (id, r) =>
      if row_listSize r <=? row_allocatedCount r then
        _ ← update_list id deactivate;
        create_list orgId issuerDid listSize
      else mret (id, r)
  | None => create_list orgId issuerDid listSize
  end.

Definition retry_allocation : exn := js_error "Retry allocation, list full".

(** The allocator is built from the row read, and its outcome is written back. *)
Definition allocate_in (row : string * list_row) : eff state (string * Z) :=
  let (id, r) := row in
  seed ← gets draws;
  _ ← modify (fun s => State (lists s) (issued s) (uuids s) (draws s + 33));
  try_catch
    ('(index, a) ← lift (Bitmap.allocate seed (allocator_of r));
     _ ← update_list id (store_bitmap a);
     mret (row_listId r, index))
    (fun error =>
       if String.eqb "No indexes left" (exn_message error) then
         _ ← update_list id deactivate;
         throw retry_allocation
       else throw error).

Definition allocate (orgId issuerDid : string) (listSize : option Z) : eff state (string * Z) :=
  if String.eqb orgId "" || String.eqb issuerDid "" then
    throw (js_error "orgId and issuerDid are required for status list allocation")
  else transaction rollback (row ← active_list orgId issuerDid listSize; allocate_in row).

Definition saveCredentialAllocation (orgId credentialId listId : string) (index : Z)
    (issuanceSessionId statusListUri : string) : eff state unit :=
  s ← get;
  if existsb (fun i => String.eqb (iss_credentialId i) credentialId) (issued s) then throw prisma_unique
  else put (State (lists s)
         (issued s ++ [IssuedRow orgId credentialId listId index issuanceSessionId statusListUri])
         (uuids s) (draws s)).

Definition getCredentialAllocations (orgId issuanceSessionId : string) : eff state (list issued_row) :=
  gets (fun s => List.filter (fun i => String.eqb (iss_orgId i) orgId
    && String.eqb (iss_issuanceSessionId i) issuanceSessionId) (issued s)).

Definition release (listId : string) (index : Z) : eff state unit :=
  transaction rollback (
    found ← gets (fun s => find_list listId (lists s));
    match found with
    | None => mret tt
    | Some (id, r) =>
        a ← lift (Bitmap.release (allocator_of r) index);
        update_list id (store_bitmap a)
    end).
End operations.

(** *** The invariant of the table *)

#[local] Arguments allocator_of : simpl never.
#[local] Arguments Bitmap.allocate : simpl never.

Definition row_wf (r : list_row) : Prop :=
  wf (allocator_of r) /\ row_allocatedCount r = allocatedCount (allocator_of r).

(** The pair [(listId, index)] is handed out and not released. *)
Definition live (s : state) (listId : string) (index : Z) : Prop :=
  exists id r, lists s !! id = Some r /\ row_listId r = listId /\ index ∈ allocated (allocator_of r).

Section laws.
Context `{RandomSource} `{UuidSource}.

Record inv (s : state) : Prop := {
  inv_rows : forall id r, lists s !! id = Some r -> row_wf r;
  inv_ids : forall id r, lists s !! id = Some r ->
    exists m n, (m < uuids s)%nat /\ (n < uuids s)%nat /\ row_listId r = uuid m /\ id = uuid n;
  inv_unique : forall id1 id2 r1 r2, lists s !! id1 = Some r1 -> lists s !! id2 = Some r2 ->
    row_listId r1 = row_listId r2 -> id1 = id2;
}.

Lemma inv_empty n k : inv (State ∅ [] n k).
Proof. by constructor. Qed.

Lemma inv_bookkeeping s i k : inv s -> inv (State (lists s) i (uuids s) k).
Proof. intros [Hr Hi Hu]. by constructor. Qed.

Lemma inv_rollback s i k n : inv s -> (uuids s <= n)%nat -> inv (State (lists s) i n k).
Proof.
  intros [Hr Hi Hu] Hle. constructor; [done| |done].
  intros id r Hl. destruct (Hi id r Hl) as (m & n' & ? & ? & ? & ?). exists m, n'. simpl. split_and!; [lia..|done|done].
Qed.

(** Rewriting a row in place. *)
Lemma inv_alter s id r f :
  inv s -> lists s !! id = Some r -> row_wf (f r) -> row_listId (f r) = row_listId r ->
  inv (set_lists (alter f id) s).
Proof.
  intros [Hr Hi Hu] Hl Hw Hid.
  assert (Hinv : forall k r', alter f id (lists s) !! k = Some r' ->
            exists r0, lists s !! k = Some r0 /\ row_listId r' = row_listId r0 /\ row_wf r').
  { intros k r'. rewrite lookup_alter. case_decide as E.
    - subst k. rewrite Hl. intros [= <-]. eauto.
    - intros Hk. eauto. }
  constructor; simpl.
  - intros k r' Hk. destruct (Hinv _ _ Hk) as (? & ? & ? & ?). done.
  - intros k r' Hk. destruct (Hinv _ _ Hk) as (r0 & Hk0 & -> & _). eauto.
  - intros k1 k2 r1 r2 Hk1 Hk2 He. destruct (Hinv _ _ Hk1) as (r01 & Hk01 & E1 & _).
    destruct (Hinv _ _ Hk2) as (r02 & Hk02 & E2 & _). apply (Hu _ _ _ _ Hk01 Hk02). congruence.
Qed.

(** Rewriting a row changes what is live on its own list only. *)
Lemma live_alter s id r f l i :
  inv s -> lists s !! id = Some r -> row_listId (f r) = row_listId r ->
  live (set_lists (alter f id) s) l i <->
  if decide (l = row_listId r) then i ∈ allocated (allocator_of (f r)) else live s l i.
Proof.
  intros [_ _ Hu] Hl Hid. unfold live. simpl. split.
  - intros (k & r' & Hk & <- & Hi). rewrite lookup_alter in Hk. case_decide as E.
    + subst k. rewrite Hl in Hk. simplify_eq/=. by rewrite decide_True.
    + case_decide as E'; [|by eauto]. exfalso. apply E. by eapply Hu.
  - case_decide as E.
    + intros Hi. exists id, (f r). rewrite lookup_alter_eq, Hl. simpl. split_and!; congruence || done.
    + intros (k & r' & Hk & <- & Hi). exists k, r'. rewrite lookup_alter_ne by congruence. done.
Qed.

Lemma live_row s id r i : inv s -> lists s !! id = Some r ->
  live s (row_listId r) i <-> i ∈ allocated (allocator_of r).
Proof.
  intros [_ _ Hu] Hl. split; [|by exists id, r].
  intros (k & r' & Hk & Hid & Hi). replace r' with r in Hi; [done|].
  assert (k = id) by (eapply Hu; eauto). congruence.
Qed.

Lemma allocator_of_store a r :
  wf a -> capacity a = row_listSize r -> allocator_of (store_bitmap a r) = a.
Proof. intros W Hc. unfold allocator_of. simpl. rewrite <- Hc. by apply make_export. Qed.

Lemma row_wf_store a r : wf a -> capacity a = row_listSize r -> row_wf (store_bitmap a r).
Proof. intros W Hc. split; rewrite allocator_of_store by done; done. Qed.

Lemma find_lookup (f : string * list_row -> bool) (t : gmap string list_row) id r :
  List.find f (map_to_list t) = Some (id, r) -> t !! id = Some r /\ f (id, r) = true.
Proof.
  intros E. apply find_some in E as [Hin Hf]. split; [|done].
  by apply elem_of_map_to_list, list_elem_of_In.
Qed.

Definition good_size (listSize : option Z) : Prop := 0 < num_or listSize DEFAULT_STATUS_LIST_SIZE.

Lemma create_list_spec s o d z :
  inv s -> good_size z ->
  exists id r s', create_list o d z s = (Ok (id, r), s') /\ inv s' /\ lists s' !! id = Some r /\
    allocatedCount (allocator_of r) < row_listSize r /\ (uuids s <= uuids s')%nat /\
    forall l i, live s' l i <-> live s l i.
Proof.
  intros I Hz. pose proof I as [Hr Hi Hu]. unfold good_size in Hz. set (n := num_or z _) in *.
  set (r := ListRow o d (uuid (uuids s)) n 0 (zero_bytes (ceil_div8 n)) true).
  set (id := uuid (S (uuids s))).
  exists id, r, (State (<[id := r]> (lists s)) (issued s) (S (S (uuids s))) (draws s)).
  destruct (make_empty n ltac:(lia)) as [W He].
  assert (Ha : allocator_of r = make n None) by done.
  assert (Hnew : lists s !! id = None).
  { destruct (lists s !! id) as [r0|] eqn:E; [|done]. destruct (Hi _ _ E) as (_ & k & _ & Hk & _ & Hid).
    apply uuid_inj in Hid. lia. }
  assert (Hfresh : forall k r0, lists s !! k = Some r0 -> row_listId r0 <> uuid (uuids s)).
  { intros k r0 E. destruct (Hi _ _ E) as (m & _ & Hm & _ & -> & _). intros Hid%uuid_inj. lia. }
  split_and!; simpl.
  - unfold create_list, randomUUID. run. pose proof (ceil_div8_nonneg n ltac:(lia)).
    fold n. replace (ceil_div8 n <? 0) with false by lia. done.
  - constructor; simpl.
    + intros k r0. rewrite lookup_insert. case_decide; [|by apply Hr]. intros [= <-].
      split; rewrite Ha; [done|]. rewrite count_allocated by done. by rewrite He, size_empty.
    + intros k r0. rewrite lookup_insert. case_decide as E.
      * intros [= <-]. exists (uuids s), (S (uuids s)). split_and!; [lia..|done|done].
      * intros Hk. destruct (Hi _ _ Hk) as (m & k' & ? & ? & ? & ?). exists m, k'. split_and!; [lia..|done|done].
    + intros k1 k2 r1 r2. rewrite !lookup_insert. repeat case_decide; subst; intros; simplify_eq/=;
        [done|exfalso; by eapply Hfresh..|by eapply Hu].
  - apply lookup_insert_eq.
  - change (allocatedCount (make n None) < n). rewrite count_allocated, He, size_empty by done. lia.
  - lia.
  - intros l i. unfold live. simpl. split.
    + intros (k & r0 & Hk & ? & Hin). rewrite lookup_insert in Hk. case_decide; [|by eauto].
      simplify_eq. rewrite Ha, He in Hin. by apply not_elem_of_empty in Hin.
    + intros (k & r0 & Hk & ? & Hin). exists k, r0. rewrite lookup_insert_ne by congruence. done.
Qed.

Lemma deactivate_spec s id r :
  inv s -> lists s !! id = Some r ->
  inv (set_lists (alter deactivate id) s) /\
  forall l i, live (set_lists (alter deactivate id) s) l i <-> live s l i.
Proof.
  intros I Hl. split.
  - eapply inv_alter; [done|done| |done]. apply (inv_rows _ I _ _ Hl).
  - intros l i. rewrite live_alter by done. case_decide; [|done]. subst. by rewrite live_row by done.
Qed.

Lemma active_list_spec s o d z :
  inv s -> good_size z ->
  exists id r s', active_list o d z s = (Ok (id, r), s') /\ inv s' /\ lists s' !! id = Some r /\
    allocatedCount (allocator_of r) < row_listSize r /\ (uuids s <= uuids s')%nat /\
    forall l i, live s' l i <-> live s l i.
Proof.
  intros I Hz. unfold active_list. rewrite run_bind. unfold gets at 1.
  destruct (find_active o d (lists s)) as [[id r]|] eqn:Ef; [|by apply create_list_spec].
  apply find_lookup in Ef as [Hl _]. destruct (inv_rows _ I _ _ Hl) as [W Hc].
  destruct (row_listSize r <=? row_allocatedCount r) eqn:Efull.
  - rewrite run_bind. unfold update_list. rewrite Hl.
    destruct (deactivate_spec s id r I Hl) as [I' Hlive].
    destruct (create_list_spec _ o d z I' Hz) as (id' & r' & s' & E & HI & Hl' & Hlt & Hle & Hlive').
    exists id', r', s'. split_and!; [done..|]. intros l i. by rewrite Hlive', Hlive.
  - exists id, r, s. split_and!; [done|done|done|lia|done|done].
Qed.

(** What [allocate] does on a table that satisfies the invariant. *)
Lemma allocate_run s o d z :
  inv s -> o <> "" -> d <> "" -> good_size z ->
  exists l i s', allocate o d z s = (Ok (l, i), s') /\ inv s' /\ ~ live s l i /\
    (exists id r, lists s' !! id = Some r /\ row_listId r = l /\ 0 <= i < row_listSize r) /\
    forall l' i', live s' l' i' <-> (l', i') = (l, i) \/ live s l' i'.
Proof.
  intros I Ho Hd Hz. unfold allocate.
  destruct (String.eqb_spec o "") as [|_]; [done|]. destruct (String.eqb_spec d "") as [|_]; [done|]. cbn [orb].
  destruct (active_list_spec s o d z I Hz) as (id & r & s1 & E & I1 & Hl & Hlt & _ & Hlive).
  destruct (inv_rows _ I1 _ _ Hl) as [W _].
  destruct (allocate_some (draws s1) (allocator_of r) W Hlt) as (i & Ea & Hi & Hf).
  destruct (take_index_spec (allocator_of r) i W Hi Hf) as [W' Ha'].
  set (a' := take_index (allocator_of r) i) in *.
  set (s2 := State (lists s1) (issued s1) (uuids s1) (draws s1 + 33)).
  exists (row_listId r), i, (set_lists (alter (store_bitmap a') id) s2).
  assert (I2 : inv s2) by by apply inv_bookkeeping.
  split_and!.
  - unfold transaction. rewrite run_bind, E. unfold allocate_in. run. rewrite Ea. simpl.
    unfold update_list. simpl. by rewrite Hl.
  - eapply inv_alter; [done|done| |done]. by apply row_wf_store.
  - rewrite <- Hlive, live_row by done. by apply not_allocated.
  - exists id, (store_bitmap a' r). simpl. rewrite lookup_alter_eq, Hl. done.
  - intros l' i'. rewrite live_alter by done. rewrite allocator_of_store by done. rewrite <- Hlive.
    case_decide as El.
    + subst l'. rewrite live_row by done. rewrite Ha'. set_solver.
    + split; [by right|]. by intros [[= ? ?]|].
Qed.

Lemma release_run s l i :
  inv s ->
  let '(r, s') := release l i s in
  inv s' /\
  match r with
  | Ok _ => forall l' i', live s' l' i' <-> live s l' i' /\ (l', i') <> (l, i)
  | Throw e => e = invalid_index /\ ~ live s l i /\ forall l' i', live s' l' i' <-> live s l' i'
  end.
Proof.
  intros I. unfold release, transaction. rewrite run_bind. unfold gets at 1.
  destruct (find_list l (lists s)) as [[id r]|] eqn:Ef.
  - apply find_lookup in Ef as [Hl Hid%String.eqb_eq]. simpl in Hid. subst l.
    destruct (inv_rows _ I _ _ Hl) as [W _]. pose proof (release_spec (allocator_of r) i W) as Hs.
    rewrite run_bind. unfold lift at 1. destruct (Bitmap.release (allocator_of r) i) as [a'|e].
    + destruct Hs as (Hi & W' & Hc & Ha). unfold update_list. rewrite Hl. split.
      * eapply inv_alter; [done|done| |done]. by apply row_wf_store.
      * intros l' i'. rewrite live_alter by done. rewrite allocator_of_store by done. case_decide as El.
        -- subst l'. rewrite live_row by done. rewrite Ha. set_solver.
        -- split; [|by intros []]. intros Hlv. split; [done|]. by intros [= ? ?].
    + destruct Hs as [-> Hi]. unfold rollback. destruct s; split_and!; [done|done| |done].
      rewrite live_row by done. rewrite elem_of_allocated. tauto.
  - simpl. split; [done|]. intros l' i'. split; [|by intros []]. intros Hlv. split; [done|]. intros [= -> ->].
    destruct Hlv as (id & r & Hl & Hid & _). unfold find_list in Ef.
    pose proof (find_none _ _ Ef (id, r)) as Hn. simpl in Hn.
    rewrite Hid, String.eqb_refl in Hn. discriminate Hn.
    by apply list_elem_of_In, elem_of_map_to_list.
Qed.
(** *** What no call of the allocator changes *)

(** The recorded places stay, and identifiers are only drawn. *)
Definition grows (s s' : state) : Prop := issued s' = issued s /\ (uuids s <= uuids s')%nat.

#[global] Instance grows_preorder : PreOrder grows.
Proof. split; [by intros s|]. intros s s1 s2 [E1 D1] [E2 D2]. split; [congruence | lia]. Qed.

Lemma grows_transaction {A} (m : eff state A) : frames grows m -> frames grows (transaction rollback m).
Proof. intros Hm s. unfold transaction. specialize (Hm s). destruct (m s) as [[a|e] s']; [done|]. split; [done | apply Hm]. Qed.
Lemma grows_modify f : (forall s, grows s (f s)) -> frames grows (modify f).
Proof. intros Hf s. apply Hf. Qed.
Lemma grows_update id f : frames grows (update_list id f).
Proof. intros s. unfold update_list. by case_match. Qed.
Lemma grows_create o d z : frames grows (create_list o d z).
Proof.
  unfold create_list. apply frames_bind; [exact _ | intros s; split; [done | simpl; lia] | intros ?].
  apply frames_bind; [exact _ | intros s; split; [done | simpl; lia] | intros ?].
  case_match; [by apply frames_throw; exact _|]. apply frames_bind; [exact _ | by apply grows_modify | intros ?]. by apply frames_ret; exact _.
Qed.
Lemma grows_allocate o d z : frames grows (allocate o d z).
Proof.
  unfold allocate. case_match; [by apply frames_throw; exact _|]. apply grows_transaction. apply frames_bind; [exact _ | | intros [id r]].
  - unfold active_list. pose proof grows_create. pose proof grows_update. solve_frames; auto.
  - unfold allocate_in. pose proof grows_update. apply frames_bind; [exact _ | by apply frames_gets; exact _ | intros ?].
    apply frames_bind; [exact _ | by apply grows_modify | intros ?]. solve_frames; auto.
Qed.
Lemma grows_release l i : frames grows (release l i).
Proof. unfold release. apply grows_transaction. pose proof grows_update. solve_frames; auto. Qed.
End laws.

(** *** Histories of calls *)

Inductive call :=
  | CallAllocate (orgId issuerDid : string) (listSize : option Z)
  | CallRelease (listId : string) (index : Z)
  | CallSave (orgId credentialId listId : string) (index : Z) (session uri : string).

Section histories.
Context `{RandomSource} `{UuidSource}.

(** One call; [out] is the list of pairs handed out and not released. *)
Definition step (c : call) (so : state * list (string * Z)) : state * list (string * Z) :=
  let (s, out) := so in
  match c with
  | CallAllocate o d z =>
      match allocate o d z s with
      | (Ok p, s') => (s', out ++ [p])
      | (Throw _, s') => (s', out)
      end
  | CallRelease l i =>
      match release l i s with
      | (Ok _, s') => (s', filter (fun p => p <> (l, i)) out)
      | (Throw _, s') => (s', out)
      end
  | CallSave o c l i n u => ((saveCredentialAllocation o c l i n u s).2, out)
  end.

Definition history (cs : list call) : state * list (string * Z) :=
  fold_left (fun so c => step c so) cs (State ∅ [] 0 0, []).

Definition call_ok (c : call) : Prop :=
  match c with CallAllocate _ _ z => good_size z | _ => True end.

Definition tracked (so : state * list (string * Z)) : Prop :=
  inv so.1 /\ NoDup so.2 /\ forall l i, (l, i) ∈ so.2 <-> live so.1 l i.

Lemma step_tracked c so : call_ok c -> tracked so -> tracked (step c so).
Proof.
  destruct so as [s out]. intros Hok (I & Hnd & Hlive). simpl in *. destruct c as [o d z|l i|]; simpl in Hok |- *.
  - destruct (decide (o = "" \/ d = "")) as [He|He].
    { assert (allocate o d z s = (Throw (js_error "orgId and issuerDid are required for status list allocation"), s)) as ->.
      { unfold allocate. destruct He as [-> | ->]; [done|]. by rewrite orb_true_r. }
      done. }
    destruct (allocate_run s o d z I) as (l & i & s' & -> & I' & Hn & _ & Hl'); [tauto..|].
    split_and!; simpl; [done| |].
    + apply NoDup_app. split_and!; [done| |apply NoDup_singleton].
      intros [l0 i0] Hin Hs%list_elem_of_singleton. apply Hn. apply Hlive. congruence.
    + intros l0 i0. rewrite elem_of_app, list_elem_of_singleton, Hlive, Hl'. tauto.
  - pose proof (release_run s l i I) as Hr. destruct (release l i s) as [[[]|e] s']; destruct Hr as [I' Hr].
    + split_and!; simpl; [done|by apply NoDup_filter|]. intros l0 i0. rewrite list_elem_of_filter, Hlive, Hr. tauto.
    + destruct Hr as (_ & _ & Hr). split_and!; simpl; [done|done|]. intros l0 i0. by rewrite Hlive, Hr.
  - unfold saveCredentialAllocation. run. case_match; simpl; [by split_and!|].
    split_and!; [by apply inv_bookkeeping|done|done].
Qed.

Lemma history_tracked cs : Forall call_ok cs -> tracked (history cs).
Proof.
  unfold history. assert (Hinit : tracked (State ∅ [] 0 0, [])).
  { split_and!; [apply inv_empty|constructor|]. intros l i. split; [by intros ?%elem_of_nil|].
    intros (? & ? & Hl & _). simpl in Hl. by rewrite lookup_empty in Hl. }
  revert Hinit. generalize (State ∅ [] 0 0, @nil (string * Z)). induction cs as [|c cs IH]; intros so Ht Hf; [done|].
  inversion Hf; subst. simpl. apply IH; [by apply step_tracked|done].
Qed.

(** C1. An index of a status list is never handed out twice: after any
    sequence of allocations, releases and saves, the outstanding pairs
    [(listId, index)] are pairwise distinct and are exactly the bits set
    in the stored bitmaps. *)
Theorem status_list_no_reuse (cs : list call) :
  Forall call_ok cs ->
  let '(s, out) := history cs in NoDup out /\ forall l i, (l, i) ∈ out <-> live s l i.
Proof.
  intros Hcs. pose proof (history_tracked cs Hcs) as (_ & Hnd & Hl). by destruct (history cs).
Qed.

(** C35. After any history, a well-formed allocation request succeeds: it
    never reports an exhausted list, the index is inside the list and was
    free, and exactly that pair becomes outstanding. *)
Theorem status_list_allocate_total (cs : list call) o d z :
  Forall call_ok cs -> o <> "" -> d <> "" -> good_size z ->
  let s := (history cs).1 in
  exists l i s', allocate o d z s = (Ok (l, i), s') /\ ~ live s l i /\
    (exists id r, lists s' !! id = Some r /\ row_listId r = l /\ 0 <= i < row_listSize r) /\
    forall l' i', live s' l' i' <-> (l', i') = (l, i) \/ live s l' i'.
Proof.
  intros Hcs Ho Hd Hz. destruct (history_tracked cs Hcs) as (I & _ & _).
  destruct (allocate_run _ o d z I Ho Hd Hz) as (l & i & s' & ? & ? & ?). eauto.
Qed.

(** When a stored row claims free space ([allocatedCount < listSize])
    but its bitmap is full, the retirement of the list written in the error
    handler is undone with the transaction that the rethrow aborts: the
    tables are unchanged and the list is still the active one, so the retry
    the error asks for meets the same list and fails again. *)
Theorem status_list_retry_is_stuck s o d z id r :
  o <> "" -> d <> "" ->
  find_active o d (lists s) = Some (id, r) -> row_allocatedCount r < row_listSize r ->
  allocatedCount (allocator_of r) = row_listSize r ->
  let '(res, s') := allocate o d z s in
  res = Throw retry_allocation /\ lists s' = lists s /\ find_active o d (lists s') = Some (id, r).
Proof.
  intros Ho Hd Hf Hlt Hfull. unfold allocate.
  destruct (String.eqb_spec o ""); [done|]. destruct (String.eqb_spec d ""); [done|]. cbn [orb].
  pose proof (find_lookup _ _ _ _ Hf) as [Hl _].
  assert (Ea : forall k, Bitmap.allocate k (allocator_of r) = Throw no_indexes_left).
  { intros k. unfold Bitmap.allocate. rewrite Hfull. change (capacity (allocator_of r)) with (row_listSize r). by rewrite Z.eqb_refl. }
  unfold transaction. rewrite run_bind. unfold active_list. rewrite run_bind. unfold gets at 1. rewrite Hf.
  replace (row_listSize r <=? row_allocatedCount r) with false by lia. unfold allocate_in. run.
  rewrite Ea. simpl. unfold update_list. simpl. by rewrite Hl.
Qed.
(** Two concurrent [allocate] transactions under READ COMMITTED, which is
    what [$transaction] asks for: both read before either writes, and the
    updates write the columns computed from what was read. *)
Definition interleaved_allocate (o d : string) : eff state ((string * Z) * (string * Z)) :=
  row1 ← active_list o d None;
  row2 ← active_list o d None;
  p1 ← allocate_in row1;
  p2 ← allocate_in row2;
  mret (p1, p2).

Lemma one_free_unique a i j :
  wf a -> allocatedCount a = capacity a - 1 ->
  0 <= i < capacity a -> 0 <= j < capacity a -> isSet a i = false -> isSet a j = false -> i = j.
Proof.
  intros W Hc Hi Hj Hfi Hfj. destruct (decide (i = j)) as [|Hne]; [done|exfalso].
  pose proof (count_allocated a W) as Hs.
  assert (Hle : (size ({[i; j]} ∪ allocated a) <= size (list_to_set (seqZ 0 (capacity a)) : gset Z))%nat).
  { apply subseteq_size. intros k. rewrite elem_of_list_to_set, elem_of_seqZ, !elem_of_union, !elem_of_singleton, elem_of_allocated. lia. }
  rewrite size_list_to_set, length_seqZ in Hle by apply NoDup_seqZ.
  apply not_allocated in Hfi, Hfj.
  rewrite size_union, size_union, !size_singleton in Hle by set_solver. lia.
Qed.

Lemma active_list_found s o d id r :
  find_active o d (lists s) = Some (id, r) -> row_allocatedCount r < row_listSize r ->
  active_list o d None s = (Ok (id, r), s).
Proof.
  intros Hf Hlt. unfold active_list. rewrite run_bind. unfold gets at 1. rewrite Hf.
  by replace (row_listSize r <=? row_allocatedCount r) with false by lia.
Qed.

Lemma allocate_in_run s id r r' i :
  lists s !! id = Some r' ->
  Bitmap.allocate (draws s) (allocator_of r) = Ok (i, take_index (allocator_of r) i) ->
  exists s', allocate_in (id, r) s = (Ok (row_listId r, i), s') /\ is_Some (lists s' !! id).
Proof.
  intros Hl Ha. unfold allocate_in. run. rewrite Ha. simpl. unfold update_list. simpl. rewrite Hl.
  eexists. split; [done|]. simpl. rewrite lookup_alter_eq, Hl. by eexists.
Qed.

(** The bitmap of a list with one free index, read by two concurrent
    transactions before either writes it back, gives both of them the same
    pair: the read-modify-write of [allocate] is not protected by its
    transaction. *)
Theorem status_list_concurrent_duplicate (cs : list call) o d id r :
  Forall call_ok cs ->
  let s := (history cs).1 in
  find_active o d (lists s) = Some (id, r) -> row_allocatedCount r = row_listSize r - 1 ->
  exists p s', interleaved_allocate o d s = (Ok (p, p), s').
Proof.
  intros Hcs s Hf Hone. destruct (history_tracked cs Hcs) as (I & _ & _).
  pose proof (find_lookup _ _ _ _ Hf) as [Hl _]. destruct (inv_rows _ I _ _ Hl) as [W Hc].
  assert (Hlt : allocatedCount (allocator_of r) < capacity (allocator_of r)).
  { rewrite <- Hc. change (capacity _) with (row_listSize r). lia. }
  destruct (allocate_some (draws s) _ W Hlt) as (i & E1 & Hi & Hfi).
  destruct (allocate_in_run s id r r i Hl E1) as (s1 & R1 & [r1 Hl1]).
  destruct (allocate_some (draws s1) _ W Hlt) as (j & E2 & Hj & Hfj).
  destruct (allocate_in_run s1 id r r1 j Hl1 E2) as (s2 & R2 & _).
  assert (i = j) as <-.
  { eapply one_free_unique; [done| |done..]. rewrite <- Hc. change (capacity _) with (row_listSize r). lia. }
  exists (row_listId r, i), s2. unfold interleaved_allocate.
  rewrite run_bind, (active_list_found _ _ _ id r) by (done || lia).
  rewrite run_bind, (active_list_found _ _ _ id r) by (done || lia).
  by rewrite run_bind, R1, run_bind, R2.
Qed.
End histories.

(** *** Witnesses *)

Definition first_free : RandomSource.
Proof. refine {| randomInt := fun k n => Z.of_nat k mod Z.max 1 n |}. intros k n Hn. pose proof (Z.mod_pos_bound (Z.of_nat k) (Z.max 1 n)). lia. Defined.

Definition numbered : UuidSource.
Proof. refine {| uuid := pretty |}. Defined.

Definition sample_calls : list call :=
  [CallAllocate "org" "did:a" (Some 9); CallAllocate "org" "did:a" None; CallRelease "0" 0;
   CallAllocate "org" "did:b" (Some 4); CallSave "org" "cred" "0" 1 "session" "uri"].

Lemma sample_calls_ok : Forall call_ok sample_calls.
Proof. repeat constructor. Defined.

Example status_list_no_reuse_witness :
  let '(s, out) := @history first_free numbered sample_calls in
  NoDup out /\ forall l i, (l, i) ∈ out <-> live s l i.
Proof. apply (@status_list_no_reuse first_free numbered sample_calls). apply sample_calls_ok. Defined.

Example status_list_history_value :
  (@history first_free numbered sample_calls).2 = [("0", 33 mod 9); ("2", 66 mod 4)].
Proof. vm_compute. reflexivity. Qed.

Example status_list_allocate_total_witness :
  let s := (@history first_free numbered sample_calls).1 in
  exists l i s', @allocate first_free numbered "org" "did:a" None s = (Ok (l, i), s') /\ ~ live s l i /\
    (exists id r, lists s' !! id = Some r /\ row_listId r = l /\ 0 <= i < row_listSize r) /\
    forall l' i', live s' l' i' <-> (l', i') = (l, i) \/ live s l' i'.
Proof.
  apply (@status_list_allocate_total first_free numbered sample_calls "org" "did:a" None);
    [apply sample_calls_ok|discriminate..|reflexivity].
Defined.

Example status_list_concurrent_duplicate_witness :
  let s := (@history first_free numbered [CallAllocate "org" "did:a" (Some 2)]).1 in
  exists p s', @interleaved_allocate first_free numbered "org" "did:a" s = (Ok (p, p), s').
Proof.
  eapply (@status_list_concurrent_duplicate first_free numbered [CallAllocate "org" "did:a" (Some 2)]);
    [repeat constructor|vm_compute; reflexivity|vm_compute; reflexivity].
Defined.

Definition full_row : list_row := ListRow "org" "did:a" "L" 8 3 [255] true.
Definition full_state : state := State {["id" := full_row]} [] 0 0.

Example status_list_retry_is_stuck_witness :
  let '(res, s') := @allocate first_free numbered "org" "did:a" None full_state in
  res = Throw retry_allocation /\ lists s' = lists full_state /\
  find_active "org" "did:a" (lists s') = Some ("id", full_row).
Proof.
  apply (@status_list_retry_is_stuck first_free numbered full_state "org" "did:a" None "id" full_row);
    [discriminate..|reflexivity|reflexivity|reflexivity].
Defined.
End Service.
