(* ===== verification/Table.v ===== *)
(** * Database tables

    A table is the list of its rows in insertion order.  [lookup] is the
    [findUnique] of the database client, [update_where] an [update] or
    [updateMany] on the rows that satisfy a test, [latest] the [findFirst] with
    [orderBy: desc], [sort_asc]/[sort_desc] the [findMany] with [orderBy]. *)

From S2P Require Import Prelude.

Section table.
Context {R : Type}.
Implicit Types (t : list R) (p : R -> bool).

Fixpoint first p t : option R :=
  match t with
  | [] => None
  | r :: t' => if p r then Some r else first p t'
  end.

Definition update_where p (f : R -> R) t : list R :=
  map (fun r => if p r then f r else r) t.

(** The row with the greatest key, the earliest such row on a tie. *)
Fixpoint latest (key : R -> Z) t : option R :=
  match t with
  | [] => None
  | r :: t' =>
      match latest key t' with
      | Some r' => if (key r <? key r')%Z then Some r' else Some r
      | None => Some r
      end
  end.

Fixpoint insert_by (le : R -> R -> bool) (r : R) t : list R :=
  match t with
  | [] => [r]
  | r' :: t' => if le r r' then r :: r' :: t' else r' :: insert_by le r t'
  end.

Definition sort_by (le : R -> R -> bool) t : list R := foldr (insert_by le) [] t.
Definition sort_asc (key : R -> Z) := sort_by (fun a b => (key a <=? key b)%Z).
Definition sort_desc (key : R -> Z) := sort_by (fun a b => (key b <=? key a)%Z).

(** [skip: (pageNumber - 1) * pageSize, take: pageSize] *)
Definition page_of (pageNumber pageSize : Z) t : list R :=
  take (Z.to_nat pageSize) (drop (Z.to_nat ((pageNumber - 1) * pageSize)) t).

(** ** Laws *)

Lemma first_Some p t r : first p t = Some r -> r ∈ t /\ p r = true.
Proof.
  induction t as [|r' t IH]; simpl; [done|]. destruct (p r') eqn:E; intros H.
  - simplify_eq. split; [left | done].
  - apply IH in H as [? ?]. split; [by right | done].
Qed.

Lemma first_None p t : first p t = None <-> forall r, r ∈ t -> p r = false.
Proof.
  induction t as [|r' t IH]; simpl.
  - split; [intros _ r Hr; by apply elem_of_nil in Hr | done].
  - destruct (p r') eqn:E.
    + split; [done | intros H; rewrite (H r') in E by left; done].
    + rewrite IH. split; intros H r Hr.
      * apply elem_of_cons in Hr as [->|Hr]; [done | by apply H].
      * apply H. by right.
Qed.

Lemma first_app p t t' :
  first p (t ++ t') = match first p t with Some r => Some r | None => first p t' end.
Proof. induction t as [|r t IH]; simpl; [done|]. by destruct (p r). Qed.

(** An update that leaves the test unchanged commutes with the search. *)
Lemma first_update p q f t :
  (forall r, r ∈ t -> q r = true -> p (f r) = p r) ->
  first p (update_where q f t) = (fun r => if q r then f r else r) <$> first p t.
Proof.
  induction t as [|r t IH]; intros H; simpl; [done|].
  assert (Hp : p (if q r then f r else r) = p r) by (destruct (q r) eqn:E; [apply H; [left | done] | done]).
  rewrite Hp. destruct (p r); simpl; [done|]. apply IH. intros r' Hr'. apply H. by right.
Qed.

(** An update of other rows does not change what the search finds. *)
Lemma first_update_other p q f t :
  (forall r, r ∈ t -> q r = true -> p r = false /\ p (f r) = false) ->
  first p (update_where q f t) = first p t.
Proof.
  induction t as [|r t IH]; intros H; simpl; [done|]. destruct (q r) eqn:E.
  - destruct (H r ltac:(left) E) as [-> ->]. apply IH. intros r' Hr'. apply H. by right.
  - destruct (p r); [done|]. apply IH. intros r' Hr'. apply H. by right.
Qed.

Lemma elem_of_update_where q f t r :
  r ∈ update_where q f t <-> exists r0, r0 ∈ t /\ r = if q r0 then f r0 else r0.
Proof. unfold update_where. rewrite list_elem_of_fmap. naive_solver. Qed.

Lemma update_where_none q f t : (forall r, r ∈ t -> q r = false) -> update_where q f t = t.
Proof.
  induction t as [|r t IH]; intros H; simpl; [done|]. rewrite (H r) by left.
  f_equal. apply IH. intros r' Hr'. apply H. by right.
Qed.

Lemma fmap_update_where {K} (key : R -> K) q f t :
  (forall r, r ∈ t -> q r = true -> key (f r) = key r) -> key <$> update_where q f t = key <$> t.
Proof.
  induction t as [|r t IH]; intros H; simpl; [done|]. f_equal.
  - destruct (q r) eqn:E; [|done]. apply H; [left | done].
  - apply IH. intros r' Hr'. apply H. by right.
Qed.

(** Rows with the same unique key are the same row. *)
Lemma unique_key {K} (key : R -> K) t r r' :
  NoDup (key <$> t) -> r ∈ t -> r' ∈ t -> key r = key r' -> r = r'.
Proof.
  intros Hnd [i Hi]%list_elem_of_lookup [j Hj]%list_elem_of_lookup Hk.
  assert (i = j) as ->; [|congruence].
  apply (NoDup_lookup (key <$> t) i j (key r)); [done|..]; rewrite list_lookup_fmap.
  - by rewrite Hi.
  - by rewrite Hj, Hk.
Qed.

Lemma NoDup_filter_key {K} (key : R -> K) p t : NoDup (key <$> t) -> NoDup (key <$> List.filter p t).
Proof.
  intros Hnd. induction t as [|r t IH]; [constructor|]. apply NoDup_cons in Hnd as [Hr Hnd]. simpl.
  destruct (p r); [|by apply IH]. rewrite fmap_cons. apply NoDup_cons. split; [|by apply IH].
  intros (r' & E & [Hr' _]%elem_of_filter_b)%list_elem_of_fmap. apply Hr, list_elem_of_fmap. eauto.
Qed.

(** The key of one row changes to a free one. *)
Lemma NoDup_update {K I} (key : R -> K) (ident : R -> I) q f t k : NoDup (key <$> t) -> NoDup (ident <$> t) ->
  (forall r r', r ∈ t -> r' ∈ t -> q r = true -> q r' = true -> ident r = ident r') ->
  (forall r, r ∈ t -> q r = true -> key (f r) = k) -> (forall r, r ∈ t -> q r = false -> key r <> k) -> NoDup (key <$> update_where q f t).
Proof.
  induction t as [|r t IH]; intros Hk Hi Hq Hf Hn; [done|]. simpl in *. apply NoDup_cons in Hk as [Hr Hk], Hi as [Hri Hi].
  assert (IH' : NoDup (key <$> update_where q f t)).
  { apply IH; auto.
    - intros a b Ha Hb. apply Hq; by right.
    - intros a Ha. apply Hf. by right.
    - intros a Ha. apply Hn. by right. }
  apply NoDup_cons. split; [|exact IH']. intros (x & Ex & (y & Hy & ->)%elem_of_update_where)%list_elem_of_fmap.
  destruct (q r) eqn:Er, (q y) eqn:Ey.
  - apply Hri, list_elem_of_fmap. exists y. split; [|done]. apply Hq; [left | by right | done | done].
  - apply (Hn y); [by right | done|]. rewrite <- Ex. apply Hf; [left | done].
  - apply (Hn r); [left | done|]. rewrite Ex. apply Hf; [by right | done].
  - apply Hr, list_elem_of_fmap. by exists y.
Qed.

Lemma length_update_where q f t : length (update_where q f t) = length t.
Proof. apply length_map. Qed.

Lemma latest_elem key t r : latest key t = Some r -> r ∈ t.
Proof.
  revert r. induction t as [|r0 t IH]; simpl; intros r H; [done|].
  destruct (latest key t) as [r'|].
  - case_match; simplify_eq; [right; by apply IH | left].
  - simplify_eq. left.
Qed.

Lemma latest_None key t : latest key t = None <-> t = [].
Proof. destruct t; simpl; [done|]. repeat case_match; done. Qed.

Lemma latest_max key t r r' : latest key t = Some r -> r' ∈ t -> (key r' <= key r)%Z.
Proof.
  revert r r'. induction t as [|r0 t IH]; simpl; intros r r' H Hin; [done|].
  destruct (latest key t) as [r1|] eqn:E.
  - destruct (Z.ltb_spec (key r0) (key r1)); simplify_eq.
    + apply elem_of_cons in Hin as [->|Hin]; [lia | by apply IH].
    + apply elem_of_cons in Hin as [->|Hin]; [lia|]. specialize (IH _ _ eq_refl Hin). lia.
  - apply latest_None in E as ->. simplify_eq.
    apply list_elem_of_singleton in Hin as ->. lia.
Qed.

Lemma insert_by_perm le r t : insert_by le r t ≡ₚ r :: t.
Proof.
  induction t as [|r' t IH]; simpl; [done|]. destruct (le r r'); [done|].
  rewrite IH. constructor.
Qed.

Lemma sort_by_perm le t : sort_by le t ≡ₚ t.
Proof. induction t as [|r t IH]; simpl; [done|]. by rewrite insert_by_perm, IH. Qed.

Lemma elem_of_sort_by le t r : r ∈ sort_by le t <-> r ∈ t.
Proof. by rewrite (sort_by_perm le t). Qed.

(** Insertion keeps a list sorted when the comparison is total and transitive. *)
Lemma insert_by_sorted le r t :
  (forall a b, le a b = true \/ le b a = true) ->
  Sorted (fun a b => le a b = true) t -> Sorted (fun a b => le a b = true) (insert_by le r t).
Proof.
  intros Htot. induction t as [|r' t IH]; simpl; intros Hs; [by repeat constructor|].
  destruct (le r r') eqn:E; [constructor; [done | by constructor]|].
  inversion Hs as [|? ? Hs' Hhd]; subst. constructor; [by apply IH|].
  assert (Hr : le r' r = true) by (destruct (Htot r r'); congruence).
  destruct t as [|r'' t]; simpl; [by constructor|]. inversion Hhd; subst.
  destruct (le r r''); by constructor.
Qed.

Lemma sort_by_sorted le t :
  (forall a b, le a b = true \/ le b a = true) -> Sorted (fun a b => le a b = true) (sort_by le t).
Proof. intros Htot. induction t; simpl; [constructor | by apply insert_by_sorted]. Qed.
End table.

#[export] Hint Resolve latest_elem : platform.
