(* ===== verification/X509.v ===== *)
(** * X.509 certificates of an organization

    [apps/x509/src/x509.service.ts], [repositories/x509.repository.ts] and the dispatch
    of [x509.controller.ts]: which certificates of an organization are active.  The
    agent that makes the certificates is reached by NATS; it answers as it pleases.
    Dates are time values. *)

From S2P Require Import Prelude Js Table.

Open Scope Z_scope.

Module x5cRecordStatus.
Inductive t := Active | PendingActivation | InActive.
#[global] Instance t_eq_dec : EqDecision t.
Proof. solve_decision. Defined.
End x5cRecordStatus.
Import x5cRecordStatus.

Definition x5cKeyType : list string := ["Ed25519"; "P-256"].

(** ** Rows *)

Record org_agent := Agent { agent_id : string; agent_orgId : option string; agentEndPoint : option string }.

Record X509CertificateRecord := Certificate {
  cert_id : string;
  orgAgentId : string;
  keyType : string;
  status : x5cRecordStatus.t;
  validFrom : Z;
  expiry : Z;
  certificateBase64 : string;
  keyId : option string;
  createdAt : Z;
  createdBy : string;
  lastChangedDateTime : Z;
  lastChangedBy : string;
}.

(** ** Payloads: the fields the service reads, [None] when [undefined] *)

Record Validity := mkValidity { notBefore : option Z; notAfter : option Z }.
Record X509CreateCertificateOptions := CreateOptions {
  authorityKey : option (option string);   (* [authorityKey] and its [keyType] *)
  validity : option Validity;
}.
Record IX509ImportCertificateOptions := ImportOptions { imp_certificate : string; imp_privateKey : option string }.

Record CertificateDateCheckDto := DateCheck {
  dc_orgId : string;
  dc_validFrom : option Z;
  dc_expiry : option Z;
  dc_keyType : option string;
  dc_status : x5cRecordStatus.t;
  excludeCertificateId : option string;
}.

Record CreateX509CertificateEntity := Entity {
  en_orgId : string;
  en_certificateBase64 : option string;
  en_keyType : option string;
  en_status : x5cRecordStatus.t;
  en_validFrom : option Z;
  en_expiry : option Z;
  en_createdBy : string;
  en_lastChangedBy : string;
  en_keyId : option string;
}.

(** The replies of the agent service. *)
Record agent_certificate := AgentCertificate { publicCertificate : option string; agent_keyId : option string }.
Record asn_time := AsnTime { utcTime : option string; generalTime : option string }.
Record decoded_certificate := Decoded {
  crv : option string;                     (* [publicJwk?.jwk?.jwk?.crv] *)
  asn_notBefore : option asn_time;         (* [x509Certificate?.asn?.tbsCertificate?.validity?.notBefore] *)
  asn_notAfter : option asn_time;
}.

Inductive call :=
  | AgentCreate (o : X509CreateCertificateOptions) (url orgId : string)
  | AgentDecode (certificate url orgId : string)
  | AgentImport (o : IX509ImportCertificateOptions) (url orgId : string).

Record world := World {
  agents : list org_agent;
  certificates : list X509CertificateRecord;
  calls : list call;
  ticks : nat;
  drawn : nat;
}.

(** What a call returns may depend on all calls made so far; [None] is a reply
    without a body. *)
Class AgentService := {
  on_create : list call -> result (option agent_certificate);
  on_decode : list call -> result (option decoded_certificate);
  on_import : list call -> result (option agent_certificate);
  reading : nat -> Z;
}.

Definition set_certificates (cs : list X509CertificateRecord) (w : world) : world :=
  World (agents w) cs (calls w) (ticks w) (drawn w).

Section x509.
Context {A : AgentService} {U : UuidSource}.

Definition now : eff world Z := fun w =>
  (Ok (reading (ticks w)), World (agents w) (certificates w) (calls w) (S (ticks w)) (drawn w)).
Definition fresh : eff world string := fun w =>
  (Ok (uuid (drawn w)), World (agents w) (certificates w) (calls w) (ticks w) (S (drawn w))).
Definition placed (c : call) : eff world (list call) := fun w =>
  (Ok (calls w ++ [c])%list, World (agents w) (certificates w) (calls w ++ [c])%list (ticks w) (drawn w)).

(** ** Repository *)

Definition agent_of (org : string) (a : org_agent) : bool := bool_decide (agent_orgId a = Some org).

Definition getOrgAgentByOrgId (org : string) : eff world org_agent :=
  found ← gets (fun w => first (agent_of org) (agents w));
  match found with
  | Some a => mret a
  | None => throw (http_exn NotFoundException ("OrgAgent with orgId " +:+ org +:+ " not found"))
  end.

(** [org_agents: { orgId }] in a filter: the certificate's agent belongs to [org]. *)
Definition belongs (w : world) (org : string) (c : X509CertificateRecord) : bool :=
  existsb (fun a => String.eqb (agent_id a) (orgAgentId c) && agent_of org a) (agents w).

Definition prisma_validation : exn := Exn PrismaError "Argument is missing" None None.

Definition create (d : CreateX509CertificateEntity) : eff world X509CertificateRecord :=
  orgAgent ← getOrgAgentByOrgId (en_orgId d);
  match en_keyType d, en_validFrom d, en_expiry d, en_certificateBase64 d with
  | Some kt, Some from, Some until, Some b64 =>
      t ← now; id ← fresh;
      let row := Certificate id (agent_id orgAgent) kt (en_status d) from until b64 (en_keyId d) t (en_createdBy d) t (en_lastChangedBy d) in
      _ ← modify (fun w => set_certificates (certificates w ++ [row])%list w);
      mret row
  | _, _, _, _ => throw prisma_validation
  end.

(** [skip]/[take] with [orderBy: { createdAt: 'desc' }]; the page size is not negative. *)
Definition findAll (org : string) (st : option x5cRecordStatus.t) (kt : option string) (page : option Z) (limit : option nat) :
    eff world (list X509CertificateRecord * nat) :=
  let page := default 1 page in
  let limit := default 10%nat limit in
  if (page - 1) * Z.of_nat limit <? 0 then throw prisma_validation else
  rows ← gets (fun w => List.filter (fun c => (belongs w org c || String.eqb org "" && bool_decide (st = None) && negb (truthy_str kt))
            && match st with Some s => bool_decide (status c = s) | None => true end
            && (if truthy_str kt then bool_decide (Some (keyType c) = kt) else true)) (certificates w));
  mret (take limit (drop (Z.to_nat ((page - 1) * Z.of_nat limit)) (sort_desc createdAt rows)), length rows).

Definition findById (org id : string) : eff world X509CertificateRecord :=
  found ← gets (fun w => first (fun c => String.eqb (cert_id c) id && belongs w org c) (certificates w));
  match found with
  | Some c => mret c
  | None => throw (http_exn NotFoundException ("Certificate with ID " +:+ id +:+ " not found"))
  end.

Definition findByOrgId (org : string) : eff world (list X509CertificateRecord) :=
  gets (fun w => sort_desc createdAt (List.filter (belongs w org) (certificates w))).

(** A comparison with [undefined] is no condition. *)
Definition cond {T} (test : T -> bool) (o : option T) : bool := match o with Some x => test x | None => true end.

Definition collides (w : world) (d : CertificateDateCheckDto) (c : X509CertificateRecord) : bool :=
  bool_decide (status c = dc_status d) && cond (String.eqb (keyType c)) (dc_keyType d) && belongs w (dc_orgId d) c
  && cond (Z.leb (validFrom c)) (dc_expiry d) && cond (fun from => from <=? expiry c) (dc_validFrom d)
  && negb (truthy_str (excludeCertificateId d) && bool_decide (Some (cert_id c) = excludeCertificateId d)).

Definition hasDateCollision (d : CertificateDateCheckDto) : eff world (list X509CertificateRecord) :=
  gets (fun w => List.filter (collides w d) (certificates w)).

Definition set_status (st : x5cRecordStatus.t) (user : string) (t : Z) (c : X509CertificateRecord) : X509CertificateRecord :=
  Certificate (cert_id c) (orgAgentId c) (keyType c) st (validFrom c) (expiry c) (certificateBase64 c) (keyId c)
    (createdAt c) (createdBy c) t user.

Definition updateStatus (id : string) (st : x5cRecordStatus.t) (user : string) : eff world X509CertificateRecord :=
  t ← now;
  found ← gets (fun w => first (fun c => String.eqb (cert_id c) id) (certificates w));
  match found with
  | Some c =>
      _ ← modify (fun w => set_certificates
            (update_where (fun c => String.eqb (cert_id c) id) (set_status st user t) (certificates w)) w);
      mret (set_status st user t c)
  | None => throw prisma_missing
  end.

Definition exists_ (id : string) : eff world bool :=
  gets (fun w => existsb (fun c => String.eqb (cert_id c) id) (certificates w)).

(** [expiryDate.setDate(expiryDate.getDate() + days)], in the time zone UTC. *)
Definition findExpiringCertificatesByOrg (org : string) (days : Z) : eff world (list X509CertificateRecord) :=
  t ← now;
  gets (fun w => sort_asc expiry (List.filter (fun c => belongs w org c
    && (expiry c <=? t + days * Date.ms_per_day) && bool_decide (status c = Active)) (certificates w))).

Definition getCurrentActiveCertificate (org : string) : eff world (option X509CertificateRecord) :=
  t ← now;
  gets (fun w => latest createdAt (List.filter (fun c => belongs w org c && bool_decide (status c = Active)
    && (validFrom c <=? t) && (t <=? expiry c)) (certificates w))).

(** ** Service *)

Definition agent_missing : exn := http_exn NotFoundException "Agent details not found".

Definition getAgentEndpoint (org : string) : eff world string :=
  found ← gets (fun w => first (agent_of org) (agents w));
  match found with
  | None => throw agent_missing
  | Some a =>
      match agentEndPoint a with
      | None => throw agent_missing
      | Some e => if String.eqb (Str.trim e) "" then throw agent_missing else mret e
      end
  end.

Definition type_error {T} : eff world T := throw (js_error "Cannot read properties of undefined").

Definition collision_message : string := "Certificate date range collides with existing certificates for this organization".

(** The status of a new certificate: active when no active one overlaps it, pending
    when only active ones do. *)
Definition new_status (d : CertificateDateCheckDto) (conflict : exn) : eff world x5cRecordStatus.t :=
  active ← hasDateCollision d;
  if bool_decide (active = []) then mret Active else
  pending ← hasDateCollision (DateCheck (dc_orgId d) (dc_validFrom d) (dc_expiry d) (dc_keyType d) PendingActivation
              (excludeCertificateId d));
  if bool_decide (pending = []) then mret PendingActivation else throw conflict.

Definition createCertificate (org : string) (o : X509CreateCertificateOptions) (user : string) : eff world X509CertificateRecord :=
  rpc (
    endpoint ← getAgentEndpoint org;
    let url := endpoint +:+ "/x509" in
    match validity o, authorityKey o with
    | Some v, Some kt =>
        certStatus ← new_status (DateCheck org (notBefore v) (notAfter v) kt Active None)
                       (http_exn ConflictException collision_message);
        cs ← placed (AgentCreate o url org);
        reply ← lift (on_create cs);
        match reply with
        | None => type_error
        | Some r => create (Entity org (publicCertificate r) kt certStatus (notBefore v) (notAfter v) user user (agent_keyId r))
        end
    | _, _ => type_error
    end).

Definition activation_conflict (collisions : list X509CertificateRecord) : exn :=
  http_exn ConflictException (collision_message +:+
    ", In order to active this you need to Inactivate the previous one.. Conflict Records:[" +:+
    Str.join "," (map cert_id collisions) +:+ "]").

Definition activateCertificate (org id user : string) : eff world X509CertificateRecord :=
  c ← findById org id;
  collisions ← hasDateCollision (DateCheck org (Some (validFrom c)) (Some (expiry c)) (Some (keyType c)) Active (Some id));
  if bool_decide (collisions = []) then updateStatus id Active user
  else throw (activation_conflict collisions).

Definition deActivateCertificate (org id user : string) : eff world X509CertificateRecord :=
  _ ← findById org id; updateStatus id InActive user.

Definition internal (m : string) : exn := http_exn InternalServerErrorException m.

Definition parseAsn1Date (value : option asn_time) (fieldName : string) : result Z :=
  match value with
  | None => Throw (internal ("Certificate validity." +:+ fieldName +:+ " is missing"))
  | Some v =>
      match (match utcTime v with Some s => Some s | None => generalTime v end) with
      | None => Throw (internal ("Certificate validity." +:+ fieldName +:+ " has neither utcTime nor generalTime"))
      | Some s =>
          if String.eqb s "" then Throw (internal ("Certificate validity." +:+ fieldName +:+ " has neither utcTime nor generalTime"))
          else match Date.parse s with
               | Some t => Ok t
               | None => Throw (internal ("Invalid " +:+ fieldName +:+ " date in certificate: " +:+ s))
               end
      end
  end.

Definition importCertificate (org : string) (o : IX509ImportCertificateOptions) (user : string) : eff world X509CertificateRecord :=
  rpc (
    endpoint ← getAgentEndpoint org;
    cs ← placed (AgentDecode (imp_certificate o) (endpoint +:+ "/x509/decode") org);
    reply ← lift (on_decode cs);
    match reply with
    | None => throw (http_exn NotFoundException "Error while decoding x509 certificate.")
    | Some d =>
        if negb (match crv d with Some k => existsb (String.eqb k) x5cKeyType | None => false end)
        then throw (internal "Failed to import x509 certificate")
        else
          from ← lift (parseAsn1Date (asn_notBefore d) "notBefore");
          until ← lift (parseAsn1Date (asn_notAfter d) "notAfter");
          certStatus ← new_status (DateCheck org (Some from) (Some until) (crv d) Active None) (http_exn UnprocessableEntityException collision_message);
          endpoint ← getAgentEndpoint org;
          cs ← placed (AgentImport o (endpoint +:+ "/x509/import") org);
          reply ← lift (on_import cs);
          match reply with
          | None => type_error
          | Some r => create (Entity org (publicCertificate r) (crv d) certStatus (Some from) (Some until) user user (agent_keyId r))
          end
    end).

Definition getCertificateByOrgId org st kt page limit := findAll org st kt page limit.
Definition getCertificateById org id := findById org id.

(** The messages that change the table. *)
Inductive message :=
  | CreateCertificate (org : string) (o : X509CreateCertificateOptions) (user : string)
  | ActivateCertificate (org id user : string)
  | DeActivateCertificate (org id user : string)
  | ImportCertificate (org : string) (o : IX509ImportCertificateOptions) (user : string).

Definition handle (m : message) : eff world X509CertificateRecord :=
  match m with
  | CreateCertificate org o user => createCertificate org o user
  | ActivateCertificate org id user => activateCertificate org id user
  | DeActivateCertificate org id user => deActivateCertificate org id user
  | ImportCertificate org o user => importCertificate org o user
  end.
End x509.

(** ** Laws

    [change w w'] is what a message may do to the certificates; the theorems below
    need nothing else of the code. *)

Definition overlap (c c' : X509CertificateRecord) : Prop := validFrom c <= expiry c' /\ validFrom c' <= expiry c.

(** Both belong to some organization. *)
Definition together (w : world) (c c' : X509CertificateRecord) : Prop :=
  exists org, belongs w org c = true /\ belongs w org c' = true.

(** Nothing of the organization, key type and status of [c] overlaps it. *)
Definition free_for (w : world) (org : string) (st : x5cRecordStatus.t) (c : X509CertificateRecord) : Prop :=
  forall c', c' ∈ certificates w -> cert_id c' <> cert_id c -> status c' = st -> keyType c' = keyType c ->
    belongs w org c' = true -> ~ overlap c c'.

(** A step keeps the agents and draws identifiers forward. *)
Definition advances (w w' : world) : Prop := agents w' = agents w /\ (drawn w <= drawn w')%nat.

Section laws.
Context {A : AgentService} {U : UuidSource}.

Inductive change (w w' : world) : Prop :=
  | nothing : certificates w' = certificates w -> change w w'
  | added org a c n : first (agent_of org) (agents w) = Some a -> orgAgentId c = agent_id a ->
      cert_id c = uuid n -> (drawn w <= n < drawn w')%nat -> status c <> InActive -> free_for w org (status c) c ->
      certificates w' = (certificates w ++ [c])%list -> change w w'
  | retired id user t : certificates w' =
      update_where (fun c => String.eqb (cert_id c) id) (set_status InActive user t) (certificates w) -> change w w'
  | activated org c user t : c ∈ certificates w -> belongs w org c = true -> free_for w org Active c ->
      certificates w' = update_where (fun c' => String.eqb (cert_id c') (cert_id c)) (set_status Active user t) (certificates w) ->
      change w w'.

(** Identifiers are primary keys, and those of certificates were drawn. *)
Record keyed (w : world) : Prop := Keyed {
  k_agents : NoDup (agent_id <$> agents w);
  k_ids : NoDup (cert_id <$> certificates w);
  k_drawn c : c ∈ certificates w -> exists n, (n < drawn w)%nat /\ cert_id c = uuid n;
}.

(** No two live certificates of an organization, a key type and a status overlap. *)
Definition disjoint (w : world) : Prop := forall c c', c ∈ certificates w -> c' ∈ certificates w ->
  cert_id c <> cert_id c' -> status c = status c' -> status c <> InActive -> keyType c = keyType c' ->
  together w c c' -> ~ overlap c c'.

Lemma overlap_sym c c' : overlap c c' -> overlap c' c.
Proof. unfold overlap. tauto. Qed.
Lemma together_sym w c c' : together w c c' -> together w c' c.
Proof. intros (o & ? & ?). by exists o. Qed.

Lemma belongs_elem w org c : belongs w org c = true ->
  exists a, a ∈ agents w /\ agent_id a = orgAgentId c /\ agent_orgId a = Some org.
Proof.
  intros (a & Ha & [Hid%String.eqb_eq Ho%bool_decide_eq_true]%andb_true_iff)%existsb_exists.
  apply list_elem_of_In in Ha. by exists a.
Qed.

(** A certificate belongs to the organization of its agent only. *)
Lemma belongs_unique w a org c : NoDup (agent_id <$> agents w) -> a ∈ agents w -> orgAgentId c = agent_id a ->
  belongs w org c = true -> agent_orgId a = Some org.
Proof.
  intros Hnd Ha Hc (a' & Ha' & Hid & Ho)%belongs_elem.
  assert (a = a') as -> by (apply (unique_key agent_id (agents w)); [done..|congruence]). done.
Qed.

Lemma together_ext w w' c c' d d' : agents w' = agents w -> orgAgentId d = orgAgentId c -> orgAgentId d' = orgAgentId c' ->
  together w' d d' -> together w c c'.
Proof. intros Ha E E' (org & H & H'). exists org. unfold belongs in *. by rewrite Ha, E, E' in *. Qed.

(** [free_for], seen from a row of the same organization. *)
Lemma free_together w org st c c' : keyed w -> belongs w org c = true -> free_for w org st c ->
  c' ∈ certificates w -> cert_id c' <> cert_id c -> status c' = st -> keyType c' = keyType c -> together w c c' ->
  ~ overlap c c'.
Proof.
  intros [Hna _ _] Hb Hf Hc' Hne Hs Hk (o & Ho & Ho'). apply Hf; try done.
  apply belongs_elem in Ho as (a & Ha & Hid & Hao).
  pose proof (belongs_unique w a org c Hna Ha (eq_sym Hid) Hb). congruence.
Qed.

(** A row after an update of the status of the row [id]. *)
Lemma update_cases id st user t cs c : c ∈ update_where (fun c => String.eqb (cert_id c) id) (set_status st user t) cs ->
  exists c0, c0 ∈ cs /\ cert_id c = cert_id c0 /\ orgAgentId c = orgAgentId c0 /\ keyType c = keyType c0 /\
    (forall d, overlap c d <-> overlap c0 d) /\ (forall d, overlap d c <-> overlap d c0) /\
    ((cert_id c0 = id /\ status c = st) \/ (cert_id c0 <> id /\ status c = status c0)).
Proof.
  intros (c0 & Hin & ->)%elem_of_update_where. exists c0. split; [done|].
  destruct (String.eqb_spec (cert_id c0) id); simpl; split_and!; auto.
Qed.

Lemma keyed_update w w' id st user t : advances w w' -> keyed w ->
  certificates w' = update_where (fun c => String.eqb (cert_id c) id) (set_status st user t) (certificates w) -> keyed w'.
Proof.
  intros [Hag Hdr] [Hna Hids Hd] Hcs. split; rewrite ?Hag, ?Hcs; [done| |].
  - by rewrite (fmap_update_where cert_id) by done.
  - intros c (c0 & Hc0 & -> & _)%update_cases. destruct (Hd c0 Hc0) as (m & ? & ?). exists m. split; [lia | done].
Qed.

Lemma keyed_same w w' : advances w w' -> certificates w' = certificates w -> keyed w -> keyed w'.
Proof.
  intros [Hag Hdr] Hcs [Hna Hids Hd]. split; rewrite ?Hag, ?Hcs; try done.
  intros c Hc. destruct (Hd c Hc) as (m & ? & ?). exists m. split; [lia | done].
Qed.

Lemma keyed_added w w' c n : advances w w' -> keyed w -> cert_id c = uuid n -> (drawn w <= n < drawn w')%nat ->
  certificates w' = (certificates w ++ [c])%list -> keyed w'.
Proof.
  intros [Hag Hdr] [Hna Hids Hd] Hid Hn Hcs. split; rewrite ?Hag, ?Hcs; [done| |].
  - rewrite fmap_app. apply NoDup_app. split_and!; [done| |apply NoDup_singleton].
    intros x (c0 & -> & Hc0)%list_elem_of_fmap Hx. apply list_elem_of_singleton in Hx.
    destruct (Hd c0 Hc0) as (m & Hm & Hm'). rewrite Hm', Hid in Hx. apply (inj uuid) in Hx. lia.
  - intros c0 [Hc0|Hc0%list_elem_of_singleton]%elem_of_app; [|subst c0; exists n; split; [lia | done]].
    destruct (Hd c0 Hc0) as (m & ? & ?). exists m. split; [lia | done].
Qed.

Lemma disjoint_added w w' org a c : keyed w -> disjoint w -> agents w' = agents w ->
  first (agent_of org) (agents w) = Some a -> orgAgentId c = agent_id a -> free_for w org (status c) c ->
  certificates w' = (certificates w ++ [c])%list -> disjoint w'.
Proof.
  intros Hk Hdis Hag Ha Hca Hfree Hcs.
  assert (Hb : belongs w org c = true).
  { apply first_Some in Ha as [Hin Ho]. apply existsb_exists. exists a. rewrite Hca, String.eqb_refl. simpl.
    split; [by apply list_elem_of_In | done]. }
  intros c1 c2. rewrite Hcs. intros [H1|H1%list_elem_of_singleton]%elem_of_app [H2|H2%list_elem_of_singleton]%elem_of_app Hne Hs Hs' Hkt Ht; subst;
    apply (together_ext w w' _ _ _ _ Hag eq_refl eq_refl) in Ht.
  - by apply Hdis.
  - intros Hov%overlap_sym. revert Hov. apply (free_together w org (status c)); try done. by apply together_sym.
  - by apply (free_together w org (status c)).
  - done.
Qed.

Lemma disjoint_retired w w' id user t : disjoint w -> agents w' = agents w ->
  certificates w' = update_where (fun c => String.eqb (cert_id c) id) (set_status InActive user t) (certificates w) -> disjoint w'.
Proof.
  intros Hdis Hag Hcs c c'. rewrite Hcs.
  intros (d & Hd & Ei & Eo & Ek & Ev & _ & Es)%update_cases (d' & Hd' & Ei' & Eo' & Ek' & _ & Ev' & Es')%update_cases Hne Hs Hs' Hk Ht.
  rewrite Ev, Ev'. destruct Es as [[_ ?]|[_ ?]], Es' as [[_ ?]|[_ ?]]; try congruence.
  apply (Hdis d d'); try congruence. by apply (together_ext w w' d d' c c').
Qed.

Lemma disjoint_activated w w' org c user t : keyed w -> disjoint w -> agents w' = agents w ->
  c ∈ certificates w -> belongs w org c = true -> free_for w org Active c ->
  certificates w' = update_where (fun c' => String.eqb (cert_id c') (cert_id c)) (set_status Active user t) (certificates w) ->
  disjoint w'.
Proof.
  intros Hkey Hdis Hag Hc Hb Hfree Hcs c1 c2. rewrite Hcs.
  intros (d & Hd & Ei & Eo & Ek & Ev & _ & Es)%update_cases (d' & Hd' & Ei' & Eo' & Ek' & _ & Ev' & Es')%update_cases Hne Hs Hs' Hk Ht.
  apply (together_ext w w' d d') in Ht; [|done..]. rewrite Ev, Ev'.
  assert (Hone : forall e, e ∈ certificates w -> cert_id e = cert_id c -> e = c).
  { intros e He Hi. by apply (unique_key cert_id (certificates w)); [apply Hkey|..]. }
  destruct Es as [[Hi Es]|[Hi Es]], Es' as [[Hi' Es']|[Hi' Es']].
  - congruence.
  - apply Hone in Hi as ->; [|done]. apply (free_together w org Active); (done || congruence).
  - apply Hone in Hi' as ->; [|done]. intros Hov%overlap_sym. revert Hov.
    apply (free_together w org Active); try (done || congruence). by apply together_sym.
  - apply (Hdis d d'); congruence.
Qed.

Definition inv (w : world) : Prop := keyed w /\ disjoint w.

Lemma change_inv w w' : advances w w' -> change w w' -> inv w -> inv w'.
Proof.
  intros Hadv Hch [Hk Hd]. pose proof Hadv as [Hag _]. destruct Hch as [Hcs|org a c n|id user t|org c user t].
  - split; [by apply (keyed_same w w')|]. intros c c'. rewrite Hcs. intros Hc Hc' Hne Hs Hs' Hkt Ht.
    apply Hd; try done. by apply (together_ext w w' c c' c c').
  - split; [by eapply keyed_added | by eapply disjoint_added].
  - split; [by eapply keyed_update | by eapply disjoint_retired].
  - split; [by eapply keyed_update | by eapply disjoint_activated].
Qed.
End laws.

(** ** What the messages do *)

Section messages.
Context {A : AgentService} {U : UuidSource}.

(** A computation that reads the tables and talks to the agent. *)
Definition same_tables (w w' : world) : Prop :=
  agents w' = agents w /\ certificates w' = certificates w /\ drawn w' = drawn w.

#[local] Instance same_tables_preorder : PreOrder same_tables.
Proof. unfold same_tables. split; [done|]. intros w w1 w2 (? & ? & ?) (? & ? & ?). split_and!; congruence. Qed.

Abbreviation quiet := (frames same_tables).

Lemma quiet_placed c : quiet (placed c).
Proof. done. Qed.
Hint Resolve quiet_placed : platform.

Lemma quiet_endpoint org : quiet (getAgentEndpoint org).
Proof. unfold getAgentEndpoint, agent_missing. solve_frames. Qed.
Lemma quiet_new_status d e : quiet (new_status d e).
Proof. unfold new_status, hasDateCollision. solve_frames. Qed.
Lemma quiet_findById org id : quiet (findById org id).
Proof. unfold findById. solve_frames. Qed.

(** Running [m] from [w] is a change of the certificates. *)
Definition does {T} (m : eff world T) (w : world) : Prop := advances w (m w).2 /\ change w (m w).2.

Lemma does_quiet {T} (m : eff world T) w : quiet m -> does m w.
Proof. intros Hm. destruct (Hm w) as (Ha & Hc & Hd). split; [split; [done | lia] | by apply nothing]. Qed.

Lemma does_bind {T V} (m : eff world T) (k : T -> eff world V) w :
  quiet m -> (forall a w', m w = (Ok a, w') -> does (k a) w') -> does (m ≫= k) w.
Proof.
  intros Hm Hk. pose proof (Hm w) as (Ha & Hc & Hd). pose proof (does_quiet m w Hm) as Hq.
  unfold does in *. rewrite run_bind. destruct (m w) as [[a|e] w1] eqn:E; [|done].
  destruct (Hk a w1 eq_refl) as [[Ha' Hd'] Hch]. simpl in *. split; [split; [congruence | lia]|].
  assert (Hb : forall org c, belongs w1 org c = belongs w org c) by (intros; unfold belongs; by rewrite Ha).
  assert (Hf : forall org st c, free_for w1 org st c -> free_for w org st c).
  { intros org st c H c' Hc' Hne Hs Hkt Hbc. apply H; [by rewrite Hc|done..|by rewrite Hb]. }
  destruct Hch as [Hcs|org a' c n Ho Hc' Hi Hn Hst Hfree Hcs|id user t Hcs|org c user t Hin Hbc Hfree Hcs].
  - apply nothing. congruence.
  - eapply (added w _ org a' c n); first [congruence | lia | by apply Hf].
  - eapply retired. by rewrite <- Hc.
  - eapply (activated w _ org c user t); first [congruence | by apply Hf].
Qed.

Lemma does_rpc {T} (m : eff world T) w : does m w -> does (rpc m) w.
Proof. unfold does, rpc, try_catch. destruct (m w) as [[a|e] w1]; done. Qed.

(** A bind with a quiet first part. *)
Ltac quietly := apply does_bind; [solve_frames | intros ? ? _].
Hint Resolve quiet_endpoint quiet_new_status quiet_findById : platform.

Definition with_dc_status (d : CertificateDateCheckDto) (st : x5cRecordStatus.t) : CertificateDateCheckDto :=
  DateCheck (dc_orgId d) (dc_validFrom d) (dc_expiry d) (dc_keyType d) st (excludeCertificateId d).

(** Nothing collides. *)
Definition collision_free (w : world) (d : CertificateDateCheckDto) : Prop :=
  forall c, c ∈ certificates w -> collides w d c = false.

(** The status chosen for a certificate is one under which nothing collides with it. *)
Lemma new_status_spec d e w st w' : dc_status d = Active -> new_status d e w = (Ok st, w') ->
  w' = w /\ st <> InActive /\ collision_free w (with_dc_status d st).
Proof.
  intros Hd. unfold new_status, hasDateCollision. rewrite !run_bind. unfold gets at 1. 
  case_bool_decide as Ha; [intros [= <- <-]|].
  - split_and!; [done..|]. intros c. apply filter_b_nil. by destruct d; simpl in *; subst.
  - rewrite run_bind. unfold gets. case_bool_decide as Hp; [|done]. intros [= <- <-].
    split_and!; [done..|]. intros c. by apply filter_b_nil.
Qed.

Lemma create_does org b64 kt st from until u u' k w : st <> InActive -> collision_free w (DateCheck org from until kt st None) ->
  does (create (Entity org b64 kt st from until u u' k)) w.
Proof.
  intros Hst Hfree. unfold does, create, getOrgAgentByOrgId.
  cbn [en_orgId en_certificateBase64 en_keyType en_status en_validFrom en_expiry en_createdBy en_lastChangedBy en_keyId].
  rewrite !run_bind. unfold gets. destruct (first (agent_of org) (agents w)) as [a|] eqn:Ha; [|exact (does_quiet _ w (frames_throw _ _))].
  rewrite run_ret. destruct kt as [kt|], from as [from|], until as [until|], b64 as [b64|];
    try exact (does_quiet _ w (frames_throw _ _)).
  cbn -[uuid free_for]. split; [split; [done | simpl; lia]|].
  eapply (added w _ org a _ (drawn w)); [done| | | | | |reflexivity]; [done|done|simpl; lia|done|].
  intros c' Hc' _ Hs Hkt Hb [Ho1 Ho2]. specialize (Hfree c' Hc'). unfold collides in Hfree. simpl in *.
  rewrite Hs, Hkt, Hb, String.eqb_refl, bool_decide_true in Hfree by done. simpl in Hfree.
  apply andb_false_iff in Hfree as [Hfree|?]; [|done]. apply andb_false_iff in Hfree as [?%Z.leb_gt|?%Z.leb_gt]; lia.
Qed.

Lemma new_status_then {V} org from until kt e (k : x5cRecordStatus.t -> eff world V) w :
  (forall st, st <> InActive -> collision_free w (DateCheck org from until kt st None) -> does (k st) w) ->
  does (st ← new_status (DateCheck org from until kt Active None) e; k st) w.
Proof.
  intros Hk. apply does_bind; [solve_frames|]. intros st w' E.
  apply new_status_spec in E as (-> & Hst & Hfree); [|done]. by apply Hk.
Qed.

Lemma updateStatus_run id st u w : exists t r,
  updateStatus id st u w = (r, World (agents w)
    (update_where (fun c => String.eqb (cert_id c) id) (set_status st u t) (certificates w)) (calls w) (S (ticks w)) (drawn w)).
Proof.
  exists (reading (ticks w)). unfold updateStatus. rewrite !run_bind. unfold now at 1. rewrite run_bind. unfold gets.
  cbn [certificates]. destruct (first _ (certificates w)) as [c|] eqn:E; [eexists; done|].
  eexists. rewrite update_where_none; [done|]. by apply first_None.
Qed.

Lemma findById_ok org id w c w' : findById org id w = (Ok c, w') ->
  w' = w /\ c ∈ certificates w /\ cert_id c = id /\ belongs w org c = true.
Proof.
  unfold findById. rewrite run_bind. unfold gets. destruct (first _ _) as [c0|] eqn:E; [|done]. intros [= <- <-].
  apply first_Some in E as [Hc [Hid%String.eqb_eq Hb]%andb_true_iff]. done.
Qed.

(** It depends on the tables only. *)
Lemma collision_free_after {T} (m : eff world T) w d a w' : quiet m -> m w = (Ok a, w') ->
  collision_free w d -> collision_free w' d.
Proof.
  intros Hm E H c. pose proof (Hm w) as (Ha & Hc & _). rewrite E in Ha, Hc. simpl in *. rewrite Hc. intros Hin.
  specialize (H c Hin). unfold collides, belongs in *. by rewrite Ha.
Qed.

(** The steps between the check and the write are quiet. *)
Ltac quietly_free H := apply does_bind; [solve_frames | intros ? ? E; eapply collision_free_after in H; [clear E | | exact E]; [|solve_frames]].

Lemma create_message_does org o u w : does (createCertificate org o u) w.
Proof.
  unfold createCertificate. apply does_rpc. quietly. destruct (validity o) as [v|], (authorityKey o) as [kt|];
    try solve [apply does_quiet; unfold type_error; solve_frames].
  apply new_status_then. intros st Hst Hfree.
  quietly_free Hfree. quietly_free Hfree. case_match; [|exact (does_quiet _ _ (frames_throw _ _))].
  by apply create_does.
Qed.

Lemma import_message_does org o u w : does (importCertificate org o u) w.
Proof.
  unfold importCertificate. apply does_rpc. quietly. quietly. quietly. case_match; [|by apply does_quiet].
  case_match; [by apply does_quiet|]. clear H0. quietly. quietly. apply new_status_then. intros st Hst Hfree.
  quietly_free Hfree. quietly_free Hfree. quietly_free Hfree. case_match; [|exact (does_quiet _ _ (frames_throw _ _))].
  by apply create_does.
Qed.

Lemma free_for_collisions w org c : List.filter (collides w
    (DateCheck org (Some (validFrom c)) (Some (expiry c)) (Some (keyType c)) Active (Some (cert_id c)))) (certificates w) = [] ->
  free_for w org Active c.
Proof.
  intros H c' Hc' Hne Hs Hk Hb [H1 H2]. apply (proj1 (filter_b_nil _ _) H) in Hc'. unfold collides in Hc'. simpl in Hc'.
  rewrite Hs, Hk, Hb, String.eqb_refl, (proj2 (Z.leb_le _ _) H2), (proj2 (Z.leb_le _ _) H1) in Hc'. simpl in Hc'.
  rewrite (bool_decide_false (Some (cert_id c') = Some (cert_id c))) in Hc' by congruence. by rewrite andb_false_r in Hc'.
Qed.

Lemma activate_message_does org id u w : does (activateCertificate org id u) w.
Proof.
  unfold activateCertificate. apply does_bind; [solve_frames|]. intros c w' (-> & Hc & <- & Hb)%findById_ok.
  unfold hasDateCollision. apply does_bind; [solve_frames|]. intros cs w' [= <- <-].
  case_bool_decide as Hf; [|by apply does_quiet]. apply free_for_collisions in Hf.
  destruct (updateStatus_run (cert_id c) Active u w) as (t & r & E). unfold does. rewrite E. split; [done|].
  by eapply activated.
Qed.

Lemma deactivate_message_does org id u w : does (deActivateCertificate org id u) w.
Proof.
  unfold deActivateCertificate. apply does_bind; [solve_frames|]. intros c w' (-> & Hc & <- & Hb)%findById_ok.
  destruct (updateStatus_run (cert_id c) InActive u w) as (t & r & E). unfold does. rewrite E. split; [done|].
  by eapply retired.
Qed.

Lemma handle_inv m w : inv w -> inv (handle m w).2.
Proof.
  assert (H : does (handle m) w).
  { destruct m; [apply create_message_does | apply activate_message_does | apply deactivate_message_does | apply import_message_does]. }
  destruct H as [Hadv Hch]. by apply change_inv.
Qed.

(** After any sequence of messages. *)
Definition run_messages (ms : list message) (w : world) : world := fold_left (fun w m => (handle m w).2) ms w.

(** C4. Whatever certificates an organization creates, imports, activates and
    deactivates, and whatever its agent answers, its active certificates of one key
    type never overlap in time, and neither do its pending ones. *)
Theorem live_certificates_disjoint ms w : keyed w -> disjoint w -> disjoint (run_messages ms w).
Proof.
  intros Hk Hd. enough (H : inv (run_messages ms w)) by apply H. revert w Hk Hd. unfold run_messages.
  induction ms as [|m ms IH]; intros w Hk Hd; [done|]. simpl.
  destruct (handle_inv m w) as [Hk' Hd']; [done|]. by apply IH.
Qed.

Lemma activation_collisions w org c : c ∈ certificates w -> belongs w org c = true -> free_for w org Active c ->
  List.filter (collides w (DateCheck org (Some (validFrom c)) (Some (expiry c)) (Some (keyType c)) Active (Some (cert_id c))))
    (certificates w) = [] \/ cert_id c = "".
Proof.
  intros Hc Hb Hf. destruct (decide (cert_id c = "")) as [|Hne]; [by right|]. left.
  destruct (List.filter _ _) as [|c' cs] eqn:E; [done|]. exfalso.
  assert (Hin : In c' (c' :: cs)) by (by left). rewrite <- E in Hin.
  apply filter_In in Hin as [Hin%list_elem_of_In Hcol]. unfold collides in Hcol. simpl in Hcol.
  rewrite !andb_true_iff, negb_true_iff, bool_decide_eq_true, String.eqb_eq, !Z.leb_le in Hcol.
  destruct Hcol as [[[[[Hs Hk] Hb'] H1] H2] Hx]. apply (Hf c' Hin); try done.
  intros Heq. rewrite Heq, bool_decide_true in Hx by done. destruct (cert_id c); [done | discriminate].
Qed.

(** [activateCertificate] makes a certificate of the organization active exactly
    when no other active one of its key type overlaps it; an unknown certificate is
    not found and one in conflict stays as it is. *)
Theorem activation_exact org id user w : id <> "" -> keyed w ->
  match activateCertificate org id user w with
  | (Ok c', w') => exists c t, c ∈ certificates w /\ cert_id c = id /\ belongs w org c = true /\ free_for w org Active c /\
      c' = set_status Active user t c /\
      certificates w' = update_where (fun c => String.eqb (cert_id c) id) (set_status Active user t) (certificates w)
  | (Throw e, w') => certificates w' = certificates w /\
      forall c, c ∈ certificates w -> cert_id c = id -> belongs w org c = true -> ~ free_for w org Active c
  end.
Proof.
  intros Hid Hkey. unfold activateCertificate. rewrite run_bind. destruct (findById org id w) as [[c|e] w'] eqn:E.
  - apply findById_ok in E as (-> & Hc & <- & Hb). unfold hasDateCollision. rewrite run_bind. unfold gets.
    case_bool_decide as Hf.
    + pose proof (free_for_collisions _ _ _ Hf) as Hfree. unfold updateStatus. rewrite !run_bind. unfold now at 1.
      rewrite run_bind. unfold gets. cbn [certificates].
      destruct (first _ (certificates w)) as [c1|] eqn:E.
      * apply first_Some in E as [Hc1 Hi%String.eqb_eq]. assert (c1 = c) as -> by (apply (unique_key cert_id (certificates w)); [apply Hkey|done..]).
        by exists c, (reading (ticks w)).
      * rewrite first_None in E. specialize (E c Hc). by rewrite String.eqb_refl in E.
    + split; [done|]. intros c1 Hc1 Hi Hb1 Hfree. assert (c1 = c) as -> by (apply (unique_key cert_id (certificates w)); [apply Hkey|done..]).
      by destruct (activation_collisions w org c Hc Hb Hfree).
  - unfold findById in E. rewrite run_bind in E. unfold gets in E. destruct (first _ _) as [c|] eqn:Hf; [done|]. simplify_eq/=.
    unfold throw in E. simplify_eq. split; [done|]. intros c Hc Hi Hb. rewrite first_None in Hf. specialize (Hf c Hc).
    by rewrite Hi, String.eqb_refl, Hb in Hf.
Qed.
End messages.

(** ** A sample organization *)

Module X509Sample.
#[global] Instance uuids : UuidSource.
Proof. refine {| uuid n := "c" +:+ pretty n |}. Defined.
#[global] Instance service : AgentService := {|
  on_create _ := Ok (Some (AgentCertificate (Some "MIIB") (Some "key")));
  on_decode _ := Ok (Some (Decoded (Some "P-256") (Some (AsnTime (Some "2024-01-01T00:00:00.000Z") None))
                                   (Some (AsnTime None (Some "2025-01-01T00:00:00.000Z")))));
  on_import _ := Ok (Some (AgentCertificate (Some "MIIC") None));
  reading n := Z.of_nat n;
|}.

Definition start : world := World [Agent "a1" (Some "org1") (Some "http://agent")] [] [] 0 0.
Definition year (from until : Z) : message :=
  CreateCertificate "org1" (CreateOptions (Some (Some "P-256")) (Some (mkValidity (Some from) (Some until)))) "u".

(** The second overlaps the first and waits; the third has no room; the first is
    retired and the second activated. *)
Definition life : list message :=
  [year 0 100; year 50 150; year 60 70; DeActivateCertificate "org1" "c0" "u"; ActivateCertificate "org1" "c1" "u";
   ImportCertificate "org1" (ImportOptions "PEM" None) "u"].

Example certificate_life_result : map (fun c => (cert_id c, status c)) (certificates (run_messages life start)) =
  [("c0", InActive); ("c1", Active); ("c2", Active)].
Proof. vm_compute. reflexivity. Qed.

Lemma start_keyed : keyed start.
Proof. split; simpl; [apply NoDup_singleton | constructor | intros c Hc; by apply elem_of_nil in Hc]. Qed.

Lemma start_disjoint : disjoint start.
Proof. intros c c' Hc. by apply elem_of_nil in Hc. Qed.

Example live_certificates_disjoint_witness : disjoint (run_messages life start).
Proof. apply (live_certificates_disjoint life start start_keyed start_disjoint). Defined.

Lemma keyed_run ms : keyed (run_messages ms start).
Proof.
  assert (H : forall w, inv w -> inv (run_messages ms w)).
  { induction ms as [|m ms IH]; intros w Hw; [done|]. by apply IH, handle_inv. }
  apply H. split; [apply start_keyed | apply start_disjoint].
Qed.

(** After the first is retired the second can be activated. *)
Example activation_exact_witness : exists c, c ∈ certificates (run_messages (take 4 life) start) /\ cert_id c = "c1" /\
  free_for (run_messages (take 4 life) start) "org1" Active c.
Proof.
  pose proof (activation_exact "org1" "c1" "u" (run_messages (take 4 life) start) ltac:(discriminate) (keyed_run _)) as H.
  assert (Hok : is_ok (activateCertificate "org1" "c1" "u" (run_messages (take 4 life) start)).1 = true) by (vm_compute; reflexivity).
  destruct (activateCertificate _ _ _ _) as [[c'|e] w']; [|discriminate].
  destruct H as (c & t & Hc & Hi & _ & Hf & _). exists c. split; [exact Hc | split; [exact Hi | exact Hf]].
Defined.

(** Both requests look for collisions before either writes: nothing stops the second
    from becoming active as well. *)
Example concurrent_creation_overlaps :
  let d := DateCheck "org1" (Some 0) (Some 100) (Some "P-256") Active None in
  let entity st := Entity "org1" (Some "MIIB") (Some "P-256") st (Some 0) (Some 100) "u" "u" None in
  let two := (st ← new_status d prisma_missing; st' ← new_status d prisma_missing;
              _ ← create (entity st); create (entity st')) in
  map status (certificates (two start).2) = [Active; Active].
Proof. vm_compute. reflexivity. Qed.
End X509Sample.
