(* ===== verification/Oid4vcData.v ===== *)
(** * OpenID4VC issuers: data

    The rows the issuance service works on, the agent it calls, and the state of a run.
    The status lists are those of [StatusList], which the state contains. *)

From S2P Require Import Prelude Js CommonService X509 CredentialTemplates CredentialOffer IssuerMetadata StatusList.

Open Scope Z_scope.

(** ** Rows *)

Record org_agents := OrgAgent {
  oa_id : string;
  oa_orgId : option string;
  orgDid : option string;
  oa_agentEndPoint : option string;
  orgAgentTypeId : option string;
  tenantId : option string;
}.

Record org_agents_type := OrgAgentType { at_id : string; at_agent : string }.

Record oidc_issuer := OidcIssuer {
  is_id : string;
  is_created : Z;
  is_createdBy : string;
  is_publicIssuerId : string;
  is_metadata : Json.value;
  is_authorizationServerUrl : string;
  is_orgAgentId : string;
  batchCredentialIssuanceSize : Z;
  is_orgId : option string;
  isPrimary : bool;
}.

(** The columns the builders read, and the others *)
Record template_row := TemplateRow {
  tr_template : credential_template;
  tr_description : option string;
  tr_canBeRevoked : bool;
  tr_issuerId : string;
  tr_noticeUrl : option string;
  tr_createdAt : Z;
  tr_updatedAt : Z;
}.
Definition tr_id (t : template_row) : string := t_id (tr_template t).
Definition tr_name (t : template_row) : string := t_name (tr_template t).

Record oid4vc_credential := Oid4vcCredential {
  oc_id : string;
  oc_orgId : string;
  oc_issuanceSessionId : string;
  oc_credentialOfferId : string;
  oc_state : string;
  oc_contextCorrelationId : string;
  oc_createdBy : string;
  oc_lastChangedBy : string;
  credentialConfigurationIds : list string;
  oc_issuedCredentials : list string;
  oc_publicIssuerId : string;
}.

(** ** The agent *)

Record status_details := StatusDetails { sd_listId : string; sd_index : Z; sd_listSize : Z }.

(** A built credential with the place in a status list it is given *)
Definition listed_credential : Type := BuiltCredential * option status_details.

Record offer_sent := OfferSent { of_offer : CredentialOfferPayload; of_credentials : list listed_credential }.

(** A credential of an offer that the caller assembled: what the service reads, the rest as
    it came *)
Record d2a_signer := D2aSigner { ds_method : option string; ds_x5c : any; ds_did : option string }.
Record d2a_credential := D2aCredential {
  dc_signerOptions : option d2a_signer;
  dc_format : option string;
  dc_statusListDetails : option status_details;
  dc_rest : Json.value;
}.
Record d2a_offer := D2aOffer { do_credentials : list d2a_credential; do_isRevocable : bool; do_rest : Json.value }.

Inductive agent_body :=
  | IssuerCreation (config : Json.value)
  | TemplatePayload (p : issuer_payload)
  | CredentialPayload (o : offer_sent)
  | D2aPayload (o : d2a_offer)
  | IssuanceMetadata (m : any)
  | NoPayload.

Record call := AgentCall { cl_cmd : string; cl_body : agent_body; cl_url : string; cl_orgId : string }.

(** What the agent service answers, depending on every call made before: a value, or an
    error with the properties that are read. *)
Record rpc_error := RpcError { re_message : string; re_statusCode : option Z; re_status : option Z }.
Class IssuerAgent := {
  on_agent : list call -> any + rpc_error;
  reading : nat -> Z;
}.

(** ** The state *)

Record world := World {
  agents : list org_agents;
  agent_types : list org_agents_type;
  issuers : list oidc_issuer;
  templates : list template_row;
  certificates : list X509.X509CertificateRecord;
  sessions : list oid4vc_credential;
  status : Service.state;
  calls : list call;
  ticks : nat;
}.

Definition set_issuers v (w : world) : world := World (agents w) (agent_types w) v (templates w) (certificates w) (sessions w) (status w) (calls w) (ticks w).
Definition set_templates v (w : world) : world := World (agents w) (agent_types w) (issuers w) v (certificates w) (sessions w) (status w) (calls w) (ticks w).
Definition set_sessions v (w : world) : world := World (agents w) (agent_types w) (issuers w) (templates w) (certificates w) v (status w) (calls w) (ticks w).
Definition set_status v (w : world) : world := World (agents w) (agent_types w) (issuers w) (templates w) (certificates w) (sessions w) v (calls w) (ticks w).
(** A transaction of the issuance repository that throws *)
Definition rollback (w w' : world) : world :=
  World (agents w) (agent_types w) (issuers w) (templates w) (certificates w) (sessions w) (status w') (calls w') (ticks w').

Section primitives.
Context {U : UuidSource} {A : IssuerAgent}.

(** Identifiers are drawn from the source that also names the status lists. *)
Definition fresh : eff world string := fun w =>
  let s := status w in
  (Ok (uuid (Service.uuids s)), set_status (Service.State (Service.lists s) (Service.issued s) (S (Service.uuids s)) (Service.draws s)) w).
Definition now : eff world Z := fun w =>
  (Ok (reading (ticks w)), World (agents w) (agent_types w) (issuers w) (templates w) (certificates w) (sessions w) (status w) (calls w) (S (ticks w))).
Definition placed (c : call) : eff world (list call) := fun w =>
  let cs := (calls w ++ [c])%list in
  (Ok cs, World (agents w) (agent_types w) (issuers w) (templates w) (certificates w) (sessions w) (status w) cs (ticks w)).
(** A call of the status list allocator *)
Definition allocator {B} (m : eff Service.state B) : eff world B := fun w => let '(r, s) := m (status w) in (r, set_status s w).

(** [natsCall]: the error it throws for one of the agent service, after [agent] *)
Definition agent (c : call) : eff world (any + rpc_error) := cs ← placed c; mret (on_agent cs).
Definition nats_error (e : rpc_error) : exn :=
  Exn HttpException (re_message e) (Some (num_or (re_statusCode e) (num_or (re_status e) 500))) None.
Definition natsCall (c : call) : eff world any :=
  answer ← agent c;
  match answer with inl response => mret response | inr e => throw (nats_error e) end.
End primitives.

Definition bad_request (m : string) : exn := http_exn BadRequestException m.
Definition not_found (m : string) : exn := http_exn NotFoundException m.
Definition conflict (m : string) : exn := http_exn ConflictException m.
Definition internal (m : string) : exn := http_exn InternalServerErrorException m.
Definition type_error {B} : eff world B := throw not_an_object.
Definition prisma_validation : exn := Exn PrismaError "Invalid value" None None.
Definition prisma_foreign_key : exn := Exn PrismaError "Foreign key constraint failed" None (Some "P2003").
