(* ===== verification/Oid4vcRepository.v ===== *)
(** * OpenID4VC issuers: repository

    [oid4vc-issuance.repository.ts], one definition per method that the service calls. *)

From S2P Require Import Prelude Js Table CommonService X509 CredentialTemplates CredentialOffer IssuerMetadata StatusList Oid4vcData.

Open Scope Z_scope.

Section repository.
Context {U : UuidSource} {A : IssuerAgent}.

Definition agentNotFound : exn := not_found "Agent details not found".

(** ** Agents and organizations *)

Definition agent_of (org : string) (a : org_agents) : bool := bool_decide (oa_orgId a = Some org).

Definition getAgentEndPoint (orgId : string) : eff world org_agents :=
  t ← gets agents;
  match first (agent_of orgId) t with Some a => mret a | None => throw agentNotFound end.

(** An identifier that is [null] matches no type; destructuring [null] throws. *)
Definition getOrgAgentType (typeId : option string) : eff world string :=
  t ← gets agent_types;
  match first (fun r => bool_decide (typeId = Some (at_id r))) t with Some r => mret (at_agent r) | None => type_error end.

(** An absent tenant filters nothing. *)
Definition getOrganizationByTenantId (tenant : option string) : eff world (option org_agents) :=
  gets (fun w => first (fun a => match tenant with None => true | Some t => bool_decide (tenantId a = Some t) end) (agents w)).

(** ** Issuers *)

Definition issuer_is (id : string) (i : oidc_issuer) : bool := String.eqb (is_id i) id.

Definition getOidcIssuerDetailsById (issuerId : string) : eff world oidc_issuer :=
  t ← gets issuers;
  match first (issuer_is issuerId) t with Some i => mret i | None => throw prisma_missing end.

Definition agent_id_of_org (org : string) (t : list org_agents) (id : string) : bool := existsb (fun a => String.eqb (oa_id a) id && agent_of org a) t.

Definition getAllOidcIssuersByOrg (orgId : string) : eff world (list oidc_issuer) :=
  gets (fun w => sort_desc is_created (List.filter (fun i => agent_id_of_org orgId (agents w) (is_orgAgentId i)) (issuers w))).

(** The organizations a filter leaves: an absent one filters nothing. *)
Definition in_org (org : option string) (i : oidc_issuer) : bool := match org with None => true | Some _ => bool_decide (is_orgId i = org) end.

Definition hasPrimaryIssuer (orgId : string) : eff world bool :=
  gets (fun w => existsb (fun i => in_org (Some orgId) i && isPrimary i) (issuers w)).

Record IssuerMetadata := IssuerRow {
  im_publicIssuerId : any;
  im_createdById : string;
  im_orgAgentId : string;
  im_batchCredentialIssuanceSize : option Z;
  im_authorizationServerUrl : string;
  im_isPrimary : bool;
  im_orgId : string;
}.

(** [metadata] is a required column. *)
Definition addOidcIssuerDetails (m : IssuerMetadata) (issuerProfileJson : any) : eff world oidc_issuer :=
  match im_publicIssuerId m, issuerProfileJson with
  | Some (Json.JStr public), Some profile =>
      id ← fresh;
      t ← now;
      let row := OidcIssuer id t (im_createdById m) public profile (im_authorizationServerUrl m) (im_orgAgentId m)
        (default 0 (im_batchCredentialIssuanceSize m)) (Some (im_orgId m)) (im_isPrimary m) in
      _ ← modify (fun w => set_issuers (issuers w ++ [row])%list w);
      mret row
  | _, _ => throw prisma_validation
  end.

Record IssuerUpdation := IssuerUpdate {
  iu_issuerId : string;
  iu_display : any;
  iu_batchCredentialIssuanceSize : option Z;
  iu_isPrimary : option bool;
  iu_orgId : option string;
}.

Definition with_primary (b : bool) (i : oidc_issuer) : oidc_issuer :=
  OidcIssuer (is_id i) (is_created i) (is_createdBy i) (is_publicIssuerId i) (is_metadata i) (is_authorizationServerUrl i) (is_orgAgentId i)
    (batchCredentialIssuanceSize i) (is_orgId i) b.
Definition with_update (by_ : string) (c : IssuerUpdation) (i : oidc_issuer) : oidc_issuer :=
  OidcIssuer (is_id i) (is_created i) by_ (is_publicIssuerId i) (default (is_metadata i) (iu_display c)) (is_authorizationServerUrl i) (is_orgAgentId i)
    (default (batchCredentialIssuanceSize i) (iu_batchCredentialIssuanceSize c)) (is_orgId i) (default (isPrimary i) (iu_isPrimary c)).

(** [update] of a row that was found *)
Definition update_issuer (id : string) (f : oidc_issuer -> oidc_issuer) : eff world oidc_issuer :=
  t ← gets issuers;
  match first (issuer_is id) t with
  | None => throw prisma_missing
  | Some i => _ ← modify (set_issuers (update_where (issuer_is id) f t)); mret (f i)
  end.

Definition setPrimaryIssuerFailed : exn := bad_request "Cannot unset primary. Please assign another issuer as primary first.".
Definition issuerNotFound : exn := not_found "OID4VC issuer not found.".

Definition updateOidcIssuerDetails (createdById : string) (c : IssuerUpdation) : eff world oidc_issuer :=
  transaction rollback (
    t ← gets issuers;
    match first (fun i => issuer_is (iu_issuerId c) i && in_org (iu_orgId c) i) t with
    | None => throw issuerNotFound
    | Some _ =>
        _ ← (if default false (iu_isPrimary c)
             then modify (fun w => set_issuers (update_where (fun i => in_org (iu_orgId c) i && isPrimary i) (with_primary false) (issuers w)) w)
             else if existsb (fun i => in_org (iu_orgId c) i && isPrimary i && negb (issuer_is (iu_issuerId c) i)) t then mret tt
             else throw setPrimaryIssuerFailed);
        update_issuer (iu_issuerId c) (with_update createdById c)
    end).

(** The templates of an issuer refer to it. *)
Definition deleteOidcIssuer (issuerId : string) : eff world oidc_issuer :=
  w ← get;
  match first (issuer_is issuerId) (issuers w) with
  | None => throw prisma_missing
  | Some i =>
      if existsb (fun t => String.eqb (tr_issuerId t) issuerId) (templates w) then throw prisma_foreign_key else
      _ ← put (set_issuers (List.filter (fun i => negb (issuer_is issuerId i)) (issuers w)) w);
      mret i
  end.

(** ** Certificates *)

(** [org_agents: { orgId }]: the certificate's agent belongs to the organization. *)
Definition current (orgId kt : string) (t : Z) (agents : list org_agents) (c : X509.X509CertificateRecord) : bool :=
  agent_id_of_org orgId agents (X509.orgAgentId c) && bool_decide (X509.status c = x5cRecordStatus.Active) &&
  String.eqb (X509.keyType c) kt && (X509.validFrom c <=? t) && (t <=? X509.expiry c).

Definition getCurrentActiveCertificate (orgId kt : string) : eff world (option X509.X509CertificateRecord) :=
  t ← now;
  gets (fun w => latest X509.createdAt (List.filter (current orgId kt t (agents w)) (certificates w))).

(** ** Templates *)

Record template_data := TemplateData {
  td_name : option string;
  td_description : option (option string);
  td_format : option string;
  td_canBeRevoked : option bool;
  td_attributes : option template_body;
  td_appearance : any;
  td_issuerId : option string;
  td_signerOption : option SignerOption;
  td_noticeUrl : option (option string);
}.

Definition template_is (id : string) (t : template_row) : bool := String.eqb (tr_id t) id.
Definition of_issuer (issuerId : string) (t : template_row) : bool := String.eqb (tr_issuerId t) issuerId.

(** The required columns must be there. *)
Definition createTemplate (issuerId : string) (d : template_data) : eff world template_row :=
  match td_name d, td_format d, td_attributes d, td_appearance d, td_signerOption d with
  | Some n, Some f, Some a, Some ap, Some so =>
      w ← get;
      if negb (existsb (issuer_is issuerId) (issuers w)) then throw prisma_foreign_key else
      id ← fresh;
      t ← now;
      let row := TemplateRow (Template id n (Some f) so a ap) (default None (td_description d)) (default false (td_canBeRevoked d)) issuerId
        (default None (td_noticeUrl d)) t t in
      _ ← modify (fun w => set_templates (templates w ++ [row])%list w);
      mret row
  | _, _, _, _, _ => throw prisma_validation
  end.

Definition getTemplateById (templateId : string) : eff world (option template_row) := gets (fun w => first (template_is templateId) (templates w)).
Definition getTemplateByIds (ids : list string) (issuerId : string) : eff world (list template_row) :=
  match ids with
  | [] => mret []
  | _ => gets (fun w => List.filter (fun t => existsb (String.eqb (tr_id t)) ids && of_issuer issuerId t) (templates w))
  end.
Definition same_name (a b : string) : bool := String.eqb (Str.toLowerCase a) (Str.toLowerCase b).
Definition getTemplateByNameForIssuer (name : string) (issuerId : string) : eff world (list template_row) :=
  gets (fun w => List.filter (fun t => of_issuer issuerId t && same_name (tr_name t) name) (templates w)).
Definition getTemplatesByIssuerId (issuerId : string) : eff world (list template_row) :=
  gets (fun w => sort_desc tr_createdAt (List.filter (of_issuer issuerId) (templates w))).

Definition with_data (d : template_data) (at_ : Z) (t : template_row) : template_row :=
  let b := tr_template t in
  TemplateRow (Template (t_id b) (default (t_name b) (td_name d)) (match td_format d with Some f => Some f | None => t_format b end)
      (default (t_signerOption b) (td_signerOption d)) (default (t_attributes b) (td_attributes d)) (default (t_appearance b) (td_appearance d)))
    (default (tr_description t) (td_description d)) (default (tr_canBeRevoked t) (td_canBeRevoked d)) (default (tr_issuerId t) (td_issuerId d))
    (default (tr_noticeUrl t) (td_noticeUrl d)) (tr_createdAt t) at_.

Definition updateTemplate (templateId : string) (d : template_data) : eff world template_row :=
  at_ ← now;
  w ← get;
  match first (template_is templateId) (templates w) with
  | None => throw prisma_missing
  | Some t =>
      if match td_issuerId d with Some i => negb (existsb (issuer_is i) (issuers w)) | None => false end then throw prisma_foreign_key else
      _ ← put (set_templates (update_where (template_is templateId) (with_data d at_) (templates w)) w);
      mret (with_data d at_ t)
  end.

Definition deleteTemplate (templateId : string) : eff world template_row :=
  t ← gets templates;
  match first (template_is templateId) t with
  | None => throw prisma_missing
  | Some r => _ ← modify (set_templates (List.filter (fun t => negb (template_is templateId t)) t)); mret r
  end.

Definition deleteTemplatesByIssuerId (issuerId : string) : eff world nat :=
  t ← gets templates;
  _ ← modify (set_templates (List.filter (fun t => negb (of_issuer issuerId t)) t));
  mret (length (List.filter (of_issuer issuerId) t)).

(** ** Sessions *)

Record Oid4vcCredentialOfferWebhookDto := WebhookDto {
  wh_id : option string;
  wh_credentialOfferId : option string;
  wh_issuedCredentials : any;
  wh_credentialOfferPayload : any;
  wh_state : option string;
  wh_contextCorrelationId : option string;
  wh_issuerId : option string;
}.

(** The elements of a column of texts *)
Definition text_list (a : any) : option (list string) := match a with Some (Json.JArr vs) => mapM Json.as_str (map Some vs) | _ => None end.

Definition with_webhook (orgId state : string) (ids : list string) (issued : option (list string)) (r : oid4vc_credential) : oid4vc_credential :=
  Oid4vcCredential (oc_id r) (oc_orgId r) (oc_issuanceSessionId r) (oc_credentialOfferId r) state (oc_contextCorrelationId r) (oc_createdBy r) orgId
    ids (default (oc_issuedCredentials r) issued) (oc_publicIssuerId r).

(** The upsert, whose data is checked as a whole first *)
Definition storeOidcCredentialDetails (payload : option Oid4vcCredentialOfferWebhookDto) (orgId : string) : eff world oid4vc_credential :=
  match payload with
  | None => type_error
  | Some p =>
      ids ← lift (CommonService.prop "credential_configuration_ids" (wh_credentialOfferPayload p));
      let ids := match ids with None | Some Json.JNull => Some [] | _ => text_list ids end in
      let issued := match wh_issuedCredentials p with None => Some None | a => Some <$> text_list a end in
      match ids, issued, wh_id p, wh_state p, wh_credentialOfferId p, wh_contextCorrelationId p, wh_issuerId p with
      | Some ids, Some issued, Some session, Some state, Some offer, Some context, Some issuer =>
          t ← gets sessions;
          match first (fun r => String.eqb (oc_issuanceSessionId r) session) t with
          | Some r =>
              _ ← modify (set_sessions (update_where (fun r => String.eqb (oc_issuanceSessionId r) session) (with_webhook orgId state ids issued) t));
              mret (with_webhook orgId state ids issued r)
          | None =>
              id ← fresh;
              let row := Oid4vcCredential id orgId session offer state context orgId orgId ids (default [] issued) issuer in
              _ ← modify (set_sessions (t ++ [row])%list);
              mret row
          end
      | _, _, _, _, _, _, _ => throw prisma_validation
      end
  end.
End repository.
