(* ===== verification/Oid4vcService.v ===== *)
(** * OpenID4VC issuers: service

    [oid4vc-issuance.service.ts]: issuers, their templates, credential offers with places
    in status lists, and the webhook of the agent.  Requests are made of the URL that
    [getAgentUrl] builds and a body; logging is left out. *)

From S2P Require Import Prelude Js JsonParse CommonUtils CommonService X509 CredentialTemplates CredentialOffer IssuerMetadata StatusList Oid4vcData Oid4vcRepository.

Open Scope Z_scope.

Section service.
Context {U : UuidSource} {A : IssuerAgent} {R : RandomSource} {V : ProcessEnv}.

(** ** The agent *)

Definition agent_url (endPoint : option string) (flag : string) (id : option string) : eff world string :=
  lift (getAgentUrl (default "" endPoint) flag id).

Definition getAgentEndpoint (orgId : string) : eff world (option string) :=
  a ← getAgentEndPoint orgId;
  match oa_agentEndPoint a with
  | Some e => if String.eqb (Str.trim e) "" then throw agentNotFound else mret (Some e)
  | None => throw agentNotFound
  end.

Definition createIssuer_call (config : Json.value) (url orgId : string) : call := AgentCall "agent-create-oid4vc-issuer" (IssuerCreation config) url orgId.
Definition _createOIDCTemplate (p : issuer_payload) (url orgId : string) : eff world any :=
  natsCall (AgentCall "agent-create-oid4vc-template" (TemplatePayload p) url orgId).
Definition _deleteOidcIssuer (url orgId : string) : eff world any := natsCall (AgentCall "delete-oid4vc-issuer" NoPayload url orgId).
Definition _oidcGetIssuerById (url orgId : string) : eff world any := natsCall (AgentCall "oid4vc-get-issuer-by-id" NoPayload url orgId).
Definition _oidcCreateCredentialOffer (b : agent_body) (url orgId : string) : eff world any :=
  natsCall (AgentCall "agent-service-oid4vc-create-credential-offer" b url orgId).
Definition _oidcUpdateCredentialOffer (m : any) (url orgId : string) : eff world any :=
  natsCall (AgentCall "agent-service-oid4vc-update-credential-offer" (IssuanceMetadata m) url orgId).
Definition _oidcGetCredentialOfferById (url orgId : string) : eff world any :=
  natsCall (AgentCall "agent-service-oid4vc-get-credential-offer-by-id" NoPayload url orgId).
Definition _oidcGetCredentialOffers (url orgId : string) : eff world any :=
  natsCall (AgentCall "agent-service-oid4vc-get-all-credential-offers" NoPayload url orgId).
Definition _oidcDeleteCredentialOffer (url orgId : string) : eff world any :=
  natsCall (AgentCall "agent-service-oid4vc-delete-credential-offer" NoPayload url orgId).

(** A response that is a text is JSON. *)
Definition parsed (response : any) : result any :=
  match response with
  | Some (Json.JStr s) => match JsonParse.parse s with Some v => Ok (Some v) | None => Throw (js_error "Unexpected token in JSON") end
  | _ => Ok response
  end.

(** ** Issuers *)

Record IssuerCreationDto := IssuerDto {
  ic_authorizationServerUrl : string;
  ic_issuerId : string;
  ic_display : any;
  ic_authorizationServerConfigs : any;
  ic_batchCredentialIssuanceSize : option Z;
}.

Definition issuerInitialConfig (c : IssuerCreationDto) : Json.value :=
  Json.JObj ([("issuerId", Json.JStr (ic_issuerId c));
     ("display", match ic_display c with Some v => if Json.truthy v then v else Json.JObj [] | None => Json.JObj [] end)] ++
    (match ic_authorizationServerConfigs c with Some v => if Json.truthy v then [("authorizationServerConfigs", v)] else [] | None => [] end) ++
    [("accessTokenSignerKeyType", Json.JObj [("kty", Json.JStr "OKP"); ("crv", Json.JStr "Ed25519")]);
     ("dpopSigningAlgValuesSupported", Json.JArr (map Json.JStr ["RS256"; "ES256"; "EdDSA"]));
     ("credentialConfigurationsSupported", Json.JObj [])] ++
    (match ic_batchCredentialIssuanceSize c with
     | Some n => if 0 <? n then [("batchCredentialIssuance", Json.JObj [("batchSize", Json.JNum n)])] else []
     | None => []
     end))%list.

Definition orgAgentTypeNotFound : exn := not_found "Organization agent type not found".

Definition oidcIssuerCreate (c : IssuerCreationDto) (orgId userId : string) : eff world oidc_issuer :=
  rpc (
    agentDetails ← getAgentEndPoint orgId;
    hasPrimary ← hasPrimaryIssuer orgId;
    orgAgentType ← getOrgAgentType (orgAgentTypeId agentDetails);
    if String.eqb orgAgentType "" then throw orgAgentTypeNotFound else
    url ← agent_url (oa_agentEndPoint agentDetails) "create-oid4vc-issuer" None;
    answer ← agent (createIssuer_call (issuerInitialConfig c) url orgId);
    match answer with
    | inr e =>
        if num_or (re_statusCode e) 500 =? 409 then throw (conflict ("Issuer with id '" +:+ ic_issuerId c +:+ "' already exists"))
        else throw (nats_error e)
    | inl response =>
        let issuerIdFromAgent := match response with None | Some Json.JNull => None | _ => prop_opt "issuerId" response end in
        if negb (any_truthy issuerIdFromAgent) then throw (internal "Issuer ID missing from agent response") else
        addOidcIssuerDetails (IssuerRow issuerIdFromAgent userId (oa_id agentDetails) (ic_batchCredentialIssuanceSize c)
          (ic_authorizationServerUrl c) (negb hasPrimary) orgId) (ic_display c)
    end).

(** What the agent is told of an issuer, from its row and its templates *)
Definition buildOidcIssuerConfig (issuerId : string) : eff world issuer_payload :=
  rpc (
    issuerDetails ← getOidcIssuerDetailsById issuerId;
    ts ← getTemplatesByIssuerId issuerId;
    configs ← lift (buildCredentialConfigurationsSupported (map tr_template ts));
    lift (buildIssuerPayload (Some configs) (Some (is_publicIssuerId issuerDetails)) (is_metadata issuerDetails)
      (Some (batchCredentialIssuanceSize issuerDetails)) None)).

Definition oidcIssuerUpdate (c : IssuerUpdation) (orgId userId : string) : eff world oidc_issuer :=
  rpc (
    existingIssuer ← getOidcIssuerDetailsById (iu_issuerId c);
    agentDetails ← getAgentEndPoint orgId;
    orgAgentType ← getOrgAgentType (orgAgentTypeId agentDetails);
    if String.eqb orgAgentType "" then throw orgAgentTypeNotFound else
    updated ← updateOidcIssuerDetails userId c;
    url ← agent_url (oa_agentEndPoint agentDetails) "create-oid4vc-template" (Some (is_publicIssuerId existingIssuer));
    issuerConfig ← buildOidcIssuerConfig (iu_issuerId c);
    response ← _createOIDCTemplate issuerConfig url orgId;
    let statusCode := match response with Some Json.JNull => None | _ => prop_opt "statusCode" response end in
    if any_truthy statusCode && negb (match statusCode with Some v => strict_equal v (Json.JNum 200) | None => false end)
    then throw (internal "Error from agent while updating issuer") else mret updated).

Definition normalizeJson (input : any) : result any :=
  match input with
  | Some (Json.JStr _) => parsed input
  | Some (Json.JObj _ as v) | Some (Json.JArr _ as v) => Ok (Some v)
  | _ => Throw (js_error "Expected a JSON object or JSON string")
  end.

Definition oidcIssuerGetById (id orgId : string) : eff world any :=
  rpc (
    issuerDetails ← getOidcIssuerDetailsById id;
    agentDetails ← getAgentEndPoint orgId;
    encodedId ← lift (encodeIssuerPublicId (is_publicIssuerId issuerDetails));
    url ← agent_url (oa_agentEndPoint agentDetails) "get-issuer-by-id" (Some encodedId);
    response ← _oidcGetIssuerById url orgId;
    lift (normalizeJson response)).

Definition oidcIssuers (orgId : string) : eff world (list oidc_issuer) :=
  rpc (
    agentDetails ← getAgentEndPoint orgId;
    if negb (truthy_str (oa_agentEndPoint agentDetails)) then throw agentNotFound else getAllOidcIssuersByOrg orgId).

(** [new Error(error.response ? error.response : error)]: only a text is left. *)
Definition deleteOidcIssuer (orgId id : string) : eff world oidc_issuer :=
  try_catch (
    issuerRecord ← oidcIssuerGetById id orgId;
    recordId ← lift (CommonService.prop "id" issuerRecord);
    if negb (any_truthy recordId) then throw issuerNotFound else
    agentDetails ← getAgentEndPoint orgId;
    fetchTemplates ← getTemplatesByIssuerId id;
    _ ← (match fetchTemplates with [] => mret tt | _ => _ ← deleteTemplatesByIssuerId id; mret tt end);
    deleted ← Oid4vcRepository.deleteOidcIssuer id;
    url ← agent_url (oa_agentEndPoint agentDetails) "delete-oid4vc-issuer" (Some (any_string recordId));
    _ ← _deleteOidcIssuer url orgId;
    mret deleted)
    (fun e => if bool_decide (exn_class e = PrismaError) then throw (bad_request "Failed to delete OID4VC issuer.")
      else throw (js_error (match exn_class e with RpcException | PlainError => exn_message e | _ => "[object Object]" end))).

(** ** Templates *)

Record CreateCredentialTemplate := TemplateDto {
  ct_name : string;
  ct_description : option string;
  ct_format : string;
  ct_canBeRevoked : bool;
  ct_appearance : any;
  ct_signerOption : option SignerOption;
  ct_template : template_body;
  ct_noticeUrl : option string;
}.

Definition templateNameAlreadyExist : exn := conflict "Template name already exists for this issuer.".
Definition templateNotFound : exn := not_found "OID4VC template not found.".
Definition cleanupFailed : exn := Exn RpcException "Template creation failed and cleanup also failed" None None.
Definition rollbackFailed : exn := Exn RpcException "Template update failed and rollback also failed" None None.

(** The templates of an issuer are sent to its agent as a whole. *)
Definition publish (issuerId orgId : string) : eff world any :=
  config ← buildOidcIssuerConfig issuerId;
  agentDetails ← getAgentEndPoint orgId;
  issuerDetails ← getOidcIssuerDetailsById issuerId;
  url ← agent_url (oa_agentEndPoint agentDetails) "create-oid4vc-template" (Some (is_publicIssuerId issuerDetails));
  _createOIDCTemplate config url orgId.

Definition creation_data (d : CreateCredentialTemplate) (issuerId : string) : template_data :=
  TemplateData (Some (ct_name d)) (Some (ct_description d)) (Some (ct_format d)) (Some (ct_canBeRevoked d)) (Some (ct_template d))
    (match ct_appearance d with None | Some Json.JNull => Some (Json.JObj []) | a => a end) (Some issuerId) (ct_signerOption d) (Some (ct_noticeUrl d)).

(** The error thrown after the clean-up is caught by the handler of the clean-up itself.  What
    [natsCall] answers is an object, so that the check for an answer after it always passes. *)
Definition createTemplate (d : CreateCredentialTemplate) (orgId issuerId : string) : eff world template_row :=
  rpc (
    checkNameExist ← getTemplateByNameForIssuer (ct_name d) issuerId;
    match checkNameExist with
    | _ :: _ => throw templateNameAlreadyExist
    | [] =>
        createdTemplate ← Oid4vcRepository.createTemplate issuerId (creation_data d issuerId);
        _ ← try_catch (publish issuerId orgId)
          (fun agentError =>
            try_catch (_ ← Oid4vcRepository.deleteTemplate (tr_id createdTemplate); throw (Exn RpcException (exn_message agentError) (exn_status agentError) None))
              (fun _ => throw cleanupFailed));
        mret createdTemplate
    end).

Record UpdateCredentialTemplate := TemplateUpdate {
  ut_name : option string;
  ut_description : option (option string);
  ut_format : option string;
  ut_canBeRevoked : option bool;
  ut_appearance : any;
  ut_signerOption : option SignerOption;
  ut_template : option template_body;
  ut_noticeUrl : option (option string);
}.

Definition update_data (d : UpdateCredentialTemplate) (issuerId : string) : template_data :=
  TemplateData (ut_name d) (ut_description d) (ut_format d) (ut_canBeRevoked d) (ut_template d) (ut_appearance d)
    (if String.eqb issuerId "" then None else Some issuerId) (ut_signerOption d) (ut_noticeUrl d).

(** The columns of a row as they were *)
Definition rollback_data (t : template_row) : template_data :=
  let b := tr_template t in
  TemplateData (Some (t_name b)) (Some (tr_description t)) (t_format b) (Some (tr_canBeRevoked t)) (Some (t_attributes b)) (Some (t_appearance b))
    (Some (tr_issuerId t)) (Some (t_signerOption b)) (Some (tr_noticeUrl t)).

Definition updateTemplate (templateId : string) (d : UpdateCredentialTemplate) (orgId issuerId : string) : eff world template_row :=
  rpc (
    found ← getTemplateById templateId;
    match found with
    | None => throw templateNotFound
    | Some template =>
        _ ← (if truthy_str (ut_name d) then
              checkNameExist ← getTemplateByNameForIssuer (default "" (ut_name d)) issuerId;
              match checkNameExist with
              | [] => mret tt
              | _ => if existsb (template_is templateId) checkNameExist then mret tt else throw templateNameAlreadyExist
              end
            else mret tt);
        updatedTemplate ← Oid4vcRepository.updateTemplate templateId (update_data d issuerId);
        _ ← try_catch (
            ts ← getTemplatesByIssuerId issuerId;
            match ts with [] => throw (not_found "Schema records not found") | _ => publish issuerId orgId end)
          (fun agentError =>
            try_catch (_ ← Oid4vcRepository.updateTemplate templateId (rollback_data template); throw (Exn RpcException (exn_message agentError) (exn_status agentError) None))
              (fun _ => throw rollbackFailed));
        mret updatedTemplate
    end).

Definition deleteTemplate (templateId orgId issuerId : string) : eff world template_row :=
  rpc (
    found ← getTemplateById templateId;
    match found with
    | None => throw templateNotFound
    | Some _ =>
        deleted ← Oid4vcRepository.deleteTemplate templateId;
        _ ← publish issuerId orgId;
        mret deleted
    end).

Definition invalidTemplateId : exn := bad_request "Invalid OID4VC template ID.".

Definition findByIdTemplate (templateId orgId : string) : eff world template_row :=
  rpc (
    if String.eqb orgId "" || String.eqb templateId "" then throw invalidTemplateId else
    found ← getTemplateById templateId;
    match found with None => throw templateNotFound | Some t => mret t end).

Definition findAllTemplate (orgId issuerId : string) : eff world (list template_row) :=
  rpc (if String.eqb orgId "" || String.eqb issuerId "" then throw invalidTemplateId else getTemplatesByIssuerId issuerId).
End service.
