(* ===== verification/Oid4vcOffers.v ===== *)
(** * OpenID4VC issuers: credential offers

    The offers of [oid4vc-issuance.service.ts].  An offer of revocable credentials takes
    places in status lists, which are given back when it fails.  Their
    errors go through [ErrorHandler].  The messages of [oid4vc-issuance.controller.ts] follow. *)

From S2P Require Import Prelude Js JsonParse CommonUtils CommonService X509 CredentialTemplates CredentialOffer IssuerMetadata StatusList Oid4vcData Oid4vcRepository Oid4vcService.

Open Scope Z_scope.

Section offers.
Context {U : UuidSource} {A : IssuerAgent} {R : RandomSource} {V : ProcessEnv}.

(** ** Places in status lists

    While a request is served, the places it has taken so far are kept beside the world;
    they are what its handler gives back. *)

Definition request : Type := world * list (string * Z).
Definition serving {B} (m : eff world B) : eff request B := fun '(w, taken) => let '(r, w') := m w in (r, (w', taken)).
Definition took (p : string * Z) : eff request unit := modify (fun r => (r.1, r.2 ++ [p])%list).

Definition STATUS_LIST_HOST : option string := process_env "STATUS_LIST_HOST".
Definition no_host : exn := bad_request "Revocable SD-JWT is not supported as STATUS_LIST_HOST is not configured.".

Definition allocate_place (orgId did : string) : eff request status_details :=
  '(listId, index) ← serving (allocator (Service.allocate orgId did None));
  _ ← took (listId, index);
  mret (StatusDetails listId index Service.DEFAULT_STATUS_LIST_SIZE).

(** A place for every SD-JWT credential that has none *)
Fixpoint allocate_places (orgId did : string) (cs : list (bool * option status_details)) : eff request (list (option status_details)) :=
  match cs with
  | [] => mret []
  | (sd_jwt, details) :: cs' =>
      d ← (if sd_jwt && bool_decide (details = None :> option status_details) then p ← allocate_place orgId did; mret (Some p) else mret details);
      ds ← allocate_places orgId did cs';
      mret (d :: ds)
  end.

(** ** Signers *)

Definition certificate_of (c : X509.X509CertificateRecord) : X509CertificateRecord :=
  Certificate (X509.certificateBase64 c) (X509.validFrom c) (X509.expiry c).
Definition x5c_signer (c : X509.X509CertificateRecord) : ISignerOption := Signer X5C None (Some [X509.certificateBase64 c]) (X509.keyId c).

Definition missing_certificate (kind : string) : exn := not_found ("No active certificate(" +:+ kind +:+ ") found for issuer").

(** The signer of one template, and the certificate it signs with *)
Definition signer_of (orgId : string) (agentDid : option string) (t : template_row) : eff world (ISignerOption * list X509CertificateRecord) :=
  match t_signerOption (tr_template t) with
  | DID => mret (Signer DID_METHOD agentDid None None, [])
  | X509_P256 =>
      c ← getCurrentActiveCertificate orgId "P-256";
      match c with
      | None => throw (missing_certificate "p256")
      | Some c => if truthy_str (X509.keyId c) then mret (x5c_signer c, [certificate_of c])
          else throw (bad_request "Active certificate is missing keyId; re-import or re-issue the certificate.")
      end
  | X509_ED25519 =>
      c ← getCurrentActiveCertificate orgId "Ed25519";
      match c with
      | None => throw (missing_certificate "ed25519")
      | Some c => mret (x5c_signer c, [certificate_of c])
      end
  end.

Fixpoint signers_of (orgId : string) (agentDid : option string) (ts : list template_row) : eff world (list ISignerOption * list X509CertificateRecord) :=
  match ts with
  | [] => mret ([], [])
  | t :: ts' =>
      '(s, cs) ← signer_of orgId agentDid t;
      '(ss, css) ← signers_of orgId agentDid ts';
      mret (s :: ss, cs ++ css)%list
  end.

(** ** Sessions *)

(** The first of the properties that is truthy, the last one otherwise *)
Definition session_id (response : any) : result any :=
  a ← CommonService.prop "issuanceSessionId" response;
  if any_truthy a then Ok a else
  b ← CommonService.prop "credentialOfferId" response;
  if any_truthy b then Ok b else
  c ← CommonService.prop "id" response;
  if any_truthy c then Ok c else
  s ← CommonService.prop "issuanceSession" response;
  match s with None | Some Json.JNull => Ok None | _ => CommonService.prop "id" s end.

Definition statusListUri (listId : string) : string := template_str STATUS_LIST_HOST +:+ "/status-lists/" +:+ listId.

(** The places are recorded under the session that the agent names. *)
Fixpoint save_places (orgId : string) (sessionId : Json.value) (ds : list (option status_details)) : eff request unit :=
  match ds with
  | [] => mret tt
  | None :: ds' => save_places orgId sessionId ds'
  | Some d :: ds' =>
      _ ← (match sessionId with
           | Json.JStr s => serving (allocator (Service.saveCredentialAllocation orgId (s +:+ "-" +:+ pretty (sd_index d)) (sd_listId d) (sd_index d) s
               (statusListUri (sd_listId d))))
           | _ => throw prisma_validation
           end);
      save_places orgId sessionId ds'
  end.

(** The handler: every place taken is released, whatever the release answers. *)
Definition release_all (taken : list (string * Z)) : eff world unit :=
  for_each taken (fun '(listId, index) => try_catch (allocator (Service.release listId index)) (fun _ => mret tt)).

Definition with_places {B} (body : eff request B) (handler : exn -> exn) : eff world B := fun w =>
  match body (w, []) with
  | (Ok b, (w', _)) => (Ok b, w')
  | (Throw e, (w', taken)) => (Throw (handler e), (release_all taken w').2)
  end.

(** ** Creation *)

Record CreateOidcCredentialOffer := OfferRequest { or_dto : CreateOidcCredentialOfferDtoLike; or_noticeUrl : option string }.

(** [response.noticeUrl = url], which throws on a primitive *)
Definition with_notice (url : option string) (response : any) : result any :=
  if negb (truthy_str url) then Ok response else
  match response with
  | Some (Json.JObj fs) => Ok (Some (Json.JObj (Json.set_field "noticeUrl" (Json.JStr (default "" url)) fs)))
  | Some (Json.JArr vs) => Ok (Some (Json.JArr vs))
  | _ => Throw (js_error "Cannot create property 'noticeUrl'")
  end.

Definition notice_of (q : CreateOidcCredentialOffer) (templateIds : list string) : eff world (option string) :=
  match templateIds with
  | [id] => t ← getTemplateById id; mret (t ≫= tr_noticeUrl)
  | _ => mret (or_noticeUrl q)
  end.

(** Places for the credentials of an offer, when it is revocable *)
Definition places (orgId : string) (revocable : bool) (missing_did : string) (cs : list (bool * option status_details)) : eff request (list (option status_details)) :=
  if negb (revocable && existsb fst cs) then mret (map snd cs) else
  if negb (truthy_str STATUS_LIST_HOST) then throw no_host else
  agentDetails ← serving (getAgentEndPoint orgId);
  if negb (truthy_str (orgDid agentDetails)) then throw (bad_request missing_did)
  else allocate_places orgId (default "" (orgDid agentDetails)) cs.

Definition is_sd_jwt (c : BuiltCredential) : bool := bool_decide (b_format c = SdJwtVc).

Definition with_issuer (public : string) (o : CredentialOfferPayload) : CredentialOfferPayload :=
  Offer (o_credentials o) (Some public) (o_isRevocable o) (o_flow o).

(** The request until the agent answers: its answer, the places, and the session named by
    the answer *)
Definition build_offer (q : CreateOidcCredentialOffer) (orgId issuerId : string) : eff world (CredentialOfferPayload * string) :=
  ts ← getTemplateByIds (extractTemplateIds (Some (map (fun c => Some (templateId c)) (credentials (or_dto q))))) issuerId;
  agentDetails ← getAgentEndPoint orgId;
  '(signers, certs) ← signers_of orgId (orgDid agentDetails) ts;
  issuer ← getOidcIssuerDetailsById issuerId;
  offer ← lift (buildCredentialOfferPayload (or_dto q) (map tr_template ts)
    (Some (is_publicIssuerId issuer, Some (is_authorizationServerUrl issuer +:+ "/oid4vci/" +:+ is_publicIssuerId issuer))) signers certs);
  issuerDetails ← getOidcIssuerDetailsById issuerId;
  endPoint ← getAgentEndpoint orgId;
  url ← agent_url endPoint "create-oid4vc-credential-offer" (Some (is_publicIssuerId issuerDetails));
  mret (with_issuer (is_publicIssuerId issuerDetails) offer, url).

(** The [try] block, and the method *)
Definition create_offer (q : CreateOidcCredentialOffer) (orgId issuerId : string) : eff request any :=
  let templateIds := extractTemplateIds (Some (map (fun c => Some (templateId c)) (credentials (or_dto q)))) in
  let revocable := default false (isRevocable (or_dto q)) in
  '(offer, url) ← serving (build_offer q orgId issuerId);
  ds ← places orgId revocable "Organization DID is required for revocable SD-JWT credentials" (map (fun c => (is_sd_jwt c, None)) (o_credentials offer));
  response ← serving (_oidcCreateCredentialOffer (CredentialPayload (OfferSent offer (zip (o_credentials offer) ds))) url orgId);
  notice ← (match response with Some Json.JNull => mret None | _ => serving (notice_of q templateIds) end);
  response ← lift (match response with Some Json.JNull => Ok response | _ => with_notice notice response end);
  responseToSave ← lift (parsed response);
  sessionId ← lift (session_id responseToSave);
  _ ← (match sessionId with
       | Some s => if Json.truthy s && revocable then save_places orgId s ds else mret tt
       | None => mret tt
       end);
  mret response.
Definition createOidcCredentialOffer (q : CreateOidcCredentialOffer) (orgId issuerId : string) : eff world any :=
  with_places (create_offer q orgId issuerId) (fun e => categorize e "Failed to create credential offer").

(** *** Offers that the caller assembled *)

(** A certificate of its own is not looked up: the text [Test] stands for it. *)
Definition fill_signer (orgId : string) (c : d2a_credential) : eff world d2a_credential :=
  match dc_signerOptions c with
  | Some (D2aSigner (Some m) x5c_ did_) =>
      if String.eqb m "" then throw (bad_request "signerOptions.method is required") else
      if String.eqb m "x5c" then
        let empty := match x5c_ with Some v => negb (Json.truthy v) || match v with Json.JArr [] => true | _ => false end | None => true end in
        mret (D2aCredential (Some (D2aSigner (Some m) (if empty then Some (Json.JStr "Test") else x5c_) did_)) (dc_format c) (dc_statusListDetails c) (dc_rest c))
      else if String.eqb m "did" && negb (truthy_str did_) then
        a ← getAgentEndPoint orgId;
        mret (D2aCredential (Some (D2aSigner (Some m) x5c_ (orgDid a))) (dc_format c) (dc_statusListDetails c) (dc_rest c))
      else mret c
  | _ => throw (bad_request "signerOptions.method is required")
  end.

Fixpoint fill_signers (orgId : string) (cs : list d2a_credential) : eff world (list d2a_credential) :=
  match cs with
  | [] => mret []
  | c :: cs' => c' ← fill_signer orgId c; cs'' ← fill_signers orgId cs'; mret (c' :: cs'')
  end.

Definition d2a_sd_jwt (c : d2a_credential) : bool := bool_decide (dc_format c = Some (format_text SdJwtVc)).
Definition with_details (c : d2a_credential) (d : option status_details) : d2a_credential :=
  D2aCredential (dc_signerOptions c) (dc_format c) d (dc_rest c).

Definition create_offer_d2a (o : d2a_offer) (orgId : string) : eff request any :=
  cs ← serving (fill_signers orgId (do_credentials o));
  endPoint ← serving (getAgentEndpoint orgId);
  url ← serving (agent_url endPoint "create-oid4vc-credential-offer" None);
  ds ← places orgId (do_isRevocable o) "Organization DID is required for revocable credentials" (map (fun c => (d2a_sd_jwt c, dc_statusListDetails c)) cs);
  response ← serving (_oidcCreateCredentialOffer (D2aPayload (D2aOffer (zip_with with_details cs ds) (do_isRevocable o) (do_rest o))) url orgId);
  parsedResponse ← lift (parsed response);
  issuanceSessionId ← lift (session_id parsedResponse);
  _ ← (match issuanceSessionId with
       | Some s => if Json.truthy s && do_isRevocable o then save_places orgId s ds else mret tt
       | None => mret tt
       end);
  mret response.
Definition createOidcCredentialOfferD2A (o : d2a_offer) (orgId : string) : eff world any :=
  with_places (create_offer_d2a o orgId) (fun e => Exn RpcException (exn_message e) (exn_status e) (exn_code e)).

(** ** The other requests *)

Definition updateOidcCredentialOffer (credentialOfferId : string) (issuerMetadata : any) (orgId : string) : eff world any :=
  rpc (
    if negb (any_truthy issuerMetadata) then throw (bad_request "Please provide a valid issuerMetadata") else
    endPoint ← getAgentEndpoint orgId;
    url ← agent_url endPoint "update-oid4vc-credential-offer" (Some credentialOfferId);
    _oidcUpdateCredentialOffer issuerMetadata url orgId).

Definition getCredentialOfferDetailsById (offerId orgId : string) : eff world any :=
  rpc (
    endPoint ← getAgentEndpoint orgId;
    url ← agent_url endPoint "get-oid4vc-session-by-id" (Some offerId);
    response ← _oidcGetCredentialOfferById url orgId;
    lift (parsed response)).

Definition getCredentialOffers (orgId : string) (g : GetAllCredentialOffer) : eff world any :=
  rpc (
    endPoint ← getAgentEndpoint orgId;
    url ← agent_url endPoint "get-oid4vc-sessions" None;
    response ← _oidcGetCredentialOffers (buildCredentialOfferUrl url g) orgId;
    lift (parsed response)).

Definition deleteCredentialOffers (orgId credentialId : string) : eff world any :=
  rpc (
    if String.eqb credentialId "" then throw (bad_request "Please provide a valid credentialId") else
    endPoint ← getAgentEndpoint orgId;
    url ← agent_url endPoint "delete-oid4vc-credential-offer" (Some credentialId);
    response ← _oidcDeleteCredentialOffer url orgId;
    lift (parsed response)).

Definition not_revocable : exn := bad_request "Credential is not revocable as no status list allocation was found.".

(** The call is returned without being awaited: the handler does not see its errors. *)
Definition revokeCredential (issuanceSessionId orgId : string) : eff world any :=
  url ← rpc (
    if String.eqb issuanceSessionId "" then throw (bad_request "Please provide a valid issuanceSessionId") else
    allocations ← allocator (Service.getCredentialAllocations orgId issuanceSessionId);
    endPoint ← getAgentEndpoint orgId;
    url ← agent_url endPoint "get-oid4vc-session-by-id" (Some (issuanceSessionId +:+ "/revoke"));
    match allocations with [] => throw not_revocable | _ => mret url end);
  natsCall (AgentCall "agent-service-oid4vc-revoke-credential" NoPayload url orgId).

Definition storeOidcCredentialWebhook (payload : option Oid4vcCredentialOfferWebhookDto) (id : string) : eff world oid4vc_credential :=
  let context := payload ≫= wh_contextCorrelationId in
  organisationId ← (if bool_decide (context = Some "default") then mret id
    else found ← getOrganizationByTenantId context; mret (match found ≫= oa_orgId with Some o => if String.eqb o "" then id else o | None => id end));
  storeOidcCredentialDetails payload organisationId.
End offers.

(** * OpenID4VC issuers: messages

    The messages of [oid4vc-issuance.controller.ts] that change something. *)

Section controller.
Context {U : UuidSource} {A : IssuerAgent} {R : RandomSource} {V : ProcessEnv}.

Inductive message :=
  | IssuerCreate (c : IssuerCreationDto) (orgId userId : string)
  | IssuerUpdateMessage (c : IssuerUpdation) (orgId userId : string)
  | IssuerDelete (orgId id : string)
  | TemplateCreate (d : CreateCredentialTemplate) (orgId issuerId : string)
  | TemplateUpdateMessage (templateId : string) (d : UpdateCredentialTemplate) (orgId issuerId : string)
  | TemplateDelete (templateId orgId issuerId : string)
  | CreateOffer (q : CreateOidcCredentialOffer) (orgId issuerId : string)
  | CreateOfferD2A (o : d2a_offer) (orgId : string)
  | UpdateOffer (credentialOfferId : string) (issuerMetadata : any) (orgId : string)
  | DeleteOffers (orgId credentialId : string)
  | RevokeCredential (issuanceSessionId orgId : string)
  | CredentialWebhook (payload : option Oid4vcCredentialOfferWebhookDto) (id : string).

Definition done_ {B} (m : eff world B) : eff world unit := _ ← m; mret tt.

Definition handle (m : message) : eff world unit :=
  match m with
  | IssuerCreate c o u => done_ (oidcIssuerCreate c o u)
  | IssuerUpdateMessage c o u => done_ (oidcIssuerUpdate c o u)
  | IssuerDelete o i => done_ (Oid4vcService.deleteOidcIssuer o i)
  | TemplateCreate d o i => done_ (Oid4vcService.createTemplate d o i)
  | TemplateUpdateMessage t d o i => done_ (Oid4vcService.updateTemplate t d o i)
  | TemplateDelete t o i => done_ (Oid4vcService.deleteTemplate t o i)
  | CreateOffer q o i => done_ (createOidcCredentialOffer q o i)
  | CreateOfferD2A o org => done_ (createOidcCredentialOfferD2A o org)
  | UpdateOffer c m o => done_ (updateOidcCredentialOffer c m o)
  | DeleteOffers o c => done_ (deleteCredentialOffers o c)
  | RevokeCredential s o => done_ (revokeCredential s o)
  | CredentialWebhook p i => done_ (storeOidcCredentialWebhook p i)
  end.

(** The world after serving messages one after the other *)
Definition serve (m : message) (w : world) : world := (handle m w).2.
Definition serve_all (ms : list message) (w : world) : world := fold_left (fun w m => serve m w) ms w.
End controller.
