(* ===== verification/Oid4vcInvariant.v ===== *)
(** * OpenID4VC issuers: what the requests keep

    [reads] relates worlds between which only calls were made and the clock was read; the
    lemmas say what each operation does to the tables, and [tables_ok] is kept by all of
    them. *)

From S2P Require Import Prelude Js Table CommonUtils CommonService X509 CredentialTemplates CredentialOffer IssuerMetadata StatusList Oid4vcData Oid4vcRepository Oid4vcService Oid4vcOffers.

Open Scope Z_scope.

Section laws.
Context {U : UuidSource} {A : IssuerAgent} {R : RandomSource} {V : ProcessEnv}.

(** ** Reading *)

Definition reads (w w' : world) : Prop :=
  w' = World (agents w) (agent_types w) (issuers w) (templates w) (certificates w) (sessions w) (status w) (calls w') (ticks w') /\
  calls w `prefix_of` calls w'.

#[export] Instance reads_preorder : PreOrder reads.
Proof.
  split; [intros []; by split|]. intros w w1 w2 [H1 P1] [H2 P2]. split; [|by etrans].
  rewrite H2. rewrite H1. done.
Qed.

Lemma reads_now : frames reads now.
Proof. intros w. by split. Qed.
Lemma reads_placed c : frames reads (placed c).
Proof. intros w. split; [done | by apply prefix_app_r]. Qed.
#[local] Hint Resolve reads_now reads_placed : platform.
Lemma reads_get : frames reads get.
Proof. by intros w. Qed.
Lemma reads_natsCall c : frames reads (natsCall c).
Proof. unfold natsCall, agent. solve_frames. Qed.
#[local] Hint Resolve reads_get reads_natsCall : platform.
Lemma reads_agent_url e f i : frames reads (agent_url e f i).
Proof. unfold agent_url. solve_frames. Qed.
#[local] Hint Resolve reads_agent_url : platform.
Lemma reads_agentEndPoint o : frames reads (getAgentEndPoint o).
Proof. unfold getAgentEndPoint. solve_frames. Qed.
Lemma reads_issuer i : frames reads (getOidcIssuerDetailsById i).
Proof. unfold getOidcIssuerDetailsById. solve_frames. Qed.
Lemma reads_type t : frames reads (getOrgAgentType t).
Proof. unfold getOrgAgentType, type_error. solve_frames. Qed.
#[local] Hint Resolve reads_agentEndPoint reads_issuer reads_type : platform.
Lemma reads_config i : frames reads (buildOidcIssuerConfig i).
Proof. unfold buildOidcIssuerConfig, rpc, getTemplatesByIssuerId. solve_frames. Qed.
#[local] Hint Resolve reads_config : platform.
Lemma reads_publish i o : frames reads (publish i o).
Proof. unfold publish, _createOIDCTemplate. solve_frames. Qed.
Lemma reads_getById i o : frames reads (oidcIssuerGetById i o).
Proof. unfold oidcIssuerGetById, rpc, _oidcGetIssuerById. solve_frames. Qed.
Lemma reads_certificate o k : frames reads (getCurrentActiveCertificate o k).
Proof. unfold getCurrentActiveCertificate. solve_frames. Qed.
#[local] Hint Resolve reads_publish reads_getById reads_certificate : platform.
Lemma reads_signers o d ts : frames reads (signers_of o d ts).
Proof. induction ts as [|t ts IH]; simpl; unfold signer_of; solve_frames. Qed.
Lemma reads_getAgentEndpoint o : frames reads (getAgentEndpoint o).
Proof. unfold getAgentEndpoint. solve_frames. Qed.
#[local] Hint Resolve reads_signers reads_getAgentEndpoint : platform.
Lemma reads_build_offer q o i : frames reads (build_offer q o i).
Proof. unfold build_offer, getTemplateByIds. solve_frames. Qed.
Lemma reads_fill_signers o cs : frames reads (fill_signers o cs).
Proof. induction cs as [|c cs IH]; simpl; unfold fill_signer; solve_frames. Qed.
Lemma reads_notice q l : frames reads (notice_of q l).
Proof. unfold notice_of, getTemplateById. solve_frames. Qed.
#[local] Hint Resolve reads_build_offer reads_fill_signers reads_notice : platform.

(** ** Publishing the templates of an issuer *)

Lemma getAgentEndPoint_ok o w a w' : getAgentEndPoint o w = (Ok a, w') -> w' = w /\ oa_orgId a = Some o.
Proof.
  unfold getAgentEndPoint, gets. rewrite run_bind. cbv beta iota. destruct (first _ _) eqn:E; [|done].
  intros [= -> ->]. by apply first_Some in E as [_ ?%bool_decide_eq_true].
Qed.

Lemma getOidcIssuer_ok id w i w' : getOidcIssuerDetailsById id w = (Ok i, w') -> w' = w /\ i ∈ issuers w /\ is_id i = id.
Proof.
  unfold getOidcIssuerDetailsById, gets. rewrite run_bind. cbv beta iota. destruct (first _ _) eqn:E; [|done].
  intros [= -> ->]. apply first_Some in E as [? ?%String.eqb_eq]. done.
Qed.

Lemma rpc_Ok {B} (m : eff world B) w b w' : rpc m w = (Ok b, w') -> m w = (Ok b, w').
Proof. unfold rpc, try_catch. destruct (m w) as [[|] ?]; [done|]. intros H. by simplify_eq. Qed.

Lemma lift_ok {S B} (r : result B) (w : S) b w' : lift r w = (Ok b, w') -> r = Ok b /\ w' = w.
Proof. intros [= -> ->]. done. Qed.

(** The configurations of the templates an issuer has *)
Definition published (w : world) (issuerId : string) (p : issuer_payload) : Prop :=
  buildCredentialConfigurationsSupported (map tr_template (sort_desc tr_createdAt (List.filter (of_issuer issuerId) (templates w)))) =
    Ok (credentialConfigurationsSupported p).

Lemma config_ok issuerId w p w' : buildOidcIssuerConfig issuerId w = (Ok p, w') -> w' = w /\ published w issuerId p.
Proof.
  intros H%rpc_Ok. apply bind_ok_inv in H as (i & w1 & [-> _]%getOidcIssuer_ok & H).
  unfold getTemplatesByIssuerId, gets in H. rewrite run_bind in H. cbv beta iota in H.
  apply bind_ok_inv in H as (c & w2 & [E ->]%lift_ok & H). apply lift_ok in H as [H ->]. split; [done|].
  unfold published. rewrite E. unfold buildIssuerPayload in H. destruct (negb _); [done|]. by injection H as <-.
Qed.

Lemma publish_ok issuerId org w a w' : publish issuerId org w = (Ok a, w') -> exists i p url,
  i ∈ issuers w /\ is_id i = issuerId /\ published w issuerId p /\
  calls w' = (calls w ++ [AgentCall "agent-create-oid4vc-template" (TemplatePayload p) url org])%list.
Proof.
  unfold publish. intros H. apply bind_ok_inv in H as (p & w1 & [-> Hp]%config_ok & H).
  apply bind_ok_inv in H as (ag & w2 & [-> _]%getAgentEndPoint_ok & H).
  apply bind_ok_inv in H as (i & w3 & (-> & Hi & Hid)%getOidcIssuer_ok & H).
  apply bind_ok_inv in H as (url & w4 & [_ ->]%lift_ok & H). exists i, p, url. split; [done|]. split; [done|]. split; [done|].
  unfold _createOIDCTemplate, natsCall, agent, placed in H. rewrite !run_bind in H. cbv beta iota in H. simpl in H.
  destruct (on_agent _); [by injection H as _ <- | done].
Qed.

(** ** The tables *)

Definition drawn_in (w : world) (id : string) : Prop := exists n, (n < Service.uuids (status w))%nat /\ id = uuid n.

Record tables_ok (w : world) : Prop := TablesOk {
  ok_issuer_ids : NoDup (is_id <$> issuers w);
  ok_issuer_drawn i : i ∈ issuers w -> drawn_in w (is_id i);
  ok_template_ids : NoDup (tr_id <$> templates w);
  ok_template_drawn t : t ∈ templates w -> drawn_in w (tr_id t);
  ok_format t : t ∈ templates w -> is_Some (t_format (tr_template t));
  ok_parent t : t ∈ templates w -> exists i, i ∈ issuers w /\ is_id i = tr_issuerId t;
  ok_primary i i' : i ∈ issuers w -> i' ∈ issuers w -> isPrimary i = true -> isPrimary i' = true -> is_orgId i = is_orgId i' -> i = i';
}.

(** Worlds with the same issuers and templates *)
Definition same_tables (w w' : world) : Prop :=
  issuers w' = issuers w /\ templates w' = templates w /\ (Service.uuids (status w) <= Service.uuids (status w'))%nat.

Lemma reads_same w w' : reads w w' -> same_tables w w'.
Proof. intros [-> _]. done. Qed.

#[export] Instance same_preorder : PreOrder same_tables.
Proof.
  split; [done|]. intros w w1 w2 (I1 & T1 & D1) (I2 & T2 & D2). unfold same_tables. rewrite I2, T2, I1, T1. split; [done|]. split; [done | lia].
Qed.

Lemma drawn_in_mono w w' id : (Service.uuids (status w) <= Service.uuids (status w'))%nat -> drawn_in w id -> drawn_in w' id.
Proof. intros H (n & ? & ?). exists n. split; [lia | done]. Qed.

Lemma same_tables_ok w w' : same_tables w w' -> tables_ok w -> tables_ok w'.
Proof.
  intros (I & T & D) []. split; rewrite ?I, ?T; try done; intros x Hx; eapply drawn_in_mono; eauto.
Qed.

(** *** A template is added or removed *)

Definition fits (w : world) (issuerId : string) (t : template_row) : Prop :=
  tr_issuerId t = issuerId /\ is_Some (t_format (tr_template t)) /\ exists i, i ∈ issuers w /\ is_id i = issuerId.

Lemma create_row_cases issuerId d w :
  (exists e, Oid4vcRepository.createTemplate issuerId d w = (Throw e, w)) \/
  (exists t w', Oid4vcRepository.createTemplate issuerId d w = (Ok t, w') /\ templates w' = (templates w ++ [t])%list /\ issuers w' = issuers w /\
    tr_id t = uuid (Service.uuids (status w)) /\ Service.uuids (status w') = S (Service.uuids (status w)) /\ td_name d = Some (tr_name t) /\
    calls w' = calls w /\ fits w issuerId t).
Proof.
  unfold Oid4vcRepository.createTemplate. repeat (case_match; [|by left; eexists]). unfold get. rewrite run_bind. cbv beta iota.
  destruct (existsb _ _) eqn:E; cbn [negb]; [|by left; eexists]. right.
  apply existsb_elem in E as (i & Hi & Hid%String.eqb_eq). unfold fresh, now, modify. rewrite !run_bind. simpl.
  eexists _, _. split; [done|]. simpl. split_and!; try done. split; [done|]. split; [by eexists | by exists i].
Qed.

Lemma NoDup_snoc_fresh {B} (f : B -> string) l x w : NoDup (f <$> l) -> (forall y, y ∈ l -> drawn_in w (f y)) ->
  f x = uuid (Service.uuids (status w)) -> NoDup (f <$> (l ++ [x])%list).
Proof.
  intros H Hd Hx. rewrite fmap_app. apply NoDup_app. split; [done|]. split; [|apply NoDup_singleton].
  intros s (y & -> & Hy)%list_elem_of_fmap Hs%list_elem_of_singleton. destruct (Hd y Hy) as (n & ? & E). rewrite E, Hx in Hs. apply uuid_inj in Hs. lia.
Qed.

Lemma added_ok w w' t issuerId : tables_ok w -> templates w' = (templates w ++ [t])%list -> issuers w' = issuers w ->
  tr_id t = uuid (Service.uuids (status w)) -> Service.uuids (status w') = S (Service.uuids (status w)) -> fits w issuerId t -> tables_ok w'.
Proof.
  intros [] Ht Hi Hid Hd (Hp & Hf & Hx).
  assert (Hm : forall id, drawn_in w id -> drawn_in w' id) by (intros id; apply drawn_in_mono; lia).
  split; rewrite ?Ht, ?Hi; try done; auto.
  - by eapply NoDup_snoc_fresh.
  - intros x [Hx'| ->%list_elem_of_singleton]%elem_of_app; [auto|]. exists (Service.uuids (status w)). split; [lia | done].
  - intros x [Hx'| ->%list_elem_of_singleton]%elem_of_app; auto.
  - intros x [Hx'| ->%list_elem_of_singleton]%elem_of_app; [auto|]. by rewrite Hp.
Qed.

Lemma removed_templates_ok w w' p : tables_ok w -> templates w' = List.filter p (templates w) -> issuers w' = issuers w ->
  Service.uuids (status w') = Service.uuids (status w) -> tables_ok w'.
Proof.
  intros [] Ht Hi Hd. assert (Hm : forall id, drawn_in w id -> drawn_in w' id) by (intros id; apply drawn_in_mono; lia).
  split; rewrite ?Ht, ?Hi; try done; auto; try (intros x [Hx _]%elem_of_filter_b; auto). by apply filter_NoDup.
Qed.
(** *** Creating a template *)

Lemma fresh_removed w t : (forall x, x ∈ templates w -> drawn_in w (tr_id x)) -> tr_id t = uuid (Service.uuids (status w)) ->
  List.filter (fun x => negb (template_is (tr_id t) x)) (templates w ++ [t])%list = templates w.
Proof.
  intros Hd Ht. rewrite List.filter_app. simpl. unfold template_is at 2. rewrite String.eqb_refl. simpl. rewrite app_nil_r.
  assert (Hn : forall x, x ∈ templates w -> template_is (tr_id t) x = false).
  { intros x Hx. apply String.eqb_neq. destruct (Hd x Hx) as (n & ? & ->). rewrite Ht. intros E%uuid_inj. lia. }
  clear Hd Ht. induction (templates w) as [|x l IH]; [done|]. simpl. rewrite Hn by left. simpl. f_equal. apply IH. intros y Hy. apply Hn. by right.
Qed.

Lemma delete_row_run id w t : first (template_is id) (templates w) = Some t ->
  Oid4vcRepository.deleteTemplate id w = (Ok t, set_templates (List.filter (fun x => negb (template_is id x)) (templates w)) w).
Proof. intros H. unfold Oid4vcRepository.deleteTemplate, gets, modify. rewrite run_bind. cbv beta iota. by rewrite H. Qed.

Definition free_name (w : world) (issuerId name : string) : Prop :=
  forall t, t ∈ templates w -> tr_issuerId t = issuerId -> same_name (tr_name t) name = false.

Definition told (issuerId org : string) (w' : world) : Prop := exists p url, published w' issuerId p /\
  last (calls w') = Some (AgentCall "agent-create-oid4vc-template" (TemplatePayload p) url org).

Lemma publish_told issuerId org w a w' : publish issuerId org w = (Ok a, w') -> told issuerId org w'.
Proof.
  intros H. pose proof (reads_publish issuerId org w) as Hr. rewrite H in Hr. destruct Hr as [Hr _]. simpl in Hr.
  apply publish_ok in H as (i & p & url & _ & _ & Hp & Hc). exists p, url. split; [|by rewrite Hc, last_snoc].
  unfold published in *. by rewrite Hr.
Qed.

Lemma createTemplate_run d org issuerId w : tables_ok w ->
  let '(r, w') := Oid4vcService.createTemplate d org issuerId w in
  match r with
  | Ok t => templates w' = (templates w ++ [t])%list /\ issuers w' = issuers w /\ tr_id t = uuid (Service.uuids (status w)) /\
      Service.uuids (status w') = S (Service.uuids (status w)) /\ fits w issuerId t /\ tr_name t = ct_name d /\
      free_name w issuerId (ct_name d) /\ told issuerId org w'
  | Throw _ => same_tables w w'
  end.
Proof.
  intros Hok. unfold Oid4vcService.createTemplate, rpc. unfold try_catch at 1. rewrite run_bind.
  unfold getTemplateByNameForIssuer, gets. cbv beta iota. destruct (List.filter _ _) as [|x l] eqn:Ef; [|done].
  assert (Hfree : free_name w issuerId (ct_name d)).
  { intros t Ht Hi. apply not_true_iff_false. intros Hs. assert (t ∈ (@nil template_row)) as Hin; [|by apply elem_of_nil in Hin].
    rewrite <- Ef. apply elem_of_filter_b. split; [done|]. unfold of_issuer. by rewrite Hi, String.eqb_refl, Hs. }
  rewrite run_bind. destruct (create_row_cases issuerId (creation_data d issuerId) w) as [[e ->]|(t & w1 & -> & Ht & Hi & Hid & Hu & Hn & Hc & Hf)]; [done|].
  rewrite run_bind. unfold try_catch at 1. pose proof (reads_publish issuerId org w1) as Hr.
  destruct (publish issuerId org w1) as [[a|e] w2] eqn:E; simpl in Hr; destruct Hr as [Hr _].
  - cbv beta iota delta [mret eff_ret]. rewrite Hr. simpl. split_and!; try done; [by injection Hn|]. rewrite <- Hr. by eapply publish_told.
  - unfold try_catch. rewrite run_bind.
    assert (Ht2 : templates w2 = (templates w ++ [t])%list) by (by rewrite Hr).
    rewrite (delete_row_run _ _ t).
    + rewrite Ht2, fresh_removed; [|apply Hok | done]. simpl. split; [by rewrite Hr|]. split; [done|]. rewrite Hr. simpl. lia.
    + rewrite Ht2. destruct (first _ _) as [t'|] eqn:Ef'.
      * apply first_Some in Ef' as [Hin Hb%String.eqb_eq]. apply elem_of_app in Hin as [Hin| ->%list_elem_of_singleton]; [|done].
        destruct (ok_template_drawn _ Hok t' Hin) as (n & ? & En). rewrite Hb, Hid in En. apply uuid_inj in En. lia.
      * rewrite first_None in Ef'. specialize (Ef' t ltac:(apply elem_of_app; right; left)). unfold template_is in Ef'. by rewrite String.eqb_refl in Ef'.
Qed.
(** *** Changing a template *)

(** A row without the time of its last change *)
Definition untimed (t : template_row) := (tr_template t, tr_description t, tr_canBeRevoked t, tr_issuerId t, tr_noticeUrl t, tr_createdAt t).

Definition same_rows (w w' : world) : Prop :=
  issuers w' = issuers w /\ untimed <$> templates w' = untimed <$> templates w /\ (Service.uuids (status w) <= Service.uuids (status w'))%nat.

Lemma same_same w w' : same_tables w w' -> same_rows w w'.
Proof. intros (I & T & D). split; [done|]. split; [by rewrite T | done]. Qed.

Lemma untimed_parts t t' : untimed t' = untimed t -> tr_template t' = tr_template t /\ tr_issuerId t' = tr_issuerId t.
Proof. intros H. split; [exact (f_equal (fun x => x.1.1.1.1.1) H) | exact (f_equal (fun x => x.1.1.2) H)]. Qed.

Lemma untimed_elem (l l' : list template_row) t : untimed <$> l' = untimed <$> l -> t ∈ l' -> exists t', t' ∈ l /\ untimed t = untimed t'.
Proof. intros H Ht. apply (list_elem_of_fmap_2 untimed) in Ht. rewrite H in Ht. apply list_elem_of_fmap in Ht as (t' & -> & ?). by exists t'. Qed.

Lemma same_rows_ok w w' : same_rows w w' -> tables_ok w -> tables_ok w'.
Proof.
  intros (I & T & D) []. assert (Hm : forall id, drawn_in w id -> drawn_in w' id) by (intros id; by apply drawn_in_mono).
  split; rewrite ?I; try done; auto.
  - replace (tr_id <$> templates w') with (tr_id <$> templates w); [done|].
    replace (tr_id <$> templates w) with ((fun x => t_id x.1.1.1.1.1) <$> (untimed <$> templates w)) by by rewrite <- list_fmap_compose.
    rewrite <- T. by rewrite <- list_fmap_compose.
  - intros t Ht. destruct (untimed_elem _ _ _ T Ht) as (t' & Ht' & [E _]%untimed_parts). unfold tr_id. rewrite E. apply Hm, ok_template_drawn0, Ht'.
  - intros t Ht. destruct (untimed_elem _ _ _ T Ht) as (t' & Ht' & [E _]%untimed_parts). rewrite E. by apply ok_format0.
  - intros t Ht. destruct (untimed_elem _ _ _ T Ht) as (t' & Ht' & [_ E]%untimed_parts). rewrite E. by apply ok_parent0.
Qed.

Lemma update_row_cases id d w :
  (exists e w', Oid4vcRepository.updateTemplate id d w = (Throw e, w') /\ reads w w') \/
  (exists t at_ w', Oid4vcRepository.updateTemplate id d w = (Ok (with_data d at_ t), w') /\ first (template_is id) (templates w) = Some t /\
    (forall i, td_issuerId d = Some i -> exists x, x ∈ issuers w /\ is_id x = i) /\
    templates w' = update_where (template_is id) (with_data d at_) (templates w) /\ issuers w' = issuers w /\ status w' = status w).
Proof.
  unfold Oid4vcRepository.updateTemplate, now, get, put. rewrite !run_bind. cbv beta iota. simpl templates. simpl issuers.
  destruct (first _ _) as [t|] eqn:Ef; [|left; eexists _, _; split; [done | by split]].
  destruct (td_issuerId d) as [i|] eqn:Ei.
  - destruct (existsb _ _) eqn:Ex; cbn [negb]; [|left; eexists _, _; split; [done | by split]].
    right. eexists _, _, _. split; [done|]. split_and!; try done. intros i' [= <-]. apply existsb_elem in Ex as (x & Hx & Hid%String.eqb_eq). by exists x.
  - right. eexists _, _, _. split; [done|]. by split_and!.
Qed.

Lemma update_row_found id d w t : first (template_is id) (templates w) = Some t ->
  (forall i, td_issuerId d = Some i -> exists x, x ∈ issuers w /\ is_id x = i) ->
  exists at_ w', Oid4vcRepository.updateTemplate id d w = (Ok (with_data d at_ t), w') /\
    templates w' = update_where (template_is id) (with_data d at_) (templates w) /\ issuers w' = issuers w /\ status w' = status w.
Proof.
  intros Hf Hp. unfold Oid4vcRepository.updateTemplate, now, get, put. rewrite !run_bind. cbv beta iota. cbn [templates issuers]. rewrite Hf.
  destruct (td_issuerId d) as [i|]; [|by eexists _, _].
  replace (existsb (issuer_is i) (issuers w)) with true; [by eexists _, _|].
  symmetry. apply existsb_elem. destruct (Hp i eq_refl) as (x & Hx & <-). exists x. split; [done|]. apply String.eqb_refl.
Qed.

Lemma with_data_id d at_ t : tr_id (with_data d at_ t) = tr_id t.
Proof. done. Qed.

Lemma untimed_update p f (l : list template_row) : (forall t, t ∈ l -> p t = true -> untimed (f t) = untimed t) -> untimed <$> update_where p f l = untimed <$> l.
Proof.
  intros Hf. unfold update_where. rewrite <- list_fmap_compose. apply list_fmap_ext. intros n t Ht%list_elem_of_lookup_2. simpl.
  destruct (p t) eqn:E; [by apply Hf | done].
Qed.

Lemma update_twice (p : template_row -> bool) f g l : (forall t, p (f t) = p t) ->
  update_where p g (update_where p f l) = update_where p (fun t => g (f t)) l.
Proof.
  intros Hf. unfold update_where. rewrite map_map. apply map_ext. intros t. destruct (p t) eqn:E; [by rewrite Hf, E | by rewrite E].
Qed.

Lemma rolled_back d at1 at2 t : is_Some (t_format (tr_template t)) -> untimed (with_data (rollback_data t) at2 (with_data d at1 t)) = untimed t.
Proof. intros [f Hf]. destruct t as [[] ? ? ? ? ?]. simpl in *. by rewrite Hf. Qed.

Lemma unique_row w t t' : tables_ok w -> t ∈ templates w -> t' ∈ templates w -> tr_id t' = tr_id t -> t' = t.
Proof.
  intros Hok [i Hi]%list_elem_of_lookup [j Hj]%list_elem_of_lookup E. assert (i = j) as <-; [|congruence].
  eapply NoDup_lookup; [exact (ok_template_ids _ Hok) | by rewrite list_lookup_fmap, Hi | rewrite list_lookup_fmap, Hj; simpl; congruence].
Qed.
(** The check of a new name *)
Definition name_kept (w : world) (issuerId : string) (name : option string) (id : string) : Prop :=
  truthy_str name = true -> forall x, x ∈ templates w -> tr_issuerId x = issuerId -> same_name (tr_name x) (default "" name) = true ->
  exists y, y ∈ templates w /\ tr_id y = id /\ tr_issuerId y = issuerId /\ same_name (tr_name y) (default "" name) = true.

Lemma rolled_back_rows w w1 w2 w3 id d t at1 at2 : tables_ok w -> first (template_is id) (templates w) = Some t ->
  templates w1 = update_where (template_is id) (with_data d at1) (templates w) -> issuers w1 = issuers w -> status w1 = status w -> reads w1 w2 ->
  templates w3 = update_where (template_is id) (with_data (rollback_data t) at2) (templates w2) -> issuers w3 = issuers w2 -> status w3 = status w2 ->
  same_rows w w3.
Proof.
  intros Hok Hf Ht Hi Hs [Hr _] Ht3 Hi3 Hs3. rewrite Hr in Ht3, Hi3, Hs3. simpl in *. split; [by rewrite Hi3|].
  apply first_Some in Hf as [Hin Hid%String.eqb_eq]. rewrite Ht3, Ht, update_twice by done. split; [|by rewrite Hs3, Hs].
  apply untimed_update. intros x Hx Hxid%String.eqb_eq. assert (x = t) as -> by (eapply unique_row; [exact Hok | done..| congruence]).
  by apply rolled_back, Hok.
Qed.

Lemma updateTemplate_run id d org issuerId w : tables_ok w ->
  let '(r, w') := Oid4vcService.updateTemplate id d org issuerId w in
  match r with
  | Ok t' => exists t at_, t ∈ templates w /\ tr_id t = id /\ t' = with_data (update_data d issuerId) at_ t /\
      templates w' = update_where (template_is id) (with_data (update_data d issuerId) at_) (templates w) /\ issuers w' = issuers w /\
      status w' = status w /\ name_kept w issuerId (ut_name d) id /\
      (issuerId <> "" -> exists x, x ∈ issuers w /\ is_id x = issuerId) /\ told issuerId org w'
  | Throw _ => same_rows w w'
  end.
Proof.
  intros Hok. unfold Oid4vcService.updateTemplate, rpc. unfold try_catch at 1. rewrite run_bind. unfold getTemplateById, gets. cbv beta iota.
  destruct (first _ _) as [t|] eqn:Hf; [|done]. rewrite run_bind.
  set (check := if truthy_str (ut_name d) then _ else _).
  assert (Hcheck : check w = (Throw templateNameAlreadyExist, w) \/ (check w = (Ok tt, w) /\ name_kept w issuerId (ut_name d) id)).
  { subst check. unfold name_kept. destruct (truthy_str _); [|by right]. unfold getTemplateByNameForIssuer, gets. rewrite run_bind. cbv beta iota.
    destruct (List.filter _ _) as [|y l] eqn:Ef.
    - right. split; [done|]. intros _ x Hx Hi Hn. assert (x ∈ (@nil template_row)) as Hin; [|by apply elem_of_nil in Hin].
      rewrite <- Ef. apply elem_of_filter_b. split; [done|]. unfold of_issuer. by rewrite Hi, String.eqb_refl, Hn.
    - destruct (existsb _ _) eqn:Ex; [right | by left]. split; [done|]. intros _ x Hx Hi Hn.
      apply existsb_elem in Ex as (y' & Hy & Hyid%String.eqb_eq). rewrite <- Ef in Hy. apply elem_of_filter_b in Hy as [Hy [Hyi%String.eqb_eq Hyn]%andb_true_iff].
      by exists y'. }
  destruct Hcheck as [->|[-> Hname]]; [done|]. rewrite run_bind.
  destruct (update_row_cases id (update_data d issuerId) w) as [(e & w1 & -> & Hr)|(t' & at_ & w1 & -> & Hf' & Hp & Ht & Hi & Hs)]; [by apply same_same, reads_same|].
  rewrite Hf in Hf'. injection Hf' as <-. rewrite run_bind. unfold try_catch at 1.
  set (pub := getTemplatesByIssuerId issuerId ≫= _).
  assert (Hr : frames reads pub) by (subst pub; unfold getTemplatesByIssuerId; solve_frames).
  assert (Htold : forall a w2, pub w1 = (Ok a, w2) -> told issuerId org w2).
  { intros a w2 E. subst pub. unfold getTemplatesByIssuerId, gets in E. rewrite run_bind in E. cbv beta iota in E.
    destruct (sort_desc _ _); [done|]. by eapply publish_told. }
  specialize (Hr w1). destruct (pub w1) as [[a|e] w2] eqn:E; simpl in Hr.
  - cbv beta iota delta [mret eff_ret]. pose proof (proj1 Hr) as Hw. exists t, at_. pose proof (first_Some _ _ _ Hf) as [Hin Hid%String.eqb_eq].
    split_and!; try done; [by rewrite Hw | by rewrite Hw | by rewrite Hw | | by eapply Htold].
    intros Hne. apply Hp. unfold update_data. simpl. by apply String.eqb_neq in Hne as ->.
  - unfold try_catch. rewrite run_bind.
    pose proof (first_Some _ _ _ Hf) as [Hin Hid%String.eqb_eq]. pose proof (proj1 Hr) as Hw.
    assert (Hf2 : first (template_is id) (templates w2) = Some (with_data (update_data d issuerId) at_ t)).
    { rewrite Hw. simpl. rewrite Ht, first_update by done. rewrite Hf. simpl. unfold template_is. by rewrite Hid, String.eqb_refl. }
    destruct (update_row_found id (rollback_data t) w2 _ Hf2) as (at2 & w3 & -> & Ht3 & Hi3 & Hs3).
    + intros i [= <-]. destruct (ok_parent _ Hok t Hin) as (x & Hx & Hxid). exists x. rewrite Hw. simpl. by rewrite Hi.
    + by eapply rolled_back_rows.
Qed.
End laws.
