(* ===== verification/Oid4vcTables.v ===== *)
(** * OpenID4VC issuers: the tables after any messages

    [kept] relates worlds of which the second has well-formed tables when the first has;
    every message does that ([serve_tables]). *)

From S2P Require Import Prelude Js Table CommonUtils CommonService X509 CredentialTemplates CredentialOffer IssuerMetadata StatusList Oid4vcData Oid4vcRepository Oid4vcService Oid4vcOffers Oid4vcInvariant.

Open Scope Z_scope.

Section laws.
Context {U : UuidSource} {A : IssuerAgent} {R : RandomSource} {V : ProcessEnv}.

Definition kept (w w' : world) : Prop := tables_ok w -> tables_ok w'.

#[export] Instance kept_preorder : PreOrder kept.
Proof. split; unfold kept; [by intros w | intros w w1 w2; auto]. Qed.

Lemma same_kept w w' : same_tables w w' -> kept w w'.
Proof. intros H. unfold kept. by apply same_tables_ok. Qed.
Lemma reads_kept {B} (m : eff world B) : frames reads m -> frames kept m.
Proof. apply frames_mono. intros w w' H. by apply same_kept, reads_same. Qed.

#[local] Hint Resolve reads_get reads_natsCall reads_agent_url reads_agentEndPoint reads_issuer reads_type reads_config reads_publish reads_getById
  reads_getAgentEndpoint : platform.
Ltac kept_reads := apply reads_kept; solve [solve_frames].

(** ** Templates *)

Lemma with_data_ok d at_ p w w' : templates w' = update_where p (with_data d at_) (templates w) -> issuers w' = issuers w -> status w' = status w ->
  (forall i, td_issuerId d = Some i -> exists x, x ∈ issuers w /\ is_id x = i) -> kept w w'.
Proof.
  intros Ht Hi Hs Hp []. assert (Hm : forall id, drawn_in w id -> drawn_in w' id) by (intros id; apply drawn_in_mono; by rewrite Hs).
  split; rewrite ?Ht, ?Hi; auto.
  - rewrite fmap_update_where; done.
  - intros x (t & Hin & ->)%elem_of_update_where. case_match; [rewrite with_data_id|]; auto.
  - intros x (t & Hin & ->)%elem_of_update_where. case_match; [|auto]. simpl. destruct (td_format d); [by eexists|]. by apply ok_format.
  - intros x (t & Hin & ->)%elem_of_update_where. case_match; [|auto]. simpl. destruct (td_issuerId d) as [i|] eqn:E; simpl; [by apply Hp | auto].
Qed.

Lemma kept_createTemplate d o i : frames kept (Oid4vcService.createTemplate d o i).
Proof.
  intros w Hok. pose proof (createTemplate_run d o i w Hok) as H. destruct (Oid4vcService.createTemplate d o i w) as [[t|e] w']; simpl in *.
  - destruct H as (Ht & Hi & Hid & Hu & Hf & _). by eapply added_ok.
  - by eapply same_tables_ok.
Qed.

Lemma kept_updateTemplate t d o i : frames kept (Oid4vcService.updateTemplate t d o i).
Proof.
  intros w Hok. pose proof (updateTemplate_run t d o i w Hok) as H. destruct (Oid4vcService.updateTemplate t d o i w) as [[t'|e] w']; simpl in *.
  - destruct H as (t0 & at_ & _ & _ & _ & Ht & Hi & Hs & _ & Hp & _). eapply with_data_ok; [done..| |done].
    intros i'. unfold update_data. simpl. case_match eqn:E; [done|]. intros [= <-]. apply Hp. by apply String.eqb_neq.
  - by eapply same_rows_ok.
Qed.

Lemma kept_filter p w : kept w (set_templates (List.filter p (templates w)) w).
Proof. intros Hok. by eapply removed_templates_ok. Qed.

Lemma kept_deleteRow t : frames kept (Oid4vcRepository.deleteTemplate t).
Proof. intros w. unfold Oid4vcRepository.deleteTemplate, gets, modify. rewrite run_bind. cbv beta iota. case_match; [apply kept_filter | done]. Qed.

Lemma kept_deleteRows i : frames kept (deleteTemplatesByIssuerId i).
Proof. intros w. apply kept_filter. Qed.
#[local] Hint Resolve kept_createTemplate kept_updateTemplate kept_deleteRow kept_deleteRows : platform.

Lemma kept_deleteTemplate t o i : frames kept (Oid4vcService.deleteTemplate t o i).
Proof.
  unfold Oid4vcService.deleteTemplate, rpc, getTemplateById. apply frames_try; [exact _| |intros ?; kept_reads].
  apply frames_bind; [exact _ | kept_reads | intros [r|]]; [|kept_reads].
  apply frames_bind; [exact _ | auto with platform | intros ?; kept_reads].

Qed.

(** ** Issuers *)

Lemma kept_addIssuer m p w : (forall i, i ∈ issuers w -> is_orgId i = Some (im_orgId m) -> isPrimary i = true -> im_isPrimary m = false) ->
  kept w (addOidcIssuerDetails m p w).2.
Proof.
  intros Hp Hok. unfold addOidcIssuerDetails. destruct (im_publicIssuerId m) as [[| | | public | |]|]; try done. destruct p as [profile|]; [|done].
  unfold fresh, now, modify. rewrite !run_bind. simpl. destruct Hok.
  set (w' := set_issuers _ _). assert (Hm : forall id, drawn_in w id -> drawn_in w' id) by (intros id; apply drawn_in_mono; simpl; lia).
  split; simpl; auto.
  - by eapply NoDup_snoc_fresh.
  - intros i [Hi| ->%list_elem_of_singleton]%elem_of_app; [auto|]. exists (Service.uuids (status w)). split; [simpl; lia | done].
  - intros t Ht. destruct (ok_parent t Ht) as (i & Hi & ?). exists i. split; [|done]. apply elem_of_app. by left.
  - intros i i' [Hi| ->%list_elem_of_singleton]%elem_of_app [Hi'| ->%list_elem_of_singleton]%elem_of_app; simpl; auto.
    + intros P1 P2 E. rewrite (Hp i) in P2; done.
    + intros P1 P2 E. rewrite (Hp i') in P1; done.
Qed.

Lemma kept_after {B C} (m : eff world B) (k : B -> eff world C) w w1 : reads w w1 -> frames reads m ->
  (forall a w2, reads w w2 -> kept w (k a w2).2) -> kept w ((m ≫= k) w1).2.
Proof.
  intros H Hm Hk. apply (after_frame reads m k (kept w)); [done | |].
  - intros w2 H2. apply same_kept, reads_same. by etrans.
  - intros a w2 _ H2. apply Hk. by etrans.
Qed.

Lemma kept_oidcIssuerCreate c o u : frames kept (oidcIssuerCreate c o u).
Proof.
  unfold oidcIssuerCreate, rpc. apply frames_try; [exact _| |intros ?; kept_reads].
  apply frames_bind; [exact _ | kept_reads | intros ag]. intros w.
  unfold hasPrimaryIssuer, gets. rewrite run_bind. cbv beta iota. set (has := existsb _ _).
  eapply kept_after; [reflexivity | solve_frames | intros type w1 H1]. case_match; [by apply same_kept, reads_same|].
  eapply kept_after; [exact H1 | solve_frames | intros url w2 H2].
  eapply kept_after; [exact H2 | unfold agent; pose proof reads_placed; solve_frames; auto | intros answer w3 H3].
  assert (Hthrow : forall e, kept w (throw e w3 : result oidc_issuer * world).2) by (intros e; by apply same_kept, reads_same).
  destruct answer; [|by case_match]. case_match; [done|].
  etrans; [apply same_kept, reads_same, H3|]. apply kept_addIssuer. simpl. intros i Hi Ho Hp. apply negb_false_iff, existsb_elem. exists i.
  split; [by rewrite (proj1 H3) in Hi|]. unfold in_org. rewrite bool_decide_true by done. by rewrite Hp.
Qed.

(** *** The primary issuer of an organization *)

Lemma unique_issuer w i i' : tables_ok w -> i ∈ issuers w -> i' ∈ issuers w -> is_id i' = is_id i -> i' = i.
Proof.
  intros Hok [n Hn]%list_elem_of_lookup [n' Hn']%list_elem_of_lookup E. assert (n = n') as <-; [|congruence].
  eapply NoDup_lookup; [exact (ok_issuer_ids _ Hok) | by rewrite list_lookup_fmap, Hn | rewrite list_lookup_fmap, Hn'; simpl; congruence].
Qed.

Lemma issuers_changed w w' : templates w' = templates w -> status w' = status w -> is_id <$> issuers w' = is_id <$> issuers w ->
  (tables_ok w -> forall i i', i ∈ issuers w' -> i' ∈ issuers w' -> isPrimary i = true -> isPrimary i' = true -> is_orgId i = is_orgId i' -> is_id i = is_id i') ->
  kept w w'.
Proof.
  intros Ht Hs He Hp Hok. specialize (Hp Hok). pose proof (ok_issuer_ids _ Hok) as Hnd. destruct Hok. unfold drawn_in in *.
  assert (Hin : forall i, i ∈ issuers w' -> exists i', i' ∈ issuers w /\ is_id i = is_id i').
  { intros i Hi. apply (list_elem_of_fmap_2 is_id) in Hi. rewrite He in Hi. apply list_elem_of_fmap in Hi as (i' & ? & ?). by exists i'. }
  split; unfold drawn_in; rewrite ?Ht, ?Hs, ?He; auto.
  - intros i (i' & Hi & ->)%Hin. auto.
  - intros t Ht'. destruct (ok_parent t Ht') as (i & Hi & Hid). apply (list_elem_of_fmap_2 is_id) in Hi. rewrite <- He in Hi.
    apply list_elem_of_fmap in Hi as (i' & ? & ?). exists i'. split; [done | congruence].
  - intros i i' Hi Hi' P P' E. pose proof (Hp i i' Hi Hi' P P' E) as Hids. rewrite <- He in Hnd.
    apply list_elem_of_lookup in Hi as [n Hn]. apply list_elem_of_lookup in Hi' as [n' Hn']. assert (n = n') as <-; [|congruence].
    eapply NoDup_lookup; [exact Hnd | by rewrite list_lookup_fmap, Hn | rewrite list_lookup_fmap, Hn'; simpl; congruence].
Qed.

(** The rows as an update leaves them, before the row itself is changed *)
Definition cleared (c : IssuerUpdation) (t : list oidc_issuer) : list oidc_issuer :=
  if default false (iu_isPrimary c) then update_where (fun i => in_org (iu_orgId c) i && isPrimary i) (with_primary false) t else t.

Lemma cleared_ids c t : is_id <$> cleared c t = is_id <$> t.
Proof. unfold cleared. case_match; [by apply fmap_update_where | done]. Qed.

Lemma updateIssuer_run by_ c w :
  let '(r, w') := updateOidcIssuerDetails by_ c w in
  templates w' = templates w /\ status w' = status w /\
  match r with
  | Ok i => issuers w' = update_where (issuer_is (iu_issuerId c)) (with_update by_ c) (cleared c (issuers w)) /\ i ∈ issuers w' /\ is_id i = iu_issuerId c /\
      exists i0, i0 ∈ issuers w /\ is_id i0 = iu_issuerId c /\ in_org (iu_orgId c) i0 = true
  | Throw _ => issuers w' = issuers w
  end.
Proof.
  unfold updateOidcIssuerDetails, transaction. rewrite run_bind. unfold gets at 1. cbv beta iota.
  destruct (first _ (issuers w)) as [i0|] eqn:Ef; [|done]. apply first_Some in Ef as [Hi0 [Hid%String.eqb_eq Ho]%andb_true_iff].
  set (m := update_issuer _ _).
  assert (Hm : forall w1, issuers w1 = cleared c (issuers w) -> templates w1 = templates w -> status w1 = status w ->
    exists i w2, m w1 = (Ok i, w2) /\ templates w2 = templates w /\ status w2 = status w /\
      issuers w2 = update_where (issuer_is (iu_issuerId c)) (with_update by_ c) (cleared c (issuers w)) /\ i ∈ issuers w2 /\ is_id i = iu_issuerId c).
  { intros w1 E1 Et Es. subst m. unfold update_issuer, gets, modify. rewrite run_bind. cbv beta iota. rewrite E1.
    destruct (first _ (cleared _ _)) as [i1|] eqn:E.
    - pose proof (first_Some _ _ _ E) as [Hi1 Hid1]. eexists _, _. split; [done|]. simpl. split_and!; try done; [|by apply String.eqb_eq].
      apply elem_of_update_where. exists i1. by rewrite Hid1.
    - rewrite first_None in E. apply (list_elem_of_fmap_2 is_id) in Hi0. rewrite <- (cleared_ids c), Hid in Hi0.
      apply list_elem_of_fmap in Hi0 as (i & Ei & Hi). specialize (E i Hi). unfold issuer_is in E. by rewrite <- Ei, String.eqb_refl in E. }
  rewrite run_bind. unfold cleared in Hm. destruct (default false (iu_isPrimary c)) eqn:Ep.
  - unfold modify. cbv beta iota. destruct (Hm (set_issuers (update_where (fun i => in_org (iu_orgId c) i && isPrimary i) (with_primary false) (issuers w)) w)) as (i & w2 & -> & ? & ? & ? & ? & ?); [done..|].
    unfold cleared. rewrite Ep. split_and!; try done. by exists i0.
  - destruct (existsb _ (issuers w)); [|done]. cbv beta iota delta [mret eff_ret]. destruct (Hm w) as (i & w2 & -> & ? & ? & ? & ? & ?); [done..|].
    unfold cleared. rewrite Ep. split_and!; try done. by exists i0.
Qed.

Lemma primary_before by_ c (t : list oidc_issuer) i :
  i ∈ update_where (issuer_is (iu_issuerId c)) (with_update by_ c) (cleared c t) -> isPrimary i = true ->
  exists y, y ∈ t /\ is_id i = is_id y /\ is_orgId i = is_orgId y /\
    (if default false (iu_isPrimary c) then is_id y = iu_issuerId c \/ (isPrimary y = true /\ in_org (iu_orgId c) y = false) else isPrimary y = true).
Proof.
  intros (x & Hx & ->)%elem_of_update_where Hp. unfold cleared in Hx. destruct (default false (iu_isPrimary c)) eqn:Ep.
  - apply elem_of_update_where in Hx as (y & Hy & ->). exists y. split; [done|]. destruct (in_org _ _ && _) eqn:Ec.
    + change (issuer_is (iu_issuerId c) (with_primary false y)) with (issuer_is (iu_issuerId c) y) in *.
      destruct (issuer_is (iu_issuerId c) y) eqn:Ei; [|done]. apply String.eqb_eq in Ei. by split_and!; [| |left].
    + destruct (issuer_is (iu_issuerId c) y) eqn:Ei; [apply String.eqb_eq in Ei; by split_and!; [| |left]|].
      split_and!; [done..|]. right. rewrite Hp, andb_true_r in Ec. done.
  - exists x. split; [done|]. destruct (issuer_is (iu_issuerId c) x); [|done]. split_and!; [done..|]. simpl in Hp.
    destruct (iu_isPrimary c) as [b|]; simpl in *; [congruence | done].
Qed.

Lemma in_org_same org i i' : is_orgId i = is_orgId i' -> in_org org i = in_org org i'.
Proof. unfold in_org. by intros ->. Qed.

Lemma kept_updateIssuer by_ c : frames kept (updateOidcIssuerDetails by_ c).
Proof.
  intros w Hok. pose proof (updateIssuer_run by_ c w) as H. destruct (updateOidcIssuerDetails by_ c w) as [[i|e] w']; simpl.
  2: { destruct H as (Ht & Hs & Hi). eapply same_tables_ok; [|done]. split; [done|]. split; [done | by rewrite Hs]. }
  destruct H as (Ht & Hs & Hi & _ & _ & i0 & Hi0 & Hid0 & Ho). revert Hok. apply issuers_changed; try done.
  { rewrite Hi, fmap_update_where by done. apply cleared_ids. }
  intros Hok x x' Hx Hx' Px Px' E. rewrite Hi in Hx, Hx'. apply primary_before in Hx as (y & Hy & -> & Eo & Hc); [|done].
  apply primary_before in Hx' as (y' & Hy' & -> & Eo' & Hc'); [|done].
  assert (Hu : forall z, z ∈ issuers w -> is_id z = iu_issuerId c -> z = i0) by (intros z Hz Hzid; eapply unique_issuer; [exact Hok | done.. | congruence]).
  assert (Eoy : is_orgId y = is_orgId y') by congruence. destruct (default false (iu_isPrimary c)).
  - destruct Hc as [Hc|[Py Ny]], Hc' as [Hc'|[Py' Ny']]; [congruence| | |f_equal; by eapply ok_primary].
    + rewrite <- (in_org_same _ y y') in Ny' by done. rewrite (Hu y Hy Hc) in Ny'. congruence.
    + rewrite (in_org_same _ y y') in Ny by done. rewrite (Hu y' Hy' Hc') in Ny. congruence.
  - f_equal. by eapply ok_primary.
Qed.
#[local] Hint Resolve kept_updateIssuer : platform.

Lemma kept_oidcIssuerUpdate c o u : frames kept (oidcIssuerUpdate c o u).
Proof.
  unfold oidcIssuerUpdate, rpc. apply frames_try; [exact _| |intros ?; kept_reads].
  do 3 (apply frames_bind; [exact _ | kept_reads | intros ?]). case_match; [kept_reads|].
  apply frames_bind; [exact _ | auto with platform | intros ?]. unfold _createOIDCTemplate. kept_reads.
Qed.

(** An issuer without templates is removed. *)
Lemma kept_deleteRowIssuer i : frames kept (Oid4vcRepository.deleteOidcIssuer i).
Proof.
  intros w. unfold Oid4vcRepository.deleteOidcIssuer, get, put. rewrite run_bind. cbv beta iota. case_match; [|done]. case_match eqn:E; [done|].
  rewrite run_bind. simpl. intros []. unfold drawn_in in *. split; unfold drawn_in; simpl; auto.
  - by apply filter_NoDup.
  - intros x [Hx _]%elem_of_filter_b. auto.
  - intros t Ht. destruct (ok_parent t Ht) as (x & Hx & Hid). exists x. split; [|done]. apply elem_of_filter_b. split; [done|].
    unfold issuer_is. rewrite Hid. apply negb_true_iff, not_true_iff_false. intros Hti. apply not_true_iff_false in E. apply E, existsb_elem. by exists t.
  - intros x x' [Hx _]%elem_of_filter_b [Hx' _]%elem_of_filter_b. auto.
Qed.
#[local] Hint Resolve kept_deleteRowIssuer : platform.

Lemma kept_deleteOidcIssuer o i : frames kept (Oid4vcService.deleteOidcIssuer o i).
Proof.
  unfold Oid4vcService.deleteOidcIssuer. apply frames_try; [exact _| |intros ?; kept_reads].
  do 2 (apply frames_bind; [exact _ | kept_reads | intros ?]). case_match; [kept_reads|].
  do 2 (apply frames_bind; [exact _ | unfold getTemplatesByIssuerId; kept_reads | intros ?]). apply frames_bind; [exact _ | | intros ?].
  - case_match; [kept_reads|]. apply frames_bind; [exact _ | auto with platform | intros ?; kept_reads].
  - apply frames_bind; [exact _ | auto with platform | intros ?]. unfold _deleteOidcIssuer. kept_reads.
Qed.

(** ** Offers and sessions *)

Lemma same_allocator {B} (m : eff Service.state B) : frames Service.grows m -> frames same_tables (allocator m).
Proof. intros Hm w. specialize (Hm (status w)). unfold allocator. destruct (m (status w)) as [r s]. destruct Hm as [_ Hm]. done. Qed.
Lemma reads_same_tables {B} (m : eff world B) : frames reads m -> frames same_tables m.
Proof. apply frames_mono. intros w w'. apply reads_same. Qed.

(** A request leaves the tables to the world it serves. *)
Definition same_request (r r' : request) : Prop := same_tables r.1 r'.1.
#[export] Instance same_request_preorder : PreOrder same_request.
Proof. split; [intros r; exact (reflexivity (R := same_tables) r.1) | intros r r1 r2; apply (transitivity (R := same_tables))]. Qed.
Lemma same_serving {B} (m : eff world B) : frames same_tables m -> frames same_request (serving m).
Proof. intros Hm [w taken]. specialize (Hm w). unfold serving. by destruct (m w) as [r w']. Qed.
Lemma same_took p : frames same_request (took p).
Proof. intros [w taken]. by apply reads_same. Qed.
#[local] Hint Resolve same_took : platform.

Lemma same_place o d : frames same_request (allocate_place o d).
Proof.
  unfold allocate_place. apply frames_bind; [exact _ | apply same_serving, same_allocator, Service.grows_allocate | intros [l i]]. solve_frames.
Qed.
#[local] Hint Resolve same_place : platform.
Lemma same_places o d cs : frames same_request (allocate_places o d cs).
Proof. induction cs as [|[b det] cs IH]; simpl; solve_frames. Qed.
Lemma same_saved o c l i n u : frames same_tables (allocator (Service.saveCredentialAllocation o c l i n u)).
Proof. intros w. unfold allocator, Service.saveCredentialAllocation, get, put. rewrite run_bind. cbv beta iota. by destruct (existsb _ _). Qed.
#[local] Hint Resolve same_places same_saved same_serving reads_same_tables : platform.
Lemma same_save o s ds : frames same_request (save_places o s ds).
Proof. induction ds as [|[d|] ds IH]; simpl; solve_frames. Qed.
Lemma same_release taken : frames same_tables (release_all taken).
Proof.
  unfold release_all. apply frames_for_each; [exact _ | intros [l i] _].
  apply frames_try; [exact _ | apply same_allocator, Service.grows_release | intros ?; by apply frames_ret; exact _].
Qed.
#[local] Hint Resolve same_save : platform.

Lemma same_with_places {B} (body : eff request B) h : frames same_request body -> frames same_tables (with_places body h).
Proof.
  intros Hb w. unfold with_places. specialize (Hb (w, [])). destruct (body (w, [])) as [[b|e] [w' taken]]; [exact Hb|].
  etrans; [exact Hb|]. exact (same_release taken w').
Qed.

Lemma same_wanted o b m cs : frames same_request (places o b m cs).
Proof. unfold places. solve_frames. Qed.
#[local] Hint Resolve same_wanted reads_build_offer reads_fill_signers reads_notice : platform.

Lemma same_createOffer q o i : frames same_tables (createOidcCredentialOffer q o i).
Proof. unfold createOidcCredentialOffer, create_offer, _oidcCreateCredentialOffer. apply same_with_places. solve_frames. Qed.
Lemma same_createD2A o org : frames same_tables (createOidcCredentialOfferD2A o org).
Proof. unfold createOidcCredentialOfferD2A, create_offer_d2a, _oidcCreateCredentialOffer. apply same_with_places. solve_frames. Qed.

Lemma same_webhook p i : frames same_tables (storeOidcCredentialWebhook p i).
Proof.
  unfold storeOidcCredentialWebhook, getOrganizationByTenantId. apply frames_bind; [exact _ | solve_frames | intros org].
  unfold storeOidcCredentialDetails, type_error. destruct p as [p|]; [|solve_frames]. apply frames_bind; [exact _ | solve_frames | intros ids].
  repeat (case_match; try solve [solve_frames]).
  all: apply frames_bind; [exact _ | solve_frames | intros t]; (case_match; [by intros w|]; intros w; unfold fresh, modify; rewrite run_bind; simpl; split; [done|]; split; [done | simpl; lia]).
Qed.
#[local] Hint Resolve same_createOffer same_createD2A same_webhook : platform.

Lemma same_revoke s o : frames same_tables (revokeCredential s o).
Proof.
  unfold revokeCredential, rpc, Service.getCredentialAllocations. assert (forall f : Service.state -> list Service.issued_row, frames same_tables (allocator (gets f))) by by intros f w.
  solve_frames.
Qed.
#[local] Hint Resolve same_revoke : platform.

(** ** Messages *)

Lemma same_offer_messages m : match m with
  | CreateOffer _ _ _ | CreateOfferD2A _ _ | UpdateOffer _ _ _ | DeleteOffers _ _ | RevokeCredential _ _ | CredentialWebhook _ _ => frames same_tables (handle m)
  | _ => True
  end.
Proof.
  destruct m; try done; simpl; unfold done_, updateOidcCredentialOffer, deleteCredentialOffers, rpc, _oidcUpdateCredentialOffer, _oidcDeleteCredentialOffer; solve_frames.
Qed.

Lemma kept_handle m : frames kept (handle m).
Proof.
  pose proof (same_offer_messages m) as H. destruct m; try (by eapply frames_mono; [apply same_kept|]); simpl; unfold done_;
    (apply frames_bind; [exact _ | | intros ?; by apply frames_ret; exact _]);
    [apply kept_oidcIssuerCreate | apply kept_oidcIssuerUpdate | apply kept_deleteOidcIssuer | apply kept_createTemplate | apply kept_updateTemplate
    | apply kept_deleteTemplate].
Qed.

Lemma serve_all_ind (I : world -> Prop) (ok : message -> Prop) ms w : (forall m w1, ok m -> I w1 -> I (serve m w1)) -> Forall ok ms -> I w -> I (serve_all ms w).
Proof. intros Hs H. revert w. induction H as [|m ms Hm _ IH]; intros w Hw; simpl; [done | by apply IH, Hs]. Qed.

Lemma serve_tables ms w : tables_ok w -> tables_ok (serve_all ms w).
Proof. intros Hok. apply (serve_all_ind tables_ok (fun _ => True)); [|by apply Forall_true|done]. intros m w1 _. apply kept_handle. Qed.

(** Every organization has at most one primary issuer; the rows have identifiers of
    their own, and each template an issuer. *)
Lemma tables_empty w : issuers w = [] -> templates w = [] -> tables_ok w.
Proof. intros Hi Ht. split; rewrite ?Hi, ?Ht; try (by constructor); by intros x ?%elem_of_nil || by intros x y ?%elem_of_nil. Qed.
End laws.
