(* ===== verification/Oid4vcPlaces.v ===== *)
(** * OpenID4VC issuers: places of offers

    [holding] relates the states of a request: the places it took in the meantime were
    free and are pairwise distinct, and no other place changed.  A request that fails gives
    them back ([with_places_run]). *)

From S2P Require Import Prelude Js Table CommonUtils CommonService X509 CredentialTemplates CredentialOffer IssuerMetadata StatusList Oid4vcData Oid4vcRepository Oid4vcService Oid4vcOffers Oid4vcInvariant Oid4vcTables.

Open Scope Z_scope.

Section places.
Context {U : UuidSource} {A : IssuerAgent} {R : RandomSource} {V : ProcessEnv}.

Definition occupied (w : world) (p : string * Z) : Prop := Service.live (status w) p.1 p.2.
Definition lists_ok (w : world) : Prop := Service.inv (status w).

(** [w'] has the places [new] besides those of [w]. *)
Record took_places (w w' : world) (new : list (string * Z)) : Prop := TookPlaces {
  tp_ok : lists_ok w';
  tp_distinct : NoDup new;
  tp_free p : p ∈ new -> ~ occupied w p;
  tp_occupied p : occupied w' p <-> p ∈ new \/ occupied w p;
}.

Lemma took_none w w' : lists_ok w' -> (forall p, occupied w' p <-> occupied w p) -> took_places w w' [].
Proof. intros H1 H2. split; [done | constructor | by intros p ?%elem_of_nil |]. intros p. rewrite H2, elem_of_nil. tauto. Qed.

Lemma took_app w w1 w2 a b : took_places w w1 a -> took_places w1 w2 b -> took_places w w2 (a ++ b)%list.
Proof.
  intros [O1 D1 F1 L1] [O2 D2 F2 L2]. split; [done| | |].
  - apply NoDup_app. split; [done|]. split; [|done]. intros p Hp Hq. apply (F2 p Hq). apply L1. by left.
  - intros p [Hp|Hp]%elem_of_app; [by apply F1|]. intros Hl. apply (F2 p Hp), L1. by right.
  - intros p. rewrite L2, L1, elem_of_app. tauto.
Qed.

Lemma took_status w w' : lists_ok w -> status w' = status w -> took_places w w' [].
Proof. intros Hok Hs. unfold lists_ok, occupied in *. apply took_none; unfold lists_ok, occupied; rewrite Hs; done. Qed.

Definition holding (r r' : request) : Prop :=
  lists_ok r.1 -> exists new, r'.2 = (r.2 ++ new)%list /\ took_places r.1 r'.1 new.

#[export] Instance holding_preorder : PreOrder holding.
Proof.
  split.
  - intros [w taken] Hok. exists []. split; [by rewrite app_nil_r|]. by apply took_status.
  - intros [w t] [w1 t1] [w2 t2] H1 H2 Hok. destruct (H1 Hok) as (a & E1 & Ha). destruct (H2 (tp_ok _ _ _ Ha)) as (b & E & Hb).
    exists (a ++ b)%list. simpl in *. rewrite E, E1, app_assoc. split; [done|]. by eapply took_app.
Qed.

Lemma reads_holding {B} (m : eff world B) : frames reads m -> frames holding (serving m).
Proof.
  intros Hm [w taken]. specialize (Hm w). unfold serving. destruct (m w) as [r w']. destruct Hm as [Hs _]. intros Hok. exists [].
  split; [by rewrite app_nil_r|]. apply took_status; [done | simpl in *; by rewrite Hs].
Qed.

(** ** Places are taken *)

Lemma default_size : Service.good_size None.
Proof. unfold Service.good_size. simpl. unfold Service.DEFAULT_STATUS_LIST_SIZE. lia. Qed.

Lemma allocate_took o d w : lists_ok w -> d <> "" ->
  (exists e w', allocator (Service.allocate o d None) w = (Throw e, w') /\ took_places w w' []) \/
  (exists p w', allocator (Service.allocate o d None) w = (Ok p, w') /\ took_places w w' [p]).
Proof.
  intros Hok Hd. unfold allocator. destruct (decide (o = "")) as [->|Ho].
  { left. unfold Service.allocate. simpl. eexists _, _. split; [done|]. by apply took_status. }
  right. destruct (Service.allocate_run (status w) o d None Hok Ho Hd default_size) as (l & i & s' & -> & Hok' & Hn & _ & Hlive).
  eexists _, _. split; [done|]. split; [done | apply NoDup_singleton | |].
  - intros p ->%list_elem_of_singleton. done.
  - intros [l' i']. rewrite list_elem_of_singleton. apply Hlive.
Qed.

Lemma allocate_place_run o d w taken : lists_ok w -> d <> "" ->
  (exists e w', allocate_place o d (w, taken) = (Throw e, (w', taken)) /\ took_places w w' []) \/
  (exists p w', allocate_place o d (w, taken) = (Ok (StatusDetails p.1 p.2 Service.DEFAULT_STATUS_LIST_SIZE), (w', taken ++ [p])%list) /\ took_places w w' [p]).
Proof.
  intros Hok Hd. unfold allocate_place, serving. rewrite run_bind.
  destruct (allocate_took o d w Hok Hd) as [(e & w' & -> & H)|([l i] & w' & -> & H)]; [left; by eexists _, _|].
  right. by exists (l, i), w'.
Qed.

Lemma holding_place o d : d <> "" -> frames holding (allocate_place o d).
Proof.
  intros Hd [w taken] Hok. destruct (allocate_place_run o d w taken Hok Hd) as [(e & w' & -> & H)|(p & w' & -> & H)]; simpl.
  - exists []. by rewrite app_nil_r.
  - by exists [p].
Qed.
Lemma holding_places_did o d cs : d <> "" -> frames holding (allocate_places o d cs).
Proof. intros Hd. induction cs as [|[b det] cs IH]; simpl; pose proof (holding_place o d Hd); solve_frames; auto. Qed.

Lemma holding_places o b m cs : frames holding (places o b m cs).
Proof.
  unfold places. case_match; [by apply frames_ret; exact _|]. case_match; [by apply frames_throw; exact _|].
  apply frames_bind; [exact _ | apply reads_holding, reads_agentEndPoint | intros a]. case_match eqn:E; [by apply frames_throw; exact _|].
  apply holding_places_did. destruct (orgDid a) as [d|]; [|done]. simpl. intros ->. done.
Qed.

Lemma holding_save o s ds : frames holding (save_places o s ds).
Proof.
  induction ds as [|[d|] ds IH]; simpl; [apply frames_ret; exact _ | | done].
  apply frames_bind; [exact _ | | intros ?; done]. case_match; try (by apply frames_throw; exact _).
  intros [w taken] Hok. exists []. unfold serving, allocator. unfold Service.saveCredentialAllocation, get, put. rewrite run_bind. cbv beta iota.
  destruct (existsb _ _); simpl; (split; [by rewrite app_nil_r|]).
  - by apply took_status.
  - apply took_none; [by apply Service.inv_bookkeeping | done].
Qed.

(** ** Places are given back *)

Lemma release_one p w : lists_ok w ->
  let w' := (try_catch (allocator (Service.release p.1 p.2)) (fun _ => mret tt) w).2 in
  lists_ok w' /\ forall q, occupied w' q <-> occupied w q /\ q <> p.
Proof.
  intros Hok. pose proof (Service.release_run (status w) p.1 p.2 Hok) as H. unfold try_catch, allocator.
  destruct (Service.release p.1 p.2 (status w)) as [[[]|e] s]; simpl; destruct H as [Hok' H]; (split; [done|]).
  - intros q. unfold occupied. simpl. rewrite H. by destruct p, q.
  - destruct H as (_ & Hn & H). intros q. unfold occupied. simpl. rewrite H. split; [|tauto]. intros Hq. split; [done|]. by intros ->.
Qed.

Lemma release_all_run taken w : lists_ok w ->
  lists_ok (release_all taken w).2 /\ forall q, occupied (release_all taken w).2 q <-> occupied w q /\ q ∉ taken.
Proof.
  revert w. unfold release_all. induction taken as [|[l i] taken IH]; intros w Hok; simpl.
  - split; [done|]. intros q. rewrite elem_of_nil. tauto.
  - rewrite run_bind. pose proof (release_one (l, i) w Hok) as [Hok1 H1]. simpl in Hok1, H1.
    destruct (try_catch _ _ w) as [[[]|e] w1] eqn:E; simpl in *.
    + destruct (IH w1 Hok1) as [Hok2 H2]. split; [done|]. intros q. rewrite H2, H1, elem_of_cons. tauto.
    + unfold try_catch in E. destruct (allocator _ w) as [[?|?] ?]; done.
Qed.

(** Serving a request with places *)
Lemma with_places_run {B} (body : eff request B) h w : frames holding body -> lists_ok w ->
  match body (w, []) with
  | (Ok b, (w', new)) => with_places body h w = (Ok b, w') /\ took_places w w' new
  | (Throw e, (w1, new)) => with_places body h w = (Throw (h e), (release_all new w1).2) /\ took_places w (release_all new w1).2 []
  end.
Proof.
  intros Hb Hok. unfold with_places. specialize (Hb (w, []) Hok) as (new & Hn & Ht).
  destruct (body (w, [])) as [[b|e] [w' taken]]; simpl in *; subst; (split; [done|]); [done|].
  destruct (release_all_run new w' (tp_ok _ _ _ Ht)) as [Hok' Hr]. apply took_none; [done|].
  intros p. rewrite Hr, (tp_occupied _ _ _ Ht). pose proof (tp_free _ _ _ Ht p). destruct (decide (p ∈ new)); tauto.
Qed.

(** ** What a request that succeeds took and recorded *)

Definition place_of (d : status_details) : string * Z := (sd_listId d, sd_index d).
Definition places_of (ds : list (option status_details)) : list (string * Z) := omap (fun d => place_of <$> d) ds.

(** The row of [issued_oid4vc_credentials] of a place *)
Definition record_of (org session : string) (d : status_details) : Service.issued_row :=
  Service.IssuedRow org (session +:+ "-" +:+ pretty (sd_index d)) (sd_listId d) (sd_index d) session (statusListUri (sd_listId d)).
Definition records_of (org session : string) (ds : list (option status_details)) : list Service.issued_row := omap (fun d => record_of org session <$> d) ds.

Definition unrecorded (r r' : request) : Prop := Service.issued (status r'.1) = Service.issued (status r.1).
#[export] Instance unrecorded_preorder : PreOrder unrecorded.
Proof. split; unfold unrecorded; [done | congruence]. Qed.
Lemma reads_unrecorded {B} (m : eff world B) : frames reads m -> frames unrecorded (serving m).
Proof. intros Hm [w taken]. specialize (Hm w). unfold serving, unrecorded. destruct (m w) as [r w']. destruct Hm as [Hs _]. simpl in *. by rewrite Hs. Qed.
Lemma unrecorded_place o d : frames unrecorded (allocate_place o d).
Proof.
  unfold allocate_place. apply frames_bind; [exact _ | | intros [l i]; apply frames_bind; [exact _ | by intros [] | intros ?; by apply frames_ret; exact _]].
  intros [w taken]. pose proof (Service.grows_allocate o d None (status w)) as H. unfold serving, allocator.
  destruct (Service.allocate o d None (status w)) as [r s]. destruct H as [H _]. exact H.
Qed.
#[local] Hint Resolve unrecorded_place : platform.
Lemma unrecorded_allocate o d cs : frames unrecorded (allocate_places o d cs).
Proof. induction cs as [|[b det] cs IH]; simpl; solve_frames. Qed.
#[local] Hint Resolve unrecorded_allocate reads_unrecorded reads_agentEndPoint : platform.
Lemma unrecorded_places o b m cs : frames unrecorded (places o b m cs).
Proof. unfold places. solve_frames. Qed.

Lemma serving_ok {B} (m : eff world B) w t b w' t' : serving m (w, t) = (Ok b, (w', t')) -> m w = (Ok b, w') /\ t' = t.
Proof. unfold serving. destruct (m w) as [r w1]. by intros [= -> -> ->]. Qed.

(** Credentials that are given a place *)
Definition wants (c : bool * option status_details) : bool := c.1 && bool_decide (c.2 = None :> option status_details).

Lemma allocate_places_run o d cs w taken ds w' taken' : lists_ok w -> d <> "" -> Forall (fun c => c.2 = None) cs ->
  allocate_places o d cs (w, taken) = (Ok ds, (w', taken')) -> taken' = (taken ++ places_of ds)%list /\ Forall2 (fun c d => is_Some d <-> c.1 = true) cs ds.
Proof.
  intros Hok Hd Hn. revert w taken ds Hok. induction Hn as [|[b det] cs Hc Hn IH]; intros w taken ds Hok H; simpl in *.
  - injection H as <- <- <-. split; [by rewrite app_nil_r | constructor].
  - subst det. apply bind_ok_inv in H as (d1 & [w1 t1] & H1 & H). apply bind_ok_inv in H as (ds1 & [w2 t2] & H2 & H).
    injection H as <- <- <-. destruct b; simpl in H1.
    + rewrite run_bind in H1. destruct (allocate_place_run o d w taken Hok Hd) as [(e & w1' & E & Ht)|(p & w1' & E & Ht)]; rewrite E in H1; [done|].
      injection H1 as <- <- <-. destruct (IH _ _ _ (tp_ok _ _ _ Ht) H2) as [-> Hf]. split; [|constructor; [by split|done]].
      rewrite <- app_assoc. simpl. unfold place_of. by destruct p.
    + injection H1 as <- <- <-. destruct (IH _ _ _ Hok H2) as [-> Hf]. split; [done|]. constructor; [|done]. split; [by intros [? ?] | done].
Qed.

Lemma places_run o b m cs w taken ds w' taken' : lists_ok w -> Forall (fun c => c.2 = None) cs ->
  places o b m cs (w, taken) = (Ok ds, (w', taken')) -> taken' = (taken ++ places_of ds)%list /\ Forall2 (fun c d => is_Some d <-> b = true /\ c.1 = true) cs ds.
Proof.
  intros Hok Hn H. unfold places in H. case_match eqn:Eb.
  - injection H as <- <- <-.
    assert (Hds : places_of (map snd cs) = []). { clear -Hn. induction Hn as [|[? ?] cs Hc Hn IH]; simpl in *; [done|]. by subst. }
    rewrite Hds. split; [by rewrite app_nil_r|].
    assert (Hc : forall c, c ∈ cs -> ~ (b = true /\ c.1 = true)).
    { intros c Hc [-> Hb]. simpl in Eb. apply negb_true_iff, not_true_iff_false in Eb. apply Eb, existsb_elem. by exists c. }
    clear Eb Hds. induction Hn as [|c cs Hcn Hn IH]; simpl; constructor; [|apply IH; intros c' ?; apply Hc; by right].
    rewrite Hcn. split; [by intros [? ?] | intros Hx; exfalso; apply (Hc c); [left | done]].
  - apply negb_false_iff, andb_true_iff in Eb as [-> _]. case_match; [done|].
    apply bind_ok_inv in H as (a & [w1 t1] & [H1 ->]%serving_ok & H). apply getAgentEndPoint_ok in H1 as [-> _].
    case_match eqn:Ed; [done|].
    apply allocate_places_run in H as [-> Hf]; [|done| |done].
    + split; [done|]. eapply Forall2_impl; [exact Hf|]. simpl. tauto.
    + destruct (orgDid a) as [d|]; [|done]. simpl. by intros ->.
Qed.

Lemma save_places_run o s ds w taken u w' taken' : save_places o s ds (w, taken) = (Ok u, (w', taken')) ->
  calls w' = calls w /\ Service.issued (status w') = (Service.issued (status w) ++ records_of o (default "" (Json.as_str (Some s))) ds)%list /\
  (Json.as_str (Some s) = None -> places_of ds = []).
Proof.
  assert (Hs : (exists session, s = Json.JStr session) \/ (forall session, s <> Json.JStr session)) by (destruct s; try (by right); left; by eexists).
  destruct Hs as [[session ->]|Hs].
  - intros H. cut (calls w' = calls w /\ Service.issued (status w') = (Service.issued (status w) ++ records_of o session ds)%list).
    { intros [? ?]. by split_and!. }
    revert w taken H. induction ds as [|[d|] ds IH]; intros w taken H; simpl in H.
    + injection H as _ <- <-. by rewrite app_nil_r.
    + apply bind_ok_inv in H as ([] & [w1 t1] & [H1 ->]%serving_ok & H). unfold allocator, Service.saveCredentialAllocation, get, put in H1.
      rewrite run_bind in H1. cbv beta iota in H1. destruct (existsb _ _); [done|]. injection H1 as <-.
      apply IH in H as [-> ->]. simpl. split; [done|]. by rewrite <- app_assoc.
    + by apply IH in H.
  - intros H. cut (calls w' = calls w /\ Service.issued (status w') = Service.issued (status w) /\ (forall t, records_of o t ds = []) /\ places_of ds = []).
    { intros (? & -> & E & Ep). rewrite E, app_nil_r. by split_and!. }
    revert w taken H. induction ds as [|[d|] ds IH]; intros w taken H; simpl in H.
    + injection H as _ <- <-. by split_and!.
    + exfalso. apply bind_ok_inv in H as ([] & [w1 t1] & H1 & _). destruct s; try done. by eapply Hs.
    + by apply IH in H.
Qed.

Lemma save_places_taken o s ds w taken u w' taken' : save_places o s ds (w, taken) = (Ok u, (w', taken')) -> taken' = taken.
Proof.
  revert w taken. induction ds as [|[d|] ds IH]; intros w taken H; simpl in H; [by injection H | | by eapply IH].
  apply bind_ok_inv in H as ([] & [w1 t1] & H1 & H). apply IH in H as ->. destruct s; try done. by apply serving_ok in H1 as [_ ->].
Qed.
End places.
