(* ===== verification/Oid4vcProofs.v ===== *)
(** * OpenID4VC issuers: properties *)

From S2P Require Import Prelude Js Table CommonUtils CommonService X509 CredentialTemplates CredentialOffer IssuerMetadata StatusList Oid4vcData Oid4vcRepository Oid4vcService Oid4vcOffers Oid4vcInvariant Oid4vcTables Oid4vcPlaces.

Open Scope Z_scope.

Section properties.
Context {U : UuidSource} {A : IssuerAgent} {R : RandomSource} {V : ProcessEnv}.

(** ** Offers *)

#[local] Hint Resolve reads_build_offer reads_fill_signers reads_notice reads_natsCall reads_getAgentEndpoint reads_agent_url holding_places holding_save
  reads_holding : platform.

Lemma holding_offer q o i : frames holding (create_offer q o i).
Proof. unfold create_offer, _oidcCreateCredentialOffer. solve_frames. Qed.
Lemma holding_d2a o org : frames holding (create_offer_d2a o org).
Proof. unfold create_offer_d2a, _oidcCreateCredentialOffer. solve_frames. Qed.

Lemma natsCall_ok c w a w' : natsCall c w = (Ok a, w') -> calls w' = (calls w ++ [c])%list /\ status w' = status w.
Proof. unfold natsCall, agent, placed. rewrite !run_bind. cbv beta iota. simpl. destruct (on_agent _); [by intros [= _ <-] | done]. Qed.

(** The session an answer names: the first of its identifiers that is truthy *)
Definition session_named (answer : any) : option Json.value :=
  match (p ← parsed answer; session_id p) with Ok (Some v) => if Json.truthy v then Some v else None | _ => None end.

(** What a successful request sent and recorded: the record of every place, under the session
    the answer names; without a session there is no record. *)
Definition offered (q : CreateOidcCredentialOffer) (o i : string) (w w' : world) (answer : any) (offer : CredentialOfferPayload) (ds : list (option status_details)) : Prop :=
  (exists url w1, build_offer q o i w = (Ok (offer, url), w1) /\
   last (calls w') = Some (AgentCall "agent-service-oid4vc-create-credential-offer" (CredentialPayload (OfferSent offer (zip (o_credentials offer) ds))) url o)) /\
  Forall2 (fun c d => is_Some d <-> isRevocable (or_dto q) = Some true /\ is_sd_jwt c = true) (o_credentials offer) ds /\
  match session_named answer with
  | Some v => Service.issued (status w') = (Service.issued (status w) ++ records_of o (default "" (Json.as_str (Some v))) ds)%list /\
      (places_of ds <> [] -> exists session, v = Json.JStr session)
  | None => Service.issued (status w') = Service.issued (status w)
  end.

(** Without revocation there are no places. *)
Lemma unrevocable_nothing (q : Prop) o s cs ds : Forall2 (fun c d => is_Some d <-> q /\ is_sd_jwt c = true) cs ds -> ~ q ->
  records_of o s ds = [] /\ places_of ds = [].
Proof.
  intros Hf Hq. induction Hf as [|c d cs ds Hcd Hf IH]; [done|]. destruct d as [d|]; [|exact IH].
  destruct Hq. destruct Hcd as [H _]. by destruct H; [eexists|].
Qed.

Lemma offer_body_ok q o i w b w' new : lists_ok w -> create_offer q o i (w, []) = (Ok b, (w', new)) ->
  exists offer ds, new = places_of ds /\ offered q o i w w' b offer ds.
Proof.
  intros Hok E. unfold create_offer in E. apply bind_ok_inv in E as ([offer url] & [w1 t1] & [E1 ->]%serving_ok & E).
  pose proof (reads_build_offer q o i w) as Hr1. rewrite E1 in Hr1. destruct Hr1 as [Hr1 _]. simpl in Hr1.
  assert (Hs1 : status w1 = status w) by (by rewrite Hr1). assert (Hok1 : lists_ok w1) by (unfold lists_ok; by rewrite Hs1).
  apply bind_ok_inv in E as (ds & [w2 t2] & E2 & E).
  match type of E2 with ?m _ = _ => pose proof (unrecorded_places o _ _ _ (w1, []) : unrecorded _ (m (w1, [])).2) as Hu end.
  rewrite E2 in Hu. unfold unrecorded in Hu. simpl in Hu.
  apply places_run in E2 as [-> Hf]; [|done | by apply Forall_map, Forall_true].
  apply bind_ok_inv in E as (response & [w3 t3] & [E3 ->]%serving_ok & E). apply natsCall_ok in E3 as [Hc3 Hs3].
  apply bind_ok_inv in E as (notice & [w4 t4] & E4 & E).
  assert (w4 = w3 /\ t4 = places_of ds) as [-> ->].
  { assert (Hn : forall l, serving (notice_of q l) (w3, places_of ds) = (Ok notice, (w4, t4)) -> w4 = w3 /\ t4 = places_of ds).
    { intros l [H ->]%serving_ok. split; [|done]. transitivity (notice_of q l w3).2; [by rewrite H | by destruct l as [|x [|y l]]]. }
    destruct response as [[]|]; [by injection E4 as _ <- <- | by eapply Hn ..]. }
  apply bind_ok_inv in E as (r1 & [w5 t5] & E5 & E).
  assert (E5' : (w5, t5) = (w3, places_of ds)) by (destruct response as [[]|]; by apply lift_ok in E5 as [_ ?]). injection E5' as -> ->.
  apply bind_ok_inv in E as (r2 & ? & [Ep ->]%lift_ok & E). apply bind_ok_inv in E as (session & ? & [Es ->]%lift_ok & E).
  apply bind_ok_inv in E as ([] & [w8 t8] & E8 & E). injection E as <- <- <-.
  assert (Hf' : Forall2 (fun c d => is_Some d <-> isRevocable (or_dto q) = Some true /\ is_sd_jwt c = true) (o_credentials offer) ds).
  { clear -Hf. revert ds Hf. induction (o_credentials offer) as [|c cs IH]; intros ds Hf; inversion Hf; subst; constructor; [|auto].
    simpl in *. destruct (isRevocable (or_dto q)) as [[]|]; simpl in *; naive_solver. }
  assert (Hn : default false (isRevocable (or_dto q)) = false -> forall s, records_of o s ds = [] /\ places_of ds = []).
  { intros Hr s. eapply unrevocable_nothing; [exact Hf'|]. by destruct (isRevocable (or_dto q)) as [[]|]. }
  assert (Hsaved : t8 = places_of ds /\ calls w8 = calls w3 /\ match session_named r1 with
    | Some v => Service.issued (status w8) = (Service.issued (status w3) ++ records_of o (default "" (Json.as_str (Some v))) ds)%list /\
        (places_of ds <> [] -> exists s, v = Json.JStr s)
    | None => Service.issued (status w8) = Service.issued (status w3) end).
  { unfold session_named. assert ((p ← parsed r1; session_id p) = Ok session) as -> by (rewrite Ep; exact Es).
    destruct session as [s|]; [|by injection E8 as <- <-]. destruct (Json.truthy s) eqn:Et; [|by injection E8 as <- <-].
    simpl in E8. destruct (default false _) eqn:Er.
    - split; [by eapply save_places_taken|]. apply save_places_run in E8 as (Hc & Hs & Hnone). split_and!; [done | done|].
      intros Hp. destruct s; try (by destruct Hp; apply Hnone); by eexists.
    - injection E8 as <- <-. destruct (Hn eq_refl (default "" (Json.as_str (Some s)))) as [-> ->]. rewrite app_nil_r. by split_and!. }
  destruct Hsaved as (-> & Hc8 & Hs8). exists offer, ds. split; [done|]. split_and!.
  - exists url, w1. split; [exact E1|]. by rewrite Hc8, Hc3, last_snoc.
  - exact Hf'.
  - rewrite Hs3, Hu, Hs1 in Hs8. exact Hs8.
Qed.


(** C16. A revocable offer and the places of status lists it hands out: when the request
    fails, every place is as it was.  When it succeeds, the agent was sent the built
    credentials, each SD-JWT credential of a revocable offer with a place that was free,
    no two with the same place; those places are the only ones occupied since, and each of
    them is recorded under the session that the answer names; an answer that names none
    leaves them without a record. *)
Theorem offer_places q o i w : lists_ok w ->
  let '(r, w') := createOidcCredentialOffer q o i w in
  match r with
  | Throw _ => took_places w w' []
  | Ok answer => exists offer ds, took_places w w' (places_of ds) /\ offered q o i w w' answer offer ds
  end.
Proof.
  intros Hok. unfold createOidcCredentialOffer.
  match goal with |- context [with_places _ ?h w] => pose proof (with_places_run _ h w (holding_offer q o i) Hok) as H end.
  destruct (create_offer q o i (w, [])) as [[b|e] [w' new]] eqn:E; destruct H as [-> Ht]; [|done].
  destruct (offer_body_ok _ _ _ _ _ _ _ Hok E) as (offer & ds & -> & Ho). by exists offer, ds.
Qed.

(** A request for an offer whose credentials the caller assembled gives back every
    place it took when it fails; when it succeeds, the places occupied since were free and
    are pairwise distinct. *)
Theorem d2a_places o org w : lists_ok w ->
  let '(r, w') := createOidcCredentialOfferD2A o org w in
  match r with Throw _ => took_places w w' [] | Ok _ => exists new, took_places w w' new end.
Proof.
  intros Hok. unfold createOidcCredentialOfferD2A.
  match goal with |- context [with_places _ ?h w] => pose proof (with_places_run _ h w (holding_d2a o org) Hok) as H end.
  destruct (create_offer_d2a o org (w, [])) as [[b|e] [w' new]]; destruct H as [-> Ht]; [by exists new | done].
Qed.

(** ** Issuers *)

(** C18. After any messages every template belongs to an issuer, identifiers of issuers and
    of templates are unique, and an organization has at most one primary issuer. *)
Theorem issuers_consistent ms w : issuers w = [] -> templates w = [] ->
  let w' := serve_all ms w in
  NoDup (is_id <$> issuers w') /\ NoDup (tr_id <$> templates w') /\
  (forall t, t ∈ templates w' -> exists i, i ∈ issuers w' /\ is_id i = tr_issuerId t) /\
  (forall i i', i ∈ issuers w' -> i' ∈ issuers w' -> isPrimary i = true -> isPrimary i' = true -> is_orgId i = is_orgId i' -> i = i').
Proof.
  intros Hi Ht. destruct (serve_tables ms w (tables_empty w Hi Ht)). auto.
Qed.

(** Making an issuer primary without naming an organization, as the gateway does,
    leaves no other issuer primary, whatever its organization. *)
Theorem primary_of_every_organization c orgId userId w i w' : iu_orgId c = None -> iu_isPrimary c = Some true ->
  oidcIssuerUpdate c orgId userId w = (Ok i, w') ->
  forall x, x ∈ issuers w' -> isPrimary x = true -> is_id x = iu_issuerId c.
Proof.
  intros Ho Hp H. unfold oidcIssuerUpdate in H. apply rpc_Ok in H.
  apply bind_ok_inv in H as (e & w1 & [-> _]%getOidcIssuer_ok & H). apply bind_ok_inv in H as (ag & w2 & [-> _]%getAgentEndPoint_ok & H).
  apply bind_ok_inv in H as (ty & w3 & H1 & H). case_match; [done|]. apply bind_ok_inv in H as (u & w4 & H2 & H).
  pose proof (updateIssuer_run userId c w3) as Hu. rewrite H2 in Hu. destruct Hu as (_ & _ & Hi & _).
  assert (Hi' : issuers w' = issuers w4).
  { match type of H with ?m _ = _ => assert (Hr : frames reads m) end.
    { unfold _createOIDCTemplate. pose proof reads_config. pose proof reads_natsCall. solve_frames; auto. }
    specialize (Hr w4). rewrite H in Hr. destruct Hr as [Hr _]. simpl in Hr. by rewrite Hr. }
  rewrite Hi', Hi. intros x Hx Hpx. apply primary_before in Hx as (y & _ & -> & _ & Hc); [|done]. rewrite Hp, Ho in Hc. simpl in Hc.
  destruct Hc as [?|[_ ?]]; done.
Qed.

(** ** Templates *)

(** C17. Creating or changing a template is all or nothing: when the request fails, the
    templates are those of before, with their data; when it succeeds, the last call made
    told the agent the credential configurations of all the templates the issuer then
    has. *)
Theorem template_change_published m w org issuerId : tables_ok w ->
  match m with TemplateCreate _ o i | TemplateUpdateMessage _ _ o i => o = org /\ i = issuerId | _ => False end ->
  let '(r, w') := handle m w in
  match r with Ok _ => told issuerId org w' | Throw _ => same_rows w w' end.
Proof.
  intros Hok Hm. destruct m as [| | |d o i|t d o i| | | | | | |]; try done; destruct Hm as [-> ->]; simpl; unfold done_; rewrite run_bind.
  - pose proof (createTemplate_run d org issuerId w Hok) as H. destruct (Oid4vcService.createTemplate _ _ _ _) as [[t|e] w']; simpl; [by apply H | by apply same_same].
  - pose proof (updateTemplate_run t d org issuerId w Hok) as H. destruct (Oid4vcService.updateTemplate _ _ _ _ _) as [[t'|e] w']; simpl; [|done].
    destruct H as (? & ? & H). apply H.
Qed.

End properties.

(** * OpenID4VC issuers: names of templates

    Two templates of an issuer have different names up to case as long as every change
    names its template. *)

Open Scope Z_scope.

Section names.
Context {U : UuidSource} {A : IssuerAgent} {R : RandomSource} {V : ProcessEnv}.

Definition names_ok (w : world) : Prop := forall t t', t ∈ templates w -> t' ∈ templates w -> tr_issuerId t = tr_issuerId t' ->
  same_name (tr_name t) (tr_name t') = true -> tr_id t = tr_id t'.

(** Worlds of which the second has only rows of the first *)
Definition fewer (w w' : world) : Prop := forall t, t ∈ templates w' -> exists t0, t0 ∈ templates w /\ untimed t = untimed t0.
#[local] Instance fewer_preorder : PreOrder fewer.
Proof. split; [intros w t Ht; by exists t|]. intros w w1 w2 H1 H2 t (t1 & Ht1 & ->)%H2. by apply H1. Qed.

Lemma same_rows_fewer w w' : same_rows w w' -> fewer w w'.
Proof. intros (_ & H & _) t Ht. by eapply untimed_elem. Qed.
Lemma reads_fewer {B} (m : eff world B) : frames reads m -> frames fewer m.
Proof. apply frames_mono. intros w w' H. by apply same_rows_fewer, same_same, reads_same. Qed.

Lemma untimed_keys t t0 : untimed t = untimed t0 -> tr_id t = tr_id t0 /\ tr_name t = tr_name t0 /\ tr_issuerId t = tr_issuerId t0.
Proof. intros [E1 E2]%untimed_parts. unfold tr_id, tr_name. by rewrite E1. Qed.

Lemma fewer_names w w' : fewer w w' -> names_ok w -> names_ok w'.
Proof.
  intros H Hn t t' (t0 & Ht & (-> & -> & ->)%untimed_keys)%H (t0' & Ht' & (-> & -> & ->)%untimed_keys)%H. by apply Hn.
Qed.

Lemma fewer_filter p w : fewer w (set_templates (List.filter p (templates w)) w).
Proof. intros t [Ht _]%elem_of_filter_b. by exists t. Qed.
Lemma fewer_deleteRow t : frames fewer (Oid4vcRepository.deleteTemplate t).
Proof. intros w. unfold Oid4vcRepository.deleteTemplate, gets, modify. rewrite run_bind. cbv beta iota. case_match; [apply fewer_filter | done]. Qed.
Lemma fewer_deleteRows i : frames fewer (deleteTemplatesByIssuerId i).
Proof. intros w. apply fewer_filter. Qed.
Lemma fewer_untouched {B} (m : eff world B) : (forall w, templates (m w).2 = templates w) -> frames fewer m.
Proof. intros H w t. rewrite H. intros Ht. by exists t. Qed.

#[local] Hint Resolve reads_get reads_natsCall reads_agent_url reads_agentEndPoint reads_issuer reads_type reads_config reads_publish reads_getById
  reads_getAgentEndpoint reads_fewer fewer_deleteRow fewer_deleteRows : platform.
Ltac fewer_reads := apply reads_fewer; solve [solve_frames].

Lemma fewer_deleteTemplate t o i : frames fewer (Oid4vcService.deleteTemplate t o i).
Proof. unfold Oid4vcService.deleteTemplate, rpc, getTemplateById. solve_frames. Qed.

Lemma fewer_deleteIssuer i : frames fewer (Oid4vcRepository.deleteOidcIssuer i).
Proof.
  apply fewer_untouched. intros w. unfold Oid4vcRepository.deleteOidcIssuer, get, put. rewrite run_bind. cbv beta iota.
  destruct (first _ _); [|done]. by destruct (existsb _ _).
Qed.
Lemma fewer_addIssuer m p : frames fewer (addOidcIssuerDetails m p).
Proof.
  apply fewer_untouched. intros w. unfold addOidcIssuerDetails. destruct (im_publicIssuerId m) as [[| | | public | |]|]; try done. by destruct p.
Qed.
Lemma fewer_updateIssuer by_ c : frames fewer (updateOidcIssuerDetails by_ c).
Proof.
  apply fewer_untouched. intros w. pose proof (updateIssuer_run by_ c w) as H. destruct (updateOidcIssuerDetails by_ c w). apply H.
Qed.
#[local] Hint Resolve fewer_deleteTemplate fewer_deleteIssuer fewer_addIssuer fewer_updateIssuer : platform.

Lemma fewer_issuerCreate c o u : frames fewer (oidcIssuerCreate c o u).
Proof. unfold oidcIssuerCreate, rpc, hasPrimaryIssuer, agent. pose proof reads_placed. solve_frames. Qed.
Lemma fewer_issuerUpdate c o u : frames fewer (oidcIssuerUpdate c o u).
Proof. unfold oidcIssuerUpdate, rpc, _createOIDCTemplate. solve_frames. Qed.
Lemma fewer_issuerDelete o i : frames fewer (Oid4vcService.deleteOidcIssuer o i).
Proof. unfold Oid4vcService.deleteOidcIssuer, _deleteOidcIssuer, getTemplatesByIssuerId. solve_frames. Qed.
#[local] Hint Resolve fewer_issuerCreate fewer_issuerUpdate fewer_issuerDelete : platform.

(** The messages that do not name a template *)
Lemma fewer_message m : match m with TemplateCreate _ _ _ | TemplateUpdateMessage _ _ _ _ => True | _ => frames fewer (handle m) end.
Proof.
  pose proof (same_offer_messages m) as H.
  destruct m; try done; try (eapply frames_mono; [|exact H]; intros w w' Hs; by apply same_rows_fewer, same_same); simpl; unfold done_; solve_frames.
Qed.

(** ** Names *)

Lemma same_name_sym a b : same_name a b = same_name b a.
Proof. unfold same_name. apply String.eqb_sym. Qed.
Lemma same_name_eq a b : same_name a b = true <-> Str.toLowerCase a = Str.toLowerCase b.
Proof. apply String.eqb_eq. Qed.

Lemma names_created w w' d t issuerId : names_ok w -> templates w' = (templates w ++ [t])%list -> tr_issuerId t = issuerId -> tr_name t = d -> free_name w issuerId d -> names_ok w'.
Proof.
  intros Hn Ht Hi Hd Hf x x'. rewrite Ht. intros [Hx| ->%list_elem_of_singleton]%elem_of_app [Hx'| ->%list_elem_of_singleton]%elem_of_app Ei En; auto.
  - rewrite Hd, (Hf x Hx) in En by congruence. done.
  - rewrite same_name_sym, Hd, (Hf x' Hx') in En by congruence. done.
Qed.

Lemma names_updated w w' id d at_ issuerId name : names_ok w -> ut_name d = Some name -> name <> "" -> issuerId <> "" ->
  templates w' = update_where (template_is id) (with_data (update_data d issuerId) at_) (templates w) -> name_kept w issuerId (ut_name d) id -> names_ok w'.
Proof.
  intros Hn Hd Hname Hi Ht Hk.
  assert (Hch : forall t, tr_issuerId (with_data (update_data d issuerId) at_ t) = issuerId /\ tr_name (with_data (update_data d issuerId) at_ t) = name).
  { intros t. unfold update_data. simpl. rewrite Hd. apply String.eqb_neq in Hi as ->. done. }
  assert (Hother : forall x, x ∈ templates w -> tr_issuerId x = issuerId -> same_name (tr_name x) name = true -> tr_id x = id).
  { intros x Hx Hxi Hxn. rewrite Hd in Hk. destruct (Hk ltac:(by destruct name) x Hx Hxi Hxn) as (y & Hy & <- & Hyi & Hyn). simpl in *.
    apply Hn; [done..|congruence|]. rewrite same_name_eq in *. congruence. }
  intros x x'. rewrite Ht. intros (t & Ht0 & ->)%elem_of_update_where (t' & Ht0' & ->)%elem_of_update_where.
  destruct (template_is id t) eqn:E, (template_is id t') eqn:E'; rewrite ?with_data_id.
  - apply String.eqb_eq in E, E'. congruence.
  - apply String.eqb_eq in E. rewrite (proj1 (Hch t)), (proj2 (Hch t)). intros Ei En. rewrite same_name_sym in En. rewrite (Hother t' Ht0') by done. congruence.
  - apply String.eqb_eq in E'. rewrite (proj1 (Hch t')), (proj2 (Hch t')). intros Ei En. rewrite (Hother t Ht0) by done. congruence.
  - by apply Hn.
Qed.

(** Changes that name the template and the issuer *)
Definition names_template (m : message) : Prop :=
  match m with TemplateUpdateMessage _ d _ i => truthy_str (ut_name d) = true /\ i <> "" | _ => True end.

Lemma names_served m w : names_template m -> tables_ok w -> names_ok w -> names_ok (serve m w).
Proof.
  intros Hm Hok Hn. pose proof (fewer_message m) as Hf. unfold serve.
  destruct m as [| | |d o i|t d o i| | | | | | |]; try (eapply fewer_names; [exact (Hf w) | done]); simpl; unfold done_; rewrite run_bind.
  - pose proof (createTemplate_run d o i w Hok) as H. destruct (Oid4vcService.createTemplate d o i w) as [[t|e] w']; simpl.
    + destruct H as (Ht & _ & _ & _ & (Hi & _) & Hd & Hfree & _). by eapply names_created.
    + eapply fewer_names; [|done]. by apply same_rows_fewer, same_same.
  - pose proof (updateTemplate_run t d o i w Hok) as H. destruct (Oid4vcService.updateTemplate t d o i w) as [[t'|e] w']; simpl.
    + destruct H as (t0 & at_ & _ & _ & _ & Ht & _ & _ & Hk & _). destruct Hm as [Hname Hi]. destruct (ut_name d) as [name|] eqn:E; [|done].
      rewrite <- E in Hk. eapply names_updated; [exact Hn | exact E | by intros -> | exact Hi | exact Ht | exact Hk].
    + eapply fewer_names; [|done]. by apply same_rows_fewer.
Qed.

(** After any messages of which every change of a template names it, no two templates
    of an issuer have the same name up to case. *)
Theorem template_names_unique ms w : issuers w = [] -> templates w = [] -> Forall names_template ms ->
  forall t t', t ∈ templates (serve_all ms w) -> t' ∈ templates (serve_all ms w) -> tr_issuerId t = tr_issuerId t' ->
  same_name (tr_name t) (tr_name t') = true -> tr_id t = tr_id t'.
Proof.
  intros Hi Ht Hms. change (names_ok (serve_all ms w)).
  assert (H : tables_ok (serve_all ms w) /\ names_ok (serve_all ms w)); [|by destruct H].
  apply (serve_all_ind (fun w => tables_ok w /\ names_ok w) names_template); [|done|].
  - intros m w1 Hm [Hok Hn]. split; [by apply kept_handle | by apply names_served].
  - split; [by apply tables_empty|]. intros t t'. rewrite Ht. by intros ?%elem_of_nil.
Qed.
End names.

(** * OpenID4VC issuers: a deployment

    Two organizations and an agent that accepts everything, on which the theorems are
    applied. *)

Open Scope Z_scope.

Definition agent_answer (c : call) (n : nat) : any + rpc_error :=
  if String.eqb (cl_cmd c) "agent-create-oid4vc-issuer" then inl (Some (Json.JObj [("issuerId", Json.JStr ("issuer-" +:+ pretty n))]))
  else if String.eqb (cl_cmd c) "agent-service-oid4vc-create-credential-offer" then
    inl (Some (Json.JObj [("issuanceSession", Json.JObj [("id", Json.JStr "session")])]))
  else if String.eqb (cl_orgId c) "offline" then inr (RpcError "unreachable" None None)
  else inl (Some (Json.JObj [("statusCode", Json.JNum 200)])).

#[local] Instance accepting : IssuerAgent := {|
  on_agent cs := match last cs with Some c => agent_answer c (length cs) | None => inl None end;
  reading := Z.of_nat |}.
#[local] Existing Instance Service.numbered.
#[local] Existing Instance Service.first_free.
#[local] Instance hosted : ProcessEnv := {| process_env name := if String.eqb name "STATUS_LIST_HOST" then Some "https://status.example" else None |}.

Definition agent_row (id org : string) : org_agents := OrgAgent id (Some org) (Some ("did:key:" +:+ org)) (Some "https://agent.example") (Some "shared") (Some ("tenant-" +:+ org)).
Definition start : world :=
  World [agent_row "a1" "org1"; agent_row "a2" "org2"; agent_row "a3" "offline"] [OrgAgentType "shared" "SHARED"] [] [] [] [] (Service.State ∅ [] 0 0) [] 0.

Definition issuer (name : string) : IssuerCreationDto := IssuerDto "https://auth.example" name (Some (Json.JArr [])) None None.
Definition identity (name : string) : CreateCredentialTemplate :=
  TemplateDto name None "dc+sd-jwt" true (Some (Json.JObj [])) (Some DID) (Body (Some "https://vct") (Some [Attribute "name" true STRING true None None]) None None) None.
Definition renamed (name : option string) : UpdateCredentialTemplate := TemplateUpdate name None None None None None None None.

(** Issuers ["0"] of [org1] and ["2"] of [org2], with a template each *)
Definition setup : list message :=
  [IssuerCreate (issuer "a") "org1" "user"; TemplateCreate (identity "Id") "org1" "0";
   IssuerCreate (issuer "b") "org2" "user"; TemplateCreate (identity "Id") "org2" "2"].
Definition deployed : world := serve_all setup start.

Example deployed_rows : map tr_id (templates deployed) = ["1"; "3"] /\ map is_id (issuers deployed) = ["0"; "2"] /\ map isPrimary (issuers deployed) = [true; true].
Proof. split_and!; vm_compute; reflexivity. Qed.

Definition offer_of (template : string) : CreateOidcCredentialOffer :=
  OfferRequest (OfferDto [CredentialRequest template [("name", Json.JStr "Ann")] None] (Some NO_AUTH) None None None (Some true)) None.

Lemma deployed_lists : lists_ok deployed.
Proof. unfold lists_ok. replace (status deployed) with (Service.State ∅ [] 4 0) by (vm_compute; reflexivity). apply Service.inv_empty. Qed.

Example offered_row : map (fun r => (Service.iss_credentialId r, Service.iss_statusListUri r)) (Service.issued (status (serve (CreateOffer (offer_of "1") "org1" "0") deployed))) =
  [("session-0", "https://status.example/status-lists/4")].
Proof. vm_compute. reflexivity. Qed.

(** ** Where the theorems apply *)

Example offer_places_witness : exists b w', createOidcCredentialOffer (offer_of "1") "org1" "0" deployed = (Ok b, w') /\
  exists offer ds, took_places deployed w' (places_of ds) /\ offered (offer_of "1") "org1" "0" deployed w' b offer ds.
Proof.
  pose proof (offer_places (offer_of "1") "org1" "0" deployed deployed_lists) as H.
  destruct (createOidcCredentialOffer (offer_of "1") "org1" "0" deployed) as [[b|e] w'] eqn:E.
  - exists b, w'. split; [reflexivity | exact H].
  - exfalso. assert (E' : is_ok (createOidcCredentialOffer (offer_of "1") "org1" "0" deployed).1 = true) by (vm_compute; reflexivity).
    rewrite E in E'. discriminate.
Defined.

Example issuers_consistent_witness : map tr_issuerId (templates deployed) = ["0"; "2"] /\ NoDup (is_id <$> issuers deployed).
Proof. split; [vm_compute; reflexivity | apply (issuers_consistent setup start); reflexivity]. Defined.

Definition renaming : message := TemplateUpdateMessage "1" (renamed (Some "Other")) "org1" "0".

Definition named : list message := (setup ++ [renaming])%list.

Example template_names_unique_witness : Forall names_template named /\
  (forall t t', t ∈ templates (serve_all named start) -> t' ∈ templates (serve_all named start) -> tr_issuerId t = tr_issuerId t' ->
    same_name (tr_name t) (tr_name t') = true -> tr_id t = tr_id t').
Proof.
  assert (H : Forall names_template named) by (repeat constructor; discriminate). split; [exact H|].
  apply (template_names_unique named start); [reflexivity | reflexivity | exact H].
Defined.

Example template_change_published_witness : (exists u, (handle renaming deployed).1 = Ok u) /\ told "0" "org1" (serve renaming deployed).
Proof.
  assert (Hok : tables_ok deployed) by (apply serve_tables, tables_empty; reflexivity).
  pose proof (template_change_published renaming deployed "org1" "0" Hok (conj eq_refl eq_refl)) as H.
  assert (E : is_ok (handle renaming deployed).1 = true) by (vm_compute; reflexivity).
  unfold serve. destruct (handle renaming deployed) as [[u|e] w']; [|discriminate]. split; [by exists u | exact H].
Defined.

(** *** The issuer of another organization *)

Definition made_primary : IssuerUpdation := IssuerUpdate "0" None None (Some true) None.

Example primary_of_every_organization_witness : exists i w', oidcIssuerUpdate made_primary "org1" "user" deployed = (Ok i, w') /\
  forall x, x ∈ issuers w' -> isPrimary x = true -> is_id x = "0".
Proof.
  assert (E : is_ok (oidcIssuerUpdate made_primary "org1" "user" deployed).1 = true) by (vm_compute; reflexivity).
  destruct (oidcIssuerUpdate made_primary "org1" "user" deployed) as [[i|e] w'] eqn:H; [|discriminate].
  exists i, w'. split; [reflexivity|]. exact (primary_of_every_organization made_primary "org1" "user" deployed i w' eq_refl eq_refl H).
Defined.

Example primary_lost : map isPrimary (issuers (serve (IssuerUpdateMessage made_primary "org1" "user") deployed)) = [true; false].
Proof. vm_compute. reflexivity. Qed.

(** A change that names nothing moves a template to an issuer that has one of that name. *)
Example moved_unnamed : map (fun t => (tr_issuerId t, tr_name t)) (templates (serve (TemplateUpdateMessage "1" (renamed None) "org2" "2") deployed)) =
  [("2", "Id"); ("2", "Id")].
Proof. vm_compute. reflexivity. Qed.

(** *** Failures *)

(** The clean-up succeeds and is reported as failed. *)
Example cleanup_reported : (handle (TemplateCreate (identity "New") "offline" "0") deployed).1 = Throw cleanupFailed /\
  map tr_id (templates (serve (TemplateCreate (identity "New") "offline" "0") deployed)) = ["1"; "3"].
Proof. split; vm_compute; reflexivity. Qed.

(** A deletion that the agent refuses stays. *)
Example deletion_stays : is_ok (handle (TemplateDelete "1" "offline" "0") deployed).1 = false /\
  map tr_id (templates (serve (TemplateDelete "1" "offline" "0") deployed)) = ["3"].
Proof. split; vm_compute; reflexivity. Qed.

(** The places of an offer that fails while they are recorded are free again, and the rows
    written before the failure name them still. *)
Definition signed (details : option status_details) : d2a_credential :=
  D2aCredential (Some (D2aSigner (Some "x5c") (Some (Json.JArr [Json.JStr "cert"])) None)) (Some "dc+sd-jwt") details (Json.JObj []).
Definition clashing : d2a_offer :=
  D2aOffer [signed None; signed (Some (StatusDetails "x" 5 8)); signed (Some (StatusDetails "y" 5 8))] true (Json.JObj []).
Definition after_clash : Service.state := status (serve (CreateOfferD2A clashing "org1") deployed).

Example record_left : is_ok (handle (CreateOfferD2A clashing "org1") deployed).1 = false /\
  map (fun r => (Service.iss_listId r, Service.iss_index r)) (Service.issued after_clash) = [("4", 0); ("x", 5)] /\
  map (fun r => (Service.row_listId r.2, Bitmap.isSet (Service.allocator_of r.2) 0)) (map_to_list (Service.lists after_clash)) = [("4", false)].
Proof. split_and!; vm_compute; reflexivity. Qed.
