(* ===== verification/AttributeValidation.v ===== *)
(** * Attributes of a credential against its template

    [apps/issuance/libs/helpers/attributes.validator.ts], [extractAttributeNames] of
    [attributes.extractor.ts] and the checks that [issuance.service.ts] makes on an
    uploaded file.  The properties of an object are taken in the order of the list. *)

From S2P Require Import Prelude Js Table.

Open Scope Z_scope.

Definition bad_request (m : string) : exn := http_exn BadRequestException m.
Definition conflict (m : string) : exn := http_exn ConflictException m.

(** ** Types *)

Definition STRING : string := "string".
Definition DATE_TIME : string := "datetime-local".

Record ISchemaAttributes := SchemaAttribute { attributeName : string; schemaDataType : string; isRequired : bool }.

(** [o[k]]: an own property, one of [Object.prototype], or [undefined] *)
Inductive property := Own (v : Json.value) | Inherited | Undefined.

Definition property_of (k : string) (fs : list (string * Json.value)) : property :=
  match Json.field k fs with
  | Some v => Own v
  | None => if existsb (String.eqb k) Json.object_prototype then Inherited else Undefined
  end.

Definition typeof (k : string) (p : property) : string :=
  match p with
  | Own (Json.JBool _) => "boolean"
  | Own (Json.JNum _) => "number"
  | Own (Json.JStr _) => "string"
  | Own _ => "object"
  | Inherited => if String.eqb k "__proto__" then "object" else "function"
  | Undefined => "undefined"
  end.

Definition property_truth (p : property) : bool :=
  match p with Own v => Json.truthy v | Inherited => true | Undefined => false end.

(** ** The credential subject *)

Inductive verdict := Fine | Missing (m : string) | Mismatched (m : string).

Definition attribute_verdict (fs : list (string * Json.value)) (a : ISchemaAttributes) : verdict :=
  let name := attributeName a in
  let p := property_of name fs in
  let actualType := typeof name p in
  let defined := match p with Undefined => false | _ => true end in
  if isRequired a && negb defined then Missing ("Attribute " +:+ name +:+ " is missing")
  else if isRequired a && negb (property_truth p) then Mismatched ("Attribute " +:+ name +:+ " must have a non-empty value")
  else if defined && (if String.eqb (schemaDataType a) DATE_TIME then negb (String.eqb actualType STRING) else negb (String.eqb actualType (schemaDataType a)))
  then Mismatched ("Attribute " +:+ name +:+ " has type " +:+ actualType +:+ " but expected type " +:+ schemaDataType a)
  else Fine.

Definition missingAttributes (vs : list verdict) : list string := omap (fun v => match v with Missing m => Some m | _ => None end) vs.
Definition mismatchedAttributes (vs : list verdict) : list string := omap (fun v => match v with Mismatched m => Some m | _ => None end) vs.

Definition extraAttributes (fs : list (string * Json.value)) (l : list ISchemaAttributes) : list string :=
  map (fun f => "Attribute " +:+ f.1 +:+ " is not defined in the schema")
    (List.filter (fun f => negb (existsb (fun a => String.eqb (attributeName a) f.1) l)) fs).

Definition refusal (l : list string) : exn := bad_request ("Validation failed: " +:+ String.concat ", " l).

Definition validateW3CSchemaAttributes (filteredIssuanceAttributes : list (string * Json.value)) (schemaUrlAttributes : list ISchemaAttributes) : result unit :=
  let vs := map (attribute_verdict filteredIssuanceAttributes) schemaUrlAttributes in
  let extra := extraAttributes filteredIssuanceAttributes schemaUrlAttributes in
  if bool_decide (missingAttributes vs <> []) then Throw (refusal (missingAttributes vs))
  else if bool_decide (mismatchedAttributes vs <> []) then Throw (refusal (mismatchedAttributes vs))
  else if bool_decide (extra <> []) then Throw (refusal extra)
  else Ok tt.

(** ** The columns of a file *)

Definition SEPARATOR : string := "~".
Definition EMAIL_COLUMN : string := "email_identifier".

(** [result.add]: a set that keeps the order of insertion *)
Definition add_name (s : string) (result : list string) : list string :=
  if existsb (String.eqb s) result then result else (result ++ [s])%list.

Definition print_key (v : Json.value) : string :=
  match v with Json.JStr s => s | _ => Json.stringify v end.

(** [Object.entries] of the properties: by name of an object, by index of a list or of
    the characters of a string. *)
Fixpoint extractAttributeNames (attributeObj : Json.value) (parentKey : string) (result : list string) : list string :=
  match attributeObj with
  | Json.JArr items => fold_left (fun acc item => extractAttributeNames item parentKey acc) items result
  | Json.JObj fs =>
      let newParentKey := match Json.field "attributeName" fs with
        | Some n => if String.eqb parentKey "" then print_key n else parentKey +:+ SEPARATOR +:+ print_key n
        | None => parentKey
        end in
      match Json.field "items" fs with
      | Some (Json.JArr _) =>
          (fix over (l : list (string * Json.value)) : list string :=
             match l with
             | [] => result
             | (k, v) :: l' =>
                 if String.eqb "items" k then
                   match v with
                   | Json.JArr items => fold_left (fun acc item => extractAttributeNames item (newParentKey +:+ SEPARATOR +:+ "0") acc) items result
                   | _ => result
                   end
                 else over l'
             end) fs
      | _ =>
          match Json.field "properties" fs with
          | Some _ =>
              (fix over (l : list (string * Json.value)) : list string :=
                 match l with
                 | [] => result
                 | (k, v) :: l' =>
                     if String.eqb "properties" k then
                       match v with
                       | Json.JObj ps => fold_left (fun acc p => extractAttributeNames p.2 (newParentKey +:+ SEPARATOR +:+ p.1) acc) ps result
                       | Json.JArr ps =>
                           (fix entries (i : nat) (ps : list Json.value) (acc : list string) : list string :=
                              match ps with
                              | [] => acc
                              | p :: ps' => entries (S i) ps' (extractAttributeNames p (newParentKey +:+ SEPARATOR +:+ pretty i) acc)
                              end) 0%nat ps result
                       | Json.JStr s => fold_left (fun acc i => add_name (newParentKey +:+ SEPARATOR +:+ pretty i) acc) (seq 0 (String.length s)) result
                       | _ => result
                       end
                     else over l'
                 end) fs
          | None =>
              fold_left (fun acc f => if existsb (String.eqb f.1) ["attributeName"; "items"; "properties"] then acc
                                      else extractAttributeNames f.2 newParentKey acc) fs result
          end
      end
  | _ => add_name parentKey result
  end.

Definition attribute_names (attributes : Json.value) : list string := extractAttributeNames attributes "" [].

Definition emailColumn : string := "1st column of the file should always be email_identifier.".

(** The header of the file against the names of the template's attributes *)
Definition validateFileHeaders (fileHeader schemaAttributes : list string) : result unit :=
  match fileHeader with
  | h :: fileSchemaHeader =>
      if negb (String.eqb EMAIL_COLUMN h) then Throw (bad_request emailColumn)
      else if negb (Nat.eqb (length schemaAttributes) (length fileSchemaHeader)) then Throw (conflict "Number of supplied values is different from the number of schema attributes.")
      else if existsb (fun v => negb (existsb (String.eqb v) schemaAttributes)) fileSchemaHeader then Throw (conflict "Schema attributes are mismatched in the file header.")
      else Ok tt
  | [] => Throw (bad_request emailColumn)
  end.

(** The cells of a row under the header by position; a cell without a header matches no
    attribute. *)
Definition row_errors (attributesArray : list ISchemaAttributes) (fileHeader : list string) (i : nat) (row : list Json.value) : list string :=
  concat (zip_with (fun value header =>
    omap (fun a => if String.eqb (attributeName a) header && isRequired a && negb (Json.truthy value)
                   then Some ("Attribute " +:+ attributeName a +:+ " is required at row " +:+ pretty (S i)) else None) attributesArray) row fileHeader).

Definition validateFileData (fileData : list (list Json.value)) (attributesArray : list ISchemaAttributes) (fileHeader : list string) : result unit :=
  let errorFileData := concat (imap (row_errors attributesArray fileHeader) fileData) in
  if bool_decide (errorFileData = []) then Ok tt else Throw (bad_request (String.concat "," errorFileData)).

(** ** Theorems *)

(** A value of an attribute's type; a required one is not empty. *)
Definition well_typed (a : ISchemaAttributes) (p : property) : Prop :=
  typeof (attributeName a) p = (if String.eqb (schemaDataType a) DATE_TIME then STRING else schemaDataType a).

Definition conforms (fs : list (string * Json.value)) (a : ISchemaAttributes) : Prop :=
  match property_of (attributeName a) fs with
  | Undefined => isRequired a = false
  | p => well_typed a p /\ (isRequired a = true -> property_truth p = true)
  end.

Lemma verdict_fine fs a : attribute_verdict fs a = Fine <-> conforms fs a.
Proof.
  unfold attribute_verdict, conforms, well_typed. cbv zeta. destruct (property_of (attributeName a) fs) as [v| |].
  3:{ rewrite andb_true_r. by destruct (isRequired a). }
  all: rewrite andb_false_r, andb_true_l.
  all: destruct (isRequired a), (property_truth _) eqn:Et; cbn [andb negb]; try (split; [done | by intros [_ H]; specialize (H eq_refl)]).
  all: destruct (String.eqb (schemaDataType a) DATE_TIME); match goal with |- context [String.eqb ?x ?y] => destruct (String.eqb_spec x y) end; cbn [negb]; naive_solver.
Qed.

Lemma omap_nil {A B} (f : A -> option B) l : omap f l = [] <-> forall x, x ∈ l -> f x = None.
Proof.
  induction l as [|x l IH]; [split; [by intros _ x ?%elem_of_nil | done]|]. simpl. destruct (f x) eqn:E.
  - split; [done|]. intros H. specialize (H x ltac:(left)). congruence.
  - rewrite IH. split; [by intros H y [->|Hy]%elem_of_cons; auto | intros H y Hy; apply H; by right].
Qed.

(** A credential subject passes exactly when every attribute of the template has a
    value of its type, not an empty one where it is required, or is optional and
    absent, and the subject has no attribute besides. *)
Theorem validateW3CSchemaAttributes_exact fs l :
  validateW3CSchemaAttributes fs l = Ok tt <->
  (forall a, a ∈ l -> conforms fs a) /\ (forall f, f ∈ fs -> exists a, a ∈ l /\ attributeName a = f.1).
Proof.
  unfold validateW3CSchemaAttributes. set (vs := map (attribute_verdict fs) l).
  assert (Hex : extraAttributes fs l = [] <-> forall f, f ∈ fs -> exists a, a ∈ l /\ attributeName a = f.1).
  { unfold extraAttributes. assert (Hn : forall A B (f : A -> B) k, map f k = [] <-> k = []) by by intros A B f [].
    rewrite Hn, filter_b_nil. setoid_rewrite negb_false_iff. setoid_rewrite existsb_elem.
    by setoid_rewrite String.eqb_eq. }
  assert (Hvs : missingAttributes vs = [] /\ mismatchedAttributes vs = [] <-> forall a, a ∈ l -> conforms fs a).
  { unfold missingAttributes, mismatchedAttributes. rewrite !omap_nil. setoid_rewrite <- verdict_fine. unfold vs.
    split.
    - intros [H1 H2] a Ha. specialize (H1 _ (list_elem_of_fmap_2 _ _ _ Ha)). specialize (H2 _ (list_elem_of_fmap_2 _ _ _ Ha)).
      by destruct (attribute_verdict fs a).
    - intros H. split; intros v (a & -> & Ha)%list_elem_of_fmap; by rewrite H. }
  rewrite <- Hex, <- Hvs. repeat case_bool_decide; naive_solver.
Qed.

(** A required number that is zero counts as empty. *)
Example required_zero : validateW3CSchemaAttributes [("age", Json.JNum 0)] [SchemaAttribute "age" "number" true] =
  Throw (bad_request "Validation failed: Attribute age must have a non-empty value").
Proof. reflexivity. Qed.

Lemma columns_named columns attrs :
  existsb (fun v => negb (existsb (String.eqb v) attrs)) columns = false <-> forall c, c ∈ columns -> c ∈ attrs.
Proof.
  split.
  - intros E c Hc. apply existsb_mem. destruct (existsb (String.eqb c) attrs) eqn:Ec; [done|].
    assert (existsb (fun v => negb (existsb (String.eqb v) attrs)) columns = true) by (apply existsb_elem; exists c; by rewrite Ec). congruence.
  - intros H. destruct (existsb _ columns) eqn:E; [|done]. apply existsb_elem in E as (c & Hc & Hn%negb_true_iff).
    apply H, existsb_mem in Hc. congruence.
Qed.

Lemma validateFileHeaders_iff fileHeader attrs :
  validateFileHeaders fileHeader attrs = Ok tt <->
  exists columns, fileHeader = EMAIL_COLUMN :: columns /\ length columns = length attrs /\ forall c, c ∈ columns -> c ∈ attrs.
Proof.
  destruct fileHeader as [|h columns]; [split; [done | by intros (? & ? & _)]|]. unfold validateFileHeaders.
  destruct (String.eqb_spec EMAIL_COLUMN h) as [<-|Hne]; cbn [negb]; [|split; [done | by intros (? & [= ? _] & _)]].
  destruct (Nat.eqb_spec (length attrs) (length columns)) as [Hl|Hl]; cbn [negb]; [|split; [done | intros (? & [= <-] & ? & _); congruence]].
  destruct (existsb _ columns) eqn:E; [split; [done|] | split; [intros _; exists columns; split_and!; [done..|by apply columns_named] | done]].
  intros (? & [= <-] & _ & Hc%columns_named). congruence.
Qed.

(** A header is accepted exactly when the address comes first and as many columns as
    the template has attributes follow, all of them named by it; columns that are
    distinct are then the attributes in some order. *)
Theorem validateFileHeaders_exact fileHeader attrs :
  (validateFileHeaders fileHeader attrs = Ok tt <->
     exists columns, fileHeader = EMAIL_COLUMN :: columns /\ length columns = length attrs /\ forall c, c ∈ columns -> c ∈ attrs) /\
  forall columns, validateFileHeaders (EMAIL_COLUMN :: columns) attrs = Ok tt -> NoDup columns -> columns ≡ₚ attrs.
Proof.
  split; [apply validateFileHeaders_iff|]. clear fileHeader. intros columns Hok Hnd. unfold validateFileHeaders in Hok. rewrite String.eqb_refl in Hok. cbn [negb] in Hok.
  destruct (Nat.eqb_spec (length attrs) (length columns)) as [Hl|]; [|done]. cbn [negb] in Hok. destruct (existsb _ columns) eqn:E; [done|].
  apply submseteq_length_Permutation; [|lia]. apply NoDup_submseteq; [done | by apply columns_named].
Qed.

(** *** Templates and their files *)

Definition primitive (v : Json.value) : bool := match v with Json.JArr _ | Json.JObj _ => false | _ => true end.
Definition structural : list string := ["attributeName"; "items"; "properties"].

(** An attribute without nested ones; besides its name it says something, its type say. *)
Record flat_attribute (n : string) (fs : list (string * Json.value)) : Prop := Flat {
  flat_name : Json.field "attributeName" fs = Some (Json.JStr n);
  flat_items : Json.field "items" fs = None;
  flat_properties : Json.field "properties" fs = None;
  flat_values f : f ∈ fs -> existsb (String.eqb f.1) structural = false -> primitive f.2 = true;
  flat_more : exists f, f ∈ fs /\ existsb (String.eqb f.1) structural = false;
}.

Lemma add_name_idem s l : add_name s (add_name s l) = add_name s l.
Proof.
  unfold add_name. destruct (existsb (String.eqb s) l) eqn:E; [by rewrite E|]. rewrite existsb_app, E. simpl. by rewrite String.eqb_refl.
Qed.

Lemma extract_primitive v k l : primitive v = true -> extractAttributeNames v k l = add_name k l.
Proof. by destruct v. Qed.

Lemma fold_flat (q : string * Json.value -> bool) k (fs : list (string * Json.value)) l :
  (forall f, f ∈ fs -> q f = false -> primitive f.2 = true) ->
  fold_left (fun acc f => if q f then acc else extractAttributeNames f.2 k acc) fs l =
    if existsb (fun f => negb (q f)) fs then add_name k l else l.
Proof.
  revert l. induction fs as [|f fs IH]; intros l Hv; [done|]. simpl. destruct (q f) eqn:E; simpl.
  - apply IH. intros g Hg. apply Hv. by right.
  - rewrite extract_primitive by (apply Hv; [left | done]). rewrite IH by (intros g Hg; apply Hv; by right).
    destruct (existsb _ fs); [apply add_name_idem | done].
Qed.

Lemma extract_flat n fs l : flat_attribute n fs -> extractAttributeNames (Json.JObj fs) "" l = add_name n l.
Proof.
  intros []. cbn [extractAttributeNames]. rewrite flat_name0, flat_items0, flat_properties0. cbn [print_key]. rewrite String.eqb_refl.
  etrans; [apply (fold_flat (fun f => existsb (String.eqb f.1) structural) n fs l flat_values0)|].
  assert (existsb (fun f => negb (existsb (String.eqb f.1) structural)) fs = true) as ->; [|done].
  apply existsb_elem. destruct flat_more0 as (f & Hf & E). exists f. by rewrite E.
Qed.

Lemma extract_flat_list names attrs l : Forall2 flat_attribute names attrs -> NoDup (l ++ names) ->
  fold_left (fun acc item => extractAttributeNames item "" acc) (map Json.JObj attrs) l = (l ++ names)%list.
Proof.
  intros H. revert l. induction H as [|n fs names attrs Hf _ IH]; intros l Hnd; [by rewrite app_nil_r|]. cbn [map fold_left].
  assert (Hl : add_name n l = (l ++ [n])%list).
  { unfold add_name. destruct (existsb (String.eqb n) l) eqn:E; [|done]. apply existsb_mem in E.
    apply NoDup_app in Hnd as (_ & Hd & _). exfalso. apply (Hd n E). by left. }
  rewrite (extract_flat n), Hl by done. rewrite IH by by rewrite <- app_assoc. by rewrite <- app_assoc.
Qed.

(** The columns of the file that is offered for download for a template without
    nested attributes are the names of its attributes, and a file with these columns
    passes the check of its header. *)
Theorem flat_template_accepted names attrs : Forall2 flat_attribute names attrs -> NoDup names ->
  attribute_names (Json.JArr (map Json.JObj attrs)) = names /\
  validateFileHeaders (EMAIL_COLUMN :: attribute_names (Json.JArr (map Json.JObj attrs))) names = Ok tt.
Proof.
  intros H Hnd. assert (Hn : attribute_names (Json.JArr (map Json.JObj attrs)) = names) by by apply (extract_flat_list names attrs []).
  split; [done|]. rewrite Hn. apply validateFileHeaders_iff. by exists names.
Qed.

(** ** A sample template *)

Definition attribute (n : string) (more : list (string * Json.value)) : list (string * Json.value) :=
  ("attributeName", Json.JStr n) :: ("schemaDataType", Json.JStr "string") :: more.

Lemma flat_template_accepted_witness :
  Forall2 flat_attribute ["name"; "town"] [attribute "name" []; attribute "town" []] /\
  validateFileHeaders ["email_identifier"; "name"; "town"] ["name"; "town"] = Ok tt.
Proof.
  assert (Hf : Forall2 flat_attribute ["name"; "town"] [attribute "name" []; attribute "town" []]).
  { repeat constructor; try reflexivity.
    - intros f Hf. repeat (apply elem_of_cons in Hf as [->|Hf]; [reflexivity|]). by apply elem_of_nil in Hf.
    - exists ("schemaDataType", Json.JStr "string"). split; [right; left | reflexivity].
    - intros f Hf. repeat (apply elem_of_cons in Hf as [->|Hf]; [reflexivity|]). by apply elem_of_nil in Hf.
    - exists ("schemaDataType", Json.JStr "string"). split; [right; left | reflexivity]. }
  split; [exact Hf|]. apply (flat_template_accepted _ _ Hf). apply NoDup_cons. split; [set_solver | apply NoDup_singleton].
Defined.

(** The columns of a nested attribute are not accepted back. *)
Example nested_template_refused :
  let template := Json.JArr [Json.JObj (attribute "name" []);
    Json.JObj [("attributeName", Json.JStr "address"); ("properties", Json.JObj [("town", Json.JObj (attribute "town" []))])]] in
  attribute_names template = ["name"; "address~town~town"] /\
  is_ok (validateFileHeaders (EMAIL_COLUMN :: attribute_names template) ["name"; "address"]) = false.
Proof. split; reflexivity. Qed.
