(* ===== verification/Ecosystem.v ===== *)
(** * Ecosystems: invitations and membership

    [apps/ecosystem/src/ecosystem.service.ts] and [repositories/ecosystem.repository.ts]:
    who may create an ecosystem, how organizations are invited to one, join it and leave
    it.  The users, organizations and roles are rows of other services' tables; e-mail
    and Keycloak are other parties.  Nothing here sets [deletedAt] of a membership. *)

From S2P Require Import Prelude Js Table.

Open Scope Z_scope.

Inductive Invitation := ACCEPTED | REJECTED | PENDING.
Inductive InviteType := ECOSYSTEM | MEMBER.
Inductive EcosystemOrgStatus := ACTIVE | INACTIVE.
Inductive EcosystemServiceRole := LEAD_ROLE | MEMBER_ROLE.

#[export] Instance Invitation_eq_dec : EqDecision Invitation.
Proof. solve_decision. Defined.
#[export] Instance InviteType_eq_dec : EqDecision InviteType.
Proof. solve_decision. Defined.

Definition LEAD : string := "Ecosystem Lead".
Definition MEMBER_NAME : string := "Ecosystem Member".

(** ** Rows *)

Record ecosystem_invitation := Invite {
  inv_id : string;
  inv_email : string;
  inv_status : Invitation;
  inv_userId : option string;
  inv_type : InviteType;
  inv_ecosystemId : option string;
  invitedOrg : option string;
  inv_created : Z;
  inv_createdBy : string;
  inv_deleted : option Z;
}.

Record ecosystem := Eco {
  eco_id : string;
  eco_name : string;
  description : string;
  tags : option string;
  logoUrl : option string;
  autoEndorsement : bool;
  eco_created : Z;
  eco_createdBy : string;
}.

Record ecosystem_org := EcoOrg {
  eo_id : string;
  eo_orgId : string;
  eo_status : EcosystemOrgStatus;
  eo_ecosystemId : string;
  ecosystemRoleId : string;
  eo_userId : option string;
  eo_createdBy : string;
}.

Record ecosystem_role := Role { role_id : string; role_name : string }.
Record user := User { user_id : string; user_email : option string; keycloakUserId : option string }.
Record organisation := Org { org_id : string; org_createdBy : string; idpId : option string }.

Inductive call :=
  | SendEmail (to subject : string)
  | PlatformToken
  | UserEcosystem (role : EcosystemServiceRole) (keycloakId org ecosystemId token : string)
  | ServiceAccountEcosystem (role : EcosystemServiceRole) (idp org ecosystemId token : string).

Record tables := Tables {
  invitations : list ecosystem_invitation;
  ecosystems : list ecosystem;
  ecosystem_orgs : list ecosystem_org;
}.

Record world := World {
  db : tables;
  calls : list call;
  ticks : nat;
  drawn : nat;
}.

(** The tables of other services, the configuration, and how the other parties answer.
    The identifier of a role is a primary key. *)
Class Platform := {
  roles : list ecosystem_role;
  roles_keyed : NoDup (role_id <$> roles);
  users : list user;
  organisations : list organisation;
  platform_config : option string;              (* [emailFrom] *)
  on_email : list call -> result bool;
  on_token : list call -> result string;
  on_keycloak : list call -> result unit;
  reading : nat -> Z;
}.

Definition set_db (d : tables) (w : world) : world := World d (calls w) (ticks w) (drawn w).
Definition rollback (w w' : world) : world := set_db (db w) w'.

Definition rpc_exn (status : Z) (m : string) : exn := Exn RpcException m (Some status) None.
Definition bad_request (m : string) : exn := http_exn BadRequestException m.
Definition prisma_validation : exn := Exn PrismaError "Argument is missing" None None.
Definition type_error : exn := js_error "Cannot read properties of null".

Section ecosystem.
Context {P : Platform} {U : UuidSource}.

Definition now : eff world Z := fun w => (Ok (reading (ticks w)), World (db w) (calls w) (S (ticks w)) (drawn w)).
Definition fresh : eff world string := fun w => (Ok (uuid (drawn w)), World (db w) (calls w) (ticks w) (S (drawn w))).
Definition placed (c : call) : eff world (list call) := fun w =>
  (Ok (calls w ++ [c])%list, World (db w) (calls w ++ [c])%list (ticks w) (drawn w)).
Definition read {A} (f : tables -> A) : eff world A := gets (fun w => f (db w)).
Definition write (f : tables -> tables) : eff world unit := modify (fun w => set_db (f (db w)) w).

Definition set_invitations (v : list ecosystem_invitation) (d : tables) : tables := Tables v (ecosystems d) (ecosystem_orgs d).
Definition set_ecosystems (v : list ecosystem) (d : tables) : tables := Tables (invitations d) v (ecosystem_orgs d).
Definition set_orgs (v : list ecosystem_org) (d : tables) : tables := Tables (invitations d) (ecosystems d) v.

(** ** Repository *)

(** The unique index on [email], [ecosystemId] and [invitedOrg]; [NULL]s are distinct. *)
Definition same_invitation (email eco org : string) (i : ecosystem_invitation) : bool :=
  String.eqb (inv_email i) email && bool_decide (inv_ecosystemId i = Some eco) && bool_decide (invitedOrg i = Some org).

Definition invitation_taken (email : string) (eco org : option string) (t : list ecosystem_invitation) : bool :=
  match eco, org with
  | Some e, Some o => existsb (same_invitation email e o) t
  | _, _ => false
  end.

Definition createEcosystemInvitation (email : string) (invitedUserId : option string) (createdBy : string)
    (ty : option InviteType) (st : option Invitation) (eco org : option string) : eff world ecosystem_invitation :=
  t ← read invitations;
  if invitation_taken email eco org t
  then throw (rpc_exn 409 "Invitation already exists for this email in the ecosystem")
  else
    c ← now; id ← fresh;
    let row := Invite id email (default ACCEPTED st) invitedUserId (default ECOSYSTEM ty) eco org c createdBy None in
    _ ← write (set_invitations (t ++ [row])%list);
    mret row.

(** [ecosystem_orgs.create], with the unique index on the pair *)
Definition same_pair (org eco : string) (o : ecosystem_org) : bool :=
  String.eqb (eo_orgId o) org && String.eqb (eo_ecosystemId o) eco.

Definition createEcosystemOrg (org eco role : string) (u : option string) (createdBy : string) : eff world ecosystem_org :=
  t ← read ecosystem_orgs;
  if existsb (same_pair org eco) t then throw prisma_unique
  else
    id ← fresh;
    let row := EcoOrg id org ACTIVE eco role u createdBy in
    _ ← write (set_orgs (t ++ [row])%list);
    mret row.

Definition getEcosystemRoleByName (name : string) : option ecosystem_role := first (fun r => String.eqb (role_name r) name) roles.

Record ICreateEcosystem := CreateDto {
  c_name : string;
  c_description : string;
  c_tags : option string;
  c_logo : option string;
  c_userId : string;
  c_orgId : string;
  c_autoEndorsement : option bool;
}.

Definition createNewEcosystem (d : ICreateEcosystem) : eff world ecosystem :=
  let role := getEcosystemRoleByName LEAD in
  c ← now; id ← fresh;
  let row := Eco id (c_name d) (c_description d) (c_tags d) (c_logo d) (default false (c_autoEndorsement d)) c (c_userId d) in
  t ← read ecosystems;
  _ ← write (set_ecosystems (t ++ [row])%list);
  match role with
  | None => throw (http_exn NotFoundException "Lead details not found")
  | Some r => _ ← createEcosystemOrg (c_orgId d) id (role_id r) (Some (c_userId d)) (c_userId d); mret row
  end.

Definition checkEcosystemNameExist (name : string) : eff world (option ecosystem) :=
  read (fun d => first (fun e => String.eqb (eco_name e) name) (ecosystems d)).

Definition findAcceptedInvitationByUserId (u : string) : eff world (option ecosystem_invitation) :=
  if String.eqb u "" then throw (bad_request "userId missing")
  else read (fun d => latest inv_created (List.filter (fun i => bool_decide (inv_userId i = Some u)
         && bool_decide (inv_status i = ACCEPTED) && bool_decide (inv_deleted i = None)) (invitations d))).

Definition getUserById (u : string) : option user := first (fun r => String.eqb (user_id r) u) users.
Definition getUserDetails (email : string) : option user := first (fun r => bool_decide (user_email r = Some email)) users.
Definition getOrgProfile (o : string) : option organisation := first (fun r => String.eqb (org_id r) o) organisations.

Definition getEcosystemInvitationsByEmail (email eco org : string) : eff world (option ecosystem_invitation) :=
  read (fun d => first (same_invitation email eco org) (invitations d)).

Definition set_status (st : Invitation) (i : ecosystem_invitation) : ecosystem_invitation :=
  Invite (inv_id i) (inv_email i) st (inv_userId i) (inv_type i) (inv_ecosystemId i) (invitedOrg i)
    (inv_created i) (inv_createdBy i) (inv_deleted i).

Definition has_id (id : string) (i : ecosystem_invitation) : bool := String.eqb (inv_id i) id.

Definition updateEcosystemInvitationStatusByEmail (email org eco : string) (st : Invitation) : eff world ecosystem_invitation :=
  transaction rollback (
    t ← read invitations;
    match first (same_invitation email eco org) t with
    | None => throw (js_error "Invitation not found for this specific organization")
    | Some i => _ ← write (set_invitations (update_where (has_id (inv_id i)) (set_status st) t)); mret (set_status st i)
    end).

Definition getEcosystemOrg (eco org : string) : eff world (option ecosystem_org) :=
  read (fun d => first (same_pair org eco) (ecosystem_orgs d)).

Definition role_named (name : string) (o : ecosystem_org) : bool :=
  existsb (fun r => String.eqb (role_id r) (ecosystemRoleId o) && String.eqb (role_name r) name) roles.

Definition leaves (eco : string) (orgs : list string) (o : ecosystem_org) : bool :=
  String.eqb (eo_ecosystemId o) eco && role_named MEMBER_NAME o && existsb (String.eqb (eo_orgId o)) orgs.

Definition deleteOrgFromEcosystem (eco : string) (orgs : list string) : eff world nat :=
  t ← read ecosystem_orgs;
  _ ← write (set_orgs (List.filter (fun o => negb (leaves eco orgs o)) t));
  mret (length (List.filter (leaves eco orgs) t)).

Definition withdrawn (eco : string) (orgs : list string) (i : ecosystem_invitation) : bool :=
  bool_decide (inv_ecosystemId i = Some eco) && bool_decide (inv_type i = MEMBER)
  && match invitedOrg i with Some o => existsb (String.eqb o) orgs | None => false end.

Definition deleteEcosystemInvitationByOrgId (eco : string) (orgs : list string) : eff world nat :=
  t ← read invitations;
  _ ← write (set_invitations (List.filter (fun i => negb (withdrawn eco orgs i)) t));
  mret (length (List.filter (withdrawn eco orgs) t)).

Definition set_org_status (st : EcosystemOrgStatus) (o : ecosystem_org) : ecosystem_org :=
  EcoOrg (eo_id o) (eo_orgId o) st (eo_ecosystemId o) (ecosystemRoleId o) (eo_userId o) (eo_createdBy o).

Definition concerns (eco : string) (orgs : list string) (o : ecosystem_org) : bool :=
  String.eqb (eo_ecosystemId o) eco && existsb (String.eqb (eo_orgId o)) orgs.

Definition updateEcosystemOrgStatus (eco : string) (orgs : list string) (st : EcosystemOrgStatus) : eff world nat :=
  t ← read ecosystem_orgs;
  _ ← write (set_orgs (update_where (concerns eco orgs) (set_org_status st) t));
  mret (length (List.filter (concerns eco orgs) t)).

Definition getEcosystemById (id : string) : eff world ecosystem :=
  found ← read (fun d => first (fun e => String.eqb (eco_id e) id) (ecosystems d));
  match found with Some e => mret e | None => throw (http_exn NotFoundException "Ecosystem not found") end.

Definition assign (eco org : string) (i : ecosystem_invitation) : ecosystem_invitation :=
  Invite (inv_id i) (inv_email i) (inv_status i) (inv_userId i) (inv_type i) (Some eco) (Some org)
    (inv_created i) (inv_createdBy i) (inv_deleted i).

(** The platform's invitation of [email] that has not been used yet. *)
Definition unused (email : string) (i : ecosystem_invitation) : bool :=
  String.eqb (inv_email i) email && bool_decide (inv_status i = ACCEPTED) && bool_decide (inv_ecosystemId i = None).

Definition updateEcosystemInvitationDetails (email : option string) (eco org : string) : eff world ecosystem_invitation :=
  match email with
  | None => throw prisma_validation
  | Some email =>
      t ← read invitations;
      match latest inv_created (List.filter (unused email) t) with
      | None => throw (rpc_exn 400 "You need an invitation from a platform admin to create an ecosystem.")
      | Some i =>
          if invitation_taken (inv_email i) (Some eco) (Some org) t then throw prisma_unique
          else _ ← write (set_invitations (update_where (has_id (inv_id i)) (assign eco org) t)); mret (assign eco org i)
      end
  end.

Definition getPendingInvitationByEmail (email : string) : eff world (option ecosystem_invitation) :=
  read (fun d => latest inv_created (List.filter (fun i => String.eqb (inv_email i) email && bool_decide (inv_ecosystemId i = None))
    (invitations d))).

Definition getCreateEcosystemInvitationStatus (email : option string) (st : Invitation) : eff world bool :=
  let trimEmail := Str.trim (default "" email) in
  if String.eqb trimEmail "" then throw (bad_request "email missing")
  else read (fun d => existsb (fun i => String.eqb (inv_email i) trimEmail && bool_decide (inv_status i = st)
    && bool_decide (invitedOrg i = None) && bool_decide (inv_ecosystemId i = None) && bool_decide (inv_deleted i = None)) (invitations d)).

Definition isEcosystemLead (u eco : string) : eff world bool :=
  read (fun d => existsb (fun o => bool_decide (eo_userId o = Some u) && String.eqb (eo_ecosystemId o) eco
    && role_named LEAD o) (ecosystem_orgs d)).

(** ** Service *)

Definition platformConfigNotFound : exn := http_exn InternalServerErrorException "Platform configurations not found".

Definition sendEmail (to subject : string) : eff world bool := cs ← placed (SendEmail to subject); lift (on_email cs).

Definition sendInviteEmailTemplate (email : string) : eff world bool :=
  match platform_config with
  | None => throw (http_exn NotFoundException "Platform config not found")
  | Some _ => sendEmail email "Invitation to create a new ecosystem"
  end.

Definition inviteUserToCreateEcosystem (email platformAdminId : string) : eff world ecosystem_invitation :=
  if String.eqb email "" || String.eqb platformAdminId "" then throw (bad_request "Email or platformAdminId missing") else
  existing ← getPendingInvitationByEmail email;
  if match existing with Some i => bool_decide (inv_type i = MEMBER) | None => false end
  then throw (rpc_exn 409 "Ecosystem invitation is already sent to this email")
  else
    invitation ← createEcosystemInvitation email (user_id <$> getUserDetails email) platformAdminId None None None None;
    _ ← sendInviteEmailTemplate email;
    mret invitation.

(** An error here is logged and dropped. *)
Definition updateOrgServiceAccountEcosystem (org eco : string) (role : EcosystemServiceRole) (token : string) : eff world unit :=
  try_catch
    (let idp := getOrgProfile org ≫= idpId in
     if negb (truthy_str idp) then mret tt
     else cs ← placed (ServiceAccountEcosystem role (default "" idp) org eco token); lift (on_keycloak cs))
    (fun _ => mret tt).

(** [updateKeycloakEcosystemLeads], [updateKeycloakEcosystemMember] *)
Definition updateKeycloakEcosystem (role : EcosystemServiceRole) (u : user) (org eco : string) : eff world unit :=
  cs ← placed PlatformToken;
  token ← lift (on_token cs);
  _ ← when (truthy_str (keycloakUserId u))
        (cs ← placed (UserEcosystem role (default "" (keycloakUserId u)) org eco token); lift (on_keycloak cs));
  updateOrgServiceAccountEcosystem org eco role token.

Definition createEcosystem (d : ICreateEcosystem) : eff world ecosystem :=
  rpc (
    if String.eqb (c_userId d) "" then throw (bad_request "UserId is required") else
    invitation ← findAcceptedInvitationByUserId (c_userId d);
    match invitation with
    | None => throw (http_exn ForbiddenException "You need an invitation from a platform admin to create an ecosystem.")
    | Some _ =>
        exist ← checkEcosystemNameExist (c_name d);
        match exist with
        | Some _ => throw (http_exn ConflictException "Ecosystem name already exists")
        | None =>
            match getUserById (c_userId d) with
            | None => throw (js_error "Error fetching user")
            | Some u =>
                created ← transaction rollback (
                  created ← createNewEcosystem d;
                  _ ← updateEcosystemInvitationDetails (user_email u) (eco_id created) (c_orgId d);
                  mret created);
                _ ← updateKeycloakEcosystem LEAD_ROLE u (c_orgId d) (eco_id created);
                mret created
            end
        end
    end).

Definition updateEcosystemInvitationStatus (st : Invitation) (reqUser eco org : string) : eff world bool :=
  match getUserById reqUser with
  | None => throw (rpc_exn 404 "User not found to send invitation")
  | Some u =>
      if negb (truthy_str (user_email u)) then throw (rpc_exn 400 "User email is required to send invitation") else
      let email := default "" (user_email u) in
      existing ← getEcosystemInvitationsByEmail email eco org;
      match existing with
      | None => throw (rpc_exn 404 "Ecosystem Invitation not found")
      | Some i =>
          if bool_decide (inv_status i = ACCEPTED) then throw (bad_request "Invitation already accepted") else
          result ← updateEcosystemInvitationStatusByEmail email org eco st;
          match inv_status result, inv_ecosystemId result with
          | ACCEPTED, Some e =>
              if String.eqb e "" then mret true else
              match getEcosystemRoleByName MEMBER_NAME with
              | None => throw (js_error "Error fetching ecosystem role")
              | Some role =>
                  if negb (truthy_str (invitedOrg result)) then throw (js_error "Organization ID is missing")
                  else if negb (truthy_str (inv_userId result)) then throw (js_error "UserId is required")
                  else
                    let o := default "" (invitedOrg result) in
                    existingOrg ← getEcosystemOrg e (default "" (inv_userId result));
                    match existingOrg with
                    | Some _ => mret true
                    | None =>
                        _ ← createEcosystemOrg o e (role_id role) (inv_userId result) reqUser;
                        _ ← updateKeycloakEcosystem MEMBER_ROLE u o e;
                        mret true
                    end
              end
          | _, _ => mret true
          end
      end
  end.

Definition already_invited (i : option ecosystem_invitation) (eco org : string) (st : Invitation) (ty : InviteType) (check_org : bool) : bool :=
  match i with
  | Some i => bool_decide (inv_ecosystemId i = Some eco) && (negb check_org || bool_decide (invitedOrg i = Some org))
      && bool_decide (inv_status i = st) && bool_decide (inv_type i = ty)
  | None => false
  end.

Definition inviteMemberToEcosystem (org reqUser eco : string) : eff world bool :=
  rpc (
    match platform_config with
    | None => throw platformConfigNotFound
    | Some _ =>
    match getOrgProfile org with
    | None => throw type_error
    | Some o =>
    match getUserById (org_createdBy o) with
    | None => throw (http_exn NotFoundException "User not found")
    | Some u =>
        if negb (truthy_str (user_email u)) then throw (bad_request "User email is required to send invitation") else
        let email := default "" (user_email u) in
        checkUser ← getEcosystemInvitationsByEmail email eco org;
        if match checkUser with Some i => bool_decide (inv_status i = REJECTED) && bool_decide (inv_ecosystemId i = Some eco) | None => false end
        then _ ← updateEcosystemInvitationStatusByEmail email org eco PENDING; mret true
        else if already_invited checkUser eco org PENDING MEMBER true
        then throw (http_exn ConflictException ("Invitation already exists for org with email " +:+ email))
        else if already_invited checkUser eco org ACCEPTED ECOSYSTEM false
        then throw (bad_request "You can not send member invitation to ecosystem lead")
        else
          _ ← createEcosystemInvitation email (Some (user_id u)) reqUser (Some MEMBER) (Some PENDING) (Some eco) (Some org);
          if String.eqb reqUser (user_id u)
          then _ ← updateEcosystemInvitationStatus ACCEPTED reqUser eco org; mret true
          else
            _ ← getEcosystemById eco;
            sendEmail email "Invitation for ecosystem"
    end end end).

Definition deleteOrgsFromEcosystem (eco : string) (orgs : list string) : eff world nat :=
  transaction rollback (
    deleted ← deleteOrgFromEcosystem eco orgs;
    _ ← deleteEcosystemInvitationByOrgId eco orgs;
    mret deleted).

(** The messages that change the tables. *)
Inductive message :=
  | InviteUserToCreate (email admin : string)
  | CreateEcosystem (d : ICreateEcosystem)
  | InviteMember (org reqUser eco : string)
  | UpdateInvitationStatus (st : Invitation) (reqUser eco org : string)
  | DeleteOrgs (eco : string) (orgs : list string)
  | UpdateOrgStatus (eco : string) (orgs : list string) (st : EcosystemOrgStatus).

Definition handle (m : message) : eff world unit :=
  match m with
  | InviteUserToCreate e a => _ ← inviteUserToCreateEcosystem e a; mret tt
  | CreateEcosystem d => _ ← createEcosystem d; mret tt
  | InviteMember o u e => _ ← inviteMemberToEcosystem o u e; mret tt
  | UpdateInvitationStatus st u e o => _ ← updateEcosystemInvitationStatus st u e o; mret tt
  | DeleteOrgs e os => _ ← deleteOrgsFromEcosystem e os; mret tt
  | UpdateOrgStatus e os st => _ ← updateEcosystemOrgStatus e os st; mret tt
  end.
End ecosystem.

(** ** Laws *)

Section laws.
Context {P : Platform} {U : UuidSource}.

(** The invitation by which an organization leads, or joined, an ecosystem. *)
Definition invited (d : tables) (ty : InviteType) (org eco : string) : Prop := exists i, i ∈ invitations d /\
  inv_type i = ty /\ inv_status i = ACCEPTED /\ inv_ecosystemId i = Some eco /\ invitedOrg i = Some org.

Definition drawn_id (w : world) (id : string) : Prop := exists n, (n < drawn w)%nat /\ id = uuid n.

Record inv (w : world) : Prop := Inv {
  i_ids : NoDup (inv_id <$> invitations (db w));
  i_drawn i : i ∈ invitations (db w) -> drawn_id w (inv_id i);
  i_eco_ids : NoDup (eco_id <$> ecosystems (db w));
  i_eco_drawn e : e ∈ ecosystems (db w) -> drawn_id w (eco_id e);
  i_pairs : NoDup ((fun o => (eo_orgId o, eo_ecosystemId o)) <$> ecosystem_orgs (db w));
  (** An invitation of the platform is accepted from the start; one to join names its ecosystem. *)
  i_platform i : i ∈ invitations (db w) -> inv_type i = ECOSYSTEM -> inv_status i = ACCEPTED;
  i_member i : i ∈ invitations (db w) -> inv_type i = MEMBER -> inv_ecosystemId i <> None;
  i_led e : e ∈ ecosystems (db w) -> exists o, o ∈ ecosystem_orgs (db w) /\ eo_ecosystemId o = eco_id e /\
    role_named LEAD o = true /\ invited (db w) ECOSYSTEM (eo_orgId o) (eco_id e);
  i_orgs o : o ∈ ecosystem_orgs (db w) -> role_named LEAD o = true \/
    (role_named MEMBER_NAME o = true /\ invited (db w) MEMBER (eo_orgId o) (eo_ecosystemId o));
}.

Lemma drawn_id_mono w w' id : (drawn w <= drawn w')%nat -> drawn_id w id -> drawn_id w' id.
Proof. intros H (n & Hn & ->). exists n. split; [lia | done]. Qed.

Lemma fresh_not_drawn w : ~ drawn_id w (uuid (drawn w)).
Proof. intros (n & Hn & H%(inj uuid)). lia. Qed.

(** *** Steps that leave the tables alone *)

Definition unwritten (w w' : world) : Prop := db w' = db w /\ (drawn w <= drawn w')%nat.

#[local] Instance unwritten_preorder : PreOrder unwritten.
Proof. unfold unwritten. split; [done|]. intros w w1 w2 [? ?] [? ?]. split; [congruence | lia]. Qed.

Abbreviation quiet := (frames unwritten).

Lemma inv_mono w w' : db w' = db w -> (drawn w <= drawn w')%nat -> inv w -> inv w'.
Proof.
  intros Hdb Hd []. split; rewrite ?Hdb; try done.
  - intros i Hi. eapply drawn_id_mono; eauto.
  - intros e He. eapply drawn_id_mono; eauto.
Qed.

Lemma quiet_keeps {A} (m : eff world A) : quiet m -> preserves inv m.
Proof. intros Hm w. destruct (Hm w). by apply inv_mono. Qed.

Lemma quiet_call c : quiet (placed c).
Proof. done. Qed.
Lemma quiet_read {A} (f : tables -> A) : quiet (read f).
Proof. done. Qed.
Hint Resolve quiet_call quiet_read : platform.

Lemma quiet_keycloak role u org eco : quiet (updateKeycloakEcosystem role u org eco).
Proof. unfold updateKeycloakEcosystem, updateOrgServiceAccountEcosystem, when. solve_frames. Qed.
Lemma quiet_email to s : quiet (sendEmail to s).
Proof. unfold sendEmail. solve_frames. Qed.
Hint Resolve quiet_keycloak quiet_email : platform.

Lemma keeps_bind {A B} (m : eff world A) (k : A -> eff world B) :
  preserves inv m -> (forall w a w', inv w -> m w = (Ok a, w') -> inv w' -> inv (k a w').2) -> preserves inv (m ≫= k).
Proof.
  intros Hm Hk w Hw. specialize (Hm w Hw). rewrite run_bind. specialize (Hk w).
  destruct (m w) as [[a|e] w1]; [|done]. by eapply Hk.
Qed.

Lemma quietly {A B} (m : eff world A) (k : A -> eff world B) :
  quiet m -> (forall a, preserves inv (k a)) -> preserves inv (m ≫= k).
Proof. intros Hm Hk. apply preserves_bind; [by apply quiet_keeps | done]. Qed.

(** *** The changes of the tables *)

Lemma invited_mono d d' ty org eco : (forall i, i ∈ invitations d -> inv_status i = ACCEPTED -> inv_ecosystemId i <> None -> i ∈ invitations d') ->
  invited d ty org eco -> invited d' ty org eco.
Proof. intros H (i & Hi & ? & ? & He & ?). exists i. split; [apply H; congruence | done]. Qed.

Definition with_invitations (v : list ecosystem_invitation) (w : world) : world := set_db (set_invitations v (db w)) w.

Lemma inv_add_invitation w w' i : inv w -> inv_id i = uuid (drawn w) -> (drawn w < drawn w')%nat ->
  db w' = set_invitations (invitations (db w) ++ [i])%list (db w) ->
  (inv_type i = ECOSYSTEM -> inv_status i = ACCEPTED) -> (inv_type i = MEMBER -> inv_ecosystemId i <> None) -> inv w'.
Proof.
  intros [] Hid Hd Hdb Hp Hm.
  assert (Hinv : forall ty org eco, invited (db w) ty org eco -> invited (db w') ty org eco).
  { intros ty org eco. apply invited_mono. rewrite Hdb. intros j Hj _ _. apply elem_of_app. by left. }
  split; rewrite ?Hdb; simpl; try done.
  - rewrite fmap_app. apply NoDup_app. split_and!; [done| |apply NoDup_singleton].
    intros x (j & -> & Hj)%list_elem_of_fmap Hx%list_elem_of_singleton. apply (fresh_not_drawn w).
    rewrite <- Hid, <- Hx. by apply i_drawn0.
  - intros j [Hj|Hj%list_elem_of_singleton]%elem_of_app.
    + apply (drawn_id_mono w); [lia | by apply i_drawn0].
    + subst j. rewrite Hid. by exists (drawn w).
  - intros e He. apply (drawn_id_mono w); [lia | by apply i_eco_drawn0].
  - intros j [Hj|Hj%list_elem_of_singleton]%elem_of_app; [by apply i_platform0 | by subst j].
  - intros j [Hj|Hj%list_elem_of_singleton]%elem_of_app; [by apply i_member0 | by subst j].
  - intros e He. destruct (i_led0 e He) as (o & ? & ? & ? & ?). exists o. rewrite <- Hdb. auto.
  - intros o Ho. destruct (i_orgs0 o Ho) as [?|[? ?]]; [by left | right]. rewrite <- Hdb. auto.
Qed.

(** An invitation that was not accepted changes its status. *)
Lemma inv_set_status w i st : inv w -> i ∈ invitations (db w) -> inv_status i <> ACCEPTED ->
  inv (with_invitations (update_where (has_id (inv_id i)) (set_status st) (invitations (db w))) w).
Proof.
  intros Hw Hi Hst. pose proof Hw as [].
  assert (Hone : forall j, j ∈ invitations (db w) -> has_id (inv_id i) j = true -> j = i).
  { intros j Hj Hid%String.eqb_eq. by apply (unique_key inv_id (invitations (db w))). }
  assert (Hmem : inv_type i = MEMBER) by (destruct (inv_type i) eqn:E; [by rewrite i_platform0 in Hst | done]).
  set (w' := with_invitations _ w).
  assert (Hinv : forall ty org eco, invited (db w) ty org eco -> invited (db w') ty org eco).
  { intros ty org eco. apply invited_mono. intros j Hj Hacc _. apply elem_of_update_where. exists j. split; [done|].
    destruct (has_id (inv_id i) j) eqn:E; [|done]. apply Hone in E as ->; done. }
  split; try done.
  - change (NoDup (inv_id <$> update_where (has_id (inv_id i)) (set_status st) (invitations (db w)))).
    by rewrite (fmap_update_where inv_id) by done.
  - intros j (k & Hk & ->)%elem_of_update_where. destruct (has_id _ k); by apply (i_drawn0 k).
  - intros j (k & Hk & ->)%elem_of_update_where. destruct (has_id _ k) eqn:E; [|by apply i_platform0].
    apply Hone in E as ->; [|done]. simpl. congruence.
  - intros j (k & Hk & ->)%elem_of_update_where. destruct (has_id _ k) eqn:E; [|by apply i_member0]. simpl. by apply i_member0.
  - intros e He. destruct (i_led0 e He) as (o & ? & ? & ? & ?). exists o. auto.
  - intros o Ho. destruct (i_orgs0 o Ho) as [?|[? ?]]; [by left | right]. auto.
Qed.

Lemma role_named_of (r : ecosystem_role) o : r ∈ roles -> ecosystemRoleId o = role_id r -> role_named (role_name r) o = true.
Proof. intros Hr Ho. apply existsb_elem. exists r. by rewrite Ho, !String.eqb_refl. Qed.

(** A role has one name. *)
Lemma role_named_unique n n' o : role_named n o = true -> role_named n' o = true -> n = n'.
Proof.
  intros (r & Hr & [H1%String.eqb_eq H2%String.eqb_eq]%andb_true_iff)%existsb_elem
    (r' & Hr' & [H1'%String.eqb_eq H2'%String.eqb_eq]%andb_true_iff)%existsb_elem.
  assert (r = r') as ->; [|congruence]. apply (unique_key role_id roles); [apply roles_keyed|done..|congruence].
Qed.

Lemma NoDup_pairs (t : list ecosystem_org) (o : ecosystem_org) : existsb (same_pair (eo_orgId o) (eo_ecosystemId o)) t = false ->
  NoDup ((fun o => (eo_orgId o, eo_ecosystemId o)) <$> t) -> NoDup ((fun o => (eo_orgId o, eo_ecosystemId o)) <$> (t ++ [o])%list).
Proof.
  intros Hno Hnd. rewrite fmap_app. apply NoDup_app. split_and!; [done| |apply NoDup_singleton].
  intros x (p & -> & Hp)%list_elem_of_fmap Hx%list_elem_of_singleton. injection Hx as H1 H2.
  apply not_true_iff_false in Hno. apply Hno, existsb_elem. exists p. unfold same_pair. by rewrite H1, H2, !String.eqb_refl.
Qed.

(** An organization joins on an accepted invitation. *)
Lemma inv_join w w' o : inv w -> (drawn w <= drawn w')%nat -> db w' = set_orgs (ecosystem_orgs (db w) ++ [o])%list (db w) ->
  existsb (same_pair (eo_orgId o) (eo_ecosystemId o)) (ecosystem_orgs (db w)) = false ->
  role_named MEMBER_NAME o = true -> invited (db w) MEMBER (eo_orgId o) (eo_ecosystemId o) -> inv w'.
Proof.
  intros [] Hd Hdb Hno Hr Hi.
  assert (Hinv : forall ty org eco, invited (db w) ty org eco -> invited (db w') ty org eco) by (by rewrite Hdb).
  split; rewrite ?Hdb; simpl; try done.
  - intros i Hin. by eapply drawn_id_mono, i_drawn0.
  - intros e He. by eapply drawn_id_mono, i_eco_drawn0.
  - by apply NoDup_pairs.
  - intros e He. destruct (i_led0 e He) as (p & ? & ? & ? & ?). exists p. rewrite elem_of_app. auto.
  - intros p [Hp|Hp%list_elem_of_singleton]%elem_of_app; [by apply i_orgs0 | subst p; by right].
Qed.

(** An organization leads a new ecosystem on an unused invitation of the platform. *)
Lemma inv_after_creation w w' e o i email : inv w -> (drawn w < drawn w')%nat -> eco_id e = uuid (drawn w) ->
  eo_ecosystemId o = eco_id e -> role_named LEAD o = true ->
  existsb (same_pair (eo_orgId o) (eo_ecosystemId o)) (ecosystem_orgs (db w)) = false ->
  i ∈ invitations (db w) -> unused email i = true ->
  db w' = Tables (update_where (has_id (inv_id i)) (assign (eco_id e) (eo_orgId o)) (invitations (db w)))
    (ecosystems (db w) ++ [e])%list (ecosystem_orgs (db w) ++ [o])%list -> inv w'.
Proof.
  intros [] Hd Hid Hoe Hr Hno Hi Hun Hdb.
  unfold unused in Hun. rewrite !andb_true_iff, !bool_decide_eq_true in Hun. destruct Hun as [[_ Hacc] Hnone].
  assert (Hone : forall j, j ∈ invitations (db w) -> has_id (inv_id i) j = true -> j = i).
  { intros j Hj Hx%String.eqb_eq. by apply (unique_key inv_id (invitations (db w))). }
  assert (Hty : inv_type i = ECOSYSTEM) by (destruct (inv_type i) eqn:E; [done | by apply i_member0 in E]).
  assert (Hinv : forall ty org eco, invited (db w) ty org eco -> invited (db w') ty org eco).
  { intros ty org eco. apply invited_mono. rewrite Hdb. intros j Hj _ Hne. apply elem_of_update_where. exists j. split; [done|].
    destruct (has_id (inv_id i) j) eqn:E; [|done]. by apply Hone in E as ->. }
  split; rewrite ?Hdb; simpl; try done.
  - by rewrite (fmap_update_where inv_id) by done.
  - intros j (k & Hk & ->)%elem_of_update_where. apply (drawn_id_mono w); [lia|]. destruct (has_id _ k); by apply (i_drawn0 k).
  - rewrite fmap_app. apply NoDup_app. split_and!; [done| |apply NoDup_singleton].
    intros x (j & -> & Hj)%list_elem_of_fmap Hx%list_elem_of_singleton. apply (fresh_not_drawn w).
    rewrite <- Hid, <- Hx. by apply i_eco_drawn0.
  - intros j [Hj|Hj%list_elem_of_singleton]%elem_of_app.
    + apply (drawn_id_mono w); [lia | by apply i_eco_drawn0].
    + subst j. rewrite Hid. by exists (drawn w).
  - by apply NoDup_pairs.
  - intros j (k & Hk & ->)%elem_of_update_where. destruct (has_id _ k); simpl; by apply i_platform0.
  - intros j (k & Hk & ->)%elem_of_update_where. destruct (has_id _ k); [done | by apply i_member0].
  - intros f [Hf|Hf%list_elem_of_singleton]%elem_of_app.
    + destruct (i_led0 f Hf) as (p & ? & ? & ? & ?). exists p. rewrite elem_of_app, <- Hdb. auto.
    + subst f. exists o. rewrite elem_of_app, list_elem_of_singleton. split_and!; [by right|done|done|].
      exists (assign (eco_id e) (eo_orgId o) i). split; [|done]. apply elem_of_update_where. exists i. split; [done|].
      unfold has_id. by rewrite String.eqb_refl.
  - intros p [Hp|Hp%list_elem_of_singleton]%elem_of_app; [|subst p; by left].
    destruct (i_orgs0 p Hp) as [?|[? ?]]; [by left | right]. rewrite <- Hdb. auto.
Qed.

(** Members leave with their invitations. *)
Lemma inv_leave w eco orgs : inv w ->
  inv (set_db (Tables (List.filter (fun i => negb (withdrawn eco orgs i)) (invitations (db w))) (ecosystems (db w))
    (List.filter (fun o => negb (leaves eco orgs o)) (ecosystem_orgs (db w)))) w).
Proof.
  intros []. 
  assert (Hsub : forall {A B} (f : A -> B) p (l : list A), NoDup (f <$> l) -> NoDup (f <$> List.filter p l)).
  { intros A B f q l. induction l as [|x l IH]; simpl; [done|]. intros [Hx Hl]%NoDup_cons. destruct (q x); simpl; [|auto].
    apply NoDup_cons. split; [|auto]. intros (y & Hy & [Hyl _]%elem_of_filter_b)%list_elem_of_fmap. apply Hx, list_elem_of_fmap. eauto. }
  assert (Hkeep : forall o, role_named LEAD o = true -> leaves eco orgs o = false).
  { intros o Ho. unfold leaves. destruct (role_named MEMBER_NAME o) eqn:E; [|by rewrite andb_false_r].
    by pose proof (role_named_unique _ _ _ Ho E). }
  split; simpl; auto.
  - intros i [Hi _]%elem_of_filter_b. by apply i_drawn0.
  - intros i [Hi _]%elem_of_filter_b. by apply i_platform0.
  - intros i [Hi _]%elem_of_filter_b. by apply i_member0.
  - intros e He. destruct (i_led0 e He) as (o & Ho & Hoe & Hr & i & Hi & Hty & ?). exists o.
    rewrite elem_of_filter_b, Hkeep by done. split_and!; [done|done|done|done|]. exists i. split; [|done].
    apply elem_of_filter_b. split; [done|]. unfold withdrawn. rewrite Hty.
    rewrite (bool_decide_false (ECOSYSTEM = MEMBER)) by done. by rewrite andb_false_r.
  - intros o [Ho Hl]%elem_of_filter_b. destruct (i_orgs0 o Ho) as [?|(Hr & i & Hi & Hty & Hacc & Hie & Hio)]; [by left | right].
    split; [done|]. exists i. split; [|done]. apply elem_of_filter_b. split; [done|].
    unfold leaves in Hl. rewrite Hr, andb_true_r in Hl. unfold withdrawn. rewrite Hie, Hio. 
    rewrite negb_true_iff in Hl |- *. rewrite andb_false_iff in Hl |- *. destruct Hl as [Hl|Hl]; [|by right].
    left. apply String.eqb_neq in Hl. rewrite bool_decide_false by congruence. done.
Qed.

Lemma inv_org_status w p st : inv w -> inv (set_db (set_orgs (update_where p (set_org_status st) (ecosystem_orgs (db w))) (db w)) w).
Proof.
  intros []. split; simpl; try done.
  - by rewrite (fmap_update_where (fun o => (eo_orgId o, eo_ecosystemId o))) by done.
  - intros e He. destruct (i_led0 e He) as (o & Ho & Hoe & Hr & Hi). exists (if p o then set_org_status st o else o).
    split; [apply elem_of_update_where; by exists o|]. by destruct (p o).
  - intros o (o0 & Ho & ->)%elem_of_update_where. destruct (i_orgs0 o0 Ho) as [?|?]; destruct (p o0); auto.
Qed.

(** *** The repository *)

Lemma keeps_invitation email u by_ (ty : InviteType) eco org :
  (ty = MEMBER -> eco <> None) -> preserves inv (createEcosystemInvitation email u by_
    (match ty with ECOSYSTEM => None | MEMBER => Some MEMBER end) (match ty with ECOSYSTEM => None | MEMBER => Some PENDING end) eco org).
Proof.
  intros Hty w Hw. unfold createEcosystemInvitation. rewrite run_bind. unfold read at 1, gets at 1. cbv beta iota.
  destruct (invitation_taken _ _ _ _); [done|].
  eapply inv_add_invitation with (w := w); [done|..|reflexivity| |]; simpl; [done|lia|..]; by destruct ty.
Qed.

(** The status of an invitation that is not accepted may be changed; what is returned
    is then in the table. *)
Lemma updateStatus_spec email org eco st w : inv w ->
  (forall i, first (same_invitation email eco org) (invitations (db w)) = Some i -> inv_status i <> ACCEPTED) ->
  let (r, w') := updateEcosystemInvitationStatusByEmail email org eco st w in
  inv w' /\ match r with
  | Ok i => i ∈ invitations (db w') /\ inv_status i = st /\ inv_type i = MEMBER /\ inv_ecosystemId i = Some eco /\ invitedOrg i = Some org
  | Throw _ => True
  end.
Proof.
  intros Hw Hst. unfold updateEcosystemInvitationStatusByEmail, transaction. rewrite run_bind. unfold read at 1, gets at 1. cbv beta iota.
  destruct (first _ _) as [i|] eqn:E; [|by destruct w as [[] ???]]. specialize (Hst i eq_refl).
  apply first_Some in E as [Hi Hs]. unfold same_invitation in Hs. rewrite !andb_true_iff, !bool_decide_eq_true in Hs.
  destruct Hs as [[_ He] Ho]. split; [by apply (inv_set_status w i st)|]. simpl. split_and!; [|done| |done|done].
  - apply elem_of_update_where. exists i. split; [done|]. unfold has_id. by rewrite String.eqb_refl.
  - destruct (inv_type i) eqn:Ety; [|done]. by destruct (Hst (i_platform w Hw i Hi Ety)).
Qed.

Lemma first_existing {A} (Q : A -> Prop) (o : option A) i : o = Some i -> Q i -> forall j, o = Some j -> Q j.
Proof. congruence. Qed.

Lemma keeps_update_status st req eco org : preserves inv (updateEcosystemInvitationStatus st req eco org).
Proof.
  intros w Hw. unfold updateEcosystemInvitationStatus. destruct (getUserById req) as [u|]; [|done].
  destruct (negb _); [done|]. rewrite run_bind. unfold getEcosystemInvitationsByEmail at 1, read, gets. cbv beta iota.
  destruct (first _ _) as [i|] eqn:E; [|done]. case_bool_decide as Hacc; [done|]. rewrite run_bind.
  pose proof (updateStatus_spec (default "" (user_email u)) org eco st w Hw (first_existing _ _ _ E Hacc)) as H.
  destruct (updateEcosystemInvitationStatusByEmail _ _ _ _ w) as [[r|e] w1]; [|by destruct H].
  destruct H as (Hw1 & Hin & Hst & Hty & He & Ho). rewrite He. destruct (inv_status r) eqn:Hacc'; [|done|done].
  destruct (String.eqb eco ""); [done|]. destruct (getEcosystemRoleByName MEMBER_NAME) as [role|] eqn:Erole; [|done].
  destruct (negb (truthy_str (invitedOrg r))); [done|]. destruct (negb (truthy_str (inv_userId r))); [done|].
  rewrite Ho. simpl. rewrite run_bind. unfold getEcosystemOrg at 1, read, gets. cbv beta iota.
  destruct (first (same_pair _ _) _); [done|]. 
  assert (Hjoin : inv (createEcosystemOrg org eco (role_id role) (inv_userId r) req w1).2).
  { unfold createEcosystemOrg. rewrite run_bind. unfold read at 1, gets at 1. cbv beta iota.
    destruct (existsb _ _) eqn:Ex; [done|]. apply first_Some in Erole as [Hrole Hn%String.eqb_eq].
    eapply (inv_join w1); [done|simpl; lia|reflexivity|done|rewrite <- Hn; by apply role_named_of|by exists r]. }
  rewrite run_bind. destruct (createEcosystemOrg _ _ _ _ _ w1) as [[o|e] w2]; [|done].
  refine (quiet_keeps _ _ w2 Hjoin). solve_frames.
Qed.

(** The transaction of [createEcosystem]: on success every table has grown as it should. *)
Definition creation (d : ICreateEcosystem) (u : user) : eff world ecosystem :=
  transaction rollback (
    created ← createNewEcosystem d;
    _ ← updateEcosystemInvitationDetails (user_email u) (eco_id created) (c_orgId d);
    mret created).

Lemma latest_unused (email : string) t i : latest inv_created (List.filter (unused email) t) = Some i -> i ∈ t /\ unused email i = true.
Proof. intros [Hi Hu]%latest_elem%elem_of_filter_b. done. Qed.

Lemma rollback_inv w n t c : inv w -> (drawn w <= n)%nat -> inv (rollback w (World t c (ticks w) n)).
Proof. by intros Hw Hn; apply (inv_mono w). Qed.

Lemma keeps_creation d u : preserves inv (creation d u).
Proof.
  intros w Hw. unfold creation, transaction. rewrite run_bind. unfold createNewEcosystem.
  destruct (getEcosystemRoleByName LEAD) as [role|] eqn:Erole.
  2: { by apply (inv_mono w); [|simpl; lia|]. }
  apply first_Some in Erole as [Hrole Hn%String.eqb_eq]. unfold createEcosystemOrg. run.
  destruct (existsb _ _) eqn:Ex; simpl; [by apply (inv_mono w); [|simpl; lia|]|].
  unfold updateEcosystemInvitationDetails. destruct (user_email u) as [email|]; [|by apply (inv_mono w); [|simpl; lia|]].
  unfold read. run. destruct (latest _ _) as [i|] eqn:El; [|by apply (inv_mono w); [|simpl; lia|]].
  destruct (existsb (same_invitation _ _ _) _); [by apply (inv_mono w); [|simpl; lia|]|]. simpl.
  apply latest_unused in El as [Hi Hu].
  eapply (inv_after_creation w _ (Eco (uuid (drawn w)) _ _ _ _ _ _ _) (EcoOrg _ (c_orgId d) ACTIVE (uuid (drawn w)) (role_id role) _ _) i email);
    first [done | simpl; lia | (rewrite <- Hn; by apply role_named_of) | reflexivity].
Qed.

Lemma keeps_create d : preserves inv (createEcosystem d).
Proof.
  unfold createEcosystem, rpc. apply preserves_try; [|intros; apply preserves_throw].
  case_match; [apply preserves_throw|]. apply quietly; [unfold findAcceptedInvitationByUserId; solve_frames|].
  intros [i|]; [|apply preserves_throw]. apply quietly; [unfold checkEcosystemNameExist; solve_frames|]. intros [x|]; [apply preserves_throw|].
  destruct (getUserById _) as [u|]; [|apply preserves_throw]. apply preserves_bind; [apply (keeps_creation d u)|].
  intros e. apply quiet_keeps. solve_frames.
Qed.

Lemma keeps_invite_member org req eco : preserves inv (inviteMemberToEcosystem org req eco).
Proof.
  unfold inviteMemberToEcosystem, rpc. apply preserves_try; [|intros; apply preserves_throw].
  destruct platform_config; [|apply preserves_throw]. destruct (getOrgProfile org) as [o|]; [|apply preserves_throw].
  destruct (getUserById _) as [u|]; [|apply preserves_throw]. case_match; [apply preserves_throw|].
  apply keeps_bind; [apply quiet_keeps; unfold getEcosystemInvitationsByEmail; solve_frames|]. intros w checkUser w' Hw Hrun Hw'.
  injection Hrun as <- <-. case_match eqn:Hrej.
  - rewrite run_bind. destruct (first _ _) as [i|] eqn:E; [|done]. apply andb_true_iff in Hrej as [Hrej%bool_decide_eq_true _].
    assert (Hst : inv_status i <> ACCEPTED) by (by rewrite Hrej).
    pose proof (updateStatus_spec (default "" (user_email u)) org eco PENDING w Hw (first_existing _ _ _ E Hst)) as Hs.
    destruct (updateEcosystemInvitationStatusByEmail _ _ _ _ w) as [[r|e] w1]; by destruct Hs.
  - revert w Hw Hw' Hrej. intros w Hw _ _. case_match; [done|]. case_match; [done|]. revert w Hw H0 H1. intros w Hw _ _.
    refine ((_ : preserves inv _) w Hw). apply preserves_bind; [by apply (keeps_invitation _ _ _ MEMBER)|]. intros row.
    case_match; [apply preserves_bind; [apply keeps_update_status | intros ?; apply preserves_ret]|].
    apply quiet_keeps. unfold getEcosystemById. solve_frames.
Qed.

Lemma keeps_invite_user email admin : preserves inv (inviteUserToCreateEcosystem email admin).
Proof.
  unfold inviteUserToCreateEcosystem. case_match; [apply preserves_throw|]. apply quietly; [unfold getPendingInvitationByEmail; solve_frames|].
  intros x. case_match; [apply preserves_throw|]. apply preserves_bind; [by apply (keeps_invitation _ _ _ ECOSYSTEM)|].
  intros row. apply quiet_keeps. unfold sendInviteEmailTemplate. solve_frames.
Qed.

Lemma keeps_ecosystem_message m : preserves inv (handle m).
Proof.
  destruct m; simpl; (apply preserves_bind; [|intros; apply preserves_ret]).
  - apply keeps_invite_user.
  - apply keeps_create.
  - apply keeps_invite_member.
  - apply keeps_update_status.
  - intros w Hw. by apply (inv_leave w eco orgs).
  - intros w Hw. by apply (inv_org_status w (concerns eco orgs) st).
Qed.

Definition run_messages (ms : list message) (w : world) : world := fold_left (fun w m => (handle m w).2) ms w.

Lemma keeps_messages ms w : inv w -> inv (run_messages ms w).
Proof. revert w. induction ms as [|m ms IH]; intros w Hw; [done|]. by apply IH, keeps_ecosystem_message. Qed.

Definition empty : world := World (Tables [] [] []) [] 0 0.

Lemma inv_no_ecosystems : inv empty.
Proof. split; simpl; try (intros ? Hx; by apply elem_of_nil in Hx); constructor. Qed.

(** C7. After any sequence of requests, every ecosystem has a lead organization, which
    holds the platform's accepted invitation spent on that ecosystem, and no two
    memberships are of the same organization in the same ecosystem. *)
Theorem every_ecosystem_led ms :
  let d := db (run_messages ms empty) in
  NoDup ((fun o => (eo_orgId o, eo_ecosystemId o)) <$> ecosystem_orgs d) /\
  forall e, e ∈ ecosystems d -> exists o, o ∈ ecosystem_orgs d /\ eo_ecosystemId o = eco_id e /\ role_named LEAD o = true /\
    invited d ECOSYSTEM (eo_orgId o) (eco_id e).
Proof. destruct (keeps_messages ms empty inv_no_ecosystems). auto. Qed.

(** C8. After any sequence of requests, whoever is in an ecosystem without leading it holds
    an accepted invitation to join it: no order of inviting, rejecting, inviting again,
    accepting and removing leaves a member behind without one. *)
Theorem members_invited ms o :
  let d := db (run_messages ms empty) in
  o ∈ ecosystem_orgs d -> role_named LEAD o = false ->
  role_named MEMBER_NAME o = true /\ invited d MEMBER (eo_orgId o) (eo_ecosystemId o).
Proof.
  intros d Ho Hr. destruct (keeps_messages ms empty inv_no_ecosystems). destruct (i_orgs0 o Ho) as [H|H]; [congruence | done].
Qed.
End laws.

(** ** A sample platform *)

Module EcosystemSample.
#[local] Instance ids : UuidSource.
Proof. refine {| uuid n := "id" +:+ pretty n |}. Defined.

Definition sample_roles : list ecosystem_role := [Role "r1" LEAD; Role "r2" MEMBER_NAME].

#[local] Instance platform : Platform.
Proof.
  refine {|
    roles := sample_roles;
    users := [User "u1" (Some "a@x.y") (Some "kc1"); User "u2" (Some "b@x.y") None];
    organisations := [Org "o1" "u1" None; Org "o2" "u2" (Some "idp2")];
    platform_config := Some "no-reply@x.y";
    on_email _ := Ok true;
    on_token _ := Ok "token";
    on_keycloak _ := Ok tt;
    reading n := Z.of_nat n;
  |}.
  apply (bool_decide_unpack (NoDup (role_id <$> sample_roles))). vm_compute. exact I.
Defined.

Definition dto : ICreateEcosystem := CreateDto "Eco" "An ecosystem" None None "u1" "o1" None.

(** The second attempt to create finds the invitation spent; the member declines, is
    invited again and joins. *)
Definition life : list message :=
  [InviteUserToCreate "a@x.y" "admin"; CreateEcosystem dto;
   CreateEcosystem (CreateDto "Eco 2" "Another" None None "u1" "o1" None);
   InviteMember "o2" "u1" "id1"; UpdateInvitationStatus REJECTED "u2" "id1" "o2";
   InviteMember "o2" "u1" "id1"; UpdateInvitationStatus ACCEPTED "u2" "id1" "o2"].

Example ecosystem_life_result : let d := db (run_messages life empty) in
  map eco_name (ecosystems d) = ["Eco"] /\
  map (fun o => (eo_orgId o, eo_ecosystemId o, ecosystemRoleId o)) (ecosystem_orgs d) = [("o1", "id1", "r1"); ("o2", "id1", "r2")].
Proof. split; vm_compute; reflexivity. Qed.

Example every_ecosystem_led_witness : exists o, o ∈ ecosystem_orgs (db (run_messages life empty)) /\ role_named LEAD o = true.
Proof.
  destruct (every_ecosystem_led life) as [_ H].
  destruct (ecosystems (db (run_messages life empty))) as [|e es] eqn:He; [vm_compute in He; discriminate|].
  destruct (H e ltac:(left)) as (o & Ho & _ & Hr & _). exists o. split; [exact Ho | exact Hr].
Defined.

Definition joined : ecosystem_org := EcoOrg "id6" "o2" ACTIVE "id1" "r2" (Some "u2") "u2".

Example members_invited_witness : invited (db (run_messages life empty)) MEMBER "o2" "id1".
Proof.
  apply (members_invited life joined); [|vm_compute; reflexivity].
  assert (He : ecosystem_orgs (db (run_messages life empty)) = [EcoOrg "id2" "o1" ACTIVE "id1" "r1" (Some "u1") "u1"; joined])
    by (vm_compute; reflexivity).
  rewrite He. right. left.
Defined.
End EcosystemSample.
