(* ===== verification/Intent.v ===== *)
(** * Intents of ecosystems

    The part of [apps/ecosystem] that manages intents: an ecosystem names its intents, and
    assigns to each the verification templates that ask for it, for one organization or for
    all, and the notices that explain it.  The state contains the one of [Ecosystem]. *)

From S2P Require Import Prelude Js Table CommonUtils CredentialTemplates Ecosystem.

Open Scope Z_scope.

(** ** Rows *)

Record intent := Intent {
  it_id : string;
  it_ecosystemId : string;
  it_name : string;
  it_description : option string;
  it_created : Z;
  it_createdBy : string;
  it_changed : Z;
  it_changedBy : string;
}.

Record intent_template := IntentTemplate {
  ia_id : string;
  ia_orgId : option string;
  ia_intentId : string;
  ia_templateId : string;
  ia_created : Z;
  ia_createdBy : string;
  ia_changed : Z;
  ia_changedBy : string;
}.

Record intent_notice := IntentNotice {
  in_id : string;
  in_intentId : string;
  in_orgId : option string;
  noticeUrl : string;
  in_created : Z;
  in_createdBy : string;
  in_changedBy : string;
}.

(** The templates belong to the verification service. *)
Record verification_template := VerificationTemplate {
  vt_id : string;
  vt_name : string;
  templateJson : Json.value;
  vt_orgId : string;
  vt_created : Z;
  vt_createdBy : string;
  vt_changedBy : string;
  vt_signerOption : SignerOption;
}.

Record world := World {
  eco : Ecosystem.world;
  intents : list intent;
  intent_templates : list intent_template;
  intent_notices : list intent_notice;
  verification_templates : list verification_template;
  fetched : list string;
}.

(** [fetch(url)]: no answer, or a status and the body when that is JSON *)
Inductive fetch_answer := Unreachable (message : string) | Fetched (status : Z) (body : option Json.value).
Class Web := { on_fetch : list string -> fetch_answer }.
Definition response_ok (status : Z) : bool := (200 <=? status) && (status <? 300).

Definition set_intents v (w : world) : world := World (eco w) v (intent_templates w) (intent_notices w) (verification_templates w) (fetched w).
Definition set_intent_templates v (w : world) : world := World (eco w) (intents w) v (intent_notices w) (verification_templates w) (fetched w).
Definition set_notices v (w : world) : world := World (eco w) (intents w) (intent_templates w) v (verification_templates w) (fetched w).
Definition set_vtemplates v (w : world) : world := World (eco w) (intents w) (intent_templates w) (intent_notices w) v (fetched w).

Section intents.
Context {P : Platform} {U : UuidSource} {N : Web}.

(** An operation of the ecosystem service *)
Definition ecosystem {A} (m : eff Ecosystem.world A) : eff world A := fun w =>
  let '(r, e) := m (eco w) in (r, World e (intents w) (intent_templates w) (intent_notices w) (verification_templates w) (fetched w)).
Definition now : eff world Z := ecosystem Ecosystem.now.
Definition fresh : eff world string := ecosystem Ecosystem.fresh.
Definition fetch (url : string) : eff world fetch_answer := fun w =>
  let us := (fetched w ++ [url])%list in
  (Ok (on_fetch us), World (eco w) (intents w) (intent_templates w) (intent_notices w) (verification_templates w) us).

Definition prisma_foreign_key : exn := Exn PrismaError "Foreign key constraint failed" None (Some "P2003").
Definition not_found (m : string) : exn := http_exn NotFoundException m.
Definition conflict (m : string) : exn := http_exn ConflictException m.

(** ** Repository: intents *)

Definition intent_is (id : string) (i : intent) : bool := String.eqb (it_id i) id.
Definition same_text (a b : string) : bool := String.eqb (Str.toLowerCase a) (Str.toLowerCase b).

Definition intent_taken (name ecosystemId : string) (exclude : option string) (i : intent) : bool :=
  String.eqb (it_ecosystemId i) ecosystemId && same_text (it_name i) (Str.trim name)
  && negb (truthy_str exclude && String.eqb (it_id i) (default "" exclude)).

Definition checkIntentExist (name ecosystemId : string) (excludeIntentId : option string) : eff world (option intent) :=
  gets (fun w => first (intent_taken name ecosystemId excludeIntentId) (intents w)).

Definition findIntentById (intentId : string) : eff world (option intent) := gets (fun w => first (intent_is intentId) (intents w)).

Definition createIntentRow (name : string) (description : option string) (createdBy ecosystemId : string) : eff world intent :=
  if String.eqb name "" || String.eqb createdBy "" then throw (bad_request "Intent name and createdBy are required") else
  if String.eqb ecosystemId "" then throw (bad_request "ecosystemId is required") else
  w ← get;
  if negb (existsb (fun e => String.eqb (eco_id e) ecosystemId) (ecosystems (db (eco w)))) then throw prisma_foreign_key else
  id ← fresh; t ← now;
  let row := Intent id ecosystemId name description t createdBy t createdBy in
  _ ← modify (fun w => set_intents (intents w ++ [row])%list w);
  mret row.

Definition renamed (name : option string) (description : option string) (by_ : string) (t : Z) (i : intent) : intent :=
  Intent (it_id i) (it_ecosystemId i) (default (it_name i) name) (match description with Some d => Some d | None => it_description i end)
    (it_created i) (it_createdBy i) t by_.

Definition updateIntentRow (intentId : string) (name description : option string) (lastChangedBy : string) : eff world intent :=
  if String.eqb intentId "" || String.eqb lastChangedBy "" then throw (bad_request "Intent id and lastChangedBy are required") else
  t ← now;
  rows ← gets intents;
  match first (intent_is intentId) rows with
  | None => throw prisma_missing
  | Some i => _ ← modify (set_intents (update_where (intent_is intentId) (renamed name description lastChangedBy t) rows)); mret (renamed name description lastChangedBy t i)
  end.

Definition referenced (intentId : string) (w : world) : bool :=
  existsb (fun a => String.eqb (ia_intentId a) intentId) (intent_templates w) || existsb (fun n => String.eqb (in_intentId n) intentId) (intent_notices w).

Definition intent_in (ecosystemId intentId : string) (i : intent) : bool := intent_is intentId i && String.eqb (it_ecosystemId i) ecosystemId.

(** The templates and notices of an intent refer to it. *)
Definition deleteIntent (ecosystemId intentId userId : string) : eff world intent :=
  w ← get;
  match first (intent_in ecosystemId intentId) (intents w) with
  | None => throw (not_found "Intent not found in the given ecosystem")
  | Some i =>
      if referenced intentId w then throw prisma_foreign_key else
      _ ← put (set_intents (List.filter (fun i => negb (intent_in ecosystemId intentId i)) (intents w)) w);
      mret i
  end.

(** ** Repository: templates of intents *)

Definition ia_is (id : string) (a : intent_template) : bool := String.eqb (ia_id a) id.
Definition same_assignment (orgId : option string) (intentId templateId : string) (a : intent_template) : bool :=
  bool_decide (ia_orgId a = orgId) && String.eqb (ia_intentId a) intentId && String.eqb (ia_templateId a) templateId.

Definition getIntentTemplateRow (id : string) : eff world (option intent_template) := gets (fun w => first (ia_is id) (intent_templates w)).

Definition getIntentTemplates (intentId orgId : option string) : eff world (list intent_template) :=
  gets (fun w => List.filter (fun a => (negb (truthy_str intentId) || String.eqb (ia_intentId a) (default "" intentId))
    && (negb (truthy_str orgId) || bool_decide (ia_orgId a = orgId))) (intent_templates w)).

Definition findIntentTemplate (orgId : option string) (intentId templateId : string) : eff world (option intent_template) :=
  gets (fun w => first (same_assignment orgId intentId templateId) (intent_templates w)).

Definition findEcosystemOrg (ecosystemId orgId : string) : eff world (option ecosystem_org) :=
  gets (fun w => first (same_pair orgId ecosystemId) (ecosystem_orgs (db (eco w)))).

Definition template_is (id : string) (t : verification_template) : bool := String.eqb (vt_id t) id.

Definition refers (intentId templateId : string) (w : world) : bool :=
  existsb (intent_is intentId) (intents w) && existsb (template_is templateId) (verification_templates w).

Definition createIntentTemplateRow (orgId : option string) (intentId templateId createdBy : string) : eff world intent_template :=
  w ← get;
  if negb (refers intentId templateId w) then throw prisma_foreign_key else
  id ← fresh; t ← now;
  let row := IntentTemplate id orgId intentId templateId t createdBy t createdBy in
  _ ← modify (fun w => set_intent_templates (intent_templates w ++ [row])%list w);
  mret row.

Definition reassigned (orgId : option string) (intentId templateId by_ : string) (t : Z) (a : intent_template) : intent_template :=
  IntentTemplate (ia_id a) orgId intentId templateId (ia_created a) (ia_createdBy a) t by_.

Definition updateIntentTemplateRow (id : string) (orgId : option string) (intentId templateId lastChangedBy : string) : eff world intent_template :=
  t ← now;
  w ← get;
  match first (ia_is id) (intent_templates w) with
  | None => throw prisma_missing
  | Some a =>
      if negb (refers intentId templateId w) then throw prisma_foreign_key else
      _ ← put (set_intent_templates (update_where (ia_is id) (reassigned orgId intentId templateId lastChangedBy t) (intent_templates w)) w);
      mret (reassigned orgId intentId templateId lastChangedBy t a)
  end.

Definition deleteIntentTemplateRow (id : string) : eff world intent_template :=
  rows ← gets intent_templates;
  match first (ia_is id) rows with
  | None => throw prisma_missing
  | Some a => _ ← modify (set_intent_templates (List.filter (fun a => negb (ia_is id a)) rows)); mret a
  end.

Definition serves (intentName : string) (ecosystemId : option string) (rows : list intent) (a : intent_template) : bool :=
  existsb (fun i => intent_is (ia_intentId a) i && String.eqb (it_name i) intentName
    && (negb (truthy_str ecosystemId) || String.eqb (it_ecosystemId i) (default "" ecosystemId))) rows.

(** [orderBy: [{ orgId: { sort: 'desc', nulls: 'last' } }]] *)
Definition org_desc (a b : intent_template) : bool :=
  match ia_orgId a, ia_orgId b with
  | _, None => true
  | None, Some _ => false
  | Some x, Some y => String.leb y x
  end.

Definition template_for (intentName verifierOrgId : string) (ecosystemId : option string) (w : world) : option intent_template :=
  hd_error (sort_by org_desc (List.filter (fun a => serves intentName ecosystemId (intents w) a
    && (bool_decide (ia_orgId a = Some verifierOrgId) || bool_decide (ia_orgId a = None))) (intent_templates w))).

Definition template_of (a : intent_template) (w : world) : option verification_template := first (template_is (ia_templateId a)) (verification_templates w).

(** [data] and [totalPages] of a listing *)
Definition listing {R} (key : R -> Z) (pageNumber pageSize : Z) (rows : list R) : Z * list R :=
  (ceil_div (Z.of_nat (length rows)) pageSize, page_of pageNumber pageSize (sort_desc key rows)).

Definition getIntentRows (ecosystemId : string) (pageNumber pageSize : Z) (intentId : option string) : eff world (Z * list intent) :=
  gets (fun w => listing it_created pageNumber pageSize (List.filter (fun i => String.eqb (it_ecosystemId i) ecosystemId
    && (negb (truthy_str intentId) || String.eqb (it_id i) (default "" intentId))) (intents w))).

Definition active_member (ecosystemId : string) (o : ecosystem_org) : bool :=
  String.eqb (eo_ecosystemId o) ecosystemId && match eo_status o with ACTIVE => true | INACTIVE => false end.

Definition orgIdNotFound : exn := bad_request "Provided orgId is not a member of this ecosystem".

Definition getTemplatesOfOrgs (ecosystemId : string) (pageNumber pageSize : Z) (orgId : option string) : eff world (Z * list verification_template) :=
  w ← get;
  let members := List.filter (active_member ecosystemId) (ecosystem_orgs (db (eco w))) in
  orgIds ← (if truthy_str orgId
            then if existsb (fun o => String.eqb (eo_orgId o) (default "" orgId)) members then mret [default "" orgId] else throw orgIdNotFound
            else mret (map eo_orgId members));
  match orgIds with
  | [] => mret (0, [])
  | _ => mret (listing vt_created pageNumber pageSize (List.filter (fun t => existsb (String.eqb (vt_orgId t)) orgIds) (verification_templates w)))
  end.

(** ** Repository: notices *)

Definition notice_is (id : string) (n : intent_notice) : bool := String.eqb (in_id n) id.
Definition slot (intentId : string) (orgId : option string) (n : intent_notice) : bool :=
  String.eqb (in_intentId n) intentId && bool_decide (in_orgId n = orgId).

Definition createIntentNoticeRow (intentId noticeUrl userId : string) (orgId : option string) : eff world intent_notice :=
  rows ← gets intents;
  if negb (existsb (intent_is intentId) rows) then throw prisma_missing else
  id ← fresh; t ← now;
  let row := IntentNotice id intentId (if truthy_str orgId then orgId else None) noticeUrl t userId userId in
  _ ← modify (fun w => set_notices (intent_notices w ++ [row])%list w);
  mret row.

Definition getIntentNoticeRows (id intentId : option string) : eff world (list intent_notice) :=
  gets (fun w => sort_desc in_created (List.filter (fun n => (negb (truthy_str id) || String.eqb (in_id n) (default "" id))
    && (negb (truthy_str intentId) || String.eqb (in_intentId n) (default "" intentId))) (intent_notices w))).

Definition contains_insensitive (search text : string) : bool := Str.contains (Str.toLowerCase search) (Str.toLowerCase text).

Definition getIntentNoticesByEcosystemRows (ecosystemId : string) (pageNumber pageSize : Z) (search : string) (intentId : option string)
    : eff world (list intent_notice * Z * Z) :=
  gets (fun w =>
    let rows := List.filter (fun n => existsb (fun i => intent_is (in_intentId n) i && String.eqb (it_ecosystemId i) ecosystemId) (intents w)
      && (negb (truthy_str intentId) || String.eqb (in_intentId n) (default "" intentId))
      && (String.eqb search "" || contains_insensitive search (noticeUrl n))) (intent_notices w) in
    let '(totalPages, data) := listing in_created pageNumber pageSize rows in (data, totalPages, Z.of_nat (length rows))).

(** An organization that is [undefined] filters nothing, [null] is the notice for all. *)
Definition getIntentNoticeRow (intentId : string) (orgId : option (option string)) : eff world (option intent_notice) :=
  gets (fun w => first (fun n => String.eqb (in_intentId n) intentId && match orgId with None => true | Some o => bool_decide (in_orgId n = o) end)
    (intent_notices w)).

Definition intentNoticeExists (intentId : string) (orgId : option string) : eff world bool := gets (fun w => existsb (slot intentId orgId) (intent_notices w)).

Definition with_url (url by_ : string) (n : intent_notice) : intent_notice :=
  IntentNotice (in_id n) (in_intentId n) (in_orgId n) url (in_created n) (in_createdBy n) by_.

Definition updateIntentNoticeRow (id noticeUrl userId : string) : eff world (option intent_notice) :=
  rows ← gets intent_notices;
  match first (notice_is id) rows with
  | None => mret None
  | Some n => _ ← modify (set_notices (update_where (notice_is (in_id n)) (with_url noticeUrl userId) rows)); mret (Some (with_url noticeUrl userId n))
  end.

Definition deleteIntentNoticeRow (id : string) : eff world (option intent_notice) :=
  rows ← gets intent_notices;
  match first (notice_is id) rows with
  | None => mret None
  | Some n => _ ← modify (set_notices (List.filter (fun m => negb (notice_is (in_id n) m)) rows)); mret (Some n)
  end.
End intents.
