(* ===== verification/IntentService.v ===== *)
(** * Intents of ecosystems: service

    The intents, their templates and notices in [ecosystem.service.ts], with
    [ecosystem.helper.ts], and the messages of [ecosystem.controller.ts] about them. *)

From S2P Require Import Prelude Js Table CommonUtils CredentialTemplates Ecosystem Intent.

Open Scope Z_scope.

Section service.
Context {P : Platform} {U : UuidSource} {N : Web}.

(** ** Templates of intents *)

Definition intentNotFound : exn := rpc_exn 404 "Intent not found".
Definition assigned_already (orgId : option string) : exn :=
  rpc_exn 409 ("A template is already assigned to this intent for " +:+ (if truthy_str orgId then "org " +:+ default "" orgId else "globally") +:+ ".").
Definition not_active_member : exn := rpc_exn 403 "Provided orgId is not an ACTIVE member of this ecosystem".

Definition check_member (ecosystemId : string) (orgId : option string) : eff world unit :=
  if negb (truthy_str orgId) then mret tt else
  orgMembership ← findEcosystemOrg ecosystemId (default "" orgId);
  match orgMembership with
  | Some o => match eo_status o with ACTIVE => mret tt | INACTIVE => throw not_active_member end
  | None => throw not_active_member
  end.

Definition createIntentTemplate (orgId : option string) (intentId templateId userId : string) : eff world intent_template :=
  handled "Failed to create intent template" (
    found ← findIntentById intentId;
    match found with
    | None => throw intentNotFound
    | Some intent =>
        _ ← check_member (it_ecosystemId intent) orgId;
        existingTemplate ← findIntentTemplate orgId intentId templateId;
        match existingTemplate with
        | Some _ => throw (assigned_already orgId)
        | None => createIntentTemplateRow orgId intentId templateId userId
        end
    end).

Definition getIntentTemplateById (id : string) : eff world intent_template :=
  handled "Failed to retrieve intent template" (
    intentTemplate ← getIntentTemplateRow id;
    match intentTemplate with Some a => mret a | None => throw (not_found "Intent template not found") end).

Definition getIntentTemplatesByIntentId (intentId : string) : eff world (list intent_template) :=
  handled "Failed to retrieve intent templates" (
    found ← findIntentById intentId;
    match found with None => throw (rpc_exn 404 "Ecosystem intent not found") | Some _ => getIntentTemplates (Some intentId) None end).

Definition getIntentTemplatesByOrgId (orgId : string) : eff world (list intent_template) :=
  handled "Failed to retrieve intent templates" (getIntentTemplates None (Some orgId)).

(** The assignment with the template it selects *)
Definition getIntentTemplateByIntentAndOrg (intentName verifierOrgId : string) (ecosystemId : option string)
    : eff world (option (intent_template * option verification_template)) :=
  handled "Failed to retrieve intent template" (
    gets (fun w => (fun a => (a, template_of a w)) <$> template_for intentName verifierOrgId ecosystemId w)).

Definition updateIntentTemplate (id : string) (orgId : option string) (intentId templateId userId : string) : eff world intent_template :=
  handled "Failed to update intent template" (
    if String.eqb userId "" then throw (rpc_exn 400 "user is required") else
    if String.eqb intentId "" || String.eqb templateId "" then throw (rpc_exn 400 "intentId and templateId are required") else
    existing ← getIntentTemplateRow id;
    match existing with
    | None => throw (rpc_exn 404 ("Intent template not found for id " +:+ id))
    | Some _ =>
        duplicate ← findIntentTemplate orgId intentId templateId;
        if match duplicate with Some d => negb (String.eqb (ia_id d) id) | None => false end then throw (assigned_already orgId)
        else updateIntentTemplateRow id orgId intentId templateId userId
    end).

Definition deleteIntentTemplate (id : string) : eff world intent_template := handled "Failed to delete intent template" (deleteIntentTemplateRow id).

(** ** Intents *)

Definition intentAlreadyExists : exn := conflict "Intent with this name already exists".

(** The creation is returned without being awaited: its errors pass the handler. *)
Definition createIntent (name : string) (description : option string) (ecosystemId userId : string) : eff world intent :=
  _ ← handled "Failed to create intent" (
    _ ← ecosystem (getEcosystemById ecosystemId);
    intentExist ← checkIntentExist name ecosystemId None;
    match intentExist with Some _ => throw intentAlreadyExists | None => mret tt end);
  createIntentRow name description userId ecosystemId.

Definition getIntents (ecosystemId : string) (pageNumber pageSize : Z) (intentId : option string) : eff world (Z * list intent) :=
  handled "Failed to retrieve intents" (
    _ ← ecosystem (getEcosystemById ecosystemId);
    getIntentRows ecosystemId pageNumber pageSize intentId).

Definition getTemplatesByOrgId (ecosystemId : string) (pageNumber pageSize : Z) (orgId : option string) : eff world (Z * list verification_template) :=
  if String.eqb ecosystemId "" then throw (bad_request "ecosystemId is required") else getTemplatesOfOrgs ecosystemId pageNumber pageSize orgId.

Definition updateIntent (intentId : string) (name : string) (description : option string) (ecosystemId userId : string) : eff world intent :=
  handled "Failed to update intent" (
    if String.eqb userId "" then throw (bad_request "UserId is required") else
    intentExist ← checkIntentExist name ecosystemId (Some intentId);
    match intentExist with
    | Some _ => throw intentAlreadyExists
    | None => updateIntentRow intentId (Some name) description userId
    end).

(** ** Notices *)

Definition reachable (a : fetch_answer) : result unit :=
  match a with
  | Unreachable m => Throw (rpc_exn 400 ("noticeUrl could not be resolved: " +:+ m))
  | Fetched status _ => if response_ok status then Ok tt else Throw (rpc_exn 400 ("noticeUrl is not reachable (HTTP " +:+ pretty status +:+ ")."))
  end.

Definition validateNoticeUrl (noticeUrl : option string) : eff world string :=
  let url := default "" noticeUrl in
  if String.eqb (Str.trim url) "" then throw (rpc_exn 400 "noticeUrl must not be empty.") else
  a ← fetch url;
  _ ← lift (reachable a);
  mret url.

Definition validateEcosystemLead (userId ecosystemId : string) : eff world unit :=
  isLead ← ecosystem (isEcosystemLead userId ecosystemId);
  if (isLead : bool) then mret tt else throw (rpc_exn 403 "Only Ecosystem Lead can perform this action.").

Definition notice_conflict (orgId : option string) : exn :=
  rpc_exn 409 ("An intent notice with " +:+ (if truthy_str orgId then "orgId " +:+ default "" orgId else "no orgId") +:+ " already exists for this intent.").

Definition createIntentNotice (intentId : string) (noticeUrl : option string) (userId : string) (orgId : option string) : eff world intent_notice :=
  handled "Error while creating intent notice." (
    url ← validateNoticeUrl noticeUrl;
    found ← findIntentById intentId;
    match found with
    | None => throw (rpc_exn 404 "Intent not found.")
    | Some intent =>
        _ ← validateEcosystemLead userId (it_ecosystemId intent);
        _ ← (if negb (truthy_str orgId) then mret tt else
             membership ← ecosystem (getEcosystemOrg (it_ecosystemId intent) (default "" orgId));
             match membership with
             | None => throw (rpc_exn 403 "The provided orgId is not a member or lead of this ecosystem.")
             | Some _ => mret tt
             end);
        isAlreadyExists ← intentNoticeExists intentId orgId;
        if (isAlreadyExists : bool) then throw (notice_conflict orgId) else createIntentNoticeRow intentId url userId orgId
    end).

Definition noticeNotFound : exn := rpc_exn 404 "Intent notice not found.".

Definition getIntentNotices (id intentId : option string) : eff world (list intent_notice) :=
  handled "Intent notice not found." (
    records ← getIntentNoticeRows id intentId;
    match records with [] => throw noticeNotFound | _ => mret records end).

Definition getIntentNoticesByEcosystemId (ecosystemId : string) (pageNumber pageSize : Z) (search : string) (intentId : option string)
    : eff world (list intent_notice * Z * Z) :=
  handled "Intent notice not found." (getIntentNoticesByEcosystemRows ecosystemId pageNumber pageSize search intentId).

Definition getIntentNoticeByIntentId (intentId : string) (orgId : option (option string)) : eff world (option intent_notice) :=
  handled "Intent notice not found." (getIntentNoticeRow intentId orgId).

(** The notice of a request, after the check that the user leads its ecosystem *)
Definition led_notice (id userId : string) : eff world intent_notice :=
  records ← getIntentNoticeRows (Some id) None;
  match records with
  | [] => throw noticeNotFound
  | notice :: _ =>
      found ← findIntentById (in_intentId notice);
      match found with
      | None => throw type_error
      | Some intent => _ ← validateEcosystemLead userId (it_ecosystemId intent); mret notice
      end
  end.

Definition updateIntentNotice (id : string) (noticeUrl : option string) (userId : string) : eff world (option intent_notice) :=
  handled "Error while updating intent notice." (
    url ← validateNoticeUrl noticeUrl;
    _ ← led_notice id userId;
    updateIntentNoticeRow id url userId).

Definition deleteIntentNotice (id userId : string) : eff world (option intent_notice) :=
  handled "Error while deleting intent notice." (
    _ ← led_notice id userId;
    deleteIntentNoticeRow id).

(** ** Messages *)

Inductive message :=
  | EcosystemMessage (m : Ecosystem.message)
  | CreateIntent (name : string) (description : option string) (ecosystemId userId : string)
  | UpdateIntent (intentId name : string) (description : option string) (ecosystemId userId : string)
  | DeleteIntent (ecosystemId intentId userId : string)
  | CreateIntentTemplate (orgId : option string) (intentId templateId userId : string)
  | UpdateIntentTemplate (id : string) (orgId : option string) (intentId templateId userId : string)
  | DeleteIntentTemplate (id : string)
  | CreateIntentNotice (intentId : string) (noticeUrl : option string) (userId : string) (orgId : option string)
  | UpdateIntentNotice (id : string) (noticeUrl : option string) (userId : string)
  | DeleteIntentNotice (id userId : string).

Definition done_ {A} (m : eff world A) : eff world unit := _ ← m; mret tt.

Definition handle (m : message) : eff world unit :=
  match m with
  | EcosystemMessage m => ecosystem (Ecosystem.handle m)
  | CreateIntent n d e u => done_ (createIntent n d e u)
  | UpdateIntent i n d e u => done_ (updateIntent i n d e u)
  | DeleteIntent e i u => done_ (deleteIntent e i u)
  | CreateIntentTemplate o i t u => done_ (createIntentTemplate o i t u)
  | UpdateIntentTemplate id o i t u => done_ (updateIntentTemplate id o i t u)
  | DeleteIntentTemplate id => done_ (deleteIntentTemplate id)
  | CreateIntentNotice i url u o => done_ (createIntentNotice i url u o)
  | UpdateIntentNotice id url u => done_ (updateIntentNotice id url u)
  | DeleteIntentNotice id u => done_ (deleteIntentNotice id u)
  end.
End service.
