(* ===== verification/IntentInvariant.v ===== *)
(** * Intents of ecosystems: what the messages keep

    [intents_ok] states the references and the uniqueness of intents, of their assignments
    and of their notices; every message keeps it ([kept_message]). *)

From S2P Require Import Prelude Js Table CommonUtils CredentialTemplates Ecosystem Intent IntentService.

Open Scope Z_scope.

#[local] Set Default Proof Using "All".

Section laws.
Context {P : Platform} {U : UuidSource} {N : Web}.

(** ** Ecosystems stay *)

Definition eco_grows (e e' : Ecosystem.world) : Prop :=
  (forall x, x ∈ ecosystems (db e) -> x ∈ ecosystems (db e')) /\ (drawn e <= drawn e')%nat.

#[export] Instance eco_grows_preorder : PreOrder eco_grows.
Proof. split; [by split|]. intros e e1 e2 [H1 D1] [H2 D2]. split; [auto | lia]. Qed.

Lemma grows_same e e' : ecosystems (db e') = ecosystems (db e) -> (drawn e <= drawn e')%nat -> eco_grows e e'.
Proof. intros H D. split; [by rewrite H | done]. Qed.
Lemma grows_now : frames eco_grows Ecosystem.now.
Proof. by intros e; apply grows_same. Qed.
Lemma grows_fresh : frames eco_grows Ecosystem.fresh.
Proof. by intros e; apply grows_same; [|simpl; lia]. Qed.
Lemma grows_placed c : frames eco_grows (Ecosystem.placed c).
Proof. by intros e; apply grows_same. Qed.
Lemma grows_read {A} (f : tables -> A) : frames eco_grows (read f).
Proof. by intros e. Qed.
Lemma grows_write f : (forall d, ecosystems (f d) = ecosystems d) -> frames eco_grows (write f).
Proof. intros H e. apply grows_same; [apply H | done]. Qed.
Lemma grows_invitations f : frames eco_grows (write (set_invitations f)).
Proof. by apply grows_write. Qed.
Lemma grows_orgs f : frames eco_grows (write (set_orgs f)).
Proof. by apply grows_write. Qed.
Lemma grows_rollback {A} (m : eff Ecosystem.world A) : frames eco_grows m -> frames eco_grows (transaction Ecosystem.rollback m).
Proof. intros Hm e. specialize (Hm e). unfold transaction. destruct (m e) as [[a|x] e']; [done|]. apply grows_same; [done | apply Hm]. Qed.
#[local] Hint Resolve grows_now grows_fresh grows_placed grows_read grows_invitations grows_orgs : platform.

Lemma grows_invitation email u by_ ty st ec org : frames eco_grows (createEcosystemInvitation email u by_ ty st ec org).
Proof. unfold createEcosystemInvitation. solve_frames. Qed.
Lemma grows_org o ec r u by_ : frames eco_grows (createEcosystemOrg o ec r u by_).
Proof. unfold createEcosystemOrg. solve_frames. Qed.
#[local] Hint Resolve grows_invitation grows_org : platform.
Lemma grows_new d : frames eco_grows (createNewEcosystem d).
Proof.
  unfold createNewEcosystem. do 2 (apply frames_bind; [exact _ | auto with platform | intros ?]).
  intros e. unfold read at 1. unfold gets. rewrite run_bind. cbv beta iota. set (k := fun _ : unit => _).
  assert (Hk : frames eco_grows (k tt)) by (subst k; solve_frames).
  rewrite run_bind. unfold write, modify. etrans; [|apply Hk]. split; [|done]. simpl. intros x Hx. apply elem_of_app. by left.
Qed.
Lemma grows_details email ec org : frames eco_grows (updateEcosystemInvitationDetails email ec org).
Proof. unfold updateEcosystemInvitationDetails. solve_frames. Qed.
Lemma grows_status email org ec st : frames eco_grows (updateEcosystemInvitationStatusByEmail email org ec st).
Proof. unfold updateEcosystemInvitationStatusByEmail. apply grows_rollback. solve_frames. Qed.
Lemma grows_keycloak r u o ec : frames eco_grows (updateKeycloakEcosystem r u o ec).
Proof. unfold updateKeycloakEcosystem, updateOrgServiceAccountEcosystem, when. solve_frames. Qed.
Lemma grows_get id : frames eco_grows (getEcosystemById id).
Proof. unfold getEcosystemById. solve_frames. Qed.
Lemma grows_lead u ec : frames eco_grows (isEcosystemLead u ec).
Proof. unfold isEcosystemLead. solve_frames. Qed.
Lemma grows_member ec org : frames eco_grows (getEcosystemOrg ec org).
Proof. unfold getEcosystemOrg. solve_frames. Qed.
#[local] Hint Resolve grows_new grows_details grows_status grows_keycloak grows_get grows_lead grows_member grows_rollback : platform.

Lemma grows_answer st u ec org : frames eco_grows (updateEcosystemInvitationStatus st u ec org).
Proof. unfold updateEcosystemInvitationStatus, getEcosystemInvitationsByEmail. solve_frames. Qed.
#[local] Hint Resolve grows_answer : platform.

Lemma grows_message m : frames eco_grows (Ecosystem.handle m).
Proof.
  destruct m; simpl; (apply frames_bind; [exact _ | | intros ?; by apply frames_ret; exact _]).
  - unfold inviteUserToCreateEcosystem, getPendingInvitationByEmail, sendInviteEmailTemplate, sendEmail. solve_frames.
  - unfold createEcosystem, rpc, findAcceptedInvitationByUserId, checkEcosystemNameExist. solve_frames. apply grows_rollback. solve_frames.
  - unfold inviteMemberToEcosystem, rpc, getEcosystemInvitationsByEmail, sendEmail. solve_frames.
  - solve_frames.
  - unfold deleteOrgsFromEcosystem, deleteOrgFromEcosystem, deleteEcosystemInvitationByOrgId. apply grows_rollback. solve_frames.
  - unfold updateEcosystemOrgStatus. solve_frames.
Qed.

(** ** What leaves the rows alone *)

Definition untouched (w w' : world) : Prop :=
  eco_grows (eco w) (eco w') /\ intents w' = intents w /\ intent_templates w' = intent_templates w /\
  intent_notices w' = intent_notices w /\ verification_templates w' = verification_templates w.

#[export] Instance untouched_preorder : PreOrder untouched.
Proof.
  split; [by intros w|]. intros w w1 w2 (G1 & A1 & B1 & C1 & D1) (G2 & A2 & B2 & C2 & D2). unfold untouched.
  rewrite A2, B2, C2, D2. split; [by etrans | done].
Qed.

Lemma untouched_ecosystem {A} (m : eff Ecosystem.world A) : frames eco_grows m -> frames untouched (ecosystem m).
Proof. intros Hm w. specialize (Hm (eco w)). unfold ecosystem. by destruct (m (eco w)) as [r e]. Qed.
Lemma untouched_now : frames untouched now.
Proof. apply untouched_ecosystem, grows_now. Qed.
Lemma untouched_fresh : frames untouched fresh.
Proof. apply untouched_ecosystem, grows_fresh. Qed.
Lemma untouched_fetch url : frames untouched (fetch url).
Proof. by intros w. Qed.
Lemma untouched_get : frames untouched get.
Proof. by intros w. Qed.
#[local] Hint Resolve untouched_now untouched_fresh untouched_fetch untouched_get untouched_ecosystem : platform.
Lemma untouched_url url : frames untouched (validateNoticeUrl url).
Proof. unfold validateNoticeUrl. solve_frames. Qed.
Lemma untouched_lead u ec : frames untouched (validateEcosystemLead u ec).
Proof. unfold validateEcosystemLead. solve_frames. Qed.
Lemma untouched_member ec org : frames untouched (check_member ec org).
Proof. unfold check_member, findEcosystemOrg. solve_frames. Qed.
#[local] Hint Resolve untouched_url untouched_lead untouched_member : platform.
Lemma untouched_led id u : frames untouched (led_notice id u).
Proof. unfold led_notice, getIntentNoticeRows, findIntentById. solve_frames. Qed.

(** The handler of a request does not write. *)
Lemma handled_state {A} d (m : eff world A) w : (handled d m w).2 = (m w).2.
Proof. unfold handled, try_catch. by destruct (m w) as [[a|e] w']. Qed.
Lemma handled_ok {A} d (m : eff world A) w a w' : handled d m w = (Ok a, w') -> m w = (Ok a, w').
Proof. unfold handled, try_catch. destruct (m w) as [[b|e] w1]; [done|]. intros H. by inversion H. Qed.

(** ** The invariant *)

Definition drawn_in (w : world) (id : string) : Prop := exists n, (n < drawn (eco w))%nat /\ id = uuid n.
Definition assignment (a : intent_template) := (ia_orgId a, ia_intentId a, ia_templateId a).
Definition notice_slot (n : intent_notice) := (in_intentId n, in_orgId n).
Definition has_intent (w : world) (id : string) : Prop := exists i, i ∈ intents w /\ it_id i = id.
Definition has_template (w : world) (id : string) : Prop := exists t, t ∈ verification_templates w /\ vt_id t = id.
Definition has_ecosystem (w : world) (id : string) : Prop := exists e, e ∈ ecosystems (db (eco w)) /\ eco_id e = id.

Record intents_ok (w : world) : Prop := IntentsOk {
  io_ids : NoDup (it_id <$> intents w);
  io_drawn i : i ∈ intents w -> drawn_in w (it_id i);
  io_home i : i ∈ intents w -> has_ecosystem w (it_ecosystemId i);
  io_assignment_ids : NoDup (ia_id <$> intent_templates w);
  io_assignment_drawn a : a ∈ intent_templates w -> drawn_in w (ia_id a);
  io_assignments : NoDup (assignment <$> intent_templates w);
  io_refers a : a ∈ intent_templates w -> has_intent w (ia_intentId a) /\ has_template w (ia_templateId a);
  io_notice_ids : NoDup (in_id <$> intent_notices w);
  io_notice_drawn n : n ∈ intent_notices w -> drawn_in w (in_id n);
  io_slots : NoDup (notice_slot <$> intent_notices w);
  io_noticed n : n ∈ intent_notices w -> has_intent w (in_intentId n);
}.

Lemma drawn_since w w' id : eco_grows (eco w) (eco w') -> drawn_in w id -> drawn_in w' id.
Proof. intros [_ H] (n & ? & ->). exists n. split; [lia | done]. Qed.
Lemma ecosystem_later w w' id : eco_grows (eco w) (eco w') -> has_ecosystem w id -> has_ecosystem w' id.
Proof. intros [H _] (e & He & <-). exists e. auto. Qed.

Definition kept_intents (w w' : world) : Prop := intents_ok w -> intents_ok w'.
#[export] Instance kept_intents_preorder : PreOrder kept_intents.
Proof. split; unfold kept_intents; [by intros w | intros w w1 w2; auto]. Qed.

Lemma untouched_kept w w' : untouched w w' -> kept_intents w w'.
Proof.
  intros (G & A & B & C & D) []. unfold has_intent, has_template in *.
  split; unfold has_intent, has_template; rewrite ?A, ?B, ?C, ?D; auto; intros x Hx; first [by eapply drawn_since; eauto | by eapply ecosystem_later; eauto].
Qed.

Lemma kept_intents_after {A B} (m : eff world A) (k : A -> eff world B) w : frames untouched m ->
  (forall a w1, m w = (Ok a, w1) -> untouched w w1 -> kept_intents w1 (k a w1).2) -> kept_intents w ((m ≫= k) w).2.
Proof.
  intros Hm Hk. rewrite run_bind. specialize (Hm w). destruct (m w) as [[a|e] w1] eqn:E; [|by apply untouched_kept].
  etrans; [by apply untouched_kept | by apply Hk].
Qed.

(** A new row *)
Lemma NoDup_fresh {R} (f : R -> string) (l : list R) x w : NoDup (f <$> l) -> (forall y, y ∈ l -> drawn_in w (f y)) -> f x = uuid (drawn (eco w)) ->
  NoDup (f <$> (l ++ [x])%list).
Proof.
  intros H Hd Hx. rewrite fmap_app. apply NoDup_app. split; [done|]. split; [|apply NoDup_singleton].
  intros s (y & -> & Hy)%list_elem_of_fmap Hs%list_elem_of_singleton. destruct (Hd y Hy) as (n & ? & E). rewrite E, Hx in Hs. apply uuid_inj in Hs. lia.
Qed.
Lemma drawn_new w w' : drawn (eco w') = S (drawn (eco w)) -> drawn_in w' (uuid (drawn (eco w))).
Proof. intros H. exists (drawn (eco w)). split; [lia | done]. Qed.

(** *** Rows are added *)

(** Drawing an identifier and reading the clock for a new row *)
Definition drew (w w' : world) : Prop := ecosystems (db (eco w')) = ecosystems (db (eco w)) /\ drawn (eco w') = S (drawn (eco w)).
Lemma drew_grows w w' : drew w w' -> eco_grows (eco w) (eco w').
Proof. intros [H D]. apply grows_same; [done | lia]. Qed.
#[local] Hint Resolve drew_grows drawn_since ecosystem_later : platform.

Lemma intent_added w w' i : drew w w' -> intents w' = (intents w ++ [i])%list -> intent_templates w' = intent_templates w ->
  intent_notices w' = intent_notices w -> verification_templates w' = verification_templates w ->
  it_id i = uuid (drawn (eco w)) -> has_ecosystem w (it_ecosystemId i) -> kept_intents w w'.
Proof.
  intros G A B C D Hid He [].
  assert (Hm : forall id, has_intent w id -> has_intent w' id).
  { intros id (x & Hx & <-). exists x. split; [|done]. rewrite A. apply elem_of_app. by left. }
  unfold has_template in *. split; unfold has_template; rewrite ?A, ?B, ?C, ?D; eauto with platform.
  - by eapply NoDup_fresh.
  - intros x [Hx| ->%list_elem_of_singleton]%elem_of_app; [eauto with platform|]. rewrite Hid. apply drawn_new, G.
  - intros x [Hx| ->%list_elem_of_singleton]%elem_of_app; eauto with platform.
  - intros a [H1 H2]%io_refers0. auto.
Qed.

Lemma assignment_added w w' a : drew w w' -> intents w' = intents w -> intent_templates w' = (intent_templates w ++ [a])%list ->
  intent_notices w' = intent_notices w -> verification_templates w' = verification_templates w ->
  ia_id a = uuid (drawn (eco w)) -> has_intent w (ia_intentId a) -> has_template w (ia_templateId a) ->
  (forall b, b ∈ intent_templates w -> assignment b <> assignment a) -> kept_intents w w'.
Proof.
  intros G A B C D Hid Hi Ht Hn [].
  unfold has_intent, has_template in *. split; unfold has_intent, has_template; rewrite ?A, ?B, ?C, ?D; eauto with platform.
  - by eapply NoDup_fresh.
  - intros x [Hx| ->%list_elem_of_singleton]%elem_of_app; [eauto with platform|]. rewrite Hid. apply drawn_new, G.
  - by apply NoDup_new.
  - intros x [Hx| ->%list_elem_of_singleton]%elem_of_app; auto.
Qed.

Lemma notice_added w w' n : drew w w' -> intents w' = intents w -> intent_templates w' = intent_templates w ->
  intent_notices w' = (intent_notices w ++ [n])%list -> verification_templates w' = verification_templates w ->
  in_id n = uuid (drawn (eco w)) -> has_intent w (in_intentId n) ->
  (forall m, m ∈ intent_notices w -> notice_slot m <> notice_slot n) -> kept_intents w w'.
Proof.
  intros G A B C D Hid Hi Hn [].
  unfold has_intent, has_template in *. split; unfold has_intent, has_template; rewrite ?A, ?B, ?C, ?D; eauto with platform.
  - by eapply NoDup_fresh.
  - intros x [Hx| ->%list_elem_of_singleton]%elem_of_app; [eauto with platform|]. rewrite Hid. apply drawn_new, G.
  - by apply NoDup_new.
  - intros x [Hx| ->%list_elem_of_singleton]%elem_of_app; auto.
Qed.

Lemma existsb_intent w id : existsb (intent_is id) (intents w) = true <-> has_intent w id.
Proof. rewrite existsb_elem. unfold has_intent, intent_is. by setoid_rewrite String.eqb_eq. Qed.
Lemma existsb_template w id : existsb (template_is id) (verification_templates w) = true <-> has_template w id.
Proof. rewrite existsb_elem. unfold has_template, template_is. by setoid_rewrite String.eqb_eq. Qed.
Lemma refers_spec i t w : refers i t w = true <-> has_intent w i /\ has_template w t.
Proof. unfold refers. by rewrite andb_true_iff, existsb_intent, existsb_template. Qed.

Ltac run_creation := unfold fresh, now, ecosystem, Ecosystem.fresh, Ecosystem.now, modify; rewrite !run_bind; simpl.

Lemma kept_createIntentRow n d by_ ec : frames kept_intents (createIntentRow n d by_ ec).
Proof.
  intros w. unfold createIntentRow. do 2 (case_match; [done|]). unfold get. rewrite run_bind. cbv beta iota.
  destruct (existsb _ _) eqn:E; [|done]. cbv beta iota delta [negb]. run_creation.
  eapply intent_added; try done. apply existsb_elem in E as (e & He & Hid%String.eqb_eq). by exists e.
Qed.

Lemma kept_createAssignment o i t by_ w : first (same_assignment o i t) (intent_templates w) = None ->
  kept_intents w (createIntentTemplateRow o i t by_ w).2.
Proof.
  intros Hn. unfold createIntentTemplateRow, get. rewrite run_bind. cbv beta iota.
  destruct (refers _ _ _) eqn:E; [|done]. cbv beta iota delta [negb]. apply refers_spec in E as [Hi Ht]. run_creation.
  eapply assignment_added; try done. rewrite first_None in Hn. intros b Hb [= E1 E2 E3]. specialize (Hn b Hb).
  unfold same_assignment in Hn. rewrite E1, E2, E3, bool_decide_true, !String.eqb_refl in Hn by done. done.
Qed.

Lemma kept_createNotice i url u o w : existsb (slot i o) (intent_notices w) = false -> o <> Some "" ->
  kept_intents w (createIntentNoticeRow i url u o w).2.
Proof.
  intros Hn Ho. unfold createIntentNoticeRow, gets. rewrite run_bind. cbv beta iota. destruct (existsb (intent_is i) (intents w)) eqn:E; [|done].
  cbv beta iota delta [negb]. apply existsb_intent in E. run_creation.
  assert (Eo : (if truthy_str o then o else None) = o) by (destruct o as [[|]|]; done).
  eapply notice_added; try done. rewrite Eo. intros m Hm [= E1 E2]. apply not_true_iff_false in Hn. apply Hn, existsb_elem. exists m. split; [done|].
  unfold slot. by rewrite E1, E2, String.eqb_refl, bool_decide_true.
Qed.

(** *** Rows change and go *)

Lemma intents_changed w w' : untouched (set_intents (intents w') w) w' -> it_id <$> intents w' = it_id <$> intents w ->
  (forall i, i ∈ intents w' -> exists i0, i0 ∈ intents w /\ it_id i = it_id i0 /\ it_ecosystemId i = it_ecosystemId i0) -> kept_intents w w'.
Proof.
  intros (G & _ & B & C & D) He Hi []. simpl in *.
  assert (Hm : forall id, has_intent w id -> has_intent w' id).
  { intros id (x & Hx & <-). apply (list_elem_of_fmap_2 it_id) in Hx. rewrite <- He in Hx. apply list_elem_of_fmap in Hx as (y & ? & ?). by exists y. }
  unfold has_template in *. split; unfold has_template; rewrite ?B, ?C, ?D, ?He; eauto with platform.
  - intros i (i0 & H0 & -> & _)%Hi. eauto with platform.
  - intros i (i0 & H0 & _ & ->)%Hi. eauto with platform.
  - intros a [H1 H2]%io_refers0. auto.
Qed.

Lemma kept_updateIntentRow i n d by_ : frames kept_intents (updateIntentRow i n d by_).
Proof.
  unfold updateIntentRow. case_match; [by apply frames_throw; exact _|].
  apply frames_bind; [exact _ | eapply frames_mono; [apply untouched_kept | apply untouched_now] | intros t]. intros w.
  unfold gets, modify. rewrite run_bind. cbv beta iota. case_match; [|done]. rewrite run_bind. simpl. apply intents_changed.
  - done.
  - simpl. by rewrite fmap_update_where.
  - simpl. intros x (y & Hy & ->)%elem_of_update_where. exists y. by case_match.
Qed.

Lemma kept_deleteIntent ec i u : frames kept_intents (deleteIntent ec i u).
Proof.
  intros w. unfold deleteIntent, get, put. rewrite run_bind. cbv beta iota. case_match; [|done]. destruct (referenced i w) eqn:E; [done|].
  rewrite run_bind. simpl. apply orb_false_iff in E as [E1 E2]. intros [].
  assert (Hm : forall id, has_intent w id -> id <> i -> has_intent (set_intents (List.filter (fun x => negb (intent_in ec i x)) (intents w)) w) id).
  { intros id (x & Hx & <-) Hne. exists x. split; [|done]. apply elem_of_filter_b. split; [done|]. unfold intent_in, intent_is.
    by apply String.eqb_neq in Hne as ->. }
  split; simpl; auto.
  - by apply filter_NoDup.
  - intros x [Hx _]%elem_of_filter_b. apply (io_drawn0 x Hx).
  - intros x [Hx _]%elem_of_filter_b. apply (io_home0 x Hx).
  - intros a Ha. destruct (io_refers0 a Ha) as [H1 H2]. split; [|done]. apply Hm; [done|]. intros Ei. apply not_true_iff_false in E1. apply E1, existsb_elem.
    exists a. by rewrite String.eqb_eq.
  - intros n Hn. apply Hm; [auto|]. intros Ei. apply not_true_iff_false in E2. apply E2, existsb_elem. exists n. by rewrite String.eqb_eq.
Qed.

(** The row that would be assigned twice is the one that changes. *)
Lemma kept_updateAssignment id o i t by_ w :
  match first (same_assignment o i t) (intent_templates w) with Some d => ia_id d = id | None => True end ->
  kept_intents w (updateIntentTemplateRow id o i t by_ w).2.
Proof.
  intros Hd. unfold updateIntentTemplateRow, now, ecosystem, Ecosystem.now, get, put. rewrite !run_bind. cbn [intent_templates]. destruct (first (ia_is id) _); [|by apply untouched_kept].
  destruct (refers _ _ _) eqn:E; [|by apply untouched_kept]. cbv beta iota delta [negb]. apply refers_spec in E as [Hi Ht]. rewrite run_bind. simpl. intros [].
  unfold has_intent, has_template in *. split; simpl; auto.
  - by rewrite fmap_update_where.
  - intros a (b & Hb & ->)%elem_of_update_where. destruct (ia_is id b); apply (io_assignment_drawn0 b Hb).
  - apply (NoDup_update assignment ia_id _ _ _ (o, i, t)); auto.
    + intros a b _ _ Ha%String.eqb_eq Hb%String.eqb_eq. congruence.
    + intros a Ha Hna [= E1 E2 E3].
      assert (Hs : same_assignment o i t a = true) by (unfold same_assignment; by rewrite E1, E2, E3, !String.eqb_refl, bool_decide_true).
      destruct (first _ _) as [d|] eqn:Ef; [|rewrite first_None in Ef; rewrite Ef in Hs; done].
      apply first_Some in Ef as [Hdin Hds]. assert (a = d) as ->; [|unfold ia_is in Hna; by rewrite Hd, String.eqb_refl in Hna].
      unfold same_assignment in Hds. apply andb_true_iff in Hds as [[H1%bool_decide_eq_true H2%String.eqb_eq]%andb_true_iff H3%String.eqb_eq].
      apply list_elem_of_lookup in Ha as [m Hm], Hdin as [m' Hm']. assert (m = m') as <-; [|congruence].
      eapply NoDup_lookup; [exact io_assignments0 | by rewrite list_lookup_fmap, Hm | rewrite list_lookup_fmap, Hm'; simpl; unfold assignment; by rewrite H1, H2, H3, E1, E2, E3].
  - intros a (b & Hb & ->)%elem_of_update_where. destruct (ia_is id b); [by split | apply (io_refers0 b Hb)].
Qed.

Lemma kept_deleteAssignment id : frames kept_intents (deleteIntentTemplateRow id).
Proof.
  intros w. unfold deleteIntentTemplateRow, gets, modify. rewrite run_bind. cbv beta iota. case_match; [|done]. rewrite run_bind. simpl. intros [].
  split; simpl; auto; first [by apply filter_NoDup | intros x [Hx _]%elem_of_filter_b; auto; first [apply (io_assignment_drawn0 x Hx) | apply (io_notice_drawn0 x Hx) | apply (io_refers0 x Hx) | apply (io_noticed0 x Hx)]].
Qed.

Lemma kept_updateNotice id url u : frames kept_intents (updateIntentNoticeRow id url u).
Proof.
  intros w. unfold updateIntentNoticeRow, gets, modify. rewrite run_bind. cbv beta iota. case_match; [|done]. rewrite run_bind. simpl. intros [].
  split; simpl; auto.
  - by rewrite fmap_update_where.
  - intros x (y & Hy & ->)%elem_of_update_where. case_match; apply (io_notice_drawn0 y Hy).
  - by rewrite fmap_update_where.
  - intros x (y & Hy & ->)%elem_of_update_where. case_match; apply (io_noticed0 y Hy).
Qed.

Lemma kept_deleteNotice id : frames kept_intents (deleteIntentNoticeRow id).
Proof.
  intros w. unfold deleteIntentNoticeRow, gets, modify. rewrite run_bind. cbv beta iota. case_match; [|done]. rewrite run_bind. simpl. intros [].
  split; simpl; auto; first [by apply filter_NoDup | intros x [Hx _]%elem_of_filter_b; auto; first [apply (io_assignment_drawn0 x Hx) | apply (io_notice_drawn0 x Hx) | apply (io_refers0 x Hx) | apply (io_noticed0 x Hx)]].
Qed.
End laws.

(** * Intents of ecosystems: the rows after any messages *)

Open Scope Z_scope.

#[local] Set Default Proof Using "All".

Section laws.
Context {P : Platform} {U : UuidSource} {N : Web}.

#[local] Hint Resolve untouched_now untouched_fresh untouched_get untouched_url untouched_lead untouched_member untouched_led : platform.

Lemma kept_of_untouched {A} (m : eff world A) : frames untouched m -> frames kept_intents m.
Proof. apply frames_mono. intros w w'. apply untouched_kept. Qed.
Lemma kept_handled {A} d (m : eff world A) : frames kept_intents m -> frames kept_intents (handled d m).
Proof. intros H w. rewrite handled_state. apply H. Qed.

Lemma kept_assignTemplate o i t u : frames kept_intents (createIntentTemplate o i t u).
Proof.
  unfold createIntentTemplate. apply kept_handled. intros w. unfold findIntentById, gets. rewrite run_bind. cbv beta iota.
  destruct (first _ _) as [it|]; [|done]. apply kept_intents_after; [auto with platform|]. intros [] w1 _ _.
  unfold findIntentTemplate, gets. rewrite run_bind. cbv beta iota. destruct (first _ _) eqn:E; [done|]. by apply kept_createAssignment.
Qed.

Lemma kept_reassignTemplate id o i t u : frames kept_intents (updateIntentTemplate id o i t u).
Proof.
  unfold updateIntentTemplate. apply kept_handled. intros w. do 2 (case_match; [done|]). unfold getIntentTemplateRow, gets. rewrite run_bind. cbv beta iota.
  destruct (first _ _); [|done]. unfold findIntentTemplate, gets. rewrite run_bind. cbv beta iota.
  destruct (first (same_assignment _ _ _) _) as [d|] eqn:E.
  - destruct (String.eqb (ia_id d) id) eqn:Eid; [|done]. simpl. apply kept_updateAssignment. rewrite E. by apply String.eqb_eq.
  - apply kept_updateAssignment. by rewrite E.
Qed.

Lemma kept_createIntent n d ec u : frames kept_intents (createIntent n d ec u).
Proof.
  unfold createIntent, checkIntentExist. apply frames_bind; [exact _ | | intros ?; apply kept_createIntentRow]. apply kept_handled, kept_of_untouched.
  apply frames_bind; [exact _ | apply untouched_ecosystem, grows_get | intros ?]. solve_frames.
Qed.

Lemma kept_updateIntent i n d ec u : frames kept_intents (updateIntent i n d ec u).
Proof.
  unfold updateIntent, checkIntentExist. apply kept_handled. case_match; [by apply frames_throw; exact _|].
  apply frames_bind; [exact _ | by apply frames_gets; exact _ | intros x]. case_match; [by apply frames_throw; exact _ | apply kept_updateIntentRow].
Qed.

Lemma kept_createIntentNotice i url u o : o <> Some "" -> frames kept_intents (createIntentNotice i url u o).
Proof.
  intros Ho. unfold createIntentNotice. apply kept_handled. intros w. apply kept_intents_after; [auto with platform|]. intros url' w1 _ _.
  unfold findIntentById, gets. rewrite run_bind. cbv beta iota. destruct (first _ _) as [it|]; [|done].
  apply kept_intents_after; [auto with platform|]. intros [] w2 _ _. apply kept_intents_after.
  { case_match; [by apply frames_ret; exact _|]. apply frames_bind; [exact _ | apply untouched_ecosystem, grows_member | intros ?]. solve_frames. }
  intros [] w3 _ _. unfold intentNoticeExists, gets. rewrite run_bind. cbv beta iota. destruct (existsb _ _) eqn:E; [done|]. by apply kept_createNotice.
Qed.

Lemma kept_updateIntentNotice id url u : frames kept_intents (updateIntentNotice id url u).
Proof.
  unfold updateIntentNotice. apply kept_handled. apply frames_bind; [exact _ | apply kept_of_untouched; auto with platform | intros ?].
  apply frames_bind; [exact _ | apply kept_of_untouched; auto with platform | intros ?]. apply kept_updateNotice.
Qed.
Lemma kept_deleteIntentNotice id u : frames kept_intents (deleteIntentNotice id u).
Proof.
  unfold deleteIntentNotice. apply kept_handled. apply frames_bind; [exact _ | apply kept_of_untouched; auto with platform | intros ?].
  apply kept_deleteNotice.
Qed.

(** Organizations are named by identifiers, which are not empty. *)
Definition named_org (m : message) : Prop := match m with CreateIntentNotice _ _ _ o => o <> Some "" | _ => True end.

Lemma kept_message m : named_org m -> frames kept_intents (handle m).
Proof.
  intros Hm. destruct m; simpl in *; unfold done_; try (apply frames_bind; [exact _ | | intros ?; by apply frames_ret; exact _]).
  - apply kept_of_untouched, untouched_ecosystem, grows_message.
  - apply kept_createIntent.
  - apply kept_updateIntent.
  - apply kept_deleteIntent.
  - apply kept_assignTemplate.
  - apply kept_reassignTemplate.
  - apply kept_handled, kept_deleteAssignment.
  - by apply kept_createIntentNotice.
  - apply kept_updateIntentNotice.
  - apply kept_deleteIntentNotice.
Qed.

(** ** Names *)

Definition names_ok (w : world) : Prop := forall i i', i ∈ intents w -> i' ∈ intents w ->
  it_ecosystemId i = it_ecosystemId i' -> same_text (it_name i) (it_name i') = true -> it_id i = it_id i'.

(** A message about the name of an intent: the name is trimmed, as the gateway makes it, and
    the ecosystem is the one of the intent. *)
Definition names_own (m : message) (w : world) : Prop :=
  match m with
  | CreateIntent n _ _ _ => Str.trim n = n
  | UpdateIntent i n _ ec _ => Str.trim n = n /\ forall x, x ∈ intents w -> it_id x = i -> it_ecosystemId x = ec
  | _ => True
  end.

(** Nothing is named *)
Definition unnamed (w w' : world) : Prop := forall i, i ∈ intents w' -> i ∈ intents w.
#[local] Instance unnamed_preorder : PreOrder unnamed.
Proof. split; [by intros w i|]. intros w w1 w2 H1 H2 i Hi. auto. Qed.
Lemma unnamed_names w w' : unnamed w w' -> names_ok w -> names_ok w'.
Proof. intros H Hn i i' Hi Hi'. apply Hn; auto. Qed.
Lemma unnamed_quiet {A} (m : eff world A) : (forall w, intents (m w).2 = intents w) -> frames unnamed m.
Proof. intros H w i. by rewrite H. Qed.
Lemma unnamed_ends {A} (m : eff world A) : frames unnamed m -> frames unnamed (done_ m).
Proof. intros H. apply frames_bind; [exact _ | done | intros ?; apply frames_ret; exact _]. Qed.
Lemma unnamed_handled {A} d (m : eff world A) : frames unnamed m -> frames unnamed (handled d m).
Proof. intros H w. rewrite handled_state. apply H. Qed.

Lemma unnamed_assign o i t by_ : frames unnamed (createIntentTemplateRow o i t by_).
Proof. apply unnamed_quiet. intros w. unfold createIntentTemplateRow, get. rewrite run_bind. cbv beta iota. by case_match. Qed.
Lemma unnamed_reassign id o i t by_ : frames unnamed (updateIntentTemplateRow id o i t by_).
Proof.
  apply unnamed_quiet. intros w. unfold updateIntentTemplateRow, now, ecosystem, Ecosystem.now, get, put. rewrite !run_bind. cbn [intent_templates].
  case_match; [|done]. by case_match.
Qed.
Lemma unnamed_unassign id : frames unnamed (deleteIntentTemplateRow id).
Proof. apply unnamed_quiet. intros w. unfold deleteIntentTemplateRow, gets, modify. rewrite run_bind. cbv beta iota. by case_match. Qed.
Lemma unnamed_notice i url u o : frames unnamed (createIntentNoticeRow i url u o).
Proof. apply unnamed_quiet. intros w. unfold createIntentNoticeRow, gets. rewrite run_bind. cbv beta iota. by case_match. Qed.
Lemma unnamed_url id url u : frames unnamed (updateIntentNoticeRow id url u).
Proof. apply unnamed_quiet. intros w. unfold updateIntentNoticeRow, gets, modify. rewrite run_bind. cbv beta iota. by case_match. Qed.
Lemma unnamed_silence id : frames unnamed (deleteIntentNoticeRow id).
Proof. apply unnamed_quiet. intros w. unfold deleteIntentNoticeRow, gets, modify. rewrite run_bind. cbv beta iota. by case_match. Qed.
Lemma unnamed_delete ec i u : frames unnamed (deleteIntent ec i u).
Proof.
  intros w. unfold deleteIntent, get, put. rewrite run_bind. cbv beta iota. case_match; [|done]. case_match; [done|]. rewrite run_bind. simpl.
  by intros x [Hx _]%elem_of_filter_b.
Qed.
Lemma unnamed_ecosystem {A} (m : eff Ecosystem.world A) : frames unnamed (ecosystem m).
Proof. apply unnamed_quiet. intros w. unfold ecosystem. by destruct (m (eco w)). Qed.
Lemma unnamed_fetch url : frames unnamed (fetch url).
Proof. by apply unnamed_quiet. Qed.
#[local] Hint Resolve unnamed_assign unnamed_reassign unnamed_unassign unnamed_notice unnamed_url unnamed_silence unnamed_delete unnamed_ecosystem unnamed_fetch
  unnamed_handled : platform.

Definition names_nothing (m : message) : Prop := match m with CreateIntent _ _ _ _ | UpdateIntent _ _ _ _ _ => False | _ => True end.

Lemma unnamed_message m : names_nothing m -> frames unnamed (handle m).
Proof.
  destruct m; try done; intros _; simpl; try apply unnamed_ends.
  - auto with platform.
  - auto with platform.
  - unfold createIntentTemplate, findIntentById, findIntentTemplate, check_member, findEcosystemOrg. apply unnamed_handled. solve_frames.
  - unfold updateIntentTemplate, getIntentTemplateRow, findIntentTemplate. apply unnamed_handled. solve_frames.
  - unfold deleteIntentTemplate. auto with platform.
  - unfold createIntentNotice, validateNoticeUrl, validateEcosystemLead, findIntentById, intentNoticeExists. apply unnamed_handled. solve_frames.
  - unfold updateIntentNotice, validateNoticeUrl, led_notice, validateEcosystemLead, getIntentNoticeRows, findIntentById. apply unnamed_handled. solve_frames.
  - unfold deleteIntentNotice, led_notice, validateEcosystemLead, getIntentNoticeRows, findIntentById. apply unnamed_handled. solve_frames.
Qed.

Lemma same_text_spec a b : same_text a b = true <-> Str.toLowerCase a = Str.toLowerCase b.
Proof. apply String.eqb_eq. Qed.

(** An intent that the check overlooks is no other of the same name. *)
Lemma not_taken n ec ex w i : first (intent_taken n ec ex) (intents w) = None -> Str.trim n = n -> i ∈ intents w ->
  it_ecosystemId i = ec -> same_text (it_name i) n = true -> truthy_str ex = true /\ ex = Some (it_id i).
Proof.
  rewrite first_None. intros Hf Hn Hi He Ht. specialize (Hf i Hi). unfold intent_taken in Hf. rewrite He, String.eqb_refl, Hn, Ht in Hf. simpl in Hf.
  apply negb_false_iff, andb_true_iff in Hf as [H1 H2%String.eqb_eq]. split; [done|]. destruct ex; [by rewrite H2 | done].
Qed.

Lemma names_createIntent n d ec u w : Str.trim n = n -> names_ok w -> names_ok (createIntent n d ec u w).2.
Proof.
  intros Hn Hw. unfold createIntent. set (pre := handled _ _).
  assert (Hpre : frames unnamed pre) by (apply unnamed_handled; unfold checkIntentExist; solve_frames).
  rewrite run_bind. specialize (Hpre w). destruct (pre w) as [[[]|e] w1] eqn:E; [|by eapply unnamed_names].
  assert (Hf : first (intent_taken n ec None) (intents w1) = None).
  { unfold pre in E. apply handled_ok in E. apply bind_ok_inv in E as (e & w0 & _ & E). unfold checkIntentExist, gets in E. rewrite run_bind in E.
    cbv beta iota in E. case_match eqn:Ef; [done|]. by inversion E; subst. }
  apply unnamed_names in Hpre; [|done]. clear pre E. unfold createIntentRow. do 2 (case_match; [done|]). unfold get. rewrite run_bind. cbv beta iota.
  case_match; [done|]. unfold fresh, now, ecosystem, Ecosystem.fresh, Ecosystem.now, modify. rewrite !run_bind. simpl. unfold names_ok. simpl.
  intros i i' [Hi| ->%list_elem_of_singleton]%elem_of_app [Hi'| ->%list_elem_of_singleton]%elem_of_app He Ht; [by apply Hpre|..|done]; simpl in *.
  - by destruct (not_taken _ _ _ _ _ Hf Hn Hi He Ht).
  - rewrite same_text_spec in Ht. destruct (not_taken _ _ _ _ i' Hf Hn Hi' (eq_sym He)); [by apply same_text_spec | done].
Qed.

Lemma names_updateIntent i n d ec u w : Str.trim n = n -> (forall x, x ∈ intents w -> it_id x = i -> it_ecosystemId x = ec) ->
  names_ok w -> names_ok (updateIntent i n d ec u w).2.
Proof.
  intros Hn Hec Hw. unfold updateIntent. rewrite handled_state. case_match; [done|]. unfold checkIntentExist, gets. rewrite run_bind. cbv beta iota.
  case_match eqn:Ef; [done|]. unfold updateIntentRow. case_match; [done|]. unfold now, ecosystem, Ecosystem.now, gets, modify. rewrite !run_bind.
  cbn [intents]. case_match; [|done]. rewrite run_bind. simpl. unfold names_ok. simpl.
  intros x y (x0 & Hx & ->)%elem_of_update_where (y0 & Hy & ->)%elem_of_update_where. unfold intent_is.
  destruct (String.eqb_spec (it_id x0) i) as [Ex|Ex], (String.eqb_spec (it_id y0) i) as [Ey|Ey]; simpl; intros He Ht; [congruence| | |by apply Hw].
  - rewrite same_text_spec in Ht. destruct (not_taken _ _ _ _ y0 Ef Hn Hy) as [_ [= ?]]; [rewrite <- He; by apply Hec | by apply same_text_spec | congruence].
  - destruct (not_taken _ _ _ _ x0 Ef Hn Hx) as [_ [= ?]]; [rewrite He; by apply Hec | done | congruence].
Qed.

Lemma names_message m w : names_own m w -> names_ok w -> names_ok (handle m w).2.
Proof.
  intros Hm Hw. assert (Hd : forall A (k : eff world A), (done_ k w).2 = (k w).2).
  { intros A k. unfold done_. rewrite run_bind. by destruct (k w) as [[a|e] w1]. }
  destruct m; try (eapply unnamed_names; [by apply unnamed_message | done]); simpl in *; rewrite Hd.
  - by apply names_createIntent.
  - destruct Hm. by apply names_updateIntent.
Qed.

(** ** Histories *)

Definition served (ms : list message) (w : world) : world := fold_left (fun w m => (handle m w).2) ms w.
Fixpoint orderly (ms : list message) (w : world) : Prop :=
  match ms with
  | [] => True
  | m :: ms' => names_own m w /\ orderly ms' (handle m w).2
  end.

Lemma served_ok ms w : Forall named_org ms -> intents_ok w -> intents_ok (served ms w).
Proof.
  intros H. revert w. induction H as [|m ms Hm _ IH]; intros w Hw; [done|]. by apply IH, kept_message.
Qed.
Lemma served_names ms w : orderly ms w -> names_ok w -> names_ok (served ms w).
Proof. revert w. induction ms as [|m ms IH]; intros w; [done|]. intros [H Hms] Hw. by apply IH, names_message. Qed.
End laws.
