(* ===== verification/IntentProofs.v ===== *)
(** * Intents of ecosystems: theorems *)

From S2P Require Import Prelude Js Table CommonUtils CredentialTemplates Ecosystem Intent IntentService IntentInvariant.

Open Scope Z_scope.

#[local] Set Default Proof Using "All".

(** ** The template of an intent *)

(** An assignment that answers for an organization: its own or the one for all *)
Definition answers (intentName org : string) (ecosystemId : option string) (w : world) (a : intent_template) : Prop :=
  a ∈ intent_templates w /\ serves intentName ecosystemId (intents w) a = true /\ (ia_orgId a = Some org \/ ia_orgId a = None).

(** The head of a sorted list is before the others, where the order is transitive. *)
Lemma sorted_head {R} (le : R -> R -> bool) (l : list R) x y : (forall a b c, le a b = true -> le b c = true -> le a c = true) ->
  (forall a, le a a = true) -> Sorted (fun a b => le a b = true) l -> hd_error l = Some x -> y ∈ l -> le x y = true.
Proof.
  intros Ht Hr Hs. destruct l as [|z l]; [done|]. intros [= <-]. apply Sorted_StronglySorted in Hs; [|intros a b c; apply Ht].
  inversion Hs as [|? ? _ Hf]; subst. intros [->|Hy]%elem_of_cons; [done|]. rewrite Forall_forall in Hf. by apply Hf.
Qed.

Definition nulls_last (a b : intent_template) : bool :=
  match ia_orgId b with None => true | Some _ => match ia_orgId a with Some _ => true | None => false end end.
Lemma nulls_last_refl a : nulls_last a a = true.
Proof. unfold nulls_last. by destruct (ia_orgId a). Qed.
Lemma nulls_last_total a b : nulls_last a b = true \/ nulls_last b a = true.
Proof. unfold nulls_last. destruct (ia_orgId a), (ia_orgId b); auto. Qed.
Lemma nulls_last_trans a b c : nulls_last a b = true -> nulls_last b c = true -> nulls_last a c = true.
Proof. unfold nulls_last. by destruct (ia_orgId a), (ia_orgId b), (ia_orgId c). Qed.

(** Among the answers the order only puts those of the organization first. *)
Lemma sort_by_ext {R} (le le' : R -> R -> bool) (l : list R) : (forall a b, a ∈ l -> b ∈ l -> le a b = le' a b) -> sort_by le l = sort_by le' l.
Proof.
  induction l as [|x l IH]; intros H; [done|]. simpl.
  assert (IH' : sort_by le l = sort_by le' l) by (apply IH; intros a b Ha Hb; apply H; by right). rewrite IH'.
  assert (Hin : forall y, y ∈ sort_by le' l -> le x y = le' x y) by (intros y Hy%elem_of_sort_by; apply H; [left | by right]).
  revert Hin. generalize (sort_by le' l). intros t. induction t as [|y t IHt]; intros Hin; simpl; [done|]. rewrite (Hin y) by left.
  case_match; [done|]. rewrite IHt; [done|]. intros z Hz. apply Hin. by right.
Qed.

(** The template that a verifier is given for an intent is its own if there is one,
    else one that is for all organizations, and none only if there is neither. *)
Theorem template_selected intentName org ecosystemId w :
  match template_for intentName org ecosystemId w with
  | Some a => answers intentName org ecosystemId w a /\
      (ia_orgId a = None -> forall b, answers intentName org ecosystemId w b -> ia_orgId b = None)
  | None => forall b, ~ answers intentName org ecosystemId w b
  end.
Proof.
  unfold template_for. set (l := List.filter _ _).
  assert (Hl : forall b, b ∈ l <-> answers intentName org ecosystemId w b).
  { intros b. unfold l, answers. by rewrite elem_of_filter_b, andb_true_iff, orb_true_iff, !bool_decide_eq_true. }
  destruct (hd_error _) as [a|] eqn:Ha.
  - assert (Hin : a ∈ sort_by org_desc l) by (destruct (sort_by org_desc l); [done|]; injection Ha as ->; left). split.
    + apply Hl. by apply elem_of_sort_by in Hin.
    + intros Hnone b Hb%Hl. assert (Hs : sort_by org_desc l = sort_by nulls_last l).
      { apply sort_by_ext. intros x y (_ & _ & Hx)%Hl (_ & _ & Hy)%Hl. unfold org_desc, nulls_last.
        destruct Hx as [->| ->], Hy as [->| ->]; try done. by destruct (String.leb_total org org). }
      rewrite Hs in Ha. apply (elem_of_sort_by nulls_last) in Hb.
      pose proof (sorted_head _ _ _ _ nulls_last_trans nulls_last_refl (sort_by_sorted _ l nulls_last_total) Ha Hb) as H.
      unfold nulls_last in H. rewrite Hnone in H. by destruct (ia_orgId b).
  - intros b Hb%Hl. apply (elem_of_sort_by org_desc) in Hb. destruct (sort_by org_desc l); [by apply elem_of_nil in Hb | done].
Qed.

(** ** What messages achieve *)

Section laws.
Context {P : Platform} {U : UuidSource} {N : Web}.

(** An assignment that is made is for an intent of an ecosystem, and names an active member
    of it or none. *)
Definition assigned_in (w : world) (o : option string) (intentId : string) : Prop :=
  exists i, i ∈ intents w /\ it_id i = intentId /\
  (truthy_str o = true -> exists m, m ∈ ecosystem_orgs (db (eco w)) /\ same_pair (default "" o) (it_ecosystemId i) m = true /\ eo_status m = ACTIVE).

(** A template is assigned to an intent only for an active member of the ecosystem of
    that intent, or for all; the row is added to the assignments and repeats none. *)
Theorem createIntentTemplate_assigned o i t u w a w' : createIntentTemplate o i t u w = (Ok a, w') ->
  assigned_in w o i /\ has_template w t /\ intent_templates w' = (intent_templates w ++ [a])%list /\ assignment a = (o, i, t) /\
  assignment a ∉ assignment <$> intent_templates w.
Proof.
  intros H. unfold createIntentTemplate in H. apply handled_ok in H. unfold findIntentById, gets in H. rewrite run_bind in H. cbv beta iota in H.
  destruct (first (intent_is i) _) as [it|] eqn:Ei; [|done]. apply first_Some in Ei as [Hi Eid%String.eqb_eq].
  apply bind_ok_inv in H as ([] & w1 & Hm & H).
  assert (w1 = w /\ assigned_in w o i) as [-> Has].
  { unfold check_member, findEcosystemOrg, gets in Hm. destruct (truthy_str o) eqn:Eo; simpl in Hm.
    - rewrite run_bind in Hm. cbv beta iota in Hm. destruct (first (same_pair _ _) _) as [m|] eqn:Em; [|done].
      destruct (eo_status m) eqn:Es; [|done]. injection Hm as <-. split; [done|]. exists it. split_and!; [done|done|]. intros _.
      apply first_Some in Em as [? ?]. by exists m.
    - injection Hm as <-. split; [done|]. exists it. split_and!; [done|done|congruence]. }
  unfold findIntentTemplate, gets in H. rewrite run_bind in H. cbv beta iota in H. destruct (first (same_assignment _ _ _) _) eqn:Ef; [done|].
  unfold createIntentTemplateRow, get in H. rewrite run_bind in H. cbv beta iota in H. destruct (refers _ _ _) eqn:Er; [|done].
  apply refers_spec in Er as [_ Ht]. cbv beta iota delta [negb] in H. unfold fresh, now, ecosystem, Ecosystem.fresh, Ecosystem.now, modify in H.
  rewrite !run_bind in H. simpl in H. injection H as <- <-. split_and!; [done|done|done|done|]. intros (b & Eb & Hb)%list_elem_of_fmap.
  rewrite first_None in Ef. specialize (Ef b Hb). unfold same_assignment in Ef. injection Eb as E1 E2 E3.
  rewrite <- E1, <- E2, <- E3, bool_decide_true, !String.eqb_refl in Ef by done. done.
Qed.

(** After any messages, intents have their own identifiers and an ecosystem, a template
    is assigned to an intent at most once for an organization or for all, to an intent and a
    template that exist, and an organization has at most one notice for an intent; and the
    intents of an ecosystem have different names if they are named for it. *)
Theorem intents_kept ms e ts : Forall named_org ms ->
  let w := World e [] [] [] ts [] in
  intents_ok (served ms w) /\ (orderly ms w -> names_ok (served ms w)).
Proof.
  intros Hms w. split.
  - apply served_ok; [done|]. split; simpl; first [by constructor | intros x Hx; by apply elem_of_nil in Hx].
  - intros Ho. apply served_names; [done|]. intros i i' Hi. by apply elem_of_nil in Hi.
Qed.

(** ** Notices *)

(** What a computation that does not touch the notices leaves *)
Definition still (w w' : world) : Prop := db (eco w') = db (eco w) /\ intents w' = intents w /\ intent_notices w' = intent_notices w.
#[local] Instance still_preorder : PreOrder still.
Proof. split; [by intros w|]. intros w w1 w2 (A1 & B1 & C1) (A2 & B2 & C2). unfold still. by rewrite A2, B2, C2. Qed.

Definition changes (n : intent_notice) (w w' : world) : Prop := ~ (n ∈ intent_notices w <-> n ∈ intent_notices w').
Definition silent (w w' : world) : Prop := intent_notices w' = intent_notices w.
#[local] Instance silent_preorder : PreOrder silent.
Proof. split; [by intros w|]. intros w w1 w2 A1 A2. unfold silent. by rewrite A2. Qed.
Lemma silent_changes n w w' : silent w w' -> ~ changes n w w'.
Proof. unfold silent, changes. intros ->. tauto. Qed.

Lemma changes_after {A B} (m : eff world A) (k : A -> eff world B) n w : frames still m -> changes n w ((m ≫= k) w).2 ->
  exists a w1, m w = (Ok a, w1) /\ still w w1 /\ changes n w1 (k a w1).2.
Proof.
  intros Hm. specialize (Hm w). rewrite run_bind. destruct (m w) as [[a|x] w1]; simpl in Hm; destruct Hm as (A1 & B1 & C1); intros H.
  - exists a, w1. split_and!; [done|done|]. unfold changes in *. by rewrite C1.
  - destruct (silent_changes n w w1 C1 H).
Qed.
Lemma changes_end {A} (m : eff world A) n w : changes n w (done_ m w).2 -> changes n w (m w).2.
Proof. unfold done_. rewrite run_bind. by destruct (m w) as [[a|x] w1]. Qed.

Lemma silent_ecosystem {A} (m : eff Ecosystem.world A) : frames silent (ecosystem m).
Proof. intros w. unfold ecosystem. by destruct (m (eco w)). Qed.
Lemma silent_intent n d by_ ec : frames silent (createIntentRow n d by_ ec).
Proof. intros w. unfold createIntentRow. do 2 (case_match; [done|]). unfold get. rewrite run_bind. cbv beta iota. by case_match. Qed.
Lemma silent_updateIntent i n d by_ : frames silent (updateIntentRow i n d by_).
Proof.
  intros w. unfold updateIntentRow. case_match; [done|]. unfold now, ecosystem, Ecosystem.now, gets, modify. rewrite !run_bind. cbn [intents]. by case_match.
Qed.
Lemma silent_deleteIntent ec i u : frames silent (deleteIntent ec i u).
Proof. intros w. unfold deleteIntent, get, put. rewrite run_bind. cbv beta iota. case_match; [|done]. by case_match. Qed.
Lemma silent_assign o i t by_ : frames silent (createIntentTemplateRow o i t by_).
Proof. intros w. unfold createIntentTemplateRow, get. rewrite run_bind. cbv beta iota. by case_match. Qed.
Lemma silent_reassign id o i t by_ : frames silent (updateIntentTemplateRow id o i t by_).
Proof.
  intros w. unfold updateIntentTemplateRow, now, ecosystem, Ecosystem.now, get, put. rewrite !run_bind. cbn [intent_templates]. case_match; [|done]. by case_match.
Qed.
Lemma silent_unassign id : frames silent (deleteIntentTemplateRow id).
Proof. intros w. unfold deleteIntentTemplateRow, gets, modify. rewrite run_bind. cbv beta iota. by case_match. Qed.
Lemma silent_handled {A} d (m : eff world A) : frames silent m -> frames silent (handled d m).
Proof. intros H w. rewrite handled_state. apply H. Qed.
#[local] Hint Resolve silent_ecosystem silent_intent silent_updateIntent silent_deleteIntent silent_assign silent_reassign silent_unassign silent_handled : platform.

Definition asks (m : message) : option string :=
  match m with CreateIntentNotice _ _ u _ | UpdateIntentNotice _ _ u | DeleteIntentNotice _ u => Some u | _ => None end.

Lemma silent_message m : asks m = None -> frames silent (handle m).
Proof.
  destruct m; try done; intros _; simpl; unfold done_; try (apply frames_bind; [exact _ | | intros ?; apply frames_ret; exact _]).
  - auto with platform.
  - unfold createIntent, checkIntentExist. apply frames_bind; [exact _ | apply silent_handled; solve_frames | auto with platform].
  - unfold updateIntent, checkIntentExist. apply silent_handled. solve_frames.
  - auto with platform.
  - unfold createIntentTemplate, findIntentById, findIntentTemplate, check_member, findEcosystemOrg. apply silent_handled. solve_frames.
  - unfold updateIntentTemplate, getIntentTemplateRow, findIntentTemplate. apply silent_handled. solve_frames.
  - unfold deleteIntentTemplate. auto with platform.
Qed.

Lemma still_url url : frames still (validateNoticeUrl url).
Proof. unfold validateNoticeUrl. assert (frames still (fetch (default "" url))) by (by intros w). solve_frames. Qed.
Lemma still_isLead u ec : frames still (ecosystem (isEcosystemLead u ec)).
Proof. by intros w. Qed.
Lemma still_lead u ec : frames still (validateEcosystemLead u ec).
Proof. pose proof (still_isLead u ec). unfold validateEcosystemLead. solve_frames. Qed.
#[local] Hint Resolve still_url still_lead still_isLead : platform.
Lemma still_led id u : frames still (led_notice id u).
Proof. unfold led_notice, getIntentNoticeRows, findIntentById. solve_frames. Qed.

(** The user leads the ecosystem of the intent with this identifier. *)
Definition leads_intent (u : string) (w : world) (intentId : string) : Prop :=
  exists i, i ∈ intents w /\ it_id i = intentId /\ isEcosystemLead u (it_ecosystemId i) (eco w) = (Ok true, eco w).

Lemma leads_still u w w' i : still w w' -> leads_intent u w' i -> leads_intent u w i.
Proof.
  intros (A & B & _) (x & Hx & Hid & Hl). exists x. rewrite B in Hx. split_and!; [done|done|]. unfold isEcosystemLead, read, gets in *.
  rewrite A in Hl. injection Hl as Hl. by rewrite Hl.
Qed.

Lemma lead_ok u ec w w1 x : validateEcosystemLead u ec w = (Ok x, w1) -> isEcosystemLead u ec (eco w) = (Ok true, eco w).
Proof.
  intros (b & w2 & H & Hb)%bind_ok_inv. unfold ecosystem, isEcosystemLead, read, gets in *. destruct b; [|done]. injection H as H _. by rewrite H.
Qed.

(** The notice that is found for the lead is the only one with its identifier. *)
Lemma led_ok id u w n w1 : id <> "" -> led_notice id u w = (Ok n, w1) -> in_id n = id /\ n ∈ intent_notices w /\ leads_intent u w (in_intentId n).
Proof.
  intros Hid. unfold led_notice, getIntentNoticeRows, gets. rewrite run_bind. cbv beta iota. destruct (sort_desc _ _) as [|m l] eqn:E; [done|].
  assert (Hm : m ∈ sort_desc in_created (List.filter (fun n => (negb (truthy_str (Some id)) || String.eqb (in_id n) (default "" (Some id)))
    && (negb (truthy_str None) || String.eqb (in_intentId n) (default "" None))) (intent_notices w))) by (rewrite E; left).
  apply elem_of_sort_by, elem_of_filter_b in Hm as [Hin Hm]. assert (Hmid : in_id m = id).
  { destruct id; [done|]. simpl in Hm. by apply andb_true_iff in Hm as [Hm%String.eqb_eq _]. }
  unfold findIntentById, gets. rewrite run_bind. cbv beta iota. destruct (first _ _) as [i|] eqn:Ei; [|done]. apply first_Some in Ei as [Hi Hii%String.eqb_eq].
  intros ([] & w2 & Hl & H)%bind_ok_inv. injection H as <- _. split_and!; [done|done|]. exists i. split_and!; [done|done|]. by eapply lead_ok.
Qed.

Definition named_notice (m : message) : Prop := match m with UpdateIntentNotice id _ _ | DeleteIntentNotice id _ => id <> "" | _ => True end.

Lemma created_by_lead i url u o w n : changes n w (createIntentNotice i url u o w).2 -> leads_intent u w (in_intentId n).
Proof.
  unfold createIntentNotice. rewrite handled_state. intros (url' & w1 & _ & S1 & H)%changes_after; [|auto with platform].
  apply (leads_still _ _ _ _ S1). clear S1 w. revert H. unfold findIntentById at 1, gets. rewrite run_bind. cbv beta iota.
  destruct (first _ _) as [it|] eqn:Ei; [|intros H; by destruct (silent_changes n w1 w1 eq_refl H)]. apply first_Some in Ei as [Hi Hid%String.eqb_eq].
  intros ([] & w2 & Hl & S2 & H)%changes_after; [|auto with platform]. apply lead_ok in Hl.
  apply changes_after in H as ([] & w3 & _ & S3 & H).
  2: { assert (frames still (ecosystem (getEcosystemOrg (it_ecosystemId it) (default "" o)))) by (by intros w). case_match; solve_frames. }
  assert (Hn : in_intentId n = i); [|rewrite Hn; by exists it]. revert H. unfold intentNoticeExists, gets. rewrite run_bind. cbv beta iota.
  destruct (existsb _ _); [intros H; by destruct (silent_changes n w3 w3 eq_refl H)|].
  unfold createIntentNoticeRow, gets. rewrite run_bind. cbv beta iota. destruct (existsb _ _); simpl; [|intros H; by destruct (silent_changes n w3 w3 eq_refl H)].
  unfold changes, set_notices. simpl. rewrite elem_of_app, list_elem_of_singleton. intros H. destruct (decide (in_intentId n = i)) as [|Hne]; [done|].
  destruct H. split; [by left|]. intros [?| ->]; [done|]. by destruct Hne.
Qed.

(** The notice that changes is the one that was found. *)
Lemma updated_by_lead id url u w n : NoDup (in_id <$> intent_notices w) -> id <> "" -> changes n w (updateIntentNotice id url u w).2 -> leads_intent u w (in_intentId n).
Proof.
  intros Hnd Hid. unfold updateIntentNotice. rewrite handled_state. intros (url' & w1 & _ & S1 & H)%changes_after; [|auto with platform].
  apply (leads_still _ _ _ _ S1). destruct S1 as (_ & _ & S1). rewrite <- S1 in Hnd. clear S1 w. apply changes_after in H as (m & w2 & Hl & S2 & H); [|apply still_led].
  destruct (led_ok _ _ _ _ _ Hid Hl) as (Hm & Hmin & Hlead). destruct S2 as (_ & _ & S2). rewrite <- S2 in Hnd, Hmin. clear Hl S2.
  assert (Hn : in_intentId n = in_intentId m); [|by rewrite Hn]. revert H. unfold updateIntentNoticeRow, gets, modify. rewrite run_bind. cbv beta iota.
  destruct (first _ _) as [x|] eqn:Ex; [|intros H; by destruct (silent_changes n w2 w2 eq_refl H)]. apply first_Some in Ex as [_ Hx%String.eqb_eq]. rewrite run_bind. simpl.
  unfold changes, set_notices. simpl. rewrite elem_of_update_where. intros H. destruct (decide (in_intentId n = in_intentId m)) as [|Hne]; [done|]. destruct H.
  assert (Hother : forall y, y ∈ intent_notices w2 -> notice_is (in_id x) y = true -> y = m).
  { intros y Hy Hyid%String.eqb_eq. apply (unique_key in_id _ y m Hnd Hy Hmin). congruence. }
  split.
  - intros Hy. exists n. split; [done|]. destruct (notice_is _ n) eqn:En; [|done]. by rewrite (Hother n Hy En) in Hne.
  - intros (y & Hy & ->). destruct (notice_is _ y) eqn:En; [|done]. by rewrite (Hother y Hy En) in Hne.
Qed.

Lemma deleted_by_lead id u w n : NoDup (in_id <$> intent_notices w) -> id <> "" -> changes n w (deleteIntentNotice id u w).2 -> leads_intent u w (in_intentId n).
Proof.
  intros Hnd Hid. unfold deleteIntentNotice. rewrite handled_state. intros (m & w2 & Hl & S2 & H)%changes_after; [|apply still_led].
  destruct (led_ok _ _ _ _ _ Hid Hl) as (Hm & Hmin & Hlead). destruct S2 as (_ & _ & S2). rewrite <- S2 in Hnd, Hmin. clear Hl S2.
  revert H. unfold deleteIntentNoticeRow, gets, modify. rewrite run_bind. cbv beta iota.
  destruct (first _ _) as [x|] eqn:Ex; [|intros H; by destruct (silent_changes n w2 w2 eq_refl H)]. apply first_Some in Ex as [_ Hx%String.eqb_eq]. rewrite run_bind. simpl.
  unfold changes, set_notices. simpl. rewrite elem_of_filter_b. intros H.
  assert (Hn : in_intentId n = in_intentId m); [|by rewrite Hn]. destruct (decide (in_intentId n = in_intentId m)) as [|Hne]; [done|]. destruct H.
  split; [|by intros [? _]]. intros Hn. split; [done|]. destruct (notice_is (in_id x) n) eqn:En; [|done]. apply String.eqb_eq in En.
  destruct Hne. by rewrite (unique_key in_id _ n m Hnd Hn Hmin) by congruence.
Qed.

(** A notice appears, changes or goes only on the request of somebody who leads the
    ecosystem of its intent. *)
Theorem notices_by_lead m w n : intents_ok w -> named_notice m -> changes n w (handle m w).2 ->
  exists u, asks m = Some u /\ leads_intent u w (in_intentId n).
Proof.
  intros Hw Hm H. pose proof (io_notice_ids w Hw) as Hnd. destruct (asks m) as [u|] eqn:Ea.
  - exists u. split; [done|]. destruct m; simplify_eq/=; apply changes_end in H;
      [by eapply created_by_lead | by eapply updated_by_lead | by eapply deleted_by_lead].
  - by destruct (silent_changes n w _ (silent_message m Ea w) H).
Qed.
End laws.

(** ** A sample *)

Module IntentSample.
#[local] Existing Instances EcosystemSample.ids EcosystemSample.platform.
#[local] Instance web : Web := {| on_fetch us := match us with [_] => Fetched 404 None | _ => Fetched 200 None end |}.

Definition start : world := World Ecosystem.empty [] [] [] [VerificationTemplate "t1" "Age" (Json.JNum 1) "o2" 0 "u2" "u2" DID] [].

(** The first notice cannot be reached; the same name is refused, and so are an intent that
    has assignments and the notice of somebody who does not lead. *)
Definition requests : list message :=
  (map EcosystemMessage EcosystemSample.life ++
  [CreateIntent "KYC" None "id1" "u1"; CreateIntent "kyc" None "id1" "u1"; UpdateIntent "id7" "KYC plus" None "id1" "u1";
   CreateIntentTemplate None "id7" "t1" "u1"; CreateIntentTemplate (Some "o2") "id7" "t1" "u1"; CreateIntentTemplate (Some "o2") "id7" "t1" "u1";
   CreateIntentTemplate (Some "o9") "id7" "t1" "u1"; DeleteIntent "id1" "id7" "u1";
   CreateIntentNotice "id7" (Some "https://n") "u1" None; CreateIntentNotice "id7" (Some "https://n") "u1" (Some "o2");
   CreateIntentNotice "id7" (Some "https://m") "u1" (Some "o2"); CreateIntentNotice "id7" (Some "https://m") "u2" None])%list.

Definition reached : world := served requests start.

Example intents_life : map it_name (intents reached) = ["KYC plus"] /\ map assignment (intent_templates reached) = [(None, "id7", "t1"); (Some "o2", "id7", "t1")] /\
  map notice_slot (intent_notices reached) = [("id7", Some "o2")] /\
  (fun a => ia_orgId a) <$> template_for "KYC plus" "o2" None reached = Some (Some "o2") /\
  (fun a => ia_orgId a) <$> template_for "KYC plus" "o1" None reached = Some None.
Proof. vm_compute. done. Qed.

Lemma requests_orderly : orderly requests start.
Proof. vm_compute. split_and!; try exact I; try reflexivity; intros x Hx Hi; apply list_elem_of_singleton in Hx; subst x; reflexivity. Qed.

Example intents_kept_witness : intents_ok reached /\ names_ok reached.
Proof.
  destruct (intents_kept requests Ecosystem.empty (verification_templates start)) as [H1 H2]; [repeat constructor; discriminate|].
  split; [exact H1 | apply H2, requests_orderly].
Defined.

Definition before : world := served (firstn 11 requests) start.
Definition assigned : intent_template := IntentTemplate "id9" (Some "o2") "id7" "t1" 7 "u1" 7 "u1".

Example createIntentTemplate_assigned_witness : assigned_in before (Some "o2") "id7".
Proof.
  refine (proj1 (createIntentTemplate_assigned (Some "o2") "id7" "t1" "u1" before assigned (createIntentTemplate (Some "o2") "id7" "t1" "u1" before).2 _)).
  vm_compute. reflexivity.
Defined.

Lemma reached_ok : intents_ok reached.
Proof.
  apply (served_ok requests start); [repeat constructor; discriminate|].
  split; simpl; first [by constructor | intros x Hx; by apply elem_of_nil in Hx].
Qed.

Example notices_by_lead_witness : exists u, Some "u1" = Some u /\ leads_intent u reached "id7".
Proof.
  apply (notices_by_lead (DeleteIntentNotice "id10" "u1") reached (IntentNotice "id10" "id7" (Some "o2") "https://n" 8 "u1" "u1")).
  - apply reached_ok.
  - discriminate.
  - intros [H _]. assert (Hin : IntentNotice "id10" "id7" (Some "o2") "https://n" 8 "u1" "u1" ∈ intent_notices reached) by (vm_compute; left).
    apply H in Hin. vm_compute in Hin. by apply elem_of_nil in Hin.
Defined.
End IntentSample.
