(* ===== verification/Oid4vpData.v ===== *)
(** * OpenID4VP verifiers: data and repository

    The rows of the verification service, what it sends to the agent service, and
    [oid4vc-verification.repository.ts].  The state contains the one of [Intent]: the
    verification templates are in both services' database, and the notices are asked for. *)

From S2P Require Import Prelude Js Table CommonUtils CommonService X509 CredentialTemplates Oid4vcData Oid4vcRepository Ecosystem Intent.

Open Scope Z_scope.

(** ** Rows *)

Record oid4vp_verifier := Verifier {
  ve_id : string;
  publicVerifierId : string;
  ve_metadata : Json.value;
  ve_verifierId : string;
  ve_created : Z;
  ve_createdBy : string;
  ve_changedBy : string;
  ve_orgAgentId : string;
}.

Record oid4vp_presentation := Presentation {
  pr_id : string;
  pr_orgId : string;
  verificationSessionId : string;
  presentationId : string;
  pr_state : string;
  pr_contextCorrelationId : string;
  pr_createdBy : string;
  pr_changedBy : string;
  pr_publicVerifierId : string;
}.

(** ** The agent *)

Record CreateVerifier := NewVerifier { cv_verifierId : string; cv_clientMetadata : any }.
Record UpdateVerifier := VerifierUpdate { uv_publicVerifierId : option string; uv_clientMetadata : any }.

Inductive RequestSigner :=
  | DidSigner (didUrl : option string)
  | X5cSigner (x5c : list string) (keyId : string) (clientIdPrefix : option string).

Record session_sent := SessionSent {
  ss_verifierId : string;
  ss_presentationExchange : any;
  ss_dcql : any;
  ss_responseMode : string;
  ss_requestSigner : RequestSigner;
  ss_expectedOrigins : option (list string);
}.

Record VerifyAuthorizationResponse := AuthorizationResponse {
  va_verificationSessionId : string;
  va_authorizationResponse : Json.value;
  va_origin : option string;
}.

Inductive agent_body :=
  | VerifierCreation (v : CreateVerifier)
  | VerifierChange (v : UpdateVerifier)
  | SessionRequest (s : session_sent)
  | ResponseToVerify (r : VerifyAuthorizationResponse)
  | NoBody.

Record call := AgentCall { cl_cmd : string; cl_body : agent_body; cl_url : string; cl_orgId : string }.

(** What the agent service answers, depending on every call made before: a value, or an
    error. *)
Class VerifierAgent := { on_agent : list call -> any + Json.value }.

(** ** The state *)

Record world := World {
  platform : Intent.world;
  agents : list org_agents;
  certificates : list X509.X509CertificateRecord;
  verifiers : list oid4vp_verifier;
  presentations : list oid4vp_presentation;
  calls : list call;
}.

Definition set_verifiers v (w : world) : world := World (platform w) (agents w) (certificates w) v (presentations w) (calls w).
Definition set_presentations v (w : world) : world := World (platform w) (agents w) (certificates w) (verifiers w) v (calls w).

Section repository.
Context {P : Platform} {U : UuidSource} {N : Web} {A : VerifierAgent}.

(** An operation on the database of the ecosystem service, or a message to it *)
Definition shared {B} (m : eff Intent.world B) : eff world B := fun w =>
  let '(r, p) := m (platform w) in (r, World p (agents w) (certificates w) (verifiers w) (presentations w) (calls w)).
Definition fresh : eff world string := shared Intent.fresh.
Definition now : eff world Z := shared Intent.now.
Definition placed (c : call) : eff world (list call) := fun w =>
  let cs := (calls w ++ [c])%list in (Ok cs, World (platform w) (agents w) (certificates w) (verifiers w) (presentations w) cs).
Definition agent (c : call) : eff world (any + Json.value) := cs ← placed c; mret (on_agent cs).

(** ** Agents *)

Definition getAgentEndPoint (orgId : string) : eff world org_agents :=
  t ← gets agents;
  match first (agent_of orgId) t with Some a => mret a | None => throw agentNotFound end.

(** An absent tenant filters nothing. *)
Definition getOrganizationByTenantId (tenant : option string) : eff world (option org_agents) :=
  gets (fun w => first (fun a => match tenant with None => true | Some t => bool_decide (tenantId a = Some t) end) (agents w)).

(** ** Verifiers *)

Definition verifier_is (id : string) (v : oid4vp_verifier) : bool := String.eqb (ve_id v) id.
Definition of_org (orgId : string) (w : world) (v : oid4vp_verifier) : bool := agent_id_of_org orgId (agents w) (ve_orgAgentId v).

(** The columns are required, and the agent's identifier is unique. *)
Definition createVerifierRow (verifierDetails : any) (orgAgentId userId : string) : eff world oid4vp_verifier :=
  match prop_opt "id" verifierDetails, prop_opt "verifierId" verifierDetails, prop_opt "clientMetadata" verifierDetails with
  | Some (Json.JStr agentId), Some (Json.JStr public), Some metadata =>
      if strict_equal metadata Json.JNull then throw prisma_validation else
      rows ← gets verifiers;
      if existsb (fun v => String.eqb (ve_verifierId v) agentId) rows then throw prisma_unique else
      id ← fresh; t ← now;
      let row := Verifier id public metadata agentId t userId userId orgAgentId in
      _ ← modify (fun w => set_verifiers (verifiers w ++ [row])%list w);
      mret row
  | _, _, _ => throw prisma_validation
  end.

Definition with_metadata (m : any) (by_ : string) (v : oid4vp_verifier) : oid4vp_verifier :=
  Verifier (ve_id v) (publicVerifierId v) (default (ve_metadata v) m) (ve_verifierId v) (ve_created v) (ve_createdBy v) by_ (ve_orgAgentId v).

Definition updateVerifierRow (verifierDetails : any) (userId verifierId : string) : eff world oid4vp_verifier :=
  clientMetadata ← lift (CommonService.prop "clientMetadata" verifierDetails);
  if strict_equal (default (Json.JBool false) clientMetadata) Json.JNull then throw prisma_validation else
  rows ← gets verifiers;
  match first (verifier_is verifierId) rows with
  | None => throw prisma_missing
  | Some v => _ ← modify (set_verifiers (update_where (verifier_is verifierId) (with_metadata clientMetadata userId) rows)); mret (with_metadata clientMetadata userId v)
  end.

Definition getVerifiersByPublicVerifierId (public : string) : eff world (list oid4vp_verifier) :=
  gets (fun w => List.filter (fun v => String.eqb (publicVerifierId v) public) (verifiers w)).

Definition getVerifiersByVerifierId (orgId : string) (verifierId : option string) : eff world (list oid4vp_verifier) :=
  gets (fun w => List.filter (fun v => match verifierId with Some id => verifier_is id v | None => true end && of_org orgId w v) (verifiers w)).

Definition getVerifierRow (orgId verifierId : string) : eff world (option oid4vp_verifier) :=
  gets (fun w => first (fun v => verifier_is verifierId v && of_org orgId w v) (verifiers w)).

Definition deleteVerifierByVerifierId (orgId verifierId : string) : eff world oid4vp_verifier :=
  w ← get;
  match first (fun v => verifier_is verifierId v && of_org orgId w v) (verifiers w) with
  | None => throw prisma_missing
  | Some v => _ ← put (set_verifiers (List.filter (fun v => negb (verifier_is verifierId v && of_org orgId w v)) (verifiers w)) w); mret v
  end.

(** ** Presentations *)

Record Oid4vpPresentationWh := PresentationWh {
  wh_id : option string;
  wh_state : option string;
  wh_contextCorrelationId : option string;
  wh_authorizationRequestId : option string;
  wh_verifierId : option string;
}.

Definition with_state (state orgId : string) (p : oid4vp_presentation) : oid4vp_presentation :=
  Presentation (pr_id p) (pr_orgId p) (verificationSessionId p) (presentationId p) state (pr_contextCorrelationId p) (pr_createdBy p) orgId (pr_publicVerifierId p).

(** The upsert, whose data is checked as a whole first *)
Definition storeOid4vpPresentationDetails (payload : option Oid4vpPresentationWh) (orgId : option string) : eff world oid4vp_presentation :=
  match payload with
  | None => throw not_an_object
  | Some p =>
      match wh_id p, wh_state p, wh_contextCorrelationId p, wh_authorizationRequestId p, wh_verifierId p, orgId with
      | Some session, Some state, Some context, Some request, Some verifier, Some org =>
          rows ← gets presentations;
          match first (fun r => String.eqb (verificationSessionId r) session) rows with
          | Some r =>
              _ ← modify (set_presentations (update_where (fun r => String.eqb (verificationSessionId r) session) (with_state state org) rows));
              mret (with_state state org r)
          | None =>
              id ← fresh;
              let row := Presentation id org session request state context org org verifier in
              _ ← modify (fun w => set_presentations (presentations w ++ [row])%list w);
              mret row
          end
      | _, _, _, _, _, _ => throw prisma_validation
      end
  end.

(** ** Certificates *)

Definition getCurrentActiveCertificate (orgId kt : string) : eff world (option X509.X509CertificateRecord) :=
  t ← now;
  gets (fun w => latest X509.createdAt (List.filter (current orgId kt t (agents w)) (certificates w))).

(** ** Templates *)

Record CreateVerificationTemplate := TemplateDto { td_name : option string; td_templateJson : any; td_signerOption : option SignerOption }.

Definition createTemplateRow (d : CreateVerificationTemplate) (orgId userId : string) : eff world verification_template :=
  match td_name d, td_templateJson d, td_signerOption d with
  | Some n, Some j, Some s =>
      id ← fresh; t ← now;
      let row := VerificationTemplate id n j orgId t userId userId s in
      _ ← shared (modify (fun p => set_vtemplates (verification_templates p ++ [row])%list p));
      mret row
  | _, _, _ => throw prisma_validation
  end.

Definition template_in (orgId templateId : string) (t : verification_template) : bool := template_is templateId t && String.eqb (vt_orgId t) orgId.

Definition getTemplateRows (orgId : string) (templateId : option string) : eff world (list verification_template) :=
  shared (gets (fun p => sort_desc vt_created (List.filter (fun t => String.eqb (vt_orgId t) orgId
    && (negb (truthy_str templateId) || template_is (default "" templateId) t)) (verification_templates p)))).

Definition getTemplateRow (orgId templateId : string) : eff world (option verification_template) :=
  shared (gets (fun p => first (template_in orgId templateId) (verification_templates p))).

Definition retemplated (d : CreateVerificationTemplate) (userId : string) (t : verification_template) : verification_template :=
  VerificationTemplate (vt_id t) (default (vt_name t) (td_name d)) (default (templateJson t) (td_templateJson d)) (vt_orgId t) (vt_created t)
    (vt_createdBy t) userId (default (vt_signerOption t) (td_signerOption d)).

Definition updateTemplateRow (templateId : string) (d : CreateVerificationTemplate) (orgId userId : string) : eff world verification_template :=
  shared (
    rows ← gets verification_templates;
    match first (template_in orgId templateId) rows with
    | None => throw prisma_missing
    | Some t => _ ← modify (set_vtemplates (update_where (template_in orgId templateId) (retemplated d userId) rows)); mret (retemplated d userId t)
    end).

(** The assignments of intents refer to templates. *)
Definition deleteTemplateRow (orgId templateId : string) : eff world verification_template :=
  shared (
    p ← get;
    match first (template_in orgId templateId) (verification_templates p) with
    | None => throw prisma_missing
    | Some t =>
        if existsb (fun a => String.eqb (ia_templateId a) templateId) (intent_templates p) then throw Intent.prisma_foreign_key else
        _ ← put (set_vtemplates (List.filter (fun t => negb (template_in orgId templateId t)) (verification_templates p)) p);
        mret t
    end).
End repository.
