(* ===== verification/Oid4vp.v ===== *)
(** * OpenID4VP verifiers: service

    [oid4vc-verification.service.ts] with its helper, and the messages of
    [oid4vc-verification.controller.ts].  The messages to the ecosystem service are its
    operations, in [IntentService]. *)

From S2P Require Import Prelude Js JsonParse Table CommonUtils CastHelper CommonService X509 CredentialTemplates Oid4vcData Oid4vcRepository Ecosystem Intent IntentService Oid4vpData.

Open Scope Z_scope.

Section service.
Context {P : Platform} {U : UuidSource} {N : Web} {A : VerifierAgent}.

(** ** The agent *)

Definition agent_url (a : org_agents) (flag : string) (id : option string) : eff world string := lift (getAgentUrl (default "" (oa_agentEndPoint a)) flag id).

(** The error of a message, with the properties that are read from it *)
Definition failure (e : Json.value) : exn :=
  Exn HttpException (default "" (Json.as_str (Json.get "message" e))) (match Json.get "statusCode" e with Some (Json.JNum n) => Some n | _ => None end) None.
Definition is409 (a : any) : bool := match a with Some (Json.JNum n) => n =? 409 | _ => false end.
Definition status409 (e : Json.value) : bool :=
  is409 (prop_opt "statusCode" (prop_opt "message" (prop_opt "status" (Some e)))) || is409 (prop_opt "status" (prop_opt "response" (Some e)))
  || is409 (prop_opt "statusCode" (Some e)).

Definition sendNatsMessage (c : call) : eff world any := answer ← agent c; match answer with inl v => mret v | inr e => throw (failure e) end.

Definition verifierNotFound : exn := not_found "OID4VP verifier not found.".
Definition createFailed : exn := internal "Failed to create OID4VP verifier.".
Definition updateFailed : exn := internal "Failed to update OID4VP verifier.".

(** ** Verifiers *)

Definition oid4vpCreateVerifier (createVerifier : CreateVerifier) (orgId userId : string) : eff world oid4vp_verifier :=
  rpc (
    checkIdExist ← getVerifiersByPublicVerifierId (cv_verifierId createVerifier);
    match checkIdExist with
    | _ :: _ => throw (conflict "Verifier ID already exists for this verifier.")
    | [] =>
        agentDetails ← getAgentEndPoint orgId;
        url ← agent_url agentDetails "create-oid4vp-verifier" None;
        answer ← agent (AgentCall "agent-create-oid4vp-verifier" (VerifierCreation createVerifier) url orgId);
        match answer with
        | inr e => if status409 e then throw (conflict ("Verifier with id '" +:+ cv_verifierId createVerifier +:+ "' already exists")) else throw (failure e)
        | inl created => if any_truthy created then createVerifierRow created (oa_id agentDetails) userId else throw createFailed
        end
    end).

Definition oid4vpUpdateVerifier (updateVerifier : UpdateVerifier) (orgId verifierId userId : string) : eff world oid4vp_verifier :=
  rpc (
    existingVerifiers ← getVerifiersByVerifierId orgId (Some verifierId);
    match existingVerifiers with
    | [] => throw verifierNotFound
    | existing :: _ =>
        agentDetails ← getAgentEndPoint orgId;
        url ← agent_url agentDetails "update-oid4vp-verifier" (Some (publicVerifierId existing));
        answer ← agent (AgentCall "agent-update-oid4vp-verifier" (VerifierChange updateVerifier) url orgId);
        match answer with
        | inr e => if status409 e then throw (conflict ("Verifier with id '" +:+ publicVerifierId existing +:+ "' already exists")) else throw (failure e)
        | inl updated => if any_truthy updated then updateVerifierRow (prop_opt "data" updated) userId verifierId else throw updateFailed
        end
    end).

Definition getVerifierById (orgId : string) (verifierId : option string) : eff world (list oid4vp_verifier) :=
  rpc (
    found ← getVerifiersByVerifierId orgId verifierId;
    match found with [] => throw verifierNotFound | _ => mret found end).

Definition deleteVerifierById (orgId verifierId : string) : eff world oid4vp_verifier :=
  rpc (
    checkIdExist ← getVerifiersByVerifierId orgId (Some verifierId);
    match checkIdExist with
    | [] => throw verifierNotFound
    | existing :: _ =>
        agentDetails ← getAgentEndPoint orgId;
        url ← agent_url agentDetails "delete-oid4vp-verifier" (Some (ve_verifierId existing));
        _ ← sendNatsMessage (AgentCall "agent-delete-oid4vp-verifier" NoBody url orgId);
        deleteVerifierByVerifierId orgId verifierId
    end).

(** ** Sessions *)

Record IRequestSigner := Signer { rs_method : option string; rs_clientIdPrefix : option string }.
Record IPresentationRequest := PresentationRequest {
  pq_requestSigner : option IRequestSigner;
  pq_presentationExchange : any;
  pq_dcql : any;
  pq_responseMode : string;
  pq_expectedOrigins : option (list string);
}.

Definition certificate_signer (missing : exn) (orgId kt : string) (s : IRequestSigner) : eff world RequestSigner :=
  activeCertificate ← getCurrentActiveCertificate orgId kt;
  match activeCertificate with
  | None => throw missing
  | Some c =>
      if truthy_str (X509.keyId c) then mret (X5cSigner [X509.certificateBase64 c] (default "" (X509.keyId c)) (rs_clientIdPrefix s))
      else throw (not_found ("Active certificate keyId missing for " +:+ template_str (rs_method s)))
  end.

Definition resolve_signer (missing : string -> exn) (orgId : string) (agentDetails : org_agents) (s : IRequestSigner) : eff world RequestSigner :=
  let method := template_str (rs_method s) in
  if String.eqb method "DID" then mret (DidSigner (orgDid agentDetails))
  else if String.eqb method "X509_P256" then certificate_signer (missing method) orgId "P-256" s
  else if String.eqb method "X509_ED25519" then certificate_signer (missing method) orgId "Ed25519" s
  else throw (bad_request ("Unsupported requestSigner method: " +:+ method)).

Definition session_request (s : session_sent) (url orgId : string) : call := AgentCall "agent-create-oid4vp-verification-session" (SessionRequest s) url orgId.

(** The verifier's agent and row *)
Definition verifier_of (orgId verifierId : string) : eff world (org_agents * oid4vp_verifier) :=
  agentDetails ← getAgentEndPoint orgId;
  verifier ← getVerifierRow orgId verifierId;
  match verifier with Some v => mret (agentDetails, v) | None => throw verifierNotFound end.

Definition no_certificate_for_issuer (method : string) : exn :=
  not_found ("No active certificate(" +:+ method +:+ (if String.eqb method "X509_ED25519" then "}" else "") +:+ ") found for issuer").

Definition send_session (s : session_sent) (agentDetails : org_agents) (orgId : string) : eff world any :=
  url ← agent_url agentDetails "oid4vp-verification-session" None;
  createdSession ← sendNatsMessage (session_request s url orgId);
  if any_truthy createdSession then mret createdSession else throw createFailed.

Definition oid4vpCreateVerificationSession (orgId verifierId : string) (sessionRequest : IPresentationRequest) : eff world any :=
  rpc (
    '(agentDetails, verifier) ← verifier_of orgId verifierId;
    match pq_requestSigner sessionRequest with
    | None => throw not_an_object
    | Some s =>
        requestSigner ← resolve_signer no_certificate_for_issuer orgId agentDetails s;
        send_session (SessionSent (publicVerifierId verifier) (pq_presentationExchange sessionRequest) (pq_dcql sessionRequest)
          (pq_responseMode sessionRequest) requestSigner (pq_expectedOrigins sessionRequest)) agentDetails orgId
    end).

(** [noticeUrl] of a text that is not empty, [transactionId] of any value: every failure
    makes the notice [null]. *)
Definition fetchConsentNotice (noticeUrl : string) (transactionId : any) : eff world Json.value :=
  match transactionId with
  | Some (Json.JStr id) =>
      if String.eqb (Str.trim noticeUrl) "" || String.eqb (Str.trim id) "" then mret Json.JNull else
      response ← shared (fetch (noticeUrl +:+ "?transactionId=" +:+ id));
      match response with
      | Unreachable _ => mret Json.JNull
      | Fetched status body =>
          let url := prop_opt "consentNoticeUrl" (prop_opt "consent_notice" body) in
          mret (if response_ok status && any_truthy url then default Json.JNull url else Json.JNull)
      end
  | _ => mret Json.JNull
  end.

(** [createdSession.consentNoticeUrl = url] *)
Definition with_consent (url : Json.value) (session : any) : any :=
  match session with Some (Json.JObj fs) => Some (Json.JObj (Json.set_field "consentNoticeUrl" url fs)) | _ => session end.

(** A notice that cannot be read is no notice. *)
Definition notice_for (intentId orgId : string) : eff world (option intent_notice) :=
  try_catch (shared (getIntentNoticeByIntentId intentId (Some (Some orgId)))) (fun _ => mret None).

Definition enrich (orgId intentId : string) (createdSession : any) : eff world any :=
  if String.eqb intentId "" then mret createdSession else
  notice ← notice_for intentId orgId;
  match notice with
  | None => mret createdSession
  | Some n =>
      if String.eqb (noticeUrl n) "" then mret createdSession else
      session ← lift (CommonService.prop "verificationSession" createdSession);
      transactionId ← lift (CommonService.prop "id" session);
      url ← fetchConsentNotice (noticeUrl n) transactionId;
      mret (with_consent url createdSession)
  end.

Definition template_dcql (t : option verification_template) : result any :=
  match t with None => Ok None | Some t => CommonService.prop "dcql" (Some (templateJson t)) end.

Definition createIntentBasedVerificationPresentation (orgId verifierId intent responseMode : string) (requestSigner : option IRequestSigner)
    (ecosystemId : option string) (expectedOrigins : option (list string)) : eff world any :=
  rpc (
    '(agentDetails, verifier) ← verifier_of orgId verifierId;
    templateData ← shared (getIntentTemplateByIntentAndOrg intent orgId ecosystemId);
    match templateData with
    | None => throw (not_found ("No template found for intent '" +:+ intent +:+ "' and organization '" +:+ orgId +:+ "'"))
    | Some (assignment, template) =>
        dcql ← lift (template_dcql template);
        resolvedSigner ← resolve_signer (fun m => not_found ("No active certificate(" +:+ m +:+ ") found for organization")) orgId agentDetails
          (default (Signer None None) requestSigner);
        createdSession ← send_session (SessionSent (publicVerifierId verifier) None dcql responseMode resolvedSigner expectedOrigins) agentDetails orgId;
        enrich orgId (ia_intentId assignment) createdSession
    end).

(** ** Sessions of the agent *)

Definition VerificationSessionQuery : Type := list (string * option string).
Definition no_session (response : any) : bool :=
  negb (any_truthy response) || match response with
  | Some (Json.JArr vs) => match vs with [] => true | _ => false end
  | Some v => match Json.get "length" v with Some (Json.JNum n) => n =? 0 | _ => false end
  | None => true
  end.

Definition _getOid4vpVerifierSession (url orgId : string) : eff world any := sendNatsMessage (AgentCall "agent-get-oid4vp-verifier-session" NoBody url orgId).

Definition getVerifierSession (orgId : string) (query : VerificationSessionQuery) : eff world any :=
  rpc (
    agentDetails ← getAgentEndPoint orgId;
    let id := map_get "id" query ≫= id in
    url ← (if truthy_str id then agent_url agentDetails "get-oid4vp-verifier-session-id" id
           else base ← agent_url agentDetails "get-oid4vp-verifier-session-query" None;
                mret (buildUrlWithQuery base (map (fun '(k, v) => (k, QStr <$> v)) query)));
    found ← _getOid4vpVerifierSession url orgId;
    if no_session found then throw verifierNotFound else mret found).

Definition getVerificationSessionResponse (orgId verificationSessionId : string) : eff world any :=
  rpc (
    agentDetails ← getAgentEndPoint orgId;
    url ← agent_url agentDetails "get-oid4vp-verifier-session-response-id" (Some verificationSessionId);
    found ← _getOid4vpVerifierSession url orgId;
    if no_session found then throw (not_found "Verification session response not found.") else mret found).

Definition verifyAuthorizationResponse (r : VerifyAuthorizationResponse) (orgId : string) : eff world any :=
  rpc (
    agentDetails ← getAgentEndPoint orgId;
    url ← agent_url agentDetails "verify-oid4vp-verifier-session-auth-response" None;
    sendNatsMessage (AgentCall "agent-verify-oid4vp-session-auth-response" (ResponseToVerify r) url orgId)).

Definition oid4vpPresentationWebhook (payload : option Oid4vpPresentationWh) (id : string) : eff world oid4vp_presentation :=
  let contextCorrelationId := payload ≫= wh_contextCorrelationId in
  orgId ← (if bool_decide (contextCorrelationId = Some "default") then mret (Some id) else
           organization ← getOrganizationByTenantId contextCorrelationId;
           match organization with None => throw (not_found "Organization not found") | Some o => mret (oa_orgId o) end);
  storeOid4vpPresentationDetails payload orgId.

(** ** Verification templates *)

Definition createVerificationTemplate (d : CreateVerificationTemplate) (orgId userId : string) : eff world verification_template :=
  rpc (createTemplateRow d orgId userId).

Definition getVerificationTemplates (orgId : string) (templateId : option string) : eff world (list verification_template) :=
  rpc (
    found ← getTemplateRows orgId templateId;
    match found with [] => throw verifierNotFound | _ => mret found end).

Definition updateVerificationTemplate (templateId : string) (d : CreateVerificationTemplate) (orgId userId : string) : eff world verification_template :=
  rpc (
    existing ← getTemplateRow orgId templateId;
    match existing with None => throw verifierNotFound | Some _ => updateTemplateRow templateId d orgId userId end).

Definition deleteVerificationTemplate (orgId templateId : string) : eff world verification_template :=
  rpc (
    existing ← getTemplateRow orgId templateId;
    match existing with None => throw verifierNotFound | Some _ => deleteTemplateRow orgId templateId end).

(** ** Messages *)

Inductive message :=
  | CreateVerifierMessage (c : CreateVerifier) (orgId userId : string)
  | UpdateVerifierMessage (u : UpdateVerifier) (orgId verifierId userId : string)
  | DeleteVerifierMessage (orgId verifierId : string)
  | CreateSession (orgId verifierId : string) (request : IPresentationRequest)
  | CreateIntentSession (orgId verifierId intent responseMode : string) (requestSigner : option IRequestSigner) (ecosystemId : option string)
      (expectedOrigins : option (list string))
  | GetSession (orgId : string) (query : VerificationSessionQuery)
  | GetSessionResponse (orgId verificationSessionId : string)
  | VerifyResponse (r : VerifyAuthorizationResponse) (orgId : string)
  | PresentationWebhook (payload : option Oid4vpPresentationWh) (id : string)
  | CreateTemplate (d : CreateVerificationTemplate) (orgId userId : string)
  | UpdateTemplate (templateId : string) (d : CreateVerificationTemplate) (orgId userId : string)
  | DeleteTemplate (orgId templateId : string).

Definition ends {B} (m : eff world B) : eff world unit := _ ← m; mret tt.

Definition handle (m : message) : eff world unit :=
  match m with
  | CreateVerifierMessage c o u => ends (oid4vpCreateVerifier c o u)
  | UpdateVerifierMessage d o v u => ends (oid4vpUpdateVerifier d o v u)
  | DeleteVerifierMessage o v => ends (deleteVerifierById o v)
  | CreateSession o v q => ends (oid4vpCreateVerificationSession o v q)
  | CreateIntentSession o v i r s e x => ends (createIntentBasedVerificationPresentation o v i r s e x)
  | GetSession o q => ends (getVerifierSession o q)
  | GetSessionResponse o s => ends (getVerificationSessionResponse o s)
  | VerifyResponse r o => ends (verifyAuthorizationResponse r o)
  | PresentationWebhook p id => ends (oid4vpPresentationWebhook p id)
  | CreateTemplate d o u => ends (createVerificationTemplate d o u)
  | UpdateTemplate t d o u => ends (updateVerificationTemplate t d o u)
  | DeleteTemplate o t => ends (deleteVerificationTemplate o t)
  end.
End service.
