(* ===== verification/Oid4vpProofs.v ===== *)
(** * OpenID4VP verifiers: theorems

    What is asked of an agent, and what messages do to the rows. *)

From S2P Require Import Prelude Js JsonParse Table CommonUtils CastHelper CommonService X509 CredentialTemplates Oid4vcData Oid4vcRepository Ecosystem Intent IntentService IntentInvariant Oid4vpData Oid4vp.

Open Scope Z_scope.

#[local] Set Default Proof Using "All".

Section laws.
Context {P : Platform} {U : UuidSource} {N : Web} {A : VerifierAgent}.

(** ** What reading leaves alone *)

(** Only the clock and the identifiers advance, and notices are fetched. *)
Definition quiet (w w' : world) : Prop :=
  untouched (platform w) (platform w') /\ agents w' = agents w /\ certificates w' = certificates w /\ verifiers w' = verifiers w /\
  presentations w' = presentations w /\ calls w' = calls w.
#[export] Instance quiet_preorder : PreOrder quiet.
Proof.
  split; [by intros w|]. intros w w1 w2 (A1 & B1 & C1 & D1 & E1 & F1) (A2 & B2 & C2 & D2 & E2 & F2). unfold quiet.
  rewrite B2, C2, D2, E2, F2. split; [by etrans | done].
Qed.

Lemma quiet_shared {B} (m : eff Intent.world B) : frames untouched m -> frames quiet (shared m).
Proof. intros H w. specialize (H (platform w)). unfold shared. by destruct (m (platform w)). Qed.
Lemma quiet_now : frames quiet now.
Proof. apply quiet_shared, untouched_now. Qed.
Lemma quiet_fetch url : frames quiet (shared (fetch url)).
Proof. apply quiet_shared, untouched_fetch. Qed.
Lemma quiet_agent_url a f i : frames quiet (agent_url a f i).
Proof. by intros w. Qed.
#[local] Hint Resolve quiet_now quiet_fetch quiet_agent_url : platform.

Lemma quiet_verifier o v : frames quiet (verifier_of o v).
Proof. unfold verifier_of, getAgentEndPoint, getVerifierRow. solve_frames. Qed.
Lemma quiet_certificate m o k s : frames quiet (certificate_signer m o k s).
Proof. unfold certificate_signer, getCurrentActiveCertificate. solve_frames. Qed.
#[local] Hint Resolve quiet_verifier quiet_certificate : platform.
Lemma quiet_signer f o a s : frames quiet (resolve_signer f o a s).
Proof. unfold resolve_signer. solve_frames. Qed.
Lemma quiet_handled {B} d (m : eff Intent.world B) : frames untouched m -> frames quiet (shared (handled d m)).
Proof. intros H. apply quiet_shared. intros w. rewrite handled_state. apply H. Qed.
Lemma quiet_template i o e : frames quiet (shared (getIntentTemplateByIntentAndOrg i o e)).
Proof. unfold getIntentTemplateByIntentAndOrg. apply quiet_handled. solve_frames. Qed.
Lemma quiet_notice i o : frames quiet (notice_for i o).
Proof.
  unfold notice_for, getIntentNoticeByIntentId, getIntentNoticeRow. apply frames_try; [exact _ | apply quiet_handled; solve_frames | intros ?; solve_frames].
Qed.
#[local] Hint Resolve quiet_signer quiet_template quiet_notice : platform.
Lemma quiet_enrich o i s : frames quiet (enrich o i s).
Proof. unfold enrich, fetchConsentNotice. solve_frames. Qed.
#[local] Hint Resolve quiet_enrich : platform.

Lemma ends_state {B} (m : eff world B) w : (ends m w).2 = (m w).2.
Proof. unfold ends. rewrite run_bind. by destruct (m w) as [[b|e] w1]. Qed.

(** ** Sessions *)

(** The key type of a method that signs with a certificate *)
Definition method_key (method : string) : option string :=
  if String.eqb method "X509_P256" then Some "P-256" else if String.eqb method "X509_ED25519" then Some "Ed25519" else None.

(** A signer of an organization by the method that is asked for: the DID of its agent, or a
    certificate of its, of the method's key type, that is active and valid at some reading of
    the clock since the request *)
Definition signed (w : world) (org : string) (asked : IRequestSigner) (s : RequestSigner) : Prop :=
  let method := template_str (rs_method asked) in
  match s with
  | DidSigner d => method = "DID" /\ exists a, a ∈ agents w /\ agent_of org a = true /\ orgDid a = d
  | X5cSigner x5c key prefix => prefix = rs_clientIdPrefix asked /\
      exists c kt n, c ∈ certificates w /\ method_key method = Some kt /\ (ticks (eco (platform w)) <= n)%nat /\
      current org kt (reading n) (agents w) c = true /\ x5c = [X509.certificateBase64 c] /\ X509.keyId c = Some key /\ key <> ""
  end.

(** What is asked for: the presentation in one of its two forms, how it is answered, and by whom
    it is signed *)
Record presentation_asked := Asked {
  pa_presentationExchange : any;
  pa_dcql : any;
  pa_responseMode : string;
  pa_expectedOrigins : option (list string);
  pa_signer : IRequestSigner;
}.

(** What is asked of the agent for an organization and one of its verifiers *)
Definition well_asked (w : world) (org verifierId : string) (p : presentation_asked) (s : session_sent) : Prop :=
  signed w org (pa_signer p) (ss_requestSigner s) /\
  ss_presentationExchange s = pa_presentationExchange p /\ ss_dcql s = pa_dcql p /\
  ss_responseMode s = pa_responseMode p /\ ss_expectedOrigins s = pa_expectedOrigins p /\
  exists v, v ∈ verifiers w /\ ve_id v = verifierId /\ of_org org w v = true /\ ss_verifierId s = publicVerifierId v.

Lemma certificate_ok m o k s w r w1 : method_key (template_str (rs_method s)) = Some k -> certificate_signer m o k s w = (Ok r, w1) -> signed w o s r.
Proof.
  intros Hk.
  unfold certificate_signer, getCurrentActiveCertificate. intros (c & w2 & H & Hc)%bind_ok_inv.
  apply bind_ok_inv in H as (t & w3 & Ht & H). unfold now, shared, Intent.now, Intent.ecosystem, Ecosystem.now in Ht. injection Ht as <- <-.
  unfold gets in H. injection H as <- <-. simpl in Hc. destruct (latest _ _) as [c|] eqn:El; [|done].
  apply latest_elem, elem_of_filter_b in El as [Hin Hcur]. destruct (truthy_str (X509.keyId c)) eqn:Ek; [|done]. injection Hc as <- _.
  destruct (X509.keyId c) as [key|] eqn:Ekey; [|done]. split; [done|]. exists c, k, (ticks (eco (platform w))). split_and!; try done. simpl. by intros ->.
Qed.

Lemma signer_ok f o a s w r w1 : a ∈ agents w -> agent_of o a = true -> resolve_signer f o a s w = (Ok r, w1) -> signed w o s r.
Proof.
  intros Ha Ho. unfold resolve_signer. destruct (String.eqb_spec (template_str (rs_method s)) "DID") as [Hm|].
  { intros [= <- _]. split; [done | by exists a]. }
  destruct (String.eqb (template_str (rs_method s)) "X509_P256") eqn:E1; [|destruct (String.eqb (template_str (rs_method s)) "X509_ED25519") eqn:E2; [|done]];
    apply certificate_ok; unfold method_key; by rewrite E1, ?E2.
Qed.

Lemma verifier_ok o v w a r w1 : verifier_of o v w = (Ok (a, r), w1) ->
  w1 = w /\ a ∈ agents w /\ agent_of o a = true /\ r ∈ verifiers w /\ ve_id r = v /\ of_org o w r = true.
Proof.
  unfold verifier_of, getAgentEndPoint, getVerifierRow, gets. intros (a' & w2 & H & Hr)%bind_ok_inv. rewrite run_bind in H. cbv beta iota in H.
  destruct (first (agent_of o) _) as [a0|] eqn:Ea; [|done]. injection H as <- <-. rewrite run_bind in Hr. cbv beta iota in Hr.
  destruct (first _ (verifiers w)) as [v0|] eqn:Ev; [|done]. injection Hr as <- <- <-. apply first_Some in Ea as [? ?], Ev as [Hv Hvv].
  apply andb_true_iff in Hvv as [Hid%String.eqb_eq ?]. done.
Qed.

(** The call that sends a session, and nothing after it *)
Lemma send_calls s a o w : exists cs, calls (send_session s a o w).2 = (calls w ++ cs)%list /\
  forall c, c ∈ cs -> cl_body c = SessionRequest s /\ cl_orgId c = o.
Proof.
  unfold send_session, agent_url, lift. rewrite run_bind. destruct (getAgentUrl _ _ _) as [url|e].
  2: { exists []. split; [by rewrite app_nil_r | intros c Hc; by apply elem_of_nil in Hc]. }
  exists [session_request s url o]. unfold sendNatsMessage, agent, placed. rewrite !run_bind. cbv beta iota. rewrite run_ret. cbv beta iota.
  split; [|by intros c ->%list_elem_of_singleton]. destruct (on_agent _); [|done]. rewrite run_ret. by case_match.
Qed.

Definition asked (m : message) : option (string * string) :=
  match m with CreateSession o v _ | CreateIntentSession o v _ _ _ _ _ => Some (o, v) | _ => None end.

(** The presentation that is asked for: the request's, or that of the template selected *)
Definition asked_of (m : message) (w : world) : result presentation_asked :=
  match m with
  | CreateSession _ _ q =>
      match pq_requestSigner q with
      | Some s => Ok (Asked (pq_presentationExchange q) (pq_dcql q) (pq_responseMode q) (pq_expectedOrigins q) s)
      | None => Throw not_an_object
      end
  | CreateIntentSession o _ i mode signer e origins =>
      match template_for i o e (platform w) with
      | Some a => dcql ← template_dcql (template_of a (platform w)); Ok (Asked None dcql mode origins (default (Signer None None) signer))
      | None => Throw verifierNotFound
      end
  | _ => Throw verifierNotFound
  end.

(** Calls that do not create a session *)
Definition other_call (c : call) : Prop := match cl_body c with SessionRequest _ => False | _ => True end.
Definition no_sessions (w w' : world) : Prop := exists cs, calls w' = (calls w ++ cs)%list /\ Forall other_call cs.
#[local] Instance no_sessions_preorder : PreOrder no_sessions.
Proof.
  split; [intros w; exists []; by rewrite app_nil_r|]. intros w w1 w2 (c1 & E1 & F1) (c2 & E2 & F2). exists (c1 ++ c2)%list.
  rewrite E2, E1, app_assoc. split; [done | by apply Forall_app].
Qed.
Lemma silent_calls {B} (m : eff world B) : (forall w, calls (m w).2 = calls w) -> frames no_sessions m.
Proof. intros H w. exists []. by rewrite H, app_nil_r. Qed.
Lemma no_sessions_shared {B} (m : eff Intent.world B) : frames no_sessions (shared m).
Proof. apply silent_calls. intros w. unfold shared. by destruct (m (platform w)). Qed.
Lemma no_sessions_agent c : other_call c -> frames no_sessions (agent c).
Proof. intros H w. exists [c]. split; [done | by constructor]. Qed.
Lemma no_sessions_modify f : (forall w, calls (f w) = calls w) -> frames no_sessions (modify f).
Proof. intros H. by apply silent_calls. Qed.
Lemma no_sessions_url a f i : frames no_sessions (agent_url a f i).
Proof. by apply silent_calls. Qed.
Lemma no_sessions_fresh : frames no_sessions fresh.
Proof. apply no_sessions_shared. Qed.
Lemma no_sessions_now : frames no_sessions now.
Proof. apply no_sessions_shared. Qed.
Lemma no_sessions_rpc {B} (m : eff world B) : frames no_sessions m -> frames no_sessions (rpc m).
Proof. intros H w. rewrite rpc_state. apply H. Qed.
Lemma no_sessions_ends {B} (m : eff world B) : frames no_sessions m -> frames no_sessions (ends m).
Proof. intros H w. rewrite ends_state. apply H. Qed.
#[local] Hint Resolve no_sessions_shared no_sessions_url no_sessions_fresh no_sessions_now : platform.
#[local] Hint Extern 1 (frames no_sessions (agent _)) => (apply no_sessions_agent; exact I) : platform.
#[local] Hint Extern 1 (frames no_sessions (modify _)) => (apply no_sessions_modify; done) : platform.
Lemma no_sessions_delete o v : frames no_sessions (deleteVerifierByVerifierId o v).
Proof. apply silent_calls. intros w. unfold deleteVerifierByVerifierId, get, put. rewrite run_bind. cbv beta iota. by case_match. Qed.
#[local] Hint Resolve no_sessions_delete : platform.

Lemma no_sessions_message m : asked m = None -> frames no_sessions (handle m).
Proof.
  destruct m; try done; intros _; simpl; apply no_sessions_ends; try apply no_sessions_rpc.
  - unfold oid4vpCreateVerifier, getVerifiersByPublicVerifierId, getAgentEndPoint, createVerifierRow. solve_frames.
  - unfold oid4vpUpdateVerifier, getVerifiersByVerifierId, getAgentEndPoint, updateVerifierRow. solve_frames.
  - unfold deleteVerifierById, getVerifiersByVerifierId, getAgentEndPoint, sendNatsMessage. solve_frames.
  - unfold getVerifierSession, getAgentEndPoint, _getOid4vpVerifierSession, sendNatsMessage. solve_frames.
  - unfold getVerificationSessionResponse, getAgentEndPoint, _getOid4vpVerifierSession, sendNatsMessage. solve_frames.
  - unfold verifyAuthorizationResponse, getAgentEndPoint, sendNatsMessage. solve_frames.
  - unfold oid4vpPresentationWebhook, getOrganizationByTenantId, storeOid4vpPresentationDetails. solve_frames.
  - unfold createVerificationTemplate, createTemplateRow. solve_frames.
  - unfold updateVerificationTemplate, getTemplateRow, updateTemplateRow. solve_frames.
  - unfold deleteVerificationTemplate, getTemplateRow, deleteTemplateRow. solve_frames.
Qed.

(** What a computation that sends at most one session leaves in the calls *)
Definition sends (o : string) (Q : session_sent -> Prop) (w w' : world) : Prop :=
  exists cs, calls w' = (calls w ++ cs)%list /\ forall c s, c ∈ cs -> cl_body c = SessionRequest s -> Q s /\ cl_orgId c = o.
Lemma quiet_sends o Q w w' : quiet w w' -> sends o Q w w'.
Proof. intros (_ & _ & _ & _ & _ & H). exists []. rewrite H, app_nil_r. split; [done | intros c s Hc; by apply elem_of_nil in Hc]. Qed.
Lemma sends_quiet o Q w w1 w2 : sends o Q w w1 -> quiet w1 w2 -> sends o Q w w2.
Proof. intros (cs & E & H) (_ & _ & _ & _ & _ & Hq). exists cs. by rewrite Hq, E. Qed.
Lemma quiet_then_sends o Q w w1 w2 : quiet w w1 -> sends o Q w1 w2 -> sends o Q w w2.
Proof. intros (_ & _ & _ & _ & _ & Hq) (cs & E & H). exists cs. by rewrite E, Hq. Qed.

Lemma sends_after {B C} (m : eff world B) (k : B -> eff world C) o Q w : frames quiet m ->
  (forall b w1, m w = (Ok b, w1) -> quiet w w1 -> sends o Q w1 (k b w1).2) -> sends o Q w ((m ≫= k) w).2.
Proof.
  intros Hm Hk. apply (after_frame quiet); [done | intros w1; by apply quiet_sends|]. intros b w1 E Hq. by apply (quiet_then_sends _ _ w w1), Hk.
Qed.

Lemma bind_assoc {B C D} (m : eff world B) (k : B -> eff world C) (h : C -> eff world D) w :
  ((m ≫= k) ≫= h) w = (m ≫= fun a => k a ≫= h) w.
Proof. rewrite !run_bind. by destruct (m w) as [[a|e] w1]. Qed.
Lemma sends_then_quiet {B C} (m : eff world B) (h : B -> eff world C) o Q w : sends o Q w (m w).2 -> (forall b, frames quiet (h b)) -> sends o Q w ((m ≫= h) w).2.
Proof.
  intros Hm Hh. rewrite run_bind. destruct (m w) as [[b|e] w1]; [|done]. eapply sends_quiet; [exact Hm | apply Hh].
Qed.

Lemma template_read i o e w : exists r, shared (getIntentTemplateByIntentAndOrg i o e) w = (r, w) /\
  forall a t, r = Ok (Some (a, t)) -> template_for i o e (platform w) = Some a /\ t = template_of a (platform w).
Proof.
  unfold shared, getIntentTemplateByIntentAndOrg, handled, try_catch, gets. eexists. split; [by destruct w as [? ? ? ? ? ?]|].
  intros a t [= H]. by destruct (template_for i o e (platform w)); simplify_eq/=.
Qed.

(** The signer is found, then the session is sent. *)
Lemma signed_session miss o a s (mk : RequestSigner -> session_sent) w Q : a ∈ agents w -> agent_of o a = true ->
  (forall r, signed w o s r -> Q (mk r)) ->
  sends o Q w ((r ← resolve_signer miss o a s; send_session (mk r) a o) w).2.
Proof.
  intros Ha Ho HQ. apply sends_after; [auto with platform|]. intros r w1 Hr _. pose proof (signer_ok _ _ _ _ _ _ _ Ha Ho Hr) as Hs.
  destruct (send_calls (mk r) a o w1) as (cs & E & H). exists cs. split; [done|]. intros c x Hc Hx. destruct (H c Hc) as [Hb Hco].
  rewrite Hb in Hx. injection Hx as <-. auto.
Qed.

(** C19. Whatever is asked of a verifier's agent is asked for that organization and one of its
    verifiers, signed, by the method of the request, with the organization's DID or with a
    certificate of its that has the method's key type and is active and valid when it is asked;
    and what is asked, in whichever of the two forms, is what the request says, or the template
    that the intent selects, with the request's response mode and origins. *)
Theorem sessions_signed m w : exists cs, calls (handle m w).2 = (calls w ++ cs)%list /\
  forall c s, c ∈ cs -> cl_body c = SessionRequest s -> exists o v p, asked m = Some (o, v) /\ cl_orgId c = o /\
    asked_of m w = Ok p /\ well_asked w o v p s.
Proof.
  destruct (asked m) as [[o v]|] eqn:Em.
  2: { destruct (no_sessions_message m Em w) as (cs & E & Hf). exists cs. split; [done|]. intros c s Hc Hs. rewrite Forall_forall in Hf.
       specialize (Hf c Hc). unfold other_call in Hf. by rewrite Hs in Hf. }
  assert (Hm : sends o (fun s => exists p, asked_of m w = Ok p /\ well_asked w o v p s) w (handle m w).2).
  2: { destruct Hm as (cs & E & H). exists cs. split; [done|]. intros c s Hc Hs. destruct (H c s Hc Hs) as [(d & ? & ?) ?]. by exists o, v, d. }
  destruct m; simplify_eq/=; rewrite ends_state; unfold oid4vpCreateVerificationSession, createIntentBasedVerificationPresentation; rewrite rpc_state; (apply sends_after; [auto with platform|]); intros [a r] w1 Hr _;
    apply verifier_ok in Hr as (-> & Ha & Ho & Hv & Hid & Hof).
  - destruct (pq_requestSigner request); [|by apply quiet_sends]. apply signed_session; [done|done|]. intros x Hx.
    eexists. split; [reflexivity|]. split_and!; [done..|]. by exists r.
  - destruct (template_read intent o ecosystemId w) as (t & Et & Ht). rewrite run_bind, Et. destruct t as [[[a' t']|]|]; [|by apply quiet_sends..].
    destruct (Ht a' t' eq_refl) as [Hfor ->]. clear Ht. unfold lift. rewrite run_bind. destruct (template_dcql _) as [d|] eqn:Ed; [|by apply quiet_sends].
    rewrite <- bind_assoc. apply sends_then_quiet; [|auto with platform]. apply signed_session; [done|done|]. intros x Hx.
    rewrite Hfor, Ed. eexists. split; [reflexivity|]. split_and!; [done..|]. by exists r.
Qed.
End laws.

(** * OpenID4VP verifiers: rows

    Organizations do not touch each other's rows, verifiers go when the agent has agreed,
    and the tables of both services stay consistent whatever messages are served. *)

Open Scope Z_scope.

#[local] Set Default Proof Using "All".

Section laws.
Context {P : Platform} {U : UuidSource} {N : Web} {A : VerifierAgent}.

(** ** Computations that write no row *)

(** As [quiet], but the agent may be called *)
Definition calm (w w' : world) : Prop :=
  untouched (platform w) (platform w') /\ agents w' = agents w /\ verifiers w' = verifiers w /\ presentations w' = presentations w.
#[export] Instance calm_preorder : PreOrder calm.
Proof.
  split; [by intros w|]. intros w w1 w2 (A1 & B1 & D1 & E1) (A2 & B2 & D2 & E2). unfold calm. rewrite B2, D2, E2. split; [by etrans | done].
Qed.
Lemma quiet_calm w w' : quiet w w' -> calm w w'.
Proof. by intros (? & ? & _ & ? & ? & _). Qed.
Lemma calm_quiet {B} (m : eff world B) : frames quiet m -> frames calm m.
Proof. apply frames_mono, quiet_calm. Qed.
Lemma calm_call c : frames calm (agent c).
Proof. by intros w. Qed.
Lemma calm_url a f i : frames calm (agent_url a f i).
Proof. by intros w. Qed.
#[local] Hint Resolve calm_call calm_url : platform.
Lemma calm_send c : frames calm (sendNatsMessage c).
Proof. unfold sendNatsMessage. solve_frames. Qed.
#[local] Hint Resolve calm_send : platform.
Lemma calm_rpc {B} (m : eff world B) : frames calm m -> frames calm (rpc m).
Proof. intros H w. rewrite rpc_state. apply H. Qed.
Lemma calm_verifier o v : frames calm (verifier_of o v).
Proof. apply calm_quiet, quiet_verifier. Qed.
Lemma calm_signer f o a s : frames calm (resolve_signer f o a s).
Proof. apply calm_quiet, quiet_signer. Qed.
Lemma calm_template i o e : frames calm (shared (getIntentTemplateByIntentAndOrg i o e)).
Proof. apply calm_quiet, quiet_template. Qed.
Lemma calm_enrich o i s : frames calm (enrich o i s).
Proof. apply calm_quiet, quiet_enrich. Qed.
Lemma calm_getTemplate o t : frames calm (getTemplateRow o t).
Proof. apply calm_quiet, quiet_shared. solve_frames. Qed.
#[local] Hint Resolve calm_rpc calm_verifier calm_signer calm_template calm_enrich calm_getTemplate : platform.

Lemma calm_fresh : frames calm fresh.
Proof. apply calm_quiet, quiet_shared, untouched_fresh. Qed.
Lemma calm_clock : frames calm now.
Proof. apply calm_quiet, quiet_now. Qed.

(** The messages that write a row *)
Definition writes (m : message) : bool :=
  match m with
  | CreateSession _ _ _ | CreateIntentSession _ _ _ _ _ _ _ | GetSession _ _ | GetSessionResponse _ _ | VerifyResponse _ _ => false
  | _ => true
  end.

Lemma calm_message m : writes m = false -> frames calm (handle m).
Proof.
  intros Hm w. destruct m; try done; simpl; rewrite ends_state; revert w.
  - unfold oid4vpCreateVerificationSession, send_session. apply calm_rpc. solve_frames.
  - unfold createIntentBasedVerificationPresentation, send_session. apply calm_rpc. solve_frames.
  - unfold getVerifierSession, getAgentEndPoint, _getOid4vpVerifierSession. apply calm_rpc. solve_frames.
  - unfold getVerificationSessionResponse, getAgentEndPoint, _getOid4vpVerifierSession. apply calm_rpc. solve_frames.
  - unfold verifyAuthorizationResponse, getAgentEndPoint. apply calm_rpc. solve_frames.
Qed.

(** ** Organizations apart *)

(** The rows that are not an organization's *)
Definition foreign_verifiers (org : string) (w : world) : list oid4vp_verifier := List.filter (fun v => negb (of_org org w v)) (verifiers w).
Definition foreign_templates (org : string) (w : world) : list verification_template :=
  List.filter (fun t => negb (String.eqb (vt_orgId t) org)) (verification_templates (platform w)).

Definition apart (org : string) (w w' : world) : Prop :=
  agents w' = agents w /\ foreign_verifiers org w' = foreign_verifiers org w /\ foreign_templates org w' = foreign_templates org w /\
  presentations w' = presentations w.
#[local] Instance apart_preorder org : PreOrder (apart org).
Proof. split; [by intros w|]. intros w w1 w2 (A1 & B1 & C1 & D1) (A2 & B2 & C2 & D2). unfold apart. by rewrite A2, B2, C2, D2. Qed.
Lemma calm_apart org w w' : calm w w' -> apart org w w'.
Proof.
  intros ((_ & _ & _ & _ & Ht) & Ha & Hv & Hp). unfold apart, foreign_verifiers, foreign_templates, of_org. by rewrite Ht, Ha, Hv, Hp.
Qed.
Lemma apart_calm {B} org (m : eff world B) : frames calm m -> frames (apart org) m.
Proof. apply frames_mono. intros w w'. apply calm_apart. Qed.

Lemma filter_add {R} (p : R -> bool) l x : p x = false -> List.filter p (l ++ [x]) = List.filter p l.
Proof. intros H. rewrite List.filter_app. simpl. by rewrite H, app_nil_r. Qed.
Lemma filter_updated {R} (p q : R -> bool) f l : (forall x, x ∈ l -> q x = true -> p x = false /\ p (f x) = false) ->
  List.filter p (update_where q f l) = List.filter p l.
Proof.
  induction l as [|x l IH]; intros H; [done|]. simpl. rewrite IH by (intros y Hy; apply H; by right).
  destruct (q x) eqn:E; [|done]. by destruct (H x ltac:(left) E) as [-> ->].
Qed.
Lemma filter_drop {R} (p q : R -> bool) l : (forall x, x ∈ l -> q x = true -> p x = false) ->
  List.filter p (List.filter (fun x => negb (q x)) l) = List.filter p l.
Proof.
  induction l as [|x l IH]; intros H; [done|]. simpl. assert (IH' := IH (fun y Hy => H y ltac:(by right))).
  destruct (q x) eqn:E; simpl; [by rewrite (H x ltac:(left) E) | by rewrite IH'].
Qed.

Lemma apart_create org d a u w : a ∈ agents w -> agent_of org a = true -> apart org w (createVerifierRow d (oa_id a) u w).2.
Proof.
  intros Ha Ho. unfold createVerifierRow. repeat (case_match; try reflexivity). unfold gets, modify. rewrite !run_bind. cbv beta iota. case_match; [done|].
  unfold fresh, now, shared, Intent.fresh, Intent.now, Intent.ecosystem, Ecosystem.fresh, Ecosystem.now. rewrite !run_bind. simpl.
  split_and!; try done. unfold foreign_verifiers. simpl. apply filter_add. apply negb_false_iff. unfold of_org, agent_id_of_org. simpl.
  apply existsb_elem. exists a. by rewrite String.eqb_refl.
Qed.

Lemma apart_update org d u id w : (forall v, v ∈ verifiers w -> ve_id v = id -> of_org org w v = true) -> apart org w (updateVerifierRow d u id w).2.
Proof.
  intros Hv. unfold updateVerifierRow, lift. rewrite run_bind. destruct (CommonService.prop _ _) as [m|]; [|done]. case_match; [done|].
  unfold gets, modify. rewrite run_bind. cbv beta iota. case_match; [|done]. rewrite run_bind. simpl. split_and!; try done.
  apply filter_updated. intros x Hx Hid%String.eqb_eq. pose proof (Hv x Hx Hid) as Hof. unfold of_org in *. simpl. by rewrite Hof.
Qed.

Lemma apart_delete org id : frames (apart org) (deleteVerifierByVerifierId org id).
Proof.
  intros w. unfold deleteVerifierByVerifierId, get, put. rewrite run_bind. cbv beta iota. case_match; [|done]. rewrite run_bind. simpl. split_and!; try done.
  apply (filter_drop (fun v => negb (of_org org w v))). intros x _ [_ Hof]%andb_true_iff. by rewrite Hof.
Qed.

Lemma apart_template (org : string) {B} (m : eff Intent.world B) :
  (forall p, List.filter (fun t => negb (String.eqb (vt_orgId t) org)) (verification_templates (m p).2) =
             List.filter (fun t => negb (String.eqb (vt_orgId t) org)) (verification_templates p)) -> frames (apart org) (shared m).
Proof. intros H w. specialize (H (platform w)). unfold shared. by destruct (m (platform w)). Qed.

Lemma template_own org id t : template_in org id t = true -> negb (String.eqb (vt_orgId t) org) = false.
Proof. intros [_ ->]%andb_true_iff. done. Qed.

Lemma apart_createTemplate org d u : frames (apart org) (createTemplateRow d org u).
Proof.
  unfold createTemplateRow. repeat case_match; try (apply frames_throw; exact _).
  apply frames_bind; [exact _ | apply apart_calm, calm_fresh | intros id]. apply frames_bind; [exact _ | apply apart_calm, calm_clock | intros t].
  apply frames_bind; [exact _ | | intros ?; apply frames_ret; exact _]. apply apart_template. intros p. apply filter_add. simpl. by rewrite String.eqb_refl.
Qed.

Lemma apart_updateTemplate org id d u : frames (apart org) (updateTemplateRow id d org u).
Proof.
  unfold updateTemplateRow. apply apart_template. intros p. unfold gets, modify. rewrite run_bind. cbv beta iota. case_match; [|done].
  rewrite run_bind. simpl. apply filter_updated. intros t _ Ht. split; [by eapply template_own|]. by apply template_own in Ht.
Qed.

Lemma apart_deleteTemplate org id : frames (apart org) (deleteTemplateRow org id).
Proof.
  unfold deleteTemplateRow. apply apart_template. intros p. unfold get, put. rewrite run_bind. cbv beta iota. case_match; [|done]. case_match; [done|].
  rewrite run_bind. simpl. apply (filter_drop (fun t => negb (String.eqb (vt_orgId t) org))). intros t _ Ht. by eapply template_own.
Qed.

Lemma agent_found org w a w1 : getAgentEndPoint org w = (Ok a, w1) -> a ∈ agents w /\ agent_of org a = true.
Proof. unfold getAgentEndPoint, gets. rewrite run_bind. cbv beta iota. destruct (first _ _) eqn:E; [|done]. intros [= <- _]. by apply first_Some in E. Qed.

(** The verifier that is found is the organization's, and no other has its identifier. *)
Lemma found_own org id w v vs w1 : NoDup (ve_id <$> verifiers w) -> getVerifiersByVerifierId org (Some id) w = (Ok (v :: vs), w1) ->
  w1 = w /\ v ∈ verifiers w /\ ve_id v = id /\ of_org org w v = true /\ forall x, x ∈ verifiers w -> ve_id x = id -> x = v.
Proof.
  intros Hnd H. unfold getVerifiersByVerifierId, gets in H. injection H as Hl <-.
  assert (Hv : v ∈ List.filter (fun v => verifier_is id v && of_org org w v) (verifiers w)) by (rewrite Hl; left).
  apply elem_of_filter_b in Hv as [Hv [Hid%String.eqb_eq Hof]%andb_true_iff]. split_and!; try done.
  intros x Hx Hxid. apply (unique_key ve_id _ _ _ Hnd Hx Hv). congruence.
Qed.

Definition tenant (m : message) : option string :=
  match m with
  | CreateVerifierMessage _ o _ | UpdateVerifierMessage _ o _ _ | DeleteVerifierMessage o _ | CreateSession o _ _ | CreateIntentSession o _ _ _ _ _ _
  | GetSession o _ | GetSessionResponse o _ | VerifyResponse _ o | CreateTemplate _ o _ | UpdateTemplate _ _ o _ | DeleteTemplate o _ => Some o
  | PresentationWebhook _ _ => None
  end.

Lemma apart_after {B C} (m : eff world B) (k : B -> eff world C) org w : frames calm m ->
  (forall b w1, m w = (Ok b, w1) -> calm w w1 -> apart org w1 (k b w1).2) -> apart org w ((m ≫= k) w).2.
Proof.
  intros Hm Hk. apply (after_frame calm); [done | intros w1; apply calm_apart|]. intros b w1 E Hc. etrans; [by apply calm_apart | by apply Hk].
Qed.
Lemma calm_agentRow o : frames calm (getAgentEndPoint o).
Proof. unfold getAgentEndPoint. solve_frames. Qed.
Lemma calm_verifiers o id : frames calm (getVerifiersByVerifierId o id).
Proof. by intros w. Qed.
#[local] Hint Resolve calm_agentRow calm_verifiers : platform.

Lemma apart_createVerifier c o u : frames (apart o) (oid4vpCreateVerifier c o u).
Proof.
  intros w. unfold oid4vpCreateVerifier, getVerifiersByPublicVerifierId. rewrite rpc_state. apply apart_after; [by intros x|]. intros l w1 _ _.
  destruct l; [|done]. apply apart_after; [auto with platform|]. intros a w2 [Ha Ho]%agent_found C2. apply apart_after; [auto with platform|]. intros url w3 _ C3.
  apply apart_after; [auto with platform|]. intros [v|e] w4 _ C4; [|by case_match]. case_match; [|done]. apply apart_create; [|done].
  destruct C2 as (_ & E2 & _), C3 as (_ & E3 & _), C4 as (_ & E4 & _). by rewrite E4, E3, E2.
Qed.

Lemma apart_updateVerifier d o id u w : NoDup (ve_id <$> verifiers w) -> apart o w (oid4vpUpdateVerifier d o id u w).2.
Proof.
  intros Hnd. unfold oid4vpUpdateVerifier. rewrite rpc_state. apply apart_after; [auto with platform|]. intros l w1 Hl _. destruct l as [|v vs]; [done|].
  apply found_own in Hl as (-> & Hv & Hid & Hof & Hun); [|done]. apply apart_after; [auto with platform|]. intros a w2 _ C2.
  apply apart_after; [auto with platform|]. intros url w3 _ C3. apply apart_after; [auto with platform|]. intros [x|e] w4 _ C4; [|by case_match].
  case_match; [|done]. assert (C : calm w w4) by (etrans; [exact C2|]; etrans; [exact C3 | exact C4]). destruct C as (_ & Ea & Ev & _).
  apply apart_update. unfold of_org. rewrite Ea, Ev. intros y Hy Hyid. by rewrite (Hun y Hy Hyid).
Qed.

Lemma apart_deleteVerifier o id w : apart o w (deleteVerifierById o id w).2.
Proof.
  unfold deleteVerifierById. rewrite rpc_state. apply apart_after; [auto with platform|]. intros [|v vs] w1 _ _; [done|].
  do 3 (apply apart_after; [auto with platform|]; intros ? ? _ _). apply apart_delete.
Qed.

(** C20. A message of an organization leaves the verifiers and templates of the others as
    they are and in their order, and the presentations too; those are only written by the
    agent's events, which touch neither. *)
Theorem tenants_isolated m w : NoDup (ve_id <$> verifiers w) ->
  let w' := (handle m w).2 in
  match tenant m with
  | Some org => foreign_verifiers org w' = foreign_verifiers org w /\ foreign_templates org w' = foreign_templates org w /\ presentations w' = presentations w
  | None => verifiers w' = verifiers w /\ verification_templates (platform w') = verification_templates (platform w)
  end.
Proof.
  intros Hnd. simpl. assert (Hm : forall org, tenant m = Some org -> apart org w (handle m w).2).
  { intros org Horg. destruct (writes m) eqn:Ew; [|by apply calm_apart, calm_message].
    destruct m; try done; simplify_eq/=; rewrite ends_state.
    - apply apart_createVerifier.
    - by apply apart_updateVerifier.
    - apply apart_deleteVerifier.
    - unfold createVerificationTemplate. rewrite rpc_state. apply apart_createTemplate.
    - unfold updateVerificationTemplate. rewrite rpc_state. apply apart_after; [auto with platform|]. intros [t|] w1 _ _; [apply apart_updateTemplate | done].
    - unfold deleteVerificationTemplate. rewrite rpc_state. apply apart_after; [auto with platform|]. intros [t|] w1 _ _; [apply apart_deleteTemplate | done]. }
  destruct (tenant m) as [org|] eqn:Et; [by destruct (Hm org eq_refl) as (_ & ? & ? & ?)|]. destruct m; try done. simpl. rewrite ends_state.
  unfold oid4vpPresentationWebhook. rewrite run_bind. set (pre := if bool_decide _ then _ else _).
  assert (Hpre : forall x, (pre x).2 = x).
  { intros x. unfold pre, getOrganizationByTenantId, gets. case_match; [done|]. rewrite run_bind. cbv beta iota. by case_match. }
  specialize (Hpre w). destruct (pre w) as [[o|e] w1]; simpl in Hpre; subst w1; [|done]. unfold storeOid4vpPresentationDetails.
  repeat (case_match; try done). unfold gets, modify. rewrite run_bind. cbv beta iota. destruct (first _ _); [done|]. done.
Qed.

(** ** Deletion *)

Definition stays (w w' : world) : Prop := forall id, id ∈ ve_id <$> verifiers w -> id ∈ ve_id <$> verifiers w'.
#[local] Instance stays_preorder : PreOrder stays.
Proof. split; [by intros w id|]. intros w w1 w2 H1 H2 id Hid. auto. Qed.
Lemma calm_stays w w' : calm w w' -> stays w w'.
Proof. intros (_ & _ & H & _) id. by rewrite H. Qed.
Lemma stays_calm {B} (m : eff world B) : frames calm m -> frames stays m.
Proof. apply frames_mono, calm_stays. Qed.
Lemma stays_shared {B} (m : eff Intent.world B) : frames stays (shared m).
Proof. intros w id. unfold shared. by destruct (m (platform w)). Qed.
Lemma stays_presentations f : frames stays (modify (fun w => set_presentations (f w) w)).
Proof. by intros w id. Qed.
Lemma stays_agent c : frames stays (agent c).
Proof. apply stays_calm, calm_call. Qed.
Lemma stays_url a f i : frames stays (agent_url a f i).
Proof. apply stays_calm, calm_url. Qed.
#[local] Hint Resolve stays_shared stays_presentations stays_agent stays_url : platform.
Lemma stays_create d a u : frames stays (createVerifierRow d a u).
Proof.
  unfold createVerifierRow, fresh, now. assert (forall r, frames stays (modify (fun w => set_verifiers (verifiers w ++ [r])%list w))).
  { intros r w id Hid. simpl. rewrite fmap_app. apply elem_of_app. by left. }
  solve_frames.
Qed.
Lemma stays_update d u id : frames stays (updateVerifierRow d u id).
Proof.
  intros w x. unfold updateVerifierRow, lift. rewrite run_bind. destruct (CommonService.prop _ _); [|done]. case_match; [done|].
  unfold gets, modify. rewrite run_bind. cbv beta iota. case_match; [|done]. rewrite run_bind. simpl. by rewrite fmap_update_where.
Qed.
#[local] Hint Resolve stays_create stays_update : platform.
Lemma stays_rpc {B} (m : eff world B) : frames stays m -> frames stays (rpc m).
Proof. intros H w. rewrite rpc_state. apply H. Qed.

Lemma stays_message m : match m with DeleteVerifierMessage _ _ => False | _ => True end -> frames stays (handle m).
Proof.
  intros Hm. destruct (writes m) eqn:Ew; [|by apply stays_calm, calm_message]. intros w. destruct m; try done; simpl; rewrite ends_state; revert w.
  - apply stays_rpc. unfold getVerifiersByPublicVerifierId, getAgentEndPoint. solve_frames.
  - apply stays_rpc. unfold getVerifiersByVerifierId, getAgentEndPoint. solve_frames.
  - unfold oid4vpPresentationWebhook, getOrganizationByTenantId, storeOid4vpPresentationDetails, fresh. solve_frames.
  - apply stays_rpc. unfold createTemplateRow, fresh, now. solve_frames.
  - apply stays_rpc. unfold getTemplateRow, updateTemplateRow. solve_frames.
  - apply stays_rpc. unfold getTemplateRow, deleteTemplateRow. solve_frames.
Qed.

(** A verifier goes only on the request of its organization, and after the agent
    answered the request to delete its record. *)
Theorem verifier_deleted m w v : NoDup (ve_id <$> verifiers w) -> v ∈ verifiers w -> ve_id v ∉ ve_id <$> verifiers (handle m w).2 ->
  exists org a url answer, m = DeleteVerifierMessage org (ve_id v) /\ of_org org w v = true /\
    a ∈ agents w /\ agent_of org a = true /\ getAgentUrl (default "" (oa_agentEndPoint a)) "delete-oid4vp-verifier" (Some (ve_verifierId v)) = Ok url /\
    calls (handle m w).2 = (calls w ++ [AgentCall "agent-delete-oid4vp-verifier" NoBody url org])%list /\
    on_agent (calls (handle m w).2) = inl answer.
Proof.
  intros Hnd Hv Hgone. assert (Hin : ve_id v ∈ ve_id <$> verifiers w) by (apply list_elem_of_fmap; eauto).
  assert (Hm : exists org id, m = DeleteVerifierMessage org id).
  { destruct m; try (by destruct Hgone; apply stays_message). eauto. }
  destruct Hm as (org & id & ->). simpl in *. rewrite ends_state in *. unfold deleteVerifierById in *. rewrite rpc_state in *. rewrite run_bind in *.
  destruct (getVerifiersByVerifierId org (Some id) w) as [[[|x xs]|e] w1] eqn:Ef;
    [by unfold getVerifiersByVerifierId, gets in Ef; simplify_eq| |by unfold getVerifiersByVerifierId, gets in Ef; simplify_eq].
  apply found_own in Ef as (-> & Hx & Hid & Hof & Hun); [|done]. unfold getAgentEndPoint, gets in *. rewrite !run_bind in *. cbv beta iota in *.
  destruct (first (agent_of org) (agents w)) as [a|] eqn:Ea; [|done]. apply first_Some in Ea as [Ha Hao]. rewrite run_ret, run_bind in *.
  unfold agent_url, lift in *. destruct (getAgentUrl _ _ _) as [url|e] eqn:Eu; [|done]. rewrite run_bind in *.
  unfold sendNatsMessage, agent, placed in *. rewrite !run_bind in *. rewrite run_ret in *. cbv beta iota in *.
  destruct (on_agent _) as [answer|e] eqn:Eans; [|done]. rewrite run_ret in *. unfold deleteVerifierByVerifierId, get, put in *. rewrite run_bind in *. cbv beta iota in *.
  cbn [verifiers] in *. destruct (first _ _) eqn:Efst; [|done]. rewrite run_bind in *. simpl in *.
  assert (Heq : ve_id v = id).
  { destruct (decide (ve_id v = id)) as [|Hne]; [done|]. destruct Hgone. apply list_elem_of_fmap. exists v. split; [done|]. apply elem_of_filter_b.
    split; [done|]. unfold verifier_is. by apply String.eqb_neq in Hne as ->. }
  assert (v = x) as -> by auto. exists org, a, url, answer. split_and!; try done. by rewrite Heq.
Qed.
End laws.
