(* ===== verification/Oid4vpExamples.v ===== *)
(** * OpenID4VP verifiers: both services together

    The messages of the ecosystem service and of the verification service work on the same
    rows; what refers to what stays in order whatever they are.  A deployment follows. *)

From S2P Require Import Prelude Js JsonParse Table CommonUtils CastHelper CommonService X509 CredentialTemplates Oid4vcData Oid4vcRepository Ecosystem Intent IntentService IntentInvariant IntentProofs Oid4vpData Oid4vp Oid4vpProofs.

Open Scope Z_scope.

#[local] Set Default Proof Using "All".

Section laws.
Context {P : Platform} {U : UuidSource} {N : Web} {A : VerifierAgent}.

(** ** Identifiers that have been drawn stay drawn *)

Definition ahead (w w' : Intent.world) : Prop := (drawn (eco w) <= drawn (eco w'))%nat.
#[local] Instance ahead_preorder : PreOrder ahead.
Proof. split; unfold ahead; [intros w | intros w w1 w2]; lia. Qed.
Lemma ahead_untouched {B} (m : eff Intent.world B) : frames untouched m -> frames ahead m.
Proof. apply frames_mono. by intros w w' ([_ H] & _). Qed.
Lemma ahead_modify f : (forall w, eco (f w) = eco w) -> frames ahead (modify f).
Proof. intros H w. unfold ahead. simpl. by rewrite H. Qed.
Lemma ahead_fresh : frames ahead Intent.fresh.
Proof. apply ahead_untouched, untouched_fresh. Qed.
Lemma ahead_now : frames ahead Intent.now.
Proof. apply ahead_untouched, untouched_now. Qed.
#[local] Hint Resolve ahead_fresh ahead_now : platform.
#[local] Hint Extern 1 (frames ahead (modify _)) => (apply ahead_modify; done) : platform.


(** A write of the state read, as a modification *)
Ltac ahead_row := let w := fresh "w" in intros w; unfold ahead, get, put, gets, modify, Intent.fresh, Intent.now, Intent.ecosystem, Ecosystem.fresh, Ecosystem.now;
  repeat (first [rewrite run_bind | rewrite run_throw | rewrite run_ret | progress cbv beta iota | progress simpl | case_match]); simpl; lia.

Lemma ahead_createIntent n d by_ ec : frames ahead (createIntentRow n d by_ ec).
Proof. unfold createIntentRow. ahead_row. Qed.
Lemma ahead_updateIntent i n d by_ : frames ahead (updateIntentRow i n d by_).
Proof. unfold updateIntentRow. ahead_row. Qed.
Lemma ahead_deleteIntent e i u : frames ahead (deleteIntent e i u).
Proof. unfold deleteIntent. ahead_row. Qed.
Lemma ahead_assign o i t u : frames ahead (createIntentTemplateRow o i t u).
Proof. unfold createIntentTemplateRow. ahead_row. Qed.
Lemma ahead_reassign id o i t u : frames ahead (updateIntentTemplateRow id o i t u).
Proof. unfold updateIntentTemplateRow. ahead_row. Qed.
Lemma ahead_unassign id : frames ahead (deleteIntentTemplateRow id).
Proof. unfold deleteIntentTemplateRow. ahead_row. Qed.
Lemma ahead_notice i url u o : frames ahead (createIntentNoticeRow i url u o).
Proof. unfold createIntentNoticeRow. ahead_row. Qed.
Lemma ahead_url i url u : frames ahead (updateIntentNoticeRow i url u).
Proof. unfold updateIntentNoticeRow. ahead_row. Qed.
Lemma ahead_silence id : frames ahead (deleteIntentNoticeRow id).
Proof. unfold deleteIntentNoticeRow. ahead_row. Qed.

Lemma ahead_handled {B} d (m : eff Intent.world B) : frames ahead m -> frames ahead (handled d m).
Proof. intros H w. rewrite handled_state. apply H. Qed.
Lemma ahead_member ec o : frames ahead (check_member ec o).
Proof. apply ahead_untouched, untouched_member. Qed.
Lemma ahead_get_ecosystem id : frames ahead (ecosystem (getEcosystemById id)).
Proof. apply ahead_untouched, untouched_ecosystem, grows_get. Qed.
Lemma ahead_org ec o : frames ahead (ecosystem (getEcosystemOrg ec o)).
Proof. apply ahead_untouched, untouched_ecosystem, grows_member. Qed.
Lemma ahead_validate url : frames ahead (validateNoticeUrl url).
Proof. apply ahead_untouched, untouched_url. Qed.
Lemma ahead_lead u ec : frames ahead (validateEcosystemLead u ec).
Proof. apply ahead_untouched, untouched_lead. Qed.
Lemma ahead_led id u : frames ahead (led_notice id u).
Proof. apply ahead_untouched, untouched_led. Qed.
#[local] Hint Resolve ahead_createIntent ahead_updateIntent ahead_deleteIntent ahead_assign ahead_reassign ahead_unassign ahead_notice ahead_url ahead_silence
  ahead_handled ahead_member ahead_get_ecosystem ahead_org ahead_validate ahead_lead ahead_led : platform.

Lemma ahead_message m : frames ahead (IntentService.handle m).
Proof.
  destruct m; simpl; unfold done_; try (apply frames_bind; [exact _ | | intros ?; apply frames_ret; exact _]).
  - apply ahead_untouched, untouched_ecosystem, grows_message.
  - unfold createIntent, checkIntentExist. apply frames_bind; [exact _ | apply ahead_handled; solve_frames | auto with platform].
  - unfold updateIntent, checkIntentExist. apply ahead_handled. solve_frames.
  - auto with platform.
  - unfold createIntentTemplate, findIntentById, findIntentTemplate. apply ahead_handled. solve_frames.
  - unfold updateIntentTemplate, getIntentTemplateRow, findIntentTemplate. apply ahead_handled. solve_frames.
  - unfold deleteIntentTemplate. auto with platform.
  - unfold createIntentNotice, findIntentById, intentNoticeExists. apply ahead_handled. solve_frames.
  - unfold updateIntentNotice. apply ahead_handled. solve_frames.
  - unfold deleteIntentNotice. apply ahead_handled. solve_frames.
Qed.

(** ** Both services *)

Record verifiers_ok (w : world) : Prop := VerifiersOk {
  vo_ids : NoDup (ve_id <$> verifiers w);
  vo_drawn v : v ∈ verifiers w -> drawn_in (platform w) (ve_id v);
  vo_agent_ids : NoDup (ve_verifierId <$> verifiers w);
  vo_agents v : v ∈ verifiers w -> exists a, a ∈ agents w /\ oa_id a = ve_orgAgentId v;
}.

Definition kept (w w' : world) : Prop := intents_ok (platform w) /\ verifiers_ok w -> intents_ok (platform w') /\ verifiers_ok w'.
#[local] Instance kept_preorder : PreOrder kept.
Proof. split; unfold kept; [by intros w | intros w w1 w2; auto]. Qed.

(** The verifiers stay and the database of the ecosystem service is kept. *)
Lemma kept_platform w w' : kept_intents (platform w) (platform w') -> ahead (platform w) (platform w') -> agents w' = agents w -> verifiers w' = verifiers w -> kept w w'.
Proof.
  intros Hp Ht Ha Hv [Hi []]. split; [by apply Hp|]. split; rewrite ?Ha, ?Hv; [done| |done|done].
  intros v (n & ? & ->)%vo_drawn0. exists n. unfold ahead in Ht. split; [lia | done].
Qed.
Lemma kept_calm w w' : calm w w' -> kept w w'.
Proof. intros (Hu & ? & ? & _). apply kept_platform; [by apply untouched_kept | by destruct Hu as ([_ Hd] & _) | done | done]. Qed.
Lemma kept_shared {B} (m : eff Intent.world B) : frames kept_intents m -> frames ahead m -> frames kept (shared m).
Proof.
  intros Hk Ha w. specialize (Hk (platform w)). specialize (Ha (platform w)). unfold shared.
  destruct (m (platform w)) as [r p]. by apply kept_platform.
Qed.

Lemma kept_after_calm {B C} (m : eff world B) (k : B -> eff world C) w : frames calm m ->
  (forall b w1, m w = (Ok b, w1) -> calm w w1 -> kept w1 (k b w1).2) -> kept w ((m ≫= k) w).2.
Proof.
  intros Hm Hk. apply (after_frame calm); [done | intros w1; apply kept_calm|]. intros b w1 E Hc. etrans; [by apply kept_calm | by apply Hk].
Qed.

Lemma kept_createVerifier d a u w : a ∈ agents w -> kept w (createVerifierRow d (oa_id a) u w).2.
Proof.
  intros Ha. unfold createVerifierRow. repeat (case_match; try reflexivity). unfold gets, modify. rewrite !run_bind. cbv beta iota.
  destruct (existsb _ _) eqn:E; [done|]. unfold fresh, now, shared, Intent.fresh, Intent.now, Intent.ecosystem, Ecosystem.fresh, Ecosystem.now.
  rewrite !run_bind. simpl. intros [Hi []]. split.
  - apply (untouched_kept (platform w)); [|done]. split; [apply grows_same; [done | simpl; lia] | done].
  - split; simpl.
    + by apply (NoDup_fresh ve_id (verifiers w) _ (platform w)).
    + intros x [(n & ? & ->)%vo_drawn0| ->%list_elem_of_singleton]%elem_of_app; [exists n; simpl; split; [lia | done]|].
      exists (drawn (eco (platform w))). simpl. split; [lia | done].
    + apply NoDup_new; [done|]. intros x Hx Hne. simpl in Hne. apply not_true_iff_false in E. apply E, existsb_elem. exists x. by rewrite String.eqb_eq.
    + intros x [Hx| ->%list_elem_of_singleton]%elem_of_app; [auto | by exists a].
Qed.

Lemma kept_update d u id : frames kept (updateVerifierRow d u id).
Proof.
  intros w. unfold updateVerifierRow, lift. rewrite run_bind. destruct (CommonService.prop _ _); [|done]. case_match; [done|].
  unfold gets, modify. rewrite run_bind. cbv beta iota. case_match; [|done]. rewrite run_bind. simpl. intros [Hi []]. split; [done|].
  split; simpl; rewrite ?fmap_update_where by done; try done; intros v (x & Hx & ->)%elem_of_update_where; destruct (verifier_is id x);
    first [apply (vo_drawn0 x Hx) | apply (vo_agents0 x Hx)].
Qed.

Lemma kept_delete o id : frames kept (deleteVerifierByVerifierId o id).
Proof.
  intros w. unfold deleteVerifierByVerifierId, get, put. rewrite run_bind. cbv beta iota. case_match; [|done]. rewrite run_bind. simpl.
  intros [Hi []]. split; [done|]. split; simpl; try (by apply filter_NoDup); intros v [Hv _]%elem_of_filter_b;
    first [apply (vo_drawn0 v Hv) | apply (vo_agents0 v Hv)].
Qed.

Lemma ahead_gets {B} (f : Intent.world -> B) : frames ahead (gets f).
Proof. apply frames_gets; exact _. Qed.

(** *** Templates *)

Lemma kept_templates_grow w t : kept_intents w (set_vtemplates (verification_templates w ++ [t])%list w).
Proof.
  intros []. split; simpl; auto; try (intros x Hx; first [apply (io_drawn x Hx) | apply (io_home x Hx) | apply (io_assignment_drawn x Hx) | apply (io_notice_drawn x Hx) | apply (io_noticed x Hx)]).
  intros a Ha. destruct (io_refers a Ha) as [H1 (x & Hx & E)]. split; [done|]. exists x. split; [|done]. simpl. apply elem_of_app. by left.
Qed.
Lemma kept_templates_same w l : (forall a, a ∈ intent_templates w -> has_template w (ia_templateId a) -> exists t, t ∈ l /\ vt_id t = ia_templateId a) ->
  kept_intents w (set_vtemplates l w).
Proof.
  intros Hl []. split; simpl; auto; try (intros x Hx; first [apply (io_drawn x Hx) | apply (io_home x Hx) | apply (io_assignment_drawn x Hx) | apply (io_notice_drawn x Hx) | apply (io_noticed x Hx)]).
  intros a Ha. destruct (io_refers a Ha) as [H1 H2]. split; [done|]. destruct (Hl a Ha H2) as (t & ? & ?). by exists t.
Qed.
Lemma kept_of_calm {B} (m : eff world B) : frames calm m -> frames kept m.
Proof. apply frames_mono, kept_calm. Qed.
#[local] Hint Resolve calm_fresh calm_clock calm_getTemplate calm_call calm_url calm_agentRow calm_verifiers calm_send : platform.
#[local] Hint Resolve kept_of_calm kept_update kept_delete : platform.

Lemma kept_newVerifierTemplate d o u : frames kept (createTemplateRow d o u).
Proof.
  unfold createTemplateRow. repeat case_match; try (apply frames_throw; exact _).
  do 2 (apply frames_bind; [exact _ | auto with platform | intros ?]). apply frames_bind; [exact _ | | intros ?; apply frames_ret; exact _].
  apply kept_shared; [|auto with platform]. intros w. apply kept_templates_grow.
Qed.

Lemma kept_changeVerifierTemplate id d o u : frames kept (updateTemplateRow id d o u).
Proof.
  unfold updateTemplateRow. apply kept_shared; [|ahead_row]. intros w. unfold gets, modify. rewrite run_bind. cbv beta iota. case_match; [|done].
  rewrite run_bind. apply kept_templates_same. intros a _ (t & Ht & <-). exists (if template_in o id t then retemplated d u t else t). split.
  - apply elem_of_update_where. by exists t.
  - by destruct (template_in o id t).
Qed.

Lemma kept_dropVerifierTemplate o id : frames kept (deleteTemplateRow o id).
Proof.
  unfold deleteTemplateRow. apply kept_shared; [|ahead_row]. intros w. unfold get, put. rewrite run_bind. cbv beta iota. case_match; [|done].
  destruct (existsb _ _) eqn:E; [done|]. rewrite run_bind. apply kept_templates_same. intros a Ha (t & Ht & Hid). exists t. split; [|done].
  apply elem_of_filter_b. split; [done|]. unfold template_in, template_is. destruct (String.eqb_spec (vt_id t) id) as [Heq|]; [|done]. exfalso.
  apply not_true_iff_false in E. apply E, existsb_elem. exists a. split; [done|]. rewrite <- Hid, Heq. apply String.eqb_refl.
Qed.
#[local] Hint Resolve kept_newVerifierTemplate kept_changeVerifierTemplate kept_dropVerifierTemplate : platform.

Lemma kept_presentations f : frames kept (modify (fun w => set_presentations (f w) w)).
Proof. intros w [H []]. by split. Qed.
#[local] Hint Resolve kept_presentations : platform.
Lemma kept_rpc {B} (m : eff world B) : frames kept m -> frames kept (rpc m).
Proof. intros H w. rewrite rpc_state. apply H. Qed.

Lemma kept_create c o u : frames kept (oid4vpCreateVerifier c o u).
Proof.
  intros w. unfold oid4vpCreateVerifier, getVerifiersByPublicVerifierId. rewrite rpc_state. apply kept_after_calm; [by intros x|]. intros l w1 _ _.
  destruct l; [|done]. apply kept_after_calm; [auto with platform|]. intros a w2 [Ha Ho]%agent_found C2. apply kept_after_calm; [auto with platform|]. intros url w3 _ C3.
  apply kept_after_calm; [auto with platform|]. intros [v|e] w4 _ C4; [|by case_match]. case_match; [|done]. apply kept_createVerifier.
  destruct C2 as (_ & E2 & _), C3 as (_ & E3 & _), C4 as (_ & E4 & _). by rewrite E4, E3, E2.
Qed.

Lemma kept_verifier_message m : frames kept (handle m).
Proof.
  destruct (writes m) eqn:Ew; [|by apply kept_of_calm, calm_message]. intros w. destruct m; try done; simpl; rewrite ends_state; revert w.
  - apply kept_create.
  - apply kept_rpc. solve_frames.
  - apply kept_rpc. solve_frames.
  - unfold oid4vpPresentationWebhook, getOrganizationByTenantId, storeOid4vpPresentationDetails. solve_frames.
  - apply kept_rpc. solve_frames.
  - apply kept_rpc. solve_frames.
  - apply kept_rpc. solve_frames.
Qed.

(** The messages to either service, in the order they are served *)
Inductive platform_message := ToEcosystem (m : IntentService.message) | ToVerifier (m : Oid4vp.message).
Definition serve (m : platform_message) : eff world unit :=
  match m with ToEcosystem m => shared (IntentService.handle m) | ToVerifier m => handle m end.
Definition served_both (ms : list platform_message) (w : world) : world := fold_left (fun w m => (serve m w).2) ms w.
Definition named (m : platform_message) : Prop := match m with ToEcosystem m => named_org m | ToVerifier _ => True end.

Lemma kept_both ms w : Forall named ms -> intents_ok (platform w) /\ verifiers_ok w -> intents_ok (platform (served_both ms w)) /\ verifiers_ok (served_both ms w).
Proof.
  intros H. revert w. induction H as [|m ms Hm _ IH]; intros w Hw; [done|]. apply IH. destruct m as [m|m]; simpl.
  - by apply kept_shared; [apply kept_message | apply ahead_message|].
  - by apply kept_verifier_message.
Qed.

(** C29. Whatever messages both services serve, and in whatever order: intents have their own
    identifiers and an ecosystem; a template is assigned to an intent at most once for an
    organization or for all, and both exist, so that no assigned template is deleted; an
    organization has at most one notice for an intent; verifiers have their own identifiers,
    here and at the agent, and an agent. *)
Theorem intents_and_verifiers_consistent ms e ts ags cs : Forall named ms ->
  let w := World (Intent.World e [] [] [] ts []) ags cs [] [] [] in
  intents_ok (platform (served_both ms w)) /\ verifiers_ok (served_both ms w).
Proof.
  intros Hms w. apply kept_both; [done|]. split.
  - split; simpl; first [by constructor | intros x Hx; by apply elem_of_nil in Hx].
  - split; simpl; first [by constructor | intros x Hx; by apply elem_of_nil in Hx].
Qed.
End laws.

(** ** A deployment *)

Module VerifierSample.
#[local] Existing Instances EcosystemSample.ids EcosystemSample.platform.

(** Every address is reachable; the last one asked for answers with a notice. *)
#[local] Instance web : Web :=
  {| on_fetch us := Fetched 200 (Some (Json.JObj [("consent_notice", Json.JObj [("consentNoticeUrl", Json.JStr "https://notice/1")])])) |}.

(** The agent takes the verifiers it is given, refuses to delete the record [rec1] and
    creates sessions. *)
#[local] Instance verifier_agent : VerifierAgent := {| on_agent cs :=
  match last cs with
  | Some c =>
      match cl_body c with
      | VerifierCreation v => inl (Some (Json.JObj [("id", Json.JStr ("rec" +:+ pretty (length cs))); ("verifierId", Json.JStr (cv_verifierId v));
          ("clientMetadata", Json.JObj [])]))
      | SessionRequest _ => inl (Some (Json.JObj [("verificationSession", Json.JObj [("id", Json.JStr "s1")])]))
      | _ => if String.eqb (cl_url c) "http://agent/openid4vc/verifier/rec1" then inr (Json.JObj [("message", Json.JStr "in use"); ("statusCode", Json.JNum 400)])
             else inl (Some (Json.JObj []))
      end
  | None => inl None
  end |}.

Definition dcql : Json.value := Json.JObj [("dcql", Json.JStr "age over 18")].
Definition certificate : X509.X509CertificateRecord :=
  X509.Certificate "c1" "ag2" "P-256" x5cRecordStatus.Active 0 1000 "base64" (Some "key1") 0 "u2" 0 "u2".
Definition org_agent : org_agents := OrgAgent "ag2" (Some "o2") (Some "did:web:o2") (Some "http://agent") None (Some "tenant2").
Definition start : world := World (Intent.World Ecosystem.empty [] [] [] [] []) [org_agent] [certificate] [] [] [].

(** The template of an intent is not deleted, a verifier whose record the agent keeps
    neither. *)
Definition history : list platform_message :=
  (map (fun m => ToEcosystem (EcosystemMessage m)) EcosystemSample.life ++
  [ToVerifier (CreateTemplate (TemplateDto (Some "Age") (Some dcql) (Some DID)) "o2" "u2");
   ToEcosystem (CreateIntent "KYC" None "id1" "u1"); ToEcosystem (CreateIntentTemplate (Some "o2") "id8" "id7" "u1");
   ToVerifier (DeleteTemplate "o2" "id7"); ToEcosystem (CreateIntentNotice "id8" (Some "https://notice") "u1" (Some "o2"));
   ToVerifier (CreateVerifierMessage (NewVerifier "shop" None) "o2" "u2"); ToVerifier (CreateVerifierMessage (NewVerifier "shop" None) "o2" "u2");
   ToVerifier (CreateVerifierMessage (NewVerifier "bar" None) "o2" "u2"); ToVerifier (DeleteVerifierMessage "o2" "id11")])%list.
Definition reached : world := served_both history start.

Definition session : message := CreateIntentSession "o2" "id11" "KYC" "direct_post" (Some (Signer (Some "X509_P256") None)) (Some "id1") None.

Example verifiers_life : map (fun v => (ve_id v, publicVerifierId v, ve_verifierId v)) (verifiers reached) = [("id11", "shop", "rec1"); ("id12", "bar", "rec2")] /\
  map vt_id (verification_templates (platform reached)) = ["id7"] /\
  map cl_body (skipn 3 (calls (handle session reached).2)) =
    [SessionRequest (SessionSent "shop" None (Some (Json.JStr "age over 18")) "direct_post" (X5cSigner ["base64"] "key1" None) None)].
Proof. vm_compute. done. Qed.

Example intents_and_verifiers_consistent_witness : intents_ok (platform reached) /\ verifiers_ok reached.
Proof.
  apply (intents_and_verifiers_consistent history Ecosystem.empty [] [org_agent] [certificate]).
  repeat constructor; discriminate.
Defined.

Example tenants_isolated_witness : foreign_verifiers "o1" (handle (DeleteVerifierMessage "o1" "id12") reached).2 = foreign_verifiers "o1" reached.
Proof.
  refine (proj1 (tenants_isolated (DeleteVerifierMessage "o1" "id12") reached _)).
  apply (bool_decide_unpack (NoDup (ve_id <$> verifiers reached))). vm_compute. exact I.
Defined.

Definition bar : oid4vp_verifier := Verifier "id12" "bar" (Json.JObj []) "rec2" 9 "u2" "u2" "ag2".

Example verifier_deleted_witness : exists org, DeleteVerifierMessage "o2" "id12" = DeleteVerifierMessage org "id12" /\ of_org org reached bar = true.
Proof.
  destruct (verifier_deleted (DeleteVerifierMessage "o2" "id12") reached bar) as (org & a & url & answer & H1 & H2 & _).
  - apply (bool_decide_unpack (NoDup (ve_id <$> verifiers reached))). vm_compute. exact I.
  - assert (E : verifiers reached = [Verifier "id11" "shop" (Json.JObj []) "rec1" 8 "u2" "u2" "ag2"; bar]) by (vm_compute; reflexivity).
    rewrite E. right. left.
  - assert (E : ve_id <$> verifiers (handle (DeleteVerifierMessage "o2" "id12") reached).2 = ["id11"]) by (vm_compute; reflexivity).
    rewrite E. intros H%list_elem_of_singleton. discriminate.
  - exists org. split; [exact H1 | exact H2].
Defined.
End VerifierSample.
