(* ===== verification/GatewayAuth.v ===== *)
(** * The API gateway: who may call what

    [apps/api-gateway/src/authz]: what [jwt.strategy.ts] makes of a verified token, and
    the guards of [authz/guards] that decide on its result. *)

From S2P Require Import Prelude Js.

(** ** The request *)

(** A row of [user_org_roles] with its role's name. *)
Record user_org_role := OrgRole { uor_orgId : option string; orgRole_name : string }.

Record ecosystem_group := Group { lead : option (list string); member : option (list string) }.

(** [request.user]: the fields the guards read.  [None] is an absent property, or
    [undefined] where the two do not differ. *)
Record request_user := User {
  id : option string;
  email : option string;
  client_id : option string;
  userRole : option string;
  resource_access : option (list (string * list string));
  userOrgRoles : option (list user_org_role);
  realm_roles : option (list string);
  ecosystem_access : option (list (string * ecosystem_group));
  selectedOrg : option (user_org_role * list (option string));
}.

(** A property of [params], [query] or [body]. *)
Definition prop : Type := option Json.value.

Record request := Request {
  user : option request_user;
  params_orgId : prop;
  query_orgId : prop;
  body_orgId : option prop;    (* [None] without a body *)
}.

Definition type_error : exn := js_error "Cannot read properties of undefined".
Definition unauthorized (m : string) : exn := http_exn UnauthorizedException m.
Definition forbidden (m : string) : exn := http_exn ForbiddenException m.
Definition bad_request (m : string) : exn := http_exn BadRequestException m.

Definition USER_HOLDER_ROLE : string := "holder".
Definition HOLDER_MAPPING : string := "HOLDER".
Definition PLATFORM_ADMIN : string := "platform_admin".
Definition ECOSYSTEM_LEAD : string := "Ecosystem Lead".
Definition ECOSYSTEM_MEMBER : string := "Ecosystem Member".

#[global] Opaque PLATFORM_ADMIN ECOSYSTEM_LEAD ECOSYSTEM_MEMBER.

(** ** [JwtStrategy.validate] *)

(** The claims the gateway or its guards look at.  A token may carry claims beyond
    [JwtPayload], those of [request.user] among them. *)
Record claims := Claims {
  c_sub : string;
  c_sid : option string;
  c_user : request_user;
}.

(** What the user and the organization services return. *)
Record user_details := Details {
  ud_user : request_user;
  user_role_mapping : option (list (option string));    (* the role of each mapping *)
}.
Record owner_role := Owner { own_user : option user_details; own_role : user_org_role }.

Class Identity := {
  checkSession : string -> result bool;                  (* whether a session is found *)
  findOrganizationOwner : string -> result (option (list owner_role));
  findUserinKeycloak : string -> result (option user_details);
  isValidUUID : string -> bool;                          (* the [uuid] package *)
}.

(** [/^[0-9a-f]{8}-[0-9a-f]{4}-[0-9a-f]{4}-[0-9a-f]{4}-[0-9a-f]{12}$/i] *)
Definition is_hex (c : ascii) : bool := match Uri.hex c with Some _ => true | None => false end.

Definition uuidRegex (s : string) : bool :=
  match map (fun w => (Str.len w, forallb is_hex (String.list_ascii_of_string w))) (Str.split "-" s) with
  | [(8, true); (4, true); (4, true); (4, true); (12, true)]%nat => true
  | _ => false
  end.

(** [{ ...details, ...payload }], field by field; a claim is not [null]. *)
Definition over {A} (new old : option A) : option A := match new with Some _ => new | None => old end.

Definition spread (old new : request_user) : request_user :=
  User (over (id new) (id old)) (over (email new) (email old)) (over (client_id new) (client_id old))
    (over (userRole new) (userRole old)) (over (resource_access new) (resource_access old))
    (over (userOrgRoles new) (userOrgRoles old)) (over (realm_roles new) (realm_roles old))
    (over (ecosystem_access new) (ecosystem_access old)) (over (selectedOrg new) (selectedOrg old)).

Definition no_user : request_user := User None None None None None None None None None.

Definition with_role (r : option string) (u : request_user) : request_user :=
  User (id u) (email u) (client_id u) r (resource_access u) (userOrgRoles u) (realm_roles u) (ecosystem_access u) (selectedOrg u).
Definition with_orgRoles (rs : list user_org_role) (u : request_user) : request_user :=
  User (id u) (email u) (client_id u) (userRole u) (resource_access u) (Some rs) (realm_roles u) (ecosystem_access u) (selectedOrg u).

Section validate.
Context {I : Identity}.

(** [if (sessionId) { try { checkSession } catch ...; if (!sessionDetails) throw }] *)
Definition check_session (sid : option string) : result unit :=
  if truthy_str sid
  then match checkSession (default "" sid) with
       | Ok true => mret tt
       | _ => Throw (unauthorized "Authentication failed")
       end
  else mret tt.

Definition user_details_of (c : claims) : result (option user_details) :=
  match client_id (c_user c) with
  | Some cid =>
      if uuidRegex cid then
        orgDetails ← findOrganizationOwner cid;
        match orgDetails with
        | None => Throw (http_exn NotFoundException "Organization does not exists")
        | Some [] => Throw type_error
        | Some (o :: _) =>
            match own_user o with
            | None => Throw type_error
            | Some d => mret (Some (Details (with_orgRoles [own_role o] (ud_user d)) (user_role_mapping d)))
            end
        end
      else mret None
  | None => findUserinKeycloak (c_sub c)
  end.

Definition is_holder (d : option user_details) : bool :=
  existsb (fun r => bool_decide (r = Some HOLDER_MAPPING)) (default [] (d ≫= user_role_mapping)).

Definition validate (c : claims) : result request_user :=
  _ ← check_session (c_sid c);
  userDetails ← user_details_of c;
  let isServiceToken := match client_id (c_user c) with Some cid => negb (uuidRegex cid) | None => false end in
  if bool_decide (userDetails = None) && negb isServiceToken
  then Throw (http_exn NotFoundException "User not found")
  else mret (with_role (if is_holder userDetails then Some USER_HOLDER_ROLE else None)
               (spread (from_option ud_user no_user userDetails) (c_user c))).
End validate.

(** ** [OrgRolesGuard] *)

(** [o ? o.trim() : ''] *)
Definition trimmed (o : prop) : result string :=
  match o with
  | None => Ok ""
  | Some v => if negb (Json.truthy v) then Ok ""
              else match v with Json.JStr s => Ok (Str.trim s) | _ => Throw type_error end
  end.

(** [o?.trim() || ''] *)
Definition trimmed_opt (o : prop) : result string :=
  match o with
  | None | Some Json.JNull => Ok ""
  | Some (Json.JStr s) => Ok (Str.trim s)
  | Some _ => Throw type_error
  end.

(** The organization a request names, in the order of precedence. *)
Definition named_org (r : request) : result string :=
  p ← trimmed (params_orgId r);
  q ← trimmed (query_orgId r);
  b ← match body_orgId r with Some o => trimmed_opt o | None => Ok "" end;
  mret (if negb (String.eqb p "") then p else if negb (String.eqb q "") then q else b).

Definition has_role (name : string) (roles : list user_org_role) : bool :=
  existsb (fun r => String.eqb (orgRole_name r) name) roles.

(** [orgDetails.orgId && orgDetails.orgId.toString().trim() === orgId.toString().trim()] *)
Definition in_org (org : string) (r : user_org_role) : bool :=
  match uor_orgId r with
  | Some o => negb (String.eqb o "") && String.eqb (Str.trim o) (Str.trim org)
  | None => false
  end.

Definition lookup_access (org : string) (u : request_user) : option (list string) :=
  match resource_access u with
  | Some ra => snd <$> List.find (fun kv => String.eqb kv.1 org) ra
  | None => None
  end.

Definition roleNotMatch : exn := forbidden "User does not have access".
Definition orgNotMatch : exn := forbidden "Organization does not have access".

Definition is_holder_user (u : request_user) : bool :=
  match userRole u with Some r => Str.contains "holder" r | None => false end.

(** The decision, and the [selectedOrg] the guard leaves on the user. *)
Record verdict := Verdict { granted : bool; selected : option (user_org_role * list (option string)) }.

Definition plain (b : bool) : verdict := Verdict b None.

Section org_roles.
Context {I : Identity}.

(** The roles by which an organization's own client acts, and those of a user. *)
Definition org_access (required : list string) (names : user_org_role -> list user_org_role -> list (option string))
    (u : request_user) (org : string) : result verdict :=
  if negb (isValidUUID org) then Throw (bad_request "Invalid format for orgId")
  else match lookup_access org u with
  | Some orgRoles =>
      if existsb (fun role => existsb (String.eqb role) orgRoles) required then Ok (plain true) else Throw roleNotMatch
  | None =>
      match userOrgRoles u with
      | None => Throw type_error
      | Some roles =>
          match List.find (in_org org) roles with
          | None => Throw orgNotMatch
          | Some specificOrg =>
              let orgRoles := names specificOrg roles in
              if existsb (fun role => existsb (fun o => bool_decide (o = Some role)) orgRoles) required
              then Ok (Verdict true (Some (specificOrg, orgRoles))) else Throw roleNotMatch
          end
      end
  end.

(** [requiredRoles] is the metadata of the route. *)
Definition OrgRolesGuard (requiredRoles : option (list string)) (r : request) : result verdict :=
  match requiredRoles with
  | None => Throw (js_error "Cannot convert undefined or null to object")
  | Some required =>
      if match user r with Some u => is_holder_user u | None => false end
      then Throw (forbidden "This role is a holder.")
      else
        org ← named_org r;
        match user r with
        | None => if String.eqb org "" && negb (existsb (String.eqb PLATFORM_ADMIN) required)
                  then Throw (bad_request "Please provide valid orgId")
                  else if negb (String.eqb org "") && negb (isValidUUID org) then Throw (bad_request "Invalid format for orgId")
                  else Throw type_error
        | Some u =>
            if negb (String.eqb org "") then
              org_access required (fun _ roles => map (fun o => if in_org org o then Some (orgRole_name o) else None) roles) u org
            else if existsb (String.eqb PLATFORM_ADMIN) required then
              match userOrgRoles u with
              | None => Throw type_error
              | Some roles => Ok (plain (has_role PLATFORM_ADMIN roles))
              end
            else Throw (bad_request "Please provide valid orgId")
        end
  end.

(** ** [EcosystemRolesGuard] *)

(** [case 'string' === typeof x: orgId = x.trim()], in order *)
Definition ecosystem_org (r : request) : string :=
  match params_orgId r, query_orgId r, mjoin (body_orgId r) with
  | Some (Json.JStr s), _, _ => Str.trim s
  | _, Some (Json.JStr s), _ => Str.trim s
  | _, _, Some (Json.JStr s) => Str.trim s
  | _, _, _ => ""
  end.

Definition some_role (l : option (list string)) : bool := match l with Some (_ :: _) => true | _ => false end.

Definition ecosystem_roles (u : request_user) : list string :=
  let groups := map snd (default [] (ecosystem_access u)) in
  (if existsb (fun g => some_role (lead g)) groups then [ECOSYSTEM_LEAD] else []) ++
  (if existsb (fun g => some_role (member g)) groups then [ECOSYSTEM_MEMBER] else []).

Definition EcosystemRolesGuard (adminEmail : option string) (requiredRoles : option (list string)) (r : request) : result verdict :=
  match requiredRoles with
  | None | Some [] => Ok (plain true)
  | Some ((_ :: _) as required) =>
      let org := ecosystem_org r in
      if existsb (fun role => existsb (String.eqb role) (from_option ecosystem_roles [] (user r))) required then Ok (plain true)
      else match user r with
      | None => Throw type_error
      | Some u =>
          let admin_route := bool_decide (email u = adminEmail) && existsb (String.eqb PLATFORM_ADMIN) required in
          match userOrgRoles u with
          | None => if admin_route then Throw type_error
                    else if String.eqb org "" then Ok (plain false)
                    else org_access required (fun _ _ => []) u org
          | Some roles =>
              if admin_route && has_role PLATFORM_ADMIN roles then Ok (plain true)
              else if String.eqb org "" then Ok (plain false)
              else org_access required (fun _ roles => map (fun o => Some (orgRole_name o)) (List.filter (in_org org) roles)) u org
          end
      end
  end.
End org_roles.

(** ** The other guards *)

(** [Object.prototype.hasOwnProperty.call(user, 'client_id')] *)
Definition ClientAccessGuard (r : request) : result bool :=
  match user r with
  | Some u => match client_id u with Some _ => Ok true | None => Throw (unauthorized "You do not have access") end
  | None => Throw (unauthorized "You do not have access")
  end.

Definition UserAccessGuard (r : request) : result bool :=
  match user r with
  | None => Throw type_error
  | Some u =>
      match client_id u with
      | Some _ => Throw (unauthorized "You do not have access")
      | None => if is_holder_user u then Throw (forbidden "This role is a holder.") else Ok true
      end
  end.

Definition UserRoleGuard (r : request) : result bool :=
  match user r with
  | None => Throw (forbidden "This role is not a holder.")
  | Some u => if is_holder_user u then Ok true else Throw (forbidden "This role is not a holder.")
  end.

Definition TrustServiceRoleGuard (r : request) : result bool :=
  match user r with
  | None => Throw (unauthorized "Unauthorized")
  | Some u => if existsb (String.eqb "trust-service") (default [] (realm_roles u)) then Ok true
              else Throw (forbidden "Access restricted to trust-service clients only")
  end.

(** [isEcosystemEnabled] of the platform's configuration, [None] without a row *)
Definition EcosystemFeatureGuard (isEcosystemEnabled : option bool) : result bool :=
  if default false isEcosystemEnabled then Ok true else Throw (forbidden "You don't have access to this feature").

Definition isPlatformAdmin (u : option request_user) : bool :=
  match u with Some u => has_role PLATFORM_ADMIN (default [] (userOrgRoles u)) | None => false end.

(** ** Laws *)

(** The roles a caller holds in an organization: those of its client when the token
    grants any, and otherwise those of the user. *)
Definition holds (u : request_user) (org role : string) : Prop :=
  match lookup_access org u with
  | Some names => role ∈ names
  | None => exists roles o oid, userOrgRoles u = Some roles /\ o ∈ roles /\ orgRole_name o = role /\
      uor_orgId o = Some oid /\ oid <> "" /\ Str.trim oid = Str.trim org
  end.

Lemma in_org_spec org o : in_org org o = true <-> exists oid, uor_orgId o = Some oid /\ oid <> "" /\ Str.trim oid = Str.trim org.
Proof.
  unfold in_org. destruct (uor_orgId o) as [oid|]; [|naive_solver].
  rewrite andb_true_iff, negb_true_iff, String.eqb_neq, String.eqb_eq. naive_solver.
Qed.

Definition admits (g : result verdict) : Prop := exists v, g = Ok v /\ granted v = true.

Lemma has_role_elem name roles : has_role name roles = true <-> exists r, r ∈ roles /\ orgRole_name r = name.
Proof. unfold has_role. rewrite existsb_elem. by setoid_rewrite String.eqb_eq. Qed.

Lemma find_in_org org roles : List.find (in_org org) roles = None <-> forall o, o ∈ roles -> in_org org o = false.
Proof.
  split.
  - intros H o Ho. apply (find_none _ _ H). by apply list_elem_of_In.
  - intros H. destruct (List.find _ _) as [o|] eqn:E; [|done]. apply find_some in E as [Hin%list_elem_of_In Ho].
    by rewrite H in Ho.
Qed.

Section laws.
Context {I : Identity}.

(** Access to an organization, when the roles offered to the test are exactly those of
    the rows of the organization. *)
Lemma org_access_exact required names u org :
  (forall s roles role, Some role ∈ names s roles <-> exists o, o ∈ roles /\ in_org org o = true /\ orgRole_name o = role) ->
  admits (org_access required names u org) <->
  isValidUUID org = true /\ exists role, role ∈ required /\ holds u org role.
Proof.
  intros Hn. unfold admits, org_access, holds. destruct (isValidUUID org); simpl; [|naive_solver].
  destruct (lookup_access org u) as [names'|].
  { destruct (existsb _ required) eqn:E.
    - apply existsb_elem in E. setoid_rewrite existsb_mem in E. naive_solver.
    - apply not_true_iff_false in E. rewrite existsb_elem in E. setoid_rewrite existsb_mem in E. naive_solver. }
  destruct (userOrgRoles u) as [roles|]; [|naive_solver].
  destruct (List.find _ roles) as [s|] eqn:Hf.
  2: { rewrite find_in_org in Hf. split; [naive_solver|].
       intros (_ & role & _ & rs & o & oid & [= <-] & Ho & _ & Hin). specialize (Hf o Ho).
       by rewrite (proj2 (in_org_spec org o)) in Hf by eauto. }
  assert (Hrole : existsb (fun role => existsb (fun o => bool_decide (o = Some role)) (names s roles)) required = true <->
    exists role, role ∈ required /\ exists o, o ∈ roles /\ in_org org o = true /\ orgRole_name o = role).
  { rewrite existsb_elem. setoid_rewrite existsb_elem. setoid_rewrite bool_decide_eq_true. setoid_rewrite <- Hn. naive_solver. }
  setoid_rewrite in_org_spec in Hrole.
  destruct (existsb _ required).
  - destruct Hrole as [Hrole _]. specialize (Hrole eq_refl). naive_solver.
  - destruct Hrole as [_ Hrole]. split; [naive_solver|]. intros (_ & role & Hr & rs & o & oid & [= <-] & Ho).
    discriminate Hrole. naive_solver.
Qed.

(** C2. [OrgRolesGuard] admits a request exactly when its user is no holder and either
    names an organization in which the user, or the client, holds a required role, or
    names none, the route is one for platform administrators and the user is one. *)
Theorem org_roles_guard_exact required r org : named_org r = Ok org ->
  admits (OrgRolesGuard (Some required) r) <->
  exists u, user r = Some u /\ is_holder_user u = false /\
    ((org <> "" /\ isValidUUID org = true /\ exists role, role ∈ required /\ holds u org role) \/
     (org = "" /\ PLATFORM_ADMIN ∈ required /\
        exists roles o, userOrgRoles u = Some roles /\ o ∈ roles /\ orgRole_name o = PLATFORM_ADMIN)).
Proof.
  intros Horg. unfold OrgRolesGuard. rewrite Horg. destruct (user r) as [u|]; simpl.
  2: { split; [|naive_solver]. intros (v & Hv & _). repeat case_match; done. }
  destruct (is_holder_user u) eqn:Hh.
  { split; [by intros (v & ? & _)|]. intros (u' & [= <-] & Hf & _). congruence. }
  destruct (String.eqb_spec org "") as [->|Hne]; simpl.
  - destruct (existsb (String.eqb PLATFORM_ADMIN) required) eqn:E.
    + apply existsb_mem in E. split.
      * unfold admits. destruct (userOrgRoles u) as [roles|] eqn:Hr; intros (v & Hv & Hg); [|done]. simplify_eq/=.
        apply has_role_elem in Hg as (o & Ho & Hn). exists u. split_and!; [done..|]. right. split_and!; [done..|].
        by exists roles, o.
      * intros (u' & [= <-] & _ & [[? _]|(_ & _ & roles & o & -> & Ho & Hn)]); [done|].
        eexists. split; [done|]. apply has_role_elem. by exists o.
    + apply not_true_iff_false in E. rewrite existsb_mem in E. split; [by intros (v & ? & _)|].
      by intros (u' & _ & _ & [[? _]|(_ & ? & _)]).
  - rewrite org_access_exact.
    + split; [intros [Hv Hr]; exists u; split_and!; [done..|]; left; split_and!; done|].
      intros (u' & [= <-] & _ & [(_ & ? & ?)|[? _]]); done.
    + intros _ roles role. rewrite list_elem_of_fmap. split.
      * intros (o & Ho & Hin). exists o. destruct (in_org org o) eqn:E; by simplify_eq.
      * intros (o & Ho & Hin & <-). exists o. by rewrite Hin.
Qed.

Lemma ecosystem_roles_spec u (required : list string) :
  (exists role, role ∈ required /\ role ∈ ecosystem_roles u) <->
  (ECOSYSTEM_LEAD ∈ required /\ exists e g, (e, g) ∈ default [] (ecosystem_access u) /\ some_role (lead g) = true) \/
  (ECOSYSTEM_MEMBER ∈ required /\ exists e g, (e, g) ∈ default [] (ecosystem_access u) /\ some_role (member g) = true).
Proof.
  assert (H : forall (p : ecosystem_group -> bool), existsb p (map snd (default [] (ecosystem_access u))) = true <->
    exists e g, (e, g) ∈ default [] (ecosystem_access u) /\ p g = true).
  { intros p. rewrite existsb_elem. split.
    - intros (g & ([e g'] & -> & Hg)%list_elem_of_fmap & Hp). by exists e, g'.
    - intros (e & g & Hg & Hp). exists g. split; [|done]. apply list_elem_of_fmap. by exists (e, g). }
  rewrite <- (H (fun g => some_role (lead g))), <- (H (fun g => some_role (member g))). unfold ecosystem_roles.
  setoid_rewrite elem_of_app. 
  assert (Hs : forall (b : bool) (x s : string), x ∈ (if b then [s] else []) <-> x = s /\ b = true).
  { intros [] x s; [rewrite list_elem_of_singleton | rewrite elem_of_nil]; naive_solver. }
  setoid_rewrite Hs. split.
  - intros (role & Hr & [[-> ->]|[-> ->]]); auto.
  - intros [[Hr Hx]|[Hr Hx]]; eexists; eauto.
Qed.

(** [EcosystemRolesGuard] admits a request exactly when the user leads, or is a
    member of, some ecosystem and the route asks for that, or is the platform
    administrator on a route for one, or holds a required role in the organization the
    request names.  Which ecosystem the request is about plays no part. *)
Theorem ecosystem_roles_guard_exact adminEmail required r u roles :
  required <> [] -> user r = Some u -> userOrgRoles u = Some roles ->
  admits (EcosystemRolesGuard adminEmail (Some required) r) <->
  (ECOSYSTEM_LEAD ∈ required /\ exists e g, (e, g) ∈ default [] (ecosystem_access u) /\ some_role (lead g) = true) \/
  (ECOSYSTEM_MEMBER ∈ required /\ exists e g, (e, g) ∈ default [] (ecosystem_access u) /\ some_role (member g) = true) \/
  (email u = adminEmail /\ PLATFORM_ADMIN ∈ required /\ has_role PLATFORM_ADMIN roles = true) \/
  (ecosystem_org r <> "" /\ isValidUUID (ecosystem_org r) = true /\ exists role, role ∈ required /\ holds u (ecosystem_org r) role).
Proof.
  intros Hne Hu Hr. unfold EcosystemRolesGuard. rewrite Hu. destruct required as [|role0 required']; [done|].
  set (required := role0 :: required') in *. cbn [from_option]. rewrite Hr.
  assert (Heco : existsb (fun role => existsb (String.eqb role) (ecosystem_roles u)) required = true <->
    (ECOSYSTEM_LEAD ∈ required /\ exists e g, (e, g) ∈ default [] (ecosystem_access u) /\ some_role (lead g) = true) \/
    (ECOSYSTEM_MEMBER ∈ required /\ exists e g, (e, g) ∈ default [] (ecosystem_access u) /\ some_role (member g) = true)).
  { rewrite existsb_elem. setoid_rewrite existsb_mem. apply ecosystem_roles_spec. }
  destruct (existsb _ required) eqn:E.
  { split; [|intros _; by eexists]. intros _. destruct Heco as [Heco _]. destruct (Heco eq_refl); auto. }
  assert (Hneco : forall P : Prop, ((ECOSYSTEM_LEAD ∈ required /\ exists e g, (e, g) ∈ default [] (ecosystem_access u) /\ some_role (lead g) = true) \/
    (ECOSYSTEM_MEMBER ∈ required /\ exists e g, (e, g) ∈ default [] (ecosystem_access u) /\ some_role (member g) = true) \/ P) <-> P).
  { destruct Heco as [_ Heco]. intros P. split; [|tauto]. intros [H|[H|H]]; [| |done]; discriminate Heco; auto. }
  rewrite Hneco. clear Heco Hneco E.
  assert (Hadmin : bool_decide (email u = adminEmail) && existsb (String.eqb PLATFORM_ADMIN) required && has_role PLATFORM_ADMIN roles = true <->
    email u = adminEmail /\ PLATFORM_ADMIN ∈ required /\ has_role PLATFORM_ADMIN roles = true).
  { rewrite !andb_true_iff, bool_decide_eq_true, existsb_mem. tauto. }
  destruct (_ && _ && _).
  { split; [intros _; left; by apply Hadmin | intros _; by eexists]. }
  destruct (String.eqb_spec (ecosystem_org r) "") as [Ho|Ho].
  - split; [by intros (v & [= <-] & ?)|]. intros [H|[? _]]; [|done]. by apply Hadmin in H.
  - rewrite org_access_exact.
    + split; [auto|]. intros [H|[_ H]]; [|done]. by apply Hadmin in H.
    + intros _ rs role. rewrite list_elem_of_fmap. setoid_rewrite elem_of_filter_b. naive_solver.
Qed.

(** Whether the request's user is a holder depends on the platform's own mapping only:
    whatever the token claims, the guard for holders admits exactly the mapped users, and
    [OrgRolesGuard] and [UserAccessGuard] refuse exactly those among people. *)
Theorem holder_separation c d u r : validate c = Ok u -> user_details_of c = Ok d -> user r = Some u ->
  (UserRoleGuard r = Ok true <-> is_holder d = true) /\
  (client_id u = None -> (UserAccessGuard r = Ok true <-> is_holder d = false)) /\
  (is_holder d = true -> forall required, OrgRolesGuard (Some required) r = Throw (forbidden "This role is a holder.")).
Proof.
  intros Hv Hd Hu. unfold validate in Hv. apply result_bind_ok in Hv as (_ & _ & Hv).
  rewrite Hd in Hv. simpl in Hv. destruct (_ && _); [done|]. injection Hv as <-.
  unfold UserRoleGuard, UserAccessGuard, OrgRolesGuard. rewrite Hu. simpl. unfold is_holder_user. simpl.
  destruct (is_holder d); simpl.
  - split; [by split|]. split; [intros ->; by split | done].
  - split; [by split|]. split; [intros ->; by split | done].
Qed.
End laws.

(** ** A sample deployment *)

Module AuthSample.
Definition org : string := "11111111-2222-4333-8444-555555555555".
Definition issuer : request_user :=
  User (Some "u1") (Some "a@b.c") None None None (Some [OrgRole None "holder"; OrgRole (Some org) "issuer"]) None None None.

#[global] Instance identity : Identity := {|
  checkSession _ := Ok true;
  findOrganizationOwner _ := Ok None;
  findUserinKeycloak _ := Ok (Some (Details issuer (Some [Some "HOLDER"])));
  isValidUUID := uuidRegex;
|}.

Definition asks (u : request_user) : request := Request (Some u) (Some (Json.JStr org)) None None.

Example org_roles_guard_exact_witness : admits (OrgRolesGuard (Some ["owner"; "issuer"]) (asks issuer)).
Proof.
  apply (org_roles_guard_exact ["owner"; "issuer"] (asks issuer) org eq_refl). exists issuer.
  split; [reflexivity|]. split; [reflexivity|]. left. split; [discriminate|]. split; [vm_compute; reflexivity|].
  exists "issuer". split; [right; left|]. exists [OrgRole None "holder"; OrgRole (Some org) "issuer"], (OrgRole (Some org) "issuer"), org.
  split; [reflexivity|]. split; [right; left|]. split; [reflexivity|]. split; [reflexivity|]. split; [discriminate | reflexivity].
Defined.

Definition lead : request_user :=
  User (Some "u2") None None None None (Some []) None (Some [("e1", Group (Some ["org"]) None)]) None.

Example ecosystem_roles_guard_exact_witness : admits (EcosystemRolesGuard (Some "root@b.c") (Some [ECOSYSTEM_LEAD]) (asks lead)).
Proof.
  apply (ecosystem_roles_guard_exact (Some "root@b.c") [ECOSYSTEM_LEAD] (asks lead) lead []); [discriminate|reflexivity|reflexivity|].
  left. split; [left|]. exists "e1", (Group (Some ["org"]) None). split; [left | reflexivity].
Defined.

(** The token claims another role than the mapping gives. *)
Definition token : claims :=
  Claims "kc1" None (User None None None (Some "not-a-holder") None None None None None).

Definition mapped : request_user := with_role (Some USER_HOLDER_ROLE) (spread issuer (c_user token)).

Example holder_separation_witness : UserRoleGuard (asks mapped) = Ok true.
Proof.
  assert (Hv : validate token = Ok mapped) by (vm_compute; reflexivity).
  apply (holder_separation token (Some (Details issuer (Some [Some "HOLDER"]))) mapped (asks mapped) Hv); [reflexivity..].
Defined.

(** A route without required roles: the guard's test for that case is never reached. *)
Example no_required_roles : OrgRolesGuard None (asks issuer) = Throw (js_error "Cannot convert undefined or null to object").
Proof. reflexivity. Qed.
End AuthSample.
