(* ===== verification/MarketplaceData.v ===== *)
(** * Marketplace: data

    The enumerations and rows of the marketplace tables, the payloads of
    [interfaces/marketplace.interface.ts], the state the marketplace service works
    on and the parties it calls.  [undefined] and [null] are both [None]. *)

From S2P Require Import Prelude Js Table.

(** ** Enumerations *)

Inductive MarketplaceSubscriptionStatus := PendingFulfillmentStart | Subscribed | Suspended | Unsubscribed.
Inductive MarketplaceActivationStatus := not_started | in_progress | activated | failed.

Module Onboarding.
Inductive status := resolved | account_linked | org_linked | activation_pending | activated | expired | failed.
#[global] Instance status_eq_dec : EqDecision status.
Proof. solve_decision. Defined.
End Onboarding.

Module UsageStatus.
Inductive status := pending | submitted | accepted | duplicate | failed | expired.
#[global] Instance status_eq_dec : EqDecision status.
Proof. solve_decision. Defined.
End UsageStatus.

Module Processing.
Inductive status := received | validated | processed | failed.
#[global] Instance status_eq_dec : EqDecision status.
Proof. solve_decision. Defined.
End Processing.

Module Ack.
Inductive status := not_required | pending | success | failure.
#[global] Instance status_eq_dec : EqDecision status.
Proof. solve_decision. Defined.
End Ack.

Inductive MarketplaceNextAction := link_account | create_organization | activate | open_dashboard | manage_billing.

(** The actions of a webhook; [OtherAction] is any other string in its place. *)
Inductive action := ChangePlan | ChangeQuantity | Renew | Suspend | Unsubscribe | Reinstate | OtherAction (s : string).

#[export] Instance subscription_status_eq_dec : EqDecision MarketplaceSubscriptionStatus.
Proof. solve_decision. Defined.
#[export] Instance activation_status_eq_dec : EqDecision MarketplaceActivationStatus.
Proof. solve_decision. Defined.
#[export] Instance next_action_eq_dec : EqDecision MarketplaceNextAction.
Proof. solve_decision. Defined.
#[export] Instance action_eq_dec : EqDecision action.
Proof. solve_decision. Defined.

(** ** Payloads *)

Record MarketplaceParty := Party {
  emailId : option string;
  tenantId : option string;
  objectId : option string;
  puid : option string;
}.

Record Term := mkTerm {
  termUnit : option string;
  startDate : option string;
  endDate : option string;
}.

(** What Microsoft returns for a subscription; nothing checks at run time that the
    properties are there, so all of them may be absent.  [r_raw] is the JSON object
    itself, index signature included. *)
Record MarketplaceResolvedSubscription := Resolved {
  r_id : option string;
  r_name : option string;
  r_publisherId : option string;
  r_offerId : option string;
  r_planId : option string;
  r_status : option MarketplaceSubscriptionStatus;
  r_beneficiary : option MarketplaceParty;
  r_purchaser : option MarketplaceParty;
  r_term : option Term;
  r_autoRenew : option bool;
  r_isFreeTrial : option bool;
  r_isTest : option bool;
  r_sandboxType : option string;
  r_quantity : option Z;
  r_allowedCustomerOperations : option (list string);
  r_raw : list (string * Json.value);
}.

Record MarketplaceBuyerClaims := Claims {
  tid : option string;
  oid : option string;
  email : option string;
  preferred_username : option string;
  c_name : option string;
}.

Record ResolveMarketplacePayload := ResolvePayload {
  marketplaceToken : string;
  microsoftIdToken : option string;
  buyerClaims : option MarketplaceBuyerClaims;
}.

Record MarketplaceWebhookPayload := WebhookPayload {
  w_id : option string;
  w_activityId : option string;
  w_offerId : string;
  w_planId : option string;
  w_quantity : option Z;
  w_subscriptionId : string;
  w_action : action;
  w_status : option string;
  w_raw : Json.value;
}.

Record MarketplaceUsageEventPayload := UsagePayload {
  u_orgId : string;
  u_eventType : string;
  u_sourceTable : option string;
  u_sourceId : string;
  u_occurredAt : option string;
  u_quantity : option Z;
  u_metadata : option Json.value;
}.

Record usage_figures := Figures { included : Z; used : Z; overage : Z }.

Record subscription_ref := SubRef {
  ref_subscriptionId : string;
  ref_status : MarketplaceSubscriptionStatus;
  ref_planId : string;
}.

Record MarketplaceEntitlementResponse := Entitlements {
  e_orgId : string;
  e_subscription : option subscription_ref;
  e_features : list (string * Json.value);
  e_limits : list (string * option Z);
  e_usage : list (string * usage_figures);
  e_blockedReason : option string;
}.

(** ** Rows *)

(** The columns [toSubscriptionData] writes. *)
Record subscription_data := SubData {
  marketplaceSubscriptionId : string;
  publisherId : option string;
  offerId : string;
  planId : string;
  subscriptionName : option string;
  saasSubscriptionStatus : MarketplaceSubscriptionStatus;
  quantity : option Z;
  d_termUnit : option string;
  termStartDate : option Z;
  termEndDate : option Z;
  autoRenew : option bool;
  isFreeTrial : option bool;
  isTest : option bool;
  sandboxType : option string;
  allowedCustomerOperations : list string;
  purchaser : MarketplaceParty;
  beneficiary : MarketplaceParty;
  lastResolvedAt : option Z;
  lastSyncedAt : option Z;
  metadata : Json.value;
}.

Record marketplace_subscription := Sub {
  sub_id : string;
  data : subscription_data;
  localUserId : option string;
  orgId : option string;
  activationStatus : MarketplaceActivationStatus;
  activationError : option string;
  sub_created : Z;
  sub_changed : Z;
  deletedAt : option Z;
}.

Record marketplace_onboarding_session := Session {
  ses_id : string;
  ses_subscription : string;
  marketplaceTokenHash : string;
  buyerTenantId : option string;
  buyerObjectId : option string;
  buyerEmail : option string;
  ses_status : Onboarding.status;
  expiresAt : Z;
  ses_metadata : Json.value;
  ses_created : Z;
  ses_changed : Z;
}.

Record marketplace_plan := Plan {
  plan_offerId : string;
  plan_planId : string;
  includedIssuanceTransactions : Z;
  includedVerificationTransactions : Z;
  includedSchemas : Z;
  maxOrganizations : option Z;
  maxUsers : option Z;
  features : Json.value;
}.

Record marketplace_usage_event := Usage {
  use_id : string;
  use_subscription : string;
  use_orgId : string;
  dimension : string;
  use_quantity : Z;
  usageStartTime : Z;
  use_status : UsageStatus.status;
  marketplaceResponseStatus : option string;
  marketplaceMessage : option string;
  use_requestId : option string;
  use_correlationId : option string;
  submittedAt : option Z;
  sourceEventIds : list string;
  use_created : Z;
  use_changed : Z;
}.

Record billing_usage_event := Billing {
  bill_id : string;
  bill_orgId : string;
  bill_subscription : option string;
  eventType : string;
  sourceTable : option string;
  sourceId : string;
  occurredAt : Z;
  billingPeriod : string;
  bill_quantity : Z;
  bill_metadata : Json.value;
}.

Record marketplace_webhook_event := Hook {
  hook_id : string;
  hook_operationId : option string;
  hook_activityId : option string;
  hook_subscriptionId : string;
  hook_subscription : option string;
  hook_action : action;
  hook_status : option string;
  hook_payload : Json.value;
  hook_headers : list (string * string);
  validationStatus : option string;
  processingStatus : Processing.status;
  hook_error : option string;
  hook_changed : Z;
}.

Record marketplace_operation := Op {
  op_id : string;
  op_operationId : string;
  op_subscription : string;
  op_action : action;
  op_status : option string;
  op_planId : option string;
  op_quantity : option Z;
  op_rawPayload : option Json.value;
  ackStatus : Ack.status;
  ackError : option string;
  op_changed : Z;
}.

(** ** Calls to other parties *)

Record request := Request {
  req_method : string;
  req_url : string;
  req_headers : list (string * string);
  req_body : option Json.value;
}.

Inductive call :=
  | HttpCall (r : request)
  | TokenCall (url body : string)
  | NatsCall (cmd : string) (payload : Json.value).

(** The outcome of an HTTP request: the parsed body, an error status with its body,
    or no response at all. *)
Inductive outcome (A : Type) :=
  | Answer (a : A)
  | HttpFailure (status : Z) (body : Json.value) (message : string)
  | Unreachable (message : string).
Arguments Answer {A} a.
Arguments HttpFailure {A} status body message.
Arguments Unreachable {A} message.

(** The [resolve] endpoint wraps the subscription; older responses are flat. *)
Record MarketplaceResolveResponse := ResolveResponse {
  flat : MarketplaceResolvedSubscription;
  body_subscriptionName : option string;
  nested : option MarketplaceResolvedSubscription;
}.

Inductive subscription_list :=
  | BareArray (l : list MarketplaceResolvedSubscription)
  | Wrapped (l : option (list MarketplaceResolvedSubscription)).

(** One user of the roles [get-organization-owner] returns: [role?.user?.id]. *)
Definition owner_role : Type := option string.

(** The other parties answer a call as they please, depending on every call made
    to them before. *)
Class Parties := {
  on_resolve : list call -> outcome MarketplaceResolveResponse;
  on_subscription : list call -> outcome MarketplaceResolvedSubscription;
  on_subscriptions : list call -> outcome subscription_list;
  on_json : list call -> outcome Json.value;
  on_token : list call -> outcome (string * Z);
  (** [userOrgRoles] when it is an array *)
  on_owner : list call -> result (option (list owner_role));
  on_create_org : list call -> result string;
}.

(** Node's [crypto] and the [jsonwebtoken] and [jwks-rsa] packages.  [jwt_verify]
    fetches the signing key and verifies the token for an audience; it returns the
    [appid] and [azp] claims. *)
Class Crypto := {
  sha256_hex : string -> string;
  jwt_kid : string -> option string;
  jwt_verify : string -> string -> string -> string -> result (option string * option string);
}.

(** [process.env] and the readings of the clock, in the order they are made. *)
Class Environment := {
  env : string -> option string;
  reading : nat -> Z;
}.

(** ** The state *)

Record tables := Tables {
  subscriptions : list marketplace_subscription;
  sessions : list marketplace_onboarding_session;
  plans : list marketplace_plan;
  usage_events : list marketplace_usage_event;
  billing_events : list billing_usage_event;
  webhook_events : list marketplace_webhook_event;
  operations : list marketplace_operation;
}.

Record world := World {
  db : tables;
  ticks : nat;
  drawn : nat;
  calls : list call;
  cachedToken : option (string * Z);
}.

Definition set_subscriptions v t := Tables v (sessions t) (plans t) (usage_events t) (billing_events t) (webhook_events t) (operations t).
Definition set_sessions v t := Tables (subscriptions t) v (plans t) (usage_events t) (billing_events t) (webhook_events t) (operations t).
Definition set_usage_events v t := Tables (subscriptions t) (sessions t) (plans t) v (billing_events t) (webhook_events t) (operations t).
Definition set_billing_events v t := Tables (subscriptions t) (sessions t) (plans t) (usage_events t) v (webhook_events t) (operations t).
Definition set_webhook_events v t := Tables (subscriptions t) (sessions t) (plans t) (usage_events t) (billing_events t) v (operations t).
Definition set_operations v t := Tables (subscriptions t) (sessions t) (plans t) (usage_events t) (billing_events t) (webhook_events t) v.

Definition set_db d w := World d (ticks w) (drawn w) (calls w) (cachedToken w).

Section primitives.
Context {E : Environment} {U : UuidSource}.

(** [new Date()], [Date.now()] *)
Definition now : eff world Z := fun w =>
  (Ok (reading (ticks w)), World (db w) (S (ticks w)) (drawn w) (calls w) (cachedToken w)).

Definition fresh : eff world string := fun w =>
  (Ok (uuid (drawn w)), World (db w) (ticks w) (S (drawn w)) (calls w) (cachedToken w)).

Definition write (f : tables -> tables) : eff world unit := modify (fun w => set_db (f (db w)) w).
Definition read {A} (f : tables -> A) : eff world A := gets (fun w => f (db w)).

(** Records a call and returns all calls made so far, this one included. *)
Definition placed (c : call) : eff world (list call) := fun w =>
  let cs := calls w ++ [c] in
  (Ok cs, World (db w) (ticks w) (drawn w) cs (cachedToken w)).

Definition flag (name : string) : bool := String.eqb (Str.toLowerCase (template_str (env name))) "true".
End primitives.

(** The rows of a computation's database are all that matters for a property. *)
Definition db_unchanged {A} (m : eff world A) (w : world) : Prop := db (m w).2 = db w.

(** Messages of [PrismaClientValidationError]: a required value is [undefined]. *)
Definition prisma_validation : exn := Exn PrismaError "Argument is missing" None None.
