(* ===== verification/MarketplaceRepository.v ===== *)
(** * Marketplace: the repository

    [src/apps/marketplace/src/repositories/marketplace.repository.ts], one
    definition per method, with the unique constraints of the tables (the partial
    index on live subscriptions per organization included).  A foreign key is
    taken to hold: users and organizations live in other services' tables. *)

From S2P Require Import Prelude Js Table MarketplaceData.

Open Scope Z_scope.

(** ** Partial updates: [undefined] leaves a column as it is *)

Definition keep {A} (new old : option A) : option A := match new with Some _ => new | None => old end.
Definition keep_req {A} (new : option A) (old : A) : A := default old new.

(** What [toSubscriptionData] returns.  A date is [Some None] when its text is not
    a date. *)
Record subscription_input := Input {
  i_id : option string;
  i_publisherId : option string;
  i_offerId : option string;
  i_planId : option string;
  i_name : option string;
  i_status : option MarketplaceSubscriptionStatus;
  i_quantity : option Z;
  i_termUnit : option string;
  i_termStart : option (option Z);
  i_termEnd : option (option Z);
  i_autoRenew : option bool;
  i_isFreeTrial : option bool;
  i_isTest : option bool;
  i_sandboxType : option string;
  i_operations : list string;
  i_purchaser : MarketplaceParty;
  i_beneficiary : MarketplaceParty;
  i_lastResolvedAt : Z;
  i_lastSyncedAt : Z;
  i_metadata : Json.value;
}.

Definition no_party : MarketplaceParty := Party None None None None.

Definition date_of (s : option string) : option (option Z) :=
  if truthy_str s then Some (s ≫= Date.parse) else None.

Definition valid_date (d : option (option Z)) : bool := match d with Some None => false | _ => true end.

Definition keep_party (new old : MarketplaceParty) : MarketplaceParty :=
  Party (keep (emailId new) (emailId old)) (keep (tenantId new) (tenantId old))
        (keep (objectId new) (objectId old)) (keep (puid new) (puid old)).

(** The row data of [create], and of [update] over [old]; [None] is the client's
    validation error. *)
Definition create_data (i : subscription_input) : option subscription_data :=
  if valid_date (i_termStart i) && valid_date (i_termEnd i) then
    id ← i_id i; offer ← i_offerId i; plan ← i_planId i;
    Some (SubData id (i_publisherId i) offer plan (i_name i)
      (default PendingFulfillmentStart (i_status i)) (i_quantity i) (i_termUnit i)
      (mjoin (i_termStart i)) (mjoin (i_termEnd i)) (i_autoRenew i) (i_isFreeTrial i) (i_isTest i)
      (i_sandboxType i) (i_operations i) (i_purchaser i) (i_beneficiary i)
      (Some (i_lastResolvedAt i)) (Some (i_lastSyncedAt i)) (i_metadata i))
  else None.

Definition update_data (i : subscription_input) (old : subscription_data) : subscription_data :=
  SubData (keep_req (i_id i) (marketplaceSubscriptionId old)) (keep (i_publisherId i) (publisherId old))
    (keep_req (i_offerId i) (offerId old)) (keep_req (i_planId i) (planId old))
    (keep (i_name i) (subscriptionName old)) (keep_req (i_status i) (saasSubscriptionStatus old))
    (keep (i_quantity i) (quantity old)) (keep (i_termUnit i) (d_termUnit old))
    (keep (mjoin (i_termStart i)) (termStartDate old)) (keep (mjoin (i_termEnd i)) (termEndDate old))
    (keep (i_autoRenew i) (autoRenew old)) (keep (i_isFreeTrial i) (isFreeTrial old))
    (keep (i_isTest i) (isTest old)) (keep (i_sandboxType i) (sandboxType old))
    (i_operations i) (keep_party (i_purchaser i) (purchaser old))
    (keep_party (i_beneficiary i) (beneficiary old))
    (Some (i_lastResolvedAt i)) (Some (i_lastSyncedAt i)) (i_metadata i).

(** Column updates of a subscription row. *)
Definition set_data d c (s : marketplace_subscription) :=
  Sub (sub_id s) d (localUserId s) (orgId s) (activationStatus s) (activationError s) (sub_created s) c (deletedAt s).
Definition set_user u c (s : marketplace_subscription) :=
  Sub (sub_id s) (data s) (Some u) (orgId s) (activationStatus s) (activationError s) (sub_created s) c (deletedAt s).
Definition set_org o c (s : marketplace_subscription) :=
  Sub (sub_id s) (data s) (localUserId s) (Some o) (activationStatus s) (activationError s) (sub_created s) c (deletedAt s).
Definition set_activation a e c (s : marketplace_subscription) :=
  Sub (sub_id s) (data s) (localUserId s) (orgId s) a (keep e (activationError s)) (sub_created s) c (deletedAt s).
Definition with_plan p (d : subscription_data) :=
  SubData (marketplaceSubscriptionId d) (publisherId d) (offerId d) p (subscriptionName d)
    (saasSubscriptionStatus d) (quantity d) (d_termUnit d) (termStartDate d) (termEndDate d) (autoRenew d)
    (isFreeTrial d) (isTest d) (sandboxType d) (allowedCustomerOperations d) (purchaser d) (beneficiary d)
    (lastResolvedAt d) (lastSyncedAt d) (metadata d).
Definition with_status st (d : subscription_data) :=
  SubData (marketplaceSubscriptionId d) (publisherId d) (offerId d) (planId d) (subscriptionName d)
    st (quantity d) (d_termUnit d) (termStartDate d) (termEndDate d) (autoRenew d)
    (isFreeTrial d) (isTest d) (sandboxType d) (allowedCustomerOperations d) (purchaser d) (beneficiary d)
    (lastResolvedAt d) (lastSyncedAt d) (metadata d).

(** ** Unique constraints *)

(** A row the partial index covers: the organization it occupies. *)
Definition occupies (s : marketplace_subscription) : option string :=
  match deletedAt s with
  | None => if bool_decide (saasSubscriptionStatus (data s) = Unsubscribed) then None else orgId s
  | Some _ => None
  end.

Definition subscriptions_ok (t : list marketplace_subscription) : Prop :=
  NoDup (sub_id <$> t) /\ NoDup (marketplaceSubscriptionId ∘ data <$> t) /\ NoDup (omap occupies t).

#[export] Instance subscriptions_ok_dec t : Decision (subscriptions_ok t).
Proof. unfold subscriptions_ok. apply _. Defined.

Definition by_id (id : string) (s : marketplace_subscription) : bool := String.eqb (sub_id s) id.
Definition by_marketplace_id (id : string) (s : marketplace_subscription) : bool :=
  String.eqb (marketplaceSubscriptionId (data s)) id.

Section repository.
Context {E : Environment} {U : UuidSource}.

(** A statement of the database client on the subscription table. *)
Definition commit_subscriptions (t : list marketplace_subscription) : eff world unit :=
  if decide (subscriptions_ok t) then write (set_subscriptions t) else throw prisma_unique.

Definition update_subscription (p : marketplace_subscription -> bool)
    (f : marketplace_subscription -> marketplace_subscription) : eff world marketplace_subscription :=
  t ← read subscriptions;
  match first p t with
  | Some s => _ ← commit_subscriptions (update_where p f t); mret (f s)
  | None => throw prisma_missing
  end.

Definition toSubscriptionData (r : MarketplaceResolvedSubscription) : eff world subscription_input :=
  t1 ← now;
  t2 ← now;
  mret (Input (r_id r) (r_publisherId r) (r_offerId r) (r_planId r) (r_name r) (r_status r) (r_quantity r)
    (r_term r ≫= termUnit) (date_of (r_term r ≫= startDate)) (date_of (r_term r ≫= endDate))
    (r_autoRenew r) (r_isFreeTrial r) (r_isTest r) (r_sandboxType r)
    (default [] (r_allowedCustomerOperations r))
    (default no_party (r_purchaser r)) (default no_party (r_beneficiary r)) t1 t2 (Json.JObj (r_raw r))).

Definition stamped (resolvedAt syncedAt : Z) (i : subscription_input) : subscription_input :=
  Input (i_id i) (i_publisherId i) (i_offerId i) (i_planId i) (i_name i) (i_status i) (i_quantity i)
    (i_termUnit i) (i_termStart i) (i_termEnd i) (i_autoRenew i) (i_isFreeTrial i) (i_isTest i)
    (i_sandboxType i) (i_operations i) (i_purchaser i) (i_beneficiary i) resolvedAt syncedAt (i_metadata i).

Definition upsertResolvedSubscription (r : MarketplaceResolvedSubscription) : eff world marketplace_subscription :=
  i ← toSubscriptionData r;
  resolvedAt ← now; syncedAt ← now; changed ← now;
  match create_data i with
  | None => throw prisma_validation
  | Some d =>
      t ← read subscriptions;
      let p := by_marketplace_id (marketplaceSubscriptionId d) in
      match first p t with
      | Some s => update_subscription p (fun s => set_data (update_data (stamped resolvedAt syncedAt i) (data s)) changed s)
      | None =>
          id ← fresh; created ← now;
          let s := Sub id d None None not_started None created created None in
          _ ← commit_subscriptions (t ++ [s]); mret s
      end
  end.

Definition updateSubscriptionFromMicrosoft (r : MarketplaceResolvedSubscription) : eff world marketplace_subscription :=
  i ← toSubscriptionData r;
  syncedAt ← now; changed ← now;
  match i_id i with
  | Some id =>
      if valid_date (i_termStart i) && valid_date (i_termEnd i)
      then update_subscription (by_marketplace_id id)
             (fun s => set_data (update_data (stamped (i_lastResolvedAt i) syncedAt i) (data s)) changed s)
      else throw prisma_validation
  | None => throw prisma_validation
  end.

Definition getSubscriptionByMarketplaceId (id : string) : eff world (option marketplace_subscription) :=
  t ← read subscriptions; mret (first (by_marketplace_id id) t).

Definition getSubscriptionByInternalId (id : string) : eff world (option marketplace_subscription) :=
  t ← read subscriptions; mret (first (by_id id) t).

Definition of_org (o : string) (s : marketplace_subscription) : bool :=
  bool_decide (orgId s = Some o) && bool_decide (deletedAt s = None).

Definition getSubscriptionByOrgId (o : string) : eff world (option marketplace_subscription) :=
  t ← read subscriptions; mret (latest sub_created (List.filter (of_org o) t)).

Definition live_of_org (o : string) (except : option string) (s : marketplace_subscription) : bool :=
  of_org o s && negb (bool_decide (saasSubscriptionStatus (data s) = Unsubscribed))
  && (if truthy_str except then negb (bool_decide (Some (sub_id s) = except)) else true).

Definition getActiveSubscriptionByOrgId (o : string) (except : option string) :
    eff world (option marketplace_subscription) :=
  t ← read subscriptions; mret (latest sub_created (List.filter (live_of_org o except) t)).

Definition is_subscribed (s : marketplace_subscription) : bool :=
  bool_decide (deletedAt s = None) && bool_decide (saasSubscriptionStatus (data s) = Subscribed).

Definition listActiveSubscriptions : eff world (list marketplace_subscription) :=
  t ← read subscriptions; mret (List.filter is_subscribed t).

(** ** Onboarding sessions *)

Definition finished (s : Onboarding.status) : bool :=
  bool_decide (s = Onboarding.activated) || bool_decide (s = Onboarding.expired)
  || bool_decide (s = Onboarding.failed).

Definition createOnboardingSession (subscriptionId tokenHash : string)
    (buyer : option string * option string * option string) (meta : Json.value) :
    eff world marketplace_onboarding_session :=
  t0 ← now;
  t ← read sessions;
  match latest ses_created (List.filter (fun s => String.eqb (ses_subscription s) subscriptionId
          && (t0 <? expiresAt s) && negb (finished (ses_status s))) t) with
  | Some s => mret s
  | None =>
      t1 ← now; id ← fresh; created ← now;
      let '(tenant, object, mail) := buyer in
      let s := Session id subscriptionId tokenHash tenant object mail Onboarding.resolved
                 (t1 + 24 * 60 * 60 * 1000) meta created created in
      _ ← write (fun d => set_sessions (t ++ [s]) d); mret s
  end.

(** The session with its subscription. *)
Definition getOnboardingSession (id : string) :
    eff world (option (marketplace_onboarding_session * marketplace_subscription)) :=
  t ← read sessions; subs ← read subscriptions;
  mret (s ← first (fun s => String.eqb (ses_id s) id) t;
        sub ← first (by_id (ses_subscription s)) subs;
        Some (s, sub)).

Definition updateOnboardingSession (id : string) (status : Onboarding.status) (meta : option Json.value) :
    eff world unit :=
  changed ← now;
  t ← read sessions;
  if existsb (fun s => String.eqb (ses_id s) id) t
  then write (set_sessions (update_where (fun s => String.eqb (ses_id s) id)
         (fun s => Session (ses_id s) (ses_subscription s) (marketplaceTokenHash s) (buyerTenantId s)
            (buyerObjectId s) (buyerEmail s) status (expiresAt s) (default (ses_metadata s) meta)
            (ses_created s) changed) t))
  else throw prisma_missing.

(** ** Subscription columns *)

Definition linkUser (id user : string) : eff world unit :=
  c ← now; _ ← update_subscription (by_id id) (set_user user c); mret tt.

Definition linkOrganization (id org : string) : eff world unit :=
  c ← now; _ ← update_subscription (by_id id) (set_org org c); mret tt.

Definition setActivationStatus (id : string) (a : MarketplaceActivationStatus) (error : option string) : eff world unit :=
  c ← now; _ ← update_subscription (by_id id) (set_activation a error c); mret tt.

Definition setSubscriptionPlanId (id plan : string) : eff world unit :=
  c ← now; _ ← update_subscription (by_id id) (fun s => set_data (with_plan plan (data s)) c s); mret tt.

Definition setSubscriptionStatus (id : string) (st : MarketplaceSubscriptionStatus) : eff world unit :=
  c ← now; _ ← update_subscription (by_id id) (fun s => set_data (with_status st (data s)) c s); mret tt.

Definition getPlan (offer plan : string) : eff world (option marketplace_plan) :=
  t ← read plans;
  mret (first (fun p => String.eqb (plan_offerId p) offer && String.eqb (plan_planId p) plan) t).

(** ** Billing and usage events *)

(** [groupBy] with [_sum]: one total per key, in the order the keys first occur. *)
Fixpoint add_total {K} `{EqDecision K} (k : K) (q : Z) (acc : list (K * Z)) : list (K * Z) :=
  match acc with
  | [] => [(k, q)]
  | (k', q') :: acc' => if decide (k = k') then (k', q' + q) :: acc' else (k', q') :: add_total k q acc'
  end.

Definition totals_by {R K} `{EqDecision K} (key : R -> K) (q : R -> Z) (t : list R) : list (K * Z) :=
  fold_left (fun acc r => add_total (key r) (q r) acc) t [].

Definition within (start finish : Z) (e : billing_usage_event) : bool :=
  (start <=? occurredAt e) && (occurredAt e <=? finish).

Definition getUsageTotals (o : string) (start finish : Z) : eff world (list (string * Z)) :=
  t ← read billing_events;
  mret (totals_by eventType bill_quantity
    (List.filter (fun e => String.eqb (bill_orgId e) o && within start finish e) t)).

Definition listMeteringEvents (o : string) : eff world (list marketplace_usage_event) :=
  t ← read usage_events;
  mret (take 50 (sort_desc usageStartTime (List.filter (fun e => String.eqb (use_orgId e) o) t))).

Definition getMeteringTotalsByDimension (o : string) : eff world (list (string * UsageStatus.status * Z)) :=
  t ← read usage_events;
  mret (totals_by (fun e => (dimension e, use_status e)) use_quantity
    (List.filter (fun e => String.eqb (use_orgId e) o) t)).

Definition getBillingPeriod (t : Z) : string :=
  pretty (Date.getUTCFullYear t) +:+ "-" +:+ Date.pad2 (Date.month t).

Definition recordBillingUsageEvent (p : MarketplaceUsageEventPayload) (sub : option string) : eff world unit :=
  occurred ← (if truthy_str (u_occurredAt p) then mret (u_occurredAt p ≫= Date.parse) else t ← now; mret (Some t));
  match occurred with
  | None => throw prisma_validation
  | Some at_ =>
      t ← read billing_events;
      if existsb (fun e => String.eqb (eventType e) (u_eventType p) && String.eqb (sourceId e) (u_sourceId p)) t
      then mret tt
      else
        id ← fresh;
        write (set_billing_events (t ++ [Billing id (u_orgId p) sub (u_eventType p) (u_sourceTable p) (u_sourceId p)
          at_ (getBillingPeriod at_) (num_or (u_quantity p) 1) (default (Json.JObj []) (u_metadata p))]))
  end.

Definition usage_key (sub dim : string) (start : Z) (e : marketplace_usage_event) : bool :=
  String.eqb (use_subscription e) sub && String.eqb (dimension e) dim && (usageStartTime e =? start).

Definition createOrUpdateUsageEvent (sub org dim : string) (q start : Z) (ids : list string) : eff world unit :=
  changed ← now;
  t ← read usage_events;
  if existsb (usage_key sub dim start) t
  then write (set_usage_events (update_where (usage_key sub dim start)
         (fun e => Usage (use_id e) (use_subscription e) (use_orgId e) (dimension e) q (usageStartTime e)
            (use_status e) (marketplaceResponseStatus e) (marketplaceMessage e) (use_requestId e)
            (use_correlationId e) (submittedAt e) ids (use_created e) changed) t))
  else
    id ← fresh; created ← now;
    write (set_usage_events (t ++ [Usage id sub org dim q start UsageStatus.pending None None None None None ids
      created created])).

Definition awaiting (e : marketplace_usage_event) : bool :=
  bool_decide (use_status e = UsageStatus.pending) || bool_decide (use_status e = UsageStatus.failed).

(** The first 25, each with its subscription. *)
Definition listPendingUsageEvents : eff world (list (marketplace_usage_event * marketplace_subscription)) :=
  t ← read usage_events; subs ← read subscriptions;
  mret (omap (fun e => (fun s => (e, s)) <$> first (by_id (use_subscription e)) subs)
    (take 25 (sort_asc usageStartTime (List.filter awaiting t)))).

Record submission := Submission {
  s_status : option string;
  s_message : option string;
  s_requestId : option string;
  s_correlationId : option string;
}.

Definition set_outcome (st : UsageStatus.status) (r : submission) (at_ changed : Z) (e : marketplace_usage_event) :=
  Usage (use_id e) (use_subscription e) (use_orgId e) (dimension e) (use_quantity e) (usageStartTime e) st
    (keep (s_status r) (marketplaceResponseStatus e)) (keep (s_message r) (marketplaceMessage e))
    (keep (s_requestId r) (use_requestId e)) (keep (s_correlationId r) (use_correlationId e))
    (Some at_) (sourceEventIds e) (use_created e) changed.

Definition updateUsageEventStatus (id : string) (st : UsageStatus.status) (r : submission) : eff world unit :=
  at_ ← now; changed ← now;
  t ← read usage_events;
  if existsb (fun e => String.eqb (use_id e) id) t
  then write (set_usage_events (update_where (fun e => String.eqb (use_id e) id) (set_outcome st r at_ changed) t))
  else throw prisma_missing.

Definition getBillableEventsForSubscription (sub : string) (start finish : Z) : eff world (list billing_usage_event) :=
  t ← read billing_events;
  mret (sort_asc occurredAt
    (List.filter (fun e => bool_decide (bill_subscription e = Some sub) && within start finish e) t)).

(** ** Webhook events and operations *)

Definition createWebhookEvent (p : MarketplaceWebhookPayload) (sub : option string) (headers : list (string * string))
    (validation : option string) : eff world string :=
  id ← fresh; created ← now;
  t ← read webhook_events;
  _ ← write (set_webhook_events (t ++ [Hook id (w_id p) (w_activityId p) (w_subscriptionId p) sub (w_action p)
    (w_status p) (w_raw p) headers validation Processing.received None created]));
  mret id.

Definition updateWebhookEvent (id : string) (st : Processing.status) (error : option string) : eff world unit :=
  changed ← now;
  t ← read webhook_events;
  if existsb (fun h => String.eqb (hook_id h) id) t
  then write (set_webhook_events (update_where (fun h => String.eqb (hook_id h) id)
         (fun h => Hook (hook_id h) (hook_operationId h) (hook_activityId h) (hook_subscriptionId h)
            (hook_subscription h) (hook_action h) (hook_status h) (hook_payload h) (hook_headers h)
            (validationStatus h) st (keep error (hook_error h)) changed) t))
  else throw prisma_missing.

Definition op_key (opId sub : string) (o : marketplace_operation) : bool :=
  String.eqb (op_operationId o) opId && String.eqb (op_subscription o) sub.

Definition upsertOperation (opId sub : string) (a : action) (status planId : option string) (q : option Z)
    (raw : option Json.value) (ack : Ack.status) (error : option string) : eff world unit :=
  changed ← now;
  t ← read operations;
  if existsb (op_key opId sub) t
  then write (set_operations (update_where (op_key opId sub)
         (fun o => Op (op_id o) (op_operationId o) (op_subscription o) (op_action o) (keep status (op_status o))
            (keep planId (op_planId o)) (keep q (op_quantity o)) (keep raw (op_rawPayload o)) ack
            (keep error (ackError o)) changed) t))
  else
    id ← fresh;
    write (set_operations (t ++ [Op id opId sub a status planId q raw ack error changed])).

Definition updateOperationAckStatus (opId sub : string) (ack : Ack.status) (error : option string) : eff world unit :=
  changed ← now;
  t ← read operations;
  if existsb (op_key opId sub) t
  then write (set_operations (update_where (op_key opId sub)
         (fun o => Op (op_id o) (op_operationId o) (op_subscription o) (op_action o) (op_status o) (op_planId o)
            (op_quantity o) (op_rawPayload o) ack (keep error (ackError o)) changed) t))
  else throw prisma_missing.
End repository.
