(* ===== verification/MarketplaceClient.v ===== *)
(** * Marketplace: the publisher token and the Microsoft client

    [services/publisher-token.service.ts] and [services/microsoft-marketplace.client.ts].
    Every request is recorded; the other parties answer from what was sent to them. *)

From S2P Require Import Prelude Js Table MarketplaceData MarketplaceRepository.

Open Scope Z_scope.

Section client.
Context {E : Environment} {U : UuidSource} {P : Parties}.

Definition http_error (status : Z) (message : string) : exn := Exn PlainError message (Some status) None.

(** ** Publisher token *)

Definition scope : string := "20e940b3-4c77-4b0b-9a53-9e16a1b010a7/.default".

Definition cache_token (token : string) (expires : Z) : eff world unit :=
  modify (fun w => World (db w) (ticks w) (drawn w) (calls w) (Some (token, expires))).

(** The part of [getAccessToken] after the cache. *)
Definition requestToken : eff world string :=
  let tenant := env "MARKETPLACE_TENANT_ID" in
  let client := env "MARKETPLACE_CLIENT_ID" in
  let secret := env "MARKETPLACE_CLIENT_SECRET" in
  if negb (truthy_str tenant) || negb (truthy_str client) || negb (truthy_str secret)
  then throw (http_exn UnauthorizedException "Marketplace publisher credentials are not configured")
  else
    let body := Uri.form [("grant_type", "client_credentials"); ("client_id", default "" client);
                          ("client_secret", default "" secret); ("scope", scope)] in
    let url := "https://login.microsoftonline.com/" +:+ default "" tenant +:+ "/oauth2/v2.0/token" in
    cs ← placed (TokenCall url body);
    match on_token cs with
    | Answer (token, expires_in) =>
        t ← now; _ ← cache_token token (t + expires_in * 1000); mret token
    | HttpFailure status _ message => throw (http_error status message)
    | Unreachable message => throw (js_error message)
    end.

Definition getAccessToken : eff world string :=
  c ← gets cachedToken;
  match c with
  | Some (token, expires) => t ← now; if t + 60000 <? expires then mret token else requestToken
  | None => requestToken
  end.

(** ** Requests *)

Record MarketplaceClientResponse (T : Type) := Response {
  rs_data : T;
  rs_requestId : string;
  rs_correlationId : string;
}.
#[global] Arguments Response {T} _ _ _.
#[global] Arguments rs_data {T} _.
#[global] Arguments rs_requestId {T} _.
#[global] Arguments rs_correlationId {T} _.

Definition apiBaseUrl : string := str_or (env "MARKETPLACE_API_BASE_URL") "https://marketplaceapi.microsoft.com".
Definition apiVersion : string := str_or (env "MARKETPLACE_API_VERSION") "2018-08-31".

Inductive method := GET | POST | PATCH | DELETE.
Definition method_name (m : method) : string :=
  match m with GET => "get" | POST => "post" | PATCH => "patch" | DELETE => "delete" end.
Definition method_upper (m : method) : string :=
  match m with GET => "GET" | POST => "POST" | PATCH => "PATCH" | DELETE => "DELETE" end.

Definition has_body (m : method) : bool := match m with GET | DELETE => false | _ => true end.

Definition request {T} (answer : list call -> outcome T) (m : method) (path : string)
    (body : option Json.value) (extraHeaders : list (string * string)) : eff world (MarketplaceClientResponse T) :=
  token ← getAccessToken;
  requestId ← fresh;
  correlationId ← fresh;
  let separator := if Str.contains "?" path then "&" else "?" in
  let url := apiBaseUrl +:+ path +:+ separator +:+ "api-version=" +:+ apiVersion in
  let headers := [("Authorization", "Bearer " +:+ token); ("Content-Type", "application/json");
                  ("x-ms-requestid", requestId); ("x-ms-correlationid", correlationId)] ++ extraHeaders in
  cs ← placed (HttpCall (Request (method_name m) url headers (if has_body m then body else None)));
  match answer cs with
  | Answer data => mret (Response data requestId correlationId)
  | HttpFailure status body message =>
      throw (http_error status (message +:+ " — " +:+ method_upper m +:+ " " +:+ path +:+
        " — MS response: " +:+ Json.stringify body))
  | Unreachable message => throw (js_error message)
  end.

Definition or_else {A} (a b : option A) : option A := match a with Some _ => a | None => b end.

Definition raw_set (k : string) (v : option string) (fs : list (string * Json.value)) :=
  match v with Some s => Json.set_field k (Json.JStr s) fs | None => fs end.

Definition resolveSubscription (token : string) : eff world MarketplaceResolvedSubscription :=
  response ← request on_resolve POST "/api/saas/subscriptions/resolve" None [("x-ms-marketplace-token", token)];
  let body := rs_data response in
  match nested body with
  | None => mret (flat body)
  | Some n =>
      let id := or_else (r_id n) (r_id (flat body)) in
      let name := or_else (r_name n) (body_subscriptionName body) in
      mret (Resolved id name (r_publisherId n) (r_offerId n) (r_planId n) (r_status n) (r_beneficiary n)
        (r_purchaser n) (r_term n) (r_autoRenew n) (r_isFreeTrial n) (r_isTest n) (r_sandboxType n)
        (r_quantity n) (r_allowedCustomerOperations n) (raw_set "name" name (raw_set "id" id (r_raw n))))
  end.

Definition activateSubscription (id plan : string) : eff world Json.value :=
  response ← request on_json POST ("/api/saas/subscriptions/" +:+ id +:+ "/activate")
    (Some (Json.JObj [("planId", Json.JStr plan)])) [];
  mret (rs_data response).

Definition getSubscription (id : string) : eff world MarketplaceResolvedSubscription :=
  response ← request on_subscription GET ("/api/saas/subscriptions/" +:+ id) None [];
  mret (rs_data response).

Definition listSubscriptions : eff world (list MarketplaceResolvedSubscription) :=
  response ← request on_subscriptions GET "/api/saas/subscriptions" None [];
  mret (match rs_data response with
        | BareArray l => l
        | Wrapped l => default [] l
        end).

Definition operation_path (id op : string) : string :=
  "/api/saas/subscriptions/" +:+ id +:+ "/operations/" +:+ op.

Definition getOperation (id op : string) : eff world Json.value :=
  response ← request on_json GET (operation_path id op) None [];
  mret (rs_data response).

Definition patch_body (success : bool) (plan : option string) (q : option Z) : Json.value :=
  Json.JObj (("status", Json.JStr (if success then "Success" else "Failure")) ::
    Json.opt_field "planId" (Json.JStr <$> plan) ++ Json.opt_field "quantity" (Json.JNum <$> q)).

Definition patchOperation (id op : string) (success : bool) (plan : option string) (q : option Z) :
    eff world Json.value :=
  response ← request on_json PATCH (operation_path id op) (Some (patch_body success plan q)) [];
  mret (rs_data response).

Record usage_line := Line {
  resourceId : string;
  l_quantity : Z;
  l_dimension : string;
  effectiveStartTime : string;
}.

Definition line_json (l : usage_line) : Json.value :=
  Json.JObj [("resourceId", Json.JStr (resourceId l)); ("quantity", Json.JNum (l_quantity l));
    ("dimension", Json.JStr (l_dimension l)); ("effectiveStartTime", Json.JStr (effectiveStartTime l))].

Definition submitBatchUsageEvents (events : list usage_line) : eff world (MarketplaceClientResponse Json.value) :=
  request on_json POST "/api/batchUsageEvent" (Some (Json.JObj [("request", Json.JArr (map line_json events))])) [].
End client.

#[global] Arguments MarketplaceClientResponse : clear implicits.

(** ** The calls leave the database alone *)

Section frame.
Context {E : Environment} {U : UuidSource} {P : Parties}.

(** A computation that reads and writes anything but the tables. *)
Definition outside {A} (m : eff world A) : Prop := forall w, db (m w).2 = db w /\ (drawn w <= drawn (m w).2)%nat.

Lemma outside_ret {A} (a : A) : outside (mret a). Proof. done. Qed.
Lemma outside_throw {A} e : outside (throw e : eff world A). Proof. done. Qed.
Lemma outside_lift {A} (r : result A) : outside (lift r). Proof. done. Qed.
Lemma outside_now : outside now. Proof. done. Qed.
Lemma outside_fresh : outside fresh. Proof. split; [done | simpl; lia]. Qed.
Lemma outside_placed c : outside (placed c). Proof. done. Qed.
Lemma outside_gets {A} (f : world -> A) : outside (gets f). Proof. done. Qed.
Lemma outside_read {A} (f : tables -> A) : outside (read f). Proof. done. Qed.
Lemma outside_cache_token t e : outside (cache_token t e). Proof. done. Qed.

Lemma outside_bind {A B} (m : eff world A) (k : A -> eff world B) :
  outside m -> (forall a, outside (k a)) -> outside (m ≫= k).
Proof.
  intros Hm Hk w. rewrite run_bind. destruct (Hm w) as [Hdb Hd]. destruct (m w) as [[a|e] w']; simpl in *; [|done].
  destruct (Hk a w') as [Hdb' Hd']. split; [congruence | lia].
Qed.

(** Such a computation keeps every property of the tables that survives drawing
    identifiers. *)
Definition of_tables (I : world -> Prop) : Prop :=
  forall w w', db w' = db w -> (drawn w <= drawn w')%nat -> I w -> I w'.

Lemma outside_preserves {A} (I : world -> Prop) (m : eff world A) : of_tables I -> outside m -> preserves I m.
Proof. intros HI Hm w Hw. destruct (Hm w) as [Hdb Hd]. by eapply HI. Qed.
End frame.

#[export] Hint Resolve outside_ret outside_throw outside_lift outside_now outside_fresh outside_placed outside_gets
  outside_read outside_cache_token : platform.

(** Steps through a computation made of binds and case distinctions. *)
Ltac solve_outside :=
  repeat first
    [ solve [auto with platform]
    | apply outside_bind; [|intros ?]
    | case_match ].

Section client_frame.
Context {E : Environment} {U : UuidSource} {P : Parties}.

Lemma outside_getAccessToken : outside getAccessToken.
Proof. unfold getAccessToken, requestToken. solve_outside. Qed.
#[local] Hint Resolve outside_getAccessToken : platform.

Lemma outside_request {T} (answer : list call -> outcome T) m path body hs : outside (request answer m path body hs).
Proof. unfold request. solve_outside. Qed.
#[local] Hint Resolve outside_request : platform.

Lemma outside_resolveSubscription t : outside (resolveSubscription t).
Proof. unfold resolveSubscription. solve_outside. Qed.
Lemma outside_activateSubscription i p : outside (activateSubscription i p).
Proof. unfold activateSubscription. solve_outside. Qed.
Lemma outside_getSubscription i : outside (getSubscription i).
Proof. unfold getSubscription. solve_outside. Qed.
Lemma outside_listSubscriptions : outside listSubscriptions.
Proof. unfold listSubscriptions. solve_outside. Qed.
Lemma outside_getOperation i o : outside (getOperation i o).
Proof. unfold getOperation. solve_outside. Qed.
Lemma outside_patchOperation i o s p q : outside (patchOperation i o s p q).
Proof. unfold patchOperation. solve_outside. Qed.
Lemma outside_submitBatchUsageEvents l : outside (submitBatchUsageEvents l).
Proof. unfold submitBatchUsageEvents. solve_outside. Qed.

(** A cached token is used until a minute before it expires, and only then. *)
Lemma cached_token_used w token expires :
  cachedToken w = Some (token, expires) -> reading (ticks w) + 60000 < expires ->
  (getAccessToken w).1 = Ok token /\ calls (getAccessToken w).2 = calls w.
Proof.
  intros Hc Ht. unfold getAccessToken. run. rewrite Hc. simpl.
  destruct (Z.ltb_spec (reading (ticks w) + 60000) expires); [done | lia].
Qed.

(** A request carries the token, two fresh identifiers and the API version, and is
    the last call recorded whenever it was sent. *)
Lemma request_answered {T} (answer : list call -> outcome T) m path body hs w r w' :
  request answer m path body hs w = (Ok r, w') ->
  exists before token url hdrs,
    calls w' = before ++ [HttpCall (Request (method_name m) url hdrs (if has_body m then body else None))] /\
    answer (calls w') = Answer (rs_data r) /\
    In ("Authorization", "Bearer " +:+ token) hdrs /\
    In ("x-ms-requestid", rs_requestId r) hdrs /\ In ("x-ms-correlationid", rs_correlationId r) hdrs.
Proof.
  unfold request. intros H. apply bind_ok_inv in H as (token & w1 & _ & H). run.
  destruct (answer _) as [d| |] eqn:Ha; simplify_eq. eexists _, token, _, _.
  split; [reflexivity|]. split; [done|]. simpl. repeat split; auto 7.
Qed.
End client_frame.

#[export] Hint Resolve outside_getAccessToken outside_request outside_resolveSubscription
  outside_activateSubscription outside_getSubscription outside_listSubscriptions outside_getOperation
  outside_patchOperation outside_submitBatchUsageEvents : platform.

(** * Marketplace: a sample deployment

    Instances of the parties, the environment and the clock, and a small database,
    at which the witnesses of the marketplace theorems are evaluated. *)

Open Scope Z_scope.

Module Sample.
#[global] Instance pretty_uuids : UuidSource.
Proof. refine {| uuid n := "id" +:+ pretty n |}. Defined.

(** The clock stands at 2024-05-06T12:53:20Z and advances a millisecond per reading. *)
Definition environment (vars : list (string * string)) : Environment := {|
  env name := snd <$> first (fun v => String.eqb v.1 name) vars;
  reading n := 1715000000000 + Z.of_nat n;
|}.

Definition vars : list (string * string) :=
  [("MARKETPLACE_TENANT_ID", "tenant"); ("MARKETPLACE_CLIENT_ID", "client");
   ("MARKETPLACE_CLIENT_SECRET", "secret"); ("MARKETPLACE_METERING_ENABLED", "true");
   ("MARKETPLACE_OFFER_ID", "offer"); ("MARKETPLACE_RECONCILIATION_ENABLED", "true")].

Definition party (mail : string) : MarketplaceParty := Party (Some mail) None None None.

Definition resolved (id : string) (st : MarketplaceSubscriptionStatus) : MarketplaceResolvedSubscription :=
  Resolved (Some id) (Some "name") None (Some "offer") (Some "plan") (Some st) None
    (Some (party "Buyer@example.com")) None None None None None None None [].

(** Microsoft accepts every usage line and every request. *)
Definition accepted_lines (cs : list call) : Json.value :=
  match last cs with
  | Some (HttpCall (Request _ _ _ (Some (Json.JObj [("request", Json.JArr ls)])))) =>
      Json.JObj [("result", Json.JArr (map (fun _ => Json.JObj [("status", Json.JStr "Accepted")]) ls))]
  | _ => Json.JNull
  end.

Definition parties : Parties := {|
  on_resolve _ := Answer (ResolveResponse (resolved "ms1" PendingFulfillmentStart) None None);
  on_subscription _ := Answer (resolved "ms1" Subscribed);
  on_subscriptions _ := Answer (BareArray [resolved "ms1" Subscribed]);
  on_json cs := Answer (accepted_lines cs);
  on_token _ := Answer ("token", 3600);
  on_owner _ := Ok (Some [Some "user1"]);
  on_create_org _ := Ok "org2";
|}.

Definition crypto : Crypto := {|
  sha256_hex s := s;
  jwt_kid _ := Some "kid";
  jwt_verify _ _ _ _ := Ok (Some "app", None);
|}.

Definition sub_data (st : MarketplaceSubscriptionStatus) : subscription_data :=
  SubData "ms1" None "offer" "plan" (Some "name") st None None None None None None None None []
    (party "Buyer@example.com") (Party None None None None) None None Json.JNull.

Definition subscription (st : MarketplaceSubscriptionStatus) (a : MarketplaceActivationStatus)
    (user org : option string) : marketplace_subscription :=
  Sub "s1" (sub_data st) user org a None 0 0 None.

Definition session : marketplace_onboarding_session :=
  Session "o1" "s1" "hash" None None None Onboarding.resolved 1715000100000 Json.JNull 0 0.

Definition verification (id : string) (q : Z) : billing_usage_event :=
  Billing id "org1" (Some "s1") "verification_completed" None id 1714999990000 "2024-05" q Json.JNull.

Definition usage (id : string) (st : UsageStatus.status) (q : Z) : marketplace_usage_event :=
  Usage id "s1" "org1" "verification_txn" q 1714996800000 st None None None None None [] 0 0.

Definition with_db (d : tables) (n : nat) : world := World d 0 n [] None.
End Sample.
