(* ===== verification/Entitlement.v ===== *)
(** * Marketplace: entitlements

    [services/entitlement.service.ts]: which features an organization may use, and
    how far its usage exceeds what the plan includes. *)

From S2P Require Import Prelude Js Table MarketplaceData MarketplaceRepository MarketplaceClient.

Open Scope Z_scope.

Section entitlement.
Context {E : Environment}.

Definition defaultFeatures : list (string * Json.value) :=
  [("schemaCreate", Json.JBool true); ("credentialDefinitionCreate", Json.JBool true);
   ("issuance", Json.JBool true); ("bulkIssuance", Json.JBool true);
   ("verification", Json.JBool true); ("apiAccess", Json.JBool true)].

Definition eventTypeByDimension : list (string * string) :=
  [("setup_fee", "organization_setup_completed"); ("issuance_txn", "issuance_completed");
   ("verification_txn", "verification_completed"); ("schema_create", "schema_created")].

Definition isExemptOrg (org : string) : bool :=
  if String.eqb org "" then false
  else
    let exempt := List.filter (fun id => negb (String.eqb id ""))
      (map (fun id => Str.toLowerCase (Str.trim id)) (Str.split "," (str_or (env "MARKETPLACE_EXEMPT_ORG_IDS") ""))) in
    existsb (String.eqb (Str.toLowerCase (Str.trim org))) exempt.

Definition planFeatures (plan : option marketplace_plan) : list (string * Json.value) :=
  match plan with
  | Some p =>
      if Json.truthy (features p)
      then Json.spread defaultFeatures (match features p with Json.JObj fs => fs | _ => [] end)
      else defaultFeatures
  | None => defaultFeatures
  end.

Definition disableFeatures : list (string * Json.value) :=
  map (fun f => (f.1, Json.JBool false)) defaultFeatures.

Definition blockedReason (s : marketplace_subscription) : option string :=
  match saasSubscriptionStatus (data s) with
  | PendingFulfillmentStart => Some "marketplace_activation_required"
  | Suspended => Some "marketplace_subscription_suspended"
  | Unsubscribed => Some "marketplace_subscription_unsubscribed"
  | Subscribed =>
      if bool_decide (activationStatus s = failed) then Some "marketplace_activation_failed" else None
  end.

Definition includedForDimension (plan : option marketplace_plan) (dim : string) : Z :=
  match plan with
  | None => 0
  | Some p =>
      if String.eqb dim "issuance_txn" then includedIssuanceTransactions p
      else if String.eqb dim "verification_txn" then includedVerificationTransactions p
      else if String.eqb dim "schema_create" then includedSchemas p
      else 0
  end.

(** [subscription.termStartDate || new Date(Date.UTC(year, month, 1))]; the year and
    the month are taken from two readings of the clock. *)
Definition billing_start (s : marketplace_subscription) : eff world Z :=
  match termStartDate (data s) with
  | Some t => mret t
  | None => t1 ← now; t2 ← now;
            mret (Date.days_of_civil (Date.getUTCFullYear t1) (Date.month t2) 1 * Date.ms_per_day)
  end.

Definition billing_end (s : marketplace_subscription) : eff world Z :=
  match termEndDate (data s) with Some t => mret t | None => now end.

Definition total_of (totals : list (string * Z)) (event : string) : Z :=
  match first (fun t => String.eqb t.1 event) totals with Some t => t.2 | None => 0 end.

Definition getUsage (s : marketplace_subscription) (plan : option marketplace_plan) :
    eff world (list (string * usage_figures)) :=
  start ← billing_start s;
  finish ← billing_end s;
  totals ← match orgId s with
           | Some o => if String.eqb o "" then mret [] else getUsageTotals o start finish
           | None => mret []
           end;
  mret (map (fun '(dim, event) =>
          let used := total_of totals event in
          let included := includedForDimension plan dim in
          (dim, Figures included used (Z.max (used - included) 0))) eventTypeByDimension).

Definition is_active (s : marketplace_subscription) : bool :=
  bool_decide (saasSubscriptionStatus (data s) = Subscribed) && bool_decide (activationStatus s = activated).

(** [n || null] *)
Definition limit (n : option Z) : option Z :=
  match n with Some n => if n =? 0 then None else Some n | None => None end.

Definition marketplace_required : bool := flag "MARKETPLACE_REQUIRED".

Definition getEntitlements (org : string) : eff world MarketplaceEntitlementResponse :=
  if isExemptOrg org then mret (Entitlements org None defaultFeatures [] [] None)
  else
    subscription ← getSubscriptionByOrgId org;
    match subscription with
    | None =>
        mret (Entitlements org None (if marketplace_required then disableFeatures else defaultFeatures) [] []
          (if marketplace_required then Some "marketplace_subscription_required" else None))
    | Some s =>
        plan ← getPlan (offerId (data s)) (planId (data s));
        usage ← getUsage s plan;
        let features := if is_active s then planFeatures plan else disableFeatures in
        mret (Entitlements org
          (Some (SubRef (marketplaceSubscriptionId (data s)) (saasSubscriptionStatus (data s)) (planId (data s))))
          features
          [("maxUsers", limit (plan ≫= maxUsers)); ("maxOrganizations", limit (plan ≫= maxOrganizations))]
          usage
          (if is_active s then None else blockedReason s))
    end.

Definition isFeatureAllowed (org feature : string) : eff world bool :=
  e ← getEntitlements org; mret (Json.property_truthy feature (e_features e)).

(** ** Specification *)

(** The standing of an organization in the database. *)
Inductive standing :=
  | Exempt
  | Unsubscribed_org
  | Active (plan : option marketplace_plan)
  | Inactive (s : marketplace_subscription).

Definition plan_of (d : tables) (s : marketplace_subscription) : option marketplace_plan :=
  first (fun p => String.eqb (plan_offerId p) (offerId (data s)) && String.eqb (plan_planId p) (planId (data s))) (plans d).

Definition standing_of (d : tables) (org : string) : standing :=
  if isExemptOrg org then Exempt
  else match latest sub_created (List.filter (of_org org) (subscriptions d)) with
       | None => Unsubscribed_org
       | Some s => if is_active s then Active (plan_of d s) else Inactive s
       end.

(** What a plan says about a feature, before the default applies. *)
Definition plan_override (plan : option marketplace_plan) (feature : string) : option Json.value :=
  match plan with
  | Some p => match features p with Json.JObj fs => Json.field feature (rev fs) | _ => None end
  | None => None
  end.

Definition allowed (st : standing) (feature : string) : bool :=
  let known := existsb (String.eqb feature) defaultFeatures.*1 in
  let inherited := existsb (String.eqb feature) Json.object_prototype in
  match st with
  | Exempt => known || inherited
  | Unsubscribed_org => (negb marketplace_required && known) || inherited
  | Active plan => match plan_override plan feature with Some v => Json.truthy v | None => known || inherited end
  | Inactive _ => inherited
  end.

(** ** Lemmas *)

Lemma property_default f : Json.property_truthy f defaultFeatures =
  existsb (String.eqb f) defaultFeatures.*1 || existsb (String.eqb f) Json.object_prototype.
Proof.
  unfold Json.property_truthy, defaultFeatures. simpl.
  repeat (match goal with |- context [String.eqb f ?k] =>
    destruct (String.eqb f k); [done|] end).
  done.
Qed.

Lemma property_disabled f : Json.property_truthy f disableFeatures = existsb (String.eqb f) Json.object_prototype.
Proof.
  unfold Json.property_truthy, disableFeatures, defaultFeatures.
  cbn [map fst Json.field].
  do 6 (match goal with |- context [if String.eqb f ?k then _ else _] =>
    destruct (String.eqb_spec f k) as [->|]; [done|] end).
  done.
Qed.

Lemma property_plan plan f : Json.property_truthy f (planFeatures plan) =
  match plan_override plan f with
  | Some v => Json.truthy v
  | None => existsb (String.eqb f) defaultFeatures.*1 || existsb (String.eqb f) Json.object_prototype
  end.
Proof.
  rewrite <- property_default. destruct plan as [p|]; [|done]. unfold planFeatures, plan_override.
  destruct (features p) as [|[]|n|s|vs|fs]; simpl; try done.
  - by destruct (n =? 0).
  - by destruct (String.eqb s "").
  - unfold Json.property_truthy. rewrite Json.field_spread. by destruct (Json.field f (rev fs)).
Qed.

Lemma outside_getUsage s plan : outside (getUsage s plan).
Proof. unfold getUsage, billing_start, billing_end, getUsageTotals. solve_outside. Qed.

(** Reading the usage never fails. *)
Lemma getUsage_ok s plan w : exists u w', getUsage s plan w = (Ok u, w').
Proof.
  unfold getUsage, billing_start, billing_end, getUsageTotals, read, now. run.
  destruct (termStartDate (data s)), (termEndDate (data s)), (orgId s) as [o|]; simpl; try destruct (String.eqb o ""); eauto.
Qed.

Lemma getEntitlements_features org w :
  exists e w', getEntitlements org w = (Ok e, w') /\ db w' = db w /\
    e_features e = match standing_of (db w) org with
                   | Exempt => defaultFeatures
                   | Unsubscribed_org => if marketplace_required then disableFeatures else defaultFeatures
                   | Active plan => planFeatures plan
                   | Inactive _ => disableFeatures
                   end /\
    e_blockedReason e = match standing_of (db w) org with
                   | Exempt | Active _ => None
                   | Unsubscribed_org => if marketplace_required then Some "marketplace_subscription_required" else None
                   | Inactive s => blockedReason s
                   end.
Proof.
  unfold getEntitlements, standing_of. destruct (isExemptOrg org); [by eauto 10|].
  unfold getSubscriptionByOrgId, getPlan, read. rewrite run_bind. run.
  destruct (latest sub_created _) as [s|]; [|by eauto 10]. simpl.
  fold (plan_of (db w) s). destruct (outside_getUsage s (plan_of (db w) s) w) as [Hdb _].
  destruct (getUsage_ok s (plan_of (db w) s) w) as (u & w' & Hu). rewrite Hu in Hdb |- *. simpl in *.
  eexists _, _. split; [done|]. simpl. split; [done|]. by destruct (is_active s).
Qed.

Lemma features_allowed org feature w e w' : getEntitlements org w = (Ok e, w') ->
  Json.property_truthy feature (e_features e) = allowed (standing_of (db w) org) feature.
Proof.
  destruct (getEntitlements_features org w) as (e' & w'' & -> & _ & Hf & _). intros [= <- _]. rewrite Hf.
  destruct (standing_of (db w) org); simpl.
  - apply property_default.
  - destruct marketplace_required; simpl; [apply property_disabled | apply property_default].
  - apply property_plan.
  - apply property_disabled.
Qed.

(** ** Theorems *)

(** A feature is allowed exactly when the organization's standing allows it: an
    exempt organization has the default features, one without a subscription has them
    unless the marketplace is mandatory, an active subscription has the default features
    as its plan overrides them, any other subscription has none. *)
Theorem isFeatureAllowed_spec org feature w :
  (isFeatureAllowed org feature w).1 = Ok (allowed (standing_of (db w) org) feature) /\
  db (isFeatureAllowed org feature w).2 = db w.
Proof.
  unfold isFeatureAllowed. rewrite run_bind.
  destruct (getEntitlements_features org w) as (e & w' & He & Hdb & _). rewrite He. simpl.
  split; [|done]. f_equal. by apply (features_allowed _ _ _ _ w').
Qed.

(** A subscription that Microsoft reports as subscribed but whose activation was never
    completed has every feature disabled and no reason is given for it. *)
Theorem blocked_without_reason org s w :
  standing_of (db w) org = Inactive s ->
  (exists e, (getEntitlements org w).1 = Ok e /\ e_features e = disableFeatures /\
    (e_blockedReason e = None <->
     saasSubscriptionStatus (data s) = Subscribed /\ (activationStatus s = not_started \/ activationStatus s = in_progress))).
Proof.
  intros Hst. destruct (getEntitlements_features org w) as (e & w' & He & _ & Hf & Hr).
  rewrite Hst in Hf, Hr. exists e. rewrite He. split; [done|]. split; [done|]. rewrite Hr.
  unfold standing_of in Hst. repeat case_match; simplify_eq.
  unfold blockedReason. destruct (saasSubscriptionStatus (data s)) eqn:Hs; try naive_solver.
  destruct (activationStatus s) eqn:Ha; case_bool_decide; try naive_solver.
  exfalso. unfold is_active in *. rewrite Hs, Ha in *. done.
Qed.
End entitlement.
