(* ===== verification/MarketplaceGuard.v ===== *)
(** * The API gateway: marketplace guards

    [apps/api-gateway/src/marketplace]: the guards that ask the marketplace service for
    an organization's entitlements before a route runs. *)

From S2P Require Import Prelude Js Table MarketplaceData MarketplaceRepository MarketplaceClient Entitlement GatewayAuth.

Open Scope Z_scope.

(** [request.params], [request.body] and [request.query]: the strings [getOrgId] reads. *)
Record gateway_request := GatewayRequest {
  g_user : option request_user;
  params : option string * option string;   (* [orgId], [organizationId] *)
  body : option string * option string;
  query_org : option string;
}.

(** [a || b || ...] *)
Fixpoint first_truthy (l : list (option string)) : option string :=
  match l with
  | [] => None
  | o :: l' => if truthy_str o then o else first_truthy l'
  end.

Definition getOrgId (r : gateway_request) : option string :=
  first_truthy [(params r).1; (params r).2; (body r).1; (body r).2; query_org r].

(** [new ForbiddenException({ code, message })] *)
Definition coded (code message : string) : exn := Exn ForbiddenException message (Some 403) (Some code).

Definition isUsageLimitReached (e : MarketplaceEntitlementResponse) (dimension : string) : bool :=
  match first (fun u => String.eqb u.1 dimension) (e_usage e) with
  | Some u => included u.2 <=? used u.2
  | None => false
  end.

(** The dimension whose limit a feature is held to. *)
Definition limited_dimension (feature : string) : option (string * exn) :=
  if String.eqb feature "schemaCreate" then Some ("schema_create",
    coded "marketplace_schema_limit_reached" "Marketplace schema creation limit has been reached for this plan")
  else if String.eqb feature "issuance" || String.eqb feature "bulkIssuance" then Some ("issuance_txn",
    coded "marketplace_issuance_limit_reached" "Marketplace issuance transaction limit has been reached for this plan")
  else if String.eqb feature "verification" then Some ("verification_txn",
    coded "marketplace_verification_limit_reached" "Marketplace verification transaction limit has been reached for this plan")
  else None.

Section guard.
Context {E : Environment}.

Definition isMarketplaceEnabled : bool := flag "MARKETPLACE_ENABLED".
Definition isMarketplaceMeteringEnabled : bool := isMarketplaceEnabled && flag "MARKETPLACE_METERING_ENABLED".

(** [ask org] is the answer of the marketplace service. *)
Definition MarketplaceEntitlementGuard (feature : option string) (r : gateway_request)
    (ask : string -> result MarketplaceEntitlementResponse) : result bool :=
  match feature with
  | None => Ok true
  | Some f =>
      if String.eqb f "" || negb isMarketplaceEnabled || isPlatformAdmin (g_user r) then Ok true
      else match getOrgId r with
      | None => Ok true
      | Some org =>
          match ask org with
          | Throw _ => if flag "MARKETPLACE_REQUIRED"
                       then Throw (coded "marketplace_entitlement_unavailable" "Unable to verify Marketplace entitlements")
                       else Ok true
          | Ok e =>
              if Json.property_truthy f (e_features e) then
                match limited_dimension f with
                | Some (dim, err) => if isUsageLimitReached e dim then Throw err else Ok true
                | None => Ok true
                end
              else Throw (coded (str_or (e_blockedReason e) "marketplace_feature_not_allowed")
                            "Marketplace subscription does not allow this action")
          end
      end
  end.

Definition MarketplaceSubscriptionRequiredGuard (u : option request_user) : result bool :=
  if negb isMarketplaceEnabled || negb (flag "MARKETPLACE_REQUIRED") then Ok true
  else if isPlatformAdmin u then Ok true
  else Throw (coded "marketplace_subscription_required"
         "Organizations can only be created through a Microsoft Marketplace subscription.").
End guard.

(** ** Laws *)

Section laws.
Context {E : Environment}.

(** The usage in an answer of the service: the overage is what exceeds the included. *)
Lemma usage_overage org w e w' dim u : getEntitlements org w = (Ok e, w') -> (dim, u) ∈ e_usage e ->
  overage u = Z.max (used u - included u) 0.
Proof.
  unfold getEntitlements. destruct (isExemptOrg org); [intros [= <- <-] H; by apply elem_of_nil in H|].
  intros (sub & w1 & _ & H)%bind_ok_inv Hin. destruct sub as [s|]; [|injection H as <- _; by apply elem_of_nil in Hin].
  apply bind_ok_inv in H as (plan & w2 & _ & H). apply bind_ok_inv in H as (usage & w3 & Hu & H). injection H as <- _.
  unfold getUsage in Hu. apply bind_ok_inv in Hu as (start & w4 & _ & Hu). apply bind_ok_inv in Hu as (fin & w5 & _ & Hu).
  apply bind_ok_inv in Hu as (totals & w6 & _ & Hu). injection Hu as <- _.
  cbn [e_usage] in Hin. rewrite !elem_of_cons, elem_of_nil in Hin. by destruct Hin as [[= _ ->]|[[= _ ->]|[[= _ ->]|[[= _ ->]|[]]]]].
Qed.

(** An answer of the service, run against the database [w]. *)
Definition answers (w : world) (org : string) : result MarketplaceEntitlementResponse := (getEntitlements org w).1.


(** The requests the guard lets pass without asking. *)
Definition exempt_request (r : gateway_request) : bool :=
  negb isMarketplaceEnabled || isPlatformAdmin (g_user r) || bool_decide (getOrgId r = None).




(** An issuance the guard lets pass for an organization it asked about is never beyond
    what the plan includes: while the guard stands, no issuance becomes billable overage. *)
Theorem no_billable_issuance r w org e : exempt_request r = false -> getOrgId r = Some org -> answers w org = Ok e ->
  MarketplaceEntitlementGuard (Some "issuance") r (answers w) = Ok true ->
  forall u, first (fun u => String.eqb u.1 "issuance_txn") (e_usage e) = Some u -> used u.2 < included u.2 /\ overage u.2 = 0.
Proof.
  intros Hx Ho He Hg u Hu. unfold MarketplaceEntitlementGuard, exempt_request in *. simpl in Hg.
  apply orb_false_iff in Hx as [Hx _]. rewrite Hx, Ho, He in Hg. unfold isUsageLimitReached in Hg. rewrite Hu in Hg.
  destruct (Json.property_truthy _ _); [|done]. destruct (Z.leb_spec (included u.2) (used u.2)) as [|Hlt]; [done|].
  split; [done|]. unfold answers in He. destruct (getEntitlements org w) as [r' w'] eqn:E0. simpl in He. subst r'.
  apply first_Some in Hu as [Hu _]. destruct u as [dim u]. simpl in *. rewrite (usage_overage _ _ _ _ _ _ E0 Hu). lia.
Qed.
End laws.

(** ** At a sample deployment *)

Module GuardSample.
#[local] Instance env : Environment := Sample.environment [("MARKETPLACE_ENABLED", "true")].

Definition plan (issuances : Z) : marketplace_plan := Plan "offer" "plan" issuances 5 2 None None Json.JNull.

(** One issuance has been made under a plan that includes [n]. *)
Definition start (n : Z) : world := Sample.with_db
  (Tables [Sample.subscription Subscribed activated (Some "user1") (Some "org1")] [] [plan n] []
    [Billing "b1" "org1" (Some "s1") "issuance_completed" None "b1" 1714999990000 "2024-05" 1 Json.JNull] [] []) 0.

Definition asked : gateway_request := GatewayRequest None (Some "org1", None) (None, None) None.


Example no_billable_issuance_witness : exists u, used u = 1 /\ overage u = 0.
Proof.
  destruct (answers (start 2) "org1") as [e|x] eqn:He; [|vm_compute in He; discriminate].
  pose proof (no_billable_issuance asked (start 2) "org1" e eq_refl eq_refl He eq_refl) as H.
  vm_compute in He. injection He as <-. destruct (H _ eq_refl) as [_ Ho]. eexists. split; [|exact Ho]. reflexivity.
Defined.

(** The unit test of the guard expects issuance at the limit to pass; the guard refuses it. *)
Example issuance_at_limit : MarketplaceEntitlementGuard (Some "issuance") asked
    (fun org => Ok (Entitlements org None [("issuance", Json.JBool true)] [] [("issuance_txn", Figures 100 100 0)] None)) =
  Throw (coded "marketplace_issuance_limit_reached" "Marketplace issuance transaction limit has been reached for this plan").
Proof. vm_compute. reflexivity. Qed.
End GuardSample.
