(* ===== verification/Metering.v ===== *)
(** * Marketplace: metering

    [services/metering.service.ts]: the usage beyond what a plan includes is summed
    per hour and dimension, and submitted to Microsoft in batches.  Quantities are
    integers: the doubles of the code add them exactly below 2^53. *)

From S2P Require Import Prelude Js Table MarketplaceData MarketplaceRepository MarketplaceClient Entitlement.

Open Scope Z_scope.

(** ** Aggregation *)

Definition dimensionByEventType (event : string) : option string :=
  if String.eqb event "organization_setup_completed" then Some "setup_fee"
  else if String.eqb event "issuance_completed" then Some "issuance_txn"
  else if String.eqb event "verification_completed" then Some "verification_txn"
  else if String.eqb event "schema_created" then Some "schema_create"
  else None.

(** [plan?.x || 0] for each dimension *)
Definition includedUsage (plan : option marketplace_plan) : list (string * Z) :=
  [("setup_fee", 0); ("issuance_txn", from_option includedIssuanceTransactions 0 plan);
   ("verification_txn", from_option includedVerificationTransactions 0 plan);
   ("schema_create", from_option includedSchemas 0 plan)].

(** [o[k] || 0] *)
Fixpoint number (k : string) (o : list (string * Z)) : Z :=
  match o with
  | [] => 0
  | (k', n) :: o' => if String.eqb k k' then n else number k o'
  end.

Fixpoint set_number (k : string) (n : Z) (o : list (string * Z)) : list (string * Z) :=
  match o with
  | [] => [(k, n)]
  | (k', n') :: o' => if String.eqb k k' then (k, n) :: o' else (k', n') :: set_number k n o'
  end.

Record hourly := Hourly {
  h_key : string;
  h_dimension : string;
  h_hour : Z;
  h_quantity : Z;
  h_sources : list string;
}.

Definition hour_key (dim : string) (hour : Z) : string := dim +:+ ":" +:+ Date.toISOString hour.

(** [hourlyOverage[key] = hourlyOverage[key] || {...}; ... quantity += q; ... push(id)] *)
Fixpoint add_hourly (dim : string) (hour q : Z) (id : string) (acc : list hourly) : list hourly :=
  match acc with
  | [] => [Hourly (hour_key dim hour) dim hour q [id]]
  | h :: acc' =>
      if String.eqb (h_key h) (hour_key dim hour)
      then Hourly (h_key h) (h_dimension h) (h_hour h) (h_quantity h + q) (h_sources h ++ [id]) :: acc'
      else h :: add_hourly dim hour q id acc'
  end.

(** One turn of the loop over the source events. *)
Definition count_event (included : list (string * Z)) (st : list (string * Z) * list hourly)
    (e : billing_usage_event) : list (string * Z) * list hourly :=
  let '(running, acc) := st in
  match dimensionByEventType (eventType e) with
  | None => st
  | Some dim =>
      let previous := number dim running in
      let total := previous + bill_quantity e in
      let running := set_number dim total running in
      let inc := number dim included in
      if total <=? inc then (running, acc)
      else
        let billable := Z.min (bill_quantity e) (total - Z.max previous inc) in
        (running, add_hourly dim (Date.hour_start (occurredAt e)) billable (bill_id e) acc)
  end.

Definition overage_of (included : list (string * Z)) (events : list billing_usage_event) : list hourly :=
  (fold_left (count_event included) events ([], [])).2.

Section metering.
Context {E : Environment} {U : UuidSource} {P : Parties}.

Definition aggregateSubscriptionUsage (s : marketplace_subscription) : eff world unit :=
  match orgId s with
  | None => mret tt
  | Some org =>
      if String.eqb org "" then mret tt else
      plan ← getPlan (offerId (data s)) (planId (data s));
      start ← billing_start s;
      finish ← billing_end s;
      events ← getBillableEventsForSubscription (sub_id s) start finish;
      for_each (overage_of (includedUsage plan) events) (fun h =>
        createOrUpdateUsageEvent (sub_id s) org (h_dimension h) (h_quantity h) (h_hour h) (h_sources h))
  end.

Definition aggregateUsage : eff world unit :=
  subscriptions ← listActiveSubscriptions; for_each subscriptions aggregateSubscriptionUsage.

(** ** Submission *)

Definition submission_window : Z := 24 * 60 * 60 * 1000.
Definition MAX_BATCH_SIZE : nat := 25.

(** [list.filter(x => test(Date.now(), x))]: the clock is read for every element. *)
Fixpoint filter_now {A} (test : Z -> A -> bool) (l : list A) : eff world (list A) :=
  match l with
  | [] => mret []
  | x :: l' => t ← now; r ← filter_now test l'; mret (if test t x then x :: r else r)
  end.

(** [result[i] ?? null] and its [status] *)
Definition result_at (response : Json.value) (i : nat) : option Json.value :=
  match Json.get "result" response with
  | Some (Json.JArr rs) => match rs !! i with Some Json.JNull => None | r => r end
  | _ => None
  end.

Definition local_status (ms : option Json.value) : UsageStatus.status :=
  match ms with
  | Some (Json.JStr s) =>
      if String.eqb s "Accepted" then UsageStatus.accepted
      else if String.eqb s "Duplicate" then UsageStatus.duplicate
      else UsageStatus.failed
  | _ => UsageStatus.failed
  end.

(** [msStatus || 'error'] in a text column *)
Definition response_status (ms : option Json.value) : result string :=
  match ms with
  | Some (Json.JStr s) => Ok (str_or (Some s) "error")
  | Some v => if Json.truthy v then Throw prisma_validation else Ok "error"
  | None => Ok "error"
  end.

Definition settle (response : MarketplaceClientResponse Json.value) (i : nat) (e : marketplace_usage_event) :
    eff world unit :=
  let r := result_at (rs_data response) i in
  let ms := r ≫= Json.get "status" in
  status ← lift (response_status ms);
  updateUsageEventStatus (use_id e) (local_status ms)
    (Submission (Some status) (Some (Json.stringify (default (rs_data response) r)))
       (Some (rs_requestId response)) (Some (rs_correlationId response))).

Definition line_of (p : marketplace_usage_event * marketplace_subscription) : usage_line :=
  Line (marketplaceSubscriptionId (data p.2)) (use_quantity p.1) (dimension p.1) (Date.toISOString (usageStartTime p.1)).

Definition submit_batch (batch : list (marketplace_usage_event * marketplace_subscription)) : eff world unit :=
  response ← submitBatchUsageEvents (map line_of batch);
  for_each (zip (seq 0 (length batch)) batch) (fun p => settle response p.1 p.2.1).

(** [for (offset = 0; offset < l.length; offset += n) ... l.slice(offset, offset + n)];
    [fuel] bounds the number of turns, and the length of the list is enough. *)
Fixpoint chunks {A} (fuel n : nat) (l : list A) : list (list A) :=
  match fuel, l with
  | O, _ | _, [] => []
  | S fuel', _ => take n l :: chunks fuel' n (drop n l)
  end.

Definition expired_message : string := "Usage event is older than the Microsoft 24 hour submission window".

Definition submitPendingUsage : eff world unit :=
  pendingEvents ← listPendingUsageEvents;
  match pendingEvents with
  | [] => mret tt
  | _ =>
      eligible ← filter_now (fun t p => t - usageStartTime p.1 <=? submission_window) pendingEvents;
      expired ← filter_now (fun t p => submission_window <? t - usageStartTime p.1) pendingEvents;
      _ ← for_each expired (fun p => updateUsageEventStatus (use_id p.1) UsageStatus.expired
            (Submission None (Some expired_message) None None));
      for_each (chunks (length eligible) MAX_BATCH_SIZE eligible) submit_batch
  end.

Definition aggregateAndSubmitUsage : eff world unit :=
  if negb (flag "MARKETPLACE_METERING_ENABLED") then mret tt
  else _ ← aggregateUsage; submitPendingUsage.
End metering.

(** ** Overage is conserved *)

Lemma number_set_eq k n o : number k (set_number k n o) = n.
Proof.
  induction o as [|[k' n'] o IH]; simpl; [by rewrite String.eqb_refl|].
  destruct (String.eqb k k') eqn:E; simpl; [by rewrite String.eqb_refl | by rewrite E].
Qed.

Lemma number_set_ne k k' n o : k <> k' -> number k (set_number k' n o) = number k o.
Proof.
  intros Hne. induction o as [|[k0 n0] o IH]; simpl.
  - by destruct (String.eqb_spec k k').
  - destruct (String.eqb_spec k' k0) as [<-|]; simpl.
    + by destruct (String.eqb_spec k k').
    + destruct (String.eqb k k0); [done | apply IH].
Qed.

Definition sum (l : list Z) : Z := foldr Z.add 0 l.

(** What the events add to a dimension, and what the entries bill for it. *)
Definition used_in (dim : string) (events : list billing_usage_event) : Z :=
  sum (bill_quantity <$> List.filter (fun e => bool_decide (dimensionByEventType (eventType e) = Some dim)) events).

Definition billed_in (dim : string) (acc : list hourly) : Z :=
  sum (h_quantity <$> List.filter (fun h => String.eqb (h_dimension h) dim) acc).

Lemma billed_in_cons d h acc :
  billed_in d (h :: acc) = (if String.eqb (h_dimension h) d then h_quantity h else 0) + billed_in d acc.
Proof. unfold billed_in. simpl. by destruct (String.eqb (h_dimension h) d). Qed.

Definition known_dimension (dim : string) : Prop := exists event, dimensionByEventType event = Some dim.

(** Keys are built from the dimension of their entry. *)
Definition keyed (h : hourly) : Prop := known_dimension (h_dimension h) /\ h_key h = hour_key (h_dimension h) (h_hour h).

Fixpoint before_colon (s : string) : string :=
  match s with
  | EmptyString => ""
  | String c s' => if Ascii.eqb c ":" then "" else String c (before_colon s')
  end.

Lemma before_colon_key d h : known_dimension d -> before_colon (hour_key d h) = d.
Proof.
  intros [e He]. unfold hour_key. generalize (Date.toISOString h) as t. intros t.
  unfold dimensionByEventType in He.
  repeat (destruct (String.eqb _ _) in He; [injection He as <-; reflexivity|]). done.
Qed.

Lemma hour_key_dimension d d' h h' :
  known_dimension d -> known_dimension d' -> hour_key d h = hour_key d' h' -> d = d'.
Proof. intros Hd Hd' H. by rewrite <- (before_colon_key d h), H, before_colon_key. Qed.

Lemma add_hourly_spec dim hour q id acc : known_dimension dim -> Forall keyed acc ->
  Forall keyed (add_hourly dim hour q id acc) /\
  forall d, billed_in d (add_hourly dim hour q id acc) = billed_in d acc + if String.eqb dim d then q else 0.
Proof.
  intros Hd. induction acc as [|h acc IH]; intros Hacc; simpl.
  - split; [by repeat constructor|]. intros d. rewrite billed_in_cons. simpl. lia.
  - apply Forall_cons in Hacc as [Hh Hacc]. specialize (IH Hacc) as [IH1 IH2].
    destruct (String.eqb_spec (h_key h) (hour_key dim hour)) as [Hk|Hk].
    + split; [by constructor|]. intros d. destruct Hh as [Hh1 Hh2].
      assert (h_dimension h = dim) as Hdim.
      { rewrite Hk in Hh2. symmetry. by eapply hour_key_dimension. }
      rewrite !billed_in_cons. simpl. rewrite Hdim. destruct (String.eqb dim d); lia.
    + split; [by constructor|]. intros d. rewrite !billed_in_cons, IH2. lia.
Qed.

(** The loop invariant: totals are what was used, entries bill the part beyond the
    included quantity. *)
Definition counted (included : list (string * Z)) (events : list billing_usage_event)
    (st : list (string * Z) * list hourly) : Prop :=
  Forall keyed st.2 /\
  forall d, number d st.1 = used_in d events /\ billed_in d st.2 = Z.max 0 (used_in d events - number d included).

Lemma used_in_snoc d events e : used_in d (events ++ [e]) =
  used_in d events + if bool_decide (dimensionByEventType (eventType e) = Some d) then bill_quantity e else 0.
Proof.
  unfold used_in, sum. rewrite List.filter_app, fmap_app, foldr_app. simpl.
  generalize (bill_quantity <$> List.filter
    (fun e0 => bool_decide (dimensionByEventType (eventType e0) = Some d)) events) as l.
  intros l. case_bool_decide; simpl; induction l; simpl; lia.
Qed.

Lemma count_event_step included events e st :
  0 <= bill_quantity e -> (forall d, 0 <= number d included) -> counted included events st ->
  counted included (events ++ [e]) (count_event included st e).
Proof.
  intros Hq Hinc [Hk Hst]. destruct st as [running acc]. unfold count_event.
  destruct (dimensionByEventType (eventType e)) as [dim|] eqn:Hdim.
  2:{ split; [done|]. intros d. rewrite used_in_snoc, bool_decide_false by congruence.
      destruct (Hst d). simpl in *. lia. }
  assert (Hknown : known_dimension dim) by (by eexists).
  assert (Hrun : forall d, number d (set_number dim (number dim running + bill_quantity e) running) =
                           used_in d (events ++ [e])).
  { intros d. rewrite used_in_snoc, Hdim. destruct (Hst d) as [Hd _], (Hst dim) as [Hdm _]. simpl in *.
    destruct (decide (dim = d)) as [->|Hne].
    - rewrite number_set_eq, bool_decide_true by done. lia.
    - rewrite number_set_ne by congruence. rewrite bool_decide_false by congruence. lia. }
  pose proof (Hst dim) as [Ht Hb]. simpl in Ht, Hb. specialize (Hinc dim).
  destruct (Z.leb_spec (number dim running + bill_quantity e) (number dim included)) as [Hle|Hgt].
  - split; [done|]. intros d. split; [apply Hrun|]. simpl. rewrite used_in_snoc, Hdim.
    destruct (Hst d) as [_ Hd]. simpl in Hd. case_bool_decide as Hdd; simplify_eq; lia.
  - destruct (add_hourly_spec dim (Date.hour_start (occurredAt e))
      (Z.min (bill_quantity e) (number dim running + bill_quantity e - Z.max (number dim running) (number dim included)))
      (bill_id e) acc Hknown Hk) as [Hk' Hsum].
    split; [done|]. intros d. split; [apply Hrun|]. simpl. rewrite Hsum, used_in_snoc, Hdim.
    destruct (Hst d) as [_ Hd]. simpl in Hd.
    destruct (String.eqb_spec dim d) as [->|Hne].
    + rewrite bool_decide_true by done. lia.
    + rewrite bool_decide_false by congruence. lia.
Qed.

Lemma counted_fold included events : (forall d, 0 <= number d included) ->
  Forall (fun e => 0 <= bill_quantity e) events -> counted included events (fold_left (count_event included) events ([], [])).
Proof.
  intros Hinc. induction events as [|e events IH] using rev_ind; intros Hq.
  - split; [constructor|]. intros d. specialize (Hinc d). unfold used_in, billed_in. simpl. lia.
  - apply Forall_app in Hq as [Hq Hqe%Forall_inv].
    rewrite fold_left_app. simpl. apply count_event_step; [exact Hqe | exact Hinc | by apply IH].
Qed.

(** C27. Whatever the order and the hours of the events, the entries aggregated for a
    dimension bill exactly the quantity used beyond what the plan includes. *)
Theorem overage_conserved plan events dim :
  Forall (fun e => 0 <= bill_quantity e) events ->
  (forall d, 0 <= number d (includedUsage plan)) ->
  billed_in dim (overage_of (includedUsage plan) events) =
  Z.max 0 (used_in dim events - number dim (includedUsage plan)).
Proof. intros Hq Hinc. by apply (counted_fold _ events Hinc Hq). Qed.

(** ** What has been settled stays settled *)

Section settled.
Context {E : Environment} {U : UuidSource} {P : Parties}.

(** The identifiers of the usage rows are distinct and were drawn from the source. *)
Definition usage_ids_ok (w : world) : Prop :=
  NoDup (use_id <$> usage_events (db w)) /\
  forall e, e ∈ usage_events (db w) -> exists n, (n < drawn w)%nat /\ use_id e = uuid n.

Definition same_event (e e' : marketplace_usage_event) : Prop :=
  use_id e' = use_id e /\ use_subscription e' = use_subscription e /\ dimension e' = dimension e /\
  usageStartTime e' = usageStartTime e /\ use_status e' = use_status e.

(** The row of [e] is still there with its status. *)
Definition still (e : marketplace_usage_event) (w : world) : Prop :=
  usage_ids_ok w /\ exists e', e' ∈ usage_events (db w) /\ same_event e e'.

Lemma still_of_tables e : of_tables (still e).
Proof.
  intros w w' Hdb Hd [[Hnd Hids] He]. unfold still, usage_ids_ok. rewrite Hdb. split; [split; [done|] | done].
  intros x (n & Hn & Hx)%Hids. exists n. split; [lia | done].
Qed.

Lemma still_outside {A} e (m : eff world A) : outside m -> preserves (still e) m.
Proof. apply outside_preserves, still_of_tables. Qed.

(** A rewriting of rows that keeps identifiers, and keeps the row of [e] its status. *)
Lemma still_update e q f w :
  (forall r, use_id (f r) = use_id r) ->
  (forall r, q r = true -> same_event e r -> same_event e (f r)) ->
  still e w -> still e (set_db (set_usage_events (update_where q f (usage_events (db w))) (db w)) w).
Proof.
  intros Hid Hse [[Hnd Hids] (e' & Hin & Hsame)]. split; [split|]; simpl.
  - by rewrite fmap_update_where by (intros; apply Hid).
  - intros x (r & Hr & ->)%elem_of_update_where. apply Hids in Hr as (n & ? & ?). exists n.
    destruct (q r); [by rewrite Hid | done].
  - eexists. split; [apply elem_of_update_where; by exists e'|]. destruct (q e') eqn:Hq; [by apply Hse | done].
Qed.

Lemma still_createOrUpdate e sub org dim q start ids :
  preserves (still e) (createOrUpdateUsageEvent sub org dim q start ids).
Proof.
  unfold createOrUpdateUsageEvent. apply preserves_bind; [apply still_outside, outside_now|]. intros c.
  intros w Hw. unfold read. run. destruct (existsb _ _).
  - by apply (still_update e (usage_key sub dim start)).
  - destruct Hw as [[Hnd Hids] (e' & Hin & Hsame)]. split; [split|]; simpl.
    + rewrite fmap_app. apply NoDup_app. split; [done|]. split; [|apply NoDup_singleton].
      intros x (r & -> & Hr)%list_elem_of_fmap Hx. simpl in Hx. apply list_elem_of_singleton in Hx.
      apply Hids in Hr as (n & Hn & Hr). rewrite Hr in Hx. apply uuid_inj in Hx. lia.
    + intros x [Hx|Hx]%elem_of_app.
      * apply Hids in Hx as (n & ? & ?). exists n. split; [lia | done].
      * apply list_elem_of_singleton in Hx as ->. exists (drawn w). split; [lia | done].
    + exists e'. split; [apply elem_of_app; by left | done].
Qed.

Lemma still_aggregate e : preserves (still e) aggregateUsage.
Proof.
  unfold aggregateUsage, listActiveSubscriptions. apply preserves_bind.
  { apply still_outside. solve_outside. }
  intros l. apply preserves_for_each. intros s _. unfold aggregateSubscriptionUsage.
  destruct (orgId s) as [org|]; [|auto with platform]. destruct (String.eqb org ""); [auto with platform|].
  repeat (apply preserves_bind;
    [apply still_outside; unfold getPlan, billing_start, billing_end, getBillableEventsForSubscription; solve_outside|intros ?]).
  apply preserves_for_each. intros h _. apply still_createOrUpdate.
Qed.

Lemma still_updateStatus e id st r : id <> use_id e -> preserves (still e) (updateUsageEventStatus id st r).
Proof.
  intros Hne. unfold updateUsageEventStatus. do 2 (apply preserves_bind; [apply still_outside, outside_now|intros ?]).
  intros w Hw. unfold read. run. destruct (existsb _ _); [|done].
  apply (still_update e (fun x => String.eqb (use_id x) id)); [done | | done].
  intros x Hx (Hid & _). apply String.eqb_eq in Hx. congruence.
Qed.

Lemma filter_now_elem {A} (test : Z -> A -> bool) (l : list A) w r w' :
  filter_now test l w = (Ok r, w') -> forall x, x ∈ r -> x ∈ l.
Proof.
  revert w r w'. induction l as [|x l IH]; intros w r w' H y Hy; simpl in H.
  { run. simplify_eq. done. }
  rewrite run_bind in H. simpl in H. apply bind_ok_inv in H as (r0 & w0 & H0 & H). rewrite run_ret in H.
  simplify_eq. destruct (test _ x); [apply elem_of_cons in Hy as [->|Hy]; [by left|] |]; right; by eapply IH.
Qed.

Lemma outside_filter_now {A} (test : Z -> A -> bool) (l : list A) : outside (filter_now test l).
Proof. induction l; simpl; solve_outside. Qed.

Lemma chunks_elem {A} fuel n (l : list A) c x : c ∈ chunks fuel n l -> x ∈ c -> x ∈ l.
Proof.
  revert l. induction fuel as [|fuel IH]; intros l Hc Hx; simpl in Hc; [by apply elem_of_nil in Hc|].
  destruct l as [|y l]; [by apply elem_of_nil in Hc|]. apply elem_of_cons in Hc as [->|Hc].
  - rewrite <- (take_drop n). apply elem_of_app. by left.
  - rewrite <- (take_drop n (y :: l)). apply elem_of_app. right. by apply IH.
Qed.

Lemma listPending_elem w l w' p : listPendingUsageEvents w = (Ok l, w') -> p ∈ l ->
  p.1 ∈ usage_events (db w) /\ awaiting p.1 = true.
Proof.
  unfold listPendingUsageEvents, read. run. intros H Hp. injection H as <- _.
  apply list_elem_of_omap in Hp as (e & He & Hs).
  assert (Ht : e ∈ sort_asc usageStartTime (List.filter awaiting (usage_events (db w)))).
  { rewrite <- (take_drop 25). apply elem_of_app. by left. }
  unfold sort_asc in Ht. rewrite elem_of_sort_by in Ht. apply list_elem_of_In, filter_In in Ht as [Ht Ha].
  apply list_elem_of_In in Ht. destruct (first _ _); simplify_eq/=. done.
Qed.

(** The batch loop writes only rows whose identifiers are listed. *)
Lemma still_submit_batch e batch :
  (forall p, p ∈ batch -> use_id p.1 <> use_id e) -> preserves (still e) (submit_batch batch).
Proof.
  intros Hb. unfold submit_batch. apply preserves_bind; [apply still_outside; solve_outside|]. intros response.
  apply preserves_for_each. intros [i p] Hp%elem_of_zip_r. unfold settle.
  apply preserves_bind; [auto with platform|]. intros st. by apply still_updateStatus, Hb.
Qed.

Lemma still_submit e : awaiting e = false -> preserves (still e) submitPendingUsage.
Proof.
  intros Ha. intros w Hw. unfold submitPendingUsage. rewrite run_bind.
  destruct (listPendingUsageEvents w) as [[l|x] w1] eqn:Hl.
  2:{ assert (Ho : outside listPendingUsageEvents) by (unfold listPendingUsageEvents; solve_outside).
      apply (still_outside e) in Ho. specialize (Ho w Hw). by rewrite Hl in Ho. }
  assert (Hw1 : still e w1).
  { assert (Ho : outside listPendingUsageEvents) by (unfold listPendingUsageEvents; solve_outside).
    apply (still_outside e) in Ho. specialize (Ho w Hw). by rewrite Hl in Ho. }
  assert (Hids : forall p, p ∈ l -> use_id p.1 <> use_id e).
  { intros p Hp Heq. destruct (listPending_elem _ _ _ _ Hl Hp) as [Hin Hp1].
    destruct Hw as [[Hnd _] (e' & He' & Hsame)]. destruct Hsame as (Hid & _ & _ & _ & Hst).
    assert (p.1 = e') as Heq'.
    { apply list_elem_of_lookup in Hin as [i Hi], He' as [j Hj].
      assert (i = j) as <-.
      { apply (NoDup_lookup _ i j (use_id e) Hnd); rewrite list_lookup_fmap; [rewrite Hi | rewrite Hj]; simpl; congruence. }
      congruence. }
    unfold awaiting in *. rewrite Heq', Hst in Hp1. congruence. }
  clear Hl Hw. revert w1 Hw1. destruct l as [|p0 l0]; [done|]. set (l := p0 :: l0) in *.
  change (preserves (still e) (
    eligible ← filter_now (fun t p => t - usageStartTime p.1 <=? submission_window) l;
    expired ← filter_now (fun t p => submission_window <? t - usageStartTime p.1) l;
    _ ← for_each expired (fun p => updateUsageEventStatus (use_id p.1) UsageStatus.expired
            (Submission None (Some expired_message) None None));
    for_each (chunks (length eligible) MAX_BATCH_SIZE eligible) submit_batch)).
  apply (preserves_bind_post _ (fun r => forall p, p ∈ r -> p ∈ l));
    [apply still_outside, outside_filter_now | intros ? ? ? _; apply filter_now_elem|]. intros eligible Hel.
  apply (preserves_bind_post _ (fun r => forall p, p ∈ r -> p ∈ l));
    [apply still_outside, outside_filter_now | intros ? ? ? _; apply filter_now_elem|]. intros expired Hex.
  apply preserves_bind.
  - apply preserves_for_each. intros p Hp. apply still_updateStatus. auto.
  - intros _. apply preserves_for_each. intros c Hc. apply still_submit_batch. intros p Hp.
    apply Hids, Hel. by eapply chunks_elem.
Qed.

(** A usage row that Microsoft accepted (or that is a duplicate, or expired) keeps its
    status whatever the metering job does afterwards, so overage that is added to its hour
    later changes its quantity and is never submitted. *)
Theorem settled_never_resubmitted e w :
  usage_ids_ok w -> e ∈ usage_events (db w) -> awaiting e = false ->
  exists e', e' ∈ usage_events (db (aggregateAndSubmitUsage w).2) /\ same_event e e' /\ awaiting e' = false.
Proof.
  intros Hids He Ha.
  assert (Hs : still e w) by (split; [done | by exists e]).
  assert (Hp : preserves (still e) aggregateAndSubmitUsage).
  { unfold aggregateAndSubmitUsage. destruct (negb _); [auto with platform|].
    apply preserves_bind; [apply still_aggregate|]. intros _. by apply still_submit. }
  destruct (Hp w Hs) as [_ (e' & He' & Hsame)]. exists e'. split; [done|]. split; [done|].
  destruct Hsame as (_ & _ & _ & _ & Hst). unfold awaiting in *. by rewrite Hst.
Qed.
End settled.

(** ** Evaluation at a sample deployment *)

Module MeteringSample.
#[local] Instance env1 : Environment := Sample.environment Sample.vars.
#[local] Instance parties1 : Parties := Sample.parties.

Definition plan1 : marketplace_plan := Plan "offer" "plan" 0 2 0 None None Json.JNull.

Definition before : world := Sample.with_db
  (Tables [Sample.subscription Subscribed activated (Some "user1") (Some "org1")] [] [plan1] []
     [Sample.verification "v1" 3] [] []) 0.

(** The job, then two more verifications in the same hour, then the job again. *)
Definition after_first : world := (aggregateAndSubmitUsage before).2.
Definition more_usage : world :=
  set_db (set_billing_events (billing_events (db after_first) ++ [Sample.verification "v2" 2]) (db after_first)) after_first.
Definition after_second : world := (aggregateAndSubmitUsage more_usage).2.

Definition lines (w : world) : list Json.value :=
  omap (fun c => match c with HttpCall r => req_body r | _ => None end) (calls w).

Example overage_conserved_witness :
  billed_in "verification_txn" (overage_of (includedUsage (Some plan1)) [Sample.verification "v1" 3; Sample.verification "v2" 2]) = 3.
Proof.
  rewrite (overage_conserved (Some plan1)).
  - reflexivity.
  - repeat constructor; discriminate.
  - intros d. unfold includedUsage, plan1. simpl. repeat case_match; lia.
Defined.

(** The two later verifications raise the row's quantity to 3, but the only line ever
    sent to Microsoft bills 1. *)
Example settled_never_resubmitted_witness :
  lines after_second = [Json.JObj [("request", Json.JArr [Json.JObj [("resourceId", Json.JStr "ms1");
    ("quantity", Json.JNum 1); ("dimension", Json.JStr "verification_txn");
    ("effectiveStartTime", Json.JStr "2024-05-06T12:00:00.000Z")]])]] /\
  use_quantity <$> usage_events (db after_second) = [3] /\
  exists e, e ∈ usage_events (db after_second) /\ use_id e = "id0" /\ awaiting e = false.
Proof.
  split; [vm_compute; reflexivity|]. split; [vm_compute; reflexivity|].
  destruct (settled_never_resubmitted (default (Sample.usage "" UsageStatus.pending 0)
    (head (usage_events (db more_usage)))) more_usage) as (e & He & Hsame & Ha).
  - split.
    + apply (bool_decide_unpack _). vm_compute. exact I.
    + intros e He. exists 0%nat. vm_compute in He |- *. apply list_elem_of_singleton in He as ->. split; [lia | done].
  - vm_compute. left.
  - vm_compute. reflexivity.
  - exists e. split; [exact He|]. split; [|exact Ha]. destruct Hsame as (Hid & _). rewrite Hid. vm_compute. reflexivity.
Defined.
End MeteringSample.
