(* ===== verification/MarketplaceWebhook.v ===== *)
(** * Marketplace: webhooks and reconciliation

    [services/webhook.service.ts] and [services/reconciliation.service.ts]. *)

From S2P Require Import Prelude Js Table MarketplaceData MarketplaceRepository MarketplaceClient.

Open Scope Z_scope.

Section webhook.
Context {E : Environment} {U : UuidSource} {P : Parties} {C : Crypto}.

Definition unauthorized (message : string) : exn := http_exn UnauthorizedException message.

(** [authorization.replace('Bearer ', '')] after [startsWith('Bearer ')] *)
Fixpoint drop_chars (n : nat) (s : string) : string :=
  match n, s with S n', String _ s' => drop_chars n' s' | _, _ => s end.

Definition validateAuthorization (authorization : option string) : eff world unit :=
  if negb (flag "MARKETPLACE_WEBHOOK_VALIDATE_JWT") then mret tt else
  match authorization with
  | Some a =>
      if negb (Str.startsWith "Bearer " a) then throw (unauthorized "Marketplace webhook authorization is missing")
      else
        let token := drop_chars 7 a in
        match jwt_kid token with
        | None => throw (unauthorized "Marketplace webhook token is invalid")
        | Some kid =>
            if String.eqb kid "" then throw (unauthorized "Marketplace webhook token is invalid") else
            let tenant := env "MARKETPLACE_TENANT_ID" in
            let audience := env "MARKETPLACE_WEBHOOK_EXPECTED_AUDIENCE" in
            let expectedAppId := env "MARKETPLACE_WEBHOOK_EXPECTED_APP_ID" in
            if negb (truthy_str tenant) || negb (truthy_str audience)
            then throw (unauthorized "Marketplace webhook validation config is missing")
            else
              verified ← lift (jwt_verify token (default "" tenant) kid (default "" audience));
              if truthy_str expectedAppId && negb (bool_decide (verified.1 = expectedAppId))
                 && negb (bool_decide (verified.2 = expectedAppId))
              then throw (unauthorized "Marketplace webhook app id mismatch")
              else mret tt
        end
  | None => throw (unauthorized "Marketplace webhook authorization is missing")
  end.

Definition needs_ack (a : action) : bool :=
  match a with ChangePlan | ChangeQuantity | Reinstate => true | _ => false end.

(** The identifier of the operation, when it is not empty. *)
Definition operation_id (p : MarketplaceWebhookPayload) : option string :=
  if truthy_str (w_id p) then w_id p else None.

Definition patchOperationIfNeeded (p : MarketplaceWebhookPayload) (success : bool) : eff world unit :=
  match operation_id p with
  | None => mret tt
  | Some id =>
      let plan := if decide (w_action p = ChangePlan) then w_planId p else None in
      let q := if decide (w_action p = ChangeQuantity) then w_quantity p else None in
      try_catch (_ ← patchOperation (w_subscriptionId p) id success plan q; mret tt)
        (fun e => if decide (exn_status e = Some 400) then mret tt else throw e)
  end.

Definition acknowledge (p : MarketplaceWebhookPayload) (subscriptionId : string) : eff world unit :=
  match operation_id p with
  | Some id => updateOperationAckStatus id subscriptionId Ack.success None
  | None => mret tt
  end.

Definition sync_subscription (p : MarketplaceWebhookPayload) : eff world unit :=
  latest ← getSubscription (w_subscriptionId p); _ ← updateSubscriptionFromMicrosoft latest; mret tt.

Definition applyWebhookAction (subscriptionId : string) (p : MarketplaceWebhookPayload) : eff world unit :=
  _ ← match operation_id p with
      | Some id => upsertOperation id subscriptionId (w_action p) (w_status p) (w_planId p) (w_quantity p)
                     (Some (w_raw p)) (if needs_ack (w_action p) then Ack.pending else Ack.not_required) None
      | None => mret tt
      end;
  _ ← match operation_id p with
      | Some id => when (needs_ack (w_action p)) (_ ← getOperation (w_subscriptionId p) id; mret tt)
      | None => mret tt
      end;
  match w_action p with
  | ChangePlan =>
      if truthy_str (w_planId p) then
        _ ← sync_subscription p;
        _ ← setSubscriptionPlanId subscriptionId (default "" (w_planId p));
        _ ← patchOperationIfNeeded p true;
        acknowledge p subscriptionId
      else mret tt
  | ChangeQuantity | Reinstate =>
      _ ← sync_subscription p;
      _ ← patchOperationIfNeeded p true;
      acknowledge p subscriptionId
  | Renew => sync_subscription p
  | Suspend => setSubscriptionStatus subscriptionId Suspended
  | Unsubscribe => setSubscriptionStatus subscriptionId Unsubscribed
  | OtherAction _ => mret tt
  end.

Definition processWebhook (p : MarketplaceWebhookPayload) (authorization : option string) : eff world bool :=
  _ ← validateAuthorization authorization;
  if negb (bool_decide (Some (w_offerId p) = env "MARKETPLACE_OFFER_ID"))
  then throw (http_exn BadRequestException "Marketplace offer mismatch")
  else
    subscription ← getSubscriptionByMarketplaceId (w_subscriptionId p);
    webhookEvent ← createWebhookEvent p (sub_id <$> subscription)
      (if truthy_str authorization then [("authorization", "Bearer [redacted]")] else []) (Some "validated");
    match subscription with
    | None =>
        _ ← updateWebhookEvent webhookEvent Processing.failed (Some "Subscription not found");
        throw (http_exn BadRequestException "Marketplace subscription not found")
    | Some s =>
        try_catch
          (_ ← applyWebhookAction (sub_id s) p;
           _ ← updateWebhookEvent webhookEvent Processing.processed None;
           mret true)
          (fun e => _ ← updateWebhookEvent webhookEvent Processing.failed (Some (exn_message e)); throw e)
    end.

(** ** Reconciliation *)

Definition reconcile_one (r : MarketplaceResolvedSubscription) : eff world unit :=
  existing ← match r_id r with
             | Some id => getSubscriptionByMarketplaceId id
             | None => throw prisma_validation
             end;
  match existing with
  | Some before =>
      updated ← updateSubscriptionFromMicrosoft r;
      when (bool_decide (saasSubscriptionStatus (data updated) = Subscribed)
            && bool_decide (activationStatus before = in_progress))
        (setActivationStatus (sub_id updated) activated None)
  | None => _ ← upsertResolvedSubscription r; mret tt
  end.

Definition reconcileSubscriptions : eff world unit :=
  if negb (flag "MARKETPLACE_RECONCILIATION_ENABLED") then mret tt
  else subscriptions ← listSubscriptions; for_each subscriptions reconcile_one.
End webhook.
