(* ===== verification/MarketplaceService.v ===== *)
(** * Marketplace: the service

    [marketplace.service.ts] and [marketplace.controller.ts]: onboarding of a buyer
    (resolve, link the account, link the organization, activate), usage, webhooks. *)

From S2P Require Import Prelude Js Table MarketplaceData MarketplaceRepository MarketplaceClient Entitlement Metering MarketplaceWebhook.

Open Scope Z_scope.

Section service.
Context {E : Environment} {U : UuidSource} {P : Parties} {C : Crypto}.

Definition SETUP_FEE_USD : Z := 30000.

Record LinkAccountMessage := LinkAccount {
  la_sessionId : string;
  la_mode : string;
  la_email : option string;
  la_microsoftTenantId : option string;
  la_microsoftObjectId : option string;
  la_user : string;
  la_user_email : option string;
}.

Record Organization := Org {
  o_name : string;
  o_description : option string;
  o_website : option string;
  o_logo : option string;
}.

Record LinkOrganizationMessage := LinkOrg {
  lo_sessionId : string;
  lo_existing : bool;
  lo_orgId : option string;
  lo_organization : option Organization;
  lo_user : string;
  lo_keycloakUserId : option string;
}.

(** ** Helpers *)

(** [new ForbiddenException({ code, message })] *)
Definition forbidden (code message : string) : exn := Exn ForbiddenException message (Some 403) (Some code).

Definition localMockEnabled : bool := flag "MARKETPLACE_ALLOW_LOCAL_MOCK".

Definition decodeMarketplaceToken (token : string) : result string :=
  match Uri.decode token with
  | Some t => Ok t
  | None => Throw (http_exn BadRequestException "Marketplace token is malformed")
  end.

Definition buyerFromClaims (claims : option MarketplaceBuyerClaims) (r : MarketplaceResolvedSubscription) :
    option string * option string * option string :=
  (opt_str_or (claims ≫= tid) (opt_str_or (r_purchaser r ≫= tenantId) (r_beneficiary r ≫= tenantId)),
   opt_str_or (claims ≫= oid) (opt_str_or (r_purchaser r ≫= objectId) (r_beneficiary r ≫= objectId)),
   opt_str_or (claims ≫= email) (opt_str_or (claims ≫= preferred_username)
     (opt_str_or (r_purchaser r ≫= emailId) (r_beneficiary r ≫= emailId)))).

Record SubscriptionSummary := Summary {
  sm_subscriptionId : string;
  sm_offerId : string;
  sm_planId : string;
  sm_subscriptionName : string;
  sm_saasSubscriptionStatus : MarketplaceSubscriptionStatus;
  sm_localActivationStatus : MarketplaceActivationStatus;
  sm_linkedOrgId : option string;
  sm_purchaserEmail : option string;
  sm_beneficiaryEmail : option string;
  sm_quantity : option Z;
  sm_termStartDate : option Z;
  sm_termEndDate : option Z;
  sm_autoRenew : option bool;
}.

Definition toSubscriptionSummary (s : marketplace_subscription) : SubscriptionSummary :=
  let d := data s in
  Summary (marketplaceSubscriptionId d) (offerId d) (planId d) (str_or (subscriptionName d) "Phenix ID Platform")
    (saasSubscriptionStatus d) (activationStatus s) (orgId s) (emailId (purchaser d)) (emailId (beneficiary d))
    (quantity d) (termStartDate d) (termEndDate d) (autoRenew d).

Definition nextAction (s : marketplace_subscription) : MarketplaceNextAction :=
  if bool_decide (saasSubscriptionStatus (data s) = Subscribed) && truthy_str (orgId s)
     && bool_decide (activationStatus s = activated) then open_dashboard
  else if negb (truthy_str (localUserId s)) then link_account
  else if negb (truthy_str (orgId s)) then create_organization
  else if negb (bool_decide (activationStatus s = activated)) then activate
  else manage_billing.

Definition displayNameForDimension (dim : string) : string :=
  if String.eqb dim "setup_fee" then "One-time setup fee"
  else if String.eqb dim "issuance_txn" then "Credential issuance"
  else if String.eqb dim "verification_txn" then "Credential verification"
  else if String.eqb dim "schema_create" then "Schema creation"
  else dim.

Definition recordSetupFeeUsage (s : marketplace_subscription) (org : string) : eff world unit :=
  recordBillingUsageEvent
    (UsagePayload org "organization_setup_completed" (Some "marketplace_subscription") (sub_id s) None (Some 1)
      (Some (Json.JObj [("dimension", Json.JStr "setup_fee"); ("unitPriceUsd", Json.JNum SETUP_FEE_USD)])))
    (Some (sub_id s)).

Definition resolveWithMicrosoftOrMock (token : string) : eff world MarketplaceResolvedSubscription :=
  if localMockEnabled then
    t1 ← now; t2 ← now;
    let id := "mock-" +:+ String.substring 0 24 (sha256_hex token) in
    let offer := str_or (env "MARKETPLACE_OFFER_ID") "phenix-id-platform" in
    let plan := str_or (env "MARKETPLACE_DEFAULT_PLAN_ID") "business" in
    let buyer := Party (Some "buyer@example.com") None None None in
    let buyer_json := Json.JObj [("emailId", Json.JStr "buyer@example.com")] in
    let start := Date.toISOString t1 in
    let finish := Date.toISOString (t2 + 30 * 24 * 60 * 60 * 1000) in
    mret (Resolved (Some id) (Some "Phenix ID Platform") None (Some offer) (Some plan) (Some PendingFulfillmentStart)
      (Some buyer) (Some buyer) (Some (mkTerm (Some "P1M") (Some start) (Some finish)))
      (Some true) None (Some true) None None None
      [("id", Json.JStr id); ("name", Json.JStr "Phenix ID Platform"); ("offerId", Json.JStr offer);
       ("planId", Json.JStr plan); ("saasSubscriptionStatus", Json.JStr "PendingFulfillmentStart");
       ("purchaser", buyer_json); ("beneficiary", buyer_json);
       ("term", Json.JObj [("termUnit", Json.JStr "P1M"); ("startDate", Json.JStr start); ("endDate", Json.JStr finish)]);
       ("autoRenew", Json.JBool true); ("isTest", Json.JBool true)])
  else MarketplaceClient.resolveSubscription token.

Definition getValidSession (id : string) : eff world (marketplace_onboarding_session * marketplace_subscription) :=
  session ← MarketplaceRepository.getOnboardingSession id;
  match session with
  | None => throw (http_exn NotFoundException "Marketplace onboarding session is missing or expired")
  | Some s =>
      t ← now;
      if expiresAt s.1 <? t
      then throw (http_exn NotFoundException "Marketplace onboarding session is missing or expired")
      else mret s
  end.

Definition assertSessionAccountLinkedTo (s : marketplace_subscription) (user : string) : eff world unit :=
  if negb (truthy_str (localUserId s)) || negb (bool_decide (localUserId s = Some user))
  then throw (forbidden "marketplace_account_link_required"
    "Link your account to this Marketplace subscription before linking an organization.")
  else mret tt.

Definition link_conflict : exn :=
  http_exn ConflictException "Organization is already linked to another active Marketplace subscription".

Definition linkSubscriptionToOrg (id org : string) : eff world unit :=
  try_catch (MarketplaceRepository.linkOrganization id org)
    (fun e => if decide (exn_code e = Some "P2002") then throw link_conflict else throw e).

(** A NATS request. *)
Definition sendNatsMessage {T} (answer : list call -> result T) (cmd : string) (payload : Json.value) : eff world T :=
  _ ← fresh; cs ← placed (NatsCall cmd payload); lift (answer cs).

Definition owns (roles : option (list owner_role)) (user : string) : bool :=
  match roles with Some rs => existsb (fun r => bool_decide (r = Some user)) rs | None => false end.

Definition assertUserOwnsOrganization (user org : string) : eff world unit :=
  roles ← try_catch (sendNatsMessage on_owner "get-organization-owner" (Json.JStr org))
    (fun _ => throw (forbidden "marketplace_org_ownership_unverified"
       "Unable to verify your ownership of the selected organization."));
  if owns roles user then mret tt
  else throw (forbidden "marketplace_org_ownership_required"
    "You can only link a Marketplace subscription to an organization you own.").

(** ** Handlers *)

Definition json_str (s : option string) : Json.value := match s with Some s => Json.JStr s | None => Json.JNull end.

Definition claims_json (c : option MarketplaceBuyerClaims) : Json.value :=
  match c with
  | None => Json.JNull
  | Some c => Json.JObj (Json.opt_field "tid" (Json.JStr <$> tid c) ++ Json.opt_field "oid" (Json.JStr <$> oid c)
      ++ Json.opt_field "email" (Json.JStr <$> email c)
      ++ Json.opt_field "preferred_username" (Json.JStr <$> preferred_username c)
      ++ Json.opt_field "name" (Json.JStr <$> c_name c))
  end.

Definition resolveSubscription (p : ResolveMarketplacePayload) :
    eff world (string * SubscriptionSummary * MarketplaceNextAction) :=
  token ← lift (decodeMarketplaceToken (marketplaceToken p));
  resolved ← resolveWithMicrosoftOrMock token;
  subscription ← upsertResolvedSubscription resolved;
  session ← createOnboardingSession (sub_id subscription) (sha256_hex token)
    (buyerFromClaims (buyerClaims p) resolved) (Json.JObj [("buyerClaims", claims_json (buyerClaims p))]);
  mret (ses_id session, toSubscriptionSummary subscription, nextAction subscription).

Definition getOnboardingSession (id : string) :
    eff world (string * Onboarding.status * Z * MarketplaceNextAction * option string * SubscriptionSummary) :=
  s ← getValidSession id;
  mret (ses_id s.1, ses_status s.1, expiresAt s.1, nextAction s.2, orgId s.2, toSubscriptionSummary s.2).

(** [(s || '').toLowerCase()] *)
Definition lowered (s : option string) : string := Str.toLowerCase (str_or s "").

Definition expectedEmails (s : marketplace_subscription) : list string :=
  List.filter (fun m => negb (String.eqb m "")) [lowered (emailId (purchaser (data s))); lowered (emailId (beneficiary (data s)))].

(** The identity check of [linkAccount]. *)
Definition identity_check (s : marketplace_subscription) (user_email : option string) : result unit :=
  let userEmail := lowered user_email in
  if bool_decide (expectedEmails s = []) || String.eqb userEmail ""
  then Throw (forbidden "marketplace_account_identity_unverified"
    "Unable to verify your account against the Microsoft Marketplace purchaser.")
  else if negb (existsb (String.eqb userEmail) (expectedEmails s))
  then Throw (forbidden "marketplace_account_email_mismatch"
    "Your account email does not match the Microsoft Marketplace purchaser. Sign in with the account that purchased the subscription.")
  else Ok tt.

Definition linkAccount (m : LinkAccountMessage) : eff world (string * MarketplaceNextAction) :=
  s ← getValidSession (la_sessionId m);
  _ ← lift (identity_check s.2 (la_user_email m));
  _ ← linkUser (sub_id s.2) (la_user m);
  _ ← updateOnboardingSession (ses_id s.1) Onboarding.account_linked (Some (Json.JObj
        [("mode", Json.JStr (la_mode m));
         ("email", json_str (if truthy_str (la_email m) then la_email m
                             else if truthy_str (la_user_email m) then la_user_email m else None));
         ("microsoftTenantId", json_str (if truthy_str (la_microsoftTenantId m) then la_microsoftTenantId m else None));
         ("microsoftObjectId", json_str (if truthy_str (la_microsoftObjectId m) then la_microsoftObjectId m else None))]));
  mret (la_user m, create_organization).

Definition create_org_json (o : Organization) (user : string) (keycloak : option string) : Json.value :=
  Json.JObj ([("createOrgDto", Json.JObj ([("name", Json.JStr (o_name o))]
      ++ Json.opt_field "description" (Json.JStr <$> o_description o)
      ++ Json.opt_field "website" (Json.JStr <$> o_website o)
      ++ [("logo", Json.JStr (str_or (o_logo o) ""))]));
    ("userId", Json.JStr user)] ++ Json.opt_field "keycloakUserId" (Json.JStr <$> keycloak)).

Definition linkOrganization (m : LinkOrganizationMessage) : eff world (string * MarketplaceNextAction) :=
  s ← getValidSession (lo_sessionId m);
  _ ← assertSessionAccountLinkedTo s.2 (lo_user m);
  if lo_existing m then
    if negb (truthy_str (lo_orgId m))
    then throw (http_exn BadRequestException "orgId is required when linking an existing organization")
    else
      let org := default "" (lo_orgId m) in
      _ ← assertUserOwnsOrganization (lo_user m) org;
      active ← getActiveSubscriptionByOrgId org (Some (sub_id s.2));
      match active with
      | Some _ => throw link_conflict
      | None =>
          _ ← linkSubscriptionToOrg (sub_id s.2) org;
          _ ← updateOnboardingSession (ses_id s.1) Onboarding.org_linked None;
          mret (org, activate)
      end
  else
    match lo_organization m with
    | Some o =>
        if String.eqb (o_name o) "" then throw (http_exn BadRequestException "Organization name is required") else
        org ← sendNatsMessage on_create_org "create-organization" (create_org_json o (lo_user m) (lo_keycloakUserId m));
        _ ← linkSubscriptionToOrg (sub_id s.2) org;
        _ ← updateOnboardingSession (ses_id s.1) Onboarding.org_linked None;
        mret (org, activate)
    | None => throw (http_exn BadRequestException "Organization name is required")
    end.

Record ActivationResult := Activation {
  ar_subscriptionId : string;
  ar_orgId : string;
  ar_saasSubscriptionStatus : MarketplaceSubscriptionStatus;
}.

(** [setActivationStatus(activated)], [updateOnboardingSession(activated)] and the setup
    fee, the three steps every branch of [activateSubscription] makes. *)
Definition mark_activated (s : marketplace_onboarding_session * marketplace_subscription) (org : string) : eff world unit :=
  _ ← setActivationStatus (sub_id s.2) activated None;
  _ ← updateOnboardingSession (ses_id s.1) Onboarding.activated None;
  recordSetupFeeUsage s.2 org.

Definition refreshed_status (s : marketplace_subscription) : eff world MarketplaceSubscriptionStatus :=
  try_catch
    (latest ← MarketplaceClient.getSubscription (marketplaceSubscriptionId (data s));
     updated ← updateSubscriptionFromMicrosoft latest;
     mret (saasSubscriptionStatus (data updated)))
    (fun _ => mret (saasSubscriptionStatus (data s))).

Definition activateSubscription (sessionId org user : string) : eff world ActivationResult :=
  s ← getValidSession sessionId;
  _ ← assertSessionAccountLinkedTo s.2 user;
  if negb (bool_decide (orgId s.2 = Some org))
  then throw (http_exn BadRequestException "Marketplace subscription is not linked to the requested organization")
  else
    let id := marketplaceSubscriptionId (data s.2) in
    if bool_decide (saasSubscriptionStatus (data s.2) = Subscribed)
    then _ ← mark_activated s org; mret (Activation id org Subscribed)
    else
      _ ← setActivationStatus (sub_id s.2) in_progress None;
      try_catch
        (if localMockEnabled then
           _ ← setSubscriptionStatus (sub_id s.2) Subscribed;
           _ ← mark_activated s org;
           mret (Activation id org Subscribed)
         else
           _ ← MarketplaceClient.activateSubscription id (planId (data s.2));
           _ ← mark_activated s org;
           status ← refreshed_status s.2;
           mret (Activation id org status))
        (fun e =>
           _ ← setActivationStatus (sub_id s.2) failed (Some (exn_message e));
           _ ← updateOnboardingSession (ses_id s.1) Onboarding.failed None;
           throw e).

Definition getSubscription (id : string) : eff world SubscriptionSummary :=
  s ← getSubscriptionByMarketplaceId id;
  match s with
  | Some s => mret (toSubscriptionSummary s)
  | None => throw (http_exn NotFoundException "Marketplace subscription not found")
  end.

Definition refreshSubscription (id : string) : eff world SubscriptionSummary :=
  latest ← MarketplaceClient.getSubscription id;
  updated ← updateSubscriptionFromMicrosoft latest;
  mret (toSubscriptionSummary updated).

Record DimensionSummary := DimSummary {
  ds_dimension : string;
  ds_displayName : string;
  ds_figures : usage_figures;
  pendingSubmission : Z;
  acceptedByMicrosoft : Z;
}.

(** The loop over the metering totals. *)
Definition split_totals (totals : list (string * UsageStatus.status * Z)) : list (string * Z) * list (string * Z) :=
  fold_left (fun acc t =>
    let '(dim, st, q) := t in
    let '(p, a) := acc in
    match st with
    | UsageStatus.pending | UsageStatus.failed => (set_number dim (number dim p + q) p, a)
    | UsageStatus.accepted | UsageStatus.duplicate => (p, set_number dim (number dim a + q) a)
    | UsageStatus.submitted | UsageStatus.expired => (p, a)
    end) totals ([], []).

Definition getUsageSummary (org : string) : eff world (string * string * list DimensionSummary) :=
  entitlements ← getEntitlements org;
  totals ← getMeteringTotalsByDimension org;
  let '(pendingByDimension, acceptedByDimension) := split_totals totals in
  let dimensions := map (fun u => DimSummary u.1 (displayNameForDimension u.1) u.2
    (number u.1 pendingByDimension) (number u.1 acceptedByDimension)) (e_usage entitlements) in
  t1 ← now; t2 ← now; t3 ← now;
  mret (Date.toISOString (Date.days_of_civil (Date.getUTCFullYear t1) (Date.month t2) 1 * Date.ms_per_day),
        Date.toISOString t3, dimensions).

Definition recordUsageEvent (p : MarketplaceUsageEventPayload) : eff world bool :=
  subscription ← getSubscriptionByOrgId (u_orgId p);
  _ ← recordBillingUsageEvent p (sub_id <$> subscription);
  mret true.

Definition submitMetering : eff world bool := _ ← aggregateAndSubmitUsage; mret true.

(** ** The controller *)

Inductive command :=
  | MARKETPLACE_RESOLVE_SUBSCRIPTION (p : ResolveMarketplacePayload)
  | MARKETPLACE_GET_ONBOARDING_SESSION (sessionId : string)
  | MARKETPLACE_LINK_ACCOUNT (m : LinkAccountMessage)
  | MARKETPLACE_LINK_ORGANIZATION (m : LinkOrganizationMessage)
  | MARKETPLACE_ACTIVATE_SUBSCRIPTION (sessionId orgId userId : string)
  | MARKETPLACE_GET_SUBSCRIPTION (subscriptionId : string)
  | MARKETPLACE_REFRESH_SUBSCRIPTION (subscriptionId : string)
  | MARKETPLACE_PROCESS_WEBHOOK (p : MarketplaceWebhookPayload) (authorization : option string)
  | MARKETPLACE_GET_ENTITLEMENTS (orgId : string)
  | MARKETPLACE_GET_USAGE_SUMMARY (orgId : string)
  | MARKETPLACE_GET_METERING_EVENTS (orgId : string)
  | MARKETPLACE_RECORD_USAGE_EVENT (p : MarketplaceUsageEventPayload)
  | MARKETPLACE_SUBMIT_METERING
  (** the two scheduled jobs *)
  | EVERY_10_MINUTES
  | EVERY_HOUR.

(** The effect of a message; its reply is dropped. *)
Definition handle (c : command) : eff world unit :=
  match c with
  | MARKETPLACE_RESOLVE_SUBSCRIPTION p => _ ← resolveSubscription p; mret tt
  | MARKETPLACE_GET_ONBOARDING_SESSION id => _ ← getOnboardingSession id; mret tt
  | MARKETPLACE_LINK_ACCOUNT m => _ ← linkAccount m; mret tt
  | MARKETPLACE_LINK_ORGANIZATION m => _ ← linkOrganization m; mret tt
  | MARKETPLACE_ACTIVATE_SUBSCRIPTION s o u => _ ← activateSubscription s o u; mret tt
  | MARKETPLACE_GET_SUBSCRIPTION id => _ ← getSubscription id; mret tt
  | MARKETPLACE_REFRESH_SUBSCRIPTION id => _ ← refreshSubscription id; mret tt
  | MARKETPLACE_PROCESS_WEBHOOK p a => _ ← processWebhook p a; mret tt
  | MARKETPLACE_GET_ENTITLEMENTS o => _ ← getEntitlements o; mret tt
  | MARKETPLACE_GET_USAGE_SUMMARY o => _ ← getUsageSummary o; mret tt
  | MARKETPLACE_GET_METERING_EVENTS o => _ ← listMeteringEvents o; mret tt
  | MARKETPLACE_RECORD_USAGE_EVENT p => _ ← recordUsageEvent p; mret tt
  | MARKETPLACE_SUBMIT_METERING => _ ← submitMetering; mret tt
  | EVERY_10_MINUTES => aggregateAndSubmitUsage
  | EVERY_HOUR => reconcileSubscriptions
  end.

(** A sequence of messages; a message that fails does not stop the next one. *)
Fixpoint serve (cs : list command) (w : world) : world :=
  match cs with
  | [] => w
  | c :: cs' => serve cs' (handle c w).2
  end.
End service.
