(* ===== verification/MarketplaceInvariant.v ===== *)
(** * Marketplace: what every message keeps

    The statements of the repository, described by what they write, and the
    constraints that hold after any sequence of messages and scheduled jobs. *)

From S2P Require Import Prelude Js Table MarketplaceData MarketplaceRepository MarketplaceClient Entitlement Metering MarketplaceWebhook MarketplaceService.

Open Scope Z_scope.

(** ** Constraints *)

Definition billing_key (e : billing_usage_event) : string * string := (eventType e, sourceId e).
Definition hour_of (e : marketplace_usage_event) : string * string * Z :=
  (use_subscription e, dimension e, usageStartTime e).
Definition operation_key (o : marketplace_operation) : string * string := (op_operationId o, op_subscription o).

Record constraints (w : world) : Prop := Constraints {
  subscriptions_distinct : subscriptions_ok (subscriptions (db w));
  billing_once : NoDup (billing_key <$> billing_events (db w));
  hour_once : NoDup (hour_of <$> usage_events (db w));
  operation_once : NoDup (operation_key <$> operations (db w));
}.

Lemma constraints_of_tables : of_tables constraints.
Proof. intros w w' Hdb _ []. split; by rewrite Hdb. Qed.

(** A row is added under a key no row has. *)
Lemma NoDup_snoc_key {R K} (key : R -> K) (p : R -> bool) t r :
  (forall x, x ∈ t -> key x = key r -> p x = true) -> existsb p t = false ->
  NoDup (key <$> t) -> NoDup (key <$> t ++ [r]).
Proof.
  intros Hp Hnone Hnd. rewrite fmap_app. apply NoDup_app. split; [done|]. split; [|apply NoDup_singleton].
  intros k (x & -> & Hx)%list_elem_of_fmap Hk%list_elem_of_singleton.
  pose proof (Hp x Hx Hk) as Htrue. assert (existsb p t = true); [|congruence].
  apply existsb_exists. exists x. split; [by apply list_elem_of_In | done].
Qed.

Section preservation.
Context {E : Environment} {U : UuidSource} {P : Parties} {C : Crypto}.

Lemma constraints_outside {A} (m : eff world A) : outside m -> preserves constraints m.
Proof. apply outside_preserves, constraints_of_tables. Qed.
#[local] Hint Resolve constraints_outside : platform.

(** A write to a table the constraints do not mention. *)
Ltac unconstrained :=
  unfold write; apply preserves_modify; intros w []; split; done.

Lemma keeps_commit t : preserves constraints (commit_subscriptions t).
Proof.
  unfold commit_subscriptions. case_decide; [|auto with platform].
  apply preserves_modify. intros w []. by split.
Qed.
#[local] Hint Resolve keeps_commit : platform.

Lemma keeps_update_subscription p f : preserves constraints (update_subscription p f).
Proof. unfold update_subscription. solve_preserves. Qed.
#[local] Hint Resolve keeps_update_subscription : platform.

Lemma keeps_toSubscriptionData r : preserves constraints (toSubscriptionData r).
Proof. apply constraints_outside. unfold toSubscriptionData. solve_outside. Qed.
#[local] Hint Resolve keeps_toSubscriptionData : platform.

Lemma keeps_upsertResolved r : preserves constraints (upsertResolvedSubscription r).
Proof. unfold upsertResolvedSubscription. solve_preserves. Qed.
Lemma keeps_updateFromMicrosoft r : preserves constraints (updateSubscriptionFromMicrosoft r).
Proof. unfold updateSubscriptionFromMicrosoft. solve_preserves. Qed.
Lemma keeps_linkUser i u : preserves constraints (linkUser i u).
Proof. unfold linkUser. solve_preserves. Qed.
Lemma keeps_linkOrganization i o : preserves constraints (MarketplaceRepository.linkOrganization i o).
Proof. unfold MarketplaceRepository.linkOrganization. solve_preserves. Qed.
Lemma keeps_setActivation i a e : preserves constraints (setActivationStatus i a e).
Proof. unfold setActivationStatus. solve_preserves. Qed.
Lemma keeps_setPlan i p : preserves constraints (setSubscriptionPlanId i p).
Proof. unfold setSubscriptionPlanId. solve_preserves. Qed.
Lemma keeps_setStatus i s : preserves constraints (setSubscriptionStatus i s).
Proof. unfold setSubscriptionStatus. solve_preserves. Qed.

Lemma keeps_createSession i h b m : preserves constraints (createOnboardingSession i h b m).
Proof.
  unfold createOnboardingSession.
  repeat first [solve [auto with platform] | unconstrained | apply preserves_bind; [|intros ?] | case_match].
Qed.
Lemma keeps_updateSession i s m : preserves constraints (updateOnboardingSession i s m).
Proof.
  unfold updateOnboardingSession.
  repeat first [solve [auto with platform] | unconstrained | apply preserves_bind; [|intros ?] | case_match].
Qed.
Lemma keeps_createWebhookEvent p s h v : preserves constraints (createWebhookEvent p s h v).
Proof.
  unfold createWebhookEvent.
  repeat first [solve [auto with platform] | unconstrained | apply preserves_bind; [|intros ?] | case_match].
Qed.
Lemma keeps_updateWebhookEvent i s e : preserves constraints (updateWebhookEvent i s e).
Proof.
  unfold updateWebhookEvent.
  repeat first [solve [auto with platform] | unconstrained | apply preserves_bind; [|intros ?] | case_match].
Qed.

Lemma keeps_recordBilling p s : preserves constraints (recordBillingUsageEvent p s).
Proof.
  unfold recordBillingUsageEvent. apply preserves_bind; [solve_preserves|]. intros [at_|]; [|auto with platform].
  intros w Hw. unfold read. run. destruct (existsb _ _) eqn:Hx; [done|]. simpl. destruct Hw. split; try done. simpl.
  eapply NoDup_snoc_key; [|exact Hx|done]. intros x _ [= H1 H2]. simpl in *. by rewrite H1, H2, !String.eqb_refl.
Qed.

Lemma keeps_createOrUpdate s o d q t ids : preserves constraints (createOrUpdateUsageEvent s o d q t ids).
Proof.
  unfold createOrUpdateUsageEvent. apply preserves_bind; [auto with platform|]. intros c.
  intros w Hw. unfold read. run. destruct (existsb _ _) eqn:Hx; destruct Hw; split; try done; simpl.
  - by rewrite fmap_update_where.
  - eapply NoDup_snoc_key; [|exact Hx|done]. intros x _ [= H1 H2 H3]. unfold usage_key. simpl in *.
    by rewrite H1, H2, H3, !String.eqb_refl, Z.eqb_refl.
Qed.

Lemma keeps_updateStatus i s r : preserves constraints (updateUsageEventStatus i s r).
Proof.
  unfold updateUsageEventStatus. do 2 (apply preserves_bind; [auto with platform|]; intros ?).
  intros w Hw. unfold read. run. destruct (existsb _ _); destruct Hw; split; try done; simpl.
  by rewrite fmap_update_where.
Qed.

Lemma keeps_upsertOperation i s a st p q r k e : preserves constraints (upsertOperation i s a st p q r k e).
Proof.
  unfold upsertOperation. apply preserves_bind; [auto with platform|]. intros c.
  intros w Hw. unfold read. run. destruct (existsb _ _) eqn:Hx; destruct Hw; split; try done; simpl.
  - by rewrite fmap_update_where.
  - eapply NoDup_snoc_key; [|exact Hx|done]. intros x _ [= H1 H2]. unfold op_key. simpl in *.
    by rewrite H1, H2, !String.eqb_refl.
Qed.

Lemma keeps_updateAck i s k e : preserves constraints (updateOperationAckStatus i s k e).
Proof.
  unfold updateOperationAckStatus. apply preserves_bind; [auto with platform|]. intros c.
  intros w Hw. unfold read. run. destruct (existsb _ _); destruct Hw; split; try done; simpl.
  by rewrite fmap_update_where.
Qed.

#[local] Hint Resolve keeps_upsertResolved keeps_updateFromMicrosoft keeps_linkUser keeps_linkOrganization
  keeps_setActivation keeps_setPlan keeps_setStatus keeps_createSession keeps_updateSession
  keeps_createWebhookEvent keeps_updateWebhookEvent keeps_recordBilling keeps_createOrUpdate keeps_updateStatus
  keeps_upsertOperation keeps_updateAck : platform.

(** ** Reads *)

Lemma outside_getEntitlements o : outside (getEntitlements o).
Proof.
  unfold getEntitlements, getUsage, billing_start, billing_end, getUsageTotals, getSubscriptionByOrgId, getPlan.
  solve_outside.
Qed.

Lemma outside_getValidSession i : outside (getValidSession i).
Proof. unfold getValidSession, MarketplaceRepository.getOnboardingSession. solve_outside. Qed.

Lemma outside_assertLinked s u : outside (assertSessionAccountLinkedTo s u).
Proof. unfold assertSessionAccountLinkedTo. solve_outside. Qed.

Lemma outside_sendNats {T} (a : list call -> result T) c p : outside (sendNatsMessage a c p).
Proof. unfold sendNatsMessage. solve_outside. Qed.

Lemma outside_try {A} (m : eff world A) h : outside m -> (forall e, outside (h e)) -> outside (try_catch m h).
Proof.
  intros Hm Hh w. unfold try_catch. destruct (Hm w) as [H1 H2]. destruct (m w) as [[a|e] w']; [done|].
  simpl in *. destruct (Hh e w') as [H3 H4]. split; [congruence | lia].
Qed.

Lemma outside_assertOwns u o : outside (assertUserOwnsOrganization u o).
Proof.
  unfold assertUserOwnsOrganization. apply outside_bind; [|intros ?; solve_outside].
  apply outside_try; [apply outside_sendNats | intros ?; solve_outside].
Qed.

Lemma outside_validateAuthorization a : outside (validateAuthorization a).
Proof. unfold validateAuthorization. solve_outside. Qed.

Lemma outside_resolveMicrosoft t : outside (resolveWithMicrosoftOrMock t).
Proof. unfold resolveWithMicrosoftOrMock. solve_outside. Qed.

#[local] Hint Resolve outside_getEntitlements outside_getValidSession outside_assertLinked outside_sendNats
  outside_assertOwns outside_validateAuthorization outside_resolveMicrosoft outside_filter_now : platform.

(** ** Handlers *)

Lemma keeps_aggregate : preserves constraints aggregateUsage.
Proof.
  unfold aggregateUsage, aggregateSubscriptionUsage, listActiveSubscriptions, getPlan, billing_start, billing_end,
    getBillableEventsForSubscription. solve_preserves.
Qed.

Lemma keeps_submit : preserves constraints submitPendingUsage.
Proof. unfold submitPendingUsage, listPendingUsageEvents, submit_batch, settle. solve_preserves. Qed.
#[local] Hint Resolve keeps_aggregate keeps_submit : platform.

Lemma keeps_job : preserves constraints aggregateAndSubmitUsage.
Proof. unfold aggregateAndSubmitUsage. solve_preserves. Qed.

Lemma keeps_patch p b : preserves constraints (patchOperationIfNeeded p b).
Proof. unfold patchOperationIfNeeded. solve_preserves. Qed.
Lemma keeps_acknowledge p i : preserves constraints (acknowledge p i).
Proof. unfold acknowledge. solve_preserves. Qed.
Lemma keeps_sync p : preserves constraints (sync_subscription p).
Proof. unfold sync_subscription. solve_preserves. Qed.
#[local] Hint Resolve keeps_job keeps_patch keeps_acknowledge keeps_sync : platform.

Lemma keeps_apply i p : preserves constraints (applyWebhookAction i p).
Proof. unfold applyWebhookAction, when. solve_preserves. Qed.
#[local] Hint Resolve keeps_apply : platform.

Lemma keeps_webhook p a : preserves constraints (processWebhook p a).
Proof. unfold processWebhook, getSubscriptionByMarketplaceId. solve_preserves. Qed.

Lemma keeps_reconcile : preserves constraints reconcileSubscriptions.
Proof. unfold reconcileSubscriptions, reconcile_one, getSubscriptionByMarketplaceId, when. solve_preserves. Qed.

Lemma keeps_mark s o : preserves constraints (mark_activated s o).
Proof. unfold mark_activated, recordSetupFeeUsage. solve_preserves. Qed.
Lemma keeps_refreshed s : preserves constraints (refreshed_status s).
Proof. unfold refreshed_status. solve_preserves. Qed.
Lemma keeps_linkToOrg i o : preserves constraints (linkSubscriptionToOrg i o).
Proof. unfold linkSubscriptionToOrg. solve_preserves. Qed.
#[local] Hint Resolve keeps_webhook keeps_reconcile keeps_mark keeps_refreshed keeps_linkToOrg : platform.

Lemma keeps_handle c : preserves constraints (handle c).
Proof.
  unfold handle, resolveSubscription, getOnboardingSession, linkAccount, linkOrganization, activateSubscription,
    getSubscription, refreshSubscription, getUsageSummary, getMeteringTotalsByDimension, listMeteringEvents,
    recordUsageEvent, submitMetering, getSubscriptionByMarketplaceId, getSubscriptionByOrgId,
    getActiveSubscriptionByOrgId. solve_preserves.
Qed.

(** After any sequence of messages and scheduled jobs, whatever the other parties answer:
    subscription identifiers are unique and an organization has at most one live
    subscription, a source event is billed at most once, each hour of a dimension has one
    usage row and an operation is recorded once. *)
Theorem constraints_served cs w : constraints w -> constraints (serve cs w).
Proof.
  revert w. induction cs as [|c cs IH]; intros w Hw; simpl; [done|]. apply IH. by apply keeps_handle.
Qed.
End preservation.

#[export] Hint Resolve outside_getEntitlements outside_getValidSession outside_assertLinked outside_sendNats
  outside_assertOwns outside_validateAuthorization outside_resolveMicrosoft : platform.
