(* ===== verification/MarketplaceOnboarding.v ===== *)
(** * Marketplace: onboarding

    Who may link an account or an organization and activate a subscription, and what
    the database holds when they have.  A message that fails its guard writes nothing. *)

From S2P Require Import Prelude Js Table MarketplaceData MarketplaceRepository MarketplaceClient Entitlement Metering MarketplaceWebhook MarketplaceService MarketplaceInvariant.

Open Scope Z_scope.

Section onboarding.
Context {E : Environment} {U : UuidSource} {P : Parties} {C : Crypto}.

(** The session and subscription a session identifier stands for, unexpired at [t]. *)
Definition session_at (d : tables) (id : string) (t : Z) (s : marketplace_onboarding_session)
    (sub : marketplace_subscription) : Prop :=
  first (fun x => String.eqb (ses_id x) id) (sessions d) = Some s /\
  first (by_id (ses_subscription s)) (subscriptions d) = Some sub /\ t <= expiresAt s.

Definition find_subscription (d : tables) (id : string) : option marketplace_subscription :=
  first (by_id id) (subscriptions d).

Lemma getValidSession_ok id w s w' : getValidSession id w = (Ok s, w') ->
  session_at (db w) id (reading (ticks w)) s.1 s.2 /\ db w' = db w.
Proof.
  unfold getValidSession, MarketplaceRepository.getOnboardingSession, read. run.
  destruct (first _ (sessions (db w))) as [s0|] eqn:Hs; [|done]. simpl.
  destruct (first _ (subscriptions (db w))) as [sub|] eqn:Hsub; [|done]. simpl.
  destruct (Z.ltb_spec (expiresAt s0) (reading (ticks w))); [done|]. intros H0. injection H0 as <- <-. done.
Qed.

Lemma first_by_id i t s : first (by_id i) t = Some s -> sub_id s = i.
Proof. by intros [_ Hi%String.eqb_eq]%first_Some. Qed.

(** A column update that returns has changed exactly the row with the identifier. *)
Lemma update_by_id_ok i f w s' w' : (forall s, sub_id (f s) = sub_id s) ->
  update_subscription (by_id i) f w = (Ok s', w') ->
  exists s, find_subscription (db w) i = Some s /\ s' = f s /\ find_subscription (db w') i = Some (f s) /\
    db w' = set_subscriptions (update_where (by_id i) f (subscriptions (db w))) (db w) /\
    subscriptions_ok (subscriptions (db w')).
Proof.
  intros Hf. unfold update_subscription, commit_subscriptions, read, write. run. intros H.
  destruct (first (by_id i) (subscriptions (db w))) as [s|] eqn:Hs; [|done].
  destruct (decide _) as [Hok|]; [|done]. simpl in H. injection H as <- <-. exists s.
  split; [done|]. split; [done|]. split; [|done]. unfold find_subscription. simpl.
  rewrite first_update by (intros; unfold by_id; by rewrite Hf). rewrite Hs. simpl.
  apply first_Some in Hs as [_ ->]. done.
Qed.

(** [now] followed by a column update: [linkUser], [linkOrganization] and the others. *)
Lemma column_ok i (f : Z -> marketplace_subscription -> marketplace_subscription) w u w' :
  (forall c s, sub_id (f c s) = sub_id s) ->
  (c ← now; _ ← update_subscription (by_id i) (f c); mret tt) w = (Ok u, w') ->
  exists c s, find_subscription (db w) i = Some s /\ find_subscription (db w') i = Some (f c s) /\
    db w' = set_subscriptions (update_where (by_id i) (f c) (subscriptions (db w))) (db w) /\
    subscriptions_ok (subscriptions (db w')).
Proof.
  intros Hf H. rewrite run_bind in H. simpl in H.
  apply bind_ok_inv in H as (s' & w1 & H & H2). rewrite run_ret in H2. injection H2 as _ <-.
  apply update_by_id_ok in H as (s & Hs & -> & Hs' & Hdb & Hok); [|apply Hf]. eexists _, s. by split_and!.
Qed.

(** An update of a session row leaves the other tables alone. *)
Lemma updateSession_ok i st m w u w' : updateOnboardingSession i st m w = (Ok u, w') ->
  subscriptions (db w') = subscriptions (db w) /\ billing_events (db w') = billing_events (db w) /\
  (forall s, first (fun x => String.eqb (ses_id x) i) (sessions (db w)) = Some s ->
     exists s', first (fun x => String.eqb (ses_id x) i) (sessions (db w')) = Some s' /\ ses_status s' = st).
Proof.
  unfold updateOnboardingSession, read, write. run. intros H. destruct (existsb _ _); [|done].
  injection H as _ <-. simpl. split; [done|]. split; [done|]. intros s Hs.
  rewrite first_update by done. rewrite Hs. simpl. eexists. split; [done|].
  by apply first_Some in Hs as [_ ->].
Qed.

(** ** The identity check *)

Lemma expectedEmails_in s m : m ∈ expectedEmails s <->
  m <> "" /\ (m = lowered (emailId (purchaser (data s))) \/ m = lowered (emailId (beneficiary (data s)))).
Proof.
  unfold expectedEmails. rewrite list_elem_of_In, filter_In. simpl. rewrite negb_true_iff, String.eqb_neq.
  naive_solver.
Qed.

Lemma identity_check_ok s mail : identity_check s mail = Ok tt <-> lowered mail ∈ expectedEmails s.
Proof.
  unfold identity_check. split.
  - intros H. destruct (bool_decide _ || _) eqn:E1; [done|]. destruct (negb _) eqn:E2; [done|].
    apply negb_false_iff, existsb_exists in E2 as (x & Hx & Heq%String.eqb_eq).
    rewrite Heq. by apply list_elem_of_In.
  - intros H. pose proof H as [Hne _]%expectedEmails_in.
    rewrite bool_decide_false by (intros He; rewrite He in H; by apply elem_of_nil in H).
    apply String.eqb_neq in Hne. rewrite Hne. simpl.
    assert (existsb (String.eqb (lowered mail)) (expectedEmails s) = true) as ->; [|done].
    apply existsb_exists. exists (lowered mail). split; [by apply list_elem_of_In | apply String.eqb_refl].
Qed.

(** An account is linked only by a user whose e-mail, up to letter case, is the
    purchaser's or the beneficiary's, through an unexpired session; then the subscription
    carries the user and nothing else of it changes.  Otherwise nothing is written. *)
Theorem linkAccount_identity m w r w' : linkAccount m w = (r, w') -> (is_ok r = true \/ db w' <> db w) ->
  exists s sub, session_at (db w) (la_sessionId m) (reading (ticks w)) s sub /\
    lowered (la_user_email m) ∈ expectedEmails sub /\
    (is_ok r = true -> exists c, find_subscription (db w') (sub_id sub) = Some (set_user (la_user m) c sub)).
Proof.
  intros H Hr. unfold linkAccount in H. rewrite run_bind in H.
  pose proof (outside_getValidSession (la_sessionId m) w) as [Ho _].
  destruct (getValidSession (la_sessionId m) w) as [[[s sub]|e] w1] eqn:Hs; simpl in Ho.
  2:{ injection H as <- <-. destruct Hr; done. }
  apply getValidSession_ok in Hs as [Hses _]. simpl in Hses.
  rewrite run_bind in H. unfold lift at 1 in H. simpl in H.
  destruct (identity_check sub (la_user_email m)) as [[]|e] eqn:Hid.
  2:{ injection H as <- <-. destruct Hr; done. }
  exists s, sub. split; [done|]. split; [by apply identity_check_ok|].
  intros Hok. destruct r as [v|]; [|done].
  apply bind_ok_inv in H as ([] & w2 & Hu & H). apply bind_ok_inv in H as ([] & w3 & Hup & H).
  rewrite run_ret in H. injection H as _ <-.
  apply (column_ok (sub_id sub) (fun c => set_user (la_user m) c)) in Hu; [|done].
  destruct Hu as (c & sub' & Hf & Hf' & _). rewrite Ho in Hf.
  apply updateSession_ok in Hup as [Hsubs _]. exists c. unfold find_subscription in *. rewrite Hsubs, Hf'.
  destruct Hses as (_ & Hsub & _). apply first_by_id in Hsub as Hid'. rewrite <- Hid' in Hsub. congruence.
Qed.

(** ** Linking an organization *)

Lemma assertLinked_ok s u w x w' : assertSessionAccountLinkedTo s u w = (Ok x, w') -> localUserId s = Some u /\ w' = w.
Proof.
  unfold assertSessionAccountLinkedTo. destruct (negb (truthy_str _) || _) eqn:Hb; [done|]. run.
  intros H. injection H as _ <-. apply orb_false_iff in Hb as [_ Hb]. by case_bool_decide.
Qed.

(** The answer of the organization service names the user among the owners. *)
Definition owner_confirmed (user org : string) (cs : list call) : Prop :=
  exists before roles, cs = before ++ [NatsCall "get-organization-owner" (Json.JStr org)] /\
    on_owner cs = Ok (Some roles) /\ Some user ∈ roles.

Lemma assertOwns_ok u o w x w' : assertUserOwnsOrganization u o w = (Ok x, w') ->
  owner_confirmed u o (calls w') /\ db w' = db w.
Proof.
  unfold assertUserOwnsOrganization, sendNatsMessage. run. intros H.
  destruct (on_owner _) as [[roles|]|e] eqn:Ho; simpl in H; [|done|done].
  match type of H with context [existsb ?f roles] => destruct (existsb f roles) eqn:Hr end; [|done]. injection H as _ <-. simpl. split; [|done].
  eexists _, roles. split; [done|]. split; [done|].
  apply existsb_exists in Hr as (y & Hy & Hyu). apply bool_decide_eq_true in Hyu as ->. by apply list_elem_of_In.
Qed.

Lemma linkToOrg_ok i o w u w' : linkSubscriptionToOrg i o w = (Ok u, w') ->
  exists c s, find_subscription (db w) i = Some s /\ find_subscription (db w') i = Some (set_org o c s) /\
    subscriptions_ok (subscriptions (db w')).
Proof.
  unfold linkSubscriptionToOrg, try_catch. intros H.
  destruct (MarketplaceRepository.linkOrganization i o w) as [[x|e] w1] eqn:Hl.
  - injection H as _ <-. apply (column_ok i (fun c => set_org o c)) in Hl; [|done].
    destruct Hl as (c & s & ? & ? & _ & ?). by exists c, s.
  - by destruct (decide _) in H.
Qed.

(** A live row of an organization is the only one. *)
Lemma live_unique t s s' o : subscriptions_ok t -> s ∈ t -> s' ∈ t -> occupies s = Some o -> occupies s' = Some o -> s = s'.
Proof.
  intros (_ & _ & Hnd) Hs Hs' Ho Ho'. induction t as [|x t IH]; [by apply elem_of_nil in Hs|].
  assert (Hin : forall y, y ∈ t -> occupies y = Some o -> o ∈ omap occupies t).
  { intros y Hy Hyo. apply list_elem_of_omap. by exists y. }
  apply elem_of_cons in Hs as [->|Hs], Hs' as [->|Hs']; [done| | |].
  - simpl in Hnd. rewrite Ho in Hnd. apply NoDup_cons in Hnd as [Hn _]. exfalso. apply Hn. by eapply Hin.
  - simpl in Hnd. rewrite Ho' in Hnd. apply NoDup_cons in Hnd as [Hn _]. exfalso. apply Hn. by eapply Hin.
  - apply IH; [|done..]. simpl in Hnd. destruct (occupies x); [by apply NoDup_cons in Hnd as [_ ?] | done].
Qed.

(** The end of both branches of [linkOrganization]. *)
Definition linked_alone (sub : marketplace_subscription) (org : string) (w : world) : Prop :=
  exists sub', find_subscription (db w) (sub_id sub) = Some sub' /\ orgId sub' = Some org /\ data sub' = data sub /\
    forall other, other ∈ subscriptions (db w) -> is_Some (occupies sub') -> occupies other = Some org -> other = sub'.

Lemma link_and_mark_ok s sub org w v w' : find_subscription (db w) (sub_id sub) = Some sub ->
  (_ ← linkSubscriptionToOrg (sub_id sub) org; _ ← updateOnboardingSession (ses_id s) Onboarding.org_linked None;
   mret (org, activate)) w = (Ok v, w') -> v = (org, activate) /\ linked_alone sub org w'.
Proof.
  intros Hfind H. apply bind_ok_inv in H as ([] & w4 & H4 & H).
  apply bind_ok_inv in H as ([] & w5 & H5 & H). rewrite run_ret in H. injection H as <- <-. split; [done|].
  apply linkToOrg_ok in H4 as (c & sub0 & Hf & Hf' & Hok). apply updateSession_ok in H5 as [Hsubs _].
  rewrite Hfind in Hf. injection Hf as <-. unfold linked_alone, find_subscription in *. rewrite Hsubs. eexists.
  split; [done|]. split; [done|]. split; [done|]. intros other Hin [o Hocc] Hother.
  assert (o = org) as -> by (unfold occupies in Hocc; simpl in Hocc; repeat case_match; congruence).
  eapply live_unique; [exact Hok | done | | done | done]. by apply first_Some in Hf' as [? _].
Qed.

Lemma session_find d i t s sub : session_at d i t s sub -> find_subscription d (sub_id sub) = Some sub.
Proof. intros (_ & Hsub & _). apply first_by_id in Hsub as Hid. by rewrite <- Hid in Hsub. Qed.

(** The branch that links an existing organization. *)
Lemma link_existing_ok s sub m w r w' : find_subscription (db w) (sub_id sub) = Some sub ->
  (if negb (truthy_str (lo_orgId m))
   then throw (http_exn BadRequestException "orgId is required when linking an existing organization")
   else
     let org := default "" (lo_orgId m) in
     _ ← assertUserOwnsOrganization (lo_user m) org;
     active ← getActiveSubscriptionByOrgId org (Some (sub_id sub));
     match active with
     | Some _ => throw link_conflict
     | None =>
         _ ← linkSubscriptionToOrg (sub_id sub) org;
         _ ← updateOnboardingSession (ses_id s) Onboarding.org_linked None;
         mret (org, activate)
     end) w = (r, w') ->
  (exists e, r = Throw e /\ db w' = db w) \/
  exists org w1, lo_orgId m = Some org /\ owner_confirmed (lo_user m) org (calls w1) /\ db w1 = db w /\
    (forall other, other ∈ subscriptions (db w) -> live_of_org org (Some (sub_id sub)) other = false) /\
    (_ ← linkSubscriptionToOrg (sub_id sub) org; _ ← updateOnboardingSession (ses_id s) Onboarding.org_linked None;
     mret (org, activate)) w1 = (r, w').
Proof.
  intros Hfind H. destruct (lo_orgId m) as [org|]; simpl in H; [|left; run; injection H as <- <-; eauto].
  destruct (negb (negb (String.eqb org ""))); [left; run; injection H as <- <-; eauto|].
  rewrite run_bind in H. pose proof (outside_assertOwns (lo_user m) org w) as [Hdb _].
  destruct (assertUserOwnsOrganization (lo_user m) org w) as [[[]|e] w1] eqn:Hown; simpl in Hdb;
    [|left; injection H as <- <-; eauto].
  apply assertOwns_ok in Hown as [Hown _]. rewrite run_bind in H. unfold getActiveSubscriptionByOrgId, read in H. simpl in H.
  run. destruct (latest _ _) eqn:Hlat; [left; injection H as <- <-; eauto|]. right. exists org, w1.
  split; [done|]. split; [done|]. split; [done|]. split; [|done].
  apply latest_None in Hlat. rewrite Hdb in Hlat. intros other Hin.
  destruct (live_of_org org (Some (sub_id sub)) other) eqn:Hlive; [|done].
  exfalso. assert (In other []) as []. rewrite <- Hlat. apply filter_In. split; [by apply list_elem_of_In | done].
Qed.

(** C3. An organization is linked, or anything is written, only through an unexpired session
    whose subscription was account-linked to the caller; an existing organization only when
    the organization service names the caller among its owners and no other live
    subscription occupies it.  Afterwards the subscription is linked to the organization and,
    while it is live, is the only live one there. *)
Theorem linkOrganization_guard m w r w' : linkOrganization m w = (r, w') -> (is_ok r = true \/ db w' <> db w) ->
  exists s sub, session_at (db w) (lo_sessionId m) (reading (ticks w)) s sub /\
    localUserId sub = Some (lo_user m) /\
    (lo_existing m = true -> exists org cs, lo_orgId m = Some org /\ owner_confirmed (lo_user m) org cs /\
       forall other, other ∈ subscriptions (db w) -> live_of_org org (Some (sub_id sub)) other = false) /\
    (forall org next, r = Ok (org, next) -> linked_alone sub org w').
Proof.
  intros H Hr. unfold linkOrganization in H. rewrite run_bind in H.
  pose proof (outside_getValidSession (lo_sessionId m) w) as [Ho _].
  destruct (getValidSession (lo_sessionId m) w) as [[[s sub]|e] w1] eqn:Hs; simpl in Ho.
  2:{ injection H as <- <-. destruct Hr; done. }
  apply getValidSession_ok in Hs as [Hses _]. simpl in Hses. rewrite run_bind in H. simpl in H.
  destruct (assertSessionAccountLinkedTo sub (lo_user m) w1) as [[[]|e] w2] eqn:Hl.
  2:{ unfold assertSessionAccountLinkedTo in Hl. destruct (negb _ || _) in Hl; [|done]. injection Hl as <- <-.
      injection H as <- <-. destruct Hr; [done | congruence]. }
  apply assertLinked_ok in Hl as [Hl ->]. exists s, sub. split; [done|]. split; [done|].
  assert (Hfind : find_subscription (db w1) (sub_id sub) = Some sub) by (rewrite Ho; by eapply session_find).
  destruct (lo_existing m).
  - apply link_existing_ok in H as [(e & -> & Hdb)|(org & w3 & Horg & Hown & Hdb & Hfree & H)]; [|..|done].
    { destruct Hr; [done | congruence]. }
    split; [intros _; exists org, (calls w3); by rewrite <- Ho|].
    intros org' next ->. rewrite <- Hdb in Hfind. by apply link_and_mark_ok in H as [[= -> _] ?].
  - split; [done|]. intros org next ->. destruct (lo_organization m) as [o|]; [|done].
    destruct (String.eqb (o_name o) ""); [done|]. apply bind_ok_inv in H as (org0 & w3 & Hnats & H).
    destruct (outside_sendNats on_create_org "create-organization"
      (create_org_json o (lo_user m) (lo_keycloakUserId m)) w1) as [Hdb _].
    rewrite Hnats in Hdb. rewrite <- Hdb in Hfind. by apply link_and_mark_ok in H as [[= -> _] ?].
Qed.

(** ** Activation *)

Definition setup_fee_billed (d : tables) (id : string) : Prop :=
  exists e, e ∈ billing_events d /\ eventType e = "organization_setup_completed" /\ sourceId e = id.

(** The subscription and the session are activated and the setup fee is on record. *)
Definition activated_in (s : marketplace_onboarding_session) (sub : marketplace_subscription) (w : world) : Prop :=
  (exists sub', find_subscription (db w) (sub_id sub) = Some sub' /\ activationStatus sub' = activated) /\
  (exists s', first (fun x => String.eqb (ses_id x) (ses_id s)) (sessions (db w)) = Some s' /\
     ses_status s' = Onboarding.activated) /\
  setup_fee_billed (db w) (sub_id sub).

Lemma recordSetupFee_ok sub org w : exists w', recordSetupFeeUsage sub org w = (Ok tt, w') /\
  subscriptions (db w') = subscriptions (db w) /\ sessions (db w') = sessions (db w) /\
  setup_fee_billed (db w') (sub_id sub).
Proof.
  unfold recordSetupFeeUsage, recordBillingUsageEvent, read, write, now. run.
  match goal with |- context [existsb ?f ?t] => destruct (existsb f t) eqn:Hx end.
  - eexists. split; [done|]. split; [done|]. split; [done|]. apply existsb_exists in Hx as (e & He & Hk).
    apply andb_true_iff in Hk as [Hk1%String.eqb_eq Hk2%String.eqb_eq]. exists e. by rewrite list_elem_of_In.
  - eexists. split; [done|]. split; [done|]. split; [done|].
    eexists. split; [simpl; apply elem_of_app; right; by apply list_elem_of_singleton | done].
Qed.

Lemma mark_activated_ok s sub org w u w' :
  first (fun x => String.eqb (ses_id x) (ses_id s)) (sessions (db w)) = Some s ->
  mark_activated (s, sub) org w = (Ok u, w') -> activated_in s sub w'.
Proof.
  intros Hs H. unfold mark_activated in H. apply bind_ok_inv in H as ([] & w1 & H1 & H).
  apply bind_ok_inv in H as ([] & w2 & H2 & H). simpl in *.
  destruct (recordSetupFee_ok sub org w2) as (w3 & H3 & Hsubs3 & Hses3 & Hfee). rewrite H3 in H. injection H as _ <-.
  apply (column_ok (sub_id sub) (fun c => set_activation activated None c)) in H1 as (c & sub1 & _ & Hf & Hdb & _); [|done].
  apply updateSession_ok in H2 as (Hsubs2 & _ & Hses2). rewrite Hdb in Hses2. destruct (Hses2 s Hs) as (s' & Hs' & Hst).
  unfold activated_in, find_subscription in *. rewrite Hsubs3, Hses3, Hsubs2. split; [by eexists|]. split; [by exists s' | done].
Qed.

(** Refreshing subscriptions from Microsoft does not undo an activation. *)
Lemma activated_refreshed s sub x : preserves (activated_in s sub) (refreshed_status x).
Proof.
  assert (Hout : of_tables (activated_in s sub)) by (intros w w' Hdb _; unfold activated_in; by rewrite Hdb).
  unfold refreshed_status. apply preserves_try; [|intros ?; auto with platform].
  apply preserves_bind; [apply (outside_preserves _ _ Hout); auto with platform|]. intros latest.
  apply preserves_bind; [|intros ?; auto with platform]. unfold updateSubscriptionFromMicrosoft.
  apply preserves_bind; [apply (outside_preserves _ _ Hout); unfold toSubscriptionData; solve_outside|]. intros i.
  do 2 (apply preserves_bind; [apply (outside_preserves _ _ Hout); auto with platform|]; intros ?).
  destruct (i_id i) as [id|]; [|auto with platform]. destruct (valid_date _ && _); [|auto with platform].
  intros w ((sub' & Hf & Ha) & Hrest). unfold update_subscription, commit_subscriptions, read, write. run.
  destruct (first (by_marketplace_id id) _) as [row|]; [|split; [exists sub'; split; [exact Hf | exact Ha] | exact Hrest]].
  destruct (decide _); simpl; [|split; [exists sub'; split; [exact Hf | exact Ha] | exact Hrest]]. split; [|done].
  unfold find_subscription in *. simpl. rewrite first_update by done. rewrite Hf. simpl.
  eexists. split; [done|]. by destruct (by_marketplace_id id sub').
Qed.

(** A subscription is activated, or anything is written, only through an unexpired session
    whose subscription was account-linked to the caller and is linked to the requested
    organization; a successful activation leaves the subscription and the session activated
    and the setup fee recorded. *)
Theorem activate_guard sid org user w r w' : activateSubscription sid org user w = (r, w') ->
  (is_ok r = true \/ db w' <> db w) ->
  exists s sub, session_at (db w) sid (reading (ticks w)) s sub /\ localUserId sub = Some user /\
    orgId sub = Some org /\ (is_ok r = true -> activated_in s sub w').
Proof.
  intros H Hr. unfold activateSubscription in H. rewrite run_bind in H.
  pose proof (outside_getValidSession sid w) as [Ho _].
  destruct (getValidSession sid w) as [[[s sub]|e] w1] eqn:Hs; simpl in Ho.
  2:{ injection H as <- <-. destruct Hr; done. }
  apply getValidSession_ok in Hs as [Hses _]. simpl in Hses. rewrite run_bind in H. simpl in H.
  destruct (assertSessionAccountLinkedTo sub user w1) as [[[]|e] w2] eqn:Hl.
  2:{ unfold assertSessionAccountLinkedTo in Hl. destruct (negb _ || _) in Hl; [|done]. injection Hl as <- <-.
      injection H as <- <-. destruct Hr; [done | congruence]. }
  apply assertLinked_ok in Hl as [Hl ->].
  destruct (decide (orgId sub = Some org)) as [Horg|Horg].
  2:{ rewrite bool_decide_false in H by done. injection H as <- <-. destruct Hr; [done | congruence]. }
  rewrite bool_decide_true in H by done. simpl in H. exists s, sub. split_and!; try done. intros Hok.
  destruct r as [v|]; [|done].
  assert (Hs1 : first (fun x => String.eqb (ses_id x) (ses_id s)) (sessions (db w1)) = Some s).
  { rewrite Ho. destruct Hses as (Hs & _). by apply first_Some in Hs as Hid; destruct Hid as [_ ->%String.eqb_eq]. }
  destruct (bool_decide (saasSubscriptionStatus _ = _)).
  { apply bind_ok_inv in H as ([] & w2 & Hm & H). injection H as _ <-. by eapply mark_activated_ok. }
  apply bind_ok_inv in H as ([] & w2 & Hset & H). unfold try_catch in H.
  apply (column_ok (sub_id sub) (fun c => set_activation in_progress None c)) in Hset as (c2 & s2 & _ & _ & Hdb2 & _); [|done].
  assert (Hs2 : first (fun x => String.eqb (ses_id x) (ses_id s)) (sessions (db w2)) = Some s) by by rewrite Hdb2.
  match type of H with context [match ?m w2 with _ => _ end] => destruct (m w2) as [[v0|e] w3] eqn:Hbody end.
  2:{ apply bind_ok_inv in H as (? & ? & _ & H). by apply bind_ok_inv in H as (? & ? & _ & H). }
  injection H as -> <-. destruct localMockEnabled.
  - apply bind_ok_inv in Hbody as ([] & w4 & Hst & H). apply bind_ok_inv in H as ([] & w5 & Hm & H).
    injection H as _ <-. eapply mark_activated_ok; [|done].
    apply (column_ok (sub_id sub) (fun c s => set_data (with_status Subscribed (data s)) c s)) in Hst
      as (c4 & s4 & _ & _ & -> & _); done.
  - apply bind_ok_inv in Hbody as (j & w4 & Hms & H). apply bind_ok_inv in H as ([] & w5 & Hm & H).
    apply bind_ok_inv in H as (st & w6 & Href & H). injection H as _ <-.
    pose proof (activated_refreshed s sub sub w5) as Hp. rewrite Href in Hp. apply Hp.
    eapply mark_activated_ok; [|done].
    destruct (outside_activateSubscription (marketplaceSubscriptionId (data sub)) (planId (data sub)) w2) as [Hdb _].
    rewrite Hms in Hdb. simpl in Hdb. by rewrite Hdb.
Qed.
End onboarding.
