(* ===== verification/MarketplaceWebhookProofs.v ===== *)
(** * Marketplace: what a webhook may do

    The authorization a webhook needs, the record it leaves and its effect on the
    subscription. *)

From S2P Require Import Prelude Js Table MarketplaceData MarketplaceRepository MarketplaceClient Entitlement Metering MarketplaceWebhook MarketplaceService MarketplaceInvariant MarketplaceOnboarding.

Open Scope Z_scope.

Section webhook.
Context {E : Environment} {U : UuidSource} {P : Parties} {C : Crypto}.

(** ** Authorization *)

(** A bearer token verified with the tenant's key for the expected audience and, when
    one is configured, for the expected application. *)
Definition token_accepted (authorization : option string) : Prop :=
  exists token kid tenant audience claims,
    authorization = Some ("Bearer " +:+ token) /\ jwt_kid token = Some kid /\
    env "MARKETPLACE_TENANT_ID" = Some tenant /\ env "MARKETPLACE_WEBHOOK_EXPECTED_AUDIENCE" = Some audience /\
    jwt_verify token tenant kid audience = Ok claims /\
    forall app, env "MARKETPLACE_WEBHOOK_EXPECTED_APP_ID" = Some app -> app <> "" -> claims.1 = Some app \/ claims.2 = Some app.

Lemma drop_bearer t : drop_chars 7 ("Bearer " +:+ t) = t.
Proof. by destruct t. Qed.

Lemma truthy_Some o : truthy_str o = true -> exists s, o = Some s /\ s <> "".
Proof. destruct o as [s|]; [|done]. simpl. intros H%negb_true_iff%String.eqb_neq. by exists s. Qed.

Lemma validate_ok a w u w' : validateAuthorization a w = (Ok u, w') ->
  (flag "MARKETPLACE_WEBHOOK_VALIDATE_JWT" = true -> token_accepted a).
Proof.
  unfold validateAuthorization. intros H Hf. rewrite Hf in H. cbn [negb] in H. destruct a as [a|]; [|done].
  destruct (Str.startsWith "Bearer " a) eqn:Hb; [|done]. apply Str.startsWith_spec in Hb as [t ->].
  cbn [negb] in H. rewrite drop_bearer in H. destruct (jwt_kid t) as [kid|] eqn:Hk; [|done].
  destruct (String.eqb kid ""); [done|].
  destruct (negb (truthy_str (env "MARKETPLACE_TENANT_ID"))) eqn:Ht; [done|].
  destruct (negb (truthy_str (env "MARKETPLACE_WEBHOOK_EXPECTED_AUDIENCE"))) eqn:Hau; [done|].
  apply negb_false_iff, truthy_Some in Ht as (tenant & Ht & _), Hau as (audience & Hau & _).
    rewrite Ht, Hau in H. cbn [orb] in H. rewrite run_bind in H. unfold lift in H. simpl in H.
  destruct (jwt_verify t tenant kid audience) as [claims|] eqn:Hv; [|done].
  exists t, kid, tenant, audience, claims. split_and!; try done. intros app Happ Hne. rewrite Happ in H.
  simpl in H. apply String.eqb_neq in Hne. rewrite Hne in H. simpl in H.
  destruct (decide (claims.1 = Some app)) as [|H1]; [by left|].
  destruct (decide (claims.2 = Some app)) as [|H2]; [by right|].
  by rewrite !bool_decide_false in H.
Qed.

(** C31. A webhook that is accepted or writes anything carries, when validation is switched
    on, a bearer token that was verified for the configured tenant, audience and
    application, and names the configured offer. *)
Theorem webhook_authorized p a w r w' : processWebhook p a w = (r, w') -> (is_ok r = true \/ db w' <> db w) ->
  (flag "MARKETPLACE_WEBHOOK_VALIDATE_JWT" = true -> token_accepted a) /\ env "MARKETPLACE_OFFER_ID" = Some (w_offerId p).
Proof.
  intros H Hr. unfold processWebhook in H. rewrite run_bind in H.
  destruct (outside_validateAuthorization a w) as [Ho _].
  destruct (validateAuthorization a w) as [[u|e] w1] eqn:Hv; simpl in Ho.
  2:{ injection H as <- <-. by destruct Hr. }
  split; [by eapply validate_ok|].
  destruct (bool_decide (Some (w_offerId p) = _)) eqn:Hb; [by apply bool_decide_eq_true in Hb|].
  injection H as <- <-. by destruct Hr.
Qed.

(** ** The record of a webhook *)

Definition hooks_are (t : list marketplace_webhook_event) (w : world) : Prop := webhook_events (db w) = t.

Lemma hooks_outside {A} t (m : eff world A) : outside m -> preserves (hooks_are t) m.
Proof. apply outside_preserves. intros w w' Hdb _. unfold hooks_are. by rewrite Hdb. Qed.
#[local] Hint Resolve hooks_outside : platform.

Lemma hooks_write t f : (forall d, webhook_events (f d) = webhook_events d) -> preserves (hooks_are t) (write f).
Proof. intros Hf. apply preserves_modify. intros w Hw. unfold hooks_are in *. simpl. by rewrite Hf. Qed.

Ltac solve_hooks :=
  repeat first
    [ solve [auto with platform]
    | apply hooks_write; done
    | apply preserves_bind; [|intros ?]
    | apply preserves_try; [|intros ?]
    | case_match ].

Lemma hooks_update_subscription t p f : preserves (hooks_are t) (update_subscription p f).
Proof. unfold update_subscription, commit_subscriptions. solve_hooks. Qed.
#[local] Hint Resolve hooks_update_subscription : platform.

Lemma hooks_apply t i p : preserves (hooks_are t) (applyWebhookAction i p).
Proof.
  unfold applyWebhookAction, sync_subscription, patchOperationIfNeeded, acknowledge, upsertOperation,
    updateOperationAckStatus, setSubscriptionStatus, setSubscriptionPlanId, updateSubscriptionFromMicrosoft,
    toSubscriptionData, when. solve_hooks.
Qed.

(** No webhook row carries an identifier that is still to be drawn. *)
Definition hook_ids_ok (w : world) : Prop :=
  forall h n, h ∈ webhook_events (db w) -> (drawn w <= n)%nat -> hook_id h <> uuid n.

Definition outcome_row (old : list marketplace_webhook_event) (st : Processing.status) (w : world) : Prop :=
  exists h, webhook_events (db w) = old ++ [h] /\ processingStatus h = st.

Lemma updateWebhook_last old h st e w : (forall x, x ∈ old -> hook_id x <> hook_id h) ->
  webhook_events (db w) = old ++ [h] ->
  exists w', updateWebhookEvent (hook_id h) st e w = (Ok tt, w') /\ outcome_row old st w'.
Proof.
  intros Hold Hw. unfold updateWebhookEvent, read, write, now. run. rewrite Hw.
  rewrite existsb_app. simpl. rewrite String.eqb_refl, orb_true_r. eexists. split; [done|].
  eexists. split; [simpl; unfold update_where; rewrite map_app; simpl; rewrite String.eqb_refl; f_equal | reflexivity].
  apply update_where_none. intros x Hx%Hold. by apply String.eqb_neq.
Qed.

(** The [try] block of [processWebhook]. *)
Definition processing (i hook : string) (p : MarketplaceWebhookPayload) : eff world bool :=
  try_catch
    (_ ← applyWebhookAction i p;
     _ ← updateWebhookEvent hook Processing.processed None;
     mret true)
    (fun e => _ ← updateWebhookEvent hook Processing.failed (Some (exn_message e)); throw e).

Lemma processing_recorded old h i p w :
  webhook_events (db w) = old ++ [h] -> (forall x, x ∈ old -> hook_id x <> hook_id h) ->
  let (r, w') := processing i (hook_id h) p w in
  outcome_row old (if is_ok r then Processing.processed else Processing.failed) w'.
Proof.
  intros Hw Hold. unfold processing, try_catch. rewrite run_bind.
  pose proof (hooks_apply (old ++ [h]) i p w Hw) as Hhooks. unfold hooks_are in Hhooks.
  destruct (applyWebhookAction i p w) as [[u|e] w3]; simpl in Hhooks; rewrite run_bind.
  - destruct (updateWebhook_last old h Processing.processed None w3 Hold Hhooks) as (w4 & -> & Hrow). done.
  - destruct (updateWebhook_last old h Processing.failed (Some (exn_message e)) w3 Hold Hhooks) as (w4 & -> & Hrow). done.
Qed.

(** A webhook for a known subscription appends exactly one row to the log, marked processed
    when the webhook is accepted and failed when its processing throws. *)
Theorem webhook_recorded p a w s :
  hook_ids_ok w -> (exists w1, validateAuthorization a w = (Ok tt, w1)) ->
  env "MARKETPLACE_OFFER_ID" = Some (w_offerId p) ->
  first (by_marketplace_id (w_subscriptionId p)) (subscriptions (db w)) = Some s ->
  let (r, w') := processWebhook p a w in
  outcome_row (webhook_events (db w)) (if is_ok r then Processing.processed else Processing.failed) w'.
Proof.
  intros Hids [w1 Hv] Hoffer Hs.
  destruct (outside_validateAuthorization a w) as [Hdb Hdrawn]. rewrite Hv in Hdb, Hdrawn. simpl in Hdb, Hdrawn.
  assert (Hrun : exists h w2, webhook_events (db w2) = webhook_events (db w) ++ [h] /\ hook_id h = uuid (drawn w1) /\
      processWebhook p a w = processing (sub_id s) (hook_id h) p w2).
  { unfold processWebhook. rewrite run_bind, Hv, Hoffer, bool_decide_true by done. cbn [negb].
    unfold getSubscriptionByMarketplaceId, read. rewrite <- Hdb in Hs |- *.
    rewrite (run_bind_ok _ _ w1 w1 (Some s)) by (run; by rewrite Hs).
    eexists (Hook _ _ _ _ _ _ _ _ _ _ _ _ _), _. split; [|split; [|reflexivity]]; reflexivity. }
  destruct Hrun as (h & w2 & Hw2 & Hh & ->). apply processing_recorded; [done|].
  intros x Hx. rewrite Hh. apply (Hids _ _ Hx). lia.
Qed.

(** ** The effect on the subscription *)

Definition with_column {A} (d : tables) (i : string) (col : marketplace_subscription -> A) (v : A) : Prop :=
  exists s, find_subscription d i = Some s /\ col s = v.

(** What the action of a webhook promises of the subscription. *)
Definition promised (p : MarketplaceWebhookPayload) (i : string) (before after : tables) : Prop :=
  match w_action p with
  | Suspend => with_column after i (saasSubscriptionStatus ∘ data) Suspended
  | Unsubscribe => with_column after i (saasSubscriptionStatus ∘ data) Unsubscribed
  | ChangePlan => match w_planId p with
                  | Some plan => plan <> "" -> with_column after i (planId ∘ data) plan
                  | None => subscriptions after = subscriptions before
                  end
  | OtherAction _ => subscriptions after = subscriptions before
  | ChangeQuantity | Renew | Reinstate => True
  end.

Lemma subs_acknowledge p i w u w' : acknowledge p i w = (Ok u, w') -> subscriptions (db w') = subscriptions (db w).
Proof.
  unfold acknowledge, updateOperationAckStatus, read, write, now. run. destruct (operation_id p); [|naive_solver].
  intros H. destruct (existsb _ _); [|done]. by injection H as _ <-.
Qed.

Lemma outside_patch p b : outside (patchOperationIfNeeded p b).
Proof.
  unfold patchOperationIfNeeded. destruct (operation_id p); [|auto with platform].
  apply outside_try; [solve_outside | intros e; solve_outside].
Qed.

(** The operation row and the operation's look-up come before the action itself. *)
Lemma apply_prefix i p w u w' : applyWebhookAction i p w = (Ok u, w') ->
  exists w2, subscriptions (db w2) = subscriptions (db w) /\
    match w_action p with
    | ChangePlan =>
        if truthy_str (w_planId p) then
          _ ← sync_subscription p; _ ← setSubscriptionPlanId i (default "" (w_planId p));
          _ ← patchOperationIfNeeded p true; acknowledge p i
        else mret tt
    | ChangeQuantity | Reinstate => _ ← sync_subscription p; _ ← patchOperationIfNeeded p true; acknowledge p i
    | Renew => sync_subscription p
    | Suspend => setSubscriptionStatus i Suspended
    | Unsubscribe => setSubscriptionStatus i Unsubscribed
    | OtherAction _ => mret tt
    end w2 = (Ok u, w').
Proof.
  unfold applyWebhookAction. intros H. apply bind_ok_inv in H as ([] & w1 & H1 & H).
  apply bind_ok_inv in H as ([] & w2 & H2 & H). exists w2. split; [|done].
  assert (subscriptions (db w1) = subscriptions (db w)) as <-.
  { destruct (operation_id p); [|run; naive_solver]. unfold upsertOperation, read, write, now in H1. run.
    destruct (existsb _ _); by injection H1 as <-. }
  destruct (operation_id p) as [id|]; [|run; naive_solver]. unfold when in H2. destruct (needs_ack (w_action p)); [|run; naive_solver].
  apply bind_ok_inv in H2 as (j & w3 & H2 & H3). injection H3 as <-.
  destruct (outside_getOperation (w_subscriptionId p) id w1) as [Hdb _]. rewrite H2 in Hdb. simpl in Hdb. congruence.
Qed.

Lemma apply_promised i p w u w' : applyWebhookAction i p w = (Ok u, w') -> promised p i (db w) (db w').
Proof.
  intros H. apply apply_prefix in H as (w2 & Hsubs & H). unfold promised. destruct (w_action p); try done.
  - destruct (w_planId p) as [plan|]; [|run; injection H as _ <-; done]. intros Hne.
    simpl in H. apply String.eqb_neq in Hne. rewrite Hne in H. simpl in H.
    apply bind_ok_inv in H as ([] & w3 & _ & H). apply bind_ok_inv in H as ([] & w4 & H4 & H).
    apply bind_ok_inv in H as ([] & w5 & H5 & H). apply subs_acknowledge in H.
    apply (column_ok i (fun c s => set_data (with_plan plan (data s)) c s)) in H4 as (c & s & _ & Hf & _); [|done].
    destruct (outside_patch p true w4) as [Hdb _]. rewrite H5 in Hdb. simpl in Hdb.
    eexists. unfold find_subscription in *. rewrite H, Hdb. split; [exact Hf | done].
  - apply (column_ok i (fun c s => set_data (with_status Suspended (data s)) c s)) in H as (c & s & _ & Hf & _); [|done].
    by eexists.
  - apply (column_ok i (fun c s => set_data (with_status Unsubscribed (data s)) c s)) in H as (c & s & _ & Hf & _); [|done].
    by eexists.
  - run. by injection H as _ <-.
Qed.

(** An accepted webhook has had its effect: a suspension or a cancellation is the new status,
    a plan change is the plan the payload names even when Microsoft still answers with the
    old one, and an unknown action changes no subscription. *)
Theorem webhook_effect p a w b w' : processWebhook p a w = (Ok b, w') ->
  exists s, first (by_marketplace_id (w_subscriptionId p)) (subscriptions (db w)) = Some s /\
    promised p (sub_id s) (db w) (db w').
Proof.
  unfold processWebhook. intros H. apply bind_ok_inv in H as ([] & w1 & Hv & H).
  destruct (outside_validateAuthorization a w) as [Hdb _]. rewrite Hv in Hdb. simpl in Hdb.
  destruct (negb _); [done|]. unfold getSubscriptionByMarketplaceId, read in H. rewrite run_bind in H. simpl in H.
  rewrite Hdb in H. destruct (first _ (subscriptions (db w))) as [s|]; [|by run; repeat case_match].
  exists s. split; [done|]. apply bind_ok_inv in H as (hook & w2 & Hc & H).
  assert (Hsubs : subscriptions (db w2) = subscriptions (db w)).
  { unfold createWebhookEvent, read, write, now, fresh in Hc. run. injection Hc as _ <-. simpl. by rewrite Hdb. }
  unfold try_catch in H. match type of H with context [match ?m w2 with _ => _ end] => destruct (m w2) as [[x|e] w3] eqn:Hm end.
  2:{ by apply bind_ok_inv in H as (? & ? & _ & H). }
  injection H as -> <-. apply bind_ok_inv in Hm as ([] & w4 & Happ & Hm). apply bind_ok_inv in Hm as ([] & w5 & Hup & Hm).
  injection Hm as _ <-. apply apply_promised in Happ.
  assert (Hs5 : subscriptions (db w5) = subscriptions (db w4)).
  { unfold updateWebhookEvent, read, write, now in Hup. run. destruct (existsb _ _); [|done]. by injection Hup as <-. }
  unfold promised, with_column, find_subscription in *. by rewrite Hs5, <- Hsubs.
Qed.
End webhook.

(** * Marketplace: the theorems at a sample deployment *)

Open Scope Z_scope.

Module MarketplaceSample.
#[local] Instance env2 : Environment := Sample.environment
  (("MARKETPLACE_WEBHOOK_VALIDATE_JWT", "true") :: ("MARKETPLACE_WEBHOOK_EXPECTED_AUDIENCE", "aud") ::
   ("MARKETPLACE_WEBHOOK_EXPECTED_APP_ID", "app") :: Sample.vars).
#[local] Instance parties2 : Parties := Sample.parties.
#[local] Instance crypto2 : Crypto := Sample.crypto.

Definition world_of (subs : list marketplace_subscription) : world :=
  Sample.with_db (Tables subs [Sample.session] [] [] [] [] []) 0.

Definition fresh_world : world := world_of [Sample.subscription PendingFulfillmentStart not_started None None].
Definition account_message : LinkAccountMessage :=
  LinkAccount "o1" "existing_user" None None None "user1" (Some "BUYER@example.com").
Definition org_message : LinkOrganizationMessage := LinkOrg "o1" true (Some "org1") None "user1" None.
Definition webhook (a : action) : MarketplaceWebhookPayload :=
  WebhookPayload (Some "op1") None "offer" (Some "gold") None "ms1" a (Some "InProgress") Json.JNull.

(** The whole onboarding of one buyer, then a plan change. *)
Definition onboarding : list command :=
  [MARKETPLACE_LINK_ACCOUNT account_message; MARKETPLACE_LINK_ORGANIZATION org_message;
   MARKETPLACE_ACTIVATE_SUBSCRIPTION "o1" "org1" "user1"; MARKETPLACE_ACTIVATE_SUBSCRIPTION "o1" "org1" "user1";
   MARKETPLACE_PROCESS_WEBHOOK (webhook ChangePlan) (Some "Bearer t"); EVERY_10_MINUTES; EVERY_HOUR].

Lemma sample_constraints subs : subscriptions_ok subs -> constraints (world_of subs).
Proof. intros H. split; [done | constructor..]. Qed.

Example constraints_served_witness :
  constraints (serve onboarding fresh_world) /\ length (billing_events (db (serve onboarding fresh_world))) = 1%nat.
Proof.
  split; [|vm_compute; reflexivity].
  apply (constraints_served onboarding fresh_world), sample_constraints.
  apply (bool_decide_unpack _). vm_compute. exact I.
Defined.

Example linkAccount_identity_witness :
  is_ok (linkAccount account_message fresh_world).1 = true /\
  exists s sub, session_at (db fresh_world) "o1" (reading 0) s sub /\ "buyer@example.com" ∈ expectedEmails sub.
Proof.
  split; [vm_compute; reflexivity|].
  destruct (linkAccount_identity account_message fresh_world _ _ (surjective_pairing _)) as (s & sub & Hs & Hin & _).
  - left. vm_compute. reflexivity.
  - exists s, sub. split; [exact Hs | exact Hin].
Defined.

Definition linked_world : world := world_of [Sample.subscription PendingFulfillmentStart not_started (Some "user1") (Some "org1")].

Example linkOrganization_guard_witness :
  exists s sub, session_at (db linked_world) "o1" (reading 0) s sub /\ linked_alone sub "org1" (linkOrganization org_message linked_world).2.
Proof.
  destruct (linkOrganization_guard org_message linked_world _ _ (surjective_pairing _)) as (s & sub & Hs & _ & _ & Hl).
  - left. vm_compute. reflexivity.
  - exists s, sub. split; [exact Hs|]. apply (Hl "org1" activate). vm_compute. reflexivity.
Defined.

Example activate_guard_witness :
  exists s sub, session_at (db linked_world) "o1" (reading 0) s sub /\
    activated_in s sub (activateSubscription "o1" "org1" "user1" linked_world).2.
Proof.
  destruct (activate_guard "o1" "org1" "user1" linked_world _ _ (surjective_pairing _)) as (s & sub & Hs & _ & _ & Ha).
  - left. vm_compute. reflexivity.
  - exists s, sub. split; [exact Hs|]. apply Ha. vm_compute. reflexivity.
Defined.

Example webhook_authorized_witness : token_accepted (Some "Bearer t") /\
  is_ok (processWebhook (webhook Suspend) None linked_world).1 = false.
Proof.
  split; [|vm_compute; reflexivity].
  destruct (webhook_authorized (webhook Suspend) (Some "Bearer t") linked_world _ _ (surjective_pairing _)) as [Ht _].
  - left. vm_compute. reflexivity.
  - apply Ht. reflexivity.
Defined.

Example webhook_recorded_witness :
  outcome_row [] Processing.processed (processWebhook (webhook ChangePlan) (Some "Bearer t") linked_world).2.
Proof.
  pose proof (webhook_recorded (webhook ChangePlan) (Some "Bearer t") linked_world
    (Sample.subscription PendingFulfillmentStart not_started (Some "user1") (Some "org1"))) as H.
  assert (is_ok (processWebhook (webhook ChangePlan) (Some "Bearer t") linked_world).1 = true) as Hok by (vm_compute; reflexivity).
  destruct (processWebhook (webhook ChangePlan) (Some "Bearer t") linked_world) as [r w'].
  cbn [fst snd] in *. rewrite Hok in H. apply H.
  - intros h n Hh. exfalso. by apply elem_of_nil in Hh.
  - eexists. reflexivity.
  - reflexivity.
  - reflexivity.
Defined.

Example webhook_effect_witness :
  with_column (db (processWebhook (webhook ChangePlan) (Some "Bearer t") linked_world).2) "s1" (planId ∘ data) "gold".
Proof.
  destruct (webhook_effect (webhook ChangePlan) (Some "Bearer t") linked_world true
    (processWebhook (webhook ChangePlan) (Some "Bearer t") linked_world).2) as (s & Hs & Hp).
  - vm_compute. reflexivity.
  - vm_compute in Hs. injection Hs as <-. apply Hp. discriminate.
Defined.

Example blocked_without_reason_witness :
  exists e, (getEntitlements "org1" (world_of [Sample.subscription Subscribed in_progress (Some "user1") (Some "org1")])).1 = Ok e /\
    e_features e = disableFeatures /\ e_blockedReason e = None.
Proof.
  destruct (blocked_without_reason "org1" (Sample.subscription Subscribed in_progress (Some "user1") (Some "org1"))
    (world_of [Sample.subscription Subscribed in_progress (Some "user1") (Some "org1")])) as (e & He & Hf & Hr).
  - vm_compute. reflexivity.
  - exists e. split; [exact He|]. split; [exact Hf|]. apply Hr. split; [reflexivity | right; reflexivity].
Defined.
End MarketplaceSample.
