(* ===== verification/OrganizationData.v ===== *)
(** * Organizations: data

    The rows the organization service works on, the parties it calls and the state of a
    run.  Users, roles, ledgers, subscriptions and plans are rows of other services and
    do not change here.  The columns of the location and of the time of creation are left
    out. *)

From S2P Require Import Prelude Js Table MarketplaceData.

Inductive Invitation := ACCEPTED | REJECTED | PENDING.
#[export] Instance org_invitation_eq_dec : EqDecision Invitation.
Proof. solve_decision. Defined.

Module OrgRoles.
Definition OWNER : string := "owner".
Definition ADMIN : string := "admin".
Definition ISSUER : string := "issuer".
Definition VERIFIER : string := "verifier".
Definition MEMBER : string := "member".
Definition PLATFORM_ADMIN : string := "platform_admin".
End OrgRoles.

(** ** Rows *)

Record organisation := Org {
  o_id : string;
  o_name : string;
  o_description : option string;
  o_website : option string;
  orgSlug : option string;
  logoUrl : option string;
  publicProfile : bool;
  registrationNumber : option string;
  idpId : option string;
  clientId : option string;
  clientSecret : option string;
  o_createdBy : string;
  o_lastChangedBy : string;
}.

Record org_invitation := Invite {
  i_id : string;
  i_email : option string;
  i_userId : string;
  i_orgId : string;
  i_status : Invitation;
  orgRoles : list string;
}.

Record user_org_role := UserOrgRole {
  ur_id : string;
  ur_userId : string;
  ur_orgRoleId : string;
  ur_orgId : option string;
  ur_idpRoleId : option string;
}.

Record org_did := OrgDid {
  d_id : string;
  d_orgId : string;
  d_did : string;
  isPrimaryDid : bool;
  d_didDocument : Json.value;
}.

Record org_agent := OrgAgent {
  a_id : string;
  a_orgId : option string;
  orgDid : option string;
  a_didDocument : option Json.value;
  ledgerId : option string;
  a_tenantId : option string;
}.

(** [id] is the organization's in the query of [getAgentInvitationDetails]. *)
Record agent_invitation := AgentInvitation {
  ai_id : string;
  ai_orgId : string;
  connectionInvitation : option string;
  ai_agentId : option string;
}.

Record user_activity := Activity { ac_userId : string; ac_orgId : string; action_text : string; details : string }.

Record user := User {
  u_id : string;
  u_email : option string;
  u_firstName : option string;
  isEmailVerified : bool;
  keycloakUserId : option string;
  u_clientId : option string;
  u_clientSecret : option string;
}.

Record org_role := Role { r_id : string; r_name : string; r_description : string }.
Record ledger := Ledger { l_id : string; l_name : string; indyNamespace : option string }.

(** A role of a Keycloak client, and the client of an organization *)
Record client_role := ClientRole { cr_id : string; cr_name : string }.
Record org_credentials := Credentials { c_idpId : string; c_clientId : string; c_clientSecret : string }.

(** ** Calls to other parties *)

Inductive call :=
  | ManagementToken (id secret : option string)
  | CreateClient (name org token : string)
  | CreateClientRole (idp token role : string)
  | ClientSpecificRoles (idp token role : string)
  | AllClientRoles (idp token : string)
  | CreateUserClientRole (idp token : string) (user : option string) (roles : list client_role)
  | DeleteUserClientRoles (idp : option string) (token : string) (user : option string)
  | GenerateClientSecret (idp token : string)
  | DeleteClient (idp : option string) (token : string)
  | NatsCall (cmd : string) (payload : list string)
  | SendEmail (to : option string) (subject : string)
  | UploadLogo (data : option string)
  | CreateConnectionInvitation (orgName logo : option string) (org : string).

(** The other parties answer a call as they please, depending on every call made to them
    before.  [on_user_service] fails or lets the query through; two operations that were
    started together take effect in the order [schedule] gives. *)
Class Parties := {
  on_token : list call -> result string;
  on_client : list call -> result org_credentials;
  on_role : list call -> result client_role;
  on_roles : list call -> result (list client_role);
  on_secret : list call -> result string;
  on_keycloak : list call -> result unit;
  on_user_service : list call -> result unit;
  on_email : list call -> result bool;
  on_upload : list call -> result string;
  on_invitation : list call -> result (option string);
  schedule : nat -> bool;
}.

(** The rows of other services, and the configuration.  A name or an identifier of a role
    and an identifier of a user are unique. *)
Class Platform := {
  users : list user;
  users_keyed : NoDup (u_id <$> users);
  org_roles : list org_role;
  roles_keyed : NoDup (r_id <$> org_roles);
  roles_named : NoDup (r_name <$> org_roles);
  ledgers : list ledger;
  subscriptions : list marketplace_subscription;
  plans : list marketplace_plan;
  MAX_ORG_LIMIT : option string;
  PLATFORM_NAME : option string;
  emailFrom : option string;
}.

(** ** The state *)

Record tables := Tables {
  organisations : list organisation;
  invitations : list org_invitation;
  user_org_roles : list user_org_role;
  org_dids : list org_did;
  org_agents : list org_agent;
  agent_invitations : list agent_invitation;
  activities : list user_activity;
  notifications : list (option string);        (* the [orgId] of each row *)
  others : list (string * string);             (* table and [orgId] of the rows of other tables *)
}.

(** [schemas] and [cred_defs], the [orgId]s of their rows, stay outside what a
    transaction of this service undoes. *)
Record world := World {
  db : tables;
  schemas : list (option string);
  cred_defs : list (option string);
  calls : list call;
  ticks : nat;
  drawn : nat;
}.

Definition set_db (d : tables) (w : world) : world := World d (schemas w) (cred_defs w) (calls w) (ticks w) (drawn w).
Definition rollback (w w' : world) : world := set_db (db w) w'.

Definition set_organisations v (d : tables) := Tables v (invitations d) (user_org_roles d) (org_dids d) (org_agents d) (agent_invitations d) (activities d) (notifications d) (others d).
Definition set_invitations v (d : tables) := Tables (organisations d) v (user_org_roles d) (org_dids d) (org_agents d) (agent_invitations d) (activities d) (notifications d) (others d).
Definition set_roles v (d : tables) := Tables (organisations d) (invitations d) v (org_dids d) (org_agents d) (agent_invitations d) (activities d) (notifications d) (others d).
Definition set_dids v (d : tables) := Tables (organisations d) (invitations d) (user_org_roles d) v (org_agents d) (agent_invitations d) (activities d) (notifications d) (others d).
Definition set_agents v (d : tables) := Tables (organisations d) (invitations d) (user_org_roles d) (org_dids d) v (agent_invitations d) (activities d) (notifications d) (others d).
Definition set_agent_invitations v (d : tables) := Tables (organisations d) (invitations d) (user_org_roles d) (org_dids d) (org_agents d) v (activities d) (notifications d) (others d).
Definition set_activities v (d : tables) := Tables (organisations d) (invitations d) (user_org_roles d) (org_dids d) (org_agents d) (agent_invitations d) v (notifications d) (others d).
Definition set_notifications v (d : tables) := Tables (organisations d) (invitations d) (user_org_roles d) (org_dids d) (org_agents d) (agent_invitations d) (activities d) v (others d).

Section primitives.
Context {U : UuidSource} {P : Parties}.

Definition fresh : eff world string := fun w =>
  (Ok (uuid (drawn w)), World (db w) (schemas w) (cred_defs w) (calls w) (ticks w) (S (drawn w))).
Definition placed (c : call) : eff world (list call) := fun w =>
  let cs := (calls w ++ [c])%list in (Ok cs, World (db w) (schemas w) (cred_defs w) cs (ticks w) (drawn w)).
Definition read {A} (f : tables -> A) : eff world A := gets (fun w => f (db w)).
Definition write (f : tables -> tables) : eff world unit := modify (fun w => set_db (f (db w)) w).
Definition write_schemas (f : list (option string) -> list (option string)) : eff world unit :=
  modify (fun w => World (db w) (f (schemas w)) (cred_defs w) (calls w) (ticks w) (drawn w)).
Definition write_cred_defs (f : list (option string) -> list (option string)) : eff world unit :=
  modify (fun w => World (db w) (schemas w) (f (cred_defs w)) (calls w) (ticks w) (drawn w)).

Definition ask {A} (c : call) (answer : list call -> result A) : eff world A := cs ← placed c; lift (answer cs).

Definition tick : eff world bool := fun w =>
  (Ok (schedule (ticks w)), World (db w) (schemas w) (cred_defs w) (calls w) (S (ticks w)) (drawn w)).

(** A promise that is not awaited: its effects happen, its outcome is lost. *)
Definition spawn {A} (m : eff world A) : eff world unit := fun w => (Ok tt, (m w).2).

Definition both {A B} (ra : result A) (rb : result B) (a_first : bool) : result (A * B) :=
  match ra, rb with
  | Ok a, Ok b => Ok (a, b)
  | Throw e, Ok _ => Throw e
  | Ok _, Throw e => Throw e
  | Throw e, Throw e' => Throw (if a_first then e else e')
  end.

(** [Promise.all([a, b])]: both have started, so both take their effect even when one
    fails; the order is not determined. *)
Definition par {A B} (ma : eff world A) (mb : eff world B) : eff world (A * B) := fun w =>
  match tick w with
  | (Ok true, w0) => let '(ra, w1) := ma w0 in let '(rb, w2) := mb w1 in (both ra rb true, w2)
  | (_, w0) => let '(rb, w1) := mb w0 in let '(ra, w2) := ma w1 in (both ra rb false, w2)
  end.

(** [Promise.all(xs.map(async x => m x))], one after the other: every computation runs,
    and the first failure is the outcome. *)
Fixpoint par_each {A} (xs : list A) (m : A -> eff world unit) : eff world unit :=
  match xs with
  | [] => mret tt
  | x :: xs' => fun w =>
      let '(r, w1) := m x w in
      let '(r', w2) := par_each xs' m w1 in
      (match r with Ok _ => r' | Throw e => Throw e end, w2)
  end.
End primitives.

(** *** Relations that only look at the tables

    A relation on worlds that every change outside the tables respects is respected by
    the computations that only ask, read and combine. *)

Class Ambient (R : relation world) := {
  ambient_preorder :: PreOrder R;
  ambient_same w w' : db w' = db w -> (drawn w <= drawn w')%nat -> R w w';
  ambient_drawn w w' : R w w' -> (drawn w <= drawn w')%nat;
}.

Section ambient.
Context {U : UuidSource} {P : Parties} (R : relation world) `{HR : !Ambient R}.

Lemma frames_placed c : frames R (placed c).
Proof using HR. intros w. by apply ambient_same. Qed.
Lemma frames_read {A} (f : tables -> A) : frames R (read f).
Proof using HR. intros w. by apply ambient_same. Qed.
Lemma frames_fresh : frames R fresh.
Proof using HR. intros w. apply ambient_same; [done | simpl; lia]. Qed.
Lemma frames_ask {A} c (f : list call -> result A) : frames R (ask c f).
Proof using HR. apply frames_bind; [exact _ | apply frames_placed|]. intros cs. apply frames_lift. exact _. Qed.
Lemma frames_spawn {A} (m : eff world A) : frames R m -> frames R (spawn m).
Proof using Type. intros Hm w. apply Hm. Qed.

Lemma frames_par {A B} (ma : eff world A) (mb : eff world B) : frames R ma -> frames R mb -> frames R (par ma mb).
Proof using HR.
  intros Ha Hb w. unfold par, tick. cbv beta iota.
  set (w0 := World _ _ _ _ _ _). assert (H0 : R w w0) by by apply ambient_same.
  destruct (schedule (ticks w)); cbv iota.
  - pose proof (Ha w0) as H1. destruct (ma w0) as [ra w1]. pose proof (Hb w1) as H2. destruct (mb w1) as [rb w2].
    simpl in *. by rewrite H0, H1.
  - pose proof (Hb w0) as H1. destruct (mb w0) as [rb w1]. pose proof (Ha w1) as H2. destruct (ma w1) as [ra w2].
    simpl in *. by rewrite H0, H1.
Qed.

Lemma frames_par_each {A} (xs : list A) (m : A -> eff world unit) : (forall x, frames R (m x)) -> frames R (par_each xs m).
Proof using HR.
  intros Hm. induction xs as [|x xs IH]; intros w; [by apply ambient_same|]. simpl. pose proof (Hm x w) as H1. destruct (m x w) as [r w1].
  pose proof (IH w1) as H2. destruct (par_each xs m w1) as [r' w2]. simpl in *. by rewrite H1.
Qed.

Lemma frames_transaction {A} (m : eff world A) : frames R m -> frames R (transaction rollback m).
Proof using HR.
  intros Hm w. unfold transaction. specialize (Hm w). destruct (m w) as [[a|e] w1]; [done|].
  apply ambient_same; [done | by apply ambient_drawn in Hm].
Qed.
End ambient.

#[export] Hint Extern 1 (frames ?R (placed _)) => apply (frames_placed R) : platform.
#[export] Hint Extern 1 (frames ?R (read _)) => apply (frames_read R) : platform.
#[export] Hint Extern 1 (frames ?R (fresh)) => apply (frames_fresh R) : platform.
#[export] Hint Extern 1 (frames ?R (ask _ _)) => apply (frames_ask R) : platform.
#[export] Hint Extern 1 (frames ?R (spawn _)) => apply (frames_spawn R) : platform.
#[export] Hint Extern 1 (frames ?R (par _ _)) => apply (frames_par R) : platform.
#[export] Hint Extern 1 (frames ?R (par_each _ _)) => apply (frames_par_each R) : platform.

Definition type_error {A} : eff world A := throw (js_error "Cannot read properties of null").
Definition bad_request (m : string) : exn := http_exn BadRequestException m.
Definition not_found (m : string) : exn := http_exn NotFoundException m.
Definition conflict (m : string) : exn := http_exn ConflictException m.
Definition internal (m : string) : exn := http_exn InternalServerErrorException m.
(** The error of a foreign key that restricts a deletion. *)
Definition prisma_restricted : exn := Exn PrismaError "Foreign key constraint failed" None (Some "P2003").
