(* ===== verification/OrganizationRepository.v ===== *)
(** * Organizations: repository

    [organization.repository.ts], one definition per method, with the repositories of
    [libs/user-org-roles] and [libs/org-roles]. *)

From S2P Require Import Prelude Js Table MarketplaceData OrganizationData.

Open Scope Z_scope.

Section repository.
Context {U : UuidSource} {P : Parties} {T : Platform}.

(** ** Organizations *)

Definition org_is (id : string) (o : organisation) : bool := String.eqb (o_id o) id.

Definition checkOrganizationNameExist (name : string) : eff world (option organisation) :=
  read (fun d => first (fun o => String.eqb (o_name o) name) (organisations d)).

Definition slug_is (slug : string) (o : organisation) : bool := bool_decide (orgSlug o = Some slug).

Definition checkOrganizationSlugExist (slug : string) : eff world (option organisation) :=
  read (fun d => first (slug_is slug) (organisations d)).

Record CreateOrganizationDto := CreateDto {
  c_name : string;
  c_description : option string;
  c_logo : option string;
  c_website : option string;
  c_registrationNumber : option string;
  c_notificationWebhook : option string;
}.

(** The unique index on [orgSlug] *)
Definition createOrganization (c : CreateOrganizationDto) (slug logo userId : string) : eff world organisation :=
  t ← read organisations;
  if existsb (slug_is slug) t then throw prisma_unique else
  id ← fresh;
  let row := Org id (c_name c) (c_description c) (c_website c) (Some slug) (Some logo) false (c_registrationNumber c)
    None None None userId userId in
  _ ← write (set_organisations (t ++ [row])%list);
  mret row.

Record IUpdateOrganization := UpdateDto {
  up_orgId : string;
  up_name : string;
  up_description : option string;
  up_website : option string;
  up_logo : option string;
  up_isPublic : option bool;
}.

(** A column whose value is [undefined] is left alone. *)
Definition updated (u : IUpdateOrganization) (slug userId : string) (logo : option string) (o : organisation) : organisation :=
  Org (o_id o) (up_name u) (match up_description u with Some d => Some d | None => o_description o end)
    (match up_website u with Some s => Some s | None => o_website o end) (Some slug)
    (match logo with Some l => Some l | None => logoUrl o end) (default (publicProfile o) (up_isPublic u))
    (registrationNumber o) (idpId o) (clientId o) (clientSecret o) (o_createdBy o) userId.

Definition updateOrganization (u : IUpdateOrganization) (slug userId : string) (logo : option string) : eff world organisation :=
  t ← read organisations;
  match first (org_is (up_orgId u)) t with
  | None => throw prisma_missing
  | Some o =>
      if existsb (fun o' => slug_is slug o' && negb (org_is (up_orgId u) o')) t then throw prisma_unique else
      _ ← write (set_organisations (update_where (org_is (up_orgId u)) (updated u slug userId logo) t));
      mret (updated u slug userId logo o)
  end.

(** [None] leaves a column alone, [Some None] makes it null. *)
Record org_update := OrgUpdate {
  set_idpId : option (option string);
  set_clientId : option (option string);
  set_clientSecret : option (option string);
}.

Definition with_update (u : org_update) (o : organisation) : organisation :=
  Org (o_id o) (o_name o) (o_description o) (o_website o) (orgSlug o) (logoUrl o) (publicProfile o) (registrationNumber o)
    (default (idpId o) (set_idpId u)) (default (clientId o) (set_clientId u)) (default (clientSecret o) (set_clientSecret u))
    (o_createdBy o) (o_lastChangedBy o).

Definition updateOrganizationById (u : org_update) (id : string) : eff world organisation :=
  t ← read organisations;
  match first (org_is id) t with
  | None => throw prisma_missing
  | Some o => _ ← write (set_organisations (update_where (org_is id) (with_update u) t)); mret (with_update u o)
  end.

Definition getOrganizationDetails (id : string) : eff world (option organisation) :=
  if String.eqb id "" then throw (internal "Organization does not exists")
  else read (fun d => first (org_is id) (organisations d)).

Definition getOrgProfile (id : string) : eff world (option organisation) :=
  read (fun d => first (org_is id) (organisations d)).

Definition getPublicOrganization (slug : string) : eff world (option organisation) :=
  read (fun d => first (fun o => slug_is slug o && publicProfile o) (organisations d)).

Definition getOrganisationsByIds (ids : list string) : eff world (list organisation) :=
  read (fun d => List.filter (fun o => existsb (String.eqb (o_id o)) ids) (organisations d)).

Definition has_role_in (userId : string) (t : list user_org_role) (o : organisation) : bool :=
  existsb (fun r => String.eqb (ur_userId r) userId && bool_decide (ur_orgId r = Some (o_id o))) t.

Definition userOrganizationCount (userId : string) : eff world Z :=
  read (fun d => Z.of_nat (length (List.filter (has_role_in userId (user_org_roles d)) (organisations d)))).

(** *** Limits of the marketplace plan *)

Definition plan_of (s : marketplace_subscription) : option marketplace_plan :=
  first (fun p => String.eqb (plan_offerId p) (offerId (MarketplaceData.data s)) && String.eqb (plan_planId p) (planId (MarketplaceData.data s))) plans.

Definition latest_subscription (p : marketplace_subscription -> bool) : option marketplace_subscription :=
  latest sub_created (List.filter (fun s => p s && bool_decide (deletedAt s = None)) subscriptions).

Definition getMarketplaceMaxUsers (org : string) : option Z :=
  s ← latest_subscription (fun s => bool_decide (MarketplaceData.orgId s = Some org)); p ← plan_of s; maxUsers p.

Definition getMarketplaceMaxOrganizationsByUser (userId : string) : option Z :=
  s ← latest_subscription (fun s => bool_decide (localUserId s = Some userId)); p ← plan_of s; maxOrganizations p.

Fixpoint distinct (l : list string) : list string :=
  match l with
  | [] => []
  | x :: l' => if existsb (String.eqb x) l' then distinct l' else x :: distinct l'
  end.

Definition role_of_org (org : string) (r : user_org_role) : bool := bool_decide (ur_orgId r = Some org).

Definition org_users (d : tables) (org : string) : list string :=
  distinct (map ur_userId (List.filter (role_of_org org) (user_org_roles d))).

Definition getOrganizationUserCount (org : string) : eff world Z := read (fun d => Z.of_nat (length (org_users d org))).

Definition pending_in (org : string) (i : org_invitation) : bool :=
  String.eqb (i_orgId i) org && bool_decide (i_status i = PENDING).

Definition getPendingOrganizationInvitationCount (org : string) : eff world Z :=
  read (fun d => Z.of_nat (length (List.filter (pending_in org) (invitations d)))).

(** ** Invitations *)

Definition invitation_is (id : string) (i : org_invitation) : bool := String.eqb (i_id i) id.

Definition createSendInvitation (email : option string) (org userId : string) (roleIds : list string) : eff world org_invitation :=
  d ← read id;
  if existsb (fun u => String.eqb (u_id u) userId) users && existsb (org_is org) (organisations d) then
    id ← fresh;
    let row := Invite id email userId org PENDING roleIds in
    _ ← write (set_invitations (invitations d ++ [row])%list);
    mret row
  else throw prisma_missing.

Definition getInvitationById (id : string) : eff world (option org_invitation) :=
  read (fun d => first (invitation_is id) (invitations d)).

Definition getOrgInvitations (email : option string) (org : string) : eff world (list org_invitation) :=
  read (fun d => List.filter (fun i => bool_decide (i_email i = email) && String.eqb (i_orgId i) org) (invitations d)).

Definition getOrgInvitationsByOrg (org : string) : eff world (list org_invitation) :=
  read (fun d => List.filter (fun i => String.eqb (i_orgId i) org) (invitations d)).

Definition set_status (st : Invitation) (i : org_invitation) : org_invitation :=
  Invite (i_id i) (i_email i) (i_userId i) (i_orgId i) st (orgRoles i).

Definition updateInvitation (id : string) (st : Invitation) : eff world unit :=
  t ← read invitations;
  match first (invitation_is id) t with
  | None => throw prisma_missing
  | Some _ => write (set_invitations (update_where (invitation_is id) (set_status st) t))
  end.

Definition deleteInvitation (id : string) : eff world unit :=
  t ← read invitations;
  match first (invitation_is id) t with
  | None => throw prisma_missing
  | Some _ => write (set_invitations (List.filter (fun i => negb (invitation_is id i)) t))
  end.

(** ** Roles *)

Definition getRole (name : string) : option org_role := first (fun r => String.eqb (r_name r) name) org_roles.
Definition getOrgRoles : list org_role := List.filter (fun r => negb (String.eqb (r_name r) OrgRoles.PLATFORM_ADMIN)) org_roles.
Definition getOrgRolesByIds (ids : list string) : list org_role := List.filter (fun r => existsb (String.eqb (r_id r)) ids) org_roles.

Definition getUser (id : string) : option user := first (fun u => String.eqb (u_id u) id) users.

(** Role, user and organization are connected by their identifiers, which must exist. *)
Definition createUserOrgRole (userId roleId : string) (org idpRoleId : option string) : eff world unit :=
  d ← read id;
  let org := if truthy_str org then org else None in
  if existsb (fun r => String.eqb (r_id r) roleId) org_roles && existsb (fun u => String.eqb (u_id u) userId) users
     && match org with Some o => existsb (org_is o) (organisations d) | None => true end
  then id ← fresh;
       let row := UserOrgRole id userId roleId org (if truthy_str idpRoleId then idpRoleId else None) in
       write (set_roles (user_org_roles d ++ [row])%list)
  else throw (internal "User Org Role not created").

Definition role_of_member (userId org : string) (r : user_org_role) : bool :=
  String.eqb (ur_userId r) userId && bool_decide (ur_orgId r = Some org).

(** [checkUserOrgExist] *)
Definition checkUserOrgExist (userId org : string) : eff world bool :=
  read (fun d => existsb (role_of_member userId org) (user_org_roles d)).

(** [updateUserOrgRole]: the rows are created without waiting for them. *)
Fixpoint updateUserOrgRole (userId org : string) (roleIdList : list (string * string)) : eff world bool :=
  match roleIdList with
  | [] => mret true
  | (roleId, idpRoleId) :: roleIdList' =>
      _ ← spawn (createUserOrgRole userId roleId (Some org) (Some idpRoleId));
      updateUserOrgRole userId org roleIdList'
  end.

(** [deleteOrgRoles] returns the number of rows. *)
Definition deleteOrgRoles (userId org : string) : eff world Z :=
  t ← read user_org_roles;
  _ ← write (set_roles (List.filter (fun r => negb (role_of_member userId org r)) t));
  mret (Z.of_nat (length (List.filter (role_of_member userId org) t))).

Definition getUserOrgRole (userId org : string) : eff world (list string) :=
  read (fun d => map ur_orgRoleId (List.filter (role_of_member userId org) (user_org_roles d))).

(** The role whose name is ['owner'] *)
Definition owner_role_in (org : string) (r : user_org_role) : bool :=
  role_of_org org r && existsb (fun ro => String.eqb (r_id ro) (ur_orgRoleId r) && String.eqb (r_name ro) OrgRoles.OWNER) org_roles.

Definition getOrgAndOwnerUser (org : string) : eff world (option user_org_role) :=
  read (fun d => first (owner_role_in org) (user_org_roles d)).

Definition getUnregisteredClientOrgs : eff world (list organisation) :=
  read (fun d => List.filter (fun o => bool_decide (idpId o = None)) (organisations d)).

(** ** DIDs *)

Definition did_is (id : string) (d : org_did) : bool := String.eqb (d_id d) id.
Definition did_of (org : string) (d : org_did) : bool := String.eqb (d_orgId d) org.

Definition agent_of (org : string) (a : org_agent) : bool := bool_decide (a_orgId a = Some org).

Definition getAgentEndPoint (org : string) : eff world org_agent :=
  found ← read (fun d => first (agent_of org) (org_agents d));
  match found with Some a => mret a | None => throw prisma_missing end.

Definition getAllOrganizationDid (org : string) : eff world (list org_did) :=
  read (fun d => List.filter (did_of org) (org_dids d)).

Definition getDidDetailsByDid (org did : string) : eff world org_did :=
  found ← read (fun d => first (fun r => did_of org r && String.eqb (d_did r) did) (org_dids d));
  match found with Some r => mret r | None => throw prisma_missing end.

Definition getPerviousPrimaryDid (org excludeId : string) : eff world (option org_did) :=
  read (fun d => first (fun r => did_of org r && isPrimaryDid r && negb (did_is excludeId r)) (org_dids d)).

Definition getNetworkByNameSpace (ns : string) : eff world ledger :=
  match first (fun l => bool_decide (indyNamespace l = Some ns)) ledgers with Some l => mret l | None => throw prisma_missing end.

Definition getLedger (name : string) : eff world ledger :=
  match first (fun l => String.eqb (l_name l) name) ledgers with Some l => mret l | None => throw prisma_missing end.

Definition set_primary (b : bool) (d : org_did) : org_did := OrgDid (d_id d) (d_orgId d) (d_did d) b (d_didDocument d).

(** The partial unique index on [orgId] of the rows with [isPrimaryDid] *)
Definition one_primary (t : list org_did) : bool :=
  forallb (fun r => negb (isPrimaryDid r) || (length (List.filter (fun r' => did_of (d_orgId r) r' && isPrimaryDid r') t) <=? 1)%nat) t.

Definition update_did (id : string) (b : bool) : eff world unit :=
  t ← read org_dids;
  match first (did_is id) t with
  | None => throw prisma_missing
  | Some _ =>
      let t' := update_where (did_is id) (set_primary b) t in
      if one_primary t' then write (set_dids t') else throw prisma_unique
  end.

Definition set_agent_did (did : string) (doc : Json.value) (ledger : option string) (a : org_agent) : org_agent :=
  OrgAgent (a_id a) (a_orgId a) (Some did) (Some doc) ledger (a_tenantId a).

Definition update_agent (org did : string) (doc : Json.value) (ledger : option string) : eff world unit :=
  t ← read org_agents;
  match first (agent_of org) t with
  | None => throw prisma_missing
  | Some _ => write (set_agents (update_where (agent_of org) (set_agent_did did doc ledger) t))
  end.

Definition setOrgsPrimaryDid (org did id : string) (doc : Json.value) (networkId previousDidId : option string) : eff world unit :=
  transaction rollback (
    _ ← when (truthy_str previousDidId) (update_did (default "" previousDidId) false);
    _ ← update_did id true;
    update_agent org did doc networkId).

(** ** The agent's invitations *)

Definition getAgentInvitationDetails (org : string) : eff world (option agent_invitation) :=
  read (fun d => first (fun a => String.eqb (ai_id a) org) (agent_invitations d)).

Definition updateConnectionInvitationDetails (org : string) (invitation : option string) : eff world unit :=
  write (fun d => set_agent_invitations (update_where (fun a => String.eqb (ai_orgId a) org)
    (fun a => AgentInvitation (ai_id a) (ai_orgId a) (match invitation with Some i => Some i | None => connectionInvitation a end) (ai_agentId a))
    (agent_invitations d)) d).

(** ** Deletion of an organization *)

Definition AGENT_TABLE : string := "org_agents".
Definition tablesToCheck : list string :=
  ["org_dids"; "agent_invitations"; "connections"; "credentials"; "presentations"; "file_upload"].

(** The tables whose foreign key restricts the deletion of an organization; the keys of
    the rows in [tablesToCheck] do not, or are checked before. *)
Definition restricting : list string :=
  ["ecosystem_orgs"; "oid4vc_credentials"; "oid4vp_presentations"; "verification_templates"; "status_list_allocation";
   "issued_oid4vc_credentials"; "marketplace_usage_event"; "billing_usage_event"].

Definition references (d : tables) (org table : string) : nat :=
  if String.eqb table "org_dids" then length (List.filter (did_of org) (org_dids d))
  else if String.eqb table "agent_invitations" then length (List.filter (fun a => String.eqb (ai_orgId a) org) (agent_invitations d))
  else length (List.filter (fun r => String.eqb r.1 table && String.eqb r.2 org) (others d)).

Definition referenced (org table : string) : exn :=
  conflict ("Organization ID " +:+ org +:+ " is referenced in the table " +:+ table).

Definition detach (org : string) (l : list (option string)) : list (option string) :=
  map (fun o => if bool_decide (o = Some org) then None else o) l.

Record deletion := Deletion {
  deletedUserActivity : Z;
  deletedUserOrgRole : Z;
  deletedOrgInvitations : Z;
  deletedNotification : Z;
  deleteOrg_row : organisation;
}.

(** [deleteMany] on a table: the rows that stay and the number of the others *)
Definition remove {R} (p : R -> bool) (t : list R) : list R * Z :=
  (List.filter (fun r => negb (p r)) t, Z.of_nat (length (List.filter p t))).

(** The schemas and credential definitions are detached through the client outside the
    transaction. *)
Definition deleteOrg (org : string) : eff world deletion :=
  transaction rollback (
    d ← read id;
    _ ← (match first (agent_of org) (org_agents d) with
         | None => mret tt
         | Some a =>
             if truthy_str (a_tenantId a) then throw (referenced org AGENT_TABLE)
             else write (set_agents (List.filter (fun a => negb (agent_of org a)) (org_agents d)))
         end);
    d ← read id;
    _ ← for_each tablesToCheck (fun t => if (0 <? references d org t)%nat then throw (referenced org t) else mret tt);
    let '(ns, n1) := remove (fun n => bool_decide (n = Some org)) (notifications d) in
    _ ← write (set_notifications ns);
    let '(acs, n2) := remove (fun a => String.eqb (ac_orgId a) org) (activities d) in
    _ ← write (set_activities acs);
    let '(rs, n3) := remove (role_of_org org) (user_org_roles d) in
    _ ← write (set_roles rs);
    let '(invs, n4) := remove (fun i => String.eqb (i_orgId i) org) (invitations d) in
    _ ← write (set_invitations invs);
    _ ← write_schemas (detach org);
    _ ← write_cred_defs (detach org);
    match first (org_is org) (organisations d) with
    | None => throw prisma_missing
    | Some o =>
        if existsb (fun t => (0 <? references d org t)%nat) restricting then throw prisma_restricted else
        _ ← write (set_organisations (List.filter (fun o => negb (org_is org o)) (organisations d)));
        mret (Deletion n2 n3 n4 n1 o)
    end).

(** [userActivityService.createActivity]; user and organization are foreign keys. *)
Definition createActivity (userId org action details : string) : eff world unit :=
  d ← read id;
  if existsb (fun u => String.eqb (u_id u) userId) users && existsb (org_is org) (organisations d)
  then write (set_activities (activities d ++ [Activity userId org action details])%list)
  else throw prisma_restricted.
End repository.
