(* ===== verification/Organization.v ===== *)
(** * Organizations: service

    [organization.service.ts], the handler that relays a user's answer to an invitation
    ([acceptRejectInvitations] of [apps/user/src/user.service.ts]) and the messages of
    [organization.controller.ts] that change rows. *)

From S2P Require Import Prelude Js Regex CommonUtils CastHelper Table MarketplaceData OrganizationData OrganizationRepository.

Open Scope Z_scope.

Section service.
Context {U : UuidSource} {P : Parties} {T : Platform}.

(** ** Names and secrets *)

(** The first 5 characters decide whether a string is masked, the last 8 are shown.
    [String.repeat] throws on a negative count. *)
Definition repeat_star (n : Z) : result string :=
  if n <? 0 then Throw (js_error "Invalid count value") else Ok (String.concat "" (repeat "*" (Z.to_nat n))).

Fixpoint drop_str (n : nat) (s : string) : string :=
  match n, s with S n', String _ s' => drop_str n' s' | _, _ => s end.

Definition maskString (inputString : string) : result string :=
  let length := Z.of_nat (String.length inputString) in
  if 5 <=? length then
    stars ← repeat_star (length - 8);
    Ok (stars +:+ drop_str (Z.to_nat (length - 8)) inputString)
  else Ok inputString.

Definition slug_char (c : ascii) : bool := Regex.lower_letter c || Regex.digit c || Ascii.eqb c "-".

Definition createOrgSlug (orgName : string) : string :=
  let s := Str.toLowerCase orgName in
  let s := Regex.replace_runs Str.is_space "-" false s in
  let s := Regex.replace_each (fun c => negb (slug_char c)) "" s in
  Regex.replace_runs (Ascii.eqb "-") "-" false s.

(** An image as a data URL: letters for its type, and no double quote in its data *)
Definition base64Regex : Regex.re := Regex.seq [
  Regex.str "data:image/"; Regex.Star (Regex.Cls Regex.letter); Regex.str ";base64,";
  Regex.Star (Regex.Cls (fun c => negb (Ascii.eqb c dquote)))].

Definition isValidBase64 (value : option string) : bool :=
  truthy_str value && Regex.test base64Regex (default "" value).

Definition uploadFileToAzure (orgLogo : string) : eff world string :=
  rpc (ask (UploadLogo (Str.split "," orgLogo !! 1%nat)) on_upload).

(** ** Limits *)

(** [count >= toNumber(`${process.env.MAX_ORG_LIMIT}`)] *)
Definition at_org_limit (count : Z) : bool :=
  match toNumber (template_str MAX_ORG_LIMIT) no_options with Some n => n <=? count | None => false end.

Definition MaximumOrgsLimit : exn :=
  bad_request "Limit reached: You can be associated with or create maximum 10 organizations.".

(** [!max]: no plan, no limit, or the limit 0 *)
Definition limit_of (max : option Z) : option Z := match max with Some n => if n =? 0 then None else Some n | None => None end.

Definition plural (n : Z) : string := if n =? 1 then "" else "s".

Definition assertMarketplaceOrganizationLimit (userId : string) (currentOrgCount : Z) : eff world unit :=
  match limit_of (getMarketplaceMaxOrganizationsByUser userId) with
  | None => mret tt
  | Some n => if n <=? currentOrgCount
      then throw (bad_request ("Marketplace plan allows " +:+ pretty n +:+ " organization" +:+ plural n +:+ " for this subscription"))
      else mret tt
  end.

Definition user_limit_reached (n : Z) : exn :=
  bad_request ("Marketplace plan allows " +:+ pretty n +:+ " Studio user" +:+ plural n +:+ " for this organization").

Definition assertMarketplaceUserLimitAllowsAcceptance (org userId : string) : eff world unit :=
  match limit_of (getMarketplaceMaxUsers org) with
  | None => mret tt
  | Some n =>
      isExistingOrgUser ← checkUserOrgExist userId org;
      if isExistingOrgUser : bool then mret tt else
      activeUsers ← getOrganizationUserCount org;
      if n <? activeUsers + 1 then throw (user_limit_reached n) else mret tt
  end.

(** ** Keycloak *)

Definition managementToken (u : user) : eff world string := ask (ManagementToken (u_clientId u) (u_clientSecret u)) on_token.

Definition registerToKeycloak (orgName org : string) (kc : option string) (userId : string) (shouldUpdateRole : bool) : eff world org_credentials :=
  match getUser userId with
  | None => type_error
  | Some u =>
      token ← managementToken u;
      orgDetails ← ask (CreateClient orgName org token) on_client;
      let idp := c_idpId orgDetails in
      _ ← for_each [OrgRoles.OWNER; OrgRoles.ADMIN; OrgRoles.ISSUER; OrgRoles.VERIFIER; OrgRoles.MEMBER]
            (fun role => ask (CreateClientRole idp token role) on_keycloak);
      ownerRoleClient ← ask (ClientSpecificRoles idp token OrgRoles.OWNER) on_role;
      let grant := ask (CreateUserClientRole idp token kc [ownerRoleClient]) on_keycloak in
      match getRole OrgRoles.OWNER with
      | None => _ ← when (negb shouldUpdateRole) (spawn grant); type_error
      | Some ownerRole =>
          _ ← (if shouldUpdateRole
               then _ ← par grant (par (deleteOrgRoles userId org) (updateUserOrgRole userId org [(r_id ownerRole, cr_id ownerRoleClient)])); mret tt
               else _ ← par grant (createUserOrgRole userId (r_id ownerRole) (Some org) (Some (cr_id ownerRoleClient))); mret tt);
          mret orgDetails
      end
  end.

(** [delete organizationDetails.lastChangedBy], ...: the columns that are not returned *)
Definition selected (o : organisation) : organisation :=
  Org (o_id o) (o_name o) (o_description o) None None (logoUrl o) (publicProfile o) (registrationNumber o)
    (idpId o) (clientId o) (clientSecret o) (o_createdBy o) "".

Definition exists_already : exn := conflict "An organization name is already exist".
Definition orgNotFound : string := "Organization does not exists".

Definition createOrganization (c : CreateOrganizationDto) (userId : string) (kc : option string) : eff world organisation :=
  rpc (
    userOrgCount ← userOrganizationCount userId;
    if at_org_limit userOrgCount then throw MaximumOrgsLimit else
    _ ← assertMarketplaceOrganizationLimit userId userOrgCount;
    organizationExist ← checkOrganizationNameExist (c_name c);
    match organizationExist with
    | Some _ => throw exists_already
    | None =>
        let orgSlug := createOrgSlug (c_name c) in
        isOrgSlugExist ← checkOrganizationSlugExist orgSlug;
        match isOrgSlugExist with
        | Some _ => throw exists_already
        | None =>
            logo ← (if isValidBase64 (c_logo c) then uploadFileToAzure (default "" (c_logo c)) else mret "");
            organizationDetails ← OrganizationRepository.createOrganization c orgSlug logo userId;
            _ ← try_catch
                  (orgCredentials ← registerToKeycloak (o_name organizationDetails) (o_id organizationDetails) kc userId false;
                   _ ← updateOrganizationById (OrgUpdate (Some (Some (c_idpId orgCredentials))) (Some (Some (c_clientId orgCredentials))) None)
                         (o_id organizationDetails);
                   mret tt)
                  (fun _ => throw (internal "Unable to create client"));
            _ ← (if truthy_str (c_notificationWebhook c)
                 then ask (NatsCall "register-org-webhook-endpoint-for-notification"
                        [o_id organizationDetails; default "" (c_notificationWebhook c)]) on_user_service
                 else mret tt);
            _ ← createActivity userId (o_id organizationDetails) (o_name organizationDetails +:+ " organization created")
                  "Get started with inviting users to join organization";
            mret (selected organizationDetails)
        end
    end).

Definition createOrgCredentials (org userId : string) (kc : option string) : eff world org_credentials :=
  rpc (
    found ← getOrganizationDetails org;
    match found with
    | None => throw (conflict orgNotFound)
    | Some o =>
        outcome ← (
          if truthy_str (idpId o) then
            match getUser userId with
            | None => type_error
            | Some u =>
                token ← managementToken u;
                secret ← ask (GenerateClientSecret (default "" (idpId o)) token) on_secret;
                masked ← lift (maskString secret);
                mret (secret, OrgUpdate None None (Some (Some masked)))
            end
          else
            try_catch
              (cred ← registerToKeycloak (o_name o) (o_id o) kc userId true;
               masked ← lift (maskString (c_clientSecret cred));
               mret (c_clientSecret cred, OrgUpdate (Some (Some (c_idpId cred))) (Some (Some (c_clientId cred))) (Some (Some masked))))
              (fun _ => throw (internal "Unable to create client")));
        updatedOrg ← updateOrganizationById outcome.2 org;
        mret (Credentials (default "" (idpId updatedOrg)) (default "" (clientId updatedOrg)) outcome.1)
    end).

(** The caller may be [undefined]; his client credentials are then too. *)
Definition deleteClientCredentials (org userId : string) : eff world string :=
  match getUser userId with
  | None => type_error
  | Some u =>
      token ← managementToken u;
      found ← getOrganizationDetails org;
      match found with
      | None => throw (not_found orgNotFound)
      | Some o =>
          _ ← try_catch
                (_ ← ask (DeleteClient (idpId o) token) on_keycloak;
                 _ ← updateOrganizationById (OrgUpdate (Some None) (Some None) (Some None)) org;
                 mret tt)
                (fun _ => throw (internal "Unable to delete client credentails"));
          mret "Organization client credentials deleted"
      end
  end.

Definition updateOrganization (u : IUpdateOrganization) (userId org : string) : eff world organisation :=
  rpc (
    organizationExist ← checkOrganizationNameExist (up_name u);
    if match organizationExist with Some o => negb (String.eqb (o_id o) org) | None => false end
    then throw exists_already else
    let slug := createOrgSlug (up_name u) in
    logo ← (if isValidBase64 (up_logo u) then l ← uploadFileToAzure (default "" (up_logo u)); mret (Some l) else mret None);
    agent ← getAgentInvitationDetails org;
    if negb (truthy_str (agent ≫= connectionInvitation)) && negb (truthy_str (agent ≫= ai_agentId)) then
      o ← OrganizationRepository.updateOrganization u slug userId logo;
      _ ← createActivity userId (o_id o) (o_name o +:+ " organization updated") "Organization details updated successfully";
      mret o
    else
      (* [organizationDetails] is still [undefined] *)
      _ ← (match organizationExist with
           | Some _ =>
               invitation ← ask (CreateConnectionInvitation logo (Some (up_name u)) org) on_invitation;
               updateConnectionInvitationDetails org invitation
           | None => mret tt
           end);
      type_error).

(** ** Invitations *)

Definition getUserByMail (email : string) : option user := first (fun u => bool_decide (u_email u = Some email)) users.

Definition userByMail (email : string) : eff world (option user) :=
  _ ← ask (NatsCall "get-user-by-mail" [email]) on_user_service; mret (getUserByMail email).

Definition checkUserExistInPlatform (email : string) : eff world bool :=
  u ← userByMail email; mret (match u with Some u => isEmailVerified u | None => false end).

Definition open_or_accepted (i : org_invitation) : bool :=
  bool_decide (i_status i = PENDING) || bool_decide (i_status i = ACCEPTED).

Definition checkInvitationExist (email org : string) : eff world bool :=
  rpc (l ← getOrgInvitations (Some email) org; mret (existsb open_or_accepted l)).

Definition emailSend : exn := internal "Unable to send email to the user".

Definition sendInviteEmailTemplate (email orgName : string) : eff world bool :=
  match emailFrom with
  | None => type_error
  | Some _ => ask (SendEmail (Some email) ("Invitation to join “" +:+ orgName +:+ "” on " +:+ template_str PLATFORM_NAME)) on_email
  end.

Record SendInvitationDto := SendDto { s_email : string; orgRoleId : list string }.

(** The end of each turn of both loops *)
Definition invite_one (email userEmail userId org orgName : string) (roleIds : list string) : eff world unit :=
  isInvitationExist ← checkInvitationExist email org;
  if negb isInvitationExist && negb (String.eqb userEmail email) then
    _ ← createSendInvitation (Some email) org userId roleIds;
    try_catch (_ ← sendInviteEmailTemplate email orgName; mret tt) (fun _ => throw emailSend)
  else mret tt.

Definition orgRoleIdNotFound : exn := not_found "Provided roles not exists for this organization".

Definition createInvitationByOrgRoles (invs : list SendInvitationDto) (org userEmail userId orgName : string) : eff world unit :=
  for_each invs (fun i =>
    _ ← checkUserExistInPlatform (s_email i);
    sender ← userByMail userEmail;
    match sender with
    | None => type_error
    | Some _ =>
        if bool_decide (getOrgRolesByIds (orgRoleId i) = []) then throw orgRoleIdNotFound
        else invite_one (s_email i) userEmail userId org orgName (orgRoleId i)
    end).

(** The roles of the client that were asked for *)
Definition matched_roles (ids : list string) (l : list client_role) : list client_role :=
  List.filter (fun r => existsb (String.eqb (Str.trim (cr_id r))) ids) l.

Definition createInvitationByClientRoles (invs : list SendInvitationDto) (org userEmail userId orgName idp : string) : eff world unit :=
  match getUser userId with
  | None => type_error
  | Some u =>
      token ← managementToken u;
      clientRolesList ← ask (AllClientRoles idp token) on_roles;
      for_each invs (fun i =>
        _ ← checkUserExistInPlatform (s_email i);
        sender ← userByMail userEmail;
        match sender with
        | None => type_error
        | Some _ =>
            let matchedRoles := map cr_name (matched_roles (orgRoleId i) clientRolesList) in
            if negb (Nat.eqb (length (orgRoleId i)) (length matchedRoles)) then throw orgRoleIdNotFound else
            let filteredOrgRoles := List.filter (fun r => existsb (String.eqb (Str.trim (r_name r))) matchedRoles) getOrgRoles in
            invite_one (s_email i) userEmail userId org orgName (map r_id filteredOrgRoles)
        end)
  end.

(** The addresses, trimmed and in lower case, that are new to the organization; the
    invitations are searched with the address as it was given. *)
Fixpoint newInviteEmails (invs : list SendInvitationDto) (org senderEmail : string) (acc : list string) : eff world (list string) :=
  match invs with
  | [] => mret acc
  | i :: invs' =>
      let email := Str.toLowerCase (Str.trim (s_email i)) in
      if String.eqb email "" || String.eqb email (Str.toLowerCase (Str.trim senderEmail)) then newInviteEmails invs' org senderEmail acc else
      isInvitationExist ← checkInvitationExist (s_email i) org;
      newInviteEmails invs' org senderEmail (if isInvitationExist || existsb (String.eqb email) acc then acc else (acc ++ [email])%list)
  end.

Definition assertMarketplaceUserLimitAllowsInvitations (invs : list SendInvitationDto) (org senderEmail : string) : eff world unit :=
  match limit_of (getMarketplaceMaxUsers org) with
  | None => mret tt
  | Some n =>
      emails ← newInviteEmails invs org senderEmail [];
      if bool_decide (emails = []) then mret tt else
      activeUsers ← getOrganizationUserCount org;
      pendingInvitations ← getPendingOrganizationInvitationCount org;
      if n <? activeUsers + pendingInvitations + Z.of_nat (length emails) then throw (user_limit_reached n) else mret tt
  end.

Definition createInvitation (invs : list SendInvitationDto) (org userId userEmail : string) : eff world string :=
  rpc (
    found ← getOrganizationDetails org;
    match found with
    | None => throw (not_found orgNotFound)
    | Some o =>
        _ ← assertMarketplaceUserLimitAllowsInvitations invs org userEmail;
        _ ← (if negb (truthy_str (idpId o)) then createInvitationByOrgRoles invs org userEmail userId (o_name o)
             else createInvitationByClientRoles invs org userEmail userId (o_name o) (default "" (idpId o)));
        _ ← createActivity userId (o_id o) ("Invitations sent for " +:+ o_name o)
              "Get started with user role management once invitations accepted";
        mret "Organization invitations sent"
    end).

Definition verifyInvitationPending (invitationId email : string) : eff world bool :=
  invitation ← getInvitationById invitationId;
  mret (match invitation with
        | Some i => bool_decide (i_status i = PENDING) &&
            match i_email i with Some e => String.eqb (Str.toLowerCase e) (Str.toLowerCase email) | None => false end
        | None => false
        end).

(** The first client role with the name of an organization role *)
Definition client_counterpart (l : list client_role) (r : org_role) : option (string * string) :=
  (fun c => (r_id r, cr_id c)) <$> first (fun c => String.eqb (cr_name c) (r_name r)) l.

Definition updateClientInvitation (i : org_invitation) (idp userId : string) (kc : option string) (org : string) (st : Invitation) : eff world unit :=
  match getUser userId with
  | None => type_error
  | Some u =>
      token ← managementToken u;
      clientRolesList ← ask (AllClientRoles idp token) on_roles;
      let orgRoleRows := getOrgRolesByIds (orgRoles i) in
      match mapM (client_counterpart clientRolesList) orgRoleRows with
      | None => _ ← spawn (updateInvitation (i_id i) st); type_error
      | Some rolesPayload =>
          let names := zip_with (fun p r => ClientRole p.2 (r_name r)) rolesPayload orgRoleRows in
          _ ← par (updateInvitation (i_id i) st)
                (par (ask (CreateUserClientRole idp token kc names) on_keycloak) (updateUserOrgRole userId org rolesPayload));
          mret tt
      end
  end.

Record UpdateInvitationDto := UpdateInvitation {
  ui_invitationId : string;
  ui_orgId : string;
  ui_status : Invitation;
  ui_userId : string;
  ui_keycloakUserId : option string;
  ui_email : option string;
}.

Definition transition (currentStatus nextStatus : Invitation) : bool :=
  match currentStatus with
  | PENDING => bool_decide (nextStatus = ACCEPTED) || bool_decide (nextStatus = REJECTED)
  | ACCEPTED | REJECTED => false
  end.

Definition status_text (st : Invitation) : string :=
  match st with ACCEPTED => "accepted" | REJECTED => "rejected" | PENDING => "pending" end.

Definition invitationNotFound : exn := not_found "Invitation not found for this user".

Definition updateOrgInvitation (p : UpdateInvitationDto) : eff world string :=
  rpc (
    invitation ← getInvitationById (ui_invitationId p);
    _ ← (if bool_decide (ui_status p = ACCEPTED) then
           userOrgCount ← userOrganizationCount (ui_userId p);
           if at_org_limit userOrgCount then throw MaximumOrgsLimit else
           _ ← assertMarketplaceOrganizationLimit (ui_userId p) userOrgCount;
           assertMarketplaceUserLimitAllowsAcceptance (ui_orgId p) (ui_userId p)
         else mret tt);
    match invitation with
    | None => throw invitationNotFound
    | Some i =>
        if negb (bool_decide (i_email i = ui_email p)) then throw invitationNotFound
        else if negb (String.eqb (i_orgId i) (ui_orgId p)) then throw (not_found "Organization does not exist") else
        found ← getOrganizationDetails (ui_orgId p);
        match found with
        | None => throw (conflict orgNotFound)
        | Some o =>
            if negb (transition (i_status i) (ui_status p))
            then throw (bad_request ("Status update is invalid. Request is already " +:+ status_text (i_status i)))
            else if bool_decide (ui_status p = REJECTED) then
              _ ← updateInvitation (ui_invitationId p) (ui_status p); mret "Organization invitation rejected"
            else
              _ ← (if truthy_str (idpId o)
                   then updateClientInvitation i (default "" (idpId o)) (ui_userId p) (ui_keycloakUserId p) (ui_orgId p) (ui_status p)
                   else _ ← updateInvitation (ui_invitationId p) (ui_status p);
                        for_each (orgRoles i) (fun roleId => createUserOrgRole (ui_userId p) roleId (Some (ui_orgId p)) None));
              mret "Organization invitation accepted"
        end
    end).

(** The user service answers for the user that is logged in: the address of the payload
    is the one of his row. *)
Definition acceptRejectInvitations (org invitationId : string) (st : Invitation) (userId : string) : eff world string :=
  rpc (
    total ← userOrganizationCount userId;
    if bool_decide (st = ACCEPTED) && at_org_limit total then throw MaximumOrgsLimit else
    match getUser userId with
    | None => type_error
    | Some u => updateOrgInvitation (UpdateInvitation invitationId org st userId (keycloakUserId u) (u_email u))
    end).

Definition deleteOrganizationInvitation (org invitationId : string) : eff world bool :=
  rpc (
    invitation ← getInvitationById invitationId;
    match invitation with
    | None => throw invitationNotFound
    | Some i =>
        if negb (String.eqb org (i_orgId i)) then throw (http_exn ForbiddenException "Organization does not have access to delete this invitation")
        else if negb (bool_decide (i_status i = PENDING)) then throw (bad_request "Unable to delete invitation with accepted/rejected status")
        else _ ← deleteInvitation invitationId; mret true
    end).

(** ** Roles of the members *)

Definition unable_to_update_roles : exn := internal "Unable to update user roles".

(** The first organization role with the name of a client role *)
Definition role_counterpart (l : list org_role) (c : client_role) : option (string * string) :=
  (fun r => (r_id r, cr_id c)) <$> first (fun r => String.eqb (r_name r) (cr_name c)) l.

Definition updateUserClientRoles (roleIds : list string) (idp userId org : string) : eff world bool :=
  match getUser userId with
  | None => type_error
  | Some u =>
      token ← managementToken u;
      clientRolesList ← ask (AllClientRoles idp token) on_roles;
      let matchedClientRoles := matched_roles roleIds clientRolesList in
      if negb (Nat.eqb (length roleIds) (length matchedClientRoles)) then throw orgRoleIdNotFound else
      _ ← ask (NatsCall "get-user-by-user-id" [userId]) on_user_service;
      deleted ← par (ask (DeleteUserClientRoles (Some idp) token (keycloakUserId u)) on_keycloak) (deleteOrgRoles userId org);
      if deleted.2 =? 0 then throw unable_to_update_roles else
      match mapM (role_counterpart getOrgRoles) matchedClientRoles with
      | None => type_error
      | Some rolesPayload =>
          updated ← par (ask (CreateUserClientRole idp token (keycloakUserId u) matchedClientRoles) on_keycloak)
                        (updateUserOrgRole userId org rolesPayload);
          mret updated.2
      end
  end.

Fixpoint spawn_roles (userId org : string) (roleIds : list string) : eff world unit :=
  match roleIds with
  | [] => mret tt
  | r :: roleIds' => _ ← spawn (createUserOrgRole userId r (Some org) None); spawn_roles userId org roleIds'
  end.

Definition updateUserRoles (org : string) (roleIds : list string) (userId : string) : eff world bool :=
  rpc (
    isUserExistForOrg ← checkUserOrgExist userId org;
    if negb isUserExistForOrg then throw (not_found "User not found for the given organization") else
    found ← getOrganizationDetails org;
    match found with
    | None => throw (not_found orgNotFound)
    | Some o =>
        if negb (truthy_str (idpId o)) then
          if bool_decide (getOrgRolesByIds roleIds = []) then throw (not_found "Provided roles not exists in the platform") else
          count ← deleteOrgRoles userId org;
          if count =? 0 then throw unable_to_update_roles else
          _ ← spawn_roles userId org roleIds;
          mret true
        else updateUserClientRoles roleIds (default "" (idpId o)) userId (o_id o)
    end).

(** ** Registration of the organizations without a client *)

(** A row of [user_org_roles] with its user and its role *)
Definition joined_roles (org : string) (t : list user_org_role) : list (user * org_role) :=
  omap (fun r => u ← getUser (ur_userId r); ro ← first (fun ro => String.eqb (r_id ro) (ur_orgRoleId r)) org_roles; Some (u, ro))
    (List.filter (role_of_org org) t).

Fixpoint map_users (idp token org : string) (clientRolesList : list client_role) (l : list (user * org_role)) (deleted : list string) : eff world unit :=
  match l with
  | [] => mret tt
  | (u, ro) :: l' =>
      let matched := List.filter (fun c => String.eqb (r_name ro) (cr_name c)) clientRolesList in
      deleted ← (if existsb (String.eqb (u_id u)) deleted then mret deleted else
        _ ← par (ask (DeleteUserClientRoles (Some idp) token (keycloakUserId u)) on_keycloak) (deleteOrgRoles (u_id u) org);
        mret (deleted ++ [u_id u])%list);
      _ ← par (ask (CreateUserClientRole idp token (keycloakUserId u) matched) on_keycloak)
            (updateUserOrgRole (u_id u) org (map (fun c => (r_id ro, cr_id c)) matched));
      map_users idp token org clientRolesList l' deleted
  end.

Definition register_one (o : organisation) (l : list (user * org_role)) : eff world unit :=
  match first (fun p => String.eqb (r_name p.2) OrgRoles.OWNER) l with
  | None => mret tt
  | Some (owner, _) =>
      if negb (truthy_str (keycloakUserId owner)) then mret tt else
      cred ← registerToKeycloak (o_name o) (o_id o) (keycloakUserId owner) (u_id owner) true;
      masked ← lift (maskString (c_clientSecret cred));
      _ ← updateOrganizationById (OrgUpdate (Some (Some (c_idpId cred))) (Some (Some (c_clientId cred))) (Some (Some masked))) (o_id o);
      token ← managementToken owner;
      clientRolesList ← ask (AllClientRoles (c_idpId cred) token) on_roles;
      map_users (c_idpId cred) token (o_id o) clientRolesList (List.filter (fun p => bool_decide (keycloakUserId p.1 <> None)) l) []
  end.

Definition registerOrgsMapUsers : eff world string :=
  rpc (
    unregisteredOrgsList ← getUnregisteredClientOrgs;
    t ← read user_org_roles;
    if bool_decide (unregisteredOrgsList = []) then throw (not_found "Unregistered client organizations not found") else
    _ ← for_each (map (fun o => (o, joined_roles (o_id o) t)) unregisteredOrgsList) (fun p => register_one p.1 p.2);
    mret "").

(** ** DIDs *)

Definition ensureOrganizationExists (org : string) : eff world unit :=
  found ← getOrgProfile org;
  match found with Some _ => mret tt | None => throw (not_found "Organization agent not found") end.

Definition ensureNotExistingPrimaryDid (org did : string) : eff world unit :=
  a ← getAgentEndPoint org;
  if bool_decide (orgDid a = Some did) then throw (conflict "This DID is already set to primary DID") else mret tt.

Definition didNotFound : exn := not_found "DID does not exist in organiation".

Definition ensureDidBelongsToOrg (org did : string) : eff world unit :=
  l ← getAllOrganizationDid org;
  if existsb (fun d => String.eqb (d_did d) did) l then mret tt else throw didNotFound.

Definition Not_Applicable : string := "NA".

Definition setPrimaryDid (org did id : string) : eff world string :=
  rpc (
    _ ← ensureOrganizationExists org;
    _ ← ensureNotExistingPrimaryDid org did;
    _ ← ensureDidBelongsToOrg org did;
    didDetails ← getDidDetailsByDid org did;
    if negb (String.eqb (d_id didDetails) id)
    then throw (bad_request "The provided id does not match the DID record for this did/orgId") else
    dids ← getAllOrganizationDid org;
    let noPrimaryDid := forallb (fun d => negb (isPrimaryDid d)) dids in
    network ← (match didLedgerNamespace (Some did) with
               | Some ns => getNetworkByNameSpace ns
               | None => getLedger Not_Applicable
               end);
    existingPrimaryDid ← (if negb noPrimaryDid then getPerviousPrimaryDid org id else mret None);
    _ ← setOrgsPrimaryDid org did id (d_didDocument didDetails) (Some (l_id network)) (d_id <$> existingPrimaryDid);
    mret "Primary DID updated successfully").

(** ** Deletion *)

(** An entry for every address, with nulls where it has no user *)
Definition usersByMail (emails : list (option string)) : eff world (list (option user)) :=
  _ ← ask (NatsCall "get-user-keycloak-id" (map (default "") emails)) on_user_service;
  mret (map (fun e => e ← e; getUserByMail e) emails).

(** [Promise.allSettled]: all run, and the number of those that failed is returned. *)
Fixpoint all_settled {A} (ms : list (eff world A)) : eff world nat :=
  match ms with
  | [] => mret 0%nat
  | m :: ms' => fun w =>
      let '(r, w1) := m w in
      match all_settled ms' w1 with
      | (Ok n, w2) => (Ok (if is_ok r then n else S n), w2)
      | x => x
      end
  end.

(** A query for the rows of the user [null] is refused. *)
Definition notify_removed (org orgName : string) (member : option user) : eff world unit :=
  match member with
  | None => throw prisma_validation
  | Some u =>
      _ ← getUserOrgRole (u_id u) org;
      match emailFrom with
      | None => type_error
      | Some _ => _ ← ask (SendEmail (u_email u) ("Removal of participation of “" +:+ orgName +:+ "”")) on_email; mret tt
      end
  end.

(** One message for every table from which rows were deleted *)
Definition deletion_log (org : string) (d : deletion) : list call :=
  omap (fun p => if (p.1 =? 0)%Z then None else Some (NatsCall "org-deleted-activity" [org; p.2; pretty p.1]))
    [(deletedUserActivity d, "user_activity"); (deletedUserOrgRole d, "user_org_roles"); (deletedOrgInvitations d, "org_invitations");
     (deletedNotification d, "notification"); (1, "organization")].

Definition deleteOrganization (org userId : string) : eff world organisation :=
  rpc (
    let caller := getUser userId in
    start ← par (ask (ManagementToken (caller ≫= u_clientId) (caller ≫= u_clientSecret)) on_token) (getOrganizationDetails org);
    match start.2 with
    | None => throw (not_found orgNotFound)
    | Some o =>
        invs ← getOrgInvitationsByOrg org;
        let arrayEmail := map i_email invs in
        members ← (if bool_decide (arrayEmail = []) then mret [] else usersByMail arrayEmail);
        let delete kc := ask (DeleteUserClientRoles (idpId o) start.1 kc) on_keycloak in
        failures ← all_settled (map (fun u => delete (u ≫= keycloakUserId)) members ++ [delete (caller ≫= keycloakUserId)])%list;
        if (0 <? failures)%nat then throw (not_found "Organization not found in keycloak") else
        members ← usersByMail arrayEmail;
        _ ← par_each members (notify_removed org (o_name o));
        d ← deleteOrg org;
        _ ← par_each (deletion_log org d) (fun c => ask c on_user_service);
        mret (deleteOrg_row d)
    end).

(** ** Reads *)

Definition fetchOrgCredentials (org : string) : eff world (string * option string) :=
  rpc (
    found ← getOrganizationDetails org;
    match found with
    | None => type_error
    | Some o => if truthy_str (clientId o) then mret (default "" (clientId o), clientSecret o)
        else throw (not_found "Organization does not have client credentials")
    end).

Definition getOrgPofile (org : string) : eff world organisation :=
  rpc (
    found ← getOrgProfile org;
    match found with
    | None => type_error
    | Some o => if truthy_str (logoUrl o) then mret o else throw (not_found "Organization profile not found")
    end).

Definition getPublicProfile (slug : string) : eff world organisation :=
  rpc (
    found ← getPublicOrganization slug;
    match found with Some o => mret o | None => throw (not_found "Organization public profile not found") end).

(** ** Messages *)

Inductive message :=
  | CreateOrganization (c : CreateOrganizationDto) (userId : string) (kc : option string)
  | SetPrimaryDid (org did id : string)
  | CreateOrgCredentials (org userId : string) (kc : option string)
  | UpdateOrganization (u : IUpdateOrganization) (userId org : string)
  | CreateInvitation (invs : list SendInvitationDto) (org userId userEmail : string)
  | AcceptReject (org invitationId : string) (st : Invitation) (userId : string)
  | UpdateUserRoles (org : string) (roleIds : list string) (userId : string)
  | RegisterOrgs
  | DeleteOrganization (org userId : string)
  | DeleteCredentials (org userId : string)
  | DeleteInvitation (org invitationId : string).

Definition handle (m : message) : eff world unit :=
  match m with
  | CreateOrganization c u kc => _ ← createOrganization c u kc; mret tt
  | SetPrimaryDid o d i => _ ← setPrimaryDid o d i; mret tt
  | CreateOrgCredentials o u kc => _ ← createOrgCredentials o u kc; mret tt
  | UpdateOrganization u i o => _ ← updateOrganization u i o; mret tt
  | CreateInvitation l o u e => _ ← createInvitation l o u e; mret tt
  | AcceptReject o i st u => _ ← acceptRejectInvitations o i st u; mret tt
  | UpdateUserRoles o l u => _ ← updateUserRoles o l u; mret tt
  | RegisterOrgs => _ ← registerOrgsMapUsers; mret tt
  | DeleteOrganization o u => _ ← deleteOrganization o u; mret tt
  | DeleteCredentials o u => _ ← deleteClientCredentials o u; mret tt
  | DeleteInvitation o i => _ ← deleteOrganizationInvitation o i; mret tt
  end.
End service.
