(* ===== verification/OrganizationInvariant.v ===== *)
(** * Organizations: the invariant

    Which computations only change the roles of some members, the invariant of the
    tables, and that every message keeps it. *)

From S2P Require Import Prelude Js Regex CommonUtils CastHelper Table MarketplaceData OrganizationData OrganizationRepository Organization.

Open Scope Z_scope.

Section laws.
Context {U : UuidSource} {P : Parties} {T : Platform}.

Lemma frames_all_settled R `{!Ambient R} {A} (ms : list (eff world A)) : Forall (fun m => frames R m) ms -> frames R (all_settled ms).
Proof.
  intros Hm. induction Hm as [|m ms Hm _ IH]; intros w; [by apply ambient_same|]. simpl. pose proof (Hm w) as H1. destruct (m w) as [r w1].
  pose proof (IH w1) as H2. destruct (all_settled ms w1) as [[n|e] w2]; simpl in *; by rewrite H1.
Qed.

(** ** Computations that touch the roles of some members only *)

(** The columns of an organization that identify it *)
Definition core (o : organisation) : string * string * option string * string := (o_id o, o_name o, orgSlug o, o_createdBy o).

(** From [w] to [w'] only roles of the pairs in [E] have been added; other rows of roles
    may be gone, and the columns of clients and secrets may have changed. *)
Record roles_only (E : string -> string -> Prop) (w w' : world) : Prop := RolesOnly {
  ro_core : core <$> organisations (db w') = core <$> organisations (db w);
  ro_invitations : invitations (db w') = invitations (db w);
  ro_drawn : (drawn w <= drawn w')%nat;
  ro_roles r : r ∈ user_org_roles (db w') -> r ∈ user_org_roles (db w) \/ forall o, ur_orgId r = Some o -> E (ur_userId r) o;
}.

#[local] Instance roles_only_ambient E : Ambient (roles_only E).
Proof.
  split; [split| |by intros w w' []].
  - intros w. split; auto.
  - intros w w1 w2 [] []. split; try congruence; [lia|].
    intros r [Hr|Hr]%ro_roles1; [by apply ro_roles0 | by right].
  - intros w w' H Hd. split; rewrite ?H; auto.
Qed.

Definition nobody (u o : string) : Prop := False.
Definition just (u o : string) (u' o' : string) : Prop := u' = u /\ o' = o.

Lemma roles_only_mono (E E' : string -> string -> Prop) w w' : (forall u o, E u o -> E' u o) -> roles_only E w w' -> roles_only E' w w'.
Proof. intros H []. split; try done. intros r [Hr|Hr]%ro_roles0; eauto. Qed.

Lemma quiet_any {A} E (m : eff world A) : frames (roles_only nobody) m -> frames (roles_only E) m.
Proof. apply frames_mono. intros w w'. by apply roles_only_mono. Qed.

Section touching.
Variable E : string -> string -> Prop.
Abbreviation quiet := (frames (roles_only E)).

(** *** The repository *)

Lemma core_update p f t : (forall o, core (f o) = core o) -> core <$> update_where p f t = core <$> t.
Proof. intros H. apply fmap_update_where. intros r _ _. apply H. Qed.

Lemma ro_updateById u org : quiet (updateOrganizationById u org).
Proof.
  intros w. unfold updateOrganizationById. rewrite run_bind. unfold read at 1, gets at 1. cbv beta iota.
  destruct (first (org_is org) _); [|done]. split; simpl; auto. by apply core_update.
Qed.

Lemma ro_createRole u role org idp : (forall o, org = Some o -> E u o) -> quiet (createUserOrgRole u role org idp).
Proof.
  intros HE w. unfold createUserOrgRole. rewrite run_bind. unfold read at 1, gets at 1. cbv beta iota zeta.
  destruct (_ && _); [|done]. split; simpl; try done; [lia|].
  intros r [Hr|Hr%list_elem_of_singleton]%elem_of_app; [by left|subst r; simpl].
  right. intros o. destruct (truthy_str org); [apply HE | done].
Qed.

Lemma ro_deleteRoles u org : quiet (deleteOrgRoles u org).
Proof. intros w. unfold deleteOrgRoles, remove. split; simpl; try done. intros r [Hr _]%elem_of_filter_b. by left. Qed.

Lemma ro_updateUserOrgRole u org l : E u org -> quiet (updateUserOrgRole u org l).
Proof.
  intros HE. induction l as [|[r i] l IH]; simpl; [apply frames_ret; exact _|].
  apply frames_bind; [exact _ | apply frames_spawn, ro_createRole; congruence | done].
Qed.

Lemma ro_spawn_roles u org l : E u org -> quiet (spawn_roles u org l).
Proof.
  intros HE. induction l as [|r l IH]; simpl; [apply frames_ret; exact _|].
  apply frames_bind; [exact _ | apply frames_spawn, ro_createRole; congruence | done].
Qed.

Lemma ro_activity u o a b : quiet (createActivity u o a b).
Proof.
  intros w. unfold createActivity. rewrite run_bind. unfold read at 1, gets at 1. cbv beta iota. case_match; [|done].
  split; simpl; auto.
Qed.

Lemma ro_connection o i : quiet (updateConnectionInvitationDetails o i).
Proof. intros w. split; simpl; auto. Qed.
End touching.
Hint Resolve ro_updateById ro_deleteRoles ro_activity ro_connection : platform.

(** *** The service *)

Section service_touching.
Variable E : string -> string -> Prop.
Abbreviation quiet := (frames (roles_only E)).

Lemma ro_register name org kc u b : E u org -> quiet (registerToKeycloak name org kc u b).
Proof.
  intros HE. pose proof (ro_updateUserOrgRole E u org) as Hu. pose proof (fun r i => ro_createRole E u r (Some org) i ltac:(congruence)).
  unfold registerToKeycloak, managementToken, type_error, when. solve_frames.
Qed.

Lemma ro_upload l : quiet (uploadFileToAzure l).
Proof. unfold uploadFileToAzure, rpc. solve_frames. Qed.

Lemma ro_orgLimit u n : quiet (assertMarketplaceOrganizationLimit u n).
Proof. unfold assertMarketplaceOrganizationLimit. solve_frames. Qed.

Lemma ro_checkInvitation e o : quiet (checkInvitationExist e o).
Proof. unfold checkInvitationExist, rpc, getOrgInvitations. solve_frames. Qed.

Lemma ro_details org : quiet (getOrganizationDetails org).
Proof. unfold getOrganizationDetails. solve_frames. Qed.
End service_touching.
Hint Resolve ro_upload ro_orgLimit ro_checkInvitation ro_details : platform.

(** ** The invariant *)

Definition drawn_id (w : world) (id : string) : Prop := exists n, (n < drawn w)%nat /\ id = uuid n.

(** An invitation addressed to the user. *)
Definition addressed (u : string) (i : org_invitation) : Prop := exists row, getUser u = Some row /\ i_email i = u_email row.

Definition listed (d : tables) (org by_ : string) : Prop := exists name slug, (org, name, slug, by_) ∈ core <$> organisations d.

(** The user created the organization, or accepted an invitation to it. *)
Definition admitted (d : tables) (u org : string) : Prop := exists by_, listed d org by_ /\
  (by_ = u \/ exists i, i ∈ invitations d /\ i_status i = ACCEPTED /\ i_orgId i = org /\ addressed u i).

Definition member (d : tables) (u org : string) : Prop := exists r, r ∈ user_org_roles d /\ ur_userId r = u /\ ur_orgId r = Some org.

Record inv (w : world) : Prop := Inv {
  i_org_ids : NoDup (o_id <$> organisations (db w));
  i_org_drawn o : o ∈ organisations (db w) -> drawn_id w (o_id o);
  i_org_names : NoDup (o_name <$> organisations (db w));
  i_inv_ids : NoDup (i_id <$> invitations (db w));
  i_inv_drawn i : i ∈ invitations (db w) -> drawn_id w (i_id i);
  i_inv_org i : i ∈ invitations (db w) -> drawn_id w (i_orgId i);
  i_members u org : member (db w) u org -> admitted (db w) u org;
}.

(** From [w] to [w'], which satisfies the invariant again: an answered invitation stays as
    it is while its organization exists, and no organization comes back. *)
Record good (w w' : world) : Prop := Good {
  g_inv : inv w';
  g_drawn : (drawn w <= drawn w')%nat;
  g_back o : o ∈ organisations (db w') -> drawn_id w (o_id o) -> exists o0, o0 ∈ organisations (db w) /\ o_id o0 = o_id o;
  g_final i : i ∈ invitations (db w) -> i_status i <> PENDING ->
    i ∈ invitations (db w') \/ ~ exists o, o ∈ organisations (db w') /\ o_id o = i_orgId i;
}.

Definition sound (w w' : world) : Prop := inv w -> good w w'.

Lemma org_drawn_mono w w' id : (drawn w <= drawn w')%nat -> drawn_id w id -> drawn_id w' id.
Proof. intros H (n & Hn & ->). exists n. split; [lia | done]. Qed.

Lemma org_fresh_new w : ~ drawn_id w (uuid (drawn w)).
Proof. intros (n & Hn & H%(inj uuid)). lia. Qed.

#[local] Instance sound_preorder : PreOrder sound.
Proof.
  split; [intros w Hw; split; naive_solver|]. intros w w1 w2 H1 H2 Hw. specialize (H1 Hw). specialize (H2 (g_inv _ _ H1)).
  split; [apply H2 | destruct H1, H2; lia | |].
  - intros o Ho Hd. destruct (g_back _ _ H2 o Ho (org_drawn_mono _ _ _ (g_drawn _ _ H1) Hd)) as (o1 & Ho1 & E). rewrite <- E in *.
    by apply (g_back _ _ H1).
  - intros i Hi Hst. destruct (g_final _ _ H1 i Hi Hst) as [Hi1|Hno]; [by apply (g_final _ _ H2)|].
    right. intros (o & Ho & E). apply Hno.
    destruct (g_back _ _ H2 o Ho) as (o1 & Ho1 & E1); [|exists o1; by rewrite E1].
    rewrite E. apply (org_drawn_mono w); [apply H1 | by apply (i_inv_org _ Hw)].
Qed.

Lemma admitted_mono d d' u org : core <$> organisations d' = core <$> organisations d ->
  (forall i, i ∈ invitations d -> i_status i = ACCEPTED -> i ∈ invitations d') -> admitted d u org -> admitted d' u org.
Proof.
  intros Hc Hi (by_ & Hl & Ha). exists by_. unfold listed. rewrite Hc. split; [done|].
  destruct Ha as [?|(i & ? & ? & ? & ?)]; [by left | right; exists i; auto].
Qed.

Lemma core_ids d d' : core <$> organisations d' = core <$> organisations d ->
  o_id <$> organisations d' = o_id <$> organisations d /\ o_name <$> organisations d' = o_name <$> organisations d.
Proof.
  intros H. split.
  - change o_id with ((fun c : string * string * option string * string => c.1.1.1) ∘ core). by rewrite !list_fmap_compose, H.
  - change o_name with ((fun c : string * string * option string * string => c.1.1.2) ∘ core). by rewrite !list_fmap_compose, H.
Qed.

Lemma same_ids (l l' : list organisation) id : o_id <$> l' = o_id <$> l -> (exists o, o ∈ l /\ o_id o = id) -> exists o, o ∈ l' /\ o_id o = id.
Proof.
  intros H (o & Ho & <-). assert (Hin : o_id o ∈ o_id <$> l') by (rewrite H; apply list_elem_of_fmap; eauto).
  apply list_elem_of_fmap in Hin as (o' & ? & ?). eauto.
Qed.

(** *** The step of an invitation, with the roles it brings

    The rows of the invitations are [f] of what they were: either the same, or an answer
    to one that was pending. *)
Record answered (E : string -> string -> Prop) (f : org_invitation -> org_invitation) (w w' : world) : Prop := Answered {
  an_core : core <$> organisations (db w') = core <$> organisations (db w);
  an_invitations : invitations (db w') = map f (invitations (db w));
  an_drawn : (drawn w <= drawn w')%nat;
  an_roles r : r ∈ user_org_roles (db w') -> r ∈ user_org_roles (db w) \/ forall o, ur_orgId r = Some o -> E (ur_userId r) o;
}.

Definition answers (f : org_invitation -> org_invitation) (l : list org_invitation) : Prop := forall i, i ∈ l ->
  i_id (f i) = i_id i /\ i_orgId (f i) = i_orgId i /\ i_email (f i) = i_email i /\ (i_status i <> PENDING -> f i = i).

Lemma good_answered E f w w' : answered E f w w' -> answers f (invitations (db w)) ->
  (inv w -> forall u o, E u o -> admitted (db w') u o) -> sound w w'.
Proof.
  intros [] Hf HE Hw. destruct (core_ids _ _ an_core0) as [Hids Hnames].
  assert (Hkept : forall i, i ∈ invitations (db w) -> i_status i <> PENDING -> i ∈ invitations (db w')).
  { intros i Hi Hst. rewrite an_invitations0. apply list_elem_of_fmap. exists i. split; [|done]. symmetry. by apply Hf. }
  assert (Hback : forall o, o ∈ organisations (db w') -> exists o0, o0 ∈ organisations (db w) /\ o_id o0 = o_id o).
  { intros o Ho. apply (same_ids (organisations (db w'))); eauto. }
  specialize (HE Hw). destruct Hw. split; [split| |by auto|auto].
  - by rewrite Hids.
  - intros o (o' & Ho' & <-)%Hback. eapply org_drawn_mono; eauto.
  - by rewrite Hnames.
  - assert (i_id <$> invitations (db w') = i_id <$> invitations (db w)) as ->; [|done].
    rewrite an_invitations0. change (map f (invitations (db w))) with (f <$> invitations (db w)). rewrite <- list_fmap_compose.
    apply list_fmap_ext. intros n i Hi%list_elem_of_lookup_2. by apply Hf.
  - intros i. rewrite an_invitations0. intros (i0 & -> & Hi)%list_elem_of_fmap. destruct (Hf i0 Hi) as (-> & _). eapply org_drawn_mono; eauto.
  - intros i. rewrite an_invitations0. intros (i0 & -> & Hi)%list_elem_of_fmap. destruct (Hf i0 Hi) as (_ & -> & _). eapply org_drawn_mono; eauto.
  - intros u org (r & Hr & <- & Ho). apply an_roles0 in Hr as [Hr|Hr]; [|by apply HE, Hr].
    apply (admitted_mono (db w)); [done| |apply i_members0; by exists r]. intros i Hi Hst. apply Hkept; [done | by rewrite Hst].
  - done.
Qed.

Lemma sound_touch E w w' : roles_only E w w' -> (inv w -> forall u o, E u o -> admitted (db w) u o) -> sound w w'.
Proof.
  intros [] HE Hw. apply (good_answered E id); [|by intros i _|intros Hw' u o Hu|done].
  - split; try done. by rewrite ro_invitations0, map_id.
  - eapply admitted_mono; [done| |by eapply HE]. by rewrite ro_invitations0.
Qed.

Lemma sound_run E {A} (m : eff world A) w : frames (roles_only E) m -> (inv w -> forall u o, E u o -> admitted (db w) u o) -> sound w (m w).2.
Proof. intros Hm. apply sound_touch, Hm. Qed.

Lemma sound_quiet {A} (m : eff world A) : frames (roles_only nobody) m -> frames sound m.
Proof. intros Hm w. by apply (sound_run nobody). Qed.

(** A sequence that starts with a computation of the last section *)
Lemma after_quiet {A B} (m : eff world A) (k : A -> eff world B) w : frames (roles_only nobody) m ->
  (forall a w1, m w = (Ok a, w1) -> roles_only nobody w w1 -> sound w1 (k a w1).2) -> sound w ((m ≫= k) w).2.
Proof.
  intros Hm Hk. apply (after_frame (roles_only nobody)); [done | intros w1 Hw1; by apply (sound_touch nobody)|].
  intros a w1 E Hw1. transitivity w1; [by apply (sound_touch nobody) | by apply Hk].
Qed.

Ltac quiet a w E H := apply after_quiet; [solve_frames | intros a w E H].

(** *** Creation and update of an organization *)

Lemma core_listed d o : o ∈ organisations d -> listed d (o_id o) (o_createdBy o).
Proof. intros Ho. exists (o_name o), (orgSlug o). apply list_elem_of_fmap. by exists o. Qed.

Lemma sound_create c slug logo u w : (forall o, o ∈ organisations (db w) -> o_name o <> c_name c) ->
  sound w (OrganizationRepository.createOrganization c slug logo u w).2 /\
  forall o, (OrganizationRepository.createOrganization c slug logo u w).1 = Ok o ->
    listed (db (OrganizationRepository.createOrganization c slug logo u w).2) (o_id o) u.
Proof.
  intros Hn. unfold OrganizationRepository.createOrganization. rewrite run_bind. unfold read at 1 2 3, gets at 1 2 3. cbv beta iota.
  destruct (existsb _ _); [by split|]. simpl. split.
  2:{ intros o [= <-]. exists (c_name c), (Some slug). simpl. rewrite fmap_app. apply elem_of_app. right. by left. }
  intros []. split; [split| | |]; simpl.
  - rewrite fmap_app. apply NoDup_app. split_and!; [done| |apply NoDup_singleton].
    intros x (o & -> & Ho)%list_elem_of_fmap Hx%list_elem_of_singleton. apply (org_fresh_new w). simpl in Hx. rewrite <- Hx. by apply i_org_drawn0.
  - intros o [Ho|Ho%list_elem_of_singleton]%elem_of_app.
    + apply (org_drawn_mono w); [simpl; lia | by apply i_org_drawn0].
    + subst o. exists (drawn w). simpl. split; [lia | done].
  - rewrite fmap_app. apply NoDup_app. split_and!; [done| |apply NoDup_singleton].
    intros x (o & -> & Ho)%list_elem_of_fmap Hx%list_elem_of_singleton. by apply (Hn o).
  - done.
  - intros i Hi. apply (org_drawn_mono w); [simpl; lia | by apply i_inv_drawn0].
  - intros i Hi. apply (org_drawn_mono w); [simpl; lia | by apply i_inv_org0].
  - intros x org (by_ & (n & s & Hl) & Ha)%i_members0. exists by_. split; [|done]. exists n, s. simpl. rewrite fmap_app. apply elem_of_app. by left.
  - lia.
  - intros o [Ho|Ho%list_elem_of_singleton]%elem_of_app Hd; [by exists o|].
    subst o. by apply org_fresh_new in Hd.
  - intros i Hi _. by left.
Qed.

Lemma sound_createOrganization c u kc w : sound w (createOrganization c u kc w).2.
Proof.
  unfold createOrganization. rewrite rpc_state.
  quiet n w1 E1 H1. destruct (at_org_limit n); [done|]. quiet x w2 E2 H2. quiet found w3 E3 H3. injection E3 as E3 <-.
  destruct found; [done|]. quiet found w4 E4 H4. destruct found; [done|].
  quiet logo w5 E5 H5. rewrite run_bind.
  destruct (sound_create c (createOrgSlug (c_name c)) logo u w5) as [Hs Hl].
  { intros o Ho Heq. assert (Hin : o_name o ∈ o_name <$> organisations (db w2)).
    { destruct (core_ids (db w2) (db w5)) as [_ <-]; [|apply list_elem_of_fmap; eauto]. rewrite (ro_core _ _ _ H5). apply (ro_core _ _ _ H4). }
    apply list_elem_of_fmap in Hin as (o' & Ho' & Hin). eapply first_None in E3; [|exact Hin].
    apply String.eqb_neq in E3. congruence. }
  destruct (OrganizationRepository.createOrganization _ _ _ _ w5) as [[o|e] w6]; [|done]. simpl in Hs, Hl.
  transitivity w6; [done|]. specialize (Hl o eq_refl).
  pose proof (fun b => ro_register (just u (o_id o)) (o_name o) (o_id o) kc u b ltac:(done)).
  apply (sound_run (just u (o_id o))); [solve_frames|]. intros _ y z [-> ->]. exists u. split; [done | by left].
Qed.


(** Renaming one row keeps the names apart when no other row has the name. *)
Lemma NoDup_rename {A} (key name : A -> string) id f (t : list A) : NoDup (key <$> t) -> NoDup (name <$> t) ->
  (forall r r', r ∈ t -> r' ∈ t -> key r <> id -> key r' = id -> name r <> name (f r')) ->
  NoDup (name <$> update_where (fun r => String.eqb (key r) id) f t).
Proof.
  induction t as [|r t IH]; intros Hk Hnd Hn; [constructor|]. apply NoDup_cons in Hk as [Hk Hk'], Hnd as [Hr Hnd].
  simpl. constructor; [|apply IH; [done..|]; intros; apply Hn; by try right].
  intros (x & E & (r0 & Hr0 & ->)%elem_of_update_where)%list_elem_of_fmap.
  destruct (String.eqb_spec (key r) id) as [Ek|Ek], (String.eqb_spec (key r0) id) as [Ek0|Ek0].
  - apply Hk, list_elem_of_fmap. exists r0. split; [congruence | done].
  - apply (Hn r0 r); [by right | left | done..].
  - apply (Hn r r0); [left | by right | done..].
  - apply Hr, list_elem_of_fmap. by exists r0.
Qed.

Lemma sound_rename u slug i logo w :
  (inv w -> forall o, o ∈ organisations (db w) -> o_id o <> up_orgId u -> o_name o <> up_name u) ->
  sound w (OrganizationRepository.updateOrganization u slug i logo w).2.
Proof.
  intros Hn. unfold OrganizationRepository.updateOrganization. rewrite run_bind. unfold read at 1, gets at 1. cbv beta iota.
  destruct (first _ _) as [row|]; [|done]. destruct (existsb _ _); [done|]. simpl.
  set (t' := update_where _ _ _). assert (Hids : o_id <$> t' = o_id <$> organisations (db w)) by by apply fmap_update_where.
  assert (Hadm : forall x org, admitted (db w) x org -> admitted (set_organisations t' (db w)) x org).
  { intros x org (by_ & (n & s & (o' & Ho' & Hin)%list_elem_of_fmap) & Ha). exists by_. split; [|done].
    set (o2 := if org_is (up_orgId u) o' then updated u slug i logo o' else o').
    exists (o_name o2), (orgSlug o2). simpl. apply list_elem_of_fmap. exists o2.
    split; [unfold o2; destruct (org_is _ _); unfold core in *; simpl in *; congruence | apply elem_of_update_where; eauto]. }
  intros Hw. specialize (Hn Hw). destruct Hw. split; [split| | |]; simpl; try done.
  - by rewrite Hids.
  - intros o Ho. destruct (same_ids t' (organisations (db w)) (o_id o)) as (o' & ? & <-); [done|eauto|]. by apply i_org_drawn0.
  - apply NoDup_rename; [done..|]. intros r r' Hr _ E _. by apply Hn.
  - intros x org Hm. by apply Hadm, i_members0.
  - intros o' Ho _. apply (same_ids t'); eauto.
  - intros j Hj _. by left.
Qed.

Lemma sound_updateOrganization u i org w : up_orgId u = org -> sound w (updateOrganization u i org w).2.
Proof.
  intros <-. unfold updateOrganization. rewrite rpc_state.
  quiet found w1 E1 H1. injection E1 as E1 <-. clear H1. destruct (match found with Some _ => _ | None => _ end) eqn:Ef; [done|].
  quiet logo w2 E2 H2. quiet agent w3 E3 H3. destruct (_ && _); [|apply sound_quiet; destruct found; solve_frames].
  rewrite run_bind. pose proof (sound_rename u (createOrgSlug (up_name u)) i logo w3) as Hs.
  destruct (OrganizationRepository.updateOrganization _ _ _ _ w3) as [[o|e] w4]; simpl in Hs.
  1: transitivity w4; [|apply sound_quiet; solve_frames].
  all: apply Hs; intros Hw3 o' Ho' Hid Hname.
  all: assert (Hc : core <$> organisations (db w3) = core <$> organisations (db w)) by by rewrite (ro_core _ _ _ H3), (ro_core _ _ _ H2).
  all: assert (Hin : core o' ∈ core <$> organisations (db w)) by (rewrite <- Hc; apply list_elem_of_fmap; eauto).
  all: apply list_elem_of_fmap in Hin as (o1 & Hcore & Ho1); injection Hcore as Hid1 Hname1 _ _.
  all: destruct found as [f|]; [apply first_Some in E1 as [Hf E1]; apply String.eqb_eq in E1 |
    apply (proj1 (first_None _ _) E1 o1), String.eqb_neq in Ho1; congruence].
  all: apply negb_false_iff, String.eqb_eq in Ef; assert (f = o1) as ->; [|congruence].
  all: apply (unique_key o_name (organisations (db w))); [|done|done|congruence].
  all: destruct (core_ids _ _ Hc) as [_ <-]; apply Hw3.
Qed.

(** *** Invitations *)

Lemma sound_createSendInvitation e org u l : frames sound (createSendInvitation e org u l).
Proof.
  intros w. unfold createSendInvitation. rewrite run_bind. unfold read at 1, gets at 1. cbv beta iota.
  destruct (existsb _ _ && existsb _ _) eqn:E; [|done]. simpl.
  apply andb_true_iff in E as [_ (o & Ho & Ho')%existsb_elem]. apply String.eqb_eq in Ho'. simpl in Ho.
  intros []. split; [split| | |]; simpl; try done.
  - intros o' Ho2. apply (org_drawn_mono w); [simpl; lia | by apply i_org_drawn0].
  - rewrite fmap_app. apply NoDup_app. split_and!; [done| |apply NoDup_singleton].
    intros x (i & -> & Hi)%list_elem_of_fmap Hx%list_elem_of_singleton. apply (org_fresh_new w). simpl in Hx. rewrite <- Hx. by apply i_inv_drawn0.
  - intros i [Hi|Hi%list_elem_of_singleton]%elem_of_app.
    + apply (org_drawn_mono w); [simpl; lia | by apply i_inv_drawn0].
    + subst i. exists (drawn w). simpl. split; [lia | done].
  - intros i [Hi|Hi%list_elem_of_singleton]%elem_of_app; (apply (org_drawn_mono w); [simpl; lia|]).
    + by apply i_inv_org0.
    + subst i. simpl. rewrite <- Ho'. by apply i_org_drawn0.
  - intros x org' Hm. eapply (admitted_mono (db w)); [done| |by apply i_members0]. intros i Hi _. apply elem_of_app. by left.
  - lia.
  - by intros o' Ho2 _; exists o'.
  - intros i Hi _. left. apply elem_of_app. by left.
Qed.

Lemma quiet_sound {A} (m : eff world A) : frames (roles_only nobody) m -> frames sound m.
Proof. apply sound_quiet. Qed.
Hint Resolve quiet_sound sound_createSendInvitation : platform.

Lemma sound_createInvitation l org u e w : sound w (createInvitation l org u e w).2.
Proof.
  assert (Hone : forall a b c d f g, frames sound (invite_one a b c d f g)).
  { intros. unfold invite_one, sendInviteEmailTemplate, type_error. solve_frames. }
  assert (Hnew : forall l' acc, frames (roles_only nobody) (newInviteEmails l' org e acc)).
  { induction l' as [|i l' IH]; intros acc; simpl; solve_frames; apply IH. }
  unfold createInvitation, assertMarketplaceUserLimitAllowsInvitations, createInvitationByOrgRoles, createInvitationByClientRoles,
    managementToken, checkUserExistInPlatform, userByMail, type_error.
  rewrite rpc_state. revert w. fold (frames (A := string) sound). solve_frames.
Qed.

Lemma sound_deleteInvitation w i : first (invitation_is (i_id i)) (invitations (db w)) = Some i -> i_status i = PENDING ->
  sound w (deleteInvitation (i_id i) w).2.
Proof.
  intros Hf Hp. unfold deleteInvitation. rewrite run_bind. unfold read at 1, gets at 1. cbv beta iota. rewrite Hf. simpl.
  set (l := List.filter _ _). assert (Hl : forall j, j ∈ l -> j ∈ invitations (db w)) by by intros j [? _]%elem_of_filter_b.
  intros []. assert (Hkept : forall j, j ∈ invitations (db w) -> i_status j <> PENDING -> j ∈ l).
  { intros j Hj Hst. apply elem_of_filter_b. split; [done|]. apply negb_true_iff, String.eqb_neq. intros Hid. apply Hst.
    apply first_Some in Hf as [Hi _]. by rewrite (unique_key i_id _ j i i_inv_ids0 Hj Hi Hid). }
  split; [split| | |]; simpl; auto.
  - by apply NoDup_filter_key.
  - intros j Hj. by apply i_inv_drawn0, Hl.
  - intros j Hj. by apply i_inv_org0, Hl.

  - intros x org Hm. apply (admitted_mono (db w)); [done| |by apply i_members0]. intros j Hj Hst. apply Hkept; [done | by rewrite Hst].
  - by intros o Ho _; exists o.
Qed.

Lemma sound_deleteOrganizationInvitation org id w : sound w (deleteOrganizationInvitation org id w).2.
Proof.
  unfold deleteOrganizationInvitation. rewrite rpc_state. quiet i w1 E H. injection E as E <-. clear H.
  destruct i as [i|]; [|done]. destruct (negb _); [done|]. destruct (bool_decide _) eqn:Hp; [|done]. apply bool_decide_eq_true in Hp.
  pose proof (first_Some _ _ _ E) as [_ Hid]. apply String.eqb_eq in Hid as <-.
  cbn [negb]. rewrite run_bind. pose proof (sound_deleteInvitation w i E Hp) as Hs. by destruct (deleteInvitation _ w) as [[[]|e] w1].
Qed.

(** The answer to one invitation *)
Definition answer (id : string) (st : Invitation) (i : org_invitation) : org_invitation :=
  if invitation_is id i then set_status st i else i.

Lemma updateInvitation_run id st w i : first (invitation_is id) (invitations (db w)) = Some i ->
  updateInvitation id st w = (Ok tt, set_db (set_invitations (map (answer id st) (invitations (db w))) (db w)) w).
Proof. intros E. unfold updateInvitation. rewrite run_bind. unfold read, gets. by rewrite E. Qed.

Section answering.
Variables (w : world) (i : org_invitation) (st : Invitation) (E : string -> string -> Prop).
Hypothesis found : first (invitation_is (i_id i)) (invitations (db w)) = Some i.
Hypothesis pending : i_status i = PENDING.
Hypothesis accepted : forall u o, E u o -> st = ACCEPTED /\ o = i_orgId i /\ addressed u i /\ exists by_, listed (db w) o by_.

Lemma answers_one : NoDup (i_id <$> invitations (db w)) -> answers (answer (i_id i) st) (invitations (db w)).
Proof using found pending.
  intros Hnd j Hj. unfold answer, invitation_is. destruct (String.eqb_spec (i_id j) (i_id i)) as [Hid|]; [|done].
  apply first_Some in found as [Hi _]. rewrite (unique_key i_id _ j i Hnd Hj Hi Hid). by rewrite pending.
Qed.

Lemma sound_answered w' : answered E (answer (i_id i) st) w w' -> sound w w'.
Proof using All.
  intros H Hw. apply (good_answered E (answer (i_id i) st)); [done|apply answers_one, Hw| |done].
  intros _ u o (-> & -> & Ha & by_ & Hl)%accepted. exists by_. unfold listed. rewrite (an_core _ _ _ _ H). split; [done|]. right.
  exists (set_status ACCEPTED i). split_and!; [|done..]. rewrite (an_invitations _ _ _ _ H). apply list_elem_of_fmap. exists i.
  split; [|by apply first_Some in found as [? _]]. unfold answer, invitation_is. by rewrite String.eqb_refl.
Qed.

(** The roles come after the answer, or before it. *)
Lemma sound_answer_then {A} (m : eff world A) : frames (roles_only E) m -> sound w ((_ ← updateInvitation (i_id i) st; m) w).2.
Proof using All.
  intros Hm. rewrite run_bind, (updateInvitation_run _ _ _ i) by done. apply sound_answered.
  specialize (Hm (set_db (set_invitations (map (answer (i_id i) st) (invitations (db w))) (db w)) w)). by destruct Hm.
Qed.

Lemma sound_answer_par {A} (m : eff world A) : frames (roles_only E) m -> sound w (par (updateInvitation (i_id i) st) m w).2.
Proof using All.
  intros Hm. unfold par, tick. cbv beta iota. set (w0 := World _ _ _ _ _ _). destruct (schedule (ticks w)); cbv iota.
  - rewrite (updateInvitation_run _ _ w0 i) by done.
    set (w1 := set_db _ _). specialize (Hm w1). destruct (m w1) as [r w2]. apply sound_answered. by destruct Hm.
  - specialize (Hm w0). destruct (m w0) as [r w1]. simpl in Hm. destruct Hm.
    rewrite (updateInvitation_run _ _ w1 i) by by rewrite ro_invitations0. apply sound_answered. split; simpl; [done| |done|done].
    by rewrite ro_invitations0.
Qed.
End answering.

Lemma getOrganizationDetails_run org o w w' : getOrganizationDetails org w = (Ok (Some o), w') ->
  w' = w /\ o ∈ organisations (db w) /\ o_id o = org.
Proof.
  unfold getOrganizationDetails. destruct (String.eqb org ""); [done|]. intros [= H <-].
  by apply first_Some in H as [? ?%String.eqb_eq].
Qed.

Lemma ro_userLimit org u : frames (roles_only nobody) (assertMarketplaceUserLimitAllowsAcceptance org u).
Proof. unfold assertMarketplaceUserLimitAllowsAcceptance. solve_frames. Qed.
Hint Resolve ro_userLimit : platform.

Lemma sound_updateClientInvitation w i idp u kc org st :
  first (invitation_is (i_id i)) (invitations (db w)) = Some i -> i_status i = PENDING -> st = ACCEPTED -> i_orgId i = org ->
  addressed u i -> (exists by_, listed (db w) org by_) -> sound w (updateClientInvitation i idp u kc org st w).2.
Proof.
  intros Hf Hp -> Ho Ha [by_ Hl]. unfold updateClientInvitation, managementToken. destruct (getUser u) as [row|]; [|done].
  quiet token w1 E1 H1. quiet roles w2 E2 H2.
  assert (Hf2 : first (invitation_is (i_id i)) (invitations (db w2)) = Some i) by by rewrite (ro_invitations _ _ _ H2), (ro_invitations _ _ _ H1).
  assert (HE : forall u' o', just u org u' o' -> ACCEPTED = ACCEPTED /\ o' = i_orgId i /\ addressed u' i /\ exists by_, listed (db w2) o' by_).
  { intros u' o' [-> ->]. split_and!; [done..|]. exists by_. unfold listed. by rewrite (ro_core _ _ _ H2), (ro_core _ _ _ H1). }
  destruct (mapM _ _) as [payload|].
  - rewrite run_bind. pose proof (ro_updateUserOrgRole (just u org) u org payload ltac:(done)) as Hr.
    match goal with |- sound _ (match ?m ?w with _ => _ end).2 => assert (Hs : sound w (m w).2) end.
    { apply (sound_answer_par w2 i ACCEPTED (just u org)); [done..|]. solve_frames. }
    by destruct (par _ _ w2) as [[?|?] ?].
  - rewrite run_bind. unfold spawn. rewrite (updateInvitation_run _ _ w2 i) by done.
    apply (sound_answered w2 i ACCEPTED nobody); [done..|]. split; simpl; auto.
Qed.

Lemma sound_updateOrgInvitation p w : (forall i, i_email i = ui_email p -> addressed (ui_userId p) i) -> sound w (updateOrgInvitation p w).2.
Proof.
  intros Hemail. unfold updateOrgInvitation. rewrite rpc_state. quiet found w1 E1 H1. injection E1 as E1 <-. clear H1.
  quiet t w1 Et H1. destruct found as [i|]; [|done].
  destruct (bool_decide_reflect (i_email i = ui_email p)) as [Hm|]; [|done]. apply Hemail in Hm. cbn [negb].
  destruct (String.eqb_spec (i_orgId i) (ui_orgId p)) as [Ho|]; [|done]. cbn [negb].
  quiet found w2 E2 H2. destruct found as [o|]; [|done]. apply getOrganizationDetails_run in E2 as (-> & Hin & Hid).
  destruct (transition _ _) eqn:Ht; [|done]. cbn [negb].
  assert (Hp : i_status i = PENDING) by by destruct (i_status i).
  assert (Hf : first (invitation_is (i_id i)) (invitations (db w1)) = Some i).
  { rewrite (ro_invitations _ _ _ H1). pose proof (first_Some _ _ _ E1) as [_ Hi]. by apply String.eqb_eq in Hi as ->. }
  pose proof (first_Some _ _ _ E1) as [_ Hi]. apply String.eqb_eq in Hi as <-.
  assert (Hl : exists by_, listed (db w1) (ui_orgId p) by_) by (exists (o_createdBy o); rewrite <- Hid; by apply core_listed).
  destruct (bool_decide_reflect (ui_status p = REJECTED)) as [Hst|Hst].
  - apply (sound_answer_then w1 i (ui_status p) nobody); [done..|]. solve_frames.
  - assert (Hacc : ui_status p = ACCEPTED) by by rewrite Hp in Ht; destruct (ui_status p).
    rewrite run_bind. destruct (truthy_str (idpId o)).
    + match goal with |- sound _ (match ?m ?w with _ => _ end).2 => assert (Hs : sound w (m w).2) by by apply sound_updateClientInvitation end.
      by destruct (updateClientInvitation _ _ _ _ _ _ w1) as [[?|?] ?].
    + match goal with |- sound _ (match ?m ?w with _ => _ end).2 => assert (Hs : sound w (m w).2) end.
      { apply (sound_answer_then w1 i (ui_status p) (just (ui_userId p) (ui_orgId p))); [done|done| |].
        - by intros u' o' [-> ->].
        - pose proof (fun r => ro_createRole (just (ui_userId p) (ui_orgId p)) (ui_userId p) r (Some (ui_orgId p)) None ltac:(by intros ? [= <-])).
          solve_frames. }
      by match goal with |- sound _ (match ?m with _ => _ end).2 => destruct m as [[?|?] ?] end.
Qed.

Lemma sound_acceptReject org id st u w : sound w (acceptRejectInvitations org id st u w).2.
Proof.
  unfold acceptRejectInvitations. rewrite rpc_state. quiet n w1 En H1. destruct (_ && _); [done|].
  destruct (getUser u) as [row|] eqn:Hu; [|done]. apply sound_updateOrgInvitation. intros i Hi. by exists row.
Qed.

(** *** Roles and credentials *)

Lemma ro_updateUserClientRoles E l idp u org : E u org -> frames (roles_only E) (updateUserClientRoles l idp u org).
Proof.
  intros HE. pose proof (fun l' => ro_updateUserOrgRole E u org l' HE).
  unfold updateUserClientRoles, managementToken, type_error. solve_frames.
Qed.

Lemma role_of_member_spec u org r : role_of_member u org r = true <-> ur_userId r = u /\ ur_orgId r = Some org.
Proof. unfold role_of_member. by rewrite andb_true_iff, String.eqb_eq, bool_decide_eq_true. Qed.

Lemma sound_updateUserRoles org l u w : sound w (updateUserRoles org l u w).2.
Proof.
  unfold updateUserRoles. rewrite rpc_state. quiet b w1 E H. injection E as E <-. clear H. destruct b; [|done].
  apply existsb_elem in E as (r & Hr & [Hu Ho]%role_of_member_spec).
  cbn [negb]. quiet found w1 E H. destruct found as [o|]; [|done]. apply getOrganizationDetails_run in E as (-> & _ & <-).
  apply (sound_run (just u (o_id o))).
  2:{ intros Hw x y [-> ->]. apply (i_members _ Hw). by exists r. }
  pose proof (ro_spawn_roles (just u (o_id o)) u (o_id o) l ltac:(done)).
  pose proof (ro_updateUserClientRoles (just u (o_id o)) l (default "" (idpId o)) u (o_id o) ltac:(done)). solve_frames.
Qed.

Lemma sound_createOrgCredentials org u kc w : member (db w) u org -> sound w (createOrgCredentials org u kc w).2.
Proof.
  intros Hm. unfold createOrgCredentials. rewrite rpc_state. quiet found w1 E H. destruct found as [o|]; [|done].
  apply getOrganizationDetails_run in E as (-> & _ & <-). apply (sound_run (just u (o_id o))).
  - pose proof (ro_register (just u (o_id o)) (o_name o) (o_id o) kc u true ltac:(done)). unfold managementToken, type_error. solve_frames.
  - intros Hw x y [-> ->]. by apply (i_members _ Hw).
Qed.

Lemma sound_deleteCredentials org u : frames sound (deleteClientCredentials org u).
Proof. unfold deleteClientCredentials, managementToken, type_error. solve_frames. Qed.

(** *** The registration of all organizations *)

Lemma ro_map_users E idp token org cl l d : Forall (fun p => E (u_id p.1) org) l -> frames (roles_only E) (map_users idp token org cl l d).
Proof.
  intros Hl. revert d. induction Hl as [|[u ro] l Hu _ IH]; intros d; simpl; [solve_frames|].
  pose proof (fun l' => ro_updateUserOrgRole E (u_id u) org l' Hu). solve_frames; apply IH.
Qed.

Lemma ro_register_one E o l : Forall (fun p => E (u_id p.1) (o_id o)) l -> frames (roles_only E) (register_one o l).
Proof.
  intros Hl. unfold register_one, managementToken. destruct (first _ l) as [[owner r]|] eqn:Ef; [|solve_frames].
  apply first_Some in Ef as [Hin _]. rewrite Forall_forall in Hl. pose proof (Hl _ Hin) as Ho.
  pose proof (ro_register E (o_name o) (o_id o) (keycloakUserId owner) (u_id owner) true Ho).
  assert (Hf : forall idp token cl d, frames (roles_only E) (map_users idp token (o_id o) cl (List.filter (fun p => bool_decide (keycloakUserId p.1 <> None)) l) d)).
  { intros. apply ro_map_users, Forall_forall. intros p [Hp _]%elem_of_filter_b. by apply Hl. }
  solve_frames.
Qed.

Lemma sound_registerOrgs w : sound w (registerOrgsMapUsers w).2.
Proof.
  unfold registerOrgsMapUsers. rewrite rpc_state. quiet orgs w1 E H. injection E as E <-. clear H.
  quiet t w2 E2 H2. injection E2 as <- <-. clear H2. destruct (bool_decide _); [done|].
  apply (sound_run (member (db w))); [|intros Hw; apply (i_members _ Hw)].
  apply frames_bind; [exact _| |intros; apply frames_ret; exact _]. apply frames_for_each; [exact _|].
  intros x (o & -> & Ho)%list_elem_of_fmap. apply ro_register_one, Forall_forall.
  intros [u ro] (r & [Hr Hro]%elem_of_filter_b & Hp)%list_elem_of_omap. apply bool_decide_eq_true in Hro.
  apply bind_Some in Hp as (u' & Hu & (ro' & _ & [= <- <-])%bind_Some). apply first_Some in Hu as [_ Hu%String.eqb_eq].
  exists r. split_and!; [done | done | done].
Qed.

Lemma ro_setPrimaryDid org did id : frames (roles_only nobody) (setPrimaryDid org did id).
Proof.
  assert (Hd : forall i b, frames (roles_only nobody) (update_did i b)).
  { intros i b w. unfold update_did. rewrite run_bind. unfold read at 1, gets at 1. cbv beta iota.
    destruct (first _ _); [|done]. destruct (one_primary _); [|done]. split; simpl; auto. }
  assert (Ha : forall doc l, frames (roles_only nobody) (update_agent org did doc l)).
  { intros doc l w. unfold update_agent. rewrite run_bind. unfold read at 1, gets at 1. cbv beta iota.
    destruct (first _ _); [|done]. split; simpl; auto. }
  intros w. unfold setPrimaryDid. rewrite rpc_state. revert w. fold (frames (A := string) (roles_only nobody)).
  unfold ensureOrganizationExists, ensureNotExistingPrimaryDid, ensureDidBelongsToOrg, getOrgProfile, getAgentEndPoint, getAllOrganizationDid,
    getDidDetailsByDid, getNetworkByNameSpace, getLedger, getPerviousPrimaryDid.
  assert (forall doc l prev, frames (roles_only nobody) (setOrgsPrimaryDid org did id doc l prev)).
  { intros. apply frames_transaction; [exact _|]. unfold when. solve_frames. }
  solve_frames.
Qed.

(** *** Deletion *)

(** The tables without the rows of an organization *)
Definition purge (org : string) (d : tables) : tables := Tables
  (List.filter (fun o => negb (org_is org o)) (organisations d))
  (List.filter (fun i => negb (String.eqb (i_orgId i) org)) (invitations d))
  (List.filter (fun r => negb (role_of_org org r)) (user_org_roles d))
  (org_dids d)
  (List.filter (fun a => negb (agent_of org a)) (org_agents d))
  (agent_invitations d)
  (List.filter (fun a => negb (String.eqb (ac_orgId a) org)) (activities d))
  (List.filter (fun n => negb (bool_decide (n = Some org))) (notifications d))
  (others d).

Lemma filter_b_all {A} (p : A -> bool) l : (forall x, x ∈ l -> p x = true) -> List.filter p l = l.
Proof.
  induction l as [|x l IH]; intros H; [done|]. simpl. rewrite (H x) by left. rewrite IH; [done|]. intros y Hy. apply H. by right.
Qed.

Lemma checks_run {A} (p : A -> bool) (e : A -> exn) (l : list A) (w : world) :
  for_each l (fun t => if p t then throw (e t) else mret tt) w =
    (match first p l with Some t => Throw (e t) | None => Ok tt end, w).
Proof.
  induction l as [|t l IH]; [done|]. simpl. rewrite run_bind. destruct (p t); [done|]. apply IH.
Qed.

Definition has_tenant (d : tables) (org : string) : bool :=
  match first (agent_of org) (org_agents d) with Some a => truthy_str (a_tenantId a) | None => false end.

(** [deleteOrg] removes every row of the organization at once, or none. *)
Lemma deleteOrg_run org w : match deleteOrg org w with
  | (Ok d, w') => db w' = purge org (db w) /\ first (org_is org) (organisations (db w)) = Some (deleteOrg_row d) /\ drawn w' = drawn w
      /\ has_tenant (db w) org = false
      /\ (forall t, t ∈ (tablesToCheck ++ restricting)%list -> references (db w) org t = 0%nat)
  | (Throw e, w') => db w' = db w /\ drawn w' = drawn w
  end.
Proof.
  unfold deleteOrg, transaction. generalize restricting as rs, tablesToCheck as tc. intros rs tc. rewrite run_bind. unfold read at 1, gets at 1. cbv beta iota. unfold id. rewrite run_bind.
  set (agents := List.filter (fun a => negb (agent_of org a)) (org_agents (db w))).
  match goal with |- context [match ?m w with _ => _ end] =>
    assert (Hm : m w = if has_tenant (db w) org then (Throw (referenced org AGENT_TABLE), w) else (Ok tt, set_db (set_agents agents (db w)) w)) end.
  { unfold has_tenant. destruct (first (agent_of org) (org_agents (db w))) as [a|] eqn:Ea; [by destruct (truthy_str _)|].
    unfold agents. rewrite filter_b_all; [by destruct w as [[] ? ? ? ? ?]|]. intros a Ha. by rewrite (proj1 (first_None _ _) Ea a Ha). }
  rewrite Hm. clear Hm. destruct (has_tenant (db w) org); [done|]. cbv beta iota.
  rewrite run_bind. unfold read at 1, gets at 1. cbv beta iota. unfold id. rewrite run_bind, checks_run.
  assert (Hr : forall t, references (db (set_db (set_agents agents (db w)) w)) org t = references (db w) org t) by done.
  destruct (first _ tc) eqn:Ec; [done|]. cbv beta iota zeta delta [remove].
  rewrite !run_bind. simpl. destruct (first (org_is org) (organisations (db w))) as [o|] eqn:Eo; [|done].
  repeat (rewrite run_bind; simpl). match goal with |- context [if existsb ?p rs then _ else _] => destruct (existsb p rs) eqn:Ex; [done|] end.
  split_and!; [done..|]. intros t [Ht|Ht]%elem_of_app.
  - pose proof (proj1 (first_None _ _) Ec t Ht) as Hc. apply Nat.ltb_ge in Hc. rewrite Hr in Hc. lia.
  - destruct (Nat.eq_dec (references (db w) org t) 0) as [|Hne]; [done|]. enough (Hb : true = false) by done. rewrite <- Ex. symmetry.
    apply existsb_elem. exists t. split; [done|]. apply Nat.ltb_lt. rewrite Hr. lia.
Qed.

Lemma sound_deleteOrg org : frames sound (deleteOrg org).
Proof.
  intros w. pose proof (deleteOrg_run org w) as H. destruct (deleteOrg org w) as [[d|e] w']; simpl.
  2:{ destruct H as [Hdb Hd]. apply (sound_touch nobody); [|done]. apply ambient_same; [done | lia]. }
  destruct H as (Hdb & _ & Hd & _). intros [].
  split; [split| | |]; rewrite ?Hdb; simpl; try (by apply NoDup_filter_key); try lia.
  - intros o [Ho _]%elem_of_filter_b. apply (org_drawn_mono w); [lia | by apply i_org_drawn0].
  - intros i [Hi _]%elem_of_filter_b. apply (org_drawn_mono w); [lia | by apply i_inv_drawn0].
  - intros i [Hi _]%elem_of_filter_b. apply (org_drawn_mono w); [lia | by apply i_inv_org0].
  - intros u org' (r & [Hr Hno]%elem_of_filter_b & Hu & Ho).
    assert (Hne : org' <> org) by (intros ->; unfold role_of_org in Hno; by rewrite bool_decide_eq_true_2 in Hno).
    destruct (i_members0 u org') as (by_ & (n & s & (o & Hin & Ho')%list_elem_of_fmap) & Ha); [by exists r|]. exists by_. split.
    + exists n, s. apply list_elem_of_fmap. exists o. split; [done|]. apply elem_of_filter_b. split; [done|].
      apply negb_true_iff, String.eqb_neq. by injection Hin as <-.
    + destruct Ha as [?|(i & Hi & Hst & Hio & Hia)]; [by left|]. right. exists i. split_and!; [|done..]. apply elem_of_filter_b.
      split; [done|]. apply negb_true_iff, String.eqb_neq. congruence.
  - intros o [Ho _]%elem_of_filter_b _. by exists o.
  - intros i Hi _. destruct (String.eqb_spec (i_orgId i) org) as [E|E]; [right | left].
    + intros (o & [_ Ho]%elem_of_filter_b & Hid). apply negb_true_iff, String.eqb_neq in Ho. congruence.
    + apply elem_of_filter_b. split; [done|]. by apply negb_true_iff, String.eqb_neq.
Qed.

Lemma sound_par_each {A} (xs : list A) (m : A -> eff world unit) : (forall x, frames (roles_only nobody) (m x)) -> frames sound (par_each xs m).
Proof. intros H. apply quiet_sound, frames_par_each; [exact _ | done]. Qed.

Lemma ro_usersByMail l : frames (roles_only nobody) (usersByMail l).
Proof. unfold usersByMail. solve_frames. Qed.

Lemma ro_notify org n u : frames (roles_only nobody) (notify_removed org n u).
Proof. unfold notify_removed, getUserOrgRole, type_error. solve_frames. Qed.
Hint Resolve sound_deleteOrg ro_usersByMail ro_notify : platform.

Lemma sound_deleteOrganization org u w : sound w (deleteOrganization org u w).2.
Proof.
  unfold deleteOrganization. rewrite rpc_state. revert w. fold (frames (A := organisation) sound).
  assert (Hs : forall l l' tok, frames (roles_only nobody) (all_settled (map (fun m => ask (DeleteUserClientRoles l tok (m ≫= keycloakUserId)) on_keycloak) l' ++
    [ask (DeleteUserClientRoles l tok (getUser u ≫= keycloakUserId)) on_keycloak]))).
  { intros. apply frames_all_settled; [exact _|]; apply Forall_app. split; [|repeat constructor; auto with platform]. apply Forall_forall.
    intros m (x & -> & _)%list_elem_of_fmap. auto with platform. }
  pose proof (fun org' n l => sound_par_each l (notify_removed org' n) ltac:(auto with platform)).
  assert (forall d, frames sound (par_each (deletion_log org d) (fun c => ask c on_user_service))) by (intros; apply sound_par_each; auto with platform).
  unfold getOrgInvitationsByOrg. solve_frames.
Qed.

(** ** Messages *)

(** What the services take for granted of a request: who gets credentials for an
    organization works in it, and an update names the organization it was sent to.  The
    gateway sees to it. *)
Definition guarded (d : tables) (m : message) : Prop :=
  match m with
  | CreateOrgCredentials org u _ => member d u org
  | UpdateOrganization u _ org => up_orgId u = org
  | _ => True
  end.

Inductive served (w : world) : world -> Prop :=
  | served_start : served w w
  | served_message m w1 : served w w1 -> guarded (db w1) m -> served w (handle m w1).2.

Lemma handle_sound m w : guarded (db w) m -> sound w (handle m w).2.
Proof.
  assert (Hk : forall A (x : eff world A), sound w (x w).2 -> sound w ((_ ← x; mret tt) w).2).
  { intros A x. rewrite run_bind. by destruct (x w) as [[?|?] ?]. }
  destruct m; intros Hg; apply Hk.
  - apply sound_createOrganization.
  - by apply sound_quiet, ro_setPrimaryDid.
  - by apply sound_createOrgCredentials.
  - by apply sound_updateOrganization.
  - apply sound_createInvitation.
  - apply sound_acceptReject.
  - apply sound_updateUserRoles.
  - apply sound_registerOrgs.
  - apply sound_deleteOrganization.
  - apply sound_deleteCredentials.
  - apply sound_deleteOrganizationInvitation.
Qed.

Lemma served_sound w w' : served w w' -> sound w w'.
Proof. induction 1 as [|m w1 _ IH Hg]; [done|]. etrans; [exact IH | by apply handle_sound]. Qed.

(** No rows yet *)
Definition empty_tables : tables := Tables [] [] [] [] [] [] [] [] [].

Lemma org_inv_empty w : db w = empty_tables -> inv w.
Proof.
  intros H. split; rewrite H; simpl; try constructor; try (intros ? Hx; by apply elem_of_nil in Hx).
  intros u org (r & Hr & _). by apply elem_of_nil in Hr.
Qed.
End laws.
