(* ===== verification/OrganizationProofs.v ===== *)
(** * Organizations: theorems

    Who is a member of an organization, what becomes of an invitation, and what the
    changes of DIDs, roles and the deletion of an organization do. *)

From S2P Require Import Prelude Js Regex CommonUtils CastHelper Table MarketplaceData OrganizationData OrganizationRepository Organization OrganizationInvariant.

Open Scope Z_scope.

(** ** Slugs and masks *)

Lemma replace_runs_every (p q : ascii -> bool) w b s :
  Regex.every q w = true -> Regex.every q s = true -> Regex.every q (Regex.replace_runs p w b s) = true.
Proof.
  intros Hw. revert b. induction s as [|c s IH]; intros b; [done|]. simpl. intros [Hc Hs]%andb_true_iff.
  destruct (p c), b; simpl; rewrite ?Regex.every_app, ?Hw, ?Hc, ?IH by done; done.
Qed.

(** No two hyphens follow each other; [b] tells that one came before. *)
Fixpoint single_hyphens (b : bool) (s : string) : bool :=
  match s with
  | EmptyString => true
  | String c s' => let h := Ascii.eqb "-" c in negb (b && h) && single_hyphens h s'
  end.

Lemma runs_single b s : single_hyphens b (Regex.replace_runs (Ascii.eqb "-") "-" b s) = true.
Proof.
  revert b. induction s as [|c s IH]; intros b; [done|]. cbn [Regex.replace_runs].
  destruct (Ascii.eqb_spec "-" c) as [<-|Hne].
  - destruct b; [apply IH|]. cbn. apply IH.
  - cbn [single_hyphens]. rewrite (proj2 (Ascii.eqb_neq _ _) Hne), andb_false_r. apply IH.
Qed.

Lemma runs_idle b s : single_hyphens b s = true -> Regex.replace_runs (Ascii.eqb "-") "-" b s = s.
Proof.
  revert b. induction s as [|c s IH]; intros b; [done|]. cbn [single_hyphens Regex.replace_runs]. intros [Hc Hs]%andb_true_iff.
  destruct (Ascii.eqb_spec "-" c) as [<-|Hne]; [|by rewrite IH]. destruct b; [done|]. cbn. by rewrite IH.
Qed.

Lemma replace_each_idle p w s : Regex.every (fun c => negb (p c)) s = true -> Regex.replace_each p w s = s.
Proof.
  induction s as [|c s IH]; [done|]. simpl. intros [Hc%negb_true_iff Hs]%andb_true_iff. by rewrite Hc, IH.
Qed.

Lemma replace_runs_absent p w b s : Regex.every (fun c => negb (p c)) s = true -> Regex.replace_runs p w b s = s.
Proof.
  revert b. induction s as [|c s IH]; intros b; [done|]. simpl. intros [Hc%negb_true_iff Hs]%andb_true_iff. by rewrite Hc, IH.
Qed.

Lemma every_impl (p q : ascii -> bool) s : (forall c, p c = true -> q c = true) -> Regex.every p s = true -> Regex.every q s = true.
Proof. intros H. induction s as [|c s IH]; [done|]. simpl. intros [Hc Hs]%andb_true_iff. by rewrite H, IH. Qed.

Lemma lower_slug s : Regex.every slug_char s = true -> Str.toLowerCase s = s.
Proof.
  induction s as [|c s IH]; [done|]. simpl. intros [Hc Hs]%andb_true_iff. rewrite IH by done. f_equal.
  destruct c as [[] [] [] [] [] [] [] []]; try reflexivity; discriminate Hc.
Qed.

(** A slug has lower case letters, digits and single hyphens only, and a slug is its
    own slug: looking for the slug of a name finds every organization whose name was
    written as that slug. *)
Theorem createOrgSlug_normal name : let slug := createOrgSlug name in
  Regex.every slug_char slug = true /\ single_hyphens false slug = true /\ createOrgSlug slug = slug.
Proof.
  intros slug. assert (Hc : Regex.every slug_char slug = true).
  { apply replace_runs_every; [done|]. apply Regex.every_replace_each; [done|]. intros c. by intros Hs%negb_false_iff. }
  assert (Hh : single_hyphens false slug = true) by apply runs_single.
  assert (Hs : Regex.every (fun c => negb (Str.is_space c)) slug = true).
  { eapply every_impl; [|exact Hc]. intros [[] [] [] [] [] [] [] []]; try discriminate; reflexivity. }
  assert (Hp : Regex.every (fun c => negb (negb (slug_char c))) slug = true).
  { eapply every_impl; [|exact Hc]. by intros c ->. }
  split_and!; [done..|]. unfold createOrgSlug at 1.
  by rewrite lower_slug, (replace_runs_absent Str.is_space), replace_each_idle, runs_idle.
Qed.

Lemma stars_length n : String.length (String.concat "" (repeat "*" n)) = n.
Proof.
  induction n as [|[|n] IH]; [done..|].
  change (String.concat "" (repeat "*" (S (S n)))) with (String "*" (String.concat "" (repeat "*" (S n)))).
  cbn [String.length]. by rewrite IH.
Qed.

Lemma drop_str_length n s : String.length (drop_str n s) = (String.length s - n)%nat.
Proof. revert s. induction n as [|n IH]; intros [|c s]; simpl; auto. Qed.

(** A secret of eight characters or more is masked to one of the same length that
    shows its last eight characters; one of fewer than five is shown as it is, and one
    of five to seven makes [maskString] throw. *)
Theorem maskString_spec s : let n := String.length s in
  maskString s = (if (n <? 5)%nat then Ok s
                  else if (n <? 8)%nat then Throw (js_error "Invalid count value")
                  else Ok (String.concat "" (repeat "*" (n - 8)) +:+ drop_str (n - 8) s)) /\
  forall m, maskString s = Ok m -> String.length m = n.
Proof.
  intros n. assert (H : maskString s = (if (n <? 5)%nat then Ok s
                  else if (n <? 8)%nat then Throw (js_error "Invalid count value")
                  else Ok (String.concat "" (repeat "*" (n - 8)) +:+ drop_str (n - 8) s))).
  { unfold maskString, repeat_star. fold n. destruct (Nat.ltb_spec n 5), (Z.leb_spec 5 (Z.of_nat n)); try lia; [done|].
    destruct (Nat.ltb_spec n 8), (Z.ltb_spec (Z.of_nat n - 8) 0); try lia; [done|]. simpl.
    by replace (Z.to_nat (Z.of_nat n - 8)) with (n - 8)%nat by lia. }
  split; [exact H|]. intros m. rewrite H. destruct (Nat.ltb_spec n 5); [by intros [= <-]|].
  destruct (Nat.ltb_spec n 8); [done|]. intros [= <-]. rewrite Regex.length_app_str, stars_length, drop_str_length. fold n. lia.
Qed.

Section laws.
Context {U : UuidSource} {P : Parties} {T : Platform}.

(** ** Members and invitations *)

(** C9. Whatever messages are served, in whatever order and however the other parties
    answer: whoever has a role in an organization has created it or has accepted an
    invitation to it that was addressed to him, and no two organizations have the same
    identifier or name. *)
Theorem members_admitted w w' : db w = empty_tables -> served w w' ->
  (forall u org, member (db w') u org -> admitted (db w') u org) /\
  NoDup (o_id <$> organisations (db w')) /\ NoDup (o_name <$> organisations (db w')).
Proof.
  intros Hw%org_inv_empty Hs. apply served_sound in Hs. apply Hs in Hw as [[] _ _ _]. by split_and!.
Qed.

(** C15. An invitation that was accepted or rejected is never answered again, nor changed
    or withdrawn, as long as its organization exists. *)
Theorem answered_final w w1 w' i : db w = empty_tables -> served w w1 -> served w1 w' ->
  i ∈ invitations (db w1) -> i_status i <> PENDING ->
  i ∈ invitations (db w') \/ ~ exists o, o ∈ organisations (db w') /\ o_id o = i_orgId i.
Proof.
  intros Hw%org_inv_empty H1%served_sound H2%served_sound Hi Hst. apply (g_final w1 w'); [|done..]. by apply H2, H1.
Qed.

(** ** Runs *)

(** [yields m w P Q]: from [w], [m] ends with a value and a state in [P] or with an
    exception in a state in [Q]. *)
Definition yields {A} (m : eff world A) (w : world) (Q : A -> world -> Prop) (R : world -> Prop) : Prop :=
  match m w with (Ok a, w') => Q a w' | (Throw _, w') => R w' end.

Lemma yields_bind {A B} (m : eff world A) (k : A -> eff world B) w Q R :
  yields m w (fun a w1 => yields (k a) w1 Q R) R -> yields (m ≫= k) w Q R.
Proof. unfold yields. rewrite run_bind. by destruct (m w) as [[a|e] w1]. Qed.

Lemma yields_rpc {A} (m : eff world A) w Q R : yields m w Q R -> yields (rpc m) w Q R.
Proof. unfold yields, rpc, try_catch. by destruct (m w) as [[a|e] w1]. Qed.

Lemma yields_frames S {A} (m : eff world A) w (Q : A -> world -> Prop) (R : world -> Prop) : frames S m ->
  (forall w1, S w w1 -> R w1) -> (forall a w1, m w = (Ok a, w1) -> S w w1 -> Q a w1) -> yields m w Q R.
Proof. intros Hm HR HQ. unfold yields. specialize (Hm w). destruct (m w) as [[a|e] w1] eqn:E; [by apply HQ | by apply HR]. Qed.

(** The tables have not been written. *)
Definition unwritten (w w' : world) : Prop := db w' = db w /\ (drawn w <= drawn w')%nat.

#[local] Instance unwritten_ambient : Ambient unwritten.
Proof.
  split; [split| |by intros w w' []].
  - done.
  - intros w w1 w2 [H1 D1] [H2 D2]. split; [congruence | lia].
  - done.
Qed.

Lemma after_unwritten {A B} (m : eff world A) (k : A -> eff world B) w (Q : B -> world -> Prop) (R : tables -> Prop) :
  frames unwritten m -> R (db w) ->
  (forall a w1, m w = (Ok a, w1) -> db w1 = db w -> yields (k a) w1 Q (fun w' => R (db w'))) ->
  yields (m ≫= k) w Q (fun w' => R (db w')).
Proof.
  intros Hm HR Hk. apply yields_bind, (yields_frames unwritten); [done|by intros w1 [-> _]|]. intros a w1 E [H _]. by apply Hk.
Qed.

(** ** Deletion *)

Lemma par_each_ok {A} (xs : list A) (m : A -> eff world unit) w w' : par_each xs m w = (Ok tt, w') ->
  forall x, x ∈ xs -> exists w1, is_ok (m x w1).1 = true.
Proof.
  revert w. induction xs as [|y xs IH]; intros w; [by intros _ x Hx%elem_of_nil|]. simpl.
  destruct (m y w) as [r w1] eqn:Ey, (par_each xs m w1) as [r' w2] eqn:E. intros H x [->|Hx]%elem_of_cons.
  - exists w. rewrite Ey. by destruct r.
  - destruct r as [?|?]; [|done]. injection H as -> ->. by eapply IH.
Qed.

Lemma usersByMail_run l w a w' : usersByMail l w = (Ok a, w') -> a = map (fun e => e ← e; getUserByMail e) l.
Proof. unfold usersByMail, ask, placed. rewrite run_bind. simpl. unfold lift. case_match; [|done]. by intros [= <- _]. Qed.

Lemma unwritten_details org : frames unwritten (getOrganizationDetails org).
Proof. unfold getOrganizationDetails. solve_frames. Qed.
Hint Resolve unwritten_details : platform.

(** Deleting an organization removes its row, its agent, its invitations, roles,
    activities and notifications together, or nothing: the agent has no tenant then and
    no row of a table that is looked at, or whose key restricts, refers to it.  It
    succeeds only if every address that was ever invited to it belongs to a user.  A
    failure leaves the tables as they were, or comes after the deletion. *)
Theorem deleteOrganization_effect org u w : yields (deleteOrganization org u) w
  (fun o w' => db w' = purge org (db w) /\ first (org_is org) (organisations (db w)) = Some o /\ has_tenant (db w) org = false /\
    (forall t, t ∈ (tablesToCheck ++ restricting)%list -> references (db w) org t = 0%nat) /\
    (forall i, i ∈ invitations (db w) -> i_orgId i = org -> exists row, (i_email i ≫= getUserByMail) = Some row))
  (fun w' => db w' = db w \/ db w' = purge org (db w)).
Proof.
  pose (R := fun d => d = db w \/ d = purge org (db w)). change (fun w' : world => _ \/ _) with (fun w' => R (db w')).
  assert (HR : forall w1, db w1 = db w -> R (db w1)) by (intros w1 ->; by left).
  apply yields_rpc, after_unwritten; [solve_frames | by apply HR|]. intros start w1 _ H1.
  destruct start.2 as [o|]; [|by apply HR].
  apply after_unwritten; [unfold getOrgInvitationsByOrg; solve_frames | by apply HR|]. intros invs w2 E2 H2.
  injection E2 as Einvs ->. apply after_unwritten; [unfold usersByMail; solve_frames | by apply HR|]. intros members w3 _ H3.
  apply after_unwritten; [|apply HR; congruence|].
  { apply frames_all_settled; [exact _|]. apply Forall_app. split; [|repeat constructor; auto with platform].
    apply Forall_forall. intros m (x & -> & _)%list_elem_of_fmap. auto with platform. }
  intros failures w4 _ H4. destruct (0 <? failures)%nat; [apply HR; congruence|].
  apply after_unwritten; [unfold usersByMail; solve_frames | apply HR; congruence|]. intros removed w5 E5 H5. apply usersByMail_run in E5.
  assert (H05 : db w5 = db w) by congruence.
  apply after_unwritten; [|by apply HR|].
  { apply frames_par_each; [exact _|]. intros m. unfold notify_removed, getUserOrgRole, type_error. solve_frames. }
  intros [] w6 E6 H6. assert (H06 : db w6 = db w) by congruence.
  apply yields_bind. unfold yields at 1. pose proof (deleteOrg_run org w6) as Hd. rewrite H06 in Hd.
  destruct (deleteOrg org w6) as [[d|e] w7]; [|left; apply Hd]. destruct Hd as (Hdb & Ho & _ & Ht & Hrefs).
  assert (HR7 : forall w', db w' = db w7 -> R (db w')) by (intros w' ->; by right).
  apply after_unwritten; [solve_frames | by apply HR7|]. intros [] w8 _ H8.
  split_and!; [congruence|done|done|done|]. intros i Hi Horg.
  assert (Hin : (i_email i ≫= getUserByMail) ∈ removed).
  { rewrite E5, <- Einvs. apply list_elem_of_fmap. exists (i_email i). split; [by destruct (i_email i)|].
    apply list_elem_of_fmap. exists i. split; [done|]. apply elem_of_filter_b. split; [by rewrite H1|]. by apply String.eqb_eq. }
  destruct (par_each_ok _ _ _ _ E6 _ Hin) as [w' Hok]. destruct (i_email i ≫= getUserByMail) as [row|]; [by exists row | done].
Qed.

(** ** The primary DID *)

(** The ledger of a DID *)
Definition did_network (did : string) : option ledger :=
  match didLedgerNamespace (Some did) with
  | Some ns => first (fun l => bool_decide (indyNamespace l = Some ns)) ledgers
  | None => first (fun l => String.eqb (l_name l) Not_Applicable) ledgers
  end.

(** Of the DIDs of an organization, the one with the given identifier is primary. *)
Definition choose_primary (org id : string) (t : list org_did) : list org_did :=
  update_where (did_of org) (fun d => set_primary (String.eqb (d_id d) id) d) t.

Lemma set_primary_idle b d : isPrimaryDid d = b -> set_primary b d = d.
Proof. intros <-. by destruct d. Qed.

Lemma did_unique t d d' : NoDup (d_id <$> t) -> d ∈ t -> d' ∈ t -> d_id d = d_id d' -> d = d'.
Proof. apply unique_key. Qed.

Lemma one_primary_unique t d d' : one_primary t = true -> d ∈ t -> d' ∈ t -> d_orgId d = d_orgId d' ->
  isPrimaryDid d = true -> isPrimaryDid d' = true -> d = d'.
Proof.
  intros H Hd Hd' Ho Hp Hp'. unfold one_primary in H. rewrite forallb_forall in H. setoid_rewrite <- list_elem_of_In in H.
  specialize (H d Hd). rewrite Hp in H. cbn [negb orb] in H. apply Nat.leb_le in H.
  set (l := List.filter _ _) in H. assert (Hin : d ∈ l) by (apply elem_of_filter_b; unfold did_of; by rewrite String.eqb_refl, Hp).
  assert (Hin' : d' ∈ l) by (apply elem_of_filter_b; unfold did_of; by rewrite Ho, String.eqb_refl, Hp').
  destruct l as [|x [|y l']]; simpl in H; [by apply elem_of_nil in Hin| |lia].
  apply list_elem_of_singleton in Hin, Hin'. congruence.
Qed.

(** The row after the previous primary DID has been unset and the new one set *)
Definition unset_prev (prev : option string) (d : org_did) : org_did :=
  if truthy_str prev && did_is (default "" prev) d then set_primary false d else d.
Definition switch (prev : option string) (id : string) (d : org_did) : org_did :=
  if did_is id d then set_primary true d else unset_prev prev d.

Definition other_primary (org id : string) (r : org_did) : bool := did_of org r && isPrimaryDid r && negb (did_is id r).

Lemma unset_prev_other prev d : did_is (default "" prev) d = false -> unset_prev prev d = d.
Proof. unfold unset_prev. intros ->. by rewrite andb_false_r. Qed.

Lemma switch_keeps prev id d : d_id (switch prev id d) = d_id d /\ d_orgId (switch prev id d) = d_orgId d.
Proof. unfold switch, unset_prev. destruct (did_is id d); [done|]. by destruct (_ && _). Qed.

Lemma switch_choose org id t row prev : NoDup (d_id <$> t) -> row ∈ t -> d_id row = id -> d_orgId row = org ->
  prev = d_id <$> first (other_primary org id) t ->
  one_primary (map (switch prev id) t) = true -> map (switch prev id) t = choose_primary org id t.
Proof.
  intros Hnd Hrow Hid Horg Hprev Hone. apply map_ext_in. intros d Hd%list_elem_of_In.
  unfold did_of, switch, did_is. destruct (String.eqb_spec (d_id d) id) as [E|E].
  { assert (d = row) as -> by (apply (did_unique t); congruence). by rewrite Horg, String.eqb_refl. }
  destruct (String.eqb_spec (d_orgId d) org) as [Eo|Eo].
  - assert (Hin : forall x, x ∈ t -> switch prev id x ∈ map (switch prev id) t) by (intros; by apply list_elem_of_fmap_2).
    pose proof (one_primary_unique _ _ _ Hone (Hin d Hd) (Hin row Hrow)) as Hu.
    destruct (switch_keeps prev id d) as [Kd Od], (switch_keeps prev id row) as [Kr Or]. rewrite Od, Or in Hu.
    destruct (isPrimaryDid (switch prev id d)) eqn:Ep.
    { exfalso. apply E. rewrite <- Hid, <- Kd, <- Kr. f_equal. apply Hu; [congruence|done|].
      unfold switch, did_is. by rewrite Hid, String.eqb_refl. }
    unfold switch, did_is in Ep. rewrite (proj2 (String.eqb_neq _ _) E) in Ep. unfold unset_prev in *.
    destruct (truthy_str prev && _); [done|]. by rewrite set_primary_idle.
  - subst prev. destruct (first _ t) as [p|] eqn:Ef; [|done]. apply first_Some in Ef as [Hp Hq].
    apply unset_prev_other, String.eqb_neq. simpl. intros Hdp. assert (d = p) as -> by (by apply (did_unique t)).
    unfold other_primary, did_of in Hq. apply Eo, String.eqb_eq. by destruct (String.eqb (d_orgId p) org).
Qed.

Lemma update_did_run i b w : yields (update_did i b) w
  (fun _ w' => db w' = set_dids (update_where (did_is i) (set_primary b) (org_dids (db w))) (db w) /\
     one_primary (org_dids (db w')) = true) (fun _ => True).
Proof.
  unfold update_did, yields. rewrite run_bind. unfold read, gets. cbv beta iota. destruct (first _ _); [|done].
  destruct (one_primary _) eqn:E; [|done]. by split.
Qed.

Lemma setOrgsPrimaryDid_run org did id doc net prev w : yields (setOrgsPrimaryDid org did id doc net prev) w
  (fun _ w' => db w' = set_agents (update_where (agent_of org) (set_agent_did did doc net) (org_agents (db w)))
     (set_dids (map (switch prev id) (org_dids (db w))) (db w)) /\ one_primary (map (switch prev id) (org_dids (db w))) = true)
  (fun w' => db w' = db w).
Proof.
  assert (H : forall (m : eff world unit) Q, yields m w Q (fun _ => True) -> yields (transaction rollback m) w Q (fun w' => db w' = db w)).
  { intros m Q. unfold yields, transaction. by destruct (m w) as [[?|?] ?]. }
  apply H. clear H. apply yields_bind.
  assert (Hfst : yields (when (truthy_str prev) (update_did (default "" prev) false)) w
    (fun _ w1 => db w1 = set_dids (map (unset_prev prev) (org_dids (db w))) (db w)) (fun _ => True)).
  { unfold when. destruct (truthy_str prev) eqn:Et.
    - pose proof (update_did_run (default "" prev) false w) as H. unfold yields in *. destruct (update_did _ _ w) as [[?|?] ?]; [|done].
      destruct H as [-> _]. f_equal. apply map_ext. intros d. unfold unset_prev. by rewrite Et.
    - unfold yields. simpl. rewrite (map_ext _ (fun d => d)), map_id; [by destruct (db w)|]. intros d. unfold unset_prev. by rewrite Et. }
  unfold yields at 1 in Hfst. unfold yields at 1. destruct (when _ _ w) as [[[]|e] w1]; [|done].
  apply yields_bind. pose proof (update_did_run id true w1) as H. unfold yields in H |- * at 1.
  destruct (update_did id true w1) as [[[]|e] w2]; [|done]. destruct H as [H2 Hone].
  assert (Hmap : org_dids (db w2) = map (switch prev id) (org_dids (db w))).
  { rewrite H2, Hfst. simpl. unfold update_where. rewrite map_map. apply map_ext. intros d. unfold switch.
    assert (did_is id (unset_prev prev d) = did_is id d) as -> by (unfold unset_prev; by destruct (_ && _)).
    destruct (did_is id d); [|done]. unfold unset_prev. by destruct (_ && _). }
  unfold yields, update_agent. rewrite run_bind. unfold read, gets. cbv beta iota. destruct (first _ _); [|done].
  simpl. rewrite Hmap in Hone. split; [|done]. rewrite <- Hmap, H2, Hfst. done.
Qed.

(** Setting the primary DID of an organization makes exactly that DID primary and gives
    the agent its document and the ledger it resolves to; nothing else changes, in
    particular no DID or agent of another organization.  The DID is one of the
    organization's, and its row the one that was named.  A failure changes nothing. *)
Theorem setPrimaryDid_effect org did id w : NoDup (d_id <$> org_dids (db w)) -> yields (setPrimaryDid org did id) w
  (fun _ w' => exists row network, row ∈ org_dids (db w) /\ d_id row = id /\ d_orgId row = org /\ d_did row = did /\
    did_network did = Some network /\
    db w' = set_agents (update_where (agent_of org) (set_agent_did did (d_didDocument row) (Some (l_id network))) (org_agents (db w)))
      (set_dids (choose_primary org id (org_dids (db w))) (db w)))
  (fun w' => db w' = db w).
Proof.
  intros Hnd. pose (R := fun d => d = db w). change (fun w' : world => _ = _) with (fun w' => R (db w')).
  assert (HR : forall w1, db w1 = db w -> R (db w1)) by done.
  unfold setPrimaryDid, ensureOrganizationExists, ensureNotExistingPrimaryDid, ensureDidBelongsToOrg, getOrgProfile, getAgentEndPoint,
    getAllOrganizationDid, getPerviousPrimaryDid.
  apply yields_rpc, after_unwritten; [solve_frames | by apply HR|]. intros _ w1 _ H1.
  apply after_unwritten; [solve_frames | by apply HR|]. intros _ w2 _ H2.
  apply after_unwritten; [solve_frames | apply HR; congruence|]. intros _ w3 _ H3.
  apply after_unwritten; [unfold getDidDetailsByDid; solve_frames | apply HR; congruence|]. intros row w4 E4 H4.
  assert (Hrow : row ∈ org_dids (db w) /\ d_orgId row = org /\ d_did row = did).
  { unfold getDidDetailsByDid in E4. rewrite run_bind in E4. unfold read at 1, gets at 1 in E4. cbv beta iota in E4.
    destruct (first _ _) as [r|] eqn:Ef; [|done]. injection E4 as -> _.
    apply first_Some in Ef as [Hin [? ?]%andb_true_iff]. split_and!; [congruence|by apply String.eqb_eq..]. }
  assert (H04 : db w4 = db w) by congruence. destruct Hrow as (Hin & Horg & Hdid).
  destruct (String.eqb_spec (d_id row) id) as [Hid|]; [|by apply HR]. cbn [negb].
  apply after_unwritten; [solve_frames | by apply HR|]. intros dids w5 E5 H5. injection E5 as Edids <-. clear H5.
  apply after_unwritten; [unfold getNetworkByNameSpace, getLedger; solve_frames | by apply HR|]. intros network w6 E6 H6.
  assert (Hnet : did_network did = Some network).
  { unfold did_network. destruct (didLedgerNamespace _); unfold getNetworkByNameSpace, getLedger in E6; (destruct (first _ ledgers); [by injection E6 as -> _ | done]). }
  apply after_unwritten; [destruct (negb _); solve_frames | apply HR; congruence|]. intros prev w7 E7 H7.
  assert (H07 : db w7 = db w) by congruence.
  assert (Hprev : (d_id <$> prev) = d_id <$> first (other_primary org id) (org_dids (db w))).
  { destruct (negb (forallb _ dids)) eqn:En.
    - injection E7 as <- _. by rewrite H6, H04.
    - apply negb_false_iff in En. injection E7 as <- _. rewrite (proj2 (first_None _ _)); [done|]. intros r Hr.
      rewrite forallb_forall in En. unfold other_primary. destruct (did_of org r) eqn:Eo; [|done].
      specialize (En r). rewrite <- list_elem_of_In, <- Edids, elem_of_filter_b, H04 in En. by rewrite (proj1 (negb_true_iff _) (En (conj Hr Eo))). }
  pose proof (setOrgsPrimaryDid_run org did id (d_didDocument row) (Some (l_id network)) (d_id <$> prev) w7) as Hrun.
  apply yields_bind. unfold yields in Hrun |- * at 1. destruct (setOrgsPrimaryDid _ _ _ _ _ _ w7) as [[[]|e] w8]; [|apply HR; congruence].
  destruct Hrun as [H8 Hone]. rewrite H07 in H8, Hone. exists row, network. split_and!; [done..|].
  by rewrite H8, (switch_choose org id (org_dids (db w)) row).
Qed.

(** ** Limits of the plan *)

Lemma elem_of_distinct x l : x ∈ distinct l <-> x ∈ l.
Proof.
  induction l as [|y l IH]; [done|]. simpl. destruct (existsb (String.eqb y) l) eqn:E.
  - apply existsb_mem in E. rewrite IH, elem_of_cons. naive_solver.
  - by rewrite !elem_of_cons, IH.
Qed.

Lemma NoDup_distinct l : NoDup (distinct l).
Proof.
  induction l as [|y l IH]; [constructor|]. simpl. destruct (existsb (String.eqb y) l) eqn:E; [done|].
  apply NoDup_cons. split; [|done]. by rewrite elem_of_distinct, <- existsb_mem, E.
Qed.

Lemma distinct_length l l' : (forall x, x ∈ l -> x ∈ l') -> (length (distinct l) <= length (distinct l'))%nat.
Proof.
  intros H. apply NoDup_incl_length.
  - apply NoDup_ListNoDup, NoDup_distinct.
  - intros x. rewrite <- !list_elem_of_In, !elem_of_distinct. apply H.
Qed.

Definition orgs_of (d : tables) (u : string) : Z := Z.of_nat (length (List.filter (has_role_in u (user_org_roles d)) (organisations d))).
Definition is_member (d : tables) (u org : string) : bool := existsb (role_of_member u org) (user_org_roles d).

(** Roles have been added for one user in one organization only. *)
Definition joined (u org : string) (w w' : world) : Prop := (drawn w <= drawn w')%nat /\
  forall r, r ∈ user_org_roles (db w') -> r ∈ user_org_roles (db w) \/ forall o, ur_orgId r = Some o -> just u org (ur_userId r) o.

#[local] Instance joined_ambient u org : Ambient (joined u org).
Proof.
  split; [split| |by intros w w' []].
  - intros w. split; auto.
  - intros w w1 w2 [D1 H1] [D2 H2]. split; [lia|]. intros r [Hr|Hr]%H2; [by apply H1 | by right].
  - intros w w' H Hd. split; [done|]. rewrite H. auto.
Qed.

Lemma joined_roles_only u org {A} (m : eff world A) : frames (roles_only (just u org)) m -> frames (joined u org) m.
Proof. apply frames_mono. intros w w' []. by split. Qed.

Lemma org_users_elem d org u : u ∈ map ur_userId (List.filter (role_of_org org) (user_org_roles d)) <->
  exists r, r ∈ user_org_roles d /\ ur_userId r = u /\ ur_orgId r = Some org.
Proof.
  change (map ur_userId) with (fmap (M := list) ur_userId). rewrite list_elem_of_fmap. setoid_rewrite elem_of_filter_b.
  unfold role_of_org. setoid_rewrite bool_decide_eq_true. naive_solver.
Qed.

(** A user that joins makes the users of the organization one more, a member none. *)
Lemma joined_users u org w w' : joined u org w w' ->
  (length (org_users (db w') org) <= length (org_users (db w) org) + (if is_member (db w) u org then 0 else 1))%nat.
Proof.
  intros [_ H]. unfold org_users. set (l := map ur_userId (List.filter _ (user_org_roles (db w)))). etrans.
  - apply (distinct_length _ (if is_member (db w) u org then l else u :: l)).
    intros x (r & Hr & <- & Ho)%org_users_elem.
    assert (Hin : ur_userId r = u \/ ur_userId r ∈ l).
    { destruct (H r Hr) as [Hold|Hnew]; [right; apply org_users_elem; eauto | left; by apply (Hnew org)]. }
    destruct (is_member (db w) u org) eqn:Em; [|apply elem_of_cons; tauto]. destruct Hin as [->|]; [|done].
    apply existsb_elem in Em as (r' & Hr' & [? ?]%role_of_member_spec). apply org_users_elem. eauto.
  - destruct (is_member _ _ _); [lia|]. simpl. destruct (existsb _ l); simpl; lia.
Qed.

Lemma joined_answer u org id st : frames (joined u org) (updateInvitation id st).
Proof.
  intros w. unfold updateInvitation. rewrite run_bind. unfold read at 1, gets at 1. cbv beta iota.
  destruct (first _ _); [|done]. split; simpl; auto.
Qed.

Lemma joined_client u org i idp kc st : frames (joined u org) (updateClientInvitation i idp u kc org st).
Proof.
  pose proof (fun l => joined_roles_only _ _ _ (ro_updateUserOrgRole (just u org) u org l ltac:(done))). pose proof joined_answer.
  unfold updateClientInvitation, managementToken, type_error. solve_frames.
Qed.

Lemma limit_passed org u w w1 : assertMarketplaceUserLimitAllowsAcceptance org u w = (Ok tt, w1) -> db w1 = db w /\
  forall n, limit_of (getMarketplaceMaxUsers org) = Some n -> is_member (db w) u org = false -> Z.of_nat (length (org_users (db w) org)) < n.
Proof.
  unfold assertMarketplaceUserLimitAllowsAcceptance. destruct (limit_of _) as [n|]; [|by intros [= <-]]. rewrite run_bind. unfold checkUserOrgExist, read at 1, gets at 1.
  cbv beta iota. unfold is_member. destruct (existsb _ _); [by intros [= <-]|]. rewrite run_bind. unfold getOrganizationUserCount, read, gets. cbv beta iota.
  destruct (Z.ltb_spec n (Z.of_nat (length (org_users (db w) org)) + 1)); [done|]. intros [= <-]. split; [done|]. intros n' [= <-] _. lia.
Qed.

Lemma orgLimit_passed u k w w1 : assertMarketplaceOrganizationLimit u k w = (Ok tt, w1) -> w1 = w /\
  forall n, limit_of (getMarketplaceMaxOrganizationsByUser u) = Some n -> k < n.
Proof.
  unfold assertMarketplaceOrganizationLimit. destruct (limit_of _) as [n|]; [|by intros [= <-]].
  destruct (Z.leb_spec n k); [done|]. intros [= <-]. split; [done|]. by intros n' [= <-].
Qed.

(** When a user's acceptance of an invitation succeeds, he was below both limits on the
    organizations of one user, and, unless he was a member before, the users of the
    organization are still no more than its plan allows.  The invitation was pending,
    for this organization, and addressed to him. *)
Theorem acceptance_bounded org id u w : yields (acceptRejectInvitations org id ACCEPTED u) w
  (fun _ w' => at_org_limit (orgs_of (db w) u) = false /\
    (forall n, limit_of (getMarketplaceMaxOrganizationsByUser u) = Some n -> orgs_of (db w) u < n) /\
    (forall n, limit_of (getMarketplaceMaxUsers org) = Some n -> is_member (db w) u org = false ->
       Z.of_nat (length (org_users (db w') org)) <= n) /\
    exists i, i ∈ invitations (db w) /\ i_id i = id /\ i_status i = PENDING /\ i_orgId i = org /\ addressed u i)
  (fun _ => True).
Proof.
  unfold acceptRejectInvitations. apply yields_rpc. unfold userOrganizationCount at 1.
  apply (after_unwritten _ _ _ _ (fun _ => True)); [auto with platform|done|]. intros total w0 E0 _. injection E0 as E0 <-. fold (orgs_of (db w) u) in E0.
  rewrite bool_decide_eq_true_2 by done. simpl andb. destruct (at_org_limit total) eqn:El; [done|].
  destruct (getUser u) as [row|] eqn:Eu; [|done]. unfold updateOrgInvitation. apply yields_rpc.
  unfold getInvitationById. apply (after_unwritten _ _ _ _ (fun _ => True)); [auto with platform|done|]. intros found w0 Ei _. injection Ei as Ei <-.
  cbn [ui_status ui_userId ui_orgId ui_email ui_invitationId ui_keycloakUserId]. rewrite (bool_decide_eq_true_2 (ACCEPTED = ACCEPTED)) by done.
  apply yields_bind. unfold yields at 1.
  match goal with |- match ?x with _ => _ end => destruct x as [[[]|e] w1] eqn:Elim; [|done] end.
  unfold userOrganizationCount in Elim. rewrite run_bind in Elim. unfold read at 1, gets at 1 in Elim. cbv beta iota in Elim.
  fold (orgs_of (db w) u) in Elim. rewrite E0, El in Elim. apply bind_ok_inv in Elim as ([] & w2 & H1%orgLimit_passed & H2%limit_passed).
  destruct H1 as [-> Horg], H2 as [Hdb Husers].
  destruct found as [i|]; [|done]. destruct (bool_decide_reflect (i_email i = u_email row)) as [Hm|]; [|done]. cbn [negb].
  destruct (String.eqb_spec (i_orgId i) org) as [Ho|]; [|done]. cbn [negb]. apply first_Some in Ei as [Hi Hid%String.eqb_eq].
  apply yields_bind. unfold yields at 1. destruct (getOrganizationDetails org w1) as [[o|e] w2] eqn:Eo; [|done].
  destruct o as [o|]; [|done]. apply getOrganizationDetails_run in Eo as (-> & _).
  destruct (transition _ _) eqn:Et; [|done]. cbn [negb]. assert (Hp : i_status i = PENDING) by by destruct (i_status i).
  rewrite bool_decide_eq_false_2 by done.
  apply (yields_frames (joined u org)); [|done|].
  - pose proof joined_client. pose proof joined_answer.
    pose proof (fun r => joined_roles_only _ _ _ (ro_createRole (just u org) u r (Some org) None ltac:(by intros ? [= <-]))). solve_frames.
  - intros _ w' _ Hj. subst total. split_and!; [done|done| |by exists i; split_and!; [..|exists row]].
    intros n Hn Hnot. apply joined_users in Hj. rewrite Hdb, Hnot in Hj. specialize (Husers n Hn Hnot). lia.
Qed.
End laws.

(** ** A sample platform *)

Module OrgSample.
#[local] Instance ids : UuidSource.
Proof. refine {| uuid n := "id" +:+ pretty n |}. Defined.

Definition alice : user := User "u1" (Some "alice@x.org") (Some "Alice") true (Some "k1") (Some "c") (Some "s").
Definition bob : user := User "u2" (Some "bob@x.org") (Some "Bob") true (Some "k2") (Some "c") (Some "s").
Definition role (n : string) : org_role := Role ("r-" +:+ n) n "".
Definition subscription : marketplace_subscription := Sub "s1"
  (SubData "ms1" None "offer" "plan" (Some "name") Subscribed None None None None None None None None []
    (Party None None None None) (Party None None None None) None None Json.JNull) (Some "u1") (Some "id0") activated None 0 0 None.

#[local] Instance platform : Platform.
Proof.
  refine {| users := [alice; bob]; org_roles := [role "owner"; role "admin"; role "member"];
    ledgers := [Ledger "l1" "Indicio" (Some "indicio:testnet"); Ledger "l2" "NA" None];
    subscriptions := [subscription]; plans := [Plan "offer" "plan" 0 0 0 (Some 2) (Some 2) Json.JNull];
    MAX_ORG_LIMIT := Some "10"; PLATFORM_NAME := Some "Platform"; emailFrom := Some "no-reply@x.org" |};
  by repeat (apply NoDup_cons; split; [set_solver|]); constructor.
Defined.

(** The roles of every client are [names]; operations started together take effect in
    the order they were started, or the other way round. *)
Definition parties (names : list string) (in_order : bool) : Parties := {|
  on_token _ := Ok "token";
  on_client _ := Ok (Credentials "idp" "client" "client-secret");
  on_role _ := Ok (ClientRole "c-owner" "owner");
  on_roles _ := Ok (map (fun n => ClientRole ("c-" +:+ n) n) names);
  on_secret _ := Ok "client-secret";
  on_keycloak _ := Ok tt;
  on_user_service _ := Ok tt;
  on_email _ := Ok true;
  on_upload _ := Ok "logo";
  on_invitation _ := Ok None;
  schedule _ := in_order;
|}.

Definition start : world := World empty_tables [] [] [] 0 0.
Definition dto (name : string) : CreateOrganizationDto := CreateDto name None None None None None.
Definition create : message := CreateOrganization (dto "Acme  Inc.") "u1" (Some "k1").
Definition invite (roles : list string) : message := CreateInvitation [SendDto "bob@x.org" roles] "id0" "u1" "alice@x.org".
Definition accept : message := AcceptReject "id0" "id2" ACCEPTED "u2".

Definition serve (P : Parties) (l : list message) (w : world) : world := fold_left (fun w m => (handle m w).2) l w.

Definition all_roles : Parties := parties ["owner"; "admin"; "member"] true.
Definition joined_world : world := serve all_roles [create; invite ["c-member"]; accept] start.

Lemma serve_served (P : Parties) l w : Forall (fun m => forall d, guarded d m) l -> served w (serve P l w).
Proof.
  intros Hl. unfold serve. rewrite <- (rev_involutive l) in *. induction (rev l) as [|m l' IH]; simpl in *; [constructor|].
  apply Forall_app in Hl as [Hl Hm]. rewrite fold_left_app. simpl. constructor; [by apply IH|]. apply Forall_cons in Hm as [Hm _]. apply Hm.
Qed.

Example demo : let d := db joined_world in
  map (fun o => (o_id o, orgSlug o, idpId o)) (organisations d) = [("id0", Some "acme-inc", Some "idp")] /\
  map (fun i => (i_id i, i_status i, orgRoles i)) (invitations d) = [("id2", ACCEPTED, ["r-member"])] /\
  map (fun r => (ur_userId r, ur_orgRoleId r)) (user_org_roles d) = [("u1", "r-owner"); ("u2", "r-member")].
Proof. vm_compute. auto. Qed.

Lemma members_admitted_witness : db start = empty_tables /\ admitted (db joined_world) "u2" "id0".
Proof.
  split; [reflexivity|]. apply (members_admitted (P := all_roles) start joined_world); [reflexivity| |].
  - apply serve_served. repeat constructor.
  - exists (UserOrgRole "id3" "u2" "r-member" (Some "id0") (Some "c-member")). vm_compute. split; [right; left | split; reflexivity].
Defined.

(** Bob's roles change after his invitation was accepted. *)
Definition later_world : world := serve all_roles [UpdateUserRoles "id0" ["c-admin"] "u2"; accept; DeleteInvitation "id0" "id2"] joined_world.

Lemma answered_final_witness : let i := Invite "id2" (Some "bob@x.org") "u1" "id0" ACCEPTED ["r-member"] in
  i ∈ invitations (db joined_world) /\
  (i ∈ invitations (db later_world) \/ ~ exists o, o ∈ organisations (db later_world) /\ o_id o = i_orgId i).
Proof.
  intros i. assert (Hi : i ∈ invitations (db joined_world)) by (vm_compute; left). split; [exact Hi|].
  apply (answered_final (P := all_roles) start joined_world later_world i); [reflexivity| | |exact Hi|discriminate].
  - apply serve_served. repeat constructor.
  - apply serve_served. repeat constructor.
Defined.

(** *** What can go wrong with roles *)

(** The owner's role is deleted after it was written. *)
Example owner_lost : map ur_userId (user_org_roles (db
  (serve (parties ["owner"; "admin"; "member"] false) [create; DeleteCredentials "id0" "u1"; CreateOrgCredentials "id0" "u1" (Some "k1")] start))) = [].
Proof. vm_compute. reflexivity. Qed.

(** A role of the client that the platform does not know *)
Example roles_lost : map ur_userId (user_org_roles (db
  (serve (parties ["owner"; "auditor"] true) [UpdateUserRoles "id0" ["c-auditor"] "u2"] joined_world))) = ["u1"].
Proof. vm_compute. reflexivity. Qed.

(** The client has lost the role the invitation brings. *)
Example accepted_without_role :
  let d := db (serve (parties ["owner"] true) [accept] (serve all_roles [create; invite ["c-member"]] start)) in
  map i_status (invitations d) = [ACCEPTED] /\ map ur_userId (user_org_roles d) = ["u1"].
Proof. vm_compute. auto. Qed.

(** *** Deletion

    An invitation to an address without an account keeps the organization from being
    deleted. *)
Example deleted_unless_stranger :
  let remaining l := length (organisations (db (serve all_roles (create :: l ++ [DeleteOrganization "id0" "u1"])%list start))) in
  remaining [] = 0%nat /\ remaining [CreateInvitation [SendDto "carol@x.org" ["c-member"]] "id0" "u1" "alice@x.org"] = 1%nat.
Proof. vm_compute. auto. Qed.

(** *** The primary DID *)

Definition did_row (id org did : string) (b : bool) : org_did := OrgDid id org did b Json.JNull.
Definition acme : organisation := Org "id0" "Acme" None None (Some "acme") None false None None None None "u1" "u1".
Definition with_dids : world := World (Tables [acme] [] []
  [did_row "d0" "id0" "did:key:old" true; did_row "d1" "id0" "did:indy:indicio:testnet:X" false; did_row "d2" "id9" "did:key:other" true]
  [OrgAgent "a0" (Some "id0") (Some "did:key:old") None None None; OrgAgent "a1" (Some "id9") None None None None] [] [] [] []) [] [] [] 0 0.

Lemma setPrimaryDid_effect_witness : NoDup (d_id <$> org_dids (db with_dids)) /\
  exists v w', setPrimaryDid "id0" "did:indy:indicio:testnet:X" "d1" with_dids = (Ok v, w') /\
    map isPrimaryDid (org_dids (db w')) = [false; true; true] /\
    map (fun a => (orgDid a, ledgerId a)) (org_agents (db w')) = [(Some "did:indy:indicio:testnet:X", Some "l1"); (None, None)].
Proof.
  assert (Hnd : NoDup (d_id <$> org_dids (db with_dids))).
  { change (NoDup ["d0"; "d1"; "d2"]). repeat (apply NoDup_cons; split; [set_solver|]). constructor. }
  split; [exact Hnd|]. pose proof (setPrimaryDid_effect "id0" "did:indy:indicio:testnet:X" "d1" with_dids Hnd) as H. unfold yields in H.
  assert (Hok : is_ok (setPrimaryDid "id0" "did:indy:indicio:testnet:X" "d1" with_dids).1 = true) by (vm_compute; reflexivity).
  destruct (setPrimaryDid _ _ _ with_dids) as [[v|e] w'] eqn:E; [|discriminate Hok]. exists v, w'. split; [reflexivity|].
  destruct H as (row & network & _ & _ & _ & _ & Hn & ->).
  assert (Hl : did_network "did:indy:indicio:testnet:X" = Some (Ledger "l1" "Indicio" (Some "indicio:testnet"))) by (vm_compute; reflexivity).
  rewrite Hl in Hn. injection Hn as <-.
  split; reflexivity.
Defined.
End OrgSample.
