(* ===== verification/UserData.v ===== *)
(** * Users: data

    The rows the user service works on, the parties it calls and the state of a run.  The
    rows of other services that refer to a user are kept as the reference alone; the text of
    a mail is left out, what it is made from is kept. *)

From S2P Require Import Prelude Js CommonService ClientRegistration.

Definition DISALLOWED_EMAIL_DOMAIN : list string := [
  "0x01.gq"; "0x01.tk"; "10mail.org"; "10mail.tk"; "33m.co"; "33mail.com"; "3dxtras.com"; "3utilities.com"; "567map.xyz";
  "8191.at"; "aa.am"; "accountsite.me"; "acmetoy.com"; "acusupply.com"; "adultvidlite.com"; "aji.kr"; "anonaddy.com";
  "anonaddy.me"; "anonbox.net"; "anyalias.com"; "asanatest1.us"; "azzawajalla.store"; "bajetesik.store"; "band-freier.de";
  "bandband1.com"; "bangmadid.store"; "batikbantul.com"; "bccto.me"; "bebekpenyet.buzz"; "bei.kr"; "bel.kr"; "beo.kr";
  "bfo.kr"; "bgsaddrmwn.me"; "bho.kr"; "biasaelho.space"; "biz.st"; "biz.tm"; "bko.kr"; "blacksong.pw";
  "blueauramassage.com"; "bounceme.net"; "bum.net"; "buwosok.tech"; "buzzndaraiangop2wae.buzz"; "byui.me"; "caboodle.buzz";
  "cad.edu.gr"; "cempue.online"; "chickenkiller.com"; "choirul.host"; "cid.kr"; "ciran.xyz"; "cko.kr"; "cloudns.asia";
  "cloudns.cc"; "cloudns.cx"; "cloudns.nz"; "com.com"; "coms.hk"; "comx.cf"; "craigslist.org"; "creo.site"; "creo.tips";
  "creou.dev"; "crowdpress.it"; "cu.cc"; "cua77.xyz"; "d3vs.net"; "dadosa.xyz"; "danuarte.online"; "darrels.site";
  "daseus.online"; "dayatan.host"; "dbo.kr"; "ddns.net"; "ddnsfree.com"; "deail.com"; "dedyn.io"; "defaultdomain.ml";
  "discard-email.cf"; "dko.kr"; "dlink.cf"; "dlink.gq"; "dlyemail.com"; "dmtc.dev"; "dmtc.edu.pl"; "dmtc.press";
  "dns-cloud.net"; "dns.navy"; "dnsabr.com"; "dnses.ro"; "doy.kr"; "drope.ml"; "dropmail.me"; "dynu.net";
  "dzalaev-advokat.ru"; "e4ward.com"; "ediantenan.site"; "edu.auction"; "efo.kr"; "eho.kr"; "ely.kr"; "email-temp.com";
  "emailfake.com"; "emailfake.ml"; "emailfreedom.ml"; "emlhub.com"; "emlpro.com"; "emltmp.com"; "emy.kr"; "enu.kr"; "eny.kr";
  "epizy.com"; "escritossad.net"; "ese.kr"; "esy.es"; "ewa.kr"; "exi.kr"; "ezyro.com"; "fackme.gq"; "fassagforpresident.ga";
  "firste.ml"; "flu.cc"; "foy.kr"; "fr.nf"; "freeml.net"; "gadzooks.buzz"; "gettrials.com"; "giize.com"; "gmail.gr.com";
  "gmeil.me"; "gok.kr"; "gotdns.ch"; "gpa.lu"; "grigio.cf"; "guardmail.cf"; "haddo.eu"; "heliohost.org"; "higogoya.com";
  "historial.store"; "hitechinfo.com"; "hix.kr"; "hiz.kr"; "hmail.us"; "hopto.org"; "hostingarif.me"; "idn.vn"; "iesco.info";
  "igg.biz"; "ignorelist.com"; "iki.kr"; "ilovemyniggers.club"; "imouto.pro"; "info.tm"; "infos.st"; "irr.kr"; "isgre.at";
  "it2-mail.tk"; "jil.kr"; "jindmail.club"; "jto.kr"; "junnuok.com"; "justemail.ml"; "kadokawa.top"; "kantal.buzz";
  "keitin.site"; "kentel.buzz"; "kerl.cf"; "kerl.gq"; "kikwet.com"; "kondomeus.site"; "kozow.com"; "kranjingan.store";
  "kranjingan.tech"; "kranjingans.tech"; "kro.kr"; "lal.kr"; "laste.ml"; "lbe.kr"; "legundi.site"; "lei.kr"; "likevip.net";
  "liopers.link"; "lko.co.kr"; "lko.kr"; "ll47.net"; "lofteone.ru"; "lom.kr"; "longdz.site"; "longmusic.com";
  "lostandalone.com"; "loudcannabisapp.com"; "loy.kr"; "loyalherceghalom.ml"; "luk2.com"; "luksarcenter.ru"; "luo.kr";
  "lyrics-lagu.me"; "mail-temp.com"; "mail0.ga"; "mailinator.com"; "mailr.eu"; "marrone.cf"; "mbe.kr"; "mblimbingan.space";
  "mebelnovation.ru"; "mefound.com"; "mintemail.com"; "mishmash.buzz"; "mko.kr"; "mlo.kr"; "mooo.com";
  "motifasidiri.website"; "mp-j.cf"; "mp-j.ga"; "mp-j.gq"; "mp-j.ml"; "mp-j.tk"; "mr-meshkat.com"; "mrossi.cf"; "mrossi.gq";
  "mrossi.ml"; "ms1.email"; "msdc.co"; "muabanwin.net"; "museumplanet.com"; "my.id"; "my3mail.cf"; "my3mail.ga";
  "my3mail.gq"; "my3mail.ml"; "my3mail.tk"; "myddns.me"; "myeslbookclub.com"; "mymy.cf"; "mysafe.ml"; "mzon.store"; "n-e.kr";
  "nafko.cf"; "nctu.me"; "netmail.tk"; "netricity.nl"; "new-mgmt.ga"; "ngalasmoen.xyz"; "ngguwokulon.online";
  "njambon.space"; "nko.kr"; "now.im"; "npv.kr"; "nuo.co.kr"; "nuo.kr"; "nut.cc"; "o-r.kr"; "oazis.site"; "obo.kr";
  "ocry.com"; "office.gy"; "okezone.bid"; "one.pl"; "onlysext.com"; "oovy.org"; "oppoesrt.online"; "orangotango.ml";
  "otherinbox.com"; "ourhobby.com"; "owa.kr"; "owh.ooo"; "oyu.kr"; "p-e.kr"; "pafnuty.com"; "pandies.space"; "paqeh.online";
  "pe.hu"; "petinggiean.tech"; "peyekkolipi.buzz"; "poderosamulher.com"; "poistaa.com"; "porco.cf"; "poy.kr"; "prapto.host";
  "probatelawarizona.com"; "ptcu.dev"; "pubgm.website"; "qbi.kr"; "qc.to"; "r-e.kr"; "ragel.me"; "rao.kr"; "reilis.site";
  "rf.gd"; "ringen.host"; "rko.kr"; "rosso.ml"; "row.kr"; "rr.nu"; "rshagor.xyz"; "s-ly.me"; "safe-mail.gq"; "sagun.info";
  "samsueng.site"; "saucent.online"; "sborra.tk"; "schwarzmail.ga"; "seluang.com"; "sempak.link"; "sendaljepit.site";
  "sendangagung.online"; "servegame.com"; "shp7.cn"; "siambretta.com"; "skodaauto.cf"; "soju.buzz"; "solidplai.us";
  "somee.com"; "spamtrap.ro"; "spymail.one"; "ssanphone.me"; "standeight.com"; "statuspage.ga"; "steakbeef.site";
  "stonedogdigital.com"; "stop-my-spam.pp.ua"; "storeyee.com"; "sumanan.site"; "supere.ml"; "svblog.com"; "sytes.net";
  "tandy.co"; "tangtingtung.tech"; "teml.net"; "tempembus.buzz"; "tempremail.cf"; "tempremail.tk"; "tgwrzqr.top";
  "thepieter.com"; "theworkpc.com"; "thinktimessolve.info"; "thumoi.com"; "tko.co.kr"; "tko.kr"; "tmo.kr"; "tmpeml.com";
  "toh.info"; "toi.kr"; "tomcrusenono.host"; "topikurrohman.xyz"; "tourbalitravel.com"; "traveldesk.com"; "tricakesi.store";
  "trillianpro.com"; "twilightparadox.com"; "tyrex.cf"; "uha.kr"; "uk.to"; "uko.kr"; "umy.kr"; "unaux.com"; "undo.it";
  "uny.kr"; "uola.org"; "upy.kr"; "urbanban.com"; "us.to"; "usa.cc"; "uu.gl"; "uvy.kr"; "uyu.kr"; "vay.kr"; "vba.kr";
  "veo.kr"; "viola.gq"; "vivoheroes.xyz"; "vkbags.in"; "vo.uk"; "volvo-xc.tk"; "vuforia.us"; "wakultimbo.buzz"; "web.id";
  "weprof.it"; "werkuldino.buzz"; "wil.kr"; "wingkobabat.buzz"; "x24hr.com"; "xiaomie.store"; "xo.uk"; "xxi2.com";
  "yarien.eu"; "yawahid.host"; "ye.vc"; "yertxenor.tk"; "yomail.info"; "yopmail.com"; "yoqoyyum.space"; "youdontcare.com";
  "zalvisual.us"; "zapto.org"; "ze.cx"; "zeroe.ml"].

Open Scope Z_scope.

(** ** Rows *)

Record user := User {
  u_id : string;
  email : option string;
  username : option string;
  firstName : option string;
  lastName : option string;
  verificationCode : option string;
  isEmailVerified : bool;
  supabaseUserId : option string;
  keycloakUserId : option string;
  clientId : option string;
  clientSecret : option string;
  profileImg : option string;
  fidoUserId : option string;
  isFidoVerified : bool;
  publicProfile : bool;
  password : option string;
  u_created : Z;
}.

(** Columns that an update leaves alone are absent from its data. *)
Definition keep {A} (new old : option A) : option A := match new with Some a => Some a | None => old end.

Definition with_password (p : option string) (u : user) : user :=
  User (u_id u) (email u) (username u) (firstName u) (lastName u) (verificationCode u) (isEmailVerified u) (supabaseUserId u) (keycloakUserId u) (clientId u) (clientSecret u) (profileImg u) (fidoUserId u) (isFidoVerified u) (publicProfile u) p (u_created u).
Definition with_code (c : string) (u : user) : user :=
  User (u_id u) (email u) (username u) (firstName u) (lastName u) (Some c) (isEmailVerified u) (supabaseUserId u) (keycloakUserId u) (clientId u) (clientSecret u) (profileImg u) (fidoUserId u) (isFidoVerified u) (publicProfile u) (password u) (u_created u).
Definition verified  (u : user) : user :=
  User (u_id u) (email u) (username u) (firstName u) (lastName u) (verificationCode u) true (supabaseUserId u) (keycloakUserId u) (clientId u) (clientSecret u) (profileImg u) (fidoUserId u) (isFidoVerified u) (publicProfile u) (password u) (u_created u).
Definition registered (kc : string) (u : user) : user :=
  User (u_id u) (email u) (username u) (firstName u) (lastName u) (verificationCode u) true (supabaseUserId u) (Some kc) (clientId u) (clientSecret u) (profileImg u) (fidoUserId u) (isFidoVerified u) (publicProfile u) (password u) (u_created u).
Definition with_names (f l : option string) (u : user) : user :=
  User (u_id u) (email u) (username u) (keep f (firstName u)) (keep l (lastName u)) (verificationCode u) (isEmailVerified u) (supabaseUserId u) (keycloakUserId u) (clientId u) (clientSecret u) (profileImg u) (fidoUserId u) (isFidoVerified u) (publicProfile u) (password u) (u_created u).
Definition with_profile (img f l : option string) (public : option bool) (u : user) : user :=
  User (u_id u) (email u) (username u) (keep f (firstName u)) (keep l (lastName u)) (verificationCode u) (isEmailVerified u) (supabaseUserId u) (keycloakUserId u) (clientId u) (clientSecret u) (keep img (profileImg u)) (fidoUserId u) (isFidoVerified u) (default (publicProfile u) public) (password u) (u_created u).
Definition with_fido (id : option (option string)) (ok : option bool) (u : user) : user :=
  User (u_id u) (email u) (username u) (firstName u) (lastName u) (verificationCode u) (isEmailVerified u) (supabaseUserId u) (keycloakUserId u) (clientId u) (clientSecret u) (profileImg u) (default (fidoUserId u) id) (default (isFidoVerified u) ok) (publicProfile u) (password u) (u_created u).

Record account := Account {
  ac_id : string;
  ac_userId : string;
  provider : string;
  providerAccountId : string;
  tokenType : option string;
}.

Record session := Session {
  s_id : string;
  sessionToken : string;
  s_userId : string;
  expires : Z;
  refreshToken : option string;
  s_accountId : option string;
  sessionType : option string;
  s_expiresAt : option Z;
  clientInfo : Json.value;
}.

Record token := Token { t_id : string; t_token : string; t_userId : string; t_expiresAt : Z }.

Record user_device := Device {
  dv_id : string;
  dv_userId : option string;
  dv_devices : Json.value;
  credentialId : option string;
  deviceFriendlyName : option string;
  dv_deletedAt : option Z;
  authCounter : Z;
  dv_created : Z;
}.

Record user_org_role := UserOrgRole {
  ur_id : string;
  ur_userId : string;
  ur_orgRoleId : string;
  ur_orgId : option string;
  ur_idpRoleId : option string;
}.

Record user_role_mapping := RoleMapping { rm_id : string; rm_userId : string; rm_userRoleId : string }.

Inductive CloudWalletType := BASE_WALLET | SUB_WALLET.
#[export] Instance wallet_type_eq_dec : EqDecision CloudWalletType.
Proof. solve_decision. Defined.
Record wallet := Wallet { wa_id : string; wa_userId : option string; wa_type : CloudWalletType }.

(** A row of another service that refers to a user *)
Record reference := Reference { rf_id : string; rf_userId : option string }.

Record user_org_delete_activity := DeleteActivity {
  da_id : string;
  da_orgId : string;
  da_userEmail : string;
  da_deletedBy : string;
  da_recordType : string;
  da_txnMetadata : Json.value;
  da_userId : string;
}.

Record platform_config := PlatformConfig {
  pc_id : string;
  externalIp : string;
  inboundEndpoint : option string;
  sgApiKey : string;
  emailFrom : string;
  apiEndpoint : string;
}.

Record org_role := Role { r_id : string; r_name : string }.
Record user_role := UserRole { uro_id : string; uro_role : string }.

(** ** Calls to other parties *)

Record verification_mail := VerificationMail {
  vm_email : string;
  vm_code : string;
  vm_brandLogoUrl : option string;
  vm_platformName : option string;
  vm_redirectTo : option string;
  vm_clientAlias : string;
  vm_invitationId : option string;
}.

Inductive call :=
  | Http (r : http_request)
  | MailVerification (m : verification_mail)
  | MailReset (to code : string)
  | NatsCall (cmd : string) (payload : list string)
  | SignInWithPassword (email : string) (password : Json.value).

(** The other parties answer a call as they please, depending on every call made to them
    before.  [on_supabase] is an error text or the session of the answer.  [reading] is what
    the clock shows, and [schedule] whether a query that was not awaited comes first. *)
Class Parties := {
  on_http : list call -> any + axios_error;
  on_email : list call -> result bool;
  on_nats : list call -> result Json.value;
  on_supabase : list call -> string + any;
  reading : nat -> Z;
  schedule : nat -> bool;
}.

(** The roles and the packages: the test of an address ([validator]) and the payload of a
    token, which is read without verification ([jsonwebtoken]; [None] when it has no valid
    form). *)
Class Platform := {
  org_roles : list org_role;
  all_user_roles : list user_role;
  isEmail : string -> bool;
  jwt_decode : string -> option Json.value;
}.

(** ** The state *)

Record tables := Tables {
  users : list user;
  accounts : list account;
  sessions : list session;
  tokens : list token;
  devices : list user_device;
  user_roles : list user_org_role;
  role_mappings : list user_role_mapping;
  invitations : list reference;
  activities : list reference;
  ecosystem_invitations : list reference;
  wallets : list wallet;
  ecosystem_orgs : list reference;
  subscriptions : list reference;
  deletions : list user_org_delete_activity;
  configs : list platform_config;
}.

Record world := World { db : tables; calls : list call; drawn : nat; ticks : nat }.

Definition set_db (d : tables) (w : world) : world := World d (calls w) (drawn w) (ticks w).
Definition rollback (w w' : world) : world := set_db (db w) w'.

Definition set_users v (d : tables) := Tables v (accounts d) (sessions d) (tokens d) (devices d) (user_roles d) (role_mappings d) (invitations d) (activities d) (ecosystem_invitations d) (wallets d) (ecosystem_orgs d) (subscriptions d) (deletions d) (configs d).
Definition set_accounts v (d : tables) := Tables (users d) v (sessions d) (tokens d) (devices d) (user_roles d) (role_mappings d) (invitations d) (activities d) (ecosystem_invitations d) (wallets d) (ecosystem_orgs d) (subscriptions d) (deletions d) (configs d).
Definition set_sessions v (d : tables) := Tables (users d) (accounts d) v (tokens d) (devices d) (user_roles d) (role_mappings d) (invitations d) (activities d) (ecosystem_invitations d) (wallets d) (ecosystem_orgs d) (subscriptions d) (deletions d) (configs d).
Definition set_tokens v (d : tables) := Tables (users d) (accounts d) (sessions d) v (devices d) (user_roles d) (role_mappings d) (invitations d) (activities d) (ecosystem_invitations d) (wallets d) (ecosystem_orgs d) (subscriptions d) (deletions d) (configs d).
Definition set_devices v (d : tables) := Tables (users d) (accounts d) (sessions d) (tokens d) v (user_roles d) (role_mappings d) (invitations d) (activities d) (ecosystem_invitations d) (wallets d) (ecosystem_orgs d) (subscriptions d) (deletions d) (configs d).
Definition set_user_roles v (d : tables) := Tables (users d) (accounts d) (sessions d) (tokens d) (devices d) v (role_mappings d) (invitations d) (activities d) (ecosystem_invitations d) (wallets d) (ecosystem_orgs d) (subscriptions d) (deletions d) (configs d).
Definition set_role_mappings v (d : tables) := Tables (users d) (accounts d) (sessions d) (tokens d) (devices d) (user_roles d) v (invitations d) (activities d) (ecosystem_invitations d) (wallets d) (ecosystem_orgs d) (subscriptions d) (deletions d) (configs d).
Definition set_deletions v (d : tables) := Tables (users d) (accounts d) (sessions d) (tokens d) (devices d) (user_roles d) (role_mappings d) (invitations d) (activities d) (ecosystem_invitations d) (wallets d) (ecosystem_orgs d) (subscriptions d) v (configs d).
Definition set_configs v (d : tables) := Tables (users d) (accounts d) (sessions d) (tokens d) (devices d) (user_roles d) (role_mappings d) (invitations d) (activities d) (ecosystem_invitations d) (wallets d) (ecosystem_orgs d) (subscriptions d) (deletions d) v.

Section primitives.
Context {U : UuidSource} {P : Parties}.

Definition fresh : eff world string := fun w => (Ok (uuid (drawn w)), World (db w) (calls w) (S (drawn w)) (ticks w)).
Definition placed (c : call) : eff world (list call) := fun w =>
  let cs := (calls w ++ [c])%list in (Ok cs, World (db w) cs (drawn w) (ticks w)).
Definition read {A} (f : tables -> A) : eff world A := gets (fun w => f (db w)).
Definition write (f : tables -> tables) : eff world unit := modify (fun w => set_db (f (db w)) w).
Definition ask {A} (c : call) (answer : list call -> result A) : eff world A := cs ← placed c; lift (answer cs).
Definition now : eff world Z := fun w => (Ok (reading (ticks w)), World (db w) (calls w) (drawn w) (S (ticks w))).
Definition tick : eff world bool := fun w => (Ok (schedule (ticks w)), World (db w) (calls w) (drawn w) (S (ticks w))).

#[export] Instance world_http : HttpClient world := fun r => cs ← placed (Http r); mret (on_http cs).
#[export] Instance world_clock : Clock world := now.

(** A query that was sent without being awaited, next to one that is: the database runs
    them in either order. *)
Definition overlapping {A} (m : eff world unit) (k : eff world A) : eff world A :=
  first ← tick;
  if (first : bool) then _ ← m; k else a ← k; _ ← m; mret a.
End primitives.

Definition type_error {A} : eff world A := throw not_an_object.
Definition unauthorized (m : string) : exn := http_exn UnauthorizedException m.
Definition bad_request (m : string) : exn := http_exn BadRequestException m.
Definition not_found (m : string) : exn := http_exn NotFoundException m.
Definition conflict (m : string) : exn := http_exn ConflictException m.
Definition internal (m : string) : exn := http_exn InternalServerErrorException m.
(** The error of data that does not fit its columns *)
Definition prisma_validation : exn := Exn PrismaError "Invalid value" None None.

(** ** Frames

    A relation that holds across what leaves the tables alone, and across every call that
    sets no password. *)

Definition harmless (c : call) : Prop := match c with Http r => rq_method r <> PUT | _ => True end.

Section calm.
Context {U : UuidSource} {P : Parties}.

Class Calm (R : relation world) := {
  calm_preorder :: PreOrder R;
  calm_same w w' : db w' = db w -> calls w' = calls w -> (drawn w <= drawn w')%nat -> R w w';
  calm_call c : harmless c -> frames R (placed c);
}.

Context (R : relation world) `{HR : !Calm R}.

Lemma calmly_read {A} (f : tables -> A) : frames R (read f).
Proof using HR. intros w. by apply calm_same. Qed.
Lemma calmly_fresh : frames R fresh.
Proof using HR. intros w. apply calm_same; [done.. | simpl; lia]. Qed.
Lemma calmly_now : frames R now.
Proof using HR. intros w. by apply calm_same. Qed.
Lemma calmly_tick : frames R tick.
Proof using HR. intros w. by apply calm_same. Qed.
Lemma calmly_ask {A} c (f : list call -> result A) : harmless c -> frames R (ask c f).
Proof using HR. intros Hc. apply frames_bind; [exact _ | by apply calm_call|]. intros cs. apply frames_lift. exact _. Qed.
Lemma calmly_write (f : tables -> tables) : (forall w, R w (set_db (f (db w)) w)) -> frames R (write f).
Proof using Type. intros Hf w. apply Hf. Qed.
Lemma calmly_overlapping {A} (m : eff world unit) (k : eff world A) : frames R m -> frames R k -> frames R (overlapping m k).
Proof using HR. intros Hm Hk. unfold overlapping. apply frames_bind; [exact _ | apply calmly_tick|]. intros []; solve_frames. Qed.

#[export] Instance calm_quiet : Quiet R.
Proof using HR.
  split; [exact _ | |intros w; apply calmly_now].
  intros r Hr. apply frames_bind; [exact _ | by apply calm_call|]. intros cs. apply frames_ret. exact _.
Qed.
End calm.

#[export] Hint Extern 1 (frames ?R (placed _)) => apply (calm_call (R := R)); exact I : platform.
#[export] Hint Extern 1 (frames ?R (read _)) => apply (calmly_read R) : platform.
#[export] Hint Extern 1 (frames ?R fresh) => apply (calmly_fresh R) : platform.
#[export] Hint Extern 1 (frames ?R now) => apply (calmly_now R) : platform.
#[export] Hint Extern 1 (frames ?R (ask _ _)) => apply (calmly_ask R); exact I : platform.
