(* ===== verification/UserRepository.v ===== *)
(** * Users: repository

    [user.repository.ts], one definition per method that the service calls.  A query answers
    with whole rows where the code selects columns. *)

From S2P Require Import Prelude Js Table CommonService ClientRegistration UserData.

Open Scope Z_scope.

Section repository.
Context {U : UuidSource} {P : Parties} {T : Platform}.

Definition user_is (id : string) (u : user) : bool := String.eqb (u_id u) id.
Definition email_is (e : string) (u : user) : bool := bool_decide (email u = Some e).
Definition username_is (n : string) (u : user) : bool := bool_decide (username u = Some n).

(** ** Creating users *)

(** The unique indexes on [email] and [username] *)
Definition taken (u : user) (t : list user) : bool :=
  existsb (fun u' => (bool_decide (email u <> None) && bool_decide (email u' = email u)) ||
                     (bool_decide (username u <> None) && bool_decide (username u' = username u))) t.

Definition insert_user (mk : string -> Z -> user) : eff world user :=
  t ← read users;
  id ← fresh;
  at_ ← now;
  let u := mk id at_ in
  if taken u t then throw prisma_unique else _ ← write (set_users (t ++ [u])%list); mret u.

(** The row that [update] finds by a unique column *)
Definition update_user (p : user -> bool) (f : user -> user) : eff world user :=
  t ← read users;
  match first p t with
  | None => throw prisma_missing
  | Some u => _ ← write (set_users (update_where p f t)); mret (f u)
  end.

Record ISendVerificationEmail := SendVerification {
  sv_email : string;
  sv_clientAlias : string;
  sv_brandLogoUrl : option string;
  sv_platformName : option string;
  sv_redirectTo : option string;
  sv_invitationId : option string;
}.

Definition new_user (email_ username_ : string) (code : string) (clientId_ clientSecret_ : option string) (ok : bool) (id : string) (at_ : Z) : user :=
  User id (Some email_) (Some username_) None None (Some code) ok None None clientId_ clientSecret_ None None false true None at_.

Definition createUser (email_ username_ verifyCode : string) (clientId_ clientSecret_ : option string) (ok : bool) : eff world user :=
  t ← read users;
  match first (email_is email_) t with
  | Some _ => update_user (email_is email_) (with_code verifyCode)
  | None => insert_user (new_user email_ username_ verifyCode clientId_ clientSecret_ ok)
  end.

Definition checkUserExist (e : string) : eff world (option user) := read (fun d => first (email_is e) (users d)).
Definition getUserDetails (e : string) : eff world (option user) := read (fun d => first (email_is e) (users d)).
Definition checkUniqueUserExist (e : string) : eff world (option user) := read (fun d => first (email_is e) (users d)).

Definition checkUserExistByUsername (n : string) : eff world (option user) :=
  read (fun d => first (username_is (Str.toLowerCase n)) (users d)).

Record username_signup := UsernameSignup {
  un_username : string;
  un_firstName : string;
  un_lastName : string;
  un_clientId : string;
  un_clientSecret : string;
  un_isPasskey : bool;
  un_password : option string;
  un_email : string;
}.

Definition username_user (i : username_signup) (kc id : string) (at_ : Z) : user :=
  User id (Some (Str.toLowerCase (un_email i))) (Some (Str.toLowerCase (un_username i))) (Some (un_firstName i)) (Some (un_lastName i))
    None false None (Some kc) (Some (un_clientId i)) (Some (un_clientSecret i)) None None false true
    (if un_isPasskey i then un_password i else None) at_.

Definition createUserByUsername (i : username_signup) (kc : string) : eff world user :=
  try_catch (insert_user (username_user i kc))
    (fun e => if bool_decide (exn_code e = Some "P2002") then throw (conflict "User already exists") else throw e).

(** ** Deleting a user

    What refers to the user goes with it; the rows that belong to an organization, the
    subscriptions and the base wallets only lose the reference, by the foreign keys. *)

Definition of_user (id : string) (o : option string) : bool := bool_decide (o = Some id).
Definition orphan (id : string) (r : reference) : reference := if of_user id (rf_userId r) then Reference (rf_id r) None else r.
Definition orphan_wallet (id : string) (a : wallet) : wallet := if of_user id (wa_userId a) then Wallet (wa_id a) None (wa_type a) else a.
Definition others {R} (p : R -> bool) (t : list R) : list R := List.filter (fun r => negb (p r)) t.

Definition without_user (id : string) (d : tables) : tables :=
  Tables (others (user_is id) (users d))
    (others (fun a => String.eqb (ac_userId a) id) (accounts d))
    (others (fun s => String.eqb (s_userId s) id) (sessions d))
    (others (fun t => String.eqb (t_userId t) id) (tokens d))
    (others (fun v => of_user id (dv_userId v)) (devices d))
    (others (fun r => String.eqb (ur_userId r) id) (user_roles d))
    (others (fun r => String.eqb (rm_userId r) id) (role_mappings d))
    (others (fun r => of_user id (rf_userId r)) (invitations d))
    (others (fun r => of_user id (rf_userId r)) (activities d))
    (others (fun r => of_user id (rf_userId r)) (ecosystem_invitations d))
    (map (orphan_wallet id) (others (fun a => of_user id (wa_userId a) && bool_decide (wa_type a = SUB_WALLET)) (wallets d)))
    (map (orphan id) (ecosystem_orgs d))
    (map (orphan id) (subscriptions d))
    (deletions d) (configs d).

(** The statements of one transaction, the last of which misses an unknown user *)
Definition deleteUserAndRelatedData (id : string) : eff world user :=
  transaction rollback (
    u ← read (fun d => first (user_is id) (users d));
    _ ← write (without_user id);
    match u with Some u => mret u | None => throw prisma_missing end).

(** ** Reading and updating users *)

Definition getUserById (id : string) : eff world (option user) := read (fun d => first (user_is id) (users d)).

Record UpdateUserProfile := UpdateProfile {
  up_id : string;
  up_profileImg : option string;
  up_firstName : option string;
  up_lastName : option string;
  up_isPublic : option bool;
}.

Definition updateUserProfile (p : UpdateUserProfile) : eff world user :=
  try_catch (update_user (user_is (up_id p)) (with_profile (up_profileImg p) (up_firstName p) (up_lastName p) (up_isPublic p)))
    (fun e => throw (internal (exn_message e))).

Definition getUserBySupabaseId (id : string) : eff world (option user) :=
  read (fun d => first (fun u => bool_decide (supabaseUserId u = Some id)) (users d)).

(** An absent identifier filters nothing. *)
Definition keycloak_is (id : any) (u : user) : bool :=
  match id with
  | None => true
  | Some (Json.JStr i) => bool_decide (keycloakUserId u = Some i)
  | Some _ => bool_decide (keycloakUserId u = None)
  end.

Definition getUserByKeycloakId (id : any) : eff world user :=
  match id with
  | None | Some Json.JNull | Some (Json.JStr _) =>
      t ← read users;
      match first (keycloak_is id) t with Some u => mret u | None => throw prisma_missing end
  | Some _ => throw prisma_validation
  end.

Definition findUserByEmail (e : string) : eff world (option user) := read (fun d => first (email_is e) (users d)).

Definition updateUserDetails (id kc : string) : eff world user := update_user (user_is id) (registered kc).
Definition updateUserInfo (e : string) (f l : option string) : eff world user := update_user (email_is e) (with_names f l).
Definition verifyUser (e : string) : eff world user := update_user (email_is e) verified.
Definition addUserPassword (e : string) (p : option string) : eff world user :=
  update_user (email_is e) (match p with Some _ => with_password p | None => fun u => u end).

(** *** Listings *)

Definition contains_insensitive (search : string) (o : option string) : bool :=
  match o with Some s => Str.contains (Str.toLowerCase search) (Str.toLowerCase s) | None => false end.
Definition matches (search : string) (u : user) : bool :=
  contains_insensitive search (firstName u) || contains_insensitive search (lastName u) || contains_insensitive search (email u).

Definition ceil_div (n d : Z) : Z := - ((- n) / d).

Definition has_role_in (org : string) (t : list user_org_role) (u : user) : bool :=
  existsb (fun r => String.eqb (ur_userId r) (u_id u) && bool_decide (ur_orgId r = Some org)) t.

Definition findOrgUsers (org search : string) (pageNumber pageSize : Z) : eff world (Z * list user) :=
  d ← read id;
  let found := List.filter (fun u => has_role_in org (user_roles d) u && matches search u) (users d) in
  mret (ceil_div (Z.of_nat (length found)) pageSize, page_of pageNumber pageSize (sort_desc u_created found)).

(** The count does not ask for public profiles. *)
Definition findUsers (search : string) (pageNumber pageSize : Z) : eff world (Z * list user) :=
  d ← read id;
  let listed := List.filter (fun u => matches search u && publicProfile u) (users d) in
  let counted := List.filter (matches search) (users d) in
  mret (ceil_div (Z.of_nat (length counted)) pageSize, page_of pageNumber pageSize (sort_desc u_created listed)).

Record UserKeycloakId := KeycloakId { ki_id : option string; ki_keycloakUserId : option string; ki_email : string }.

(** [x || null] *)
Definition or_null (o : option string) : option string := if truthy_str o then o else None.

(** The map keeps the last row of an address; the index on [email] leaves one. *)
Definition getUserKeycloak (userEmails : list string) : eff world (list UserKeycloakId) :=
  t ← read users;
  mret (map (fun e => let u := first (email_is e) (rev t) in
    KeycloakId (or_null (u_id <$> u)) (or_null (u ≫= keycloakUserId)) e) userEmails).

(** ** Tokens for a new password *)

Definition createTokenForResetPassword (userId code : string) (expireTime : Z) : eff world token :=
  t ← read tokens;
  if existsb (fun r => String.eqb (t_token r) code) t then throw prisma_unique else
  id ← fresh;
  let row := Token id code userId expireTime in
  _ ← write (set_tokens (t ++ [row])%list);
  mret row.

Definition getResetPasswordTokenDetails (userId code : string) : eff world (option token) :=
  read (fun d => first (fun r => String.eqb (t_userId r) userId && String.eqb (t_token r) code) (tokens d)).

Definition deleteResetPasswordToken (id : string) : eff world token :=
  t ← read tokens;
  match first (fun r => String.eqb (t_id r) id) t with
  | None => throw prisma_missing
  | Some r => _ ← write (set_tokens (others (fun r => String.eqb (t_id r) id) t)); mret r
  end.

(** ** Accounts and sessions *)

Definition checkAccountDetails (userId : string) : eff world (option account) :=
  read (fun d => first (fun a => String.eqb (ac_userId a) userId) (accounts d)).

Definition addAccountDetails (userId : string) (kc : option string) (type : string) : eff world account :=
  match kc with
  | None => throw prisma_validation
  | Some kc =>
      t ← read accounts;
      if existsb (fun a => String.eqb (ac_userId a) userId) t then throw prisma_unique else
      id ← fresh;
      let row := Account id userId "keycloak" kc (Some type) in
      _ ← write (set_accounts (t ++ [row])%list);
      mret row
  end.

(** [expiresAt] is [None] for an invalid date. *)
Record ISession := NewSession {
  ns_id : any;
  ns_sessionToken : any;
  ns_userId : string;
  ns_expires : any;
  ns_refreshToken : any;
  ns_accountId : string;
  ns_expiresAt : option Z;
  ns_clientInfo : any;
}.

Definition session_is (id : string) (s : session) : bool := String.eqb (s_id s) id.
Definition clientToken : Json.value := Json.JObj [("clientToken", Json.JBool true)].

Definition session_row (n : ISession) : option session :=
  match ns_id n, ns_sessionToken n, ns_expires n, ns_refreshToken n, ns_expiresAt n with
  | Some (Json.JStr i), Some (Json.JStr a), Some (Json.JNum e), Some (Json.JStr r), Some x =>
      Some (Session i a (ns_userId n) e (Some r) (Some (ns_accountId n)) (Some "user-session") (Some x)
        (if any_truthy (ns_clientInfo n) then default clientToken (ns_clientInfo n) else clientToken))
  | _, _, _, _, _ => None
  end.

Definition createSession (n : ISession) : eff world session :=
  match session_row n with
  | None => throw prisma_validation
  | Some row =>
      t ← read sessions;
      if existsb (session_is (s_id row)) t then throw prisma_unique else
      _ ← write (set_sessions (t ++ [row])%list);
      mret row
  end.

Definition session_of (userId : string) (s : session) : bool := String.eqb (s_userId s) userId.
Definition fetchUserSessions (userId : string) : eff world (list session) := read (fun d => List.filter (session_of userId) (sessions d)).

Definition getSession (id : any) : eff world (option session) :=
  match id with Some (Json.JStr i) => read (fun d => first (session_is i) (sessions d)) | _ => throw (not_found "Invalid value") end.

Definition destroySession (ids : list string) : eff world unit :=
  write (fun d => set_sessions (others (fun s => existsb (String.eqb (s_id s)) ids) (sessions d)) d).

(** [delete] of the one row that satisfies a test with a unique column *)
Definition remove_session (p : session -> bool) (missing : exn) : eff world session :=
  t ← read sessions;
  match first p t with
  | None => throw missing
  | Some s => _ ← write (set_sessions (others p t)); mret s
  end.

Definition deleteSession (id : any) : eff world session :=
  match id with
  | Some (Json.JStr i) => remove_session (session_is i) (not_found "Record to be deleted not found")
  | _ => throw prisma_validation
  end.

Definition deleteSessionBySessionId (id userId : string) : eff world string :=
  _ ← remove_session (fun s => session_is id s && session_of userId s)
    (Exn RpcException ("Session not found for userId: " +:+ userId) (Some 404) None);
  mret "Session deleted successfully".

Definition expired_at (t : Z) (s : session) : bool := match s_expiresAt s with Some x => x <? t | None => false end.

Definition deleteInactiveSessions (userId : string) : eff world unit :=
  t ← now;
  write (fun d => set_sessions (others (fun s => expired_at t s && session_of userId s) (sessions d)) d).

Record ITokenData := TokenData { td_sessionToken : any; td_expires : any; td_refreshToken : any; td_expiresAt : option Z }.

(** An absent column is left alone, a value of another type refused. *)
Definition token_data_fits (t : ITokenData) : bool :=
  match td_sessionToken t with None | Some (Json.JStr _) => true | _ => false end &&
  match td_expires t with None | Some (Json.JNum _) => true | _ => false end &&
  match td_refreshToken t with None | Some Json.JNull | Some (Json.JStr _) => true | _ => false end &&
  match td_expiresAt t with Some _ => true | None => false end.

Definition with_token_data (t : ITokenData) (s : session) : session :=
  Session (s_id s)
    (match td_sessionToken t with Some (Json.JStr a) => a | _ => sessionToken s end) (s_userId s)
    (match td_expires t with Some (Json.JNum n) => n | _ => expires s end)
    (match td_refreshToken t with Some (Json.JStr r) => Some r | Some Json.JNull => None | _ => refreshToken s end)
    (s_accountId s) (sessionType s) (keep (td_expiresAt t) (s_expiresAt s)) (clientInfo s).

Definition updateSessionToken (id : any) (t : ITokenData) : eff world session :=
  if negb (any_truthy id) then throw (bad_request "Missing id or tokenData for session details update") else
  match id with
  | Some (Json.JStr i) =>
      if negb (token_data_fits t) then throw prisma_validation else
      rows ← read sessions;
      match first (session_is i) rows with
      | None => throw (not_found "Session not found")
      | Some s => _ ← write (set_sessions (update_where (session_is i) (with_token_data t) rows)); mret (with_token_data t s)
      end
  | _ => throw prisma_validation
  end.

(** ** Settings, activities and roles *)

Record PlatformSettings := Settings {
  ps_externalIp : option string;
  ps_inboundEndpoint : option string;
  ps_sgApiKey : option string;
  ps_emailFrom : option string;
  ps_apiEndPoint : option string;
}.

Definition with_settings (s : PlatformSettings) (c : platform_config) : platform_config :=
  PlatformConfig (pc_id c) (default (externalIp c) (ps_externalIp s)) (keep (ps_inboundEndpoint s) (inboundEndpoint c))
    (default (sgApiKey c) (ps_sgApiKey s)) (default (emailFrom c) (ps_emailFrom s)) (default (apiEndpoint c) (ps_apiEndPoint s)).

Definition updatePlatformSettings (s : PlatformSettings) : eff world platform_config :=
  t ← read configs;
  match t with
  | [] => throw (internal (exn_message not_an_object))
  | c :: _ =>
      _ ← write (set_configs (update_where (fun r => String.eqb (pc_id r) (pc_id c)) (with_settings s) t));
      mret (with_settings s c)
  end.

Definition getPlatformSettings : eff world (list platform_config) := read configs.

Definition updateOrgDeletedActivity (orgId userId deletedBy recordType userEmail : string) (txnMetadata : Json.value) : eff world user_org_delete_activity :=
  id ← fresh;
  let row := DeleteActivity id orgId userEmail deletedBy recordType txnMetadata userId in
  _ ← write (fun d => set_deletions (deletions d ++ [row])%list d);
  mret row.

Definition getUserRole (role : string) : eff world user_role :=
  match first (fun r => String.eqb (uro_role r) role) all_user_roles with Some r => mret r | None => throw prisma_missing end.

Definition storeUserRole (userId userRoleId : string) : eff world user_role_mapping :=
  id ← fresh;
  let row := RoleMapping id userId userRoleId in
  _ ← write (fun d => set_role_mappings (role_mappings d ++ [row])%list d);
  mret row.

Definition handleGetUserOrganizations (userId : string) : eff world (list user_org_role) :=
  read (fun d => List.filter (fun r => String.eqb (ur_userId r) userId) (user_roles d)).

(** *** [libs/org-roles], [libs/user-org-roles] *)

Definition getRole (name : string) : option org_role := first (fun r => String.eqb (r_name r) name) org_roles.
Definition getOrgRolesByIds (ids : list string) : list org_role := List.filter (fun r => existsb (String.eqb (r_id r)) ids) org_roles.

(** A role or an organization that is falsy is not connected. *)
Definition createUserOrgRole (userId roleId : string) (orgId idpRoleId : option string) : eff world user_org_role :=
  id ← fresh;
  let row := UserOrgRole id userId roleId (or_null orgId) (or_null idpRoleId) in
  _ ← write (fun d => set_user_roles (user_roles d ++ [row])%list d);
  mret row.
End repository.
