(* ===== verification/User.v ===== *)
(** * Users: service

    [user.service.ts]: registration by address and by name, sessions, passwords, and the
    reads other services use.  The listings of invitations and the public profile are left
    out; [acceptRejectInvitations] is in [Organization]. *)

From S2P Require Import Prelude Js Table JsonParse CastHelper CommonService ClientRegistration UserData UserRepository.

Open Scope Z_scope.

Section service.
Context {U : UuidSource} {P : Parties} {T : Platform} {V : ProcessEnv} {C : Cipher}.

(** ** Clients of the platform *)

Record IClientDetailsSSO := ClientDetails {
  cd_alias : option string;
  cd_domain : option string;
  cd_clientId : option string;
  cd_clientSecret : option string;
}.

Fixpoint toUpperCase (s : string) : string := match s with EmptyString => "" | String c s' => String (CastHelper.upper c) (toUpperCase s') end.

(** [JSON.stringify] of an absent credential is no text, which the cipher refuses. *)
Definition encrypt_env (name : string) : eff world string := fun w =>
  (match process_env name with
   | Some s => encryptClientCredential CRYPTO_PRIVATE_KEY (drawn w) s
   | None => Throw not_an_object
   end, World (db w) (calls w) (S (drawn w)) (ticks w)).

Definition getDefaultClient : eff world IClientDetailsSSO :=
  id ← encrypt_env "KEYCLOAK_MANAGEMENT_CLIENT_ID";
  secret ← encrypt_env "KEYCLOAK_MANAGEMENT_CLIENT_SECRET";
  mret (ClientDetails (toUpperCase <$> process_env "PLATFORM_NAME") (process_env "FRONT_END_URL") (Some id) (Some secret)).

Definition getClientDetails (alias : string) : IClientDetailsSSO :=
  ClientDetails (opt_str_or (process_env (alias +:+ "_ALIAS")) (Some alias)) (process_env (alias +:+ "_DOMAIN"))
    (process_env (alias +:+ "_KEYCLOAK_MANAGEMENT_CLIENT_ID")) (process_env (alias +:+ "_KEYCLOAK_MANAGEMENT_CLIENT_SECRET")).

Definition getCredentialsByAlias (alias : string) : eff world IClientDetailsSSO :=
  defaultClient ← getDefaultClient;
  if bool_decide (Some (toUpperCase alias) = cd_alias defaultClient) then mret defaultClient else
  let c := getClientDetails alias in
  if negb (truthy_str (cd_clientId c)) || negb (truthy_str (cd_clientSecret c)) || negb (truthy_str (cd_domain c))
  then throw (js_error ("Missing configuration for SSO client: " +:+ alias)) else mret c.

(** ** Verification of an address *)

(** The part [n] of [email.split('@')] *)
Definition email_part (n : nat) (e : string) : option string := Str.split "@" e !! n.

Definition name_char (c : ascii) : bool :=
  let n := Str.code c in (((97 <=? n) && (n <=? 122)) || ((65 <=? n) && (n <=? 90)) || ((48 <=? n) && (n <=? 57)) || (n =? 95))%N.
Fixpoint clean_name (s : string) : string :=
  match s with EmptyString => "" | String c s' => String (if name_char c then c else "-"%char) (clean_name s') end.

Definition createUsername (e verifyCode : string) : string :=
  clean_name (Str.toLowerCase (default "" (email_part 0 e))) +:+ "-" +:+ default "" (Str.split "-" verifyCode !! 0%nat).

Definition email_sender : eff world string :=
  t ← read configs;
  match t with c :: _ => mret (emailFrom c) | [] => type_error end.

Definition emailSend : exn := internal "Unable to send email to the user".

Definition sendEmailForVerification (m : verification_mail) : eff world bool :=
  rpc (
    _ ← email_sender;
    isEmailSent ← ask (MailVerification m) on_email;
    if (isEmailSent : bool) then mret true else throw emailSend).

(** [const [redirectUrl] = client?.redirectUris || []] *)
Definition first_redirect (clients : any) : result any :=
  client ← item 0 clients;
  match prop_opt "redirectUris" (match client with Some Json.JNull => None | _ => client end) with
  | Some (Json.JArr vs) => Ok (head vs)
  | Some (Json.JStr s) => Ok ((fun c => Json.JStr (String c "")) <$> String.get 0 s)
  | Some v => if Json.truthy v then Throw (js_error "object is not iterable") else Ok None
  | None => Ok None
  end.

Definition userExists : exn := conflict "User already exists".
Definition linkAlreadySent : string := "The verification link has already been sent to your email address".

Definition sendVerificationMail (p : ISendVerificationEmail) : eff world (option user) :=
  rpc (
    let e := sv_email p in
    if bool_decide (process_env "PLATFORM_PROFILE_MODE" = Some "PROD") &&
       match email_part 1 e with Some d => existsb (String.eqb d) DISALLOWED_EMAIL_DOMAIN | None => false end
    then throw (bad_request "Email from this domain is not allowed") else
    found ← checkUserExist e;
    match found with
    | Some u => throw (if isEmailVerified u then userExists else conflict linkAlreadySent)
    | None =>
        verifyCode ← fresh;
        clientDetails ← getCredentialsByAlias (sv_clientAlias p);
        if bool_decide (process_env "ADMIN_CLIENT_ALIAS" = Some (sv_clientAlias p))
        then throw (http_exn ForbiddenException "Use of ADMIN alias for user creation is forbidden") else
        let create := createUser e (createUsername e verifyCode) verifyCode (cd_clientId clientDetails) (cd_clientSecret clientDetails) in
        if truthy_str (sv_invitationId p) then u ← create true; mret (Some u) else
        sent ← try_catch (
          token ← getManagementToken (cd_clientId clientDetails) (cd_clientSecret clientDetails);
          clients ← getClientRedirectUrl (cd_clientId clientDetails) token;
          redirectUrl ← lift (first_redirect clients);
          if negb (any_truthy redirectUrl) then throw (not_found "Redirect URL not found") else
          sendEmailForVerification (VerificationMail e verifyCode (sv_brandLogoUrl p) (sv_platformName p)
            (keep (sv_redirectTo p) (cd_domain clientDetails)) (sv_clientAlias p) (sv_invitationId p)))
          (fun _ => throw emailSend);
        if (sent : bool) then u ← create false; mret (Some u) else mret None
    end).

Definition invalidEmailUrl : exn := unauthorized "Invalid verification code or EmailId!".

Definition verifyEmail (e code : option string) : eff world user :=
  rpc (
    if negb (truthy_str code) || negb (truthy_str e) then throw invalidEmailUrl else
    found ← getUserDetails (default "" e);
    match found with
    | None => throw invalidEmailUrl
    | Some u =>
        if negb (bool_decide (code = verificationCode u)) then throw invalidEmailUrl
        else if isEmailVerified u then throw (conflict "Email already verified")
        else verifyUser (default "" e)
    end).

(** ** Registration *)

Record IUserInformation := UserInformation {
  ui_email : option string;
  ui_password : option string;
  ui_firstName : option string;
  ui_lastName : option string;
  ui_isPasskey : bool;
  ui_isHolder : bool;
}.

Definition keycloakError : exn := internal "Error while registering user on keycloak".

(** [x.toString()] *)
Definition any_toString (a : any) : result string :=
  match a with None | Some Json.JNull => Throw not_an_object | Some v => Ok (json_string v) end.

(** The first element of [roles.filter(role => role.name === name)], or [false] *)
Fixpoint role_named (name : string) (roles : list Json.value) : result any :=
  match roles with
  | [] => Ok None
  | r :: rs =>
      n ← prop "name" (Some r);
      found ← role_named name rs;
      Ok (if bool_decide (Json.as_str n = Some name) then Some r else found)
  end.

Definition holder_role (roles : any) : result any :=
  match roles with Some (Json.JArr rs) => role_named "holder" rs | _ => Throw not_an_object end.

(** What follows the creation of the Keycloak user in both registrations: the roles of a
    holder and the account. *)
Definition register_holder (userId : string) (keycloakUserId_ token : any) (isHolder : bool) : eff world string :=
  _ ← (if isHolder then r ← getUserRole "HOLDER"; _ ← storeUserRole userId (uro_id r); mret tt else mret tt);
  realmRoles ← getAllRealmRoles token;
  holderRoleData ← lift (holder_role realmRoles);
  kc ← lift (any_toString keycloakUserId_);
  let id := prop_opt "id" holderRoleData in
  _ ← createUserHolderRole token kc [Json.JObj (Json.opt_field "id" id ++ Json.opt_field "name" (prop_opt "name" holderRoleData))%list];
  match getRole "holder" with
  | None => type_error
  | Some holderOrgRole =>
      _ ← createUserOrgRole userId (r_id holderOrgRole) None (Json.as_str id);
      _ ← addAccountDetails userId (Json.as_str keycloakUserId_) "Bearer";
      mret userId
  end.

Definition dto_of (i : IUserInformation) (pw : Json.value) : CreateUserDto :=
  CreateUser None (ui_email i) (Some pw) (of_str (ui_firstName i)) (of_str (ui_lastName i)) (ui_isHolder i).

Definition createUserForToken (i : IUserInformation) : eff world string :=
  rpc (
    if negb (truthy_str (ui_email i)) then throw (unauthorized "Invalid Email Id!") else
    let e := Str.toLowerCase (default "" (ui_email i)) in
    found ← getUserDetails e;
    match found with
    | None => throw (not_found "Email is not verified")
    | Some checkUserDetails =>
        if truthy_str (keycloakUserId checkUserDetails) || truthy_str (supabaseUserId checkUserDetails) then throw userExists else
        if negb (isEmailVerified checkUserDetails)
        then throw (not_found "The verification link has already been sent to your email address. please verify") else
        _ ← updateUserInfo e (ui_firstName i) (ui_lastName i);
        found ← getUserDetails e;
        match found with
        | None => throw (not_found "Unable to add user details")
        | Some userDetails =>
            token ← getManagementToken (clientId checkUserDetails) (clientSecret checkUserDetails);
            encrypted ← (if ui_isPasskey i then
                _ ← addUserPassword e (ui_password i);
                again ← getUserDetails e;
                match again with Some u => mret (password u) | None => type_error end
              else mret (ui_password i));
            decryptedPassword ← lift (decryptPassword encrypted);
            keycloakId ← try_catch (ClientRegistration.createUser (dto_of i decryptedPassword) KEYCLOAK_REALM token)
              (fun _ => throw keycloakError);
            kc ← lift (any_toString keycloakId);
            _ ← updateUserDetails (u_id userDetails) kc;
            register_holder (u_id userDetails) keycloakId token (ui_isHolder i)
        end
    end).

Record AddUserDetailsUsernameBasedDto := UsernameBased {
  ub_username : string;
  ub_password : option string;
  ub_firstName : string;
  ub_lastName : string;
  ub_isPasskey : bool;
  ub_isHolder : bool;
  ub_clientId : string;
  ub_clientSecret : string;
}.

Definition username_dto (i : AddUserDetailsUsernameBasedDto) (pw : Json.value) : CreateUserDto :=
  CreateUser (Some (ub_username i)) None (Some pw) (of_str (Some (ub_firstName i))) (of_str (Some (ub_lastName i))) (ub_isHolder i).

Definition createUserForUsernameToken (i : AddUserDetailsUsernameBasedDto) : eff world string :=
  rpc (
    if String.eqb (ub_username i) "" then throw (unauthorized "Invalid username!") else
    found ← checkUserExistByUsername (ub_username i);
    match found with
    | Some _ => throw userExists
    | None =>
        token ← getManagementToken (Some (ub_clientId i)) (Some (ub_clientSecret i));
        decryptedPassword ← lift (decryptPassword (ub_password i));
        keycloakDetails ← try_catch (ClientRegistration.createUserByUsername (username_dto i decryptedPassword) KEYCLOAK_REALM token)
          (fun e => if bool_decide (exn_class e = BadRequestException) || bool_decide (exn_class e = InternalServerErrorException)
            then throw e else throw keycloakError);
        kc ← lift (any_toString keycloakDetails.1);
        createdUser ← UserRepository.createUserByUsername (UsernameSignup (ub_username i) (ub_firstName i) (ub_lastName i)
          (ub_clientId i) (ub_clientSecret i) (ub_isPasskey i) (ub_password i) keycloakDetails.2) kc;
        register_holder (u_id createdUser) keycloakDetails.1 token (ub_isHolder i)
    end).

Definition deleteUser (id : string) : eff world user := rpc (deleteUserAndRelatedData id).

(** ** Tokens *)

Definition userNotFound : exn := not_found "User not found".
Definition verifyMail : exn := bad_request "Please verify your email".

(** [tokenResponse.isRegisteredToSupabase = false] *)
Definition tag_response (r : any) : result any :=
  match r with
  | Some (Json.JObj fs) => Ok (Some (Json.JObj (Json.set_field "isRegisteredToSupabase" (Json.JBool false) fs)))
  | Some (Json.JArr vs) => Ok (Some (Json.JArr vs))
  | _ => Throw not_an_object
  end.

Definition supabase_response (token : any) : result any :=
  a ← prop "access_token" token; t ← prop "token_type" token; e ← prop "expires_in" token; x ← prop "expires_at" token;
  Ok (Some (Json.JObj (Json.opt_field "access_token" a ++ Json.opt_field "token_type" t ++ Json.opt_field "expires_in" e ++
    Json.opt_field "expires_at" x ++ [("isRegisteredToSupabase", Json.JBool true)])%list)).

Definition generateToken (e : string) (pw : Json.value) (userData : user) : eff world any :=
  if truthy_str (keycloakUserId userData) then
    try_catch (
      r ← getUserToken e (Some pw) (clientId userData) (clientSecret userData);
      lift (tag_response r)) (fun _ => throw (unauthorized "Invalid Credentials"))
  else
    cs ← placed (SignInWithPassword e pw);
    match on_supabase cs with
    | inl message => throw (bad_request message)
    | inr token => lift (supabase_response token)
    end.

(** [jwt.decode] of any value *)
Definition decode_token (a : any) : any := match a with Some (Json.JStr s) => jwt_decode s | _ => None end.

(** [new Date(v * 1000)], [None] for an invalid date *)
Definition MAX_TIME : Z := 8640000000000000.
Definition seconds_date (a : any) : option Z :=
  n ← match a with
      | Some (Json.JNum n) => Some n
      | Some (Json.JStr s) => Num.Number s
      | Some (Json.JBool b) => Some (if b then 1 else 0)
      | Some Json.JNull => Some 0
      | _ => None
      end;
  if Z.abs (n * 1000) <=? MAX_TIME then Some (n * 1000) else None.

(** ** Sessions *)

(** [Number(process.env.SESSIONS_LIMIT) <= n]: no number, no limit *)
Definition limit_reached (n : nat) : bool :=
  match process_env "SESSIONS_LIMIT" with
  | Some s => match Num.Number s with Some l => l <=? Z.of_nat n | None => false end
  | None => false
  end.

Definition sessionLimitReached : exn :=
  bad_request "You have reached the maximum number of allowed sessions. Please remove an existing session to add a new one".

(** The deletion of the expired sessions is not awaited. *)
Definition check_session_limit (userId : string) : eff world unit :=
  userSessionDetails ← overlapping (deleteInactiveSessions userId) (fetchUserSessions userId);
  if limit_reached (length userSessionDetails) then throw sessionLimitReached else mret tt.

Definition refreshTokenExpired : exn := unauthorized "Refresh token has expired".

Definition object_type (v : Json.value) : bool := match v with Json.JObj _ | Json.JArr _ => true | _ => false end.

(** The session that the refresh token names, and the answer with its identifier *)
Definition record_session (userData : user) (tokenDetails info : any) : eff world Json.value :=
  let refresh := prop_opt "refresh_token" tokenDetails in
  match decode_token refresh with
  | None => throw refreshTokenExpired
  | Some decodedToken =>
      let exp := Json.get "exp" decodedToken in
      let sid := Json.get "sid" decodedToken in
      if negb (Json.truthy decodedToken) || negb (object_type decodedToken) || negb (any_truthy exp) || negb (any_truthy sid)
      then throw refreshTokenExpired else
      fetchAccountDetails ← checkAccountDetails (u_id userData);
      acc ← match fetchAccountDetails with
            | None => addAccountDetails (u_id userData) (keycloakUserId userData) "Bearer"
            | Some a => mret a
            end;
      s ← createSession (NewSession sid (prop_opt "access_token" tokenDetails) (u_id userData) (prop_opt "expires_in" tokenDetails)
        refresh (ac_id acc) (seconds_date exp) info);
      mret (Json.JObj (Json.set_field "sessionId" (Json.JStr (s_id s)) (match tokenDetails with Some (Json.JObj fs) => fs | _ => [] end)))
  end.

Definition validateEmail (e : string) : eff world unit :=
  if isEmail (Str.toLowerCase e) then mret tt else throw (unauthorized "Invalid Email Id!").

Definition registerFido : exn := unauthorized "Please complete your fido registration".

Record IUserSignIn := SignIn {
  si_email : string;
  si_password : option string;
  si_isPasskey : bool;
  si_clientInfo : any;
}.

Definition login (i : IUserSignIn) : eff world Json.value :=
  rpc (
    let e := Str.toLowerCase (si_email i) in
    _ ← validateEmail e;
    found ← checkUserExist e;
    match found with
    | None => throw userNotFound
    | Some userData =>
        if negb (isEmailVerified userData) then throw verifyMail else
        if si_isPasskey i && negb (isFidoVerified userData) then throw registerFido else
        _ ← check_session_limit (u_id userData);
        encrypted ← (if si_isPasskey i && truthy_str (username userData) && isFidoVerified userData then
            details ← getUserDetails (Str.toLowerCase (default "" (email userData)));
            match details with Some u => mret (password u) | None => type_error end
          else mret (si_password i));
        decryptedPassword ← lift (decryptPassword encrypted);
        tokenDetails ← generateToken e decryptedPassword userData;
        record_session userData tokenDetails (si_clientInfo i)
    end).

Definition usernameLogin (name : string) (pw : option string) (isPasskey : bool) : eff world Json.value :=
  rpc (
    found ← checkUserExistByUsername name;
    match found with
    | None => throw userNotFound
    | Some userData =>
        if isPasskey && negb (isFidoVerified userData) then throw registerFido else
        _ ← check_session_limit (u_id userData);
        let encrypted := if isPasskey && truthy_str (username userData) && isFidoVerified userData then password userData else pw in
        decryptedPassword ← lift (decryptPassword encrypted);
        tokenDetails ← generateToken name decryptedPassword userData;
        record_session userData tokenDetails None
    end).

(** Decoded twice and decrypted *)
Definition getSession (sessionId : string) : eff world (option session) :=
  rpc (
    match Uri.decode sessionId ≫= Uri.decode with
    | None => throw (js_error "URI malformed")
    | Some text => id ← lift (decryptPassword (Some text)); UserRepository.getSession (Some id)
    end).

Definition checkSession (sessionId : string) : eff world (option session) := rpc (UserRepository.getSession (Some (Json.JStr sessionId))).

Definition refreshTokenDetails (token : string) : eff world any :=
  rpc (
    let data := jwt_decode token in
    exp ← lift (prop "exp" data);
    currentTime ← now;
    if match seconds_date exp with Some x => x <? currentTime | None => false end
    then _ ← deleteSession (prop_opt "sid" data); throw refreshTokenExpired else
    userByKeycloakId ← getUserByKeycloakId (prop_opt "sub" data);
    tokenResponse ← getAccessToken token (clientId userByKeycloakId) (clientSecret userByKeycloakId);
    acc ← checkAccountDetails (u_id userByKeycloakId);
    match acc with
    | None => throw (not_found "User account not found")
    | Some _ =>
        s ← UserRepository.getSession (prop_opt "sid" data);
        match s with
        | None => throw (not_found "User session not found")
        | Some _ =>
            exp' ← lift (prop "exp" (decode_token (prop_opt "refresh_token" tokenResponse)));
            access ← lift (prop "access_token" tokenResponse);
            _ ← updateSessionToken (prop_opt "session_state" tokenResponse)
              (TokenData access (prop_opt "expires_in" tokenResponse) (prop_opt "refresh_token" tokenResponse) (seconds_date exp'));
            mret tokenResponse
        end
    end).

Definition userSessions (userId : string) : eff world (list session) := rpc (fetchUserSessions userId).
Definition deleteUserSession (sessionId userId : string) : eff world string := deleteSessionBySessionId sessionId userId.

Definition logout (ids : option (list string)) : eff world string :=
  rpc (_ ← (match ids with Some l => destroySession l | None => mret tt end); mret "user logged out successfully").

(** ** Passwords *)

Definition addPasskey (e : string) (pw : option string) : eff world string :=
  rpc (
    let e := Str.toLowerCase e in
    if String.eqb e "" then throw (unauthorized "Invalid Email Id!") else
    found ← getUserDetails e;
    match found with
    | None => throw (not_found "Invalid Email Id!")
    | Some u =>
        if negb (truthy_str (keycloakUserId u)) then throw (conflict "User not found") else
        if negb (isEmailVerified u)
        then throw (not_found "The verification link has already been sent to your email address. please verify") else
        decryptedPassword ← lift (decryptPassword pw);
        tokenResponse ← generateToken e decryptedPassword u;
        if negb (any_truthy tokenResponse) then throw (unauthorized "Invalid Credentials") else
        _ ← addUserPassword e pw;
        mret "User profile updated successfully"
    end).

Definition updateFidoVerifiedUser (e : string) (isFidoVerified_ : bool) (pw : option string) : eff world unit :=
  when isFidoVerified_ (_ ← addUserPassword (Str.toLowerCase e) pw; mret tt).

(** One hour later; the change to summer time is left out. *)
Definition one_hour : Z := 3600000.

Definition sendEmailForResetPassword (e code : string) : eff world bool :=
  rpc (
    _ ← email_sender;
    isEmailSent ← ask (MailReset e code) on_email;
    if (isEmailSent : bool) then mret true else throw emailSend).

Definition forgotPassword (e : string) : eff world (string * option string) :=
  rpc (
    _ ← validateEmail (Str.toLowerCase e);
    found ← checkUserExist (Str.toLowerCase e);
    match found with
    | None => throw userNotFound
    | Some userData =>
        if negb (isEmailVerified userData) then throw verifyMail else
        code ← fresh;
        t ← now;
        tokenCreated ← createTokenForResetPassword (u_id userData) code (t + one_hour);
        _ ← try_catch (sendEmailForResetPassword e (t_token tokenCreated)) (fun _ => throw emailSend);
        mret (t_id tokenCreated, email userData)
    end).

(** A row as the registration at Keycloak gets it, with its nulls *)
Definition nullable (o : option string) : any := Some (match o with Some s => Json.JStr s | None => Json.JNull end).
Definition dto_of_user (u : user) (pw : Json.value) : CreateUserDto :=
  CreateUser (username u) (email u) (Some pw) (nullable (firstName u)) (nullable (lastName u)) false.

(** The new password at Keycloak, for a user that may not be registered there yet *)
Definition change_password (u : user) (pw : Json.value) : eff world unit :=
  token ← getManagementToken (clientId u) (clientSecret u);
  if truthy_str (keycloakUserId u) then resetPasswordOfUser (dto_of_user u pw) KEYCLOAK_REALM token
  else
    keycloakId ← ClientRegistration.createUser (dto_of_user u pw) KEYCLOAK_REALM token;
    kc ← lift (any_toString keycloakId);
    _ ← updateUserDetails (u_id u) kc;
    mret tt.

Definition invalidResetLink : exn := bad_request "Invalid or expired reset password link".

Definition resetTokenPassword (e : string) (pw : option string) (code : string) : eff world (string * option string) :=
  rpc (
    _ ← validateEmail (Str.toLowerCase e);
    found ← checkUserExist (Str.toLowerCase e);
    match found with
    | None => throw userNotFound
    | Some userData =>
        if negb (isEmailVerified userData) then throw verifyMail else
        tokenDetails ← getResetPasswordTokenDetails (u_id userData) code;
        match tokenDetails with
        | None => throw invalidResetLink
        | Some t =>
            current ← now;
            if t_expiresAt t <? current then throw invalidResetLink else
            decryptedPassword ← lift (decryptPassword pw);
            _ ← try_catch (
              _ ← change_password userData decryptedPassword;
              updateFidoVerifiedUser (Str.toLowerCase e) (isFidoVerified userData) pw)
              (fun _ => throw (internal "Error while reseting user password"));
            _ ← deleteResetPasswordToken (t_id t);
            mret (u_id userData, email userData)
        end
    end).

Definition resetPassword (e : string) (oldPassword newPassword : option string) : eff world (string * option string) :=
  rpc (
    _ ← validateEmail (Str.toLowerCase e);
    found ← checkUserExist (Str.toLowerCase e);
    match found with
    | None => throw userNotFound
    | Some userData =>
        if negb (isEmailVerified userData) then throw verifyMail else
        oldDecryptedPassword ← lift (decryptPassword oldPassword);
        newDecryptedPassword ← lift (decryptPassword newPassword);
        if strict_equal oldDecryptedPassword newDecryptedPassword
        then throw (bad_request "New password should not be the current password") else
        tokenResponse ← generateToken (Str.toLowerCase e) oldDecryptedPassword userData;
        if any_truthy tokenResponse then
          _ ← try_catch (
            _ ← change_password userData newDecryptedPassword;
            updateFidoVerifiedUser (Str.toLowerCase e) (isFidoVerified userData) newPassword) (fun _ => throw keycloakError);
          mret (u_id userData, email userData)
        else throw (bad_request "Invalid Credentials")
    end).

(** ** Profiles and settings *)

Definition getProfile (id : string) : eff world (option user) := rpc (getUserById id).
Definition updateProfile (p : UpdateUserProfile) : eff world user := updateUserProfile p.
Definition findSupabaseUser (id : string) : eff world (option user) := rpc (getUserBySupabaseId id).
Definition findKeycloakUser (id : string) : eff world user := rpc (getUserByKeycloakId (Some (Json.JStr id))).

Record ICheckUserDetails := CheckDetails {
  ck_isEmailVerified : bool;
  ck_isFidoVerified : option bool;
  ck_isRegistrationCompleted : bool;
  ck_userId : option string;
  ck_message : string;
}.

Definition checkUserRegistration (e : string) : eff world ICheckUserDetails :=
  found ← checkUniqueUserExist (Str.toLowerCase e);
  mret match found with
  | None => CheckDetails false None false None "User not found"
  | Some u =>
      CheckDetails (isEmailVerified u) (Some (isFidoVerified u)) (bool_decide (keycloakUserId u <> None)) (Some (u_id u))
        (if negb (isEmailVerified u) then linkAlreadySent
         else if truthy_str (keycloakUserId u) then "User already exists"
         else if truthy_str (supabaseUserId u) then "User already exists" else "")
  end.

Definition updatePlatformConfig (s : PlatformSettings) : eff world string :=
  rpc (_ ← updatePlatformSettings s; mret "Platform settings updated").

Definition getUserEmail (userId : string) : eff world (option string) :=
  u ← getUserById userId;
  match u with Some u => mret (email u) | None => type_error end.

Definition user_at_keycloak (u : option user) : eff world any :=
  match u with
  | None => throw userNotFound
  | Some u =>
      token ← getManagementToken (clientId u) (clientSecret u);
      getUserInfoByUserId (keycloakUserId u) token
  end.

Definition getUserByUserIdInKeycloak (e : string) : eff world any := u ← checkUserExist (Str.toLowerCase e); user_at_keycloak u.
Definition getUserByUsernameInKeycloak (n : string) : eff world any := u ← checkUserExistByUsername n; user_at_keycloak u.

Definition getuserOrganizationByUserId (userId : string) : eff world (list user_org_role) := rpc (handleGetUserOrganizations userId).
End service.
