(* ===== verification/Fido.v ===== *)
(** * Users: passkeys

    [fido.service.ts] with [fido-user.repository.ts] and [user-device.repository.ts].  The
    server that checks attestations and assertions is another party, asked over HTTP. *)

From S2P Require Import Prelude Js Table CastHelper CommonService ClientRegistration UserData UserRepository User.

Open Scope Z_scope.

Section fido.
Context {U : UuidSource} {P : Parties} {T : Platform} {V : ProcessEnv} {C : Cipher}.

(** [throw new RpcException(error.response)]: an error without a response leaves nothing. *)
Definition rpc_response {A} (m : eff world A) : eff world A :=
  try_catch m (fun e => throw (match exn_status e with
    | Some s => Exn RpcException (exn_message e) (Some s) (exn_code e)
    | None => Exn RpcException "" None None
    end)).

(** ** Repositories *)

Definition checkFidoUserExist (e : string) : eff world user :=
  t ← read users;
  match first (email_is e) t with Some u => mret u | None => throw prisma_missing end.

(** The elements of the array of updates; only the first one is applied. *)
Inductive UserUpdateData := FidoUserId (id : any) | IsFidoVerified (b : bool) | Username (name : any).

Definition updateFidoUser (e : string) (additionalParams : list UserUpdateData) : eff world user :=
  match additionalParams with
  | FidoUserId None :: _ => update_user (email_is e) (with_fido None None)
  | FidoUserId (Some Json.JNull) :: _ => update_user (email_is e) (with_fido (Some None) None)
  | FidoUserId (Some (Json.JStr i)) :: _ => update_user (email_is e) (with_fido (Some (Some i)) None)
  | FidoUserId _ :: _ => throw prisma_validation
  | IsFidoVerified b :: _ => update_user (email_is e) (with_fido None (Some b))
  | Username None :: _ => update_user (email_is e) (fun u => u)
  | Username _ :: _ => throw prisma_validation
  | [] => update_user (email_is e) (fun u => u)
  end.

Definition device_of (userId : string) (v : user_device) : bool := bool_decide (dv_userId v = Some userId).
Definition credential_is (id : string) (v : user_device) : bool := bool_decide (credentialId v = Some id).

Definition createMultiDevice (newDevice : Json.value) (userId : string) : eff world user_device :=
  id ← fresh;
  t ← now;
  let row := Device id (Some userId) newDevice None None None 0 t in
  _ ← write (fun d => set_devices (devices d ++ [row])%list d);
  mret row.

Definition active (v : user_device) : bool := bool_decide (dv_deletedAt v = None).

Definition fidoMultiDevice (userId : string) : eff world (list user_device) :=
  read (fun d => sort_desc dv_created (List.filter (fun v => device_of userId v && active v) (devices d))).
Definition getfidoMultiDevice (userId : string) : eff world (list user_device) := read (fun d => List.filter (device_of userId) (devices d)).
Definition getfidoMultiDeviceDetails (userId : string) : eff world (list user_device) :=
  read (fun d => List.filter (fun v => device_of userId v && active v) (devices d)).

(** [updateMany]: the number of the rows it changed *)
Definition update_devices (p : user_device -> bool) (f : user_device -> user_device) : eff world nat :=
  t ← read devices;
  _ ← write (set_devices (update_where p f t));
  mret (length (List.filter p t)).

Definition with_counter (n : Z) (v : user_device) : user_device :=
  Device (dv_id v) (dv_userId v) (dv_devices v) (credentialId v) (deviceFriendlyName v) (dv_deletedAt v) n (dv_created v).
Definition deleted (t : Z) (v : user_device) : user_device :=
  Device (dv_id v) (dv_userId v) (dv_devices v) (credentialId v) (deviceFriendlyName v) (Some t) (authCounter v) (dv_created v).
Definition with_name (c n : option string) (v : user_device) : user_device :=
  Device (dv_id v) (dv_userId v) (dv_devices v) (keep c (credentialId v)) (keep n (deviceFriendlyName v)) (dv_deletedAt v) (authCounter v) (dv_created v).

Definition updateFidoAuthCounter (id : string) (loginCounter : Z) : eff world nat := update_devices (credential_is id) (with_counter loginCounter).
Definition checkUserDeviceByCredentialId (id : string) : eff world (option user_device) := read (fun d => first (credential_is id) (devices d)).
Definition deleteUserDeviceByCredentialId (id : string) : eff world nat := t ← now; update_devices (credential_is id) (deleted t).
Definition updateUserDeviceByCredentialId (id deviceName : string) : eff world nat :=
  update_devices (fun v => String.eqb (dv_id v) id) (with_name None (Some deviceName)).

(** The rows whose stored description names the credential *)
Definition updateDeviceByCredentialId (id : string) : eff world (list user_device) :=
  read (fun d => List.filter (fun v => bool_decide (Json.as_str (Json.get "credentialID" (dv_devices v)) = Some id)) (devices d)).

(** The unique index on [credentialId] *)
Definition addCredentialIdAndNameById (id cred : string) (name : option string) : eff world unit :=
  t ← read devices;
  if existsb (fun v => credential_is cred v && negb (String.eqb (dv_id v) id)) t then throw (internal "Unique constraint failed") else
  if existsb (fun v => String.eqb (dv_id v) id) t
  then write (set_devices (update_where (fun v => String.eqb (dv_id v) id) (with_name (Some cred) name) t))
  else throw (internal "Record not found").

(** ** Service *)

Definition json_header : list (string * string) := [("Content-Type", "application/json")].
Definition fido_url (path : string) : string := env_string "FIDO_API_ENDPOINT" +:+ path.
Definition registration_url (e : string) : string := fido_url ("/generate-registration-options/?userName=" +:+ Str.toLowerCase e).

Definition deviceNotFound : string := "Device does not exist or revoked".

Definition generateRegistrationOption (e : string) : eff world any :=
  response ← httpGet (registration_url e) json_header;
  u ← lift (prop "user" response);
  id ← lift (prop "id" u);
  name ← lift (prop "name" u);
  updateUser ← updateFidoUser (Str.toLowerCase e) [FidoUserId id; Username name];
  if match id with Some v => strict_equal v (match fidoUserId updateUser with Some i => Json.JStr i | None => Json.JNull end) | None => false end
  then mret response else throw (internal "Unable to generate registration option for user").

Definition updateUserRegistrationOption (e : string) : eff world any :=
  response ← httpGet (registration_url e) json_header;
  u ← lift (prop "user" response);
  id ← lift (prop "id" u);
  _ ← updateFidoUser (Str.toLowerCase e) [FidoUserId id; IsFidoVerified false];
  mret response.

Definition generateRegistration (e : string) (deviceFlag : option bool) : eff world any :=
  rpc_response (
    fidoUser ← checkFidoUserExist (Str.toLowerCase e);
    match deviceFlag with
    | Some _ => generateRegistrationOption (Str.toLowerCase e)
    | None => if negb (isFidoVerified fidoUser) then updateUserRegistrationOption (Str.toLowerCase e)
        else throw (bad_request "User already exists")
    end).

Definition strip_padding (s : string) : string := Str.drop_end (Ascii.eqb "=") s.

Definition verifyRegistration (details : Json.value) (e : string) : eff world any :=
  rpc (
    let e := Str.toLowerCase e in
    response ← httpPost (fido_url "/verify-registration") (JsonBody (Json.JStr (Json.stringify details))) json_header;
    if any_truthy (prop_opt "verified" response) && negb (String.eqb e "") then
      _ ← updateFidoUser e [IsFidoVerified true];
      newDevice ← lift (prop "newDevice" response);
      cred ← lift (prop "credentialID" newDevice);
      match cred, newDevice, response with
      | Some (Json.JStr c), Some (Json.JObj fs), Some (Json.JObj rs) =>
          let device := Json.JObj (Json.set_field "credentialID" (Json.JStr (strip_padding c)) fs) in
          getUser ← checkFidoUserExist e;
          _ ← createMultiDevice device (u_id getUser);
          mret (Some (Json.JObj (Json.set_field "newDevice" device rs)))
      | _, _, _ => type_error
      end
    else throw (internal "Fail to verify user")).

(** [devices['credentialID']] of every device, the deleted ones too *)
Fixpoint credential_ids (l : list user_device) : result (list Json.value) :=
  match l with
  | [] => Ok []
  | v :: l' => c ← prop "credentialID" (Some (dv_devices v)); cs ← credential_ids l'; Ok (default Json.JNull c :: cs)
  end.

Definition generateAuthenticationOption (e : string) : eff world any :=
  rpc_response (
    fidoUser ← checkFidoUserExist (Str.toLowerCase e);
    ds ← getfidoMultiDevice (u_id fidoUser);
    credentialIds ← lift (credential_ids ds);
    httpPost (fido_url "/generate-authentication-options") (JsonBody (Json.JArr credentialIds)) json_header).

(** A device as it is sent to the server; its creator and last editor are its user. *)
Definition device_json (v : user_device) : Json.value :=
  let str o := match o with Some s => Json.JStr s | None => Json.JNull end in
  let at_ := Json.JStr (Date.toISOString (dv_created v)) in
  Json.JObj [("id", Json.JStr (dv_id v)); ("createDateTime", at_); ("createdBy", str (dv_userId v)); ("lastChangedDateTime", at_);
    ("lastChangedBy", str (dv_userId v)); ("devices", dv_devices v); ("credentialId", str (credentialId v));
    ("deviceFriendlyName", str (deviceFriendlyName v))].

(** The letters of base64url in base64 *)
Fixpoint to_base64 (s : string) : string :=
  match s with
  | EmptyString => ""
  | String c s' => String (if Ascii.eqb c "-" then "+"%char else if Ascii.eqb c "_" then "/"%char else c) (to_base64 s')
  end.

Definition verifyAuthentication (details : Json.value) (e : string) : eff world Json.value :=
  try_catch (
    fidoUser ← checkFidoUserExist (Str.toLowerCase e);
    ds ← getfidoMultiDeviceDetails (u_id fidoUser);
    match Json.get "id" details with
    | Some (Json.JStr i) =>
        let cred := to_base64 i in
        getUserDevice ← checkUserDeviceByCredentialId cred;
        match getUserDevice with
        | None => throw (internal deviceNotFound)
        | Some v =>
            response ← httpPost (fido_url "/verify-authentication")
              (JsonBody (Json.JObj [("verifyAuthenticationDetails", Json.JStr (Json.stringify details)); ("devices", Json.JArr (map device_json ds))]))
              json_header;
            ok ← lift (prop "verified" response);
            match ok with
            | Some (Json.JBool true) =>
                _ ← updateFidoAuthCounter cred (authCounter v + 1);
                login (SignIn e None true None)
            | _ => throw (bad_request deviceNotFound)
            end
        end
    | _ => type_error
    end)
    (fun _ => throw (Exn RpcException deviceNotFound None None)).

Definition updateUserDevice (cred : string) (deviceFriendlyName_ : option string) : eff world string :=
  rpc (
    found ← updateDeviceByCredentialId cred;
    match found with
    | [] => type_error
    | v :: _ => _ ← addCredentialIdAndNameById (dv_id v) cred deviceFriendlyName_; mret "User updated."
    end).

Definition fetchFidoUserDetails (e : string) : eff world (list user_device) :=
  rpc (fidoUser ← checkFidoUserExist (Str.toLowerCase e); fidoMultiDevice (u_id fidoUser)).

Definition deleteFidoUserDevice (cred : string) : eff world string :=
  rpc (
    n ← deleteUserDeviceByCredentialId cred;
    mret (if Nat.eqb n 1 then "Device deleted successfully" else "Not deleting this device kindly verify")).

Definition updateFidoUserDeviceName (cred deviceName : string) : eff world string :=
  rpc (
    getUserDevice ← checkUserDeviceByCredentialId cred;
    match getUserDevice with
    | None => type_error
    | Some v =>
        n ← updateUserDeviceByCredentialId (dv_id v) deviceName;
        mret (if Nat.eqb n 1 then "Device name updated successfully." else "Device name has not been changed.")
    end).
End fido.
