(* ===== verification/UserFrames.v ===== *)
(** * Users: messages and frames

    The messages of [user.controller.ts] that write.  Most of what a handler does reads, asks other parties, writes rows that neither sign
    anybody in nor change a password, and touches a row of a user in columns that decide
    nothing.  [Benign] is the class of the relations on worlds that all of this respects;
    the lemmas follow the operations of the service. *)

From S2P Require Import Prelude Js Table CastHelper CommonService ClientRegistration UserData UserRepository User Fido.

Section controller.
Context {U : UuidSource} {P : Parties} {T : Platform} {V : ProcessEnv} {C : Cipher}.

Inductive message :=
  | SendVerification (p : ISendVerificationEmail)
  | VerifyEmail (e code : option string)
  | Login (i : IUserSignIn)
  | UsernameLogin (name : string) (pw : option string) (isPasskey : bool)
  | RefreshToken (token : string)
  | DeleteSession (id userId : string)
  | ResetPassword (e : string) (old new : option string)
  | SetTokenPassword (e : string) (pw : option string) (code : string)
  | ForgotPassword (e : string)
  | UpdateUserProfileMessage (p : UpdateUserProfile)
  | AddUser (i : IUserInformation)
  | AddUserUsernameBased (i : AddUserDetailsUsernameBasedDto)
  | DeleteUser (id : string)
  | AddPasskey (e : string) (pw : option string)
  | UpdateSettings (s : PlatformSettings)
  | OrgDeletedActivity (orgId userId deletedBy recordType userEmail : string) (txnMetadata : Json.value)
  | Logout (ids : option (list string))
  | GenerateRegistration (e : string) (deviceFlag : option bool)
  | VerifyRegistration (details : Json.value) (e : string)
  | GenerateAuthentication (e : string)
  | VerifyAuthentication (details : Json.value) (e : string)
  | UpdateDevice (cred : string) (name : option string)
  | DeleteDevice (cred : string)
  | RenameDevice (cred name : string).

Definition done_ {A} (m : eff world A) : eff world unit := _ ← m; mret tt.

Definition handle (m : message) : eff world unit :=
  match m with
  | SendVerification p => done_ (sendVerificationMail p)
  | VerifyEmail e c => done_ (verifyEmail e c)
  | Login i => done_ (login i)
  | UsernameLogin n p k => done_ (usernameLogin n p k)
  | RefreshToken t => done_ (refreshTokenDetails t)
  | DeleteSession i u => done_ (deleteUserSession i u)
  | ResetPassword e o n => done_ (resetPassword e o n)
  | SetTokenPassword e p c => done_ (resetTokenPassword e p c)
  | ForgotPassword e => done_ (forgotPassword e)
  | UpdateUserProfileMessage p => done_ (updateProfile p)
  | AddUser i => done_ (createUserForToken i)
  | AddUserUsernameBased i => done_ (createUserForUsernameToken i)
  | DeleteUser i => done_ (deleteUser i)
  | AddPasskey e p => done_ (addPasskey e p)
  | UpdateSettings s => done_ (updatePlatformConfig s)
  | OrgDeletedActivity o u b r e m => done_ (updateOrgDeletedActivity o u b r e m)
  | Logout l => done_ (logout l)
  | GenerateRegistration e f => done_ (generateRegistration e f)
  | VerifyRegistration d e => done_ (verifyRegistration d e)
  | GenerateAuthentication e => done_ (generateAuthenticationOption e)
  | VerifyAuthentication d e => done_ (verifyAuthentication d e)
  | UpdateDevice c n => done_ (updateUserDevice c n)
  | DeleteDevice c => done_ (deleteFidoUserDevice c)
  | RenameDevice c n => done_ (updateFidoUserDeviceName c n)
  end.

(** The world after serving messages one after the other; a refused one leaves what it did. *)
Definition serve (m : message) (w : world) : world := (handle m w).2.
Definition serve_all (ms : list message) (w : world) : world := fold_left (fun w m => serve m w) ms w.
End controller.

Section frames.
Context {U : UuidSource} {P : Parties} {T : Platform} {V : ProcessEnv} {C : Cipher}.

(** ** Rows that develop *)

(** The columns that identify an account *)
Definition ident (u : user) := (u_id u, email u, username u, clientId u, clientSecret u, supabaseUserId u, verificationCode u).

Definition nobody (id : string) : Prop := False.

(** [u'] is [u] later: verified by then only in [EV], registered only in [EK]. *)
Definition from (EV EK : string -> Prop) (u u' : user) : Prop :=
  ident u' = ident u /\
  (isEmailVerified u' = isEmailVerified u \/ (isEmailVerified u' = true /\ EV (u_id u))) /\
  (keycloakUserId u' = keycloakUserId u \/ EK (u_id u)).

Lemma from_id EV EK u u' : from EV EK u u' -> u_id u' = u_id u.
Proof. intros [H _]. unfold ident in H. congruence. Qed.

Lemma from_refl EV EK u : from EV EK u u.
Proof. repeat split; by left. Qed.

Lemma from_trans EV EK u u1 u2 : from EV EK u u1 -> from EV EK u1 u2 -> from EV EK u u2.
Proof.
  intros H1 H2. pose proof (from_id _ _ _ _ H1) as Hi. destruct H1 as (I1 & V1 & K1), H2 as (I2 & V2 & K2).
  rewrite Hi in *. split; [congruence|]. naive_solver congruence.
Qed.

Lemma from_benign EV EK u u' : ident u' = ident u -> isEmailVerified u' = isEmailVerified u -> keycloakUserId u' = keycloakUserId u -> from EV EK u u'.
Proof. repeat split; auto. Qed.

(** ** Relations *)

(** The rows that a benign write leaves alone *)
Definition aside (f : tables -> tables) : Prop :=
  forall d, users (f d) = users d /\ sessions (f d) = sessions d /\ tokens (f d) = tokens d.

Class Benign (R : relation world) := {
  benign_calm :: Calm R;
  benign_update p f : (forall u, from nobody nobody u (f u)) -> frames R (update_user p f);
  benign_write f : aside f -> frames R (write f);
}.

Context (R : relation world) `{HR : !Benign R}.
Abbreviation quiet := (frames R).

#[local] Hint Extern 1 (frames _ (write _)) => apply benign_write; repeat split : platform.
#[local] Hint Extern 1 (frames _ (update_user _ _)) => apply benign_update; intros ?; apply from_benign; reflexivity : platform.

(** *** Repository *)

Ltac reads := unfold checkUserExist, getUserDetails, checkUniqueUserExist, checkUserExistByUsername, checkAccountDetails, UserRepository.getSession,
  fetchUserSessions, getResetPasswordTokenDetails, getUserById, getUserByKeycloakId, getUserRole, email_sender, checkFidoUserExist,
  getfidoMultiDevice, getfidoMultiDeviceDetails, checkUserDeviceByCredentialId, updateDeviceByCredentialId, type_error.

Lemma q_addUserPassword e p : quiet (addUserPassword e p).
Proof using HR. unfold addUserPassword. destruct p; auto with platform. Qed.
Lemma q_updateUserInfo e f l : quiet (updateUserInfo e f l).
Proof using HR. unfold updateUserInfo. auto with platform. Qed.
Lemma q_storeUserRole u r : quiet (storeUserRole u r).
Proof using HR. unfold storeUserRole. solve_frames. Qed.
Lemma q_createUserOrgRole u r o i : quiet (createUserOrgRole u r o i).
Proof using HR. unfold createUserOrgRole. solve_frames. Qed.
Lemma q_addAccountDetails u k t : quiet (addAccountDetails u k t).
Proof using HR. unfold addAccountDetails. solve_frames. Qed.
#[local] Hint Resolve q_addUserPassword q_updateUserInfo q_storeUserRole q_createUserOrgRole q_addAccountDetails : platform.

(** *** Service *)

Lemma q_encrypt_env n : quiet (encrypt_env n).
Proof using HR. intros w. apply calm_same; [done.. | simpl; lia]. Qed.
#[local] Hint Resolve q_encrypt_env : platform.
Lemma q_credentials a : quiet (getCredentialsByAlias a).
Proof using HR. unfold getCredentialsByAlias, getDefaultClient. solve_frames. Qed.
Lemma q_verification_mail m : quiet (sendEmailForVerification m).
Proof using HR. unfold sendEmailForVerification, rpc. reads. solve_frames. Qed.
Lemma q_reset_mail e c : quiet (sendEmailForResetPassword e c).
Proof using HR. unfold sendEmailForResetPassword, rpc. reads. solve_frames. Qed.
Lemma q_register_holder u k t h : quiet (register_holder u k t h).
Proof using HR. unfold register_holder. reads. solve_frames. Qed.
Lemma q_generateToken e p u : quiet (generateToken e p u).
Proof using HR. unfold generateToken. solve_frames. Qed.
Lemma q_validateEmail e : quiet (validateEmail e).
Proof using HR. unfold validateEmail. solve_frames. Qed.
Lemma q_updateFidoVerifiedUser e b p : quiet (updateFidoVerifiedUser e b p).
Proof using HR. unfold updateFidoVerifiedUser, when. solve_frames. Qed.
#[local] Hint Resolve q_credentials q_verification_mail q_reset_mail q_register_holder q_generateToken q_validateEmail q_updateFidoVerifiedUser : platform.

Lemma q_check_session_limit u : quiet (deleteInactiveSessions u) -> quiet (check_session_limit u).
Proof using HR.
  intros Hd. unfold check_session_limit. apply frames_bind; [exact _ | apply calmly_overlapping; [exact _ | done | reads; auto with platform]|].
  intros l. solve_frames.
Qed.

Lemma q_record_session u t i : (forall n, quiet (createSession n)) -> quiet (record_session u t i).
Proof using HR. intros Hc. unfold record_session. reads. solve_frames. Qed.

Lemma q_login i : (forall u, quiet (deleteInactiveSessions u)) -> (forall n, quiet (createSession n)) -> quiet (login i).
Proof using HR.
  intros Hd Hc. pose proof (fun u => q_check_session_limit u (Hd u)). pose proof (fun u t i => q_record_session u t i Hc).
  unfold login, rpc. reads. solve_frames.
Qed.

Lemma q_usernameLogin n p k : (forall u, quiet (deleteInactiveSessions u)) -> (forall n, quiet (createSession n)) -> quiet (usernameLogin n p k).
Proof using HR.
  intros Hd Hc. pose proof (fun u => q_check_session_limit u (Hd u)). pose proof (fun u t i => q_record_session u t i Hc).
  unfold usernameLogin, rpc. reads. solve_frames.
Qed.

Lemma q_refreshTokenDetails t : (forall i, quiet (deleteSession i)) -> (forall i d, quiet (updateSessionToken i d)) -> quiet (refreshTokenDetails t).
Proof using HR. intros Hd Hu. unfold refreshTokenDetails, rpc. reads. solve_frames. Qed.

Lemma q_addPasskey e p : quiet (addPasskey e p).
Proof using HR. unfold addPasskey, rpc. reads. solve_frames. Qed.

Lemma q_forgotPassword e : (forall u c x, quiet (createTokenForResetPassword u c x)) -> quiet (forgotPassword e).
Proof using HR. intros Hc. unfold forgotPassword, rpc. reads. solve_frames. Qed.

(** The operations that set a password, given that setting it and registering the user do *)
Lemma q_change_password u pw : (forall r t, quiet (set_password_of r (email u) (Some pw) t)) -> (forall kc, quiet (updateUserDetails (u_id u) kc)) ->
  quiet (change_password u pw).
Proof using HR.
  intros Hs Hu. unfold change_password. apply frames_bind; [exact _ | auto with platform|]. intros t. case_match.
  - by apply quiet_resetPasswordOfUser; [exact _ | apply Hs].
  - apply frames_bind; [exact _ | by apply quiet_createUser; [exact _ | apply Hs]|]. intros k. solve_frames.
Qed.

(** *** Passkeys *)

Lemma q_updateFidoUser e l : quiet (updateFidoUser e l).
Proof using HR. unfold updateFidoUser. solve_frames. Qed.
Lemma q_createMultiDevice d u : quiet (createMultiDevice d u).
Proof using HR. unfold createMultiDevice. solve_frames. Qed.
Lemma q_update_devices p f : quiet (update_devices p f).
Proof using HR. unfold update_devices. solve_frames. Qed.
#[local] Hint Resolve q_updateFidoUser q_createMultiDevice q_update_devices : platform.

Lemma q_generateRegistration e f : quiet (generateRegistration e f).
Proof using HR. unfold generateRegistration, rpc_response, generateRegistrationOption, updateUserRegistrationOption. reads. solve_frames. Qed.
Lemma q_verifyRegistration d e : quiet (verifyRegistration d e).
Proof using HR. unfold verifyRegistration, rpc. reads. solve_frames. Qed.
Lemma q_generateAuthenticationOption e : quiet (generateAuthenticationOption e).
Proof using HR. unfold generateAuthenticationOption, rpc_response. reads. solve_frames. Qed.
Lemma q_verifyAuthentication d e : (forall u, quiet (deleteInactiveSessions u)) -> (forall n, quiet (createSession n)) -> quiet (verifyAuthentication d e).
Proof using HR. intros Hd Hc. pose proof (fun i => q_login i Hd Hc). unfold verifyAuthentication, updateFidoAuthCounter. reads. solve_frames. Qed.
Lemma q_updateUserDevice c n : quiet (updateUserDevice c n).
Proof using HR. unfold updateUserDevice, addCredentialIdAndNameById, rpc. reads. solve_frames. Qed.
Lemma q_deleteFidoUserDevice c : quiet (deleteFidoUserDevice c).
Proof using HR. unfold deleteFidoUserDevice, deleteUserDeviceByCredentialId, rpc. solve_frames. Qed.
Lemma q_updateFidoUserDeviceName c n : quiet (updateFidoUserDeviceName c n).
Proof using HR. unfold updateFidoUserDeviceName, updateUserDeviceByCredentialId, rpc. reads. solve_frames. Qed.

(** *** Profiles and settings *)

Lemma q_updateProfile p : quiet (updateProfile p).
Proof using HR. unfold updateProfile, updateUserProfile. solve_frames. Qed.
Lemma q_updatePlatformConfig s : quiet (updatePlatformConfig s).
Proof using HR. unfold updatePlatformConfig, updatePlatformSettings, rpc. solve_frames. Qed.
Lemma q_updateOrgDeletedActivity o u b r e m : quiet (updateOrgDeletedActivity o u b r e m).
Proof using HR. unfold updateOrgDeletedActivity. solve_frames. Qed.
End frames.

(** ** Messages *)

Section messages.
Context {U : UuidSource} {P : Parties} {T : Platform} {V : ProcessEnv} {C : Cipher}.

(** Whether a message may change who has an account or how one signs in *)
Definition changes_accounts (m : message) : bool :=
  match m with
  | SendVerification _ | VerifyEmail _ _ | ResetPassword _ _ _ | SetTokenPassword _ _ _ | AddUser _ | AddUserUsernameBased _ | DeleteUser _ => true
  | _ => false
  end.

Lemma done_state {A} (m : eff world A) w : (done_ m w).2 = (m w).2.
Proof. unfold done_. rewrite run_bind. by destruct (m w) as [[]]. Qed.

Lemma q_done R `{!Calm R} {A} (m : eff world A) : frames R m -> frames R (done_ m).
Proof. intros Hm. unfold done_. solve_frames. Qed.

(** [Accountwise] relations hold across every change of the rows of users and every call;
    then the messages that change accounts are framed whole. *)
Class Accountwise (R : relation world) := {
  accountwise_benign :: Benign R;
  accountwise_update p f : frames R (update_user p f);
  accountwise_insert mk : frames R (insert_user mk);
  accountwise_call c : frames R (placed c);
  accountwise_delete id : frames R (write (without_user id));
}.

Context (R : relation world) `{HR : !Accountwise R}.
Abbreviation quiet := (frames R).

#[local] Hint Extern 1 (frames _ (update_user _ _)) => apply accountwise_update : platform.
#[local] Hint Extern 1 (frames _ (insert_user _)) => apply accountwise_insert : platform.

Lemma a_createUser e n c i s ok : quiet (UserRepository.createUser e n c i s ok).
Proof using HR. unfold UserRepository.createUser. solve_frames. Qed.
Lemma a_set_password realm n pw token : quiet (set_password_of realm n pw token).
Proof using HR. unfold set_password_of, resetPasswordOfKeycloakUser, httpPut, axios, world_http, sendError. solve_frames. apply accountwise_call. Qed.
Lemma a_change_password u pw : quiet (change_password u pw).
Proof using HR. apply q_change_password; [exact _ | intros; apply a_set_password | intros; apply accountwise_update]. Qed.
#[local] Hint Resolve a_createUser a_change_password : platform.

Lemma a_sendVerificationMail p : quiet (sendVerificationMail p).
Proof using HR.
  pose proof (q_credentials R). pose proof (q_verification_mail R). unfold sendVerificationMail, rpc, checkUserExist. solve_frames.
Qed.
Lemma a_verifyEmail e c : quiet (verifyEmail e c).
Proof using HR. unfold verifyEmail, rpc, getUserDetails, verifyUser. solve_frames. Qed.
Lemma a_createUserForToken i : quiet (createUserForToken i).
Proof using HR.
  pose proof (q_register_holder R). pose proof (q_addUserPassword R).
  pose proof (fun r t d => quiet_createUser R d r t (a_set_password _ _ _ _)).
  unfold createUserForToken, rpc, updateUserInfo, getUserDetails, updateUserDetails, type_error. solve_frames.
Qed.
Lemma a_createUserForUsernameToken i : quiet (createUserForUsernameToken i).
Proof using HR.
  pose proof (q_register_holder R). pose proof (fun r t d => quiet_createUserByUsername R d r t (a_set_password _ _ _ _)).
  unfold createUserForUsernameToken, rpc, checkUserExistByUsername, UserRepository.createUserByUsername. solve_frames.
Qed.
Lemma a_resetTokenPassword e pw c : (forall i, quiet (deleteResetPasswordToken i)) -> quiet (resetTokenPassword e pw c).
Proof using HR.
  intros Hd. pose proof (q_updateFidoVerifiedUser R).
  unfold resetTokenPassword, rpc, validateEmail, checkUserExist, getResetPasswordTokenDetails. solve_frames.
Qed.
Lemma a_resetPassword e o n : quiet (resetPassword e o n).
Proof using HR.
  pose proof (q_updateFidoVerifiedUser R). pose proof (q_generateToken R).
  unfold resetPassword, rpc, validateEmail, checkUserExist. solve_frames.
Qed.
Lemma a_deleteUser i : quiet (deleteUser i).
Proof using HR.
  intros w. unfold deleteUser. rewrite rpc_state. unfold deleteUserAndRelatedData, transaction, read, gets. rewrite !run_bind. cbv beta iota.
  destruct (first _ _); [apply (accountwise_delete i w) | by apply calm_same].
Qed.

Lemma a_handle m : changes_accounts m = true -> (forall i, quiet (deleteResetPasswordToken i)) -> quiet (handle m).
Proof using HR.
  destruct m; intros Hm Hd; try done; apply q_done; try exact _;
    [apply a_sendVerificationMail | apply a_verifyEmail | apply a_resetPassword | by apply a_resetTokenPassword
    | apply a_createUserForToken | apply a_createUserForUsernameToken | apply a_deleteUser].
Qed.
End messages.

(** ** Messages that leave accounts alone

    [Transient] relations also hold across every change of the other tables; then all of the
    messages below are framed whole. *)

Section transient.
Context {U : UuidSource} {P : Parties} {T : Platform} {V : ProcessEnv} {C : Cipher}.

Class Transient (R : relation world) := {
  transient_benign :: Benign R;
  transient_write f : (forall d, users (f d) = users d) -> frames R (write f);
}.

Context (R : relation world) `{HR : !Transient R}.
Abbreviation quiet := (frames R).

#[local] Hint Extern 1 (frames _ (write _)) => apply transient_write; intros ?; reflexivity : platform.

Lemma t_createSession n : quiet (createSession n).
Proof using HR. unfold createSession. solve_frames. Qed.
Lemma t_deleteInactive u : quiet (deleteInactiveSessions u).
Proof using HR. unfold deleteInactiveSessions. solve_frames. Qed.
Lemma t_remove_session p e : quiet (remove_session p e).
Proof using HR. unfold remove_session. solve_frames. Qed.
#[local] Hint Resolve t_remove_session : platform.
Lemma t_deleteSession i : quiet (deleteSession i).
Proof using HR. unfold deleteSession. solve_frames. Qed.
Lemma t_updateSessionToken i d : quiet (updateSessionToken i d).
Proof using HR. unfold updateSessionToken. solve_frames. Qed.
Lemma t_createToken u c x : quiet (createTokenForResetPassword u c x).
Proof using HR. unfold createTokenForResetPassword. solve_frames. Qed.
Lemma t_deleteToken i : quiet (deleteResetPasswordToken i).
Proof using HR. unfold deleteResetPasswordToken. solve_frames. Qed.
Lemma t_deleteUserSession i u : quiet (deleteUserSession i u).
Proof using HR. unfold deleteUserSession, deleteSessionBySessionId. solve_frames. Qed.
Lemma t_logout l : quiet (logout l).
Proof using HR. unfold logout, rpc, destroySession. solve_frames. Qed.

Lemma t_handle m : changes_accounts m = false -> quiet (handle m).
Proof using HR.
  destruct m; intros Hm; try done; apply q_done; try exact _;
    first [ apply q_login | apply q_usernameLogin | apply q_refreshTokenDetails | apply t_deleteUserSession | apply q_forgotPassword | apply q_updateProfile
    | apply q_addPasskey | apply q_updatePlatformConfig | apply q_updateOrgDeletedActivity | apply t_logout | apply q_generateRegistration
    | apply q_verifyRegistration | apply q_generateAuthenticationOption | apply q_verifyAuthentication | apply q_updateUserDevice
    | apply q_deleteFidoUserDevice | apply q_updateFidoUserDeviceName ]; try exact _; intros;
    first [ apply t_deleteInactive | apply t_createSession | apply t_deleteSession | apply t_updateSessionToken | apply t_createToken ].
Qed.
End transient.

#[export] Hint Extern 1 (frames ?R (deleteResetPasswordToken _)) => apply (t_deleteToken R) : platform.
#[export] Hint Extern 1 (frames ?R (createTokenForResetPassword _ _ _)) => apply (t_createToken R) : platform.
