(* ===== verification/UserInvariant.v ===== *)
(** * Users: the life of an account

    [account_step] is the life of an account as the rest of the development sees it: it is
    created unverified with a code that was mailed, or verified by an invitation, or under
    a name; it is verified by its code, registered once, and deleted.  [serve_step] proves
    that serving a message is such a step. *)

From S2P Require Import Prelude Js Table CastHelper CommonService ClientRegistration UserData UserRepository User Fido UserFrames JsonParse.

Section laws.
Context {U : UuidSource} {P : Parties} {T : Platform} {V : ProcessEnv} {C : Cipher}.

(** ** The relation of the quiet parts *)

Record evolves (EV EK : string -> Prop) (w w' : world) : Prop := Evolves {
  ev_users : exists f, users (db w') = map f (users (db w)) /\ forall u, u ∈ users (db w) -> from EV EK u (f u);
  ev_calls : calls w `prefix_of` calls w';
  ev_drawn : (drawn w <= drawn w')%nat;
}.

Lemma evolves_trans EV EK w w1 w2 : evolves EV EK w w1 -> evolves EV EK w1 w2 -> evolves EV EK w w2.
Proof.
  intros [(f & Hf & Hff) H1 D1] [(g & Hg & Hgg) H2 D2]. split; [|by etrans | lia].
  exists (g ∘ f). split; [by rewrite Hg, Hf, map_map|]. intros u Hu. eapply from_trans; [by apply Hff|].
  apply Hgg. rewrite Hf. by apply list_elem_of_fmap_2.
Qed.

(** A change that leaves the rows of users alone *)
Lemma evolves_other EV EK w w' : users (db w') = users (db w) -> calls w `prefix_of` calls w' -> (drawn w <= drawn w')%nat -> evolves EV EK w w'.
Proof. intros Hu Hc Hd. split; [|done..]. exists id. split; [by rewrite map_id | intros; apply from_refl]. Qed.

#[local] Instance evolves_preorder EV EK : PreOrder (evolves EV EK).
Proof. split; [intros w; by apply evolves_other | intros w w1 w2; apply evolves_trans]. Qed.

Lemma ev_placed EV EK c : frames (evolves EV EK) (placed c).
Proof. intros w. apply evolves_other; [done | by apply prefix_app_r | done]. Qed.

#[local] Instance evolves_calm EV EK : Calm (evolves EV EK).
Proof.
  split; [exact _ | |by intros c _; apply ev_placed].
  intros w w' Hd Hc Hn. apply evolves_other; [by rewrite Hd | by rewrite Hc | done].
Qed.

Lemma from_weaken (EV EK EV' EK' : string -> Prop) u u' :
  (forall i, EV i -> EV' i) -> (forall i, EK i -> EK' i) -> from EV EK u u' -> from EV' EK' u u'.
Proof. intros HV HK (I & HV' & HK'). split; [done|]. naive_solver. Qed.

Definition with_users (t : list user) (w : world) : world := set_db (set_users t (db w)) w.

Lemma users_with t w : users (db (with_users t w)) = t.
Proof. done. Qed.

Lemma run_update_user p f u w : first p (users (db w)) = Some u ->
  update_user p f w = (Ok (f u), with_users (update_where p f (users (db w))) w).
Proof. intros H. unfold update_user, read, gets. rewrite run_bind. cbv beta iota. by rewrite H. Qed.

(** The row that was found, after a change that the test does not see *)
Lemma first_found (p : user -> bool) f t u : (forall u, p (f u) = p u) -> first p t = Some u -> first p (update_where p f t) = Some (f u).
Proof.
  intros Hf H. rewrite first_update by auto. rewrite H. simpl. apply first_Some in H as [_ Hp]. by rewrite Hp.
Qed.

Lemma ev_update_at EV EK p f w : (forall u, u ∈ users (db w) -> p u = true -> from EV EK u (f u)) -> evolves EV EK w (update_user p f w).2.
Proof.
  intros Hf. unfold update_user, read, gets. rewrite run_bind. cbv beta iota. destruct (first p _) as [u0|]; [|by apply evolves_other].
  split; simpl; [|done..]. exists (fun u => if p u then f u else u). split; [done|].
  intros u Hu. destruct (p u) eqn:E; [by apply Hf | apply from_refl].
Qed.

Lemma ev_update EV EK p f : (forall u, p u = true -> from EV EK u (f u)) -> frames (evolves EV EK) (update_user p f).
Proof. intros Hf w. apply ev_update_at. auto. Qed.

Lemma ev_write EV EK (f : tables -> tables) : (forall d, users (f d) = users d) -> frames (evolves EV EK) (write f).
Proof. intros Hf. apply calmly_write. intros w. by apply evolves_other; [apply Hf|..]. Qed.

#[local] Instance evolves_benign EV EK : Benign (evolves EV EK).
Proof.
  split; [exact _ | |intros f Hf; apply ev_write; intros d; apply Hf].
  intros p f Hf. apply ev_update. intros u _. by eapply from_weaken, Hf.
Qed.

#[local] Instance evolves_transient EV EK : Transient (evolves EV EK).
Proof. split; [exact _ | apply ev_write]. Qed.

Section operations.
Variables EV EK : string -> Prop.
Abbreviation quiet := (frames (evolves EV EK)).

Lemma ev_set_password realm n pw token : quiet (set_password_of realm n pw token).
Proof.
  unfold set_password_of, resetPasswordOfKeycloakUser. solve_frames.
  - apply ev_placed.
  - unfold sendError. solve_frames.
Qed.

Lemma ev_registered id kc : EV id -> EK id -> quiet (updateUserDetails id kc).
Proof.
  intros HV HK. apply ev_update. intros u E%String.eqb_eq. rewrite <- E in *.
  split; [done|]. split; [right; done | by right].
Qed.
End operations.
#[local] Hint Resolve ev_set_password : platform.

(** ** Steps of an account *)

Definition invited (m : message) (e : string) : Prop :=
  exists p, m = SendVerification p /\ sv_email p = e /\ truthy_str (sv_invitationId p) = true.
Definition mailed (w : world) (e code : string) : Prop :=
  exists v, MailVerification v ∈ calls w /\ vm_email v = e /\ vm_code v = code.

(** A row is added on the way *)
Record appended (w w' : world) (u : user) : Prop := Appended {
  ap_at : world;
  ap_then : world;
  ap_before : evolves nobody nobody w ap_at;
  ap_users : users (db ap_then) = (users (db ap_at) ++ [u])%list;
  ap_free : taken u (users (db ap_at)) = false;
  ap_id : u_id u = uuid (drawn ap_at);
  ap_drawn : (drawn ap_at < drawn ap_then)%nat;
  ap_calls : calls ap_at = calls ap_then;
  ap_after : evolves nobody nobody ap_then w';
}.

Inductive account_step (m : message) (w w' : world) : Prop :=
  | step_quiet : evolves nobody nobody w w' -> account_step m w w'
  | step_verify u e code : m = VerifyEmail (Some e) (Some code) -> u ∈ users (db w) -> email u = Some e -> verificationCode u = Some code ->
      evolves (eq (u_id u)) nobody w w' -> account_step m w w'
  | step_register u : u ∈ users (db w) -> isEmailVerified u = true -> truthy_str (keycloakUserId u) = false ->
      evolves (eq (u_id u)) (eq (u_id u)) w w' -> account_step m w w'
  | step_create u e code : appended w w' u -> email u = Some e -> verificationCode u = Some code -> keycloakUserId u = None ->
      (if isEmailVerified u then invited m e else mailed w' e code) -> account_step m w w'
  | step_username u : appended w w' u -> isEmailVerified u = false -> verificationCode u = None -> account_step m w w'
  | step_delete id : m = DeleteUser id -> users (db w') = others (user_is id) (users (db w)) -> calls w' = calls w -> drawn w' = drawn w ->
      account_step m w w'.

(** Unique identifiers, addresses and names *)
Record accounts_ok (w : world) : Prop := AccountsOk {
  ok_ids : NoDup (u_id <$> users (db w));
  ok_drawn u : u ∈ users (db w) -> exists n, (n < drawn w)%nat /\ u_id u = uuid n;
  ok_email u u' : u ∈ users (db w) -> u' ∈ users (db w) -> email u = email u' -> email u <> None -> u = u';
  ok_username u u' : u ∈ users (db w) -> u' ∈ users (db w) -> username u = username u' -> username u <> None -> u = u';
}.

Lemma lookup_email e w u : first (email_is e) (users (db w)) = Some u -> u ∈ users (db w) /\ email u = Some e.
Proof. intros [Hin He%bool_decide_eq_true]%first_Some. done. Qed.

Ltac at_once := apply step_quiet; by apply evolves_other.

Lemma step_verifyEmail e code w : accounts_ok w -> account_step (VerifyEmail e code) w (verifyEmail e code w).2.
Proof.
  intros Hw. unfold verifyEmail. rewrite rpc_state. destruct (negb _ || negb _) eqn:E; [at_once|].
  rewrite run_bind. unfold getUserDetails, read, gets. cbv beta iota.
  destruct (first _ _) as [u|] eqn:Hf; [|at_once]. apply lookup_email in Hf as [Hu He].
  destruct (bool_decide _) eqn:Ec; cbn [negb]; [|at_once]. apply bool_decide_eq_true in Ec.
  destruct (isEmailVerified u) eqn:Ev; [at_once|].
  destruct code as [c|]; [|done]. destruct e as [e|]; [|by rewrite orb_true_r in E]. simpl in *.
  apply (step_verify _ _ _ u e c); [done..|]. apply ev_update_at. intros u' Hu' He'%bool_decide_eq_true.
  assert (u' = u) as -> by (apply (ok_email _ Hw); [done..| |]; congruence).
  split; [done|]. split; [by right | by left].
Qed.

Lemma step_createUserForToken i w : accounts_ok w -> account_step (AddUser i) w (createUserForToken i w).2.
Proof.
  intros Hw. unfold createUserForToken. rewrite rpc_state. destruct (negb _); [at_once|]. set (e := Str.toLowerCase _).
  rewrite run_bind. unfold getUserDetails at 1, read, gets. cbv beta iota.
  destruct (first _ _) as [u|] eqn:Hf; [|at_once]. destruct (lookup_email _ _ _ Hf) as [Hu He].
  destruct (truthy_str (keycloakUserId u) || _) eqn:Ek; [at_once|]. apply orb_false_iff in Ek as [Ek _].
  destruct (isEmailVerified u) eqn:Ev; cbn [negb]; [|at_once].
  set (EE := eq (u_id u)). apply (step_register _ _ _ u); [done..|].
  rewrite run_bind. unfold updateUserInfo. rewrite (run_update_user _ _ _ _ Hf). cbv beta iota.
  rewrite run_bind. unfold getUserDetails at 1, read, gets. cbv beta iota. rewrite users_with.
  rewrite (first_found (email_is e) (with_names (ui_firstName i) (ui_lastName i)) _ _ ltac:(done) Hf). cbv iota.
  set (u1 := with_names _ _ u). assert (H1 : u_id u1 = u_id u) by done.
  assert (Hs : evolves EE EE w (with_users (update_where (email_is e) (with_names (ui_firstName i) (ui_lastName i)) (users (db w))) w)).
  { pose proof (q_updateUserInfo (evolves EE EE) e (ui_firstName i) (ui_lastName i) w) as H. unfold updateUserInfo in H.
    by rewrite (run_update_user _ _ _ _ Hf) in H. }
  etrans; [exact Hs|]. generalize (with_users (update_where (email_is e) (with_names (ui_firstName i) (ui_lastName i)) (users (db w))) w).
  change (frames (evolves EE EE) (token ← getManagementToken (clientId u) (clientSecret u);
    encrypted ← (if ui_isPasskey i then
        _ ← addUserPassword e (ui_password i);
        again ← getUserDetails e;
        match again with Some u => mret (password u) | None => type_error end
      else mret (ui_password i));
    decryptedPassword ← lift (decryptPassword encrypted);
    keycloakId ← try_catch (ClientRegistration.createUser (dto_of i decryptedPassword) KEYCLOAK_REALM token) (fun _ => throw keycloakError);
    kc ← lift (any_toString keycloakId);
    _ ← updateUserDetails (u_id u1) kc;
    register_holder (u_id u1) keycloakId token (ui_isHolder i))).
  pose proof (q_addUserPassword (evolves EE EE)). pose proof (q_register_holder (evolves EE EE)).
  pose proof (fun r t d => quiet_createUser (evolves EE EE) d r t ltac:(auto with platform)).
  assert (forall kc, frames (evolves EE EE) (updateUserDetails (u_id u1) kc)) by (intros kc; rewrite H1; by apply ev_registered).
  unfold type_error, getUserDetails. solve_frames.
Qed.

(** Setting the password of a user registers it when it is not yet. *)
Lemma step_change {A} m u w (k : eff world A) : u ∈ users (db w) -> isEmailVerified u = true ->
  (forall EV EK, (forall pw, frames (evolves EV EK) (change_password u pw)) -> frames (evolves EV EK) k) -> account_step m w (k w).2.
Proof.
  intros Hu Ev Hk. destruct (truthy_str (keycloakUserId u)) eqn:E.
  - apply step_quiet, Hk. intros pw. unfold change_password. rewrite E.
    pose proof (fun t => quiet_resetPasswordOfUser (evolves nobody nobody) (dto_of_user u pw) KEYCLOAK_REALM t (ev_set_password _ _ _ _ _ _)). solve_frames.
  - apply (step_register _ _ _ u); [done..|]. apply Hk. intros pw. apply q_change_password; [exact _ | auto with platform|].
    intros kc. by apply ev_registered.
Qed.

Lemma step_resetTokenPassword e pw code w : account_step (SetTokenPassword e pw code) w (resetTokenPassword e pw code w).2.
Proof.
  unfold resetTokenPassword. rewrite rpc_state.
  rewrite run_bind. unfold validateEmail. destruct (isEmail _); [|at_once]. cbv beta iota delta [mret eff_ret].
  rewrite run_bind. unfold checkUserExist, read, gets. cbv beta iota. destruct (first _ _) as [u|] eqn:Hf; [|at_once].
  apply lookup_email in Hf as [Hu _]. destruct (isEmailVerified u) eqn:Ev; cbn [negb]; [|at_once].
  apply (step_change _ u); [done..|]. intros EV EK Hc. pose proof (q_updateFidoVerifiedUser (evolves EV EK)).
  unfold getResetPasswordTokenDetails. solve_frames.
Qed.

Lemma step_resetPassword e old new w : account_step (ResetPassword e old new) w (resetPassword e old new w).2.
Proof.
  unfold resetPassword. rewrite rpc_state.
  rewrite run_bind. unfold validateEmail. destruct (isEmail _); [|at_once]. cbv beta iota delta [mret eff_ret].
  rewrite run_bind. unfold checkUserExist, read, gets. cbv beta iota. destruct (first _ _) as [u|] eqn:Hf; [|at_once].
  apply lookup_email in Hf as [Hu _]. destruct (isEmailVerified u) eqn:Ev; cbn [negb]; [|at_once].
  apply (step_change _ u); [done..|]. intros EV EK Hc. pose proof (q_updateFidoVerifiedUser (evolves EV EK)). pose proof (q_generateToken (evolves EV EK)).
  solve_frames.
Qed.

(** *** Rows that are added *)

(** What holds of a value and the world it is returned in *)
Definition returning {A} (Q : A -> world -> Prop) (m : eff world A) : Prop := forall w a w', m w = (Ok a, w') -> Q a w'.

Lemma returning_throw {A} (Q : A -> world -> Prop) e : returning Q (throw e).
Proof. done. Qed.
Lemma returning_bind {A B} (Q : B -> world -> Prop) (m : eff world A) k : (forall a, returning Q (k a)) -> returning Q (m ≫= k).
Proof. intros Hk w b w' H. apply bind_ok_inv in H as (a & w0 & _ & H). by eapply Hk. Qed.
Lemma returning_try {A} (Q : A -> world -> Prop) m e : returning Q m -> returning Q (try_catch m (fun _ => throw e)).
Proof. intros Hm w a w' H. unfold try_catch in H. destruct (m w) as [[a'|?] w1] eqn:E; [|done]. simplify_eq. by eapply Hm. Qed.

Lemma returning_mail m : returning (fun sent w => sent = true -> MailVerification m ∈ calls w) (sendEmailForVerification m).
Proof.
  intros w a w' H Ha. subst a. unfold sendEmailForVerification, rpc, try_catch in H.
  match type of H with context [match ?r with _ => _ end] => destruct r as [[a|?] w1] eqn:E; [|done] end. simplify_eq.
  apply bind_ok_inv in E as (? & w2 & _ & E). unfold ask, lift in E. rewrite !run_bind in E. simpl in E.
  destruct (on_email (calls w2 ++ _)) as [[]|]; [|done..]. injection E as <-. apply elem_of_app. right. by left.
Qed.

Lemma appended_calls w w' u : appended w w' u -> calls w `prefix_of` calls w'.
Proof. intros [? ? Hb _ _ _ _ Hc Ha]. etrans; [apply (ev_calls _ _ _ _ Hb)|]. rewrite Hc. apply (ev_calls _ _ _ _ Ha). Qed.

Lemma insert_cases mk w : (forall id t, u_id (mk id t) = id) ->
  (exists e w1, insert_user mk w = (Throw e, w1) /\ evolves nobody nobody w w1) \/
  (exists u w1, u = mk (uuid (drawn w)) (reading (ticks w)) /\ insert_user mk w = (Ok u, w1) /\
    forall w0 w2, evolves nobody nobody w0 w -> evolves nobody nobody w1 w2 -> appended w0 w2 u).
Proof.
  intros Hid. unfold insert_user, read, fresh, now, write, modify, gets. rewrite !run_bind. cbv beta iota. simpl.
  destruct (taken _ _) eqn:E; [left | right]; eexists _, _; (split; [done|]).
  - apply evolves_other; simpl; [done.. | lia].
  - split; [done|]. intros w0 w2 H0 H2. refine (Appended _ _ _ w _ H0 _ E (Hid _ _) _ _ H2); simpl; [done | lia | done].
Qed.

Lemma step_insert_verified e p n code cid cs (ok : bool) w w1 : evolves nobody nobody w w1 -> first (email_is e) (users (db w1)) = None ->
  (if ok then invited (SendVerification p) e else mailed w1 e code) ->
  account_step (SendVerification p) w (createUser e n code cid cs ok w1).2.
Proof.
  intros H Hf Hok. unfold createUser, read, gets. rewrite run_bind. cbv beta iota. rewrite Hf.
  destruct (insert_cases (new_user e n code cid cs ok) w1) as [(x & w2 & -> & H2)|(u & w2 & Hu & -> & H2)]; [done | |].
  - apply step_quiet. by etrans.
  - subst u. eapply step_create; [by apply H2 | done..|]. destruct ok; [done|]. simpl. destruct Hok as (m & Hm & ?).
    exists m. split; [|done]. eapply elem_of_prefix; [done|]. by eapply appended_calls, H2.
Qed.

(** An address nobody has stays so. *)
Lemma ev_no_email EV EK e w w' : evolves EV EK w w' -> first (email_is e) (users (db w)) = None -> first (email_is e) (users (db w')) = None.
Proof.
  intros [(f & -> & Hf) _ _]. rewrite !first_None. intros Hn u (v & -> & Hv)%list_elem_of_fmap.
  rewrite <- (Hn v Hv). destruct (Hf v Hv) as [Hi _]. unfold email_is.
  assert (email (f v) = email v) as -> by exact (f_equal (fun i => i.1.1.1.1.1.2) Hi). done.
Qed.

Lemma step_sendVerificationMail p w : account_step (SendVerification p) w (sendVerificationMail p w).2.
Proof.
  unfold sendVerificationMail. rewrite rpc_state. destruct (bool_decide _ && _); [at_once|].
  rewrite run_bind. unfold checkUserExist, read at 1, gets at 1. cbv beta iota.
  destruct (first _ _) as [u|] eqn:Hf; [at_once|].
  rewrite run_bind. unfold fresh. cbv beta iota. set (w0 := World _ _ _ _). set (code := uuid _).
  assert (H0 : evolves nobody nobody w w0) by (apply evolves_other; simpl; [done.. | lia]).
  apply (after_frame (evolves nobody nobody)); [apply q_credentials; exact _ | intros w1 H1; apply step_quiet; by etrans | intros d w1 _ H1].
  assert (H2 : evolves nobody nobody w w1) by by etrans. pose proof (ev_no_email _ _ _ _ _ H2 Hf) as Hf1.
  destruct (bool_decide _); [by apply step_quiet|].
  destruct (truthy_str (sv_invitationId p)) eqn:Ei.
  - rewrite run_bind. destruct (createUser _ _ _ _ _ _ w1) as [r w2] eqn:E2.
    assert (H3 : account_step (SendVerification p) w w2).
    { replace w2 with (createUser (sv_email p) (createUsername (sv_email p) code) code (cd_clientId d) (cd_clientSecret d) true w1).2 by by rewrite E2.
      apply step_insert_verified; [done..|]. by exists p. }
    by destruct r.
  - set (send := try_catch _ _).
    assert (Hq : frames (evolves nobody nobody) send) by (pose proof (q_verification_mail (evolves nobody nobody)); subst send; solve_frames).
    assert (Hm : returning (fun sent w => sent = true -> mailed w (sv_email p) code) send).
    { apply returning_try. do 3 (apply returning_bind; intros ?). case_match; [apply returning_throw|].
      intros w' b w2 E Hb. eexists. split; [exact (returning_mail _ _ _ _ E Hb) | done]. }
    apply (after_frame (evolves nobody nobody)); [done | intros w2 H3; apply step_quiet; by etrans | intros sent w2 E2 H3].
    assert (H4 : evolves nobody nobody w w2) by by etrans. pose proof (ev_no_email _ _ _ _ _ H4 Hf) as Hf2.
    destruct sent; [|by apply step_quiet].
    rewrite run_bind. destruct (createUser _ _ _ _ _ _ w2) as [r w3] eqn:E3.
    assert (H5 : account_step (SendVerification p) w w3).
    { replace w3 with (createUser (sv_email p) (createUsername (sv_email p) code) code (cd_clientId d) (cd_clientSecret d) false w2).2 by by rewrite E3.
      apply step_insert_verified; [done..|]. by apply (Hm w1 true w2). }
    by destruct r.
Qed.
Lemma step_createUserForUsernameToken i w : account_step (AddUserUsernameBased i) w (createUserForUsernameToken i w).2.
Proof.
  unfold createUserForUsernameToken. rewrite rpc_state. destruct (String.eqb _ _); [at_once|].
  rewrite run_bind. unfold checkUserExistByUsername, read, gets. cbv beta iota. destruct (first _ _) as [u|]; [at_once|].
  pose proof (fun r t d => quiet_createUserByUsername (evolves nobody nobody) d r t (ev_set_password _ _ _ _ _ _)).
  apply (after_frame (evolves nobody nobody)); [solve_frames | by apply step_quiet | intros tk w1 _ H1].
  apply (after_frame (evolves nobody nobody)); [solve_frames | intros w2 H2; apply step_quiet; by etrans | intros pw w2 _ H2].
  apply (after_frame (evolves nobody nobody)); [solve_frames | intros w3 H3; apply step_quiet; by do 2 (etrans; [done|]) | intros kd w3 _ H3].
  apply (after_frame (evolves nobody nobody)); [solve_frames | intros w4 H4; apply step_quiet; by do 3 (etrans; [done|]) | intros kc w4 _ H4].
  assert (Hs : evolves nobody nobody w w4) by (by do 3 (etrans; [done|])).
  rewrite run_bind. unfold UserRepository.createUserByUsername, try_catch.
  destruct (insert_cases (username_user (UsernameSignup (ub_username i) (ub_firstName i) (ub_lastName i) (ub_clientId i) (ub_clientSecret i)
    (ub_isPasskey i) (ub_password i) kd.2) kc) w4) as [(x & w5 & -> & H5)|(u & w5 & Hu & -> & H5)]; [done | |].
  - apply step_quiet. etrans; [exact Hs|]. by destruct (bool_decide _).
  - subst u. eapply step_username; [apply H5; [done | apply (q_register_holder (evolves nobody nobody))] | done..].
Qed.

Lemma step_deleteUser id w : account_step (DeleteUser id) w (deleteUser id w).2.
Proof.
  unfold deleteUser, deleteUserAndRelatedData. rewrite rpc_state. unfold transaction, read, gets, write, modify. rewrite !run_bind. cbv beta iota.
  destruct (first _ _); [by eapply step_delete | at_once].
Qed.

(** ** Every message *)

Lemma serve_step m w : accounts_ok w -> account_step m w (serve m w).
Proof.
  intros Hw. destruct (changes_accounts m) eqn:Em; [|by apply step_quiet, (t_handle (evolves nobody nobody))].
  unfold serve. destruct m; try done; cbn [handle]; rewrite done_state;
    [apply step_sendVerificationMail | by apply step_verifyEmail | apply step_resetPassword | apply step_resetTokenPassword
    | by apply step_createUserForToken | apply step_createUserForUsernameToken | apply step_deleteUser].
Qed.

(** ** The invariant *)

Lemma from_ident EV EK u u' : from EV EK u u' -> u_id u' = u_id u /\ email u' = email u /\ username u' = username u.
Proof. intros [H _]. unfold ident in H. by repeat (apply pair_equal_spec in H as [H ?]). Qed.

Lemma ev_accounts_ok EV EK w w' : evolves EV EK w w' -> accounts_ok w -> accounts_ok w'.
Proof.
  intros [(f & Hu & Hf) _ Hd] [H1 H2 H3 H4].
  assert (Hi : forall u, u ∈ users (db w) -> u_id (f u) = u_id u /\ email (f u) = email u /\ username (f u) = username u)
    by (intros u Hin; by eapply from_ident, Hf).
  split; rewrite Hu.
  - replace (u_id <$> map f (users (db w))) with (u_id <$> users (db w)); [done|].
    change (map f (users (db w))) with (f <$> users (db w)). rewrite <- list_fmap_compose. apply list_fmap_ext.
    intros n u Hn%list_elem_of_lookup_2. symmetry. by apply Hi.
  - intros u (v & -> & Hv)%list_elem_of_fmap. destruct (H2 v Hv) as (n & ? & ?). exists n. split; [lia|]. by rewrite (proj1 (Hi v Hv)).
  - intros u u' (v & -> & Hv)%list_elem_of_fmap (v' & -> & Hv')%list_elem_of_fmap.
    destruct (Hi v Hv) as (_ & -> & _), (Hi v' Hv') as (_ & -> & _). intros E Hn. by rewrite (H3 v v').
  - intros u u' (v & -> & Hv)%list_elem_of_fmap (v' & -> & Hv')%list_elem_of_fmap.
    destruct (Hi v Hv) as (_ & _ & ->), (Hi v' Hv') as (_ & _ & ->). intros E Hn. by rewrite (H4 v v').
Qed.

Lemma taken_false u t u' : taken u t = false -> u' ∈ t ->
  (email u <> None -> email u' <> email u) /\ (username u <> None -> username u' <> username u).
Proof.
  unfold taken. intros H Hin. rewrite <- not_true_iff_false, existsb_exists in H. split; intros Hn E; apply H; exists u';
    (split; [by apply list_elem_of_In|]); apply orb_true_iff; [left | right]; by rewrite !bool_decide_true.
Qed.

Lemma add_accounts_ok w w' u : accounts_ok w -> users (db w') = (users (db w) ++ [u])%list -> taken u (users (db w)) = false ->
  u_id u = uuid (drawn w) -> (drawn w < drawn w')%nat -> accounts_ok w'.
Proof.
  intros [H1 H2 H3 H4] Hu Ht Hid Hd.
  assert (Hnew : forall v, v ∈ users (db w) -> u_id v <> u_id u)
    by (intros v Hv; destruct (H2 v Hv) as (n & ? & ->); rewrite Hid; intros E%uuid_inj; lia).
  split; rewrite Hu.
  - rewrite fmap_app. apply NoDup_app. split; [done|]. split; [|apply NoDup_singleton].
    intros i (v & -> & Hv)%list_elem_of_fmap E%list_elem_of_singleton; by apply (Hnew v).
  - intros v [Hv | ->%list_elem_of_singleton]%elem_of_app; [destruct (H2 v Hv) as (n & ? & ?); exists n | exists (drawn w)]; (split; [lia | done]).
  - intros v v' [Hv | ->%list_elem_of_singleton]%elem_of_app [Hv' | ->%list_elem_of_singleton]%elem_of_app E Hn; [by apply H3 | | |done];
      exfalso; [apply (proj1 (taken_false _ _ v Ht Hv)) | apply (proj1 (taken_false _ _ v' Ht Hv'))]; congruence.
  - intros v v' [Hv | ->%list_elem_of_singleton]%elem_of_app [Hv' | ->%list_elem_of_singleton]%elem_of_app E Hn; [by apply H4 | | |done];
      exfalso; [apply (proj2 (taken_false _ _ v Ht Hv)) | apply (proj2 (taken_false _ _ v' Ht Hv'))]; congruence.
Qed.

Lemma appended_accounts_ok w w' u : appended w w' u -> accounts_ok w -> accounts_ok w'.
Proof.
  intros [w1 w2 Hb Hu Hf Hi Hd _ Ha] H. eapply ev_accounts_ok; [exact Ha|]. eapply add_accounts_ok; [|done..]. by eapply ev_accounts_ok.
Qed.

Lemma delete_accounts_ok w w' p : users (db w') = others p (users (db w)) -> drawn w' = drawn w -> accounts_ok w -> accounts_ok w'.
Proof.
  intros Hu Hd [H1 H2 H3 H4].
  assert (Hin : forall v, v ∈ users (db w') -> v ∈ users (db w)) by (intros v; rewrite Hu, !list_elem_of_In; by intros []%filter_In).
  split; [|intros u ?; rewrite Hd; auto | intros u u' ? ?; auto..]. rewrite Hu. eapply sublist_NoDup; [exact H1|]. apply fmap_sublist. unfold others. clear.
  induction (users (db w)) as [|u t IH]; simpl; [done|]. case_match; by constructor.
Qed.

Lemma account_step_ok m w w' : account_step m w w' -> accounts_ok w -> accounts_ok w'.
Proof.
  intros []; first [by eapply ev_accounts_ok | by eapply appended_accounts_ok | by eapply delete_accounts_ok].
Qed.

Lemma serve_accounts_ok m w : accounts_ok w -> accounts_ok (serve m w).
Proof. intros H. eapply account_step_ok; [by apply serve_step | done]. Qed.
Lemma serve_all_snoc ms m w : serve_all (ms ++ [m]) w = serve m (serve_all ms w).
Proof. unfold serve_all. by rewrite fold_left_app. Qed.

End laws.

(** * Users: a deployment

    Concrete parties and settings, on which the theorems about users are applied. *)

Open Scope Z_scope.

#[export] Instance sample_uuids : UuidSource := {| uuid := pretty |}.

(** Keycloak and the passkey server accept everything. *)
Definition answer (r : http_request) (n : nat) : any :=
  let str s := Json.JStr s in
  if Str.contains "openid-connect/token" (rq_url r) then
    Some (Json.JObj [("access_token", str "access"); ("expires_in", Json.JNum 300); ("refresh_token", str ("refresh" +:+ pretty n))])
  else if Str.contains "clients?clientId=" (rq_url r) then Some (Json.JArr [Json.JObj [("redirectUris", Json.JArr [str "https://app.example"])]])
  else if Str.contains "users?username=" (rq_url r) then Some (Json.JArr [Json.JObj [("username", str "ann@example.org"); ("id", str "kc-ann")]])
  else if Str.contains "/roles" (rq_url r) then Some (Json.JArr [Json.JObj [("name", str "holder"); ("id", str "role-1")]])
  else if Str.contains "generate-registration-options" (rq_url r) then Some (Json.JObj [("user", Json.JObj [("id", str "fido-1"); ("name", str "ann")])])
  else if Str.contains "/verify-registration" (rq_url r) then
    Some (Json.JObj [("verified", Json.JBool true); ("newDevice", Json.JObj [("credentialID", str "cred=")])])
  else if Str.contains "/verify-authentication" (rq_url r) then Some (Json.JObj [("verified", Json.JBool true)])
  else Some (Json.JObj []).

#[export] Instance sample_parties : Parties := {|
  on_http cs := match last cs with Some (Http r) => inl (answer r (length cs)) | _ => inl None end;
  on_email _ := Ok true;
  on_nats _ := Ok Json.JNull;
  on_supabase _ := inl "Invalid login credentials";
  reading n := 1000 * Z.of_nat n;
  schedule := Nat.even |}.

#[export] Instance sample_platform : Platform := {|
  org_roles := [Role "role-holder" "holder"];
  all_user_roles := [UserRole "role-user" "HOLDER"];
  isEmail := Str.contains "@";
  jwt_decode s := Some (Json.JObj [("exp", Json.JNum 9999999); ("sid", Json.JStr ("session-" +:+ s)); ("sub", Json.JStr "kc-ann")]) |}.

#[export] Instance sample_env : ProcessEnv := {|
  process_env name := snd <$> List.find (fun v => String.eqb v.1 name) [("CRYPTO_PRIVATE_KEY", "key:"); ("KEYCLOAK_DOMAIN", "https://id.example/"); ("KEYCLOAK_REALM", "platform");
    ("KEYCLOAK_MANAGEMENT_CLIENT_ID", "admin"); ("KEYCLOAK_MANAGEMENT_CLIENT_SECRET", "secret"); ("PLATFORM_NAME", "credebl");
    ("FRONT_END_URL", "https://app.example"); ("SESSIONS_LIMIT", "1"); ("FIDO_API_ENDPOINT", "https://fido.example")] |}.

#[export] Existing Instance CipherSample.prefix_cipher.

Definition start : world :=
  World (Tables [] [] [] [] [] [] [] [] [] [] [] [] [] [] [PlatformConfig "config" "ip" None "key" "mail@example.org" "https://api.example"]) [] 0 0.

Definition ann : string := "ann@example.org".
Definition sealed (pw : string) : option string := Some ("key:" +:+ Json.quote pw).

(** Ann asks for a mail, verifies the address and registers. *)
Definition sign_up : list message := [
  SendVerification (UserRepository.SendVerification ann "credebl" None None None None);
  VerifyEmail (Some ann) (Some "0");
  AddUser (UserInformation (Some ann) (sealed "first") (Some "Ann") None false false)].

Definition ann_of (w : world) : option user := first (email_is ann) (users (db w)).

Example signed_up : (fun u => (isEmailVerified u, keycloakUserId u)) <$> ann_of (serve_all sign_up start) = Some (true, Some "kc-ann").
Proof. vm_compute. reflexivity. Qed.
