(* ===== verification/UserTokens.v ===== *)
(** * Users: reset tokens and passwords

    A reset token serves once: when a password was set with it, it is gone, and its code,
    being drawn fresh, never comes back.  Passwords are set only for whom they may be. *)

From S2P Require Import Prelude Js Table CastHelper CommonService ClientRegistration UserData UserRepository User Fido UserFrames UserInvariant.

Section tokens.
Context {U : UuidSource} {P : Parties} {T : Platform} {V : ProcessEnv} {C : Cipher}.

Definition drawn_before (w : world) (s : string) : Prop := exists n, (n < drawn w)%nat /\ s = uuid n.

Record tokens_ok (w : world) : Prop := TokensOk {
  tk_codes : NoDup (t_token <$> tokens (db w));
  tk_drawn t : t ∈ tokens (db w) -> drawn_before w (t_token t);
}.

(** Later, a token is one of before, or has a code that was drawn since. *)
Record renewed (w w' : world) : Prop := Renewed {
  rn_drawn : (drawn w <= drawn w')%nat;
  rn_tokens t : t ∈ tokens (db w') -> t ∈ tokens (db w) \/ ~ drawn_before w (t_token t);
  rn_ok : tokens_ok w -> tokens_ok w';
}.

Lemma drawn_later w w' s : (drawn w <= drawn w')%nat -> drawn_before w s -> drawn_before w' s.
Proof. intros H (n & ? & ?). exists n. split; [lia | done]. Qed.

(** Tokens that are left *)
Lemma renewed_fewer w w' : (drawn w <= drawn w')%nat -> tokens (db w') `sublist_of` tokens (db w) -> renewed w w'.
Proof.
  intros Hd Hs. assert (Hin : forall t, t ∈ tokens (db w') -> t ∈ tokens (db w)) by (intros t; intros Ht; by eapply elem_of_sublist).
  split; [done | auto|]. intros [H2 H3]. split; [eapply sublist_NoDup; [exact H2|]; by apply fmap_sublist |].
  intros t Ht. eapply drawn_later; eauto.
Qed.
Lemma renewed_same w w' : (drawn w <= drawn w')%nat -> tokens (db w') = tokens (db w) -> renewed w w'.
Proof. intros Hd Ht. apply renewed_fewer; [done | by rewrite Ht]. Qed.

#[local] Instance renewed_preorder : PreOrder renewed.
Proof.
  split; [intros w; by apply renewed_same|]. intros w w1 w2 [D1 T1 O1] [D2 T2 O2]. split; [lia | | auto].
  intros t Ht. destruct (T2 t Ht) as [Ht1|Hn]; [auto|]. right. contradict Hn. by eapply drawn_later.
Qed.

Lemma renewed_aside f : (forall d, tokens (f d) = tokens d) -> frames renewed (write f).
Proof. intros Hf w. apply renewed_same; [done | apply Hf]. Qed.
#[local] Hint Extern 1 (frames renewed (write _)) => apply renewed_aside; intros ?; reflexivity : platform.

#[local] Instance renewed_calm : Calm renewed.
Proof. split; [exact _ | intros w w' Hd _ ?; apply renewed_same; [done | by rewrite Hd] | intros c _ w; by apply renewed_same]. Qed.
Lemma renewed_update p f : frames renewed (update_user p f).
Proof. unfold update_user. solve_frames. Qed.
#[local] Instance renewed_benign : Benign renewed.
Proof. split; [exact _ | intros; apply renewed_update | intros f Hf; apply renewed_aside; intros d; apply Hf]. Qed.

Lemma others_sublist {A} (p : A -> bool) l : others p l `sublist_of` l.
Proof. unfold others. induction l as [|a l IH]; simpl; [done|]. case_match; by constructor. Qed.

#[local] Instance renewed_accountwise : Accountwise renewed.
Proof.
  split; [exact _ | intros; apply renewed_update | | intros c w; by apply renewed_same |].
  - intros mk. unfold insert_user. solve_frames.
  - intros id w. apply renewed_fewer; [done | apply others_sublist].
Qed.

(** ** The operations *)

Lemma renewed_createSession n : frames renewed (createSession n).
Proof. unfold createSession. solve_frames. Qed.
Lemma renewed_deleteInactive u : frames renewed (deleteInactiveSessions u).
Proof. unfold deleteInactiveSessions. solve_frames. Qed.
Lemma renewed_remove_session p e : frames renewed (remove_session p e).
Proof. unfold remove_session. solve_frames. Qed.
#[local] Hint Resolve renewed_createSession renewed_deleteInactive renewed_remove_session : platform.
Lemma renewed_deleteSession i : frames renewed (deleteSession i).
Proof. unfold deleteSession. solve_frames. Qed.
Lemma renewed_updateSessionToken i d : frames renewed (updateSessionToken i d).
Proof. unfold updateSessionToken. solve_frames. Qed.

Lemma renewed_deleteToken i : frames renewed (deleteResetPasswordToken i).
Proof.
  intros w. unfold deleteResetPasswordToken, read, gets. rewrite run_bind. cbv beta iota. destruct (first _ _); [|done].
  apply renewed_fewer; [done | apply others_sublist].
Qed.
#[local] Hint Resolve renewed_deleteSession renewed_updateSessionToken renewed_deleteToken : platform.

(** A code that is drawn just before it is stored *)
Lemma renewed_createToken u n x w : n = drawn w -> renewed w (createTokenForResetPassword u (uuid n) x (World (db w) (calls w) (S (drawn w)) (S (ticks w)))).2.
Proof.
  intros ->. unfold createTokenForResetPassword, read, gets, fresh, write, modify. rewrite run_bind. cbv beta iota. simpl tokens.
  destruct (existsb _ _) eqn:E; [apply renewed_same; simpl; [lia | done]|]. rewrite !run_bind. cbv beta iota. simpl.
  split; simpl; [lia | |].
  - intros t [?| ->%list_elem_of_singleton]%elem_of_app; [by left|]. right. intros (n & ? & Hn%uuid_inj). lia.
  - intros [H1 H2]. split; simpl.
    + rewrite fmap_app. apply NoDup_app. split; [done|]. split; [|apply NoDup_singleton].
      intros s (t & -> & Ht)%list_elem_of_fmap Hs%list_elem_of_singleton. simpl in Hs.
      destruct (H2 t Ht) as (n & ? & En). rewrite En in Hs. apply uuid_inj in Hs. lia.
    + intros t [Ht| ->%list_elem_of_singleton]%elem_of_app.
      * eapply (drawn_later w); [simpl; lia | by apply H2].
      * exists (drawn w). simpl. split; [lia | done].
Qed.

Lemma renewed_forgotPassword e : frames renewed (forgotPassword e).
Proof.
  intros w. unfold forgotPassword. rewrite rpc_state. rewrite run_bind. unfold validateEmail. destruct (isEmail _); [|done].
  cbv beta iota delta [mret eff_ret]. rewrite run_bind. unfold checkUserExist, read at 1, gets at 1. cbv beta iota.
  destruct (first _ _) as [u|]; [|done]. destruct (negb _); [done|]. rewrite run_bind. unfold fresh at 1. cbv beta iota.
  rewrite run_bind. unfold now. cbv beta iota. rewrite run_bind.
  match goal with |- context [createTokenForResetPassword ?u ?c ?x ?w1] => pose proof (renewed_createToken u (drawn w) x w eq_refl) as Hr;
    change (createTokenForResetPassword u (uuid (drawn w)) x _) with (createTokenForResetPassword u c x w1) in Hr;
    destruct (createTokenForResetPassword u c x w1) as [[t|] w2] end; [|exact Hr].
  pose proof (q_reset_mail renewed). etrans; [exact Hr|].
  match goal with |- renewed _ (?m ?w2).2 => enough (frames renewed m) by done end. solve_frames.
Qed.

Lemma renewed_serve m w : renewed w (serve m w).
Proof.
  unfold serve. revert w. change (frames renewed (handle m)).
  destruct (changes_accounts m) eqn:Ec; [apply a_handle; [exact _ | done | auto with platform]|].
  destruct m; try done; apply q_done; try exact _;
    first [ apply q_login | apply q_usernameLogin | apply q_refreshTokenDetails | apply renewed_forgotPassword | apply q_updateProfile
    | apply q_addPasskey | apply q_updatePlatformConfig | apply q_updateOrgDeletedActivity | apply q_generateRegistration
    | apply q_verifyRegistration | apply q_generateAuthenticationOption | apply q_verifyAuthentication | apply q_updateUserDevice
    | apply q_deleteFidoUserDevice | apply q_updateFidoUserDeviceName | idtac ]; first [exact _ | auto with platform | idtac].
  - unfold deleteUserSession, deleteSessionBySessionId. solve_frames.
  - unfold logout, rpc, destroySession. solve_frames.
Qed.

Lemma renewed_all ms w : renewed w (serve_all ms w).
Proof. induction ms as [|m ms IH] using rev_ind; [done|]. rewrite serve_all_snoc. etrans; [exact IH | apply renewed_serve]. Qed.

(** ** Single use *)

Lemma same_code w t t' : tokens_ok w -> t ∈ tokens (db w) -> t' ∈ tokens (db w) -> t_token t' = t_token t -> t' = t.
Proof.
  intros [H _] [i Hi]%list_elem_of_lookup [j Hj]%list_elem_of_lookup E. assert (i = j) as <-; [|congruence].
  eapply NoDup_lookup; [exact H | by rewrite list_lookup_fmap, Hi | rewrite list_lookup_fmap, Hj; simpl; congruence].
Qed.

Lemma deleteToken_ok i w r w' : deleteResetPasswordToken i w = (Ok r, w') ->
  w' = set_db (set_tokens (others (fun r => String.eqb (t_id r) i) (tokens (db w))) (db w)) w.
Proof.
  unfold deleteResetPasswordToken, read, gets, write, modify. rewrite run_bind. cbv beta iota. destruct (first _ _); [|done].
  intros H. by injection H as _ <-.
Qed.

Lemma past_ok {A B} (m : eff world A) (k : A -> eff world B) w b w' : frames renewed m -> (m ≫= k) w = (Ok b, w') ->
  exists a w1, renewed w w1 /\ k a w1 = (Ok b, w').
Proof. intros Hm (a & w1 & E & Hk)%bind_ok_inv. exists a, w1. split; [|done]. pose proof (Hm w) as H. by rewrite E in H. Qed.

Lemma rpc_ok {A} (m : eff world A) w a w' : rpc m w = (Ok a, w') -> m w = (Ok a, w').
Proof. unfold rpc, try_catch. destruct (m w) as [[|] ?]; [done|]. intros H. by simplify_eq. Qed.

(** No token has the code. *)
Definition spent (code : string) (w : world) : Prop := drawn_before w code /\ forall t, t ∈ tokens (db w) -> t_token t <> code.

Lemma spent_later code w w' : renewed w w' -> spent code w -> spent code w'.
Proof. intros [Hd Ht _] [Hc Hn]. split; [by eapply drawn_later|]. intros t [?|Hf]%Ht E; [by apply (Hn t) | by subst code]. Qed.

Lemma resetTokenPassword_spends e pw code w a w' : tokens_ok w -> resetTokenPassword e pw code w = (Ok a, w') -> spent code w'.
Proof.
  intros Hok H%rpc_ok. unfold validateEmail in H. rewrite run_bind in H. destruct (isEmail _); [|done]. cbv beta iota delta [mret eff_ret] in H.
  rewrite run_bind in H. unfold checkUserExist, read, gets in H. cbv beta iota in H. destruct (first _ _) as [u|]; [|done].
  destruct (negb _); [done|]. rewrite run_bind in H. unfold getResetPasswordTokenDetails, read, gets in H. cbv beta iota in H.
  destruct (first _ (tokens _)) as [t|] eqn:Ht; [|done]. apply first_Some in Ht as [Ht [_ <-%String.eqb_eq]%andb_true_iff].
  pose proof (q_updateFidoVerifiedUser renewed). pose proof (a_change_password renewed).
  apply past_ok in H as (n & w1 & R1 & H); [|solve_frames]. destruct (Z.ltb _ _); [done|].
  apply past_ok in H as (p & w2 & R2 & H); [|solve_frames]. apply past_ok in H as ([] & w3 & R3 & H); [|solve_frames].
  apply bind_ok_inv in H as (r & w4 & ->%deleteToken_ok & H). injection H as _ <-.
  assert (Hr : renewed w w3) by by do 2 (etrans; [done|]). pose proof (tk_drawn _ Hok t Ht) as Hc.
  split; [by eapply (drawn_later w), Hc; apply Hr|]. intros t' Ht' E. simpl in Ht'.
  apply list_elem_of_In, filter_In in Ht' as [Ht'%list_elem_of_In Hn].
  destruct (rn_tokens _ _ Hr t' Ht') as [Hw|Hf]; [|by rewrite E in Hf].
  assert (t' = t) as -> by by eapply same_code. by rewrite String.eqb_refl in Hn.
Qed.

(** C13. After a message that set a password with a reset token, at any time after any other
    messages, its code is refused for every user, and no other party is called. *)
Theorem reset_token_single_use w0 ms0 e pw code a w1 : tokens (db w0) = [] ->
  resetTokenPassword e pw code (serve_all ms0 w0) = (Ok a, w1) ->
  forall ms e' pw', exists x, resetTokenPassword e' pw' code (serve_all ms w1) = (Throw x, serve_all ms w1).
Proof.
  intros H0 H ms e' pw'.
  assert (Hok : tokens_ok w0) by (split; rewrite H0; [apply NoDup_nil_2 | set_solver]).
  pose proof (rn_ok _ _ (renewed_all ms0 w0) Hok) as Hok1. apply resetTokenPassword_spends in H; [|done].
  apply (spent_later _ _ _ (renewed_all ms w1)) in H. generalize dependent (serve_all ms w1). clear. intros w [_ Hn].
  unfold resetTokenPassword, rpc, try_catch. rewrite run_bind. unfold validateEmail. destruct (isEmail _); [|by eexists].
  cbv beta iota delta [mret eff_ret]. rewrite run_bind. unfold checkUserExist, read, gets. cbv beta iota. destruct (first _ _) as [u|]; [|by eexists].
  destruct (negb _); [by eexists|]. rewrite run_bind. unfold getResetPasswordTokenDetails, read, gets. cbv beta iota.
  destruct (first _ (tokens _)) as [t|] eqn:Ht; [|by eexists]. apply first_Some in Ht as [Ht [_ E%String.eqb_eq]%andb_true_iff]. by apply Hn in Ht.
Qed.
End tokens.

(** * Users: who may set a password

    The only requests that change something at Keycloak for an existing account put a
    password; [adds Q] relates worlds between which such a request was made only if [Q]. *)

Open Scope Z_scope.

Section passwords.
Context {U : UuidSource} {P : Parties} {T : Platform} {V : ProcessEnv} {C : Cipher}.

Definition adds (Q : Prop) (w w' : world) : Prop :=
  exists cs, calls w' = (calls w ++ cs)%list /\ forall r, Http r ∈ cs -> rq_method r = PUT -> Q.

Lemma adds_same Q w w' : calls w' = calls w -> adds Q w w'.
Proof. intros H. exists []. split; [by rewrite app_nil_r | set_solver]. Qed.

Lemma adds_any (Q : Prop) w w' : Q -> calls w `prefix_of` calls w' -> adds Q w w'.
Proof. intros HQ [cs Hc]. by exists cs. Qed.

#[local] Instance adds_preorder Q : PreOrder (adds Q).
Proof.
  split; [intros w; by apply adds_same|]. intros w w1 w2 (c1 & H1 & Q1) (c2 & H2 & Q2).
  exists (c1 ++ c2)%list. split; [by rewrite H2, H1, app_assoc|]. intros r [H|H]%elem_of_app; eauto.
Qed.

#[local] Instance adds_calm Q : Calm (adds Q).
Proof.
  split; [exact _ | intros w w' _ Hc _; by apply adds_same |].
  intros c Hc w. exists [c]. split; [done|]. by intros r <-%list_elem_of_singleton.
Qed.

Lemma adds_write Q (f : tables -> tables) : frames (adds Q) (write f).
Proof. apply calmly_write. intros w. by apply adds_same. Qed.
#[local] Hint Resolve adds_write : platform.

Lemma adds_update Q p f : frames (adds Q) (update_user p f).
Proof. unfold update_user. solve_frames. Qed.
#[local] Hint Resolve adds_update : platform.

#[local] Instance adds_benign Q : Benign (adds Q).
Proof. split; [exact _ | intros; apply adds_update | intros; apply adds_write]. Qed.

#[local] Instance adds_transient Q : Transient (adds Q).
Proof. split; [exact _ | intros; apply adds_write]. Qed.

Lemma adds_insert Q mk : frames (adds Q) (insert_user mk).
Proof. unfold insert_user. solve_frames. Qed.
#[local] Hint Resolve adds_insert : platform.
Lemma adds_createUser Q e n c i s ok : frames (adds Q) (createUser e n c i s ok).
Proof. unfold createUser. solve_frames. Qed.
#[local] Hint Resolve adds_createUser : platform.
Lemma adds_sendVerificationMail Q p : frames (adds Q) (sendVerificationMail p).
Proof.
  pose proof (q_credentials (adds Q)). pose proof (q_verification_mail (adds Q)).
  unfold sendVerificationMail, rpc, checkUserExist. solve_frames.
Qed.
Lemma adds_verifyEmail Q e c : frames (adds Q) (verifyEmail e c).
Proof. unfold verifyEmail, rpc, getUserDetails, verifyUser. solve_frames. Qed.
Lemma adds_deleteUser Q i : frames (adds Q) (deleteUser i).
Proof.
  intros w. unfold deleteUser. rewrite rpc_state. unfold deleteUserAndRelatedData, transaction, read, gets, write, modify.
  rewrite !run_bind. cbv beta iota. by destruct (first _ _); apply adds_same.
Qed.

(** The password itself *)
Lemma adds_set_password (Q : Prop) realm n pw token : Q -> frames (adds Q) (set_password_of realm n pw token).
Proof.
  intros HQ w. apply adds_any; [done|]. apply (ev_calls nobody nobody), ev_set_password.
Qed.

(** ** Permission *)

Definition permitted (m : message) (w : world) : Prop :=
  match m with
  | AddUser i => exists u, u ∈ users (db w) /\ email u = Some (Str.toLowerCase (default "" (ui_email i))) /\
      isEmailVerified u = true /\ truthy_str (keycloakUserId u) = false /\ truthy_str (supabaseUserId u) = false
  | AddUserUsernameBased i => forall u, u ∈ users (db w) -> username u <> Some (Str.toLowerCase (ub_username i))
  | SetTokenPassword e _ code => exists u t, u ∈ users (db w) /\ email u = Some (Str.toLowerCase e) /\ isEmailVerified u = true /\
      t ∈ tokens (db w) /\ t_userId t = u_id u /\ t_token t = code /\ reading (ticks w) <= t_expiresAt t
  | ResetPassword e old _ => exists u pw a w', u ∈ users (db w) /\ email u = Some (Str.toLowerCase e) /\ isEmailVerified u = true /\
      decryptPassword old = Ok pw /\ generateToken (Str.toLowerCase e) pw u w = (Ok a, w') /\ any_truthy a = true
  | _ => False
  end.

Lemma adds_createUserForToken i w : adds (permitted (AddUser i) w) w (createUserForToken i w).2.
Proof.
  unfold createUserForToken. rewrite rpc_state. case_match; [by apply adds_same|]. set (e := Str.toLowerCase _).
  rewrite run_bind. unfold getUserDetails at 1, read, gets. cbv beta iota.
  destruct (first _ _) as [u|] eqn:Hf; [|by apply adds_same]. apply lookup_email in Hf as [Hu He].
  destruct (truthy_str (keycloakUserId u) || _) eqn:Ek; [by apply adds_same|]. apply orb_false_iff in Ek as [Ek Es].
  destruct (isEmailVerified u) eqn:Ev; cbn [negb]; [|by apply adds_same].
  assert (HQ : permitted (AddUser i) w) by by exists u. revert HQ. generalize (permitted (AddUser i) w). intros Q HQ.
  pose proof (fun r n pw t => adds_set_password Q r n pw t HQ). pose proof (q_register_holder (adds Q)).
  pose proof (fun r t d => quiet_createUser (adds Q) d r t (adds_set_password _ _ _ _ _ HQ)). pose proof (q_addUserPassword (adds Q)).
  match goal with |- adds _ ?w (?m ?w).2 => enough (frames (adds Q) m) by done end.
  unfold updateUserInfo, getUserDetails, updateUserDetails, type_error. solve_frames.
Qed.

Lemma adds_createUserForUsernameToken i w : adds (permitted (AddUserUsernameBased i) w) w (createUserForUsernameToken i w).2.
Proof.
  unfold createUserForUsernameToken. rewrite rpc_state. case_match; [by apply adds_same|].
  rewrite run_bind. unfold checkUserExistByUsername, read, gets. cbv beta iota.
  destruct (first _ _) as [u|] eqn:Hf; [by apply adds_same|].
  assert (HQ : permitted (AddUserUsernameBased i) w).
  { intros u Hu E. rewrite first_None in Hf. specialize (Hf u Hu). by apply bool_decide_eq_false in Hf. }
  revert HQ. generalize (permitted (AddUserUsernameBased i) w). intros Q HQ.
  pose proof (q_register_holder (adds Q)).
  pose proof (fun r t d => quiet_createUserByUsername (adds Q) d r t (adds_set_password _ _ _ _ _ HQ)).
  match goal with |- adds _ ?w (?m ?w).2 => enough (frames (adds Q) m) by done end.
  unfold UserRepository.createUserByUsername. solve_frames.
Qed.

Lemma adds_change_password (Q : Prop) u pw : Q -> frames (adds Q) (change_password u pw).
Proof. intros HQ. apply q_change_password; [exact _ | intros; by apply adds_set_password | intros; apply adds_update]. Qed.

Lemma adds_resetTokenPassword e pw code w : adds (permitted (SetTokenPassword e pw code) w) w (resetTokenPassword e pw code w).2.
Proof.
  unfold resetTokenPassword. rewrite rpc_state.
  rewrite run_bind. unfold validateEmail. destruct (isEmail _); [|by apply adds_same]. cbv beta iota delta [mret eff_ret].
  rewrite run_bind. unfold checkUserExist, read, gets. cbv beta iota. destruct (first _ _) as [u|] eqn:Hf; [|by apply adds_same].
  apply lookup_email in Hf as [Hu He]. destruct (isEmailVerified u) eqn:Ev; cbn [negb]; [|by apply adds_same].
  rewrite run_bind. unfold getResetPasswordTokenDetails, read, gets. cbv beta iota.
  destruct (first _ (tokens _)) as [t|] eqn:Ht; [|by apply adds_same].
  apply first_Some in Ht as [Ht [Ht1%String.eqb_eq Ht2%String.eqb_eq]%andb_true_iff].
  rewrite run_bind. unfold now. cbv beta iota. destruct (t_expiresAt t <? _) eqn:Ex; [by apply adds_same|]. apply Z.ltb_ge in Ex.
  assert (HQ : permitted (SetTokenPassword e pw code) w) by by exists u, t.
  revert HQ. generalize (permitted (SetTokenPassword e pw code) w). intros Q HQ.
  pose proof (fun u pw => adds_change_password Q u pw HQ). pose proof (q_updateFidoVerifiedUser (adds Q)).
  match goal with |- adds _ _ (?m ?w1).2 => etrans; [by apply (adds_same _ w w1) | enough (frames (adds Q) m) by done] end.
  solve_frames.
Qed.

Lemma adds_resetPassword e old new w : adds (permitted (ResetPassword e old new) w) w (resetPassword e old new w).2.
Proof.
  unfold resetPassword. rewrite rpc_state.
  rewrite run_bind. unfold validateEmail. destruct (isEmail _); [|by apply adds_same]. cbv beta iota delta [mret eff_ret].
  rewrite run_bind. unfold checkUserExist, read, gets. cbv beta iota. destruct (first _ _) as [u|] eqn:Hf; [|by apply adds_same].
  apply lookup_email in Hf as [Hu He]. destruct (isEmailVerified u) eqn:Ev; cbn [negb]; [|by apply adds_same].
  rewrite run_bind. unfold lift at 1. destruct (decryptPassword old) as [pw|] eqn:Ep; [|by apply adds_same]. cbv beta iota.
  rewrite run_bind. unfold lift at 1. destruct (decryptPassword new) as [pw'|]; [|by apply adds_same]. cbv beta iota.
  destruct (strict_equal _ _); [by apply adds_same|].
  apply (after_frame (adds (permitted (ResetPassword e old new) w))); [apply q_generateToken; exact _ | done | intros a w1 E H1].
  destruct (any_truthy a) eqn:Ea; [|done].
  assert (HQ : permitted (ResetPassword e old new) w) by by exists u, pw, a, w1.
  revert HQ H1. generalize (permitted (ResetPassword e old new) w). intros Q HQ H1. etrans; [exact H1|].
  pose proof (fun u pw => adds_change_password Q u pw HQ). pose proof (q_updateFidoVerifiedUser (adds Q)).
  match goal with |- adds _ _ (?m ?w1).2 => enough (frames (adds Q) m) by done end. solve_frames.
Qed.

(** C11. A password is set at Keycloak while a message is served only for the registration
    of a verified user that is not registered, or of a user with a free name; by one who holds
    an unexpired reset token of the verified user; or after Keycloak or Supabase accepted the
    old password. *)
Theorem passwords_guarded m w : exists cs, calls (serve m w) = (calls w ++ cs)%list /\
  forall r, Http r ∈ cs -> rq_method r = PUT -> permitted m w.
Proof.
  change (adds (permitted m w) w (serve m w)). destruct (changes_accounts m) eqn:Em; [|by apply (t_handle (adds _))].
  unfold serve. destruct m; try done; cbn [handle]; rewrite done_state;
    [apply adds_sendVerificationMail | apply adds_verifyEmail | apply adds_resetPassword | apply adds_resetTokenPassword
    | apply adds_createUserForToken | apply adds_createUserForUsernameToken | apply adds_deleteUser].
Qed.
End passwords.
