(* ===== verification/UserProofs.v ===== *)
(** * Users: theorems

    What serving any sequence of messages keeps of the accounts, who may set a password, how
    often a reset token serves, and how many sessions a user has. *)

From S2P Require Import Prelude Js Table CastHelper CommonService ClientRegistration UserData UserRepository User Fido UserFrames UserInvariant UserTokens JsonParse.

Open Scope Z_scope.

Section sessions.
Context {U : UuidSource} {P : Parties} {T : Platform} {V : ProcessEnv} {C : Cipher}.

Definition count (u : string) (w : world) : nat := length (List.filter (session_of u) (sessions (db w))).

(** No user gets a session. *)
Definition fewer (w w' : world) : Prop := forall u, (count u w' <= count u w)%nat.

Lemma fewer_same w w' : sessions (db w') = sessions (db w) -> fewer w w'.
Proof. intros H u. unfold count. by rewrite H. Qed.

#[local] Instance fewer_preorder : PreOrder fewer.
Proof. split; [intros w; by apply fewer_same|]. intros w w1 w2 H1 H2 u. specialize (H1 u). specialize (H2 u). lia. Qed.

#[local] Instance fewer_calm : Calm fewer.
Proof. split; [exact _ | intros w w' Hd _ _; apply fewer_same; by rewrite Hd | intros c _ w; by apply fewer_same]. Qed.

Lemma fewer_update p f : frames fewer (update_user p f).
Proof. unfold update_user. solve_frames. intros w. by apply fewer_same. Qed.

#[local] Instance fewer_benign : Benign fewer.
Proof. split; [exact _ | intros; apply fewer_update | intros f Hf; apply calmly_write; intros w; apply fewer_same, Hf]. Qed.

Lemma filter_others {A} (p q : A -> bool) l : (length (List.filter p (others q l)) <= length (List.filter p l))%nat.
Proof. unfold others. induction l as [|a l IH]; simpl; [done|]. destruct (q a), (p a) eqn:E; simpl; rewrite ?E; simpl; lia. Qed.

Lemma fewer_remove p : frames fewer (write (fun d => set_sessions (others p (sessions d)) d)).
Proof. apply calmly_write. intros w u. apply filter_others. Qed.
Lemma fewer_aside f : (forall d, sessions (f d) = sessions d) -> frames fewer (write f).
Proof. intros Hf. apply calmly_write. intros w. apply fewer_same, Hf. Qed.
#[local] Hint Resolve fewer_update : platform.
#[local] Hint Extern 1 (frames fewer (write _)) => apply fewer_remove : platform.
#[local] Hint Extern 2 (frames fewer (write _)) => apply fewer_aside; intros ?; reflexivity : platform.

Lemma fewer_deleteInactive u : frames fewer (deleteInactiveSessions u).
Proof. unfold deleteInactiveSessions. solve_frames. Qed.
Lemma fewer_remove_session p e : frames fewer (remove_session p e).
Proof.
  intros w. unfold remove_session, read, gets. rewrite run_bind. cbv beta iota. destruct (first _ _); [|by apply fewer_same].
  intros u. apply filter_others.
Qed.
#[local] Hint Resolve fewer_deleteInactive fewer_remove_session : platform.
Lemma fewer_deleteSession i : frames fewer (deleteSession i).
Proof. unfold deleteSession. solve_frames. Qed.
Lemma filter_update {A} (p q : A -> bool) f l : (forall a, p (f a) = p a) -> length (List.filter p (update_where q f l)) = length (List.filter p l).
Proof. intros Hf. induction l as [|a l IH]; simpl; [done|]. destruct (q a); rewrite ?Hf; destruct (p a); simpl; lia. Qed.

Lemma fewer_updateSessionToken i d : frames fewer (updateSessionToken i d).
Proof.
  intros w. unfold updateSessionToken. destruct (negb _); [done|]. destruct i as [[]|]; try done.
  destruct (negb _); [done|]. unfold read, gets. rewrite run_bind. cbv beta iota. destruct (first _ _); [|done].
  intros u. unfold count. simpl. by rewrite filter_update.
Qed.
Lemma fewer_createToken u c x : frames fewer (createTokenForResetPassword u c x).
Proof. unfold createTokenForResetPassword. solve_frames. Qed.
Lemma fewer_deleteToken i : frames fewer (deleteResetPasswordToken i).
Proof. unfold deleteResetPasswordToken. solve_frames. Qed.
#[local] Hint Resolve fewer_deleteSession fewer_updateSessionToken fewer_createToken fewer_deleteToken : platform.

Lemma fewer_insert mk : frames fewer (insert_user mk).
Proof. unfold insert_user. solve_frames. Qed.

#[local] Instance fewer_accountwise : Accountwise fewer.
Proof.
  split; [exact _ | intros; apply fewer_update | apply fewer_insert | intros c w; by apply fewer_same |].
  intros id. apply calmly_write. intros w u. apply filter_others.
Qed.

(** Messages that sign nobody in *)
Definition signs_in (m : message) : bool :=
  match m with Login _ | UsernameLogin _ _ _ | VerifyAuthentication _ _ => true | _ => false end.

Lemma fewer_deleteUserSession i u : frames fewer (deleteUserSession i u).
Proof. unfold deleteUserSession, deleteSessionBySessionId. solve_frames. Qed.
Lemma fewer_logout l : frames fewer (logout l).
Proof. unfold logout, rpc, destroySession. solve_frames. Qed.

Lemma fewer_handle m : signs_in m = false -> frames fewer (handle m).
Proof.
  intros Hm. destruct (changes_accounts m) eqn:Ec; [apply a_handle; [exact _ | done | auto with platform]|].
  destruct m; try done; apply q_done; try exact _;
    first [ apply fewer_deleteUserSession | apply fewer_logout
    | apply q_refreshTokenDetails | apply q_forgotPassword | apply q_updateProfile | apply q_addPasskey | apply q_updatePlatformConfig
    | apply q_updateOrgDeletedActivity | apply q_generateRegistration | apply q_verifyRegistration | apply q_generateAuthenticationOption
    | apply q_updateUserDevice | apply q_deleteFidoUserDevice | apply q_updateFidoUserDeviceName ]; first [exact _ | auto with platform].
Qed.

(** ** Signing in *)

Variable l : Z.
Hypothesis Hlimit : (process_env "SESSIONS_LIMIT" ≫= Num.Number) = Some l.

Definition bounded (w : world) : Prop := forall u, Z.of_nat (count u w) <= l.
Definition room (u : string) (w : world) : Prop := bounded w /\ Z.of_nat (count u w) < l.

Lemma fewer_bounded w w' : fewer w w' -> bounded w -> bounded w'.
Proof. intros H Hb u. specialize (H u). specialize (Hb u). lia. Qed.
Lemma fewer_room u w w' : fewer w w' -> room u w -> room u w'.
Proof. intros H [Hb Hr]. split; [by eapply fewer_bounded|]. specialize (H u). lia. Qed.

Lemma limit_free n : limit_reached n = false -> Z.of_nat n < l.
Proof using All. unfold limit_reached. intros H. destruct (process_env _) as [s|]; [|done]. simpl in Hlimit. rewrite Hlimit in H. by apply Z.leb_gt. Qed.

(** Whichever way the deletion of the expired sessions and the query are ordered *)
Lemma check_session_limit_room u w w' : check_session_limit u w = (Ok tt, w') -> bounded w -> room u w'.
Proof using All.
  unfold check_session_limit, overlapping. intros H Hb. apply bind_ok_inv in H as (rows & w1 & Ho & H).
  destruct (limit_reached (length rows)) eqn:El; [done|]. apply limit_free in El. injection H as <-.
  apply bind_ok_inv in Ho as (b & w2 & Ht & Ho). injection Ht as _ <-.
  set (w2 := World _ _ _ _) in *. assert (Hb2 : bounded w2) by by eapply fewer_bounded, Hb; apply fewer_same.
  pose proof (fewer_deleteInactive u w2) as Hd. destruct b.
  - apply bind_ok_inv in Ho as (? & w3 & E & Ho). rewrite E in Hd. unfold fetchUserSessions, read, gets in Ho. injection Ho as <- <-.
    split; [by eapply fewer_bounded | done].
  - apply bind_ok_inv in Ho as (? & w3 & E & Ho). unfold fetchUserSessions, read, gets in E. injection E as <- <-.
    apply bind_ok_inv in Ho as (? & w4 & E & Ho). rewrite E in Hd. injection Ho as <- <-.
    eapply fewer_room; [exact Hd | by split].
Qed.

Lemma createSession_bounded n w : room (ns_userId n) w -> bounded (createSession n w).2.
Proof.
  intros [Hb Hr]. unfold createSession. destruct (session_row n) as [row|] eqn:En; [|done].
  assert (Hu : s_userId row = ns_userId n) by (unfold session_row in En; repeat case_match; by simplify_eq/=).
  unfold read, gets, write, modify. rewrite run_bind. cbv beta iota. destruct (existsb _ _); [done|].
  intros u. unfold count. simpl. rewrite List.filter_app, length_app. simpl. specialize (Hb u). unfold count in *.
  unfold session_of at 2. rewrite Hu. destruct (String.eqb_spec (ns_userId n) u) as [<-|]; simpl; lia.
Qed.

Lemma record_session_bounded u t i w : room (u_id u) w -> bounded (record_session u t i w).2.
Proof.
  intros Hr. unfold record_session. destruct (decode_token _); [|apply Hr]. destruct (_ || _); [apply Hr|].
  pose proof (q_addAccountDetails fewer).
  apply (after_frame fewer); [unfold checkAccountDetails; solve_frames | intros w1 H1; by apply (fewer_room _ _ _ H1 Hr) | intros acc w1 _ H1].
  pose proof (fewer_room _ _ _ H1 Hr) as Hr1.
  apply (after_frame fewer); [solve_frames | intros w2 H2; by apply (fewer_room _ _ _ H2 Hr1) | intros a w2 _ H2].
  pose proof (fewer_room _ _ _ H2 Hr1) as Hr2.
  rewrite run_bind. match goal with |- context [createSession ?n w2] => pose proof (createSession_bounded n w2 Hr2) as Hc; destruct (createSession n w2) as [[] w3] end; exact Hc.
Qed.

(** Goes past a part of a sequence that signs nobody in. *)
Ltac past Hr w1 := apply (after_frame fewer);
  [solve_frames | let H := fresh in intros ? H; by apply (fewer_room _ _ _ H Hr)
  | let H := fresh in intros ? w1 _ H; apply (fewer_room _ _ _ H) in Hr; clear H].

Lemma check_bounded {A} u (k : eff world A) w : bounded w -> (forall w1, room u w1 -> bounded (k w1).2) -> bounded ((_ ← check_session_limit u; k) w).2.
Proof using All.
  intros Hb Hk. apply (after_frame fewer).
  - apply q_check_session_limit; [exact _ | auto with platform].
  - intros w1 H. by eapply fewer_bounded.
  - intros [] w1 E _. by eapply Hk, check_session_limit_room.
Qed.

Lemma login_bounded i : preserves bounded (login i).
Proof using All.
  intros w Hb. unfold login. rewrite rpc_state. rewrite run_bind. unfold validateEmail. destruct (isEmail _); [|done].
  cbv beta iota delta [mret eff_ret]. rewrite run_bind. unfold checkUserExist, read, gets. cbv beta iota.
  destruct (first _ _) as [u|]; [|done]. do 2 (case_match; [done|]). apply check_bounded; [done|]. intros w1 Hr.
  pose proof (q_generateToken fewer). past Hr w2. past Hr w3. past Hr w4.
  by apply record_session_bounded.
Qed.

Lemma usernameLogin_bounded n p k : preserves bounded (usernameLogin n p k).
Proof using All.
  intros w Hb. unfold usernameLogin. rewrite rpc_state. rewrite run_bind. unfold checkUserExistByUsername, read, gets. cbv beta iota.
  destruct (first _ _) as [u|]; [|done]. case_match; [done|]. apply check_bounded; [done|]. intros w1 Hr.
  pose proof (q_generateToken fewer). past Hr w2. past Hr w3. by apply record_session_bounded.
Qed.

Lemma fewer_preserves {A} (m : eff world A) : frames fewer m -> preserves bounded m.
Proof. intros H w. by apply fewer_bounded. Qed.

Lemma verifyAuthentication_bounded d e : preserves bounded (verifyAuthentication d e).
Proof using All.
  pose proof login_bounded. pose proof (fun p f => q_update_devices fewer p f) as Hq.
  unfold verifyAuthentication, updateFidoAuthCounter, type_error.
  apply preserves_try; [|auto with platform].
  repeat match goal with
  | |- preserves _ (login _) => done
  | |- preserves _ (?m ≫= ?k) => apply (preserves_bind _ m k); [apply fewer_preserves; unfold checkFidoUserExist; solve_frames | intros ?]
  | |- _ => first [solve [auto with platform] | case_match]
  end.
Qed.

Lemma serve_bounded m w : bounded w -> bounded (serve m w).
Proof using All.
  intros Hb. destruct (signs_in m) eqn:Em; [|by eapply fewer_bounded, Hb; apply fewer_handle].
  unfold serve. destruct m; try done; cbn [handle]; rewrite done_state;
    [by apply login_bounded | by apply usernameLogin_bounded | by apply verifyAuthentication_bounded].
Qed.

(** C14. With a session limit configured, serving any sequence of messages, each once the one
    before is done, leaves no user with more sessions than the limit, however the unawaited
    deletion of expired sessions is ordered. *)
Theorem sessions_bounded ms w : bounded w -> bounded (serve_all ms w).
Proof using All. induction ms as [|m ms IH] using rev_ind; [done|]. intros H. rewrite serve_all_snoc. by apply serve_bounded, IH. Qed.
End sessions.

Section accounts.
Context {U : UuidSource} {P : Parties} {T : Platform} {V : ProcessEnv} {C : Cipher}.

(** ** Verified addresses *)

(** The address was invited, or a code mailed to it was presented. *)
Definition proved (w : world) (ms : list message) (e : string) : Prop :=
  (exists p, SendVerification p ∈ ms /\ sv_email p = e /\ truthy_str (sv_invitationId p) = true) \/
  (exists ms1 ms2 code, ms = (ms1 ++ VerifyEmail (Some e) (Some code) :: ms2)%list /\ mailed (serve_all ms1 w) e code).

Lemma proved_snoc w ms m e : proved w ms e -> proved w (ms ++ [m]) e.
Proof.
  intros [(p & H & ?)|(ms1 & ms2 & c & -> & ?)]; [left; exists p; split; [by apply elem_of_app; left | done]|].
  right. exists ms1, (ms2 ++ [m])%list, c. split; [by rewrite <- app_assoc | done].
Qed.

(** A row in the course of its verification *)
Definition row_proved (w : world) (ms : list message) (w' : world) (u : user) : Prop :=
  if isEmailVerified u then exists e, email u = Some e /\ proved w ms e
  else forall code, verificationCode u = Some code -> exists e, email u = Some e /\ mailed w' e code.

Lemma mailed_mono w w' e c : calls w `prefix_of` calls w' -> mailed w e c -> mailed w' e c.
Proof. intros Hp (v & Hv & ?). exists v. split; [by eapply elem_of_prefix | done]. Qed.

Lemma row_proved_mono w ms ms' w1 w2 u : calls w1 `prefix_of` calls w2 -> (forall e, proved w ms e -> proved w ms' e) ->
  row_proved w ms w1 u -> row_proved w ms' w2 u.
Proof.
  unfold row_proved. intros Hp Hm H. case_match; [destruct H as (e & ? & ?); eauto|].
  intros c Hc. destruct (H c Hc) as (e & ? & ?). eauto using mailed_mono.
Qed.

Lemma from_code EV EK u u' : from EV EK u u' -> verificationCode u' = verificationCode u.
Proof. intros [H _]. unfold ident in H. by apply pair_equal_spec in H as [_ H]. Qed.

(** What a change of rows does to the claim, when the rows it verifies are proved *)
Lemma ev_row_proved EV EK w ms w1 w2 w3 : evolves EV EK w1 w2 ->
  (forall u, u ∈ users (db w1) -> isEmailVerified u = false -> EV (u_id u) -> exists e, email u = Some e /\ proved w ms e) ->
  (forall u, u ∈ users (db w1) -> row_proved w ms w3 u) -> forall u, u ∈ users (db w2) -> row_proved w ms w3 u.
Proof.
  intros [(f & Hu & Hf) _ _] Hv H u Hin. rewrite Hu in Hin. apply list_elem_of_fmap in Hin as (v & -> & Hin).
  pose proof (H v Hin) as Hr. unfold row_proved in *.
  destruct (from_ident _ _ _ _ (Hf v Hin)) as (Hi & He & _). rewrite (from_code _ _ _ _ (Hf v Hin)), He.
  destruct (Hf v Hin) as (_ & [->|[-> HE]] & _); [done|].
  destruct (isEmailVerified v) eqn:E; [done | by apply Hv].
Qed.

Lemma appended_row_proved w ms w1 w2 u0 : appended w1 w2 u0 -> row_proved w ms w2 u0 ->
  (forall u, u ∈ users (db w1) -> row_proved w ms w2 u) -> forall u, u ∈ users (db w2) -> row_proved w ms w2 u.
Proof.
  intros [wa wt Hb Hu _ _ _ _ Ha] H0 H. eapply ev_row_proved; [exact Ha | done|].
  intros u. rewrite Hu. intros [Hin | ->%list_elem_of_singleton]%elem_of_app; [|done]. revert u Hin. by eapply ev_row_proved.
Qed.

Lemma same_id w u u' : accounts_ok w -> u ∈ users (db w) -> u' ∈ users (db w) -> u_id u = u_id u' -> u = u'.
Proof.
  intros [H _ _ _] (i & Hi)%list_elem_of_lookup (j & Hj)%list_elem_of_lookup E.
  assert (i = j) as <-; [|congruence]. eapply NoDup_lookup; [exact H | by rewrite list_lookup_fmap, Hi | rewrite list_lookup_fmap, Hj; simpl; congruence].
Qed.

Lemma account_step_calls m w w' : account_step m w w' -> calls w `prefix_of` calls w'.
Proof. intros []; first [by eapply ev_calls | by eapply appended_calls | match goal with H : calls _ = _ |- _ => by rewrite H end]. Qed.

Lemma step_proved w ms m w1 w2 : w1 = serve_all ms w -> accounts_ok w1 -> account_step m w1 w2 ->
  (forall u, u ∈ users (db w1) -> row_proved w ms w1 u) -> forall u, u ∈ users (db w2) -> row_proved w (ms ++ [m]) w2 u.
Proof.
  intros Hw Hok Hs H.
  assert (H' : forall u, u ∈ users (db w1) -> row_proved w (ms ++ [m]) w2 u).
  { intros u Hu. eapply row_proved_mono; [by eapply account_step_calls | apply proved_snoc | by apply H]. }
  destruct Hs as [He | v e c -> Hv Hem Hc He | v Hv Hver _ He | v e c Ha Hem Hc _ Hpr | v Ha Hver Hc | id -> Hu Hc Hd].
  - by eapply ev_row_proved.
  - eapply ev_row_proved; [exact He | | done]. intros u Hu Hn Hi. assert (u = v) as -> by by eapply same_id.
    pose proof (H v Hv) as Hr. unfold row_proved in Hr. rewrite Hn in Hr. destruct (Hr c Hc) as (e' & ? & Hm).
    exists e. split; [done|]. right. exists ms, [], c. split; [done|]. rewrite <- Hw. congruence.
  - eapply ev_row_proved; [exact He | | done]. intros u Hu Hn Hi. assert (u = v) as -> by by eapply same_id. congruence.
  - eapply appended_row_proved; [done | | done]. unfold row_proved. destruct (isEmailVerified v).
    + exists e. split; [done|]. left. destruct Hpr as (p & -> & ?). exists p. split; [apply elem_of_app; right; left | done].
    + intros c' Hc'. exists e. split; [done|]. congruence.
  - eapply appended_row_proved; [done | | done]. unfold row_proved. rewrite Hver, Hc. done.
  - intros u Hin. apply H'. rewrite Hu in Hin. apply list_elem_of_In, filter_In in Hin as [? _]. by apply list_elem_of_In.
Qed.

Lemma serve_all_ok ms w : accounts_ok w -> accounts_ok (serve_all ms w).
Proof. induction ms as [|m ms IH] using rev_ind; [done|]. intros H. rewrite serve_all_snoc. apply serve_accounts_ok. auto. Qed.

Lemma no_users_ok w : users (db w) = [] -> accounts_ok w.
Proof. intros H. split; rewrite H; [apply NoDup_nil_2 | set_solver..]. Qed.

(** C10. Serving any sequence of messages from an empty table of users, whatever the other
    parties answer: every verified user has an address that was invited, or for which, after
    the message that mailed it a code, a message came that names the address and this code. *)
Theorem verified_by_proof ms w u : users (db w) = [] -> u ∈ users (db (serve_all ms w)) -> isEmailVerified u = true ->
  exists e, email u = Some e /\ proved w ms e.
Proof.
  intros H0 Hu Hv. enough (Hr : forall u, u ∈ users (db (serve_all ms w)) -> row_proved w ms (serve_all ms w) u)
    by (specialize (Hr u Hu); unfold row_proved in Hr; by rewrite Hv in Hr).
  clear u Hu Hv. induction ms as [|m ms IH] using rev_ind; [simpl; rewrite H0; by intros ? Hu%elem_of_nil|].
  rewrite serve_all_snoc. eapply step_proved; [done | by apply serve_all_ok, no_users_ok | | exact IH].
  by apply serve_step, serve_all_ok, no_users_ok.
Qed.

(** ** What an account keeps *)

Record kept (u u' : user) : Prop := Kept {
  kp_ident : ident u' = ident u;
  kp_verified : isEmailVerified u = true -> isEmailVerified u' = true;
  kp_registered : truthy_str (keycloakUserId u) = true -> keycloakUserId u' = keycloakUserId u;
}.

Lemma kept_trans u u1 u2 : kept u u1 -> kept u1 u2 -> kept u u2.
Proof. intros [I1 V1 K1] [I2 V2 K2]. split; [congruence | auto|]. intros H. pose proof (K1 H) as E. rewrite <- E. apply K2. by rewrite E. Qed.

Lemma ev_kept EV EK w w' u : evolves EV EK w w' -> (EK (u_id u) -> truthy_str (keycloakUserId u) = false) -> u ∈ users (db w) ->
  exists u', u' ∈ users (db w') /\ kept u u'.
Proof.
  intros [(f & Hu & Hf) _ _] HK Hin. exists (f u). split; [rewrite Hu; by apply list_elem_of_fmap_2|].
  destruct (Hf u Hin) as (I & HV & HK'). split; [done | by destruct HV as [->|[-> _]]|].
  intros Ht. destruct HK' as [->|E]; [done|]. by rewrite HK in Ht.
Qed.

Lemma appended_kept w w' v u : appended w w' v -> u ∈ users (db w) -> exists u', u' ∈ users (db w') /\ kept u u'.
Proof.
  intros [wa wt Hb Hu _ _ _ _ Ha] Hin. destruct (ev_kept _ _ _ _ u Hb) as (u1 & Hin1 & K1); [done..|].
  destruct (ev_kept _ _ _ _ u1 Ha) as (u2 & Hin2 & K2); [done | rewrite Hu; apply elem_of_app; by left |].
  exists u2. split; [done | by eapply kept_trans].
Qed.

Lemma step_kept m w w' u : accounts_ok w -> account_step m w w' -> m <> DeleteUser (u_id u) -> u ∈ users (db w) ->
  exists u', u' ∈ users (db w') /\ kept u u'.
Proof.
  intros Hok Hs Hm Hin. destruct Hs as [He | v e c _ _ _ _ He | v Hv Hver Hk He | v e c Ha _ _ _ _ | v Ha _ _ | id -> Hu Hc Hd].
  - by eapply ev_kept.
  - by eapply ev_kept.
  - eapply ev_kept; [exact He | | done]. intros Hi. by assert (u = v) as -> by by eapply same_id.
  - by eapply appended_kept.
  - by eapply appended_kept.
  - exists u. split; [|by split]. rewrite Hu. apply list_elem_of_In, filter_In. split; [by apply list_elem_of_In|].
    unfold user_is. apply negb_true_iff, String.eqb_neq. congruence.
Qed.

(** C12. Serving any sequence of messages keeps the identifiers, addresses and names of users
    unique, and every user that none of the messages deletes: with its address, name and
    code, verified if it was, and at the Keycloak user it had. *)
Theorem accounts_final ms w : accounts_ok w ->
  accounts_ok (serve_all ms w) /\
  forall u, u ∈ users (db w) -> DeleteUser (u_id u) ∉ ms -> exists u', u' ∈ users (db (serve_all ms w)) /\ kept u u'.
Proof.
  intros Hok. split; [by apply serve_all_ok|]. intros u Hin. induction ms as [|m ms IH] using rev_ind; [by exists u|].
  intros Hd. destruct IH as (u1 & Hin1 & K1); [intros H; apply Hd, elem_of_app; by left|].
  rewrite serve_all_snoc. destruct (step_kept m (serve_all ms w) (serve m (serve_all ms w)) u1) as (u2 & Hin2 & K2);
    [by apply serve_all_ok | by apply serve_step, serve_all_ok | | done | exists u2; split; [done | by eapply kept_trans]].
  intros ->. apply Hd, elem_of_app. right. assert (u_id u1 = u_id u) as -> by (pose proof (kp_ident _ _ K1) as I; unfold ident in I; congruence). left.
Qed.
End accounts.

Section logins.
Context {U : UuidSource} {P : Parties} {T : Platform} {V : ProcessEnv} {C : Cipher}.

Lemma lower_empty s : Str.toLowerCase s = "" -> s = "".
Proof. by destruct s. Qed.

(** A login by name with [isPasskey], which the body of a public route sets, does not look
    at the password given: whatever it is, the user is signed in with the stored password,
    and no passkey is asked for. *)
Theorem usernameLogin_unchecked name pw pw' w : name <> "" -> usernameLogin name pw true w = usernameLogin name pw' true w.
Proof.
  intros Hn. unfold usernameLogin, rpc, try_catch. rewrite !run_bind. unfold checkUserExistByUsername, read, gets. cbv beta iota.
  destruct (first _ _) as [u|] eqn:Hf; [|done]. apply first_Some in Hf as [_ Hu%bool_decide_eq_true]. rewrite Hu.
  destruct (isFidoVerified u); [|done]. destruct (Str.toLowerCase name) eqn:E; [by apply lower_empty in E | done].
Qed.
End logins.

(** * Users: the theorems at work

    The theorems about users, applied on the sample deployment. *)

Open Scope Z_scope.

Definition ann_row : user := default (new_user "" "" "" None None false "" 0) (ann_of (serve_all sign_up start)).

Lemma ann_signed_up : ann_row ∈ users (db (serve_all sign_up start)) /\ isEmailVerified ann_row = true.
Proof. split; [vm_compute; left | vm_compute; reflexivity]. Qed.

Lemma verified_by_proof_witness : exists e, email ann_row = Some e /\ proved start sign_up e.
Proof. apply (verified_by_proof sign_up start ann_row); [reflexivity | vm_compute; left | vm_compute; reflexivity]. Defined.

Lemma accounts_final_witness : accounts_ok (serve_all [DeleteUser "other"] (serve_all sign_up start)) /\
  exists u', u' ∈ users (db (serve_all [DeleteUser "other"] (serve_all sign_up start))) /\ kept ann_row u'.
Proof.
  destruct (accounts_final [DeleteUser "other"] (serve_all sign_up start)) as [H1 H2]; [by apply serve_all_ok, no_users_ok|].
  split; [exact H1|]. apply H2; [vm_compute; left|]. intros Hd%list_elem_of_singleton. vm_compute in Hd. congruence.
Defined.

(** Ann forgot the password, and sets a new one with the code of the mail. *)
Abbreviation reset_world := (serve_all (sign_up ++ [ForgotPassword ann]) start).
Definition reset_code : string := Eval vm_compute in default "" (t_token <$> head (tokens (db reset_world))).
Abbreviation reset_run := (resetTokenPassword ann (sealed "second") reset_code reset_world).

Lemma reset_token_single_use_witness : reset_run.1 = Ok (u_id ann_row, Some ann) /\
  forall ms e pw, exists x, resetTokenPassword e pw reset_code (serve_all ms reset_run.2) = (Throw x, serve_all ms reset_run.2).
Proof.
  assert (H : reset_run.1 = Ok (u_id ann_row, Some ann)) by (vm_compute; reflexivity). split; [exact H|].
  pose proof (surjective_pairing reset_run) as E. rewrite H in E. generalize dependent (u_id ann_row). intros i H E.
  intros ms e pw. exact (reset_token_single_use start (sign_up ++ [ForgotPassword ann]) ann (sealed "second") reset_code (i, Some ann) reset_run.2 eq_refl E ms e pw).
Defined.

(** The password was put at Keycloak once more. *)
Example second_password : length (List.filter (fun c => match c with Http r => bool_decide (rq_method r = PUT) | _ => false end) (calls reset_run.2)) = 2%nat.
Proof. vm_compute. reflexivity. Qed.

(** Two logins where the limit is one *)
Definition logins : list message := [Login (SignIn ann (sealed "first") false None); Login (SignIn ann (sealed "first") false None)].

Lemma sessions_bounded_witness : bounded 1 (serve_all logins (serve_all sign_up start)) /\
  count (u_id ann_row) (serve_all logins (serve_all sign_up start)) = 1%nat.
Proof.
  split; [|vm_compute; reflexivity]. apply (sessions_bounded 1); [vm_compute; reflexivity|]. intros u.
  assert (H : sessions (db (serve_all sign_up start)) = []) by (vm_compute; reflexivity). unfold count. rewrite H. simpl. lia.
Defined.

(** ** What a passkey is needed for

    Ann stores her password for passkeys and registers one.  From then on anyone signs in as
    her who knows her name, and anyone can register a further passkey for her address and
    sign in with it: no message carries anything of hers. *)
Definition with_passkey : world := serve_all [AddPasskey ann (sealed "first"); GenerateRegistration ann None; VerifyRegistration (Json.JObj []) ann;
  UpdateDevice "cred" None] (serve_all sign_up start).
Definition ann_name : string := default "" (username ann_row).

Lemma usernameLogin_unchecked_witness :
  usernameLogin ann_name None true with_passkey = usernameLogin ann_name (sealed "any password") true with_passkey /\
  exists v, (usernameLogin ann_name None true with_passkey).1 = Ok v.
Proof. split; [apply usernameLogin_unchecked; vm_compute; congruence | vm_compute; eexists; reflexivity]. Defined.

Definition strangers_passkey : list message := [GenerateRegistration ann (Some true); VerifyRegistration (Json.JObj [("id", Json.JStr "mine")]) ann].
Example taken_over : exists v, (verifyAuthentication (Json.JObj [("id", Json.JStr "cred")]) ann (serve_all strangers_passkey with_passkey)).1 = Ok v.
Proof. vm_compute. eexists. reflexivity. Qed.
