(* ===== verification/IssuanceQueue.v ===== *)
(** * The local admission queue of the issuance worker

    Models [src/apps/issuance/src/issuance-admission.queue.ts]: a counter of
    the slots in use and an insertion-ordered set of waiters.  [acquire],
    [release] and the timer callback are the operations; [system] adds the
    calls of [run] that hold a slot, so that their interleavings are the
    executions of a step relation. *)

From S2P Require Import Prelude Js.

Open Scope Z_scope.

Module AdmissionQueue.

(** A waiter is known by the call that created it. *)
Record waiter := Waiter { w_call : nat; w_deadline : Z }.

Record queue := Queue {
  active : Z;
  pending : list waiter;
}.

Definition empty_queue : queue := Queue 0 [].

Section queue.
Variables capacity maxPending : Z.

Definition timeoutError : exn :=
  http_exn ServiceUnavailableException "Issuance capacity wait exceeded; no offer was dispatched".
Definition fullError : exn :=
  http_exn ServiceUnavailableException "Issuance admission queue is full; no offer was dispatched".

(** The outcome of the synchronous part of [acquire]. *)
Inductive admission := Entered | Waiting | Rejected (e : exn).

Definition acquire (now : Z) (w : waiter) (q : queue) : admission * queue :=
  if w_deadline w <=? now then (Rejected timeoutError, q)
  else if active q <? capacity then (Entered, Queue (active q + 1) (pending q))
  else if maxPending <=? Z.of_nat (length (pending q)) then (Rejected fullError, q)
  else (Waiting, Queue (active q) (pending q ++ [w])).

(** The loop of [release]: the expired waiters at the head are rejected, the
    first live one is resolved and keeps the slot. *)
Fixpoint release_pending (now : Z) (ws : list waiter) : list waiter * option waiter * list waiter :=
  match ws with
  | [] => ([], None, [])
  | w :: ws' =>
      if w_deadline w <=? now then
        let '(rejected, next, rest) := release_pending now ws' in (w :: rejected, next, rest)
      else ([], Some w, ws')
  end.

Definition release (now : Z) (q : queue) : list waiter * option waiter * queue :=
  let '(rejected, next, rest) := release_pending now (pending q) in
  (rejected, next, Queue (if next then active q else active q - 1) rest).

(** The timer of a waiter: [if (this.pending.delete(waiter)) reject(...)]. *)
Definition timer (c : nat) (q : queue) : bool * queue :=
  (existsb (fun w => Nat.eqb (w_call w) c) (pending q),
   Queue (active q) (List.filter (fun w => negb (Nat.eqb (w_call w) c)) (pending q))).

(** ** Executions of [run] *)

(** A call that owns a slot has been resolved ([Granted], it has not yet
    looked at the clock) or runs its operation. *)
Inductive phase := Granted | Running.

Record holder := Holder { h_call : nat; h_deadline : Z; h_phase : phase }.

Record system := System {
  sys_queue : queue;
  holders : list holder;
  started : list (nat * Z * Z);   (* operations run: call, deadline and time *)
}.

Definition initial : system := System empty_queue [] [].

Definition grant (next : option waiter) (hs : list holder) : list holder :=
  match next with
  | Some w => hs ++ [Holder (w_call w) (w_deadline w) Granted]
  | None => hs
  end.

Inductive step : system -> system -> Prop :=
  (** [run] is called: it is admitted, waits, or is rejected. *)
  | step_call now c d q hs log a q' :
      acquire now (Waiter c d) q = (a, q') ->
      step (System q hs log)
        (System q' (match a with Entered => hs ++ [Holder c d Granted] | _ => hs end) log)
  (** A resolved call finds its deadline in the future and runs the operation. *)
  | step_start now c d q l1 l2 log :
      now < d ->
      step (System q (l1 ++ Holder c d Granted :: l2) log)
        (System q (l1 ++ Holder c d Running :: l2) ((c, d, now) :: log))
  (** A resolved call whose deadline has passed throws, and releases. *)
  | step_late now c d q l1 l2 log r n q' :
      d <= now -> release now q = (r, n, q') ->
      step (System q (l1 ++ Holder c d Granted :: l2) log) (System q' (grant n (l1 ++ l2)) log)
  (** The operation settles, and the [finally] block releases. *)
  | step_finish now c d q l1 l2 log r n q' :
      release now q = (r, n, q') ->
      step (System q (l1 ++ Holder c d Running :: l2) log) (System q' (grant n (l1 ++ l2)) log)
  | step_timer c q hs log b q' :
      timer c q = (b, q') ->
      step (System q hs log) (System q' hs log).

(** ** Invariants *)

Record inv (s : system) : Prop := {
  inv_active : active (sys_queue s) = Z.of_nat (length (holders s));
  inv_capacity : active (sys_queue s) <= capacity;
  inv_busy : pending (sys_queue s) <> [] -> active (sys_queue s) = capacity;
  inv_pending : Z.of_nat (length (pending (sys_queue s))) <= Z.max 0 maxPending;
  inv_started : Forall (fun e => e.2 < e.1.2) (started s);
}.

Lemma release_pending_spec now ws rejected next rest :
  release_pending now ws = (rejected, next, rest) ->
  ws = rejected ++ (match next with Some w => w :: rest | None => [] end) /\
  (next = None -> rest = []) /\
  Forall (fun w => w_deadline w <= now) rejected /\
  (forall w, next = Some w -> now < w_deadline w).
Proof.
  revert rejected next rest. induction ws as [|w ws IH]; intros rejected next rest; simpl.
  - intros [= <- <- <-]. by split_and!.
  - destruct (Z.leb_spec (w_deadline w) now) as [Hle|Hlt].
    + destruct (release_pending now ws) as [[r n] t] eqn:E. intros [= <- <- <-].
      destruct (IH _ _ _ eq_refl) as (-> & Hn & Hr & Hw). split_and!; [done|done|by constructor|done].
    + intros [= <- <- <-]. split_and!; [done|done|constructor|]. by intros ? [= <-].
Qed.

Lemma release_inv now q hs l1 l2 h log r n q' :
  inv (System q hs log) -> hs = l1 ++ h :: l2 -> release now q = (r, n, q') ->
  inv (System q' (grant n (l1 ++ l2)) log).
Proof.
  intros [Ha Hc Hb Hp Hs] -> E. unfold release in E. simpl in *.
  destruct (release_pending now (pending q)) as [[r' n'] t] eqn:Er. simplify_eq.
  apply release_pending_spec in Er as (Hq & Hn & _ & _).
  rewrite length_app in Ha. simpl in Ha. destruct n as [w|]; constructor; simpl.
  - rewrite !length_app. simpl. lia.
  - done.
  - intros _. apply Hb. rewrite Hq. by destruct r.
  - rewrite Hq, !length_app in Hp. simpl in Hp. lia.
  - done.
  - rewrite length_app. lia.
  - lia.
  - by rewrite (Hn eq_refl).
  - rewrite (Hn eq_refl). simpl. lia.
  - done.
Qed.

Lemma filter_length_le {A} (f : A -> bool) (l : list A) : (length (List.filter f l) <= length l)%nat.
Proof. induction l as [|x l IH]; simpl; [done|]. destruct (f x); simpl; lia. Qed.

Lemma admission_step_inv s s' : inv s -> step s s' -> inv s'.
Proof.
  intros I Hs. destruct Hs.
  - destruct I as [Ha Hc Hb Hp Hst]. unfold acquire in H. simpl in *.
    destruct (Z.leb_spec d now); [by simplify_eq; constructor|].
    destruct (Z.ltb_spec (active q) capacity); [|destruct (Z.leb_spec maxPending (Z.of_nat (length (pending q))))];
      simplify_eq; constructor; simpl; rewrite ?length_app; simpl; try lia; try done.
    intros Hne. apply Hb in Hne. lia.
  - destruct I as [Ha Hc Hb Hp Hst]. constructor; simpl in *; rewrite ?length_app in *; done || by constructor.
  - by eapply release_inv.
  - by eapply release_inv.
  - destruct I as [Ha Hc Hb Hp Hst]. unfold timer in H. simplify_eq. constructor; simpl in *; [done|done| | |done].
    + intros Hne. apply Hb. intros E. by rewrite E in Hne.
    + pose proof (filter_length_le (fun w => negb (Nat.eqb (w_call w) c)) (pending q)). lia.
Qed.

Lemma admission_reachable_inv s : 0 <= capacity -> rtc step initial s -> inv s.
Proof.
  intros Hc Hr. assert (Hi : inv initial) by by constructor; simpl; lia || done.
  revert Hi. induction Hr as [|s1 s2 s3 Hs _ IH]; [done|]. intros Hi. by eapply IH, admission_step_inv.
Qed.

(** C32. Local admission: in every interleaving of calls, completions and
    timers, the calls that own a slot are as many as the counter says and
    never exceed the capacity, the waiting list stays within its bound, no
    call waits while a slot is free, and every operation that was run was
    started before its deadline. *)
Theorem admission_bounded s :
  0 <= capacity -> rtc step initial s ->
  Z.of_nat (length (holders s)) = active (sys_queue s) /\
  Z.of_nat (length (holders s)) <= capacity /\
  Z.of_nat (length (pending (sys_queue s))) <= Z.max 0 maxPending /\
  (Z.of_nat (length (holders s)) < capacity -> pending (sys_queue s) = []) /\
  Forall (fun e => e.2 < e.1.2) (started s).
Proof.
  intros Hc Hr. destruct (admission_reachable_inv s Hc Hr) as [Ha Hcap Hb Hp Hst]. split_and!; [lia..| |done].
  intros Hlt. destruct (pending (sys_queue s)) eqn:E; [done|]. rewrite Hb in Ha; [lia|done].
Qed.

(** Release serves the waiters in arrival order: it passes over exactly
    the expired waiters in front, hands the slot to the first live one and
    leaves the others queued; the slot is given back only when no live
    waiter is left. *)
Theorem release_fifo now q r n q' :
  release now q = (r, n, q') ->
  Forall (fun w => w_deadline w <= now) r /\
  match n with
  | Some w => now < w_deadline w /\ pending q = r ++ w :: pending q' /\ active q' = active q
  | None => pending q = r /\ pending q' = [] /\ active q' = active q - 1
  end.
Proof.
  unfold release. destruct (release_pending now (pending q)) as [[r0 n0] t] eqn:E. intros [= <- <- <-].
  apply release_pending_spec in E as (Hq & Hn & Hr & Hw). simpl. split; [done|]. destruct n0 as [w|].
  - split_and!; [by apply Hw|done|done].
  - rewrite app_nil_r in Hq. split_and!; [done|by apply Hn|done].
Qed.
End queue.

Example admission_bounded_witness :
  let s := System (Queue 1 [Waiter 1 100]) [Holder 0 100 Granted] [] in
  Z.of_nat (length (holders s)) = active (sys_queue s) /\
  Z.of_nat (length (holders s)) <= 1 /\
  Z.of_nat (length (pending (sys_queue s))) <= Z.max 0 5 /\
  (Z.of_nat (length (holders s)) < 1 -> pending (sys_queue s) = []) /\
  Forall (fun e => e.2 < e.1.2) (started s).
Proof.
  apply (admission_bounded 1 5); [lia|].
  eapply rtc_l; [by apply (step_call 1 5 0 0 100 empty_queue [] [] Entered (Queue 1 []))|].
  eapply rtc_l; [by apply (step_call 1 5 0 1 100 (Queue 1 []) [Holder 0 100 Granted] [] Waiting (Queue 1 [Waiter 1 100]))|].
  apply rtc_refl.
Defined.

Example release_fifo_witness :
  Forall (fun w => w_deadline w <= 50) [Waiter 1 40] /\ 50 < 90 /\
  pending (Queue 2 [Waiter 1 40; Waiter 2 90; Waiter 3 80]) = [Waiter 1 40] ++ Waiter 2 90 :: [Waiter 3 80] /\
  active (Queue 2 [Waiter 3 80]) = active (Queue 2 [Waiter 1 40; Waiter 2 90; Waiter 3 80]).
Proof.
  apply (release_fifo 50 (Queue 2 [Waiter 1 40; Waiter 2 90; Waiter 3 80]) [Waiter 1 40] (Some (Waiter 2 90)) (Queue 2 [Waiter 3 80])).
  reflexivity.
Defined.
End AdmissionQueue.
