(* ===== verification/IssuanceCoordinator.v ===== *)
(** * The issuance work coordinator

    Models [src/apps/issuance/src/issuance-work.coordinator.ts] and
    [src/libs/context/src/issuanceDeadline.ts].  [Settings] has the parsing of
    the configuration and of the request deadline, [Permits] the Redis scripts
    on the capacity hash, [Coordinator] the calls that issue those scripts. *)

From S2P Require Import Prelude Js IssuanceQueue.

Open Scope Z_scope.

Module Settings.
(** [raw] is [process.env[name]]. *)
Definition positiveIntegerSetting (name : string) (raw : option string) (fallback maximum : Z) : result Z :=
  match raw with
  | None => Ok fallback
  | Some s =>
      match Num.positive_literal s with
      | Some n =>
          if Num.isSafeInteger n && (n <=? maximum) then Ok n
          else Throw (js_error (name +:+ " must be a positive integer no greater than " +:+ pretty maximum))
      | None => Throw (js_error (name +:+ " must be a positive integer no greater than " +:+ pretty maximum))
      end
  end.

Definition ISSUANCE_ADMISSION_MS : Z := 10000.
Definition ISSUANCE_INTERACTIVE_QUEUE_MS : Z := 1000.

(** The parameter [value?: unknown]; [JsNumber] is an integral number. *)
Inductive js_value := JsUndefined | JsString (s : string) | JsNumber (n : Z) | JsOther.

Definition deadline_error : exn :=
  http_exn ServiceUnavailableException "Issuance admission expired or invalid; no offer was dispatched".

Definition issuanceDeadline (value : js_value) (now : Z) : result Z :=
  let checked (o : option Z) :=
    match o with
    | Some d => if negb (Num.isSafeInteger d) || (d <=? now) then Throw deadline_error
                else Ok (Z.min d (now + ISSUANCE_ADMISSION_MS))
    | None => Throw deadline_error
    end in
  match value with
  | JsUndefined => Ok (now + ISSUANCE_ADMISSION_MS)
  | JsString s => checked (Num.positive_literal s)
  | JsNumber n => checked (Some n)
  | JsOther => checked None
  end.

(** A header that is absent is not the same as one that is blank. *)
Definition readIssuanceDeadline (headers : option (gmap string string)) : js_value :=
  match headers with
  | Some hs => match hs !! "issuance-admission-deadline" with Some s => JsString s | None => JsUndefined end
  | None => JsUndefined
  end.

(** A setting is read as its fallback when unset and otherwise as a
    positive integer within the maximum; every other text is refused. *)
Theorem positive_setting_range name raw fallback maximum n :
  positiveIntegerSetting name raw fallback maximum = Ok n ->
  (raw = None /\ n = fallback) \/
  (exists s, raw = Some s /\ Num.positive_literal s = Some n /\ 0 < n <= maximum /\ n <= Num.MAX_SAFE_INTEGER).
Proof.
  unfold positiveIntegerSetting. destruct raw as [s|]; [|intros [= <-]; auto].
  destruct (Num.positive_literal s) as [m|] eqn:E; [|done]. unfold Num.isSafeInteger.
  destruct (_ && _) eqn:Hm; [|done]. intros [= <-]. right. exists s.
  apply andb_true_iff in Hm as [H1%Z.leb_le H2%Z.leb_le]. pose proof (Num.positive_literal_pos _ _ E).
  split_and!; [done|done|lia..].
Qed.

Example positive_setting_range_witness :
  (Some "16" = None /\ 16 = 8) \/
  (exists s, Some "16" = Some s /\ Num.positive_literal s = Some 16 /\ 0 < 16 <= 128 /\ 16 <= Num.MAX_SAFE_INTEGER).
Proof. apply (positive_setting_range "ISSUANCE_WORKER_CONCURRENCY" (Some "16") 8 128 16). reflexivity. Defined.

(** An accepted deadline is in the future and never more than ten seconds
    away, whatever the peer supplied; a missing one gets exactly that bound. *)
Theorem issuance_deadline_bounded value now d :
  issuanceDeadline value now = Ok d -> now < d <= now + ISSUANCE_ADMISSION_MS.
Proof.
  unfold ISSUANCE_ADMISSION_MS. intros H.
  assert (Hc : forall o, match o with
    | Some d0 => if negb (Num.isSafeInteger d0) || (d0 <=? now) then Throw deadline_error
                else Ok (Z.min d0 (now + ISSUANCE_ADMISSION_MS))
    | None => Throw deadline_error end = Ok d -> now < d <= now + 10000).
  { intros [d0|] Ho; [|done]. destruct (Num.isSafeInteger d0); simpl in Ho; [|done].
    destruct (Z.leb_spec d0 now); simplify_eq. unfold ISSUANCE_ADMISSION_MS. lia. }
  destruct value; simpl in H; [|by eapply Hc|by apply (Hc (Some n))|done].
  unfold ISSUANCE_ADMISSION_MS in H. simplify_eq. lia.
Qed.

Example issuance_deadline_bounded_witness : 5000 < 15000 <= 5000 + ISSUANCE_ADMISSION_MS.
Proof. apply (issuance_deadline_bounded (JsString "99999999") 5000 15000). reflexivity. Defined.
End Settings.

Module Permits.
(** A field of the capacity hash.  The strings ["8"], ["r:<ms>"] and
    ["active:<ms>"] are [Num 8], [Reserved ms] and [ActiveAt ms]. *)
Inductive hval := Num (n : Z) | Reserved (ms : Z) | ActiveAt (ms : Z).

#[export] Instance hval_eq_dec : EqDecision hval.
Proof. solve_decision. Defined.

Abbreviation hash := (gmap string hval).
Definition capacity_field : string := "capacity".

(** Only an unactivated reservation expires. *)
Definition expired (ms : Z) (v : hval) : bool :=
  match v with Reserved t => t <=? ms | _ => false end.

Definition drop_expired (ms : Z) (h : hash) : hash := filter (fun kv => expired ms kv.2 = false) h.

(** [if HLEN == 1 then DEL]: only the capacity is left. *)
Definition drop_idle (h : hash) : hash := if decide (size h = 1%nat) then ∅ else h.

Definition RESERVATION_MS : Z := 30000.

(** [capacity and tonumber(capacity) ~= tonumber(ARGV[1])] *)
Definition mismatch (capacity : Z) (h : hash) : bool :=
  match h !! capacity_field with
  | Some (Num c) => negb (c =? capacity)
  | Some _ => true
  | None => false
  end.

Definition ACQUIRE (ms : Z) (capacity : Z) (owner : string) (reservation : Z) (h : hash) : Z * hash :=
  let h := drop_idle (drop_expired ms h) in
  if mismatch capacity h then (-1, h)
  else if decide (is_Some (h !! owner)) then (1, h)
  else if capacity + 1 <=? Z.of_nat (size h) then (0, h)
  else (1, <[owner := Reserved (ms + reservation)]> (<[capacity_field := Num capacity]> h)).

Definition ACTIVATE (ms : Z) (owner : string) (h : hash) : Z * hash :=
  match h !! owner with
  | Some (Reserved t) => if t <=? ms then (0, h) else (1, <[owner := ActiveAt ms]> h)
  | _ => (0, h)
  end.

Definition RELEASE (owner : string) (h : hash) : Z * hash := (1, drop_idle (delete owner h)).

(** The scripts as steps of the shared hash, by any number of workers, each
    with its own configuration and at any time. *)
Inductive step : hash -> hash -> Prop :=
  | step_acquire ms c owner r h : owner <> capacity_field -> 1 <= c -> step h (ACQUIRE ms c owner r h).2
  | step_activate ms owner h : owner <> capacity_field -> step h (ACTIVATE ms owner h).2
  | step_release owner h : owner <> capacity_field -> step h (RELEASE owner h).2.

Definition permits (h : hash) : hash := delete capacity_field h.

Definition is_active (v : hval) : bool := match v with ActiveAt _ => true | _ => false end.
Definition active_permits (h : hash) : hash := filter (fun kv => is_active kv.2 = true) (permits h).

(** Either no work is known, or the capacity [c] is recorded with between one
    and [c] permits. *)
Definition inv (h : hash) : Prop :=
  h = ∅ \/ exists c, h !! capacity_field = Some (Num c) /\ (1 <= size (permits h))%nat /\ Z.of_nat (size (permits h)) <= c.

Lemma size_permits (h : hash) v : h !! capacity_field = Some v -> size h = S (size (permits h)).
Proof. intros Hv. unfold permits. rewrite map_size_delete, Hv. assert (size h <> 0%nat) by (intros E%map_size_empty_inv; by subst). lia. Qed.

Lemma inv_shrink (h h' : hash) :
  inv h -> (forall c, h !! capacity_field = Some (Num c) -> h' !! capacity_field = Some (Num c)) ->
  permits h' ⊆ permits h -> inv (drop_idle h').
Proof.
  intros [->|(c & Hc & Hge & Hle)] Hkeep Hsub; unfold drop_idle; case_decide as E; try by left.
  - left. unfold permits in Hsub. rewrite delete_empty in Hsub. apply map_subseteq_size in Hsub.
    rewrite map_size_empty in Hsub. assert (Hp : delete capacity_field h' = ∅) by (apply map_size_empty_inv; lia).
    destruct (h' !! capacity_field) as [v|] eqn:Ev.
    + apply size_permits in Ev. unfold permits in Ev. by rewrite Hp, map_size_empty in Ev.
    + by rewrite delete_id in Hp.
  - right. exists c. specialize (Hkeep _ Hc). pose proof (size_permits _ _ Hkeep).
    pose proof (map_subseteq_size _ _ Hsub). split_and!; [done|lia..].
Qed.

Lemma inv_drop_expired ms h : inv h -> inv (drop_idle (drop_expired ms h)).
Proof.
  intros I. eapply inv_shrink; [done| |].
  - intros c Hc. apply map_lookup_filter_Some. by split.
  - unfold permits, drop_expired. apply map_subseteq_spec. intros k v.
    rewrite !lookup_delete. case_decide; [done|]. by intros [? _]%map_lookup_filter_Some.
Qed.

Lemma inv_release owner h : owner <> capacity_field -> inv h -> inv (RELEASE owner h).2.
Proof.
  intros Ho I. eapply inv_shrink; [done| |].
  - intros c Hc. by rewrite lookup_delete_ne.
  - unfold permits. rewrite delete_delete. apply delete_subseteq.
Qed.

Lemma inv_activate ms owner h : owner <> capacity_field -> inv h -> inv (ACTIVATE ms owner h).2.
Proof.
  intros Ho I. unfold ACTIVATE. destruct (h !! owner) as [[|t|]|] eqn:E; [done| |done..]. case_match; [done|]. simpl.
  destruct I as [->|(c & Hc & Hge & Hle)]; [by rewrite lookup_empty in E|]. right. exists c.
  rewrite lookup_insert_ne by done. unfold permits in *. rewrite delete_insert_ne by done.
  rewrite map_size_insert_Some; [done|]. rewrite lookup_delete_ne by done. eauto.
Qed.

Lemma inv_acquire ms c owner r h : owner <> capacity_field -> 1 <= c -> inv h -> inv (ACQUIRE ms c owner r h).2.
Proof.
  intros Ho Hc1 I. apply (inv_drop_expired ms) in I. unfold ACQUIRE.
  set (h1 := drop_idle (drop_expired ms h)) in *. clearbody h1.
  destruct (mismatch c h1); [done|].
  case_decide as Ho1; [done|]. destruct (Z.leb_spec (c + 1) (Z.of_nat (size h1))) as [|Hlt]; [done|]. simpl.
  rewrite <- eq_None_not_Some in Ho1. right. exists c.
  rewrite lookup_insert_ne, lookup_insert_eq by done. unfold permits in *.
  rewrite delete_insert_ne by done. rewrite delete_insert_eq.
  rewrite map_size_insert_None by by rewrite lookup_delete_ne.
  split_and!; [done|lia|]. destruct I as [->|(c' & Hc' & Hge & Hle)].
  - rewrite delete_empty, map_size_empty. lia.
  - pose proof (size_permits _ _ Hc') as Hs. unfold permits in *. lia.
Qed.

Lemma permits_step_inv h h' : inv h -> step h h' -> inv h'.
Proof. intros I Hs. revert I. destruct Hs; intros I; [by apply inv_acquire|by apply inv_activate|by apply inv_release]. Qed.

Lemma permits_reachable_inv h : rtc step ∅ h -> inv h.
Proof.
  intros Hr. assert (Hi : inv (∅ : hash)) by by left. revert Hi.
  induction Hr as [|h1 h2 h3 Hs _ IH]; [done|]. intros Hi. by eapply IH, permits_step_inv.
Qed.

Lemma active_le_permits h : (size (active_permits h) <= size (permits h))%nat.
Proof. apply map_subseteq_size, map_filter_subseteq. Qed.

(** C33. The shared budget: whatever scripts the workers run, in whatever order
    and with whatever clocks, the offers being dispatched at any moment - and
    even the reservations added to them - are at most the recorded capacity;
    a hash without permits is not kept. *)
Theorem permits_bounded h :
  rtc step ∅ h ->
  h = ∅ \/ exists c, h !! capacity_field = Some (Num c) /\
    Z.of_nat (size (active_permits h)) <= Z.of_nat (size (permits h)) <= c /\ (0 < size (permits h))%nat.
Proof.
  intros Hr. destruct (permits_reachable_inv h Hr) as [->|(c & Hc & Hge & Hle)]; [by left|right].
  exists c. pose proof (active_le_permits h). split_and!; [done|lia..].
Qed.

(** A dispatched permit is pinned: no script of another worker, at any
    time, removes or alters it; only its own release does. *)
Theorem active_permit_pinned ms c owner r h o t :
  o <> capacity_field -> owner <> capacity_field -> owner <> o -> inv h -> h !! o = Some (ActiveAt t) ->
  (ACQUIRE ms c owner r h).2 !! o = Some (ActiveAt t) /\
  (ACTIVATE ms owner h).2 !! o = Some (ActiveAt t) /\
  (RELEASE owner h).2 !! o = Some (ActiveAt t).
Proof.
  intros Ho Hown Hne I Hl.
  assert (Hidle : forall h' v, h' !! capacity_field = Some v -> h' !! o = Some (ActiveAt t) -> drop_idle h' !! o = Some (ActiveAt t)).
  { intros h' v Hv Hl'. unfold drop_idle. case_decide as E; [|done]. exfalso.
    apply size_permits in Hv. assert (Hp : permits h' = ∅) by (apply map_size_empty_inv; lia).
    assert (permits h' !! o = Some (ActiveAt t)) as Hpo by (unfold permits; by rewrite lookup_delete_ne).
    by rewrite Hp, lookup_empty in Hpo. }
  destruct I as [->|(c0 & Hc & _)]; [by rewrite lookup_empty in Hl|]. split_and!.
  - assert (Hd : drop_idle (drop_expired ms h) !! o = Some (ActiveAt t)).
    { eapply Hidle; apply map_lookup_filter_Some; by split. }
    unfold ACQUIRE. destruct (mismatch c _); [done|].
    case_decide; [done|]. case_match; [done|]. simpl. by rewrite !lookup_insert_ne.
  - unfold ACTIVATE. repeat case_match; simpl; try done. by rewrite lookup_insert_ne.
  - eapply Hidle; by rewrite lookup_delete_ne.
Qed.

(** Conflicting budgets fail closed: while a permit that has not expired is
    held under capacity [c], a worker configured with another capacity gets
    -1, and no permit is added. *)
Theorem acquire_mismatch ms c capacity owner r h o v :
  h !! capacity_field = Some (Num c) -> o <> capacity_field -> h !! o = Some v -> expired ms v = false ->
  c <> capacity ->
  (ACQUIRE ms capacity owner r h).1 = -1 /\ permits (ACQUIRE ms capacity owner r h).2 ⊆ permits h.
Proof.
  intros Hc Ho Hv He Hne.
  assert (Hd : drop_idle (drop_expired ms h) = drop_expired ms h).
  { unfold drop_idle. case_decide as E; [|done]. exfalso.
    assert (H1 : drop_expired ms h !! capacity_field = Some (Num c)) by by apply map_lookup_filter_Some.
    apply size_permits in H1. assert (Hp : permits (drop_expired ms h) = ∅) by (apply map_size_empty_inv; lia).
    assert (permits (drop_expired ms h) !! o = Some v) as Hpo.
    { unfold permits. rewrite lookup_delete_ne by done. by apply map_lookup_filter_Some. }
    by rewrite Hp, lookup_empty in Hpo. }
  unfold ACQUIRE. rewrite Hd.
  assert (H1 : drop_expired ms h !! capacity_field = Some (Num c)) by by apply map_lookup_filter_Some.
  unfold mismatch. rewrite H1.
  replace (negb (c =? capacity)) with true by (destruct (Z.eqb_spec c capacity); done || lia).
  split; [done|]. simpl. unfold permits, drop_expired. apply delete_mono, map_filter_subseteq.
Qed.

(** *** Witnesses *)

Definition one_permit : hash := <["w1" := ActiveAt 5]> (<[capacity_field := Num 2]> ∅).

Lemma one_permit_reachable : rtc step ∅ one_permit.
Proof.
  eapply rtc_l; [by apply (step_acquire 0 2 "w1" 100 ∅)|].
  eapply rtc_l; [by apply (step_activate 5 "w1")|].
  match goal with |- rtc step ?h _ => replace h with one_permit by by vm_compute end. apply rtc_refl.
Defined.

Example permits_bounded_witness :
  one_permit = ∅ \/ exists c, one_permit !! capacity_field = Some (Num c) /\
    Z.of_nat (size (active_permits one_permit)) <= Z.of_nat (size (permits one_permit)) <= c /\
    (0 < size (permits one_permit))%nat.
Proof. apply (permits_bounded one_permit). apply one_permit_reachable. Defined.

Example active_permit_pinned_witness :
  (ACQUIRE 99999999 2 "w2" 30000 one_permit).2 !! "w1" = Some (ActiveAt 5) /\
  (ACTIVATE 99999999 "w2" one_permit).2 !! "w1" = Some (ActiveAt 5) /\
  (RELEASE "w2" one_permit).2 !! "w1" = Some (ActiveAt 5).
Proof.
  apply (active_permit_pinned 99999999 2 "w2" 30000 one_permit "w1" 5); [discriminate..| |reflexivity].
  right. exists 2. split; [reflexivity|]. vm_compute. split; [lia|discriminate].
Defined.

Example acquire_mismatch_witness :
  (ACQUIRE 7 3 "w2" 30000 one_permit).1 = -1 /\ permits (ACQUIRE 7 3 "w2" 30000 one_permit).2 ⊆ permits one_permit.
Proof.
  apply (acquire_mismatch 7 2 3 "w2" 30000 one_permit "w1" (ActiveAt 5));
    [reflexivity|discriminate|reflexivity|reflexivity|discriminate].
Defined.
End Permits.

Module Coordinator.
Import Permits Settings.

(** The Redis keyspace the replicas share: the capacity hash, the row guards
    and the completion sets. *)
Record shared := Shared {
  permit_hash : hash;
  guards : gmap string string;
  completed : gmap string (gset string);
}.

Record world := World {
  redis : shared;
  clock : Z;                    (* [performance.now()] *)
  ticks : nat;                  (* awaited steps and clock readings so far *)
  uuids : nat;
  request : option (Z * bool);  (* [requestContext]: deadline, dispatched *)
  bulk : option bool;           (* [bulkContext]: dispatched *)
}.

(** What the process cannot control, by step: how long it takes, the Redis
    clock, what the other replicas do meanwhile, whether a command fails and
    whether it was applied nevertheless, whether the local queue turns the
    call away; [Date.now()]; the SHA-256 digest and Bull's key prefix. *)
Class Env := {
  drift : nat -> Z;
  drift_nonneg : forall k, 0 <= drift k;
  date_now : nat -> Z;
  redis_time : nat -> Z;
  others : nat -> shared -> shared;
  eval_error : nat -> option exn;
  eval_applied : nat -> bool;
  turned_away : nat -> option exn;
  sha256hex : string -> string;
  toKey : string -> string;
  capacity : Z;
  waitMs : Z;
}.

Definition set_redis (s : shared) (w : world) : world :=
  World s (clock w) (ticks w) (uuids w) (request w) (bulk w).
Definition set_request (r : option (Z * bool)) (w : world) : world :=
  World (redis w) (clock w) (ticks w) (uuids w) r (bulk w).
Definition set_bulk (b : option bool) (w : world) : world :=
  World (redis w) (clock w) (ticks w) (uuids w) (request w) b.
Definition set_hash (h : hash) (s : shared) : shared := Shared h (guards s) (completed s).
Definition set_guards (g : gmap string string) (s : shared) : shared := Shared (permit_hash s) g (completed s).
Definition set_completed (c : gmap string (gset string)) (s : shared) : shared :=
  Shared (permit_hash s) (guards s) c.

(** The scripts of rows and batches. *)
Definition RELEASE_ROW (key owner : string) (s : shared) : Z * shared :=
  if decide (guards s !! key = Some owner) then (1, set_guards (delete key (guards s)) s) else (0, s).

Definition SET_NX (key owner : string) (s : shared) : bool * shared :=
  match guards s !! key with
  | Some _ => (false, s)
  | None => (true, set_guards (<[key := owner]> (guards s)) s)
  end.

(** The key is also given a week to live once the batch is complete; the
    expiry is not modelled. *)
Definition COMPLETE (rowId : string) (total : Z) (rows : gset string) : Z * gset string :=
  let added := negb (bool_decide (rowId ∈ rows)) in
  let rows' := {[rowId]} ∪ rows in
  (if added && (Z.of_nat (size rows') =? total) then 1 else 0, rows').

Section coordinator.
Context {env : Env} {ids : UuidSource}.

Definition tick (extra : Z) (w : world) : world :=
  World (redis w) (clock w + extra + drift (ticks w)) (S (ticks w)) (uuids w) (request w) (bulk w).

Definition performance_now : eff world Z := fun w => let w' := tick 0 w in (Ok (clock w'), w').
Definition sleep (delay : Z) : eff world unit := fun w => (Ok tt, tick delay w).
Definition Date_now : eff world Z := fun w => (Ok (date_now (ticks w)), tick 0 w).
Definition randomUUID : eff world string := fun w =>
  (Ok (uuid (uuids w)), World (redis w) (clock w) (ticks w) (S (uuids w)) (request w) (bulk w)).

(** [await client.eval(...)]: the other replicas run first; a failing
    command may or may not have been applied. *)
Definition eval {A} (script : Z -> shared -> A * shared) : eff world A := fun w =>
  let k := ticks w in
  let s := others k (redis w) in
  let '(a, s') := script (redis_time k) s in
  match eval_error k with
  | Some e => (Throw e, tick 0 (set_redis (if eval_applied k then s' else s) w))
  | None => (Ok a, tick 0 (set_redis s' w))
  end.

Definition on_hash (f : Z -> hash -> Z * hash) (ms : Z) (s : shared) : Z * shared :=
  let '(r, h) := f ms (permit_hash s) in (r, set_hash h s).

Definition eval_acquire (owner : string) : eff world Z :=
  eval (on_hash (fun ms => ACQUIRE ms capacity owner RESERVATION_MS)).
Definition eval_activate (owner : string) : eff world Z :=
  eval (on_hash (fun ms => ACTIVATE ms owner)).
Definition eval_release (owner : string) : eff world Z :=
  eval (on_hash (fun _ => RELEASE owner)).

(** [IssuanceAdmissionQueue.run]; the slot itself is [IssuanceQueue]'s. *)
Definition queue_run {A} (operation : eff world A) (deadline : Z) : eff world A :=
  now ← performance_now;
  if deadline <=? now then throw AdmissionQueue.timeoutError else
  _ ← (fun w => match turned_away (ticks w) with
                | Some e => (Throw e, tick 0 w)
                | None => (Ok tt, tick 0 w)
                end);
  now' ← performance_now;
  if deadline <=? now' then throw AdmissionQueue.timeoutError else operation.

Definition checkWaiting (deadline : Z) : eff world unit :=
  now ← performance_now;
  if deadline <=? now then throw AdmissionQueue.timeoutError else mret tt.

Definition inconsistent_error : exn :=
  http_exn ServiceUnavailableException "Issuance workers have inconsistent concurrency configuration".
Definition reservation_error : exn :=
  http_exn ServiceUnavailableException "Issuance reservation expired; no offer was dispatched".

(** The [while (!acquired)] loop; [false] when the fuel runs out. *)
Fixpoint acquire_loop (fuel : nat) (deadline : Z) (owner : string) (retryDelay : Z) : eff world bool :=
  match fuel with
  | O => mret false
  | S fuel' =>
      _ ← checkWaiting deadline;
      result ← eval_acquire owner;
      if result =? -1 then throw inconsistent_error
      else if result =? 1 then mret true
      else
        now ← performance_now;
        let delay := Z.min retryDelay (Z.max 1 (deadline - now)) in
        _ ← sleep delay;
        acquire_loop fuel' deadline owner (Z.min 50 (retryDelay * 2))
  end.

Definition no_fuel : exn := js_error "the loop did not end".

(** The body of [acquireAndRun] before the operation. *)
Definition obtain_permit (deadline : Z) (owner : string) : eff world unit :=
  fuel ← gets (fun w => S (Z.to_nat (deadline - clock w)));
  acquired ← acquire_loop fuel deadline owner 1;
  if negb acquired then throw no_fuel else
  _ ← checkWaiting deadline;
  activated ← eval_activate owner;
  if negb (activated =? 1) then throw reservation_error else
  checkWaiting deadline.

(** [for (let attempt = 3 - n; ; attempt++)] *)
Fixpoint releasePermit_from (n : nat) (owner : string) : eff world unit :=
  try_catch (_ ← eval_release owner; mret tt)
    (fun error =>
       match n with
       | O | 1%nat => throw error
       | S n' => _ ← sleep (25 * (4 - Z.of_nat n)); releasePermit_from n' owner
       end).

Definition releasePermit (owner : string) : eff world unit := releasePermit_from 3 owner.

Definition acquireAndRun {A} (operation : eff world A) (deadline : Z) : eff world A :=
  owner ← randomUUID;
  try_finally (_ ← obtain_permit deadline owner; operation) (releasePermit owner).

Definition withPermit {A} (operation : eff world A) : eff world A :=
  w ← get;
  let wait := if bulk w then waitMs else Z.min waitMs ISSUANCE_INTERACTIVE_QUEUE_MS in
  now ← performance_now;
  let deadline := match request w with
                  | Some (d, false) => Z.min (now + wait) d
                  | _ => now + wait
                  end in
  queue_run (acquireAndRun operation deadline) deadline.

(** [offer]: the contexts record the dispatch just before the operation. *)
Definition mark_dispatched (w : world) : world :=
  World (redis w) (clock w) (ticks w) (uuids w)
    (match request w with Some (d, _) => Some (d, true) | None => None end)
    (match bulk w with Some _ => Some true | None => None end).

Definition offer {A} (operation : eff world A) : eff world A :=
  withPermit (_ ← modify mark_dispatched; operation).

(** [requestContext.run(context, operation)] *)
Definition with_request {A} (context : Z * bool) (operation : eff world A) : eff world A := fun w =>
  let (r, w') := operation (set_request (Some context) w) in (r, set_request (request w) w').

Definition interactive {A} (deadline : js_value) (operation : eff world A) : eff world A :=
  now ← Date_now;
  d ← lift (issuanceDeadline deadline now);
  now' ← Date_now;
  p ← performance_now;
  with_request (p + (d - now'), false) operation.

(** [[orgId, fileId, rowId].map(v => v.trim().toLowerCase())] *)
Definition normalize (v : string) : string := Str.toLowerCase (Str.trim v).

Definition rowKey (orgId fileId rowId : string) : string :=
  let identifiers := map normalize [orgId; fileId; rowId] in
  toKey ("issuance-row-v1-" +:+ sha256hex (Json.stringify_array identifiers)).

Definition row_active_error : exn :=
  js_error "Issuance row is active or has an uncertain outcome; reconcile before retrying".

(** The [try] block of [guardedRow] and its [finally]. *)
Definition guarded_body (key owner : string) (operation : eff world bool) : eff world bool := fun w =>
  let (r, w1) := operation (set_bulk (Some false) w) in
  let success := match r with Ok b => b | Throw _ => false end in
  let dispatched := match bulk w1 with Some b => b | None => false end in
  let w2 := set_bulk (bulk w) w1 in
  if success || negb dispatched then
    match eval (fun _ => RELEASE_ROW key owner) w2 with
    | (Ok _, w3) => (r, w3)
    | (Throw e, w3) => (Throw e, w3)
    end
  else (r, w2).

Definition guardedRow (orgId fileId rowId : string) (operation : eff world bool) : eff world bool :=
  let key := rowKey orgId fileId rowId in
  owner ← randomUUID;
  acquired ← eval (fun _ => SET_NX key owner);
  if negb acquired then throw row_active_error else guarded_body key owner operation.

Definition bulkRow (orgId fileId rowId : string) (operation : eff world bool) : eff world bool :=
  now ← performance_now;
  queue_run (guardedRow orgId fileId rowId operation) (now + waitMs).

Definition uncertain_error : exn :=
  http_exn ConflictException "Some issuance rows are active or uncertain; reconcile before retrying".

(** [for (let offset = 0; offset < rowIds.length; offset += 2000)]; the
    fuel is the number of rows, which bounds the number of slices. *)
Fixpoint assert_slices (fuel : nat) (orgId fileId : string) (rowIds : list string) : eff world unit :=
  match fuel, rowIds with
  | S fuel', _ :: _ =>
      let keys := map (rowKey orgId fileId) (firstn 2000 rowIds) in
      owners ← eval (fun _ s => (map (fun k => guards s !! k) keys, s));
      if existsb (fun o : option string => if o then true else false) owners then throw uncertain_error
      else assert_slices fuel' orgId fileId (skipn 2000 rowIds)
  | _, _ => mret tt
  end.

Definition assertRetryable (orgId fileId : string) (rowIds : list string) : eff world unit :=
  assert_slices (length rowIds) orgId fileId rowIds.

Definition metadata_error : exn := js_error "Invalid issuance batch completion metadata".

Definition completedRow (batchId rowId : string) (total : Z) : eff world bool :=
  if String.eqb batchId "" || String.eqb rowId "" || negb (Num.isSafeInteger total) || (total <? 1)
  then throw metadata_error else
  let key := toKey ("issuance-completed-v1-" +:+ normalize batchId) in
  r ← eval (fun _ s =>
        let '(r, rows) := COMPLETE (normalize rowId) total (default ∅ (completed s !! key)) in
        (r, set_completed (<[key := rows]> (completed s)) s));
  mret (r =? 1).

(** ** Time *)

Lemma tick_clock d w : clock w + d <= clock (tick d w).
Proof. simpl. pose proof (drift_nonneg (ticks w)). lia. Qed.

Lemma eval_run {A} (script : Z -> shared -> A * shared) w :
  let k := ticks w in
  let '(a, s') := script (redis_time k) (others k (redis w)) in
  eval script w = match eval_error k with
    | Some e => (Throw e, tick 0 (set_redis (if eval_applied k then s' else others k (redis w)) w))
    | None => (Ok a, tick 0 (set_redis s' w))
    end.
Proof. unfold eval. by destruct (script _ _). Qed.

Lemma eval_clock {A} (script : Z -> shared -> A * shared) w r w' :
  eval script w = (r, w') -> clock w <= clock w'.
Proof.
  unfold eval. destruct (script _ _) as [a s']. pose proof (drift_nonneg (ticks w)).
  destruct (eval_error _); intros [= <- <-]; simpl; lia.
Qed.

Lemma checkWaiting_run deadline w :
  checkWaiting deadline w =
    (if deadline <=? clock (tick 0 w) then (Throw AdmissionQueue.timeoutError, tick 0 w) else (Ok tt, tick 0 w)).
Proof. unfold checkWaiting, performance_now. rewrite run_bind. cbv zeta. by destruct (deadline <=? _). Qed.

(** The loop ends: every turn that does not return sleeps at least 1 ms. *)
Lemma acquire_loop_total fuel deadline owner rd w w' :
  1 <= rd -> (0 < fuel)%nat -> deadline - clock w < Z.of_nat fuel ->
  acquire_loop fuel deadline owner rd w <> (Ok false, w').
Proof.
  revert rd w. induction fuel as [|fuel IH]; intros rd w Hrd Hf Hlt; [lia|]. cbn [acquire_loop].
  rewrite run_bind, checkWaiting_run. pose proof (tick_clock 0 w).
  destruct (Z.leb_spec deadline (clock (tick 0 w))) as [|Hd]; [done|].
  rewrite run_bind. destruct (eval_acquire owner (tick 0 w)) as [[r|e] w2] eqn:E; [|done].
  apply eval_clock in E. destruct (r =? -1); [done|]. destruct (r =? 1); [done|].
  rewrite run_bind. unfold performance_now at 1. cbv zeta. rewrite run_bind. unfold sleep at 1.
  pose proof (tick_clock 0 w2). set (dl := Z.min rd _).
  pose proof (tick_clock dl (tick 0 w2)). apply IH; lia.
Qed.

(** The time that [n] steps from step [k] on took of themselves *)
Fixpoint elapsed (k n : nat) : Z := match n with O => 0 | S n' => drift k + elapsed (S k) n' end.

Lemma elapsed_snoc k n : elapsed k (S n) = elapsed k n + drift (k + n)%nat.
Proof.
  revert k. induction n as [|n IH]; intros k; [simpl; rewrite Nat.add_0_r; lia|].
  cbn [elapsed] in *. rewrite IH. replace (k + S n)%nat with (S k + n)%nat by lia. lia.
Qed.
Lemma elapsed_nonneg k n : 0 <= elapsed k n.
Proof. revert k. induction n as [|n IH]; intros k; simpl; [lia|]. pose proof (drift_nonneg k). specialize (IH (S k)). lia. Qed.

(** The clock has passed [bound] by no more than the last [n] steps, at most, took. *)
Definition soon_after (bound : Z) (n : nat) (w : world) : Prop :=
  exists m, (m <= n)%nat /\ (m <= ticks w)%nat /\ clock w <= bound + elapsed (ticks w - m) m.

Lemma soon_weaken bound n n' w : (n <= n')%nat -> soon_after bound n w -> soon_after bound n' w.
Proof. intros Hn (m & ? & ? & ?). exists m. split_and!; [lia | done..]. Qed.

(** One step further, which waits for [extra] at most up to the bound *)
Lemma soon_step bound n extra w w' : ticks w' = S (ticks w) -> clock w' = clock w + extra + drift (ticks w) ->
  soon_after (bound - extra) n w -> soon_after bound (S n) w'.
Proof.
  intros Ht Hc (m & Hm & Hmt & Hw). exists (S m). rewrite Ht. split; [lia|]. split; [lia|].
  rewrite elapsed_snoc, Hc. replace (S (ticks w) - S m)%nat with (ticks w - m)%nat by lia. replace (ticks w - m + m)%nat with (ticks w) by lia. lia.
Qed.

Lemma eval_step {A} (script : Z -> shared -> A * shared) w r w' : eval script w = (r, w') ->
  ticks w' = S (ticks w) /\ clock w' = clock w + 0 + drift (ticks w).
Proof. unfold eval. destruct (script _ _) as [a s']. destruct (eval_error _); by intros [= <- <-]. Qed.

(** A turn is entered at the deadline at most, but for the steps of the turn before; the cap on
    the delay keeps the sleep from passing the deadline. *)
Lemma acquire_loop_bounded fuel deadline bound owner rd w r w' : 1 <= rd -> deadline <= bound -> soon_after bound 4 w ->
  acquire_loop fuel deadline owner rd w = (r, w') -> soon_after bound 5 w'.
Proof.
  intros Hrd Hb. revert rd Hrd w. induction fuel as [|fuel IH]; intros rd Hrd w Hw.
  { intros [= <- <-]. by apply (soon_weaken _ 4); [lia|]. }
  cbn [acquire_loop]. rewrite run_bind, checkWaiting_run. set (w1 := tick 0 w).
  assert (H1 : soon_after bound 5 w1) by (apply (soon_step bound 4 0 w); [done | done | by rewrite Z.sub_0_r]).
  destruct (Z.leb_spec deadline (clock w1)) as [|Hd]; [by intros [= <- <-]|].
  rewrite run_bind. destruct (eval_acquire owner w1) as [r2 w2] eqn:E. apply eval_step in E as [T2 C2].
  assert (S1 : soon_after (bound - 1) 0 w1) by (exists O; cbn [elapsed]; split_and!; lia).
  assert (S2 : soon_after (bound - 1) 1 w2) by (by apply (soon_step (bound - 1) 0 0 w1); [..|rewrite Z.sub_0_r]).
  assert (H2 : soon_after bound 5 w2) by (destruct S2 as (m & ? & ? & ?); exists m; split_and!; lia).
  destruct r2 as [x|e]; [|by intros [= <- <-]]. destruct (x =? -1); [by intros [= <- <-]|]. destruct (x =? 1); [by intros [= <- <-]|].
  rewrite run_bind. unfold performance_now at 1. cbv zeta. set (w3 := tick 0 w2). rewrite run_bind. unfold sleep at 1.
  set (dl := Z.min rd _). apply IH; [lia|].
  assert (S3 : soon_after (bound - 1) 2 w3) by (apply (soon_step (bound - 1) 1 0 w2); [done | done | by rewrite Z.sub_0_r]).
  apply (soon_weaken _ 3); [lia|]. apply (soon_step bound 2 dl w3); [done | done|].
  destruct (Z.le_gt_cases dl 1) as [Hdl|Hdl].
  - destruct S3 as (m & ? & ? & ?). exists m. split_and!; lia.
  - exists O. cbn [elapsed]. subst dl. split_and!; lia.
Qed.

Lemma obtain_permit_ok deadline owner w w1 :
  obtain_permit deadline owner w = (Ok tt, w1) ->
  clock w1 < deadline /\ exists t, permit_hash (redis w1) !! owner = Some (ActiveAt t).
Proof.
  unfold obtain_permit. rewrite run_bind. unfold gets at 1.
  intros (acq & w2 & E2 & H)%bind_ok_inv. destruct acq; [|done]. cbn [negb] in H.
  apply bind_ok_inv in H as ([] & w3 & E3 & H).
  apply bind_ok_inv in H as (r & w4 & E4 & H). destruct (Z.eqb_spec r 1) as [->|]; [|done]. cbn [negb] in H.
  rewrite checkWaiting_run in H. destruct (Z.leb_spec deadline (clock (tick 0 w4))); [done|].
  injection H as <-. split; [done|].
  unfold eval_activate in E4. pose proof (eval_run (on_hash (fun ms => ACTIVATE ms owner)) w3) as He.
  rewrite E4 in He. unfold on_hash, ACTIVATE in He.
  destruct (permit_hash (others (ticks w3) (redis w3)) !! owner) as [[|t|]|] eqn:El; simpl in He;
    try (destruct (eval_error (ticks w3)); congruence).
  destruct (t <=? redis_time (ticks w3)); simpl in He; destruct (eval_error (ticks w3)); simplify_eq.
  simpl. rewrite lookup_insert_eq. eauto.
Qed.

(** C40. Waiting for a permit ends by its deadline, whatever Redis answers and the other replicas
    do: the loop of [acquireAndRun] ends with the permit or an exception, and when it ends the
    clock has passed the deadline by no more than its last five steps (two checks, a command, a
    reading of the clock and a timer) took beyond what they were asked to wait; a permit that
    comes later than the deadline is not used. *)
Theorem acquire_terminates deadline owner w :
  let '(r, w') := acquire_loop (S (Z.to_nat (deadline - clock w))) deadline owner 1 w in
  (r = Ok true \/ exists e, r = Throw e) /\ soon_after (Z.max deadline (clock w)) 5 w' /\
  forall w1, obtain_permit deadline owner w = (Ok tt, w1) -> clock w1 < deadline.
Proof.
  destruct (acquire_loop _ _ _ _ _) as [r w'] eqn:E. split_and!.
  - destruct r as [[]|e]; [by left | | by right; exists e]. exfalso. revert E. apply acquire_loop_total; lia.
  - eapply acquire_loop_bounded; [| | |exact E]; [lia | lia|]. exists O. simpl. split_and!; lia.
  - intros w1 H. by apply obtain_permit_ok in H as [? _].
Qed.

(** Dispatch is guarded: [acquireAndRun] either runs the operation with
    an activated permit of its own in the shared hash and before its
    deadline, releasing afterwards; or throws without running it, with the
    same outcome for every operation. *)
Theorem dispatch_guarded deadline w :
  let owner := uuid (uuids w) in
  (exists w1 t, clock w1 < deadline /\ permit_hash (redis w1) !! owner = Some (ActiveAt t) /\
     forall A (operation : eff world A),
       acquireAndRun operation deadline w = try_finally operation (releasePermit owner) w1) \/
  (exists e w', forall A (operation : eff world A), acquireAndRun operation deadline w = (Throw e, w')).
Proof.
  intros owner. set (w0 := World (redis w) (clock w) (ticks w) (S (uuids w)) (request w) (bulk w)).
  assert (Hrun : forall A (op : eff world A),
    acquireAndRun op deadline w = try_finally (_ ← obtain_permit deadline owner; op) (releasePermit owner) w0) by done.
  destruct (obtain_permit deadline owner w0) as [[[]|e] w1] eqn:E.
  - left. destruct (obtain_permit_ok _ _ _ _ E) as [Hc [t Ht]]. exists w1, t. split_and!; [done|done|].
    intros A op. rewrite Hrun. unfold try_finally. by rewrite run_bind, E.
  - right. destruct (releasePermit owner w1) as [[[]|e'] w2] eqn:Er.
    + exists e, w2. intros A op. rewrite Hrun. unfold try_finally. by rewrite run_bind, E, Er.
    + exists e', w2. intros A op. rewrite Hrun. unfold try_finally. by rewrite run_bind, E, Er.
Qed.

Lemma RELEASE_gone owner h : (RELEASE owner h).2 !! owner = None.
Proof. unfold RELEASE, drop_idle. simpl. case_decide; [apply lookup_empty|apply lookup_delete_eq]. Qed.

Lemma release_attempt owner w :
  match eval_release owner w with
  | (Ok _, w') => permit_hash (redis w') !! owner = None
  | (Throw e, w') => eval_error (ticks w) = Some e
  end.
Proof.
  unfold eval_release. pose proof (eval_run (on_hash (fun _ => RELEASE owner)) w) as He.
  simpl in He. rewrite He. destruct (eval_error (ticks w)); [done|]. simpl. apply RELEASE_gone.
Qed.

(** The permit of a settled operation is given back: when the release
    returns, the owner is no longer in the hash; when it throws, each of
    the three commands it sent had failed. *)
Theorem release_permit_retries owner w :
  match releasePermit owner w with
  | (Ok _, w') => permit_hash (redis w') !! owner = None
  | (Throw e, _) =>
      exists e1 e2, eval_error (ticks w) = Some e1 /\ eval_error (2 + ticks w) = Some e2 /\
        eval_error (4 + ticks w) = Some e
  end.
Proof.
  unfold releasePermit.
  assert (Htick : forall w0 r w', eval_release owner w0 = (r, w') -> ticks w' = S (ticks w0)).
  { intros w0 r w'. unfold eval_release, eval. destruct (on_hash _ _ _).
    destruct (eval_error _); by intros [= <- <-]. }
  cbn [releasePermit_from]. unfold try_catch at 1. rewrite run_bind.
  pose proof (release_attempt owner w) as A1. destruct (eval_release owner w) as [[?|e1] w1] eqn:E1; [done|].
  rewrite run_bind. unfold sleep at 1. unfold try_catch at 1. rewrite run_bind.
  set (v1 := tick _ w1). pose proof (release_attempt owner v1) as A2.
  destruct (eval_release owner v1) as [[?|e2] w2] eqn:E2; [done|].
  rewrite run_bind. unfold sleep at 1. unfold try_catch at 1. rewrite run_bind.
  set (v2 := tick _ w2). pose proof (release_attempt owner v2) as A3.
  destruct (eval_release owner v2) as [[?|e3] w3] eqn:E3; [done|].
  exists e1, e2. simpl in *. apply Htick in E1, E2. simpl in *. split_and!; [done|congruence|congruence].
Qed.

(** ** Row guards *)

(** The digest and the key prefix do not collide. *)
Class Collision_free : Prop := {
  sha256hex_inj :: Inj (=) (=) sha256hex;
  toKey_inj :: Inj (=) (=) toKey;
}.

(** Two rows share a guard exactly when their identifiers agree up to
    surrounding white space and letter case. *)
Theorem row_key_identity `{Collision_free} o f r o' f' r' :
  rowKey o f r = rowKey o' f' r' <->
  normalize o = normalize o' /\ normalize f = normalize f' /\ normalize r = normalize r'.
Proof.
  unfold rowKey. cbn [map]. split; [|by intros (-> & -> & ->)].
  intros E%(inj toKey). apply Json.app_inv_str, (inj sha256hex), Json.stringify_array_inj in E; [|done].
  by injection E.
Qed.

(** The other replicas do not remove or take over a guard that is held. *)
Definition others_keep_guards : Prop :=
  forall k s key owner, guards s !! key = Some owner -> guards (others k s) !! key = Some owner.

Lemma set_nx_run key owner w :
  match eval (fun _ => SET_NX key owner) w with
  | (Ok b, w') => guards (redis w') !! key = (if b then Some owner else guards (others (ticks w) (redis w)) !! key)
      /\ (b = false -> is_Some (guards (others (ticks w) (redis w)) !! key)) /\ bulk w' = bulk w
  | (Throw e, w') => eval_error (ticks w) = Some e
  end.
Proof.
  pose proof (eval_run (fun _ => SET_NX key owner) w) as He. unfold SET_NX in *. cbv zeta in He.
  destruct (guards (others (ticks w) (redis w)) !! key) as [o|] eqn:E; rewrite He;
    (destruct (eval_error (ticks w)); [done|]); simpl.
  - split_and!; [done|by eauto|done].
  - rewrite lookup_insert_eq. by split_and!.
Qed.

Lemma release_row_run key owner w :
  others_keep_guards -> guards (redis w) !! key = Some owner -> eval_error (ticks w) = None ->
  exists n w', eval (fun _ => RELEASE_ROW key owner) w = (Ok n, w') /\ guards (redis w') !! key = None.
Proof.
  intros Hk Hg He. pose proof (eval_run (fun _ => RELEASE_ROW key owner) w) as Hr. unfold RELEASE_ROW in *.
  cbv zeta in Hr. rewrite decide_True, He in Hr by by apply Hk.
  eexists _, _. split; [exact Hr|]. simpl. apply lookup_delete_eq.
Qed.

(** The guard of a bulk row.  Either the operation is not run at all; or
    it runs while the guard is held, and then: a row that succeeded, or
    failed before anything was dispatched, gives the guard back and can be
    retried; a row that failed after the dispatch keeps it. *)
Theorem row_guard_outcome o f i operation w r w' :
  others_keep_guards ->
  (forall v key, guards (redis (operation v).2) !! key = guards (redis v) !! key) ->
  guardedRow o f i operation w = (r, w') ->
  let key := rowKey o f i in
  let owner := uuid (uuids w) in
  (r <> Ok true /\ r <> Ok false /\ forall operation', guardedRow o f i operation' w = (r, w')) \/
  exists w1 r1 w2, operation w1 = (r1, w2) /\ guards (redis w1) !! key = Some owner /\ bulk w1 = Some false /\
    ((r1 = Ok true \/ bulk w2 <> Some true) -> eval_error (ticks w2) = None ->
       r = r1 /\ guards (redis w') !! key = None) /\
    (r1 <> Ok true -> bulk w2 = Some true -> r = r1 /\ guards (redis w') !! key = Some owner).
Proof.
  intros Hk Hop Hrun key owner. unfold guardedRow, randomUUID in Hrun. rewrite run_bind in Hrun. fold key owner in Hrun.
  set (w0 := World _ _ _ _ _ _) in Hrun. rewrite run_bind in Hrun.
  pose proof (set_nx_run key owner w0) as Hs.
  destruct (eval (fun _ => SET_NX key owner) w0) as [[[]|e] w1] eqn:E; cbn [negb] in Hrun.
  - right. destruct Hs as (Hg & _ & Hb). unfold guarded_body in Hrun.
    pose proof (Hop (set_bulk (Some false) w1) key) as Hf.
    destruct (operation (set_bulk (Some false) w1)) as [r1 w2] eqn:Eo. simpl in Hf.
    exists (set_bulk (Some false) w1), r1, w2. split_and!; [done|done|done| |].
    + intros Hcase He. replace (_ || _) with true in Hrun.
      * destruct (release_row_run key owner (set_bulk (bulk w1) w2) Hk) as (n & w3 & Er & Hn); [simpl; congruence|done|].
        rewrite Er in Hrun. simplify_eq. done.
      * destruct Hcase as [-> | Hn]; [done|]. destruct (bulk w2) as [[]|]; [done|by rewrite orb_true_r..].
    + intros Hr1 Hd. rewrite Hd in Hrun. replace (_ || _) with false in Hrun by by destruct r1 as [[]|].
      injection Hrun as <- <-. split; [done|]. simpl. congruence.
  - left. rewrite run_throw in Hrun. injection Hrun as <- <-. split_and!; [done..|]. intros op'.
    unfold guardedRow, randomUUID. rewrite run_bind. fold key owner w0. by rewrite run_bind, E.
  - left. injection Hrun as <- <-. split_and!; [done..|]. intros op'.
    unfold guardedRow, randomUUID. rewrite run_bind. fold key owner w0. by rewrite run_bind, E.
Qed.

(** While the guard of a row is held, no replica runs the row again: for
    every spelling of the same identifiers the call throws without running
    its operation. *)
Theorem row_guard_excludes o f i o' f' i' w own :
  others_keep_guards -> guards (redis w) !! rowKey o f i = Some own ->
  normalize o = normalize o' -> normalize f = normalize f' -> normalize i = normalize i' ->
  exists e w', forall operation, guardedRow o' f' i' operation w = (Throw e, w').
Proof.
  intros Hk Hg Ho Hf Hi. assert (Hkey : rowKey o f i = rowKey o' f' i').
  { unfold rowKey. cbn [map]. by rewrite Ho, Hf, Hi. }
  rewrite Hkey in Hg.
  set (w0 := World (redis w) (clock w) (ticks w) (S (uuids w)) (request w) (bulk w)).
  assert (Hrun : forall op, guardedRow o' f' i' op w =
    (acquired ← eval (fun _ => SET_NX (rowKey o' f' i') (uuid (uuids w)));
     if negb acquired then throw row_active_error else guarded_body (rowKey o' f' i') (uuid (uuids w)) op) w0) by done.
  pose proof (set_nx_run (rowKey o' f' i') (uuid (uuids w)) w0) as Hs.
  destruct (eval _ w0) as [[b|e] w1] eqn:E.
  - destruct b.
    + exfalso. destruct Hs as (Hs & _). unfold eval, SET_NX in E. simpl in E.
      rewrite (Hk _ _ _ _ Hg) in E. destruct (eval_error (ticks w)); done.
    + exists row_active_error, w1. intros op. by rewrite Hrun, run_bind, E.
  - exists e, w1. intros op. by rewrite Hrun, run_bind, E.
Qed.

(** ** Retries and completion *)

Definition held (s : shared) (key : string) : Prop := is_Some (guards s !! key).

Lemma existsb_held s keys :
  existsb (fun o : option string => if o then true else false) (map (fun k => guards s !! k) keys) = true <->
  exists key, In key keys /\ held s key.
Proof.
  rewrite existsb_exists. unfold held. split.
  - intros (x & (k & <- & Hin)%in_map_iff & Hx). exists k. split; [done|]. by destruct (guards s !! k); [eexists|].
  - intros (k & Hin & [v Hv]). exists (Some v). split; [|done]. apply in_map_iff. by exists k.
Qed.

Definition read_guards (keys : list string) : eff world (list (option string)) :=
  eval (fun _ s => (map (fun k => guards s !! k) keys, s)).

Lemma assert_slices_cons fuel o f id rowIds w :
  assert_slices (S fuel) o f (id :: rowIds) w =
  (owners ← read_guards (map (rowKey o f) (firstn 2000 (id :: rowIds)));
   if existsb (fun o : option string => if o then true else false) owners then throw uncertain_error
   else assert_slices fuel o f (skipn 2000 (id :: rowIds))) w.
Proof. done. Qed.

Lemma read_guards_run keys w :
  read_guards keys w = match eval_error (ticks w) with
    | Some e => (Throw e, tick 0 (set_redis (others (ticks w) (redis w)) w))
    | None => (Ok (map (fun k => guards (others (ticks w) (redis w)) !! k) keys),
               tick 0 (set_redis (others (ticks w) (redis w)) w))
    end.
Proof. unfold read_guards, eval. destruct (eval_error _); [|done]. by destruct (eval_applied _). Qed.

Lemma in_firstn_skipn (n : nat) (l : list string) x : In x l <-> In x (firstn n l) \/ In x (skipn n l).
Proof. rewrite <- in_app_iff. by rewrite firstn_skipn. Qed.

Lemma assert_slices_sound fuel o f rowIds w id :
  others_keep_guards -> (length rowIds <= fuel)%nat -> In id rowIds -> held (redis w) (rowKey o f id) ->
  exists e w', assert_slices fuel o f rowIds w = (Throw e, w').
Proof.
  intros Hk. revert rowIds w. induction fuel as [|fuel IH]; intros [|x rowIds] w Hl Hin Hh; simpl in Hl; [done|lia|done|].
  rewrite assert_slices_cons. rewrite run_bind, read_guards_run.
  destruct (eval_error (ticks w)) as [e|]; [by eauto|].
  set (s := others (ticks w) (redis w)). assert (Hs : held s (rowKey o f id)) by (destruct Hh as [own Hg]; eexists; by apply Hk).
  case_match eqn:E; [by eauto|]. apply (in_firstn_skipn 2000) in Hin as [Hin|Hin]; last first.
  { apply IH; [rewrite length_skipn; simpl; lia|done|done]. }
  apply not_true_iff_false in E. exfalso. apply E, existsb_held. exists (rowKey o f id). split; [by apply in_map|done].
Qed.

Lemma assert_slices_complete fuel o f rowIds w :
  (forall k s, others k s = s) -> (forall k, eval_error k = None) ->
  (forall id, In id rowIds -> ~ held (redis w) (rowKey o f id)) ->
  exists w', assert_slices fuel o f rowIds w = (Ok tt, w').
Proof.
  intros Hq He. revert rowIds w. induction fuel as [|fuel IH]; intros [|x rowIds] w Hf; [by eexists..|].
  rewrite assert_slices_cons, run_bind, read_guards_run, He, Hq.
  case_match eqn:E.
  - exfalso. apply existsb_held in E as (k & (id & <- & Hin)%in_map_iff & Hh). eapply Hf; [|done].
    apply (in_firstn_skipn 2000). by left.
  - apply IH. intros id Hin. apply Hf. apply (in_firstn_skipn 2000). by right.
Qed.

(** The retry check covers every row, however the list is cut in slices
    of 2000: if one of the rows is guarded when the check starts it throws,
    and in a quiet keyspace it returns when none of them is. *)
Theorem assert_retryable_exact o f rowIds w :
  others_keep_guards ->
  ((exists id, In id rowIds /\ held (redis w) (rowKey o f id)) ->
     exists e w', assertRetryable o f rowIds w = (Throw e, w')) /\
  ((forall k s, others k s = s) -> (forall k, eval_error k = None) ->
     (forall id, In id rowIds -> ~ held (redis w) (rowKey o f id)) ->
     exists w', assertRetryable o f rowIds w = (Ok tt, w')).
Proof.
  intros Hk. split.
  - intros (id & Hin & Hh). by eapply assert_slices_sound.
  - intros. by apply assert_slices_complete.
Qed.

(** The completions reported for a list of finished rows. *)
Fixpoint complete_rows (batchId : string) (total : Z) (rowIds : list string) : eff world nat :=
  match rowIds with
  | [] => mret 0%nat
  | r :: rs =>
      b ← completedRow batchId r total;
      n ← complete_rows batchId total rs;
      mret (if (b : bool) then S n else n)
  end.

Definition valid_batch (batchId : string) (total : Z) (rowIds : list string) : Prop :=
  batchId <> "" /\ Forall (fun r => r <> "") rowIds /\ 1 <= total <= Num.MAX_SAFE_INTEGER.

Definition batch_key (batchId : string) : string := toKey ("issuance-completed-v1-" +:+ normalize batchId).

Lemma completedRow_run b r total w :
  b <> "" -> r <> "" -> 1 <= total <= Num.MAX_SAFE_INTEGER -> eval_error (ticks w) = None ->
  (forall k s, completed (others k s) = completed s) ->
  let rows := default ∅ (completed (redis w) !! batch_key b) in
  exists w', completedRow b r total w = (Ok ((COMPLETE (normalize r) total rows).1 =? 1), w') /\
    completed (redis w') !! batch_key b = Some ({[normalize r]} ∪ rows) /\ ticks w' = S (ticks w).
Proof.
  intros Hb Hr Ht He Ho rows. unfold completedRow.
  destruct (String.eqb_spec b ""); [done|]. destruct (String.eqb_spec r ""); [done|]. cbn [orb].
  unfold Num.isSafeInteger. replace (Z.abs total <=? Num.MAX_SAFE_INTEGER) with true by lia.
  replace (total <? 1) with false by lia. cbn [negb orb].
  rewrite run_bind. fold (batch_key b). unfold eval. rewrite Ho. fold rows.
  destruct (COMPLETE (normalize r) total rows) as [c rows'] eqn:Ec. rewrite He. eexists. split; [done|].
  simpl. unfold COMPLETE in Ec. injection Ec as _ <-. by rewrite lookup_insert_eq.
Qed.

Lemma complete_rows_run b total rowIds w :
  valid_batch b total rowIds -> (forall k, eval_error k = None) ->
  (forall k s, completed (others k s) = completed s) ->
  let rows := default ∅ (completed (redis w) !! batch_key b) in
  let all := rows ∪ list_to_set (map normalize rowIds) in
  exists w', complete_rows b total rowIds w =
    (Ok (if decide (Z.of_nat (size rows) < total <= Z.of_nat (size all)) then 1%nat else 0%nat), w').
Proof.
  intros (Hb & Hrs & Ht) He Ho. revert w. induction Hrs as [|r rs Hr Hrs IH]; intros w rows all.
  - exists w. simpl. replace (size all) with (size rows); [|unfold all; simpl; f_equal; set_solver].
    rewrite decide_False by lia. done.
  - cbn [complete_rows]. destruct (completedRow_run b r total w Hb Hr Ht (He _) Ho) as (w1 & E & Hc & _).
    rewrite (run_bind_ok _ _ _ _ _ E).
    destruct (IH w1) as (w2 & E2). rewrite (run_bind_ok _ _ _ _ _ E2). exists w2. rewrite run_ret. do 2 f_equal.
    fold rows in Hc |- *. rewrite Hc. simpl default.
    set (rows1 := {[normalize r]} ∪ rows).
    replace (rows1 ∪ list_to_set (map normalize rs)) with all by (unfold all, rows1; simpl; set_solver).
    unfold COMPLETE. fold rows1. destruct (bool_decide (normalize r ∈ rows)) eqn:Ein; simpl.
    + apply bool_decide_eq_true in Ein. replace rows1 with rows by (unfold rows1; set_solver). done.
    + apply bool_decide_eq_false in Ein.
      assert (Hsz : size rows1 = S (size rows)) by (unfold rows1; rewrite size_union, size_singleton by set_solver; lia).
      assert (Hle : (size rows1 <= size all)%nat) by (apply subseteq_size; unfold all, rows1; simpl; set_solver).
      destruct (Z.eqb_spec (Z.of_nat (size rows1)) total) as [Heq|Hne]; simpl; repeat case_decide; lia || done.
Qed.

(** Completion is reported once: for any sequence of finished rows of a
    batch - repetitions and other spellings included - exactly one call
    reports the batch complete if the distinct rows reach the total, and
    none does otherwise. *)
Theorem batch_completed_once b total rowIds w :
  valid_batch b total rowIds -> (forall k, eval_error k = None) ->
  (forall k s, completed (others k s) = completed s) -> completed (redis w) !! batch_key b = None ->
  exists w', complete_rows b total rowIds w =
    (Ok (if decide (total <= Z.of_nat (size (list_to_set (map normalize rowIds) : gset string))) then 1%nat else 0%nat), w').
Proof.
  intros Hv He Ho Hn. destruct (complete_rows_run b total rowIds w Hv He Ho) as [w' E]. exists w'. rewrite E, Hn.
  simpl default. do 2 f_equal. rewrite size_empty, (left_id_L ∅ (∪)). destruct Hv as (_ & _ & Ht).
  repeat case_decide; done || lia.
Qed.
End coordinator.

(** ** Witnesses: a quiet environment *)

Definition quiet : Env.
Proof.
  refine {| drift := fun _ => 1; date_now := fun k => Z.of_nat k; redis_time := fun k => Z.of_nat k;
    others := fun _ s => s; eval_error := fun _ => None; eval_applied := fun _ => true;
    turned_away := fun _ => None; sha256hex := fun s => s; toKey := fun s => "bull:bulk-issuance:" +:+ s;
    capacity := 2; waitMs := 300000 |}.
  intros _. lia.
Defined.

Definition numbered : UuidSource.
Proof. refine {| uuid := pretty |}. Defined.

Lemma quiet_collision_free : @Collision_free quiet.
Proof. split; [by intros x y|]. intros x y H. by apply (Json.app_inv_str "bull:bulk-issuance:"). Defined.

Definition idle_world : world := World (Shared ∅ ∅ ∅) 0 0 0 None None.

Example offer_runs_in_quiet_environment :
  (@offer quiet numbered Z (gets clock) idle_world).1 = Ok 9.
Proof. vm_compute. reflexivity. Qed.

Example row_key_identity_witness :
  @rowKey quiet " Org" "FILE" "Row-1" = @rowKey quiet "org" "file" "row-1 " <->
  normalize " Org" = normalize "org" /\ normalize "FILE" = normalize "file" /\ normalize "Row-1" = normalize "row-1 ".
Proof. apply (@row_key_identity quiet quiet_collision_free). Defined.

(** A row whose offer was dispatched and that then failed. *)
Definition failing_row : eff world bool :=
  _ ← modify mark_dispatched; throw (js_error "email not sent").

Definition after_failure : world :=
  (@guardedRow quiet numbered "org" "file" "row" failing_row idle_world).2.

Example row_guard_outcome_witness :
  let key := @rowKey quiet "org" "file" "row" in
  let owner := @uuid numbered 0 in
  (Throw (js_error "email not sent") <> Ok true /\ Throw (js_error "email not sent") <> Ok false /\
     forall operation', @guardedRow quiet numbered "org" "file" "row" operation' idle_world
       = (Throw (js_error "email not sent"), after_failure)) \/
  exists w1 r1 w2, failing_row w1 = (r1, w2) /\ guards (redis w1) !! key = Some owner /\ bulk w1 = Some false /\
    ((r1 = Ok true \/ bulk w2 <> Some true) -> @eval_error quiet (ticks w2) = None ->
       Throw (js_error "email not sent") = r1 /\ guards (redis after_failure) !! key = None) /\
    (r1 <> Ok true -> bulk w2 = Some true ->
       Throw (js_error "email not sent") = r1 /\ guards (redis after_failure) !! key = Some owner).
Proof.
  apply (@row_guard_outcome quiet numbered "org" "file" "row" failing_row idle_world);
    [by intros k s key own H|reflexivity|vm_compute; reflexivity].
Defined.

Example row_guard_excludes_witness :
  exists e w', forall operation,
    @guardedRow quiet numbered " ORG" "File" "row " operation after_failure = (Throw e, w').
Proof.
  eapply (@row_guard_excludes quiet numbered "org" "file" "row" " ORG" "File" "row " after_failure);
    [by intros k s key own H|vm_compute; reflexivity|reflexivity..].
Defined.

Example assert_retryable_exact_witness :
  ((exists id, In id ["x"; "row"] /\ held (redis after_failure) (@rowKey quiet "org" "file" id)) ->
     exists e w', @assertRetryable quiet "org" "file" ["x"; "row"] after_failure = (Throw e, w')) /\
  ((forall k s, @others quiet k s = s) -> (forall k, @eval_error quiet k = None) ->
     (forall id, In id ["x"; "row"] -> ~ held (redis after_failure) (@rowKey quiet "org" "file" id)) ->
     exists w', @assertRetryable quiet "org" "file" ["x"; "row"] after_failure = (Ok tt, w')).
Proof. apply (@assert_retryable_exact quiet "org" "file" ["x"; "row"] after_failure). by intros k s key own H. Defined.

Example batch_completed_once_witness :
  exists w', @complete_rows quiet "B1" 2 ["r1"; "R1 "; "r2"; "r2"] idle_world =
    (Ok (if decide (2 <= Z.of_nat (size (list_to_set (map normalize ["r1"; "R1 "; "r2"; "r2"]) : gset string)))
         then 1%nat else 0%nat), w').
Proof.
  apply (@batch_completed_once quiet "B1" 2 ["r1"; "R1 "; "r2"; "r2"] idle_world); [|reflexivity..].
  split_and!; [discriminate| |lia|vm_compute; discriminate]. repeat constructor; discriminate.
Defined.
End Coordinator.
