(* ===== verification/IssuanceData.v ===== *)
(** * Bulk issuance: data

    The rows of an uploaded file, the jobs made of them, the state the workers share and
    the parties they call.  A row is issued by a job in steps; between two steps other
    jobs, on this worker or another, run.  Organizations, agents, schemas and credential
    definitions do not change here. *)

From S2P Require Import Prelude Js Table IssuanceCoordinator Interleaving.

Open Scope Z_scope.

Inductive FileUploadStatus := started | completed | interrupted | retry | partially_completed.
#[export] Instance file_status_eq_dec : EqDecision FileUploadStatus.
Proof. solve_decision. Defined.

Inductive SchemaType := INDY | W3C_Schema.
#[export] Instance schema_type_eq_dec : EqDecision SchemaType.
Proof. solve_decision. Defined.

(** ** Rows

    Nullable columns are options; dates and the users who made the change are left out. *)

Record file_upload := FileUpload {
  f_id : string;
  f_name : option string;
  f_status : FileUploadStatus;
  f_orgId : option string;
  f_credential_type : option SchemaType;
  f_templateId : option string;
}.

Record file_data := FileData {
  fd_id : string;
  referenceId : option string;
  isError : bool;
  fd_error : option string;
  fileUploadId : string;
  schemaId : string;
  credDefId : string;
  status : bool;
  credential_data : option Json.value;
  credential_type : option SchemaType;
}.

(** What is kept of a file that was read: [data] of its [fileData] *)
Record cached_file := Cached {
  c_fileName : string;
  c_credentialType : option SchemaType;
  c_schemaLedgerId : string;
  c_credentialDefinitionId : string;
  c_data : option (list Json.value);
}.

(** What the details of a client, of a payload and of a job share *)
Record branding := Branding {
  organizationLogoUrl : option string;
  platformName : option string;
  certificate : option string;
  vc_size : option string;
  orientation : option string;
  height : option string;
  width : option string;
}.

Record IClientDetails := Client {
  clientId : string;
  isSelectiveIssuance : bool;
  client_branding : branding;
}.

Record BulkPayloadDetails := Details {
  b_clientId : string;
  b_orgId : string;
  b_requestId : option string;
  b_isRetry : bool;
  b_isValidateSchema : bool;
  b_branding : branding;
}.

Record IQueuePayload := Job {
  id : string;
  jobId : string;
  cacheId : option string;
  job_clientId : string;
  job_referenceId : option string;
  job_fileUploadId : string;
  job_schemaLedgerId : string;
  job_credentialDefinitionId : string;
  job_status : bool;
  job_credential_data : option Json.value;
  orgId : string;
  credentialType : option SchemaType;
  totalJobs : Z;
  isRetry : bool;
  isValidateSchema : bool;
  isLastData : bool;
  job_branding : branding;
}.

Record OrgAgent := Agent {
  g_orgId : string;
  g_orgDid : option string;
  g_agentEndPoint : string;
  g_organisation : option (string * option string);   (* name and logo *)
}.

Record schema_row := Schema { schemaLedgerId : string; schema_name : string; attributes : string }.
Record credential_definition := CredDef { credentialDefinitionId : string; cd_schemaLedgerId : string }.

(** ** Other parties *)

Inductive call :=
  | CreateOffer (payload : option Json.value) (url org : string)
  | StoreObject (invitationUrl : option Json.value)
  | SchemaDetails (ids : list string)
  | HttpGet (url : string)
  | QrCode (url : string)
  | SendEmail (from to subject link qr : string)
  | UpdateThread (thread : string) (schema : option string)
  | Import (file org : string)
  | Emit (event file : string).

(** A template as the ledger service answers it *)
Record template := Template { t_orgId : option string; t_schemaLedgerId : option string; t_publisherDid : option string }.

(** What the other parties answer to the last call, given all calls so far.  [on_import]
    is what [uploadCSVTemplate] makes of a file. *)
Class Agents := {
  on_offer : list call -> result (option Json.value);
  on_store : list call -> result string;
  on_http : list call -> result bool;            (* whether there is a response *)
  on_qr : list call -> result string;
  on_email : list call -> result bool;
  on_thread : list call -> result unit;
  on_schemas : list call -> result (option (list template));
  on_import : list call -> result cached_file;
}.

(** Whether a query of the database or the cache fails, by step, and whether it was
    applied nevertheless *)
Class Storage := {
  db_error : nat -> option exn;
  db_applied : nat -> bool;
}.

Class Deployment := {
  org_agents : list OrgAgent;
  organisations : list (string * string);        (* identifier and name *)
  schemas : list schema_row;
  credential_definitions : list credential_definition;
  invitation_dids : list (string * string);      (* organization and invitation DID, oldest first *)
  platform_config : option string;               (* [emailFrom] *)
  PLATFORM_NAME : option string;
  DEEPLINK_DOMAIN : option string;
}.

(** [randomUUID] and the identifiers of new rows: the value that run [t] draws [n]-th of
    all is drawn only once, and is written in lower case. *)
Class RunUuid := {
  run_uuid : nat -> nat -> string;
  run_uuid_inj : forall t n t' n', run_uuid t n = run_uuid t' n' -> t = t' /\ n = n';
  run_uuid_nonempty : forall t n, run_uuid t n <> "";
  run_uuid_normal : forall t n, Coordinator.normalize (run_uuid t n) = run_uuid t n;
}.

(** A column of type [uuid] is compared without regard to case. *)
Definition same_uuid (a b : string) : bool := String.eqb (Str.toLowerCase a) (Str.toLowerCase b).

(** ** The state

    [contexts] has the [bulkContext] of each run that issues a row: its [dispatched] flag
    and, as history, the row and the owner of its guard.  [dispatched] is history too: the
    rows for which an offer was requested, and the owner of the guard at that moment. *)

Definition identity : Type := string * string * string.   (* organization, file and row *)

Record bulk_context := Context { was_dispatched : bool; ctx_row : identity; ctx_owner : string }.

Record world := World {
  redis : Coordinator.shared;
  clock : Z;
  ticks : nat;
  contexts : gmap nat bulk_context;
  files : list file_upload;
  rows : list file_data;
  cache : gmap string cached_file;
  background : list (list file_data * BulkPayloadDetails);   (* started, not awaited *)
  queue : list IQueuePayload;
  reported : gset string;                                    (* [reportedLedgerDifferences] *)
  calls : list call;
  dispatched : list (identity * string);
  drawn : nat;
}.

Definition set_redis s w := World s (clock w) (ticks w) (contexts w) (files w) (rows w) (cache w) (background w) (queue w) (reported w) (calls w) (dispatched w) (drawn w).
Definition tick extra w := World (redis w) (clock w + extra) (S (ticks w)) (contexts w) (files w) (rows w) (cache w) (background w) (queue w) (reported w) (calls w) (dispatched w) (drawn w).
Definition set_contexts c w := World (redis w) (clock w) (ticks w) c (files w) (rows w) (cache w) (background w) (queue w) (reported w) (calls w) (dispatched w) (drawn w).
Definition set_files f w := World (redis w) (clock w) (ticks w) (contexts w) f (rows w) (cache w) (background w) (queue w) (reported w) (calls w) (dispatched w) (drawn w).
Definition set_rows r w := World (redis w) (clock w) (ticks w) (contexts w) (files w) r (cache w) (background w) (queue w) (reported w) (calls w) (dispatched w) (drawn w).
Definition set_cache c w := World (redis w) (clock w) (ticks w) (contexts w) (files w) (rows w) c (background w) (queue w) (reported w) (calls w) (dispatched w) (drawn w).
Definition spawn rs d w := World (redis w) (clock w) (ticks w) (contexts w) (files w) (rows w) (cache w) (background w ++ [(rs, d)]) (queue w) (reported w) (calls w) (dispatched w) (drawn w).
Definition enqueue js w := World (redis w) (clock w) (ticks w) (contexts w) (files w) (rows w) (cache w) (background w) (queue w ++ js) (reported w) (calls w) (dispatched w) (drawn w).
Definition set_reported s w := World (redis w) (clock w) (ticks w) (contexts w) (files w) (rows w) (cache w) (background w) (queue w) s (calls w) (dispatched w) (drawn w).
Definition called c w := World (redis w) (clock w) (ticks w) (contexts w) (files w) (rows w) (cache w) (background w) (queue w) (reported w) (calls w ++ [c]) (dispatched w) (drawn w).
Definition note_dispatch x own w := World (redis w) (clock w) (ticks w) (contexts w) (files w) (rows w) (cache w) (background w) (queue w) (reported w) (calls w) ((x, own) :: dispatched w) (drawn w).
Definition set_drawn n w := World (redis w) (clock w) (ticks w) (contexts w) (files w) (rows w) (cache w) (background w) (queue w) (reported w) (calls w) (dispatched w) n.

(** ** Steps *)

Section steps.
Context {env : Coordinator.Env} {ag : Agents} {st : Storage} {ids : RunUuid}.
Variable run : nat.

(** Every step takes time. *)
Definition step {A} (m : eff world A) : prog world A := act (fun w =>
  let (r, w') := m w in (r, tick (Coordinator.drift (ticks w)) w')).

(** A query: when it fails, it may or may not have been applied. *)
Definition query {A} (m : eff world A) : prog world A := step (fun w =>
  match db_error (ticks w) with
  | Some e => (Throw e, if db_applied (ticks w) then (m w).2 else w)
  | None => m w
  end).

(** A call of another party *)
Definition ask {A} (answer : list call -> result A) (c : call) : prog world A := step (fun w =>
  let w' := called c w in (answer (calls w'), w')).

Definition randomUUID : prog world string := step (fun w => (Ok (run_uuid run (drawn w)), set_drawn (S (drawn w)) w)).
End steps.
