(* ===== verification/IssuanceWork.v ===== *)
(** * The issuance work coordinator, in steps

    [IssuanceCoordinator] runs a call of [issuance-work.coordinator.ts] against arbitrary
    behaviour of the other replicas.  Here the same calls are cut at every [await], so
    that many of them run interleaved on one state.  The queries of the repository follow. *)

From S2P Require Import Prelude Js IssuanceQueue IssuanceCoordinator Interleaving IssuanceData Table.

Open Scope Z_scope.

Section work.
Context {env : Coordinator.Env} {ids : RunUuid}.
Variable run : nat.

Notation prog := (prog world).

(** [queue.client.eval(...)]: a failing command may or may not have been applied. *)
Definition eval {A} (script : Z -> Coordinator.shared -> A * Coordinator.shared) : prog A := step (fun w =>
  let k := ticks w in
  let '(a, s') := script (Coordinator.redis_time k) (redis w) in
  match Coordinator.eval_error k with
  | Some e => (Throw e, if Coordinator.eval_applied k then set_redis s' w else w)
  | None => (Ok a, set_redis s' w)
  end).

Definition performance_now : prog Z := step (gets clock).
Definition sleep (delay : Z) : prog unit := step (fun w => (Ok tt, tick delay w)).
Definition getContext : prog (option bulk_context) := step (gets (fun w => contexts w !! run)).

(** [IssuanceAdmissionQueue.run]; the slot itself is [IssuanceQueue]'s. *)
Definition queue_run {A} (operation : prog A) (deadline : Z) : prog A :=
  now ← performance_now;
  if deadline <=? now then raise AdmissionQueue.timeoutError else
  _ ← step (fun w => (match Coordinator.turned_away (ticks w) with Some e => Throw e | None => Ok tt end, w));
  now' ← performance_now;
  if deadline <=? now' then raise AdmissionQueue.timeoutError else operation.

(** ** Offers *)

Definition wait_error : exn := http_exn ServiceUnavailableException "Issuance capacity wait exceeded; no offer was dispatched".

Definition checkWaiting (deadline : Z) : prog unit :=
  now ← performance_now;
  if deadline <=? now then raise wait_error else mret tt.

(** The [while (!acquired)] loop; every turn sleeps at least a millisecond, so that the
    fuel is not exhausted before the deadline. *)
Fixpoint acquire_loop (fuel : nat) (deadline : Z) (owner : string) (retryDelay : Z) : prog unit :=
  match fuel with
  | O => raise Coordinator.no_fuel
  | S fuel' =>
      _ ← checkWaiting deadline;
      result ← eval (Coordinator.on_hash (fun ms => Permits.ACQUIRE ms Coordinator.capacity owner Permits.RESERVATION_MS));
      if result =? -1 then raise Coordinator.inconsistent_error
      else if result =? 1 then mret tt
      else
        now ← performance_now;
        _ ← sleep (Z.min retryDelay (Z.max 1 (deadline - now)));
        acquire_loop fuel' deadline owner (Z.min 50 (retryDelay * 2))
  end.

Definition obtain_permit (deadline : Z) (owner : string) : prog unit :=
  fuel ← step (gets (fun w => S (Z.to_nat (deadline - clock w))));
  _ ← acquire_loop fuel deadline owner 1;
  _ ← checkWaiting deadline;
  activated ← eval (Coordinator.on_hash (fun ms => Permits.ACTIVATE ms owner));
  if negb (activated =? 1) then raise Coordinator.reservation_error else
  checkWaiting deadline.

(** [for (let attempt = 3 - n; ; attempt++)] *)
Fixpoint releasePermit_from (n : nat) (owner : string) : prog unit :=
  catching (_ ← eval (Coordinator.on_hash (fun _ => Permits.RELEASE owner)); mret tt)
    (fun error =>
       match n with
       | O | 1%nat => raise error
       | S n' => _ ← sleep (25 * (4 - Z.of_nat n)); releasePermit_from n' owner
       end).

Definition releasePermit (owner : string) : prog unit := releasePermit_from 3 owner.

Definition acquireAndRun {A} (operation : prog A) (deadline : Z) : prog A :=
  owner ← randomUUID run;
  finally (_ ← obtain_permit deadline owner; operation) (fun _ => releasePermit owner).

(** The rows of a file are issued outside any request context. *)
Definition withPermit {A} (operation : prog A) : prog A :=
  context ← getContext;
  let wait := match context with
    | Some _ => Coordinator.waitMs
    | None => Z.min Coordinator.waitMs Settings.ISSUANCE_INTERACTIVE_QUEUE_MS
    end in
  now ← performance_now;
  queue_run (acquireAndRun operation (now + wait)) (now + wait).

(** The flag of the context, and the history. *)
Definition mark_dispatched (w : world) : world :=
  match contexts w !! run with
  | Some c => note_dispatch (ctx_row c) (ctx_owner c) (set_contexts (<[run := Context true (ctx_row c) (ctx_owner c)]> (contexts w)) w)
  | None => w
  end.

(** The flag is set in the step in which the operation starts. *)
Definition offer {A} (operation : eff world A) : prog A :=
  withPermit (step (fun w => operation (mark_dispatched w))).

(** ** Rows *)

(** The context of [bulkContext.run] *)
Definition enter_row (x : identity) (owner : string) : prog unit :=
  step (fun w => (Ok tt, set_contexts (<[run := Context false x owner]> (contexts w)) w)).
Definition leave_row : prog bool :=
  step (fun w => (Ok (match contexts w !! run with Some c => was_dispatched c | None => false end), set_contexts (delete run (contexts w)) w)).

Definition guardedRow (orgId fileId rowId : string) (operation : prog bool) : prog bool :=
  let key := Coordinator.rowKey orgId fileId rowId in
  owner ← randomUUID run;
  acquired ← eval (fun _ => Coordinator.SET_NX key owner);
  if negb acquired then raise Coordinator.row_active_error else
  _ ← enter_row (orgId, fileId, rowId) owner;
  finally operation (fun r =>
    dispatched ← leave_row;
    let success := match r with Ok b => b | Throw _ => false end in
    if success || negb dispatched then _ ← eval (fun _ => Coordinator.RELEASE_ROW key owner); mret tt else mret tt).

Definition bulkRow (orgId fileId rowId : string) (operation : prog bool) : prog bool :=
  now ← performance_now;
  queue_run (guardedRow orgId fileId rowId operation) (now + Coordinator.waitMs).

Definition mget (keys : list string) : prog (list (option string)) :=
  eval (fun _ s => (map (fun k => Coordinator.guards s !! k) keys, s)).

(** [for (let offset = 0; offset < rowIds.length; offset += 2000)]; the number of rows
    bounds the number of slices. *)
Fixpoint assert_slices (fuel : nat) (orgId fileId : string) (rowIds : list string) : prog unit :=
  match fuel, rowIds with
  | S fuel', _ :: _ =>
      owners ← mget (map (Coordinator.rowKey orgId fileId) (firstn 2000 rowIds));
      if existsb (fun o : option string => if o then true else false) owners then raise Coordinator.uncertain_error
      else assert_slices fuel' orgId fileId (skipn 2000 rowIds)
  | _, _ => mret tt
  end.

Definition assertRetryable (orgId fileId : string) (rowIds : list string) : prog unit :=
  assert_slices (length rowIds) orgId fileId rowIds.

Definition completedRow (batchId rowId : string) (total : Z) : prog bool :=
  if String.eqb batchId "" || String.eqb rowId "" || negb (Num.isSafeInteger total) || (total <? 1)
  then raise Coordinator.metadata_error else
  let key := Coordinator.toKey ("issuance-completed-v1-" +:+ Coordinator.normalize batchId) in
  r ← eval (fun _ s =>
        let '(r, rows) := Coordinator.COMPLETE (Coordinator.normalize rowId) total (default ∅ (Coordinator.completed s !! key)) in
        (r, Coordinator.set_completed (<[key := rows]> (Coordinator.completed s)) s));
  mret (r =? 1).
End work.

(** * Files and their rows

    The queries of [src/apps/issuance/src/issuance.repository.ts] that bulk issuance makes,
    each one step. *)

Open Scope Z_scope.

Section repository.
Context {env : Coordinator.Env} {st : Storage} {ids : RunUuid} {dep : Deployment}.
Variable run : nat.

Notation prog := (prog world).

(** ** What bulk issuance only reads *)

Definition getAgentEndPoint (org : string) : prog OrgAgent :=
  agent ← query (gets (fun _ => Table.first (fun a => same_uuid (g_orgId a) org) org_agents));
  match agent with
  | Some a => mret a
  | None => raise (http_exn NotFoundException "Agent details not found")
  end.

Definition getInvitationDidByOrgId (org : string) : prog (option string) :=
  query (gets (fun _ => option_map snd (Table.first (fun i => same_uuid i.1 org) invitation_dids))).

Definition getOrganization (org : string) : prog (option string) :=
  catching (query (gets (fun _ => option_map snd (Table.first (fun o => same_uuid o.1 org) organisations))))
    (fun e => raise (http_exn InternalServerErrorException (exn_message e))).

(** A condition on [undefined] is none. *)
Definition getSchemaDetails (schemaId : option string) : prog (option schema_row) :=
  catching (query (gets (fun _ => Table.first (fun s => match schemaId with Some i => String.eqb (schemaLedgerId s) i | None => true end) schemas)))
    (fun e => raise (http_exn InternalServerErrorException (exn_message e))).

Definition getSchemaDetailsBySchemaIdentifier (schemaIdentifier : string) : prog (option schema_row) :=
  query (gets (fun _ => Table.first (fun s => String.eqb (schemaLedgerId s) schemaIdentifier) schemas)).

(** The schema of a credential definition *)
Definition getCredentialDefinitionDetails (definition : string) : prog schema_row :=
  d ← query (gets (fun _ => Table.first (fun d => String.eqb (credentialDefinitionId d) definition) credential_definitions));
  match d with
  | None => raise (http_exn NotFoundException ("Credential definition not found for ID: " +:+ definition))
  | Some d =>
      s ← getSchemaDetailsBySchemaIdentifier (cd_schemaLedgerId d);
      match s with
      | Some s => mret s
      | None => raise (http_exn NotFoundException ("Schema not found for credential definition ID: " +:+ definition))
      end
  end.

Definition getPlatformConfigDetails : prog (option string) := query (gets (fun _ => platform_config)).

(** ** Files *)

(** The payload's [status] and, of a new file, the rest *)
Definition saveFileUploadDetails (name : string) (status : FileUploadStatus) (org : string) (type : option SchemaType) (template : string) : prog file_upload :=
  query (fun w =>
    let f := FileUpload (run_uuid run (drawn w)) (Some name) status (Some org) type (Some template) in
    (Ok f, set_files (files w ++ [f])%list (set_drawn (S (drawn w)) w))).

Definition with_status (s : FileUploadStatus) (f : file_upload) : file_upload :=
  FileUpload (f_id f) (f_name f) s (f_orgId f) (f_credential_type f) (f_templateId f).

Definition file_is (fileId : string) (f : file_upload) : bool := same_uuid (f_id f) fileId.

Definition updateFileUploadDetails (fileId : string) (status : FileUploadStatus) : prog unit :=
  query (fun w =>
    if existsb (file_is fileId) (files w) then (Ok tt, set_files (Table.update_where (file_is fileId) (with_status status) (files w)) w)
    else (Throw prisma_missing, w)).

Definition interruptible (fileId org : string) (f : file_upload) : bool :=
  file_is fileId f && (match f_orgId f with Some o => same_uuid o org | None => false end) && bool_decide (f_status f = started \/ f_status f = retry).

Definition interruptFileUpload (fileId org : string) : prog bool :=
  query (fun w =>
    (Ok (existsb (interruptible fileId org) (files w)), set_files (Table.update_where (interruptible fileId org) (with_status interrupted) (files w)) w)).

Definition getFileDetailsById (fileId : string) : prog (option file_upload) :=
  query (gets (fun w => Table.first (file_is fileId) (files w))).

Definition getFileUploadDataByOrgId (org : string) : prog (list file_upload) :=
  query (gets (fun w => List.filter (fun f => match f_orgId f with Some o => same_uuid o org | None => false end) (files w))).

(** ** Rows *)

Definition foreign_key : exn := Exn PrismaError "Foreign key constraint failed" None (Some "P2003").


Definition row_of (fileId : string) (r : file_data) : bool := same_uuid (fileUploadId r) fileId.
Definition row_is (rowId : string) (r : file_data) : bool := same_uuid (fd_id r) rowId.
Definition failed_row (r : file_data) : bool := isError r || negb (status r).

Definition countErrorsForFile (fileId : string) : prog nat :=
  query (gets (fun w => length (List.filter (fun r => row_of fileId r && failed_row r) (rows w)))).

Definition getFileDetails (fileId : string) : prog (list file_data) :=
  query (gets (fun w => List.filter (row_of fileId) (rows w))).

Definition getFailedCredentials (fileId : string) : prog (list file_data) :=
  query (gets (fun w => List.filter (fun r => row_of fileId r && failed_row r) (rows w))).

(** The [status] of the row, if it belongs to the file and the file to the organization *)
Definition getFileDataForProcessing (rowId fileId org : string) : prog (option bool) :=
  query (gets (fun w => option_map status (Table.first (fun r => row_is rowId r && row_of fileId r &&
    existsb (fun f => file_is (fileUploadId r) f && match f_orgId f with Some o => same_uuid o org | None => false end) (files w)) (rows w)))).

Definition saveFileDetails (data : Json.value) (schema definition file : string) (type : option SchemaType) : prog unit :=
  query (fun w =>
    if existsb (file_is file) (files w) then
      let r := FileData (run_uuid run (drawn w)) None false None file schema definition false (Some data) type in
      (Ok tt, set_rows (rows w ++ [r])%list (set_drawn (S (drawn w)) w))
    else (Throw foreign_key, w)).

Definition record_outcome (error : option string) (reference : option string) (file : string) (r : file_data) : file_data :=
  FileData (fd_id r) reference (if error then true else false) (Some (default "" error)) file (schemaId r) (credDefId r) (status r) (credential_data r) (credential_type r).

(** [error] is the text recorded when the row failed. *)
Definition updateFileUploadData (rowId file : string) (error reference : option string) : prog unit :=
  if String.eqb rowId "" then raise (js_error (default "" error)) else
  query (fun w =>
    if existsb (row_is rowId) (rows w) && negb (existsb (file_is file) (files w)) then (Throw foreign_key, w)
    else if existsb (row_is rowId) (rows w) then (Ok tt, set_rows (Table.update_where (row_is rowId) (record_outcome error reference file) (rows w)) w)
    else (Throw prisma_missing, w)).

Definition mark_issued (r : file_data) : file_data :=
  FileData (fd_id r) (referenceId r) (isError r) (fd_error r) (fileUploadId r) (schemaId r) (credDefId r) true None (credential_type r).

Definition deleteFileDataByJobId (rowId : string) : prog unit :=
  if String.eqb rowId "" then mret tt else
  query (fun w =>
    if existsb (row_is rowId) (rows w) then (Ok tt, set_rows (Table.update_where (row_is rowId) mark_issued (rows w)) w)
    else (Throw prisma_missing, w)).

(** One transaction: the rows of the files listed, then the organization's files, none of
    which may have rows left. *)
Definition deleteFileUploadData (fileIds : list string) (org : string) : prog unit :=
  query (fun w =>
    let rows' := List.filter (fun r => negb (existsb (fun f => row_of f r) fileIds)) (rows w) in
    let of_org f := match f_orgId f with Some o => same_uuid o org | None => false end in
    if existsb (fun f => of_org f && existsb (row_of (f_id f)) rows') (files w)
    then (Throw foreign_key, w)
    else (Ok tt, set_files (List.filter (fun f => negb (of_org f)) (files w)) (set_rows rows' w))).
End repository.
