(* ===== verification/CredentialDelivery.v ===== *)
(** * Out-of-band offers

    [outOfBandCredentialOffer] and [sendEmailForCredentialOffer] of
    [src/apps/issuance/src/issuance.service.ts]: an offer is made at the agent, its link
    stored, and sent by e-mail.  The payload is the object the callers pass; the text of
    the e-mail is not modelled. *)

From S2P Require Import Prelude Js Table JsonParse CommonUtils CastHelper IssuanceCoordinator AttributeValidation Interleaving IssuanceData IssuanceWork.

Open Scope Z_scope.

Definition W3C_SCHEMA_URL : string := "https://www.w3.org/2018/credentials/v1".

Definition TypeError (what : string) : exn := js_error ("Cannot read properties of undefined (reading '" +:+ what +:+ "')").

(** A property that must be there to be read further *)
Definition required (k : string) (v : Json.value) (reading : string) : result Json.value :=
  match Json.get k v with Some x => Ok x | None => Throw (TypeError reading) end.

(** [a || b] *)
Definition or_else (a b : option Json.value) : option Json.value := if CastHelper.truthy a then a else b.

Definition elements (v : option Json.value) (reading : string) : result (list Json.value) :=
  match v with Some (Json.JArr l) => Ok l | _ => Throw (TypeError reading) end.

(** ** Checks of a payload *)

(** [attributes.find((attribute) => attribute.name === schemaAttribute.attributeName)?.value] *)
Definition value_for (schemaAttribute : Json.value) (given : list Json.value) : option Json.value :=
  let same a := match Json.get "name" a, Json.get "attributeName" schemaAttribute with
    | Some (Json.JStr x), Some (Json.JStr y) => String.eqb x y
    | None, None => true
    | _, _ => false
    end in
  Table.first same given ≫= Json.get "value".

Definition required_errors (attributesArray : list Json.value) (prefix : string) (given : list Json.value) : list string :=
  concat (imap (fun i a =>
    if CastHelper.truthy (Json.get "isRequired" a) && negb (CastHelper.truthy (value_for a given))
    then [prefix +:+ "attributes." +:+ pretty i +:+ ".Attribute " +:+ template_value (Json.get "attributeName" a) +:+ " is required"] else []) attributesArray).

(** The attributes of an Indy payload, its own and those of each of its offers *)
Definition indy_checks (attributesArray : list Json.value) (attributes credentialOffer : option Json.value) : result unit :=
  _ ← (match attributes with
       | Some (Json.JArr given) =>
           let attrError := required_errors attributesArray "" given in
           if bool_decide (given <> []) && bool_decide (attrError <> []) then Throw (bad_request (String.concat "," attrError)) else Ok tt
       | _ => Ok tt
       end);
  match credentialOffer with
  | Some (Json.JArr offers) =>
      given ← mapM (fun o => if bool_decide (attributesArray = []) then Ok [] else elements (Json.get "attributes" o) "find") offers;
      let credefError := concat (imap (fun index l => required_errors attributesArray ("credentialOffer." +:+ pretty index +:+ ".") l) given) in
      if bool_decide (credefError <> []) then Throw (bad_request (String.concat "," credefError)) else Ok tt
  | _ => Ok tt
  end.

(** [JSON.parse] of the attributes of a template *)
Definition parse_attributes (text : string) : result Json.value :=
  match JsonParse.parse text with Some v => Ok v | None => Throw (js_error "Unexpected token in JSON") end.

Definition schema_attribute (a : Json.value) : ISchemaAttributes :=
  SchemaAttribute (template_value (Json.get "attributeName" a)) (template_value (Json.get "schemaDataType" a)) (CastHelper.truthy (Json.get "isRequired" a)).

(** [validateAndUpdateIssuanceDates] of [cast.helper.ts] on the offers themselves *)
Definition issuance_date (offer : Json.value) : result string :=
  c ← required "credential" offer "issuanceDate";
  match Json.get "issuanceDate" c with Some (Json.JStr s) => Ok s | _ => Throw (TypeError "split") end.

Definition set_property (k : string) (v o : Json.value) : Json.value :=
  match o with Json.JObj fs => Json.JObj (Json.set_field k v fs) | _ => o end.

Definition redate (offer : Json.value) (date : string) : Json.value :=
  match Json.get "credential" offer with
  | Some c => set_property "credential" (set_property "issuanceDate" (Json.JStr date) c) offer
  | None => offer
  end.

Definition update_offers (reading : nat -> Z) (credentialOffer : option Json.value) : result (list Json.value) :=
  offers ← elements credentialOffer "map";
  dates ← mapM issuance_date offers;
  Ok (zip_with redate offers (validateAndUpdateIssuanceDates reading dates)).

Section delivery.
Context {env : Coordinator.Env} {ag : Agents} {st : Storage} {ids : RunUuid} {dep : Deployment}.
Variable run : nat.

Notation prog := (prog world).

(** The exception that replaces the error of another party *)
Definition nats_exn (e : exn) : exn := Exn HttpException (exn_message e) None None.

Definition nats_send {A} (answer : list call -> result A) (c : call) : eff world A := fun w =>
  let w' := called c w in
  (match answer (calls w') with Ok a => Ok a | Throw e => Throw (nats_exn e) end, w').
Definition natsCall {A} (answer : list call -> result A) (c : call) : prog A := step (nats_send answer c).

(** ** Differences of ledgers, only reported *)

Definition second_context (offer : Json.value) : option string :=
  match Json.get "credential" offer ≫= Json.get "@context" with
  | Some (Json.JArr (_ :: c :: _)) => Some (template_value (Some c))
  | _ => None
  end.

Definition template_ids (offers : list Json.value) : list string := fold_left (fun acc s => add_name s acc) (omap second_context offers) [].

Definition difference_key (agent : OrgAgent) (t : template) (issuerNamespace : string) : string :=
  g_orgId agent +:+ "|" +:+ template_str (t_schemaLedgerId t) +:+ "|" +:+ issuerNamespace.

Definition report_template (agent : OrgAgent) (issuerNamespace : string) (seen : gset string) (t : template) : gset string :=
  let templateNamespace := didLedgerNamespace (t_publisherDid t) in
  if negb (bool_decide (t_orgId t = Some (g_orgId agent))) || negb (truthy_str templateNamespace)
     || bool_decide (templateNamespace = Some issuerNamespace)
  then seen else {[difference_key agent t issuerNamespace]} ∪ seen.

Definition reportW3CLedgerDifferences (agent : OrgAgent) (offers : list Json.value) : prog unit :=
  let issuerNamespace := didLedgerNamespace (g_orgDid agent) in
  let templateIds := template_ids offers in
  if negb (truthy_str issuerNamespace) || bool_decide (templateIds = []) then mret tt else
  templates ← catching (r ← natsCall on_schemas (SchemaDetails templateIds); mret (default [] r)) (fun _ => mret []);
  step (modify (fun w => set_reported (fold_left (report_template agent (default "" issuerNamespace)) templates (reported w)) w)).

(** ** The parties that are asked *)

Definition getW3CSchemaAttributes (schemaUrl : option string) : prog Json.value :=
  schemaRequest ← ask on_http (HttpGet (template_str schemaUrl));
  if negb schemaRequest then raise (http_exn NotFoundException "Error while resolving W3C schema") else
  details ← getSchemaDetails schemaUrl;
  match details with
  | None => raise (http_exn NotFoundException "Schema records not found")
  | Some s => lifted (parse_attributes (attributes s))
  end.

Definition storeIssuanceObjectReturnUrl (storeObj : option Json.value) : prog string := natsCall on_store (StoreObject storeObj).

(** The offer itself: the only call that needs a permit *)
Definition _outOfBandCredentialOffer (payload : option Json.value) (url org : string) : prog (option Json.value) :=
  offer run (nats_send on_offer (CreateOffer payload url org)).

Definition updateSchemaIdByThreadId (thread : string) (schema : option string) : prog unit := ask on_thread (UpdateThread thread schema).

(** ** One offer *)

Record delivery := Delivery {
  d_payload : Json.value;                              (* [outOfBandCredential] *)
  d_organisation : option (string * option string);
  d_url : string;
  d_orgId : string;
  d_orgName : string;
  d_platformName : option string;
  d_iterator : option Json.value;
  d_emailId : string;
  d_index : nat;
}.

Definition payload_type (p : Json.value) : option string := Json.as_str (Json.get "credentialType" p).

(** What both kinds of payload have besides the protocol and the credential *)
Definition offer_common (d : delivery) (autoAccept : Json.value) (invitationDid : option string) : list (string * Json.value) :=
  let p := d_payload d in
  let logo := match d_organisation d with Some (_, Some l) => Some (Json.JStr l) | _ => None end in
  (("autoAcceptCredential", autoAccept) :: Json.opt_field "comment" (Json.get "comment" p)
   ++ Json.opt_field "goalCode" (or_else (Json.get "goalCode" p) None)
   ++ Json.opt_field "parentThreadId" (or_else (Json.get "parentThreadId" p) None)
   ++ Json.opt_field "willConfirm" (or_else (Json.get "willConfirm" p) None)
   ++ Json.opt_field "label" (option_map (fun o => Json.JStr o.1) (d_organisation d))
   ++ Json.opt_field "imageUrl" (or_else logo (Json.get "imageUrl" p))
   ++ Json.opt_field "invitationDid" (or_else (option_map Json.JStr invitationDid) None))%list.

Definition without_required (a : Json.value) : Json.value :=
  match a with Json.JObj fs => Json.JObj (List.filter (fun f => negb (String.eqb "isRequired" f.1)) fs) | _ => Json.JObj [] end.

Definition indy_offer (d : delivery) (invitationDid : option string) : result Json.value :=
  let p := d_payload d in
  attributes ← (match or_else (Json.get "attributes" p) None with
                | Some a => Ok a
                | None => i ← (match d_iterator d with Some i => Ok i | None => Throw (TypeError "attributes") end);
                          l ← elements (Json.get "attributes" i) "map"; Ok (Json.JArr (map without_required l))
                end);
  Ok (Json.JObj (("protocolVersion", default (Json.JStr "v1") (or_else (Json.get "protocolVersion" p) None))
    :: ("credentialFormats", Json.JObj [("indy", Json.JObj (("attributes", attributes) :: Json.opt_field "credentialDefinitionId" (Json.get "credentialDefinitionId" p)))])
    :: offer_common d (default (Json.JStr "always") (or_else (Json.get "autoAcceptCredential" p) None)) invitationDid)).

(** The offer and its credential *)
Definition jsonld_offer (d : delivery) (invitationDid : option string) : result (Json.value * Json.value) :=
  i ← (match d_iterator d with Some i => Ok i | None => Throw (TypeError "credential") end);
  c ← required "credential" i "credentialSubject";
  Ok (Json.JObj (("protocolVersion", Json.JStr "v2")
    :: ("credentialFormats", Json.JObj [("jsonld", Json.JObj (("credential", c) :: Json.opt_field "options" (Json.get "options" i)))])
    :: offer_common d (Json.JStr "always") invitationDid), c).

(** [['@context']?.[1]] *)
Definition schema_server_url (credential : Json.value) : option string :=
  match Json.get "@context" credential with
  | Some (Json.JArr (_ :: c :: _)) => Some (template_value (Some c))
  | Some (Json.JStr s) => option_map (fun c => String c "") (String.get 1 s)
  | _ => None
  end.

Definition credential_attributes (credential : Json.value) : result (list (string * Json.value)) :=
  match Json.get "credentialSubject" credential with
  | Some (Json.JObj fs) => Ok (List.filter (fun f => negb (String.eqb "id" f.1)) fs)
  | Some Json.JNull | None => Throw (TypeError "id")
  | Some _ => Ok []
  end.

(** The template that the credential's contexts name besides the standard one, when the
    standard one is among them *)
Definition named_schema (credential : option Json.value) : result (option (option string)) :=
  match credential ≫= Json.get "@context" with
  | Some (Json.JArr l) =>
      let is_standard c := match c with Json.JStr s => String.eqb s W3C_SCHEMA_URL | _ => false end in
      if existsb is_standard l then Ok (Some (option_map (fun c => template_value (Some c)) (head (List.filter (fun c => negb (is_standard c)) l)))) else Ok None
  | Some (Json.JStr s) => if Str.contains W3C_SCHEMA_URL s then Throw (js_error "w3cSchemaId.filter is not a function") else Ok None
  | _ => Ok None
  end.

(** The payload for the agent and the credential in it *)
Definition offer_payload (d : delivery) (invitationDid : option string) (isValidateSchema : bool) : prog (option Json.value * option Json.value) :=
  let type := payload_type (d_payload d) in
  if bool_decide (type = Some "indy") then p ← lifted (indy_offer d invitationDid); mret (Some p, None)
  else if bool_decide (type = Some "jsonld") then
    pc ← lifted (jsonld_offer d invitationDid);
    filteredIssuanceAttributes ← lifted (credential_attributes pc.2);
    schemaUrlAttributes ← getW3CSchemaAttributes (schema_server_url pc.2);
    _ ← (if isValidateSchema
         then l ← lifted (elements (Some schemaUrlAttributes) "map"); lifted (validateW3CSchemaAttributes filteredIssuanceAttributes (map schema_attribute l))
         else mret tt);
    mret (Some pc.1, Some pc.2)
  else mret (None, None).

(** [error.response.message = ...]: only the HTTP exceptions have a response; that of
    another party's failure has no message. *)
Definition positioned (e : exn) (iterationNo : nat) : exn :=
  let at_position := " at position " +:+ pretty iterationNo in
  match exn_class e with
  | RpcException | PlainError | PrismaError => TypeError "message"
  | HttpException => Exn HttpException ("undefined" +:+ at_position) (exn_status e) (exn_code e)
  | k => Exn k (exn_message e +:+ at_position) (exn_status e) (exn_code e)
  end.

(** After the offer: its link is stored and sent.  [Some e] is an error that is pushed. *)
Definition send_link (d : delivery) (response : option Json.value) (credential : option Json.value) : prog (option exn) :=
  let invitationUrl := response ≫= Json.get "invitationUrl" in
  shortenUrl ← storeIssuanceObjectReturnUrl invitationUrl;
  deepLinkURL ← lifted (convertUrlToDeepLinkUrl DEEPLINK_DOMAIN shortenUrl);
  if negb (CastHelper.truthy invitationUrl) then mret (Some (http_exn NotFoundException "Invitation not found")) else
  qr ← ask on_qr (QrCode shortenUrl);
  platformConfigData ← getPlatformConfigDetails;
  match platformConfigData with
  | None => mret (Some (http_exn NotFoundException "Platform config details not found"))
  | Some emailFrom =>
      let emailTo := match d_iterator d ≫= Json.get "emailId" with
        | Some Json.JNull | None => d_emailId d
        | Some v => template_value (Some v)
        end in
      let platform := if truthy_str (d_platformName d) then d_platformName d else PLATFORM_NAME in
      isEmailSent ← ask on_email (SendEmail emailFrom emailTo (template_str platform +:+ " Platform: Issuance of Your Credential") deepLinkURL qr);
      if negb isEmailSent then mret (Some (http_exn InternalServerErrorException "Unable to send email to the user")) else
      named ← lifted (named_schema credential);
      _ ← (match named, or_else (response ≫= Json.get "credentialRequestThId") None with
           | Some schema, Some thread => updateSchemaIdByThreadId (template_value (Some thread)) schema
           | _, _ => mret tt
           end);
      mret None
  end.

(** [None] for [true]; [Some e] when [e] is pushed to the errors and [false] returned *)
Definition sendEmailForCredentialOffer (d : delivery) : prog (option exn) :=
  let p := d_payload d in
  catching
    (invitationDid ← (match Json.get "isReuseConnection" p with Some (Json.JBool true) => getInvitationDidByOrgId (d_orgId d) | _ => mret None end);
     pc ← offer_payload d invitationDid (CastHelper.truthy (Json.get "isValidateSchema" p));
     response ← _outOfBandCredentialOffer pc.1 (d_url d) (d_orgId d);
     send_link d response pc.2)
    (fun e => raise (positioned e (S (d_index d)))).

(** The offers of a payload, one after the other *)
Fixpoint send_each (d : delivery) (index : nat) (offers : list Json.value) : prog (list exn) :=
  match offers with
  | [] => mret []
  | o :: offers' =>
      r ← sendEmailForCredentialOffer (Delivery (d_payload d) (d_organisation d) (d_url d) (d_orgId d) (d_orgName d) (d_platformName d) (Some o) (template_value (Json.get "emailId" o)) index);
      rs ← send_each d (S index) offers';
      mret (match r with Some e => e :: rs | None => rs end)
  end.

Definition rpc_exn (e : exn) : exn := Exn RpcException (exn_message e) (exn_status e) (exn_code e).

(** The checks of the payload, then its offers with the dates they are issued with *)
Definition checked_offers (p : Json.value) (agentDetails : OrgAgent) : prog (option Json.value) :=
  let credentialOffer := Json.get "credentialOffer" p in
  let type := payload_type p in
  if bool_decide (type = Some "jsonld") then
    offers ← step (fun w => (update_offers (fun n => Coordinator.date_now (ticks w + n)) credentialOffer, w));
    _ ← reportW3CLedgerDifferences agentDetails offers;
    mret (Some (Json.JArr offers))
  else if bool_decide (type = Some "indy") then
    schemaResponse ← getCredentialDefinitionDetails (template_value (Json.get "credentialDefinitionId" p));
    attributesArray ← lifted (if String.eqb (attributes schemaResponse) "" then Ok (Json.JArr []) else parse_attributes (attributes schemaResponse));
    l ← lifted (elements (Some attributesArray) "forEach");
    _ ← lifted (indy_checks l (Json.get "attributes" p) credentialOffer);
    mret credentialOffer
  else mret credentialOffer.

Definition outOfBandCredentialOffer (outOfBandCredential : option Json.value) (platformName : option string) : prog bool :=
  catching
    (p ← lifted (match outOfBandCredential with Some p => Ok p | None => Throw (TypeError "credentialOffer") end);
     let org := template_value (Json.get "orgId" p) in
     agentDetails ← getAgentEndPoint org;
     credentialOffer ← checked_offers p agentDetails;
     url ← lifted (getAgentUrl (g_agentEndPoint agentDetails) "create-offer-oob" None);
     organizationDetails ← getOrganization org;
     match organizationDetails with
     | None => raise (http_exn NotFoundException "organization Not Found")
     | Some name =>
         let d := Delivery p (g_organisation agentDetails) url org name platformName None
           (default "" (Json.as_str (or_else (Json.get "emailId" p) None))) 0 in
         match or_else credentialOffer None with
         | Some offers =>
             l ← lifted (elements (Some offers) "entries");
             errors ← send_each d 0 l;
             if bool_decide (errors <> []) then raise (Exn RpcException "Unable to create out-of-band credential offer" None None) else mret true
         | None => r ← sendEmailForCredentialOffer d; mret (match r with None => true | Some _ => false end)
         end
     end)
    (fun e => raise (rpc_exn e)).
End delivery.
