(* ===== verification/BulkIssuance.v ===== *)
(** * Bulk issuance

    The bulk part of [src/apps/issuance/src/issuance.service.ts] and
    [issuance.processor.ts]: rows are made of a file, queued as jobs in batches, and each
    is issued by a job under the guard of its row; failed rows are queued again.  The text
    recorded of an error is its message. *)

From S2P Require Import Prelude Js Table CastHelper IssuanceCoordinator Interleaving IssuanceData IssuanceWork CredentialDelivery.

Open Scope Z_scope.

Definition BATCH_SIZE : nat := 100.
Definition ISSUANCE_BATCH_SIZE : nat := 2000.
Definition ISSUANCE_BATCH_DELAY : Z := 60000.

(** [for (let i = 0; i < array.length; i += size) yield array.slice(i, i + size)], for a
    positive size; the length bounds the number of slices. *)
Fixpoint slices {A} (fuel size : nat) (array : list A) : list (list A) :=
  match fuel, array with
  | S fuel', _ :: _ => firstn size array :: slices fuel' size (skipn size array)
  | _, _ => []
  end.
Definition splitIntoBatches {A} (array : list A) (batchSize : nat) : list (list A) := slices (length array) batchSize array.

(** The job of a row *)
Definition job_of (d : BulkPayloadDetails) (uniqueJobId : string) (total : nat) (item : file_data) : IQueuePayload :=
  Job (fd_id item) uniqueJobId (b_requestId d) (b_clientId d) (referenceId item) (fileUploadId item) (schemaId item) (credDefId item)
    (status item) (credential_data item) (b_orgId d) (credential_type item) (Z.of_nat total) (b_isRetry d) (b_isValidateSchema d) false (b_branding d).

Definition data_fields (data : option Json.value) : list (string * Json.value) := match data with Some (Json.JObj fs) => fs | _ => [] end.

Definition email_of (j : IQueuePayload) : option Json.value := Json.field EMAIL_COLUMN (data_fields (job_credential_data j)).

Definition pretty_vc (b : branding) : Json.value :=
  let s k o := Json.opt_field k (option_map Json.JStr o) in
  Json.JObj (s "certificate" (certificate b) ++ s "size" (vc_size b) ++ s "orientation" (orientation b) ++ s "height" (height b) ++ s "width" (width b))%list.

Definition indy_payload (j : IQueuePayload) (organisation : option (string * option string)) : Json.value :=
  Json.JObj ([("credentialDefinitionId", Json.JStr (job_credentialDefinitionId j)); ("orgId", Json.JStr (orgId j))]
    ++ Json.opt_field "label" (option_map (fun o => Json.JStr o.1) organisation)
    ++ [("attributes", Json.JArr (map (fun f => Json.JObj [("name", Json.JStr f.1); ("value", f.2)])
          (List.filter (fun f => negb (String.eqb EMAIL_COLUMN f.1)) (data_fields (job_credential_data j)))))]
    ++ Json.opt_field "emailId" (email_of j)
    ++ [("credentialType", Json.JStr "indy"); ("isReuseConnection", Json.JBool true)])%list.

Section bulk.
Context {env : Coordinator.Env} {ag : Agents} {st : Storage} {ids : RunUuid} {dep : Deployment}.
Variable run : nat.

Notation prog := (prog world).

Definition emit (event file : string) : prog unit := step (modify (called (Emit event file))).

(** ** A row *)

(** The payload of a row; [None] for a type that is neither. *)
Definition row_payload (j : IQueuePayload) (agent : OrgAgent) : prog (option Json.value) :=
  match credentialType j with
  | Some INDY => mret (Some (indy_payload j (g_organisation agent)))
  | Some W3C_Schema =>
      schemaDetails ← getSchemaDetailsBySchemaIdentifier (job_schemaLedgerId j);
      match schemaDetails, job_credential_data j with
      | None, _ => raise (TypeError "name")
      | _, None => raise (TypeError "email_identifier")
      | Some s, Some _ =>
          let c := Jsonld (schema_name s) (schemaLedgerId s) (data_fields (job_credential_data j)) (g_orgDid agent) (orgId j) (Some true) in
          now ← step (gets (fun w => Coordinator.date_now (ticks w)));
          mret (Some (set_property "isValidateSchema" (Json.JBool (isValidateSchema j)) (createOobJsonldIssuancePayload c (pretty_vc (job_branding j)) now)))
      end
  | None => mret None
  end.

Definition issue_row (j : IQueuePayload) : prog unit :=
  agentDetails ← getAgentEndPoint (orgId j);
  oobIssuancepayload ← row_payload j agentDetails;
  oobCredentials ← outOfBandCredentialOffer run oobIssuancepayload (platformName (job_branding j));
  if negb (oobCredentials : bool) then raise (js_error "Credential offer or delivery did not complete") else
  deleteFileDataByJobId (id j).

Definition processBulkRow (j : IQueuePayload) : prog bool :=
  currentRow ← getFileDataForProcessing (id j) (job_fileUploadId j) (orgId j);
  match currentRow with
  | None => raise (js_error "Issuance row does not belong to the requested file and organization")
  | Some true => mret true
  | Some false =>
      error ← catching (_ ← issue_row j; mret None) (fun e => mret (Some e));
      _ ← updateFileUploadData (id j) (job_fileUploadId j) (option_map exn_message error) (Json.as_str (email_of j));
      mret (match error with None => true | Some _ => false end)
  end.

Definition completeBulkRow (j : IQueuePayload) (succeeded : bool) : prog unit :=
  isLastData ← completedRow (jobId j) (id j) (totalJobs j);
  catching
    (if (isLastData : bool) then
       errorCount ← countErrorsForFile (job_fileUploadId j);
       _ ← updateFileUploadDetails (job_fileUploadId j) (if Nat.eqb errorCount 0 then completed else partially_completed);
       if negb (isRetry j) then
         _ ← emit "bulk-issuance-process-completed" (job_fileUploadId j);
         query (modify (fun w => set_cache (delete (default "" (cacheId j)) (cache w)) w))
       else emit "bulk-issuance-process-retry-completed" (job_fileUploadId j)
     else mret tt)
    (fun e =>
       _ ← (if succeeded then emit "error-in-bulk-issuance-process" (job_fileUploadId j) else mret tt);
       raise e).

Definition processIssuanceData (j : IQueuePayload) : prog bool :=
  catching
    (succeeded ← bulkRow run (orgId j) (job_fileUploadId j) (id j) (processBulkRow j);
     _ ← completeBulkRow j succeeded;
     mret succeeded)
    (fun e =>
       _ ← catching
         (interrupted ← interruptFileUpload (job_fileUploadId j) (orgId j);
          if (interrupted : bool) then emit "error-in-bulk-issuance-process" (job_fileUploadId j) else mret tt)
         (fun _ => mret tt);
       raise e).

(** The queue's worker *)
Definition issueCredential (j : IQueuePayload) : prog unit :=
  succeeded ← processIssuanceData j;
  if (succeeded : bool) then mret tt else raise (js_error "Bulk issuance row failed; see the persisted row status").

(** ** Files *)

(** The batches from number [batchIndex] on *)
Fixpoint add_batches (d : BulkPayloadDetails) (uniqueJobId : string) (total batchIndex : nat) (batches : list (list file_data)) : prog unit :=
  match batches with
  | [] => mret tt
  | batch :: batches' =>
      _ ← query (modify (enqueue (map (job_of d uniqueJobId total) batch)));
      _ ← (if (S batchIndex * ISSUANCE_BATCH_SIZE <? total)%nat then step (fun w => (Ok tt, tick ISSUANCE_BATCH_DELAY w)) else mret tt);
      add_batches d uniqueJobId total (S batchIndex) batches'
  end.

Definition processInBatches (bulkPayload : list file_data) (d : BulkPayloadDetails) : prog unit :=
  uniqueJobId ← randomUUID run;
  add_batches d uniqueJobId (length bulkPayload) 0 (splitIntoBatches bulkPayload ISSUANCE_BATCH_SIZE).

(** The rows of a batch are saved at the same time; a failure does not stop the others. *)
Fixpoint save_all (c : cached_file) (file : string) (batch : list Json.value) : prog (option exn) :=
  match batch with
  | [] => mret None
  | element :: batch' =>
      error ← catching (_ ← saveFileDetails run element (c_schemaLedgerId c) (c_credentialDefinitionId c) file (c_credentialType c); mret None) (fun e => mret (Some e));
      error' ← save_all c file batch';
      mret (match error with Some e => Some e | None => error' end)
  end.

Definition _storeBulkPayloadInBatch (c : cached_file) (file : string) (parsedData : list Json.value) : prog unit :=
  catching
    (each (splitIntoBatches parsedData BATCH_SIZE) (fun batch =>
       error ← save_all c file batch;
       match error with Some e => raise e | None => mret tt end))
    (fun e => raise (nats_exn e)).

(** [uploadCSVTemplate]: what is made of the file is a parameter. *)
Definition uploadCSVTemplate (fileKey org : string) (requestId : option string) : prog string :=
  catching
    (_ ← getAgentEndPoint org;
     c ← ask on_import (Import fileKey org);
     newCacheKey ← randomUUID run;
     _ ← query (modify (fun w => set_cache (<[str_or requestId newCacheKey := c]> (cache w)) w));
     mret newCacheKey)
    (fun e => raise (rpc_exn e)).

Definition read_cache (key : string) : prog (option cached_file) := query (gets (fun w => cache w !! key)).

(** [new RpcException(error.response)]: only the HTTP exceptions have a response. *)
Definition response_exn (e : exn) : exn :=
  match exn_class e with
  | RpcException | PlainError | PrismaError => Exn RpcException "" None None
  | _ => rpc_exn e
  end.

(** The file that was read under the key, and its rows' data *)
Definition cached_rows (requestId : string) (client : IClientDetails) (fileKey : string) : prog (cached_file * list Json.value) :=
  cachedData ← read_cache requestId;
  match cachedData with
  | None => raise (http_exn BadRequestException "Timeout for reviewing data, re-upload your file and generate new request")
  | Some c =>
      cachedData ← (if isSelectiveIssuance client then
          _ ← query (modify (fun w => set_cache (delete requestId (cache w)) w));
          _ ← uploadCSVTemplate fileKey requestId None;
          read_cache requestId
        else mret (Some c));
      match cachedData with
      | None => raise (TypeError "fileData")
      | Some c =>
          match c_data c with
          | None => raise (http_exn BadRequestException "Cached data does not exist")
          | Some parsedData => mret (c, parsedData)
          end
      end
  end.

Definition issueBulkCredential (requestId org : string) (client : IClientDetails) (fileKey : string) (isValidateSchema : bool) : prog string :=
  if String.eqb requestId "" then raise (http_exn BadRequestException "Param requestId is missing from the request.") else
  cf ← catching
    (cp ← cached_rows requestId client fileKey;
     f ← saveFileUploadDetails run (c_fileName cp.1) started org (c_credentialType cp.1) (c_schemaLedgerId cp.1);
     mret (cp, f))
    (fun e => raise (response_exn e));
  let '((c, parsedData), csvFileDetail) := cf in
  finally
    (catching
       (_ ← _storeBulkPayloadInBatch c (f_id csvFileDetail) parsedData;
        bulkPayload ← getFileDetails (f_id csvFileDetail);
        _ ← step (modify (spawn bulkPayload (Details (clientId client) org (Some requestId) false isValidateSchema (client_branding client))));
        mret "Process initiated for bulk issuance")
       (fun e => raise (response_exn e)))
    (fun r => updateFileUploadDetails (f_id csvFileDetail) (if is_ok r then started else interrupted)).

Definition retryBulkCredential (fileId org : string) (client : IClientDetails) (isValidateSchema : bool) : prog string :=
  catching
    (fileDetails ← getFileDetailsById fileId;
     match fileDetails with
     | None => raise (http_exn BadRequestException "Credentials do not exist for retry")
     | Some _ =>
         bulkpayloadRetry ← getFailedCredentials fileId;
         if bool_decide (bulkpayloadRetry = []) then raise (http_exn BadRequestException "File details not found.") else
         _ ← assertRetryable org fileId (map fd_id bulkpayloadRetry);
         _ ← step (modify (spawn bulkpayloadRetry (Details (clientId client) org None true isValidateSchema (client_branding client))));
         mret "Process reinitiated for bulk issuance"
     end)
    (fun e => raise (rpc_exn e)).

(** The part of [deleteIssuanceRecords] that concerns files *)
Definition deleteFiles (org : string) : prog unit :=
  catching
    (fs ← getFileUploadDataByOrgId org;
     deleteFileUploadData (map f_id fs) org)
    (fun e => raise (rpc_exn e)).
End bulk.
