(* ===== verification/BulkIssuanceProofs.v ===== *)
(** * Bulk issuance: no row is offered twice

    Row jobs, repeated ones included, interleave with each other, with uploads, retries
    and deletions, and may stop anywhere; queries and Redis commands may fail with or
    without effect.  At the end: what holds of files, and a sample. *)

From S2P Require Import Prelude Js Table JsonParse CommonUtils CastHelper IssuanceQueue IssuanceCoordinator AttributeValidation Interleaving IssuanceData IssuanceWork CredentialDelivery BulkIssuance.

Open Scope Z_scope.

(** ** Identifiers *)

Notation normalize := Coordinator.normalize.

Lemma is_space_lower c : Str.is_space (Str.lower c) = Str.is_space c.
Proof. destruct c as [[] [] [] [] [] [] [] []]; reflexivity. Qed.

Lemma lower_trim_start s : Str.toLowerCase (Str.trim_start s) = Str.trim_start (Str.toLowerCase s).
Proof. induction s as [|c s IH]; [done|]. simpl. rewrite is_space_lower. by destruct (Str.is_space c). Qed.

Lemma lower_drop_end s : Str.toLowerCase (Str.drop_end Str.is_space s) = Str.drop_end Str.is_space (Str.toLowerCase s).
Proof.
  induction s as [|c s IH]; [done|]. simpl. rewrite <- IH, is_space_lower.
  destruct (Str.drop_end Str.is_space s) eqn:E; simpl; [by destruct (Str.is_space c) | done].
Qed.

Lemma same_uuid_normalize a b : same_uuid a b = true -> normalize a = normalize b.
Proof.
  unfold same_uuid, normalize, Coordinator.normalize, Str.trim. intros H%String.eqb_eq. by rewrite !lower_drop_end, !lower_trim_start, H.
Qed.

Definition norm (x : identity) : string * string * string := (normalize x.1.1, normalize x.1.2, normalize x.2).

Section proofs.
Context {env : Coordinator.Env} {ag : Agents} {st : Storage} {ids : RunUuid} {dep : Deployment}.

Definition row_key (x : identity) : string := Coordinator.rowKey x.1.1 x.1.2 x.2.

Lemma row_key_norm x y : norm x = norm y -> row_key x = row_key y.
Proof. unfold norm, row_key, Coordinator.rowKey. intros [= H1 H2 H3]. cbn [map]. by rewrite H1, H2, H3. Qed.

Definition drawn_before (w : world) (s : string) : Prop := exists t n, (n < drawn w)%nat /\ s = run_uuid t n.
Definition mine (t : nat) (s : string) : Prop := exists n, s = run_uuid t n.

Lemma mine_unique t t' s : mine t s -> mine t' s -> t = t'.
Proof. intros [n ->] [n' H]. by apply run_uuid_inj in H as [-> _]. Qed.

(** ** The invariant *)

Notation guard w x := (Coordinator.guards (redis w) !! row_key x).

(** Every row with the identifier is marked as issued. *)
Definition settled (x : identity) (w : world) : Prop := forall r, r ∈ rows w -> normalize (fd_id r) = normalize x.2 -> status r = true.

Definition is_offer (c : call) : bool := match c with CreateOffer _ _ _ => true | _ => false end.
Definition offers (w : world) : nat := length (List.filter is_offer (calls w)).

Lemma offers_called c w : offers (called c w) = (offers w + if is_offer c then 1 else 0)%nat.
Proof. unfold offers. simpl. rewrite List.filter_app, length_app. simpl. by destruct (is_offer c). Qed.

Record inv (w : world) : Prop := {
  inv_rows r : r ∈ rows w -> drawn_before w (fd_id r);
  inv_ids x own : (x, own) ∈ dispatched w -> drawn_before w (normalize x.2);
  inv_owners x own : (x, own) ∈ dispatched w -> drawn_before w own;
  inv_out x own : (x, own) ∈ dispatched w -> settled x w \/ guard w x = Some own;
  inv_once : NoDup ((fun e => norm e.1) <$> dispatched w);
  inv_offers : offers w = length (dispatched w);
}.

(** What a run promises the others *)
Record promise (t : nat) (w w' : world) : Prop := {
  pr_guards k own : Coordinator.guards (redis w) !! k = Some own -> ~ mine t own -> Coordinator.guards (redis w') !! k = Some own;
  pr_dispatched : exists extra, dispatched w' = (extra ++ dispatched w)%list /\ forall x own, (x, own) ∈ extra -> mine t own /\ guard w x = Some own;
  pr_contexts t' : t' <> t -> contexts w' !! t' = contexts w !! t';
  pr_drawn : (drawn w <= drawn w')%nat;
  pr_settled x : drawn_before w (normalize x.2) -> settled x w -> settled x w';
}.

(** Steps that no run notices: rows are kept, marked, deleted or new. *)
Record harmless (w w' : world) : Prop := {
  h_guards : Coordinator.guards (redis w') = Coordinator.guards (redis w);
  h_dispatched : dispatched w' = dispatched w;
  h_contexts : contexts w' = contexts w;
  h_offers : offers w' = offers w;
  h_drawn : (drawn w <= drawn w')%nat;
  h_rows r' : r' ∈ rows w' -> (exists r, r ∈ rows w /\ fd_id r = fd_id r' /\ (status r = true -> status r' = true)) \/
    exists t n, (drawn w <= n < drawn w')%nat /\ fd_id r' = run_uuid t n;
}.

Lemma drawn_mono w w' s : (drawn w <= drawn w')%nat -> drawn_before w s -> drawn_before w' s.
Proof. intros H (t & n & Hn & ->). exists t, n. split; [lia | done]. Qed.

Lemma harmless_settled w w' x : harmless w w' -> drawn_before w (normalize x.2) -> settled x w -> settled x w'.
Proof.
  intros [_ _ _ _ _ Hr] (t & n & Hn & Hx) Hs r' Hr' Hid. destruct (Hr r' Hr') as [(r & Hin & Hf & Ht) | (t' & n' & Hn' & Hf)].
  - apply Ht, Hs; [done | by rewrite Hf].
  - rewrite Hf, run_uuid_normal, Hx in Hid. apply run_uuid_inj in Hid as [_ ->]. lia.
Qed.

Lemma harmless_inv w w' : inv w -> harmless w w' -> inv w'.
Proof.
  intros [H1 H2 H3 H4 H5 H6] Hh. pose proof Hh as [Hg Hd _ Ho Hn Hr]. split; rewrite ?Hd, ?Hg, ?Ho; [| | | |done|done].
  - intros r' Hr'. destruct (Hr r' Hr') as [(r & Hin & Hf & _) | (t & n & Hlt & Hf)].
    + rewrite <- Hf. eapply drawn_mono; [done | by apply H1].
    + exists t, n. split; [lia | done].
  - intros x own Hx. eapply drawn_mono; [done | by eapply H2].
  - intros x own Hx. eapply drawn_mono; [done | by eapply H3].
  - intros x own Hx. destruct (H4 _ _ Hx); [left | by right]. eapply harmless_settled; [done | by eapply H2 | done].
Qed.

Lemma harmless_promise t w w' : harmless w w' -> promise t w w'.
Proof.
  intros Hh. pose proof Hh as [Hg Hd Hc _ Hn _]. split.
  - intros k own Hk _. by rewrite Hg.
  - exists []. rewrite Hd. split; [done|]. by intros x own ?%elem_of_nil.
  - intros t' _. by rewrite Hc.
  - done.
  - intros x. by apply harmless_settled.
Qed.

Lemma harmless_refl w : harmless w w.
Proof. split; [done..|]. intros r Hr. left. by exists r. Qed.

Lemma harmless_keep w w' :
  Coordinator.guards (redis w') = Coordinator.guards (redis w) -> dispatched w' = dispatched w -> contexts w' = contexts w ->
  offers w' = offers w -> (drawn w <= drawn w')%nat -> rows w' = rows w -> harmless w w'.
Proof. intros ? ? ? ? ? Hr. split; [done..|]. rewrite Hr. intros r Hin. left. by exists r. Qed.

(** *** Calm computations *)

Notation calm p := (neutral inv (fun _ => harmless) 0 (fun _ => True) p).

Lemma calm_step {A} (m : eff world A) : (forall w, inv w -> harmless w (m w).2) -> calm (step m).
Proof.
  intros H. apply neutral_act. intros w Hw _. specialize (H w Hw). destruct (m w) as [r w'].
  assert (Hh : harmless w (tick (Coordinator.drift (ticks w)) w')) by by destruct H. simpl in *. split_and!; [by eapply harmless_inv | done..].
Qed.

Lemma calm_query {A} (m : eff world A) : (forall w, inv w -> harmless w (m w).2) -> calm (query m).
Proof. intros H. apply calm_step. intros w Hw. destruct (db_error _); [destruct (db_applied _)|]; simpl; auto using harmless_refl. Qed.

Lemma calm_eval {A} (script : Z -> Coordinator.shared -> A * Coordinator.shared) :
  (forall ms s, Coordinator.guards (script ms s).2 = Coordinator.guards s) -> calm (eval script).
Proof.
  intros H. apply calm_step. intros w _. cbv zeta. specialize (H (Coordinator.redis_time (ticks w)) (redis w)).
  destruct (script _ _) as [a s']. simpl in H. destruct (Coordinator.eval_error _); [destruct (Coordinator.eval_applied _)|]; by apply harmless_keep.
Qed.

Lemma calm_read {A} (f : world -> A) : calm (query (gets f)).
Proof. apply calm_query. intros w _. apply harmless_refl. Qed.
Lemma calm_gets {A} (f : world -> A) : calm (step (gets f)).
Proof. apply calm_step. intros w _. apply harmless_refl. Qed.
Lemma harmless_called c w : is_offer c = false -> harmless w (called c w).
Proof. intros H. apply harmless_keep; try done. rewrite offers_called, H. lia. Qed.
Lemma calm_ask {A} (answer : list call -> result A) c : is_offer c = false -> calm (ask answer c).
Proof. intros H. apply calm_step. intros w _. by apply harmless_called. Qed.
Lemma calm_nats {A} (answer : list call -> result A) c : is_offer c = false -> calm (natsCall answer c).
Proof. intros H. apply calm_step. intros w _. by apply harmless_called. Qed.
Lemma calm_lifted {A} (r : result A) : calm (lifted r).
Proof. done. Qed.
Lemma calm_raise {A} e : calm (raise e : prog world A).
Proof. done. Qed.
Lemma calm_ret {A} (a : A) : calm (mret a).
Proof. done. Qed.
Lemma calm_uuid run : calm (randomUUID run).
Proof. apply calm_step. intros w _. apply harmless_keep; simpl; (done || lia). Qed.
Lemma calm_hash (f : Z -> Permits.hash -> Z * Permits.hash) : calm (eval (Coordinator.on_hash f)).
Proof. apply calm_eval. intros ms s. unfold Coordinator.on_hash. by destruct (f ms _). Qed.
Hint Resolve calm_read calm_gets calm_ask calm_nats calm_lifted calm_raise calm_ret calm_uuid calm_hash : platform.

Lemma calm_now : calm performance_now.
Proof. apply calm_gets. Qed.
Lemma calm_sleep d : calm (sleep d).
Proof. apply calm_step. intros w _. by apply harmless_keep. Qed.
Hint Resolve calm_now calm_sleep : platform.

Lemma calm_checkWaiting d : calm (checkWaiting d).
Proof. unfold checkWaiting. solve_neutral. Qed.
Hint Resolve calm_checkWaiting : platform.

Lemma calm_acquire_loop fuel d owner rd : calm (acquire_loop fuel d owner rd).
Proof. revert rd. induction fuel as [|fuel IH]; intros rd; cbn [acquire_loop]; solve_neutral; apply IH. Qed.
Hint Resolve calm_acquire_loop : platform.

Lemma calm_obtain d owner : calm (obtain_permit d owner).
Proof. unfold obtain_permit. solve_neutral. Qed.
Lemma calm_release n owner : calm (releasePermit_from n owner).
Proof. induction n as [|n IH]; cbn [releasePermit_from]; solve_neutral. Qed.
Lemma calm_completedRow b r n : calm (completedRow b r n).
Proof. unfold completedRow. case_match; [done|]. apply neutral_bind; [|intros; done]. by apply calm_eval. Qed.
Lemma calm_assert fuel org file l : calm (assert_slices fuel org file l).
Proof. revert l. induction fuel as [|fuel IH]; intros [|r l]; cbn [assert_slices]; [done..|]. apply neutral_bind; [by apply calm_eval|]. intros o. case_match; [done | apply IH]. Qed.
Hint Resolve calm_obtain calm_release calm_completedRow calm_assert : platform.

(** *** Rows *)

Lemma harmless_rows w l :
  (forall r', r' ∈ l -> exists r, r ∈ rows w /\ fd_id r = fd_id r' /\ (status r = true -> status r' = true)) -> harmless w (set_rows l w).
Proof. intros H. split; [done..|]. intros r' Hr'. left. by apply H. Qed.

Lemma harmless_update w p f : (forall r, fd_id (f r) = fd_id r /\ (status r = true -> status (f r) = true)) ->
  harmless w (set_rows (Table.update_where p f (rows w)) w).
Proof.
  intros Hf. apply harmless_rows. intros r' (r & Hr & ->)%Table.elem_of_update_where. exists r.
  destruct (Hf r). by destruct (p r).
Qed.

Lemma calm_files {A} (f : world -> result A) g : calm (query (fun w => (f w, set_files (g w) w))).
Proof. apply calm_query. intros w _. by apply harmless_keep. Qed.

Lemma calm_new_file run name s org type template : calm (saveFileUploadDetails run name s org type template).
Proof. apply calm_query. intros w _. apply harmless_keep; simpl; done || lia. Qed.
Lemma calm_set_file file s : calm (updateFileUploadDetails file s).
Proof. apply calm_query. intros w _. case_match; by apply harmless_keep. Qed.
Lemma calm_interrupt file org : calm (interruptFileUpload file org).
Proof. apply calm_files. Qed.

Lemma calm_new_row run data schema definition file type : calm (saveFileDetails run data schema definition file type).
Proof.
  apply calm_query. intros w _. case_match; [|apply harmless_refl]. split; simpl; [done..|lia|].
  intros r' [Hr' | Hr'%list_elem_of_singleton]%elem_of_app; [left; by exists r'|]. right. exists run, (drawn w). rewrite Hr'. split; [lia | done].
Qed.
Lemma calm_record rowId file error reference : calm (updateFileUploadData rowId file error reference).
Proof. unfold updateFileUploadData. case_match; [done|]. apply calm_query. intros w _. repeat case_match; try apply harmless_refl. by apply harmless_update. Qed.
Lemma calm_issued rowId : calm (deleteFileDataByJobId rowId).
Proof. unfold deleteFileDataByJobId. case_match; [done|]. apply calm_query. intros w _. case_match; [|apply harmless_refl]. by apply harmless_update. Qed.
Lemma calm_delete fs org : calm (deleteFileUploadData fs org).
Proof.
  apply calm_query. intros w _. cbv zeta. case_match; [apply harmless_refl|]. split; simpl; [done..|].
  intros r' [Hr' _]%elem_of_filter_b. left. by exists r'.
Qed.
Hint Resolve calm_new_file calm_set_file calm_interrupt calm_new_row calm_record calm_issued calm_delete : platform.

Lemma calm_agent org : calm (getAgentEndPoint org).
Proof. unfold getAgentEndPoint. solve_neutral. Qed.
Lemma calm_invitation org : calm (getInvitationDidByOrgId org).
Proof. apply calm_read. Qed.
Lemma calm_organization org : calm (getOrganization org).
Proof. unfold getOrganization. solve_neutral. Qed.
Lemma calm_schema s : calm (getSchemaDetails s).
Proof. unfold getSchemaDetails. solve_neutral. Qed.
Lemma calm_identifier s : calm (getSchemaDetailsBySchemaIdentifier s).
Proof. apply calm_read. Qed.
Hint Resolve calm_agent calm_invitation calm_organization calm_schema calm_identifier : platform.
Lemma calm_definition d : calm (getCredentialDefinitionDetails d).
Proof. unfold getCredentialDefinitionDetails. solve_neutral. Qed.
Hint Resolve calm_definition : platform.

(** *** Delivery *)

Lemma calm_report agent offers : calm (reportW3CLedgerDifferences agent offers).
Proof.
  unfold reportW3CLedgerDifferences. case_match; [done|]. apply neutral_bind; [solve_neutral|]. intros l.
  apply calm_step. intros w _. by apply harmless_keep.
Qed.
Lemma calm_w3c url : calm (getW3CSchemaAttributes url).
Proof. unfold getW3CSchemaAttributes. solve_neutral. Qed.
Hint Resolve calm_report calm_w3c : platform.
Lemma calm_payload d did v : calm (offer_payload d did v).
Proof. unfold offer_payload. solve_neutral. Qed.
Lemma calm_store o : calm (storeIssuanceObjectReturnUrl o).
Proof. by apply calm_nats. Qed.
Lemma calm_thread t s : calm (updateSchemaIdByThreadId t s).
Proof. by apply calm_ask. Qed.
Lemma calm_config : calm getPlatformConfigDetails.
Proof. apply calm_read. Qed.
Hint Resolve calm_payload calm_store calm_thread calm_config : platform.
Lemma calm_link d response credential : calm (send_link d response credential).
Proof. unfold send_link. solve_neutral. Qed.
Hint Resolve calm_link : platform.

(** *** Files *)

Lemma calm_emit e f : calm (emit e f).
Proof. apply calm_step. intros w _. by apply harmless_called. Qed.
Lemma calm_getFailed f : calm (getFailedCredentials f).
Proof. apply calm_read. Qed.
Lemma calm_getRows f : calm (getFileDetails f).
Proof. apply calm_read. Qed.
Lemma calm_getFile f : calm (getFileDetailsById f).
Proof. apply calm_read. Qed.
Lemma calm_getFiles f : calm (getFileUploadDataByOrgId f).
Proof. apply calm_read. Qed.
Lemma calm_count f : calm (countErrorsForFile f).
Proof. apply calm_read. Qed.
Lemma calm_cache f : calm (query (modify (fun w => set_cache (f w) w))).
Proof. apply calm_query. intros w _. by apply harmless_keep. Qed.
Lemma calm_read_cache k : calm (read_cache k).
Proof. apply calm_read. Qed.
Lemma calm_spawn l d : calm (step (modify (spawn l d))).
Proof. apply calm_step. intros w _. by apply harmless_keep. Qed.
Lemma calm_enqueue js : calm (query (modify (enqueue js))).
Proof. apply calm_query. intros w _. by apply harmless_keep. Qed.
Lemma calm_delay d : calm (step (fun w => (Ok tt, tick d w))).
Proof. apply calm_sleep. Qed.
Hint Resolve calm_emit calm_getFailed calm_getRows calm_getFile calm_getFiles calm_count calm_cache calm_read_cache calm_spawn calm_enqueue calm_delay : platform.

Lemma calm_batches d j total n bs : calm (add_batches d j total n bs).
Proof. revert n. induction bs as [|b bs IH]; intros n; cbn [add_batches]; solve_neutral; apply IH. Qed.
Lemma calm_upload run k org r : calm (uploadCSVTemplate run k org r).
Proof. unfold uploadCSVTemplate. solve_neutral. Qed.
Lemma calm_save_all run c f l : calm (save_all run c f l).
Proof. induction l as [|e l IH]; cbn [save_all]; solve_neutral. Qed.
Hint Resolve calm_batches calm_upload calm_save_all : platform.
Lemma calm_cached run r c k : calm (cached_rows run r c k).
Proof. unfold cached_rows. solve_neutral. Qed.
Lemma calm_stored run c f l : calm (_storeBulkPayloadInBatch run c f l).
Proof. unfold _storeBulkPayloadInBatch. solve_neutral. Qed.
Hint Resolve calm_cached calm_stored : platform.
Lemma calm_row_payload j agent : calm (row_payload j agent).
Proof. unfold row_payload. solve_neutral. Qed.
Lemma calm_complete j s : calm (completeBulkRow j s).
Proof. unfold completeBulkRow. solve_neutral. Qed.
Lemma calm_processInBatches run l d : calm (processInBatches run l d).
Proof. unfold processInBatches. solve_neutral. Qed.
Lemma calm_issueBulk run r org c k v : calm (issueBulkCredential run r org c k v).
Proof. unfold issueBulkCredential. solve_neutral. Qed.
Lemma calm_retry f org c v : calm (retryBulkCredential f org c v).
Proof. unfold retryBulkCredential, assertRetryable. solve_neutral. Qed.
Lemma calm_deleteFiles org : calm (deleteFiles org).
Proof. unfold deleteFiles. solve_neutral. Qed.
Hint Resolve calm_row_payload calm_complete calm_processInBatches calm_issueBulk calm_retry calm_deleteFiles : platform.

(** ** The knowledge of a row's job

    [t] is its run, [x] its row and [own] the owner of its guard. *)

Notation stable := (stable harmless inv promise).
Notation safe := (safe harmless inv promise).

Lemma stable_and t (P Q : world -> Prop) : stable t P -> stable t Q -> stable t (fun w => P w /\ Q w).
Proof. intros [H1 H2] [H3 H4]. split; [intros t' w w' ? ? ? [? ?] | intros w w' ? ? [? ?]]; split; eauto. Qed.

Lemma stable_true t : stable t (fun _ => True).
Proof. done. Qed.

Lemma calm_neutral {A} t P (p : prog world A) : stable t P -> calm p -> neutral inv promise t P p.
Proof.
  intros [_ HP] Hp. induction p as [r|X m k IH]; [done|]. destruct Hp as [H1 H2]. split; [|by intros y; apply IH].
  intros w Hw HPw. destruct (H1 w Hw I) as (? & ? & _). split_and!; [done | by apply harmless_promise | by apply (HP w)].
Qed.

Lemma safe_calm {A} t P (p : prog world A) Q : stable t P -> calm p -> (forall r, Q r P) -> safe t P p Q.
Proof. intros HP Hp HQ. apply safe_neutral; [done | by apply calm_neutral | done]. Qed.

(** A calm computation first *)
Lemma safe_first {A B} t P (p : prog world A) (k : A -> prog world B) Q :
  stable t P -> calm p -> (forall e, Q (Throw e) P) -> (forall a, safe t P (k a) Q) -> safe t P (p ≫= k) Q.
Proof. intros HP Hp Ht Hk. apply safe_bind, safe_calm; [done..|]. by intros [a|e]; [apply Hk | apply Ht]. Qed.

Lemma safe_ok {A B} t P (a : A) (k : A -> prog world B) Q : safe t P (k a) Q -> safe t P (lifted (Ok a) ≫= k) Q.
Proof. done. Qed.

(** A query: when it fails the knowledge is kept. *)
Lemma safe_query {A} t P (m : eff world A) Q :
  stable t P -> (forall w, inv w -> harmless w (m w).2) -> (forall e, Q (Throw e) P) ->
  (forall w dt, inv w -> P w -> exists P', P' (tick dt (m w).2) /\ stable t P' /\ Q (m w).1 P') -> safe t P (query m) Q.
Proof.
  intros HP Hm Ht HQ. apply safe_act. intros w Hw HPw.
  assert (Hk : forall w1 dt, harmless w w1 -> inv (tick dt w1) /\ promise t w (tick dt w1) /\ P (tick dt w1)).
  { intros w1 dt Hh. assert (Hh' : harmless w (tick dt w1)) by by destruct Hh.
    split; [by eapply harmless_inv|]. split; [by apply harmless_promise | by apply (proj2 HP w)]. }
  destruct (db_error (ticks w)) as [e|].
  - destruct (Hk (if db_applied (ticks w) then (m w).2 else w) (Coordinator.drift (ticks w))) as (? & ? & ?).
    { destruct (db_applied _); [by apply Hm | apply harmless_refl]. }
    split; [done|]. split; [done|]. exists P. split; [done|]. split; [exact HP | apply Ht].
  - destruct (Hk _ (Coordinator.drift (ticks w)) (Hm w Hw)) as (? & ? & ?). specialize (HQ w (Coordinator.drift (ticks w)) Hw HPw).
    destruct (m w) as [r w1]. split; [done|]. split; [done | exact HQ].
Qed.

Section row.
Variables (t : nat) (x : identity) (own : string).
Hypothesis own_mine : mine t own.

Definition unused (w : world) : Prop := forall e, e ∈ dispatched w -> e.2 <> own.
Definition only_row (w : world) : Prop := forall e, e ∈ dispatched w -> e.2 = own -> e.1 = x.
Definition held (w : world) : Prop := guard w x = Some own.
Definition inside (d : bool) (w : world) : Prop := contexts w !! t = Some (Context d x own).
Definition unsent (w : world) : Prop := held w /\ forall e, e ∈ dispatched w -> norm e.1 <> norm x.
Definition known (w : world) : Prop := drawn_before w (normalize x.2) /\ drawn_before w own.
Definition drew (w : world) : Prop := drawn_before w own.
Definition marked (w : world) : Prop := drawn_before w (normalize x.2) /\ settled x w.

Lemma others_entries t' w w' e : t' <> t -> promise t' w w' -> e ∈ dispatched w' -> e ∈ dispatched w \/ e.2 <> own /\ guard w e.1 = Some e.2.
Proof using own_mine.
  intros Ht Hp He. destruct (pr_dispatched _ _ _ Hp) as (extra & Hd & Hx). rewrite Hd in He.
  apply elem_of_app in He as [He|He]; [right | by left]. destruct e as [y own']. destruct (Hx _ _ He) as [Hm Hg].
  split; [|done]. simpl. intros ->. apply Ht. by eapply mine_unique.
Qed.

Lemma stable_unused : stable t unused.
Proof using own_mine.
  split.
  - intros t' w w' Ht _ Hp H e He. by destruct (others_entries _ _ _ _ Ht Hp He) as [|[]]; [apply H|].
  - intros w w' _ Hh H e. rewrite (h_dispatched _ _ Hh). apply H.
Qed.

Lemma stable_only : stable t only_row.
Proof using own_mine.
  split.
  - intros t' w w' Ht _ Hp H e He Ho. destruct (others_entries _ _ _ _ Ht Hp He) as [|[]]; [by apply H | done].
  - intros w w' _ Hh H e. rewrite (h_dispatched _ _ Hh). apply H.
Qed.

Lemma stable_held : stable t held.
Proof using own_mine.
  split.
  - intros t' w w' Ht _ Hp H. apply (pr_guards _ _ _ Hp); [done|]. intros Hm. apply Ht. by eapply mine_unique.
  - intros w w' _ Hh H. unfold held. by rewrite (h_guards _ _ Hh).
Qed.

Lemma stable_inside d : stable t (inside d).
Proof using Type.
  split.
  - intros t' w w' Ht _ Hp H. unfold inside. by rewrite (pr_contexts _ _ _ Hp) by done.
  - intros w w' _ Hh H. unfold inside. by rewrite (h_contexts _ _ Hh).
Qed.

Lemma stable_unsent : stable t unsent.
Proof using own_mine.
  pose proof stable_held as [S1 S2]. split.
  - intros t' w w' Ht Hw Hp [Hh H]. split; [by apply (S1 t' w)|]. intros e He. destruct (others_entries _ _ _ _ Ht Hp He) as [|[Ho Hg]]; [by apply H|].
    intros Hn. apply row_key_norm in Hn. rewrite Hn in Hg. unfold held in Hh. congruence.
  - intros w w' Hw Hc [Hh H]. split; [by apply (S2 w)|]. intros e. rewrite (h_dispatched _ _ Hc). apply H.
Qed.

Lemma stable_known : stable t known.
Proof using Type.
  split.
  - intros t' w w' _ _ Hp [H1 H2]. split; (eapply drawn_mono; [apply (pr_drawn _ _ _ Hp) | done]).
  - intros w w' _ Hh [H1 H2]. split; (eapply drawn_mono; [apply (h_drawn _ _ Hh) | done]).
Qed.

Lemma stable_drew : stable t drew.
Proof using Type.
  split; [intros t' w w' _ _ Hp H | intros w w' _ Hh H]; (eapply drawn_mono; [| done]); [apply (pr_drawn _ _ _ Hp) | apply (h_drawn _ _ Hh)].
Qed.

Lemma stable_marked : stable t marked.
Proof using Type.
  split.
  - intros t' w w' _ _ Hp [H1 H2]. split; [eapply drawn_mono; [apply (pr_drawn _ _ _ Hp) | done] | by apply (pr_settled _ _ _ Hp)].
  - intros w w' _ Hh [H1 H2]. split; [eapply drawn_mono; [apply (h_drawn _ _ Hh) | done] | by apply (harmless_settled w)].
Qed.

(** The stages of the job *)
Definition Fresh w : Prop := unused w /\ held w /\ inside false w /\ drew w.
Definition Ready w : Prop := Fresh w /\ unsent w /\ known w.
Definition Sent w : Prop := only_row w /\ held w /\ inside true w /\ known w.
Definition Marked w : Prop := Sent w /\ marked w.

Lemma stable_Fresh : stable t Fresh.
Proof using own_mine. 
  apply stable_and; [apply stable_unused | apply stable_and; [apply stable_held | apply stable_and; [apply stable_inside | apply stable_drew]]].
Qed.
Lemma stable_Ready : stable t Ready.
Proof using own_mine. apply stable_and; [apply stable_Fresh | apply stable_and; [apply stable_unsent | apply stable_known]]. Qed.
Lemma stable_Sent : stable t Sent.
Proof using own_mine.
  apply stable_and; [apply stable_only | apply stable_and; [apply stable_held | apply stable_and; [apply stable_inside | apply stable_known]]].
Qed.
Lemma stable_Marked : stable t Marked.
Proof using own_mine. apply stable_and; [apply stable_Sent | apply stable_marked]. Qed.

(** *** The offer *)

Definition before_or_after {A} (_ : result A) (P : world -> Prop) : Prop := P = Ready \/ P = Sent.

Lemma stable_stage {A} (r : result A) P : before_or_after r P -> stable t P.
Proof using own_mine. intros [-> | ->]; [apply stable_Ready | apply stable_Sent]. Qed.

(** Calm computations keep the stage. *)
Lemma stage_first {A B} P (p : prog world A) (k : A -> prog world B) :
  P = Ready \/ P = Sent -> calm p -> (forall a, safe t P (k a) before_or_after) -> safe t P (p ≫= k) before_or_after.
Proof using own_mine. intros HP Hp Hk. apply safe_first; [by apply (stable_stage (Ok ())) | done | by intros e | done]. Qed.

Lemma stage_calm {A} P (p : prog world A) : P = Ready \/ P = Sent -> calm p -> safe t P p before_or_after.
Proof using own_mine. intros HP Hp. apply safe_calm; [by apply (stable_stage (Ok ())) | done | by intros r]. Qed.

Lemma stage_raise {A} P e : P = Ready \/ P = Sent -> safe t P (raise e : prog world A) before_or_after.
Proof using own_mine. intros HP. by apply stage_calm. Qed.

Lemma dispatch_step c : is_offer c = true -> safe t Ready (step (fun w => nats_send on_offer c (mark_dispatched t w))) before_or_after.
Proof using own_mine.
  intros Hoff. apply safe_act. intros w Hw ((Hu & Hh & Hi & _) & [_ Hs] & [Hk1 Hk2]). unfold mark_dispatched, inside in *. rewrite Hi. simpl.
  set (w' := tick _ _). destruct Hw as [I1 I2 I3 I4 I5 I6]. split_and!.
  - split; [exact I1 | | | | |].
    + intros y o [[= -> ->]|Hy]%elem_of_cons; [done | by eapply I2].
    + intros y o [[= -> ->]|Hy]%elem_of_cons; [done | by eapply I3].
    + intros y o [[= -> ->]|Hy]%elem_of_cons; [by right | by apply I4].
    + simpl. apply NoDup_cons. split; [|done]. intros (e & He & Hin)%list_elem_of_fmap. by apply (Hs e).
    + transitivity (S (offers w)); [|by rewrite I6]. etrans; [apply (offers_called c w)|]. rewrite Hoff. lia.
  - split; [done | | | done | done].
    + exists [(x, own)]. split; [done|]. intros y o [= -> ->]%list_elem_of_singleton. done.
    + intros t' Ht. simpl. by rewrite lookup_insert_ne.
  - exists Sent. split; [|split; [apply stable_Sent | by right]]. split_and!; [|done | |done].
    + intros e [-> | He]%elem_of_cons Ho; [done|]. exfalso. by apply (Hu e).
    + unfold inside. simpl. by rewrite lookup_insert_eq.
Qed.

Lemma permit_stage deadline c : is_offer c = true ->
  safe t Ready (acquireAndRun t (step (fun w => nats_send on_offer c (mark_dispatched t w))) deadline) before_or_after.
Proof using own_mine.
  intros Hoff. apply stage_first; [by left | apply calm_uuid|]. intros owner. apply safe_finally.
  eapply safe_conseq; [|apply stage_first; [by left | apply calm_obtain | intros []; by apply dispatch_step]].
  intros r P' HP. apply safe_calm; [by apply (stable_stage r) | apply calm_release | by intros r'].
Qed.

Lemma offer_stage c : is_offer c = true -> safe t Ready (offer t (nats_send on_offer c)) before_or_after.
Proof using own_mine.
  intros Hoff. unfold offer, withPermit. apply stage_first; [by left | apply calm_gets|]. intros ctx.
  apply stage_first; [by left | apply calm_now|]. intros now. cbv zeta. generalize (now + match ctx with Some _ => Coordinator.waitMs | None => Z.min Coordinator.waitMs Settings.ISSUANCE_INTERACTIVE_QUEUE_MS end).
  intros deadline. unfold queue_run. apply stage_first; [by left | apply calm_now|]. intros n1. case_match; [by apply stage_raise; left|].
  apply stage_first; [by left | apply calm_step; intros w _; apply harmless_refl |]. intros []. apply stage_first; [by left | apply calm_now|]. intros n2.
  case_match; [by apply stage_raise; left | by apply permit_stage].
Qed.

(** *** The delivery *)

Lemma send_stage d : safe t Ready (sendEmailForCredentialOffer t d) before_or_after.
Proof using own_mine.
  apply safe_catching. eapply safe_conseq; [|apply stage_first; [by left | |]].
  - intros [b|e] P' HP; [exact HP | exact HP].
  - solve_neutral.
  - intros did. apply stage_first; [by left | apply calm_payload|]. intros pc. apply safe_bind.
    eapply safe_conseq; [|by apply offer_stage]. intros [response|e] P' HP; [|exact HP]. apply stage_calm; [done | apply calm_link].
Qed.

Definition single (o : option Json.value) : Prop :=
  match o with None => True | Some (Json.JArr [_]) => True | _ => False end.

Lemma update_offers_length reading o l : update_offers reading o = Ok l -> single o -> exists v, l = [v].
Proof using Type.
  intros H Hs. unfold update_offers in H. destruct o as [[]|]; try done. destruct vs as [|v [|]]; try done. clear Hs.
  simpl in H. unfold mret, result_ret in H. apply result_bind_ok in H as (ds & Hd & H). injection H as <-.
  apply result_bind_ok in Hd as (y & Hy & Hd). injection Hd as <-.
  unfold validateAndUpdateIssuanceDates. cbn [update_dates]. destruct (String.eqb _ _); eexists; reflexivity.
Qed.

(** A payload with one offer at most *)
Lemma checked_stage p agent :
  single (Json.get "credentialOffer" p) -> safe t Ready (checked_offers p agent) (fun r P => P = Ready /\ forall o, r = Ok o -> single o).
Proof using own_mine.
  intros Hs. unfold checked_offers. repeat case_bool_decide.
  - apply safe_bind, safe_act. intros w Hw HP. simpl. assert (Hh : harmless w (tick (Coordinator.drift (ticks w)) w)) by by apply harmless_keep.
    split; [by eapply harmless_inv|]. split; [by apply harmless_promise|]. exists Ready. split; [by apply (proj2 stable_Ready w)|].
    split; [apply stable_Ready|]. destruct (update_offers _ _) as [offers|e] eqn:E; [|done].
    destruct (update_offers_length _ _ _ E Hs) as [v ->].
    apply safe_first; [apply stable_Ready | apply calm_report | done |]. intros []. by split; [|intros o [= <-]].
  - apply safe_first; [apply stable_Ready | apply calm_definition | done |]. intros d.
    apply safe_first; [apply stable_Ready | apply calm_lifted | done |]. intros a.
    apply safe_first; [apply stable_Ready | apply calm_lifted | done |]. intros l.
    apply safe_first; [apply stable_Ready | apply calm_lifted | done |]. intros []. by split; [|intros o [= <-]].
  - by split; [|intros o [= <-]].
Qed.

Lemma out_of_band_stage o name : (forall p, o = Some p -> single (Json.get "credentialOffer" p)) ->
  safe t Ready (outOfBandCredentialOffer t o name) before_or_after.
Proof using own_mine.
  intros Ho. apply safe_catching. apply (safe_conseq _ _ _ _ _ _ before_or_after); [by intros [b|e] P' HP|].
  destruct o as [p|]; [|by apply stage_raise; left]. specialize (Ho p eq_refl).
  apply safe_ok. cbv zeta. apply stage_first; [by left | apply calm_agent|]. intros agent. apply safe_bind.
  eapply safe_conseq; [|by apply checked_stage]. intros [co|e] P' [-> Hco]; [|by left]. specialize (Hco co eq_refl).
  apply stage_first; [by left | apply calm_lifted|]. intros url. apply stage_first; [by left | apply calm_organization|]. intros [org|]; [|by apply stage_raise; left].
  set (d := Delivery _ _ _ _ _ _ _ _ _). clearbody d. unfold or_else, CastHelper.truthy.
  destruct co as [co|]; [destruct (Json.truthy co); [destruct co as [| | | |[|v [|]]|]; try done|]|].
  1:{ apply safe_ok. apply safe_bind. apply safe_bind. eapply safe_conseq; [|apply send_stage].
      intros [r|e] P' HP; [|exact HP]. apply safe_ok, safe_ok. case_match; apply stage_calm; done. }
  all: apply safe_bind; eapply safe_conseq; [|apply send_stage]; intros [r|e] P' HP; exact HP.
Qed.

Lemma row_payload_stage j agent : safe t Ready (row_payload j agent) (fun r P => P = Ready /\ forall p, r = Ok (Some p) -> single (Json.get "credentialOffer" p)).
Proof using own_mine.
  unfold row_payload. destruct (credentialType j) as [[]|].
  - split; [done|]. intros p [= <-]. unfold indy_payload. by destruct (g_organisation agent), (email_of j).
  - apply safe_first; [apply stable_Ready | apply calm_identifier | done |]. intros s.
    destruct s as [s|], (job_credential_data j); try done. cbv zeta.
    apply safe_first; [apply stable_Ready | apply calm_gets | done |]. intros now. split; [done|]. by intros p [= <-].
  - by split.
Qed.

(** *** The row *)

(** Marking a row that was drawn settles it. *)
Lemma mark_settles w rowId w' : inv w -> existsb (row_is rowId) (rows w) = true ->
  rows w' = Table.update_where (row_is rowId) mark_issued (rows w) -> forall r, r ∈ rows w' -> normalize (fd_id r) = normalize rowId -> status r = true.
Proof using Type.
  intros Hw (r0 & Hr0 & H0)%existsb_elem -> r (r1 & Hr1 & ->)%Table.elem_of_update_where. destruct (row_is rowId r1) eqn:E; [done|].
  intros Hn. exfalso. apply same_uuid_normalize in H0 as Hn0.
  destruct (inv_rows _ Hw _ Hr0) as (t0 & n0 & _ & E0), (inv_rows _ Hw _ Hr1) as (t1 & n1 & _ & E1).
  rewrite E0, run_uuid_normal in Hn0. rewrite E1, run_uuid_normal, <- Hn0, <- E0 in Hn. rewrite <- E1 in Hn.
  unfold row_is in *. congruence.
Qed.

(** The outcome of a row's job: nothing was sent, or what was sent is marked or failed. *)
Definition outcome (r : result bool) (P : world -> Prop) : Prop := P = Ready \/ P = Fresh \/ P = Sent /\ r <> Ok true \/ P = Marked.

Lemma mark_stage P rowId : x.2 = rowId -> rowId <> "" -> P = Ready \/ P = Sent ->
  safe t P (deleteFileDataByJobId rowId) (fun r P' => P' = Ready \/ P' = Sent /\ r <> Ok tt \/ P' = Marked).
Proof using own_mine.
  intros Hx Hne [-> | ->].
  { apply safe_calm; [apply stable_Ready | apply calm_issued | by left]. }
  unfold deleteFileDataByJobId. destruct (String.eqb_spec rowId ""); [done|]. apply safe_query; [apply stable_Sent | | by right; left|].
  { intros w _. case_match; [|apply harmless_refl]. by apply harmless_update. }
  intros w dt Hw HS. destruct (existsb _ _) eqn:E; [|exists Sent; split; [exact HS|]; split; [apply stable_Sent | by right; left]].
  exists Marked. split; [|split; [apply stable_Marked | by right; right]]. split; [exact HS|]. split; [apply HS|].
  intros r Hr Hn. rewrite Hx in Hn. eapply (mark_settles w rowId (tick dt (set_rows (Table.update_where (row_is rowId) mark_issued (rows w)) w))); done.
Qed.

Lemma issue_stage j : x.2 = id j -> id j <> "" ->
  safe t Ready (issue_row t j) (fun r P => P = Ready \/ P = Sent /\ r <> Ok tt \/ P = Marked).
Proof using own_mine.
  intros Hx Hne. unfold issue_row. apply safe_first; [apply stable_Ready | apply calm_agent | by left |]. intros agent.
  apply safe_bind. eapply safe_conseq; [|apply row_payload_stage]. intros [o|e] P [-> Ho]; [|by left].
  apply safe_bind. eapply safe_conseq; [|apply out_of_band_stage; intros p ->; by apply Ho].
  intros [b|e] P HP; [|by destruct HP as [-> | ->]; [left | right; left]].
  destruct b; [by apply mark_stage | by destruct HP as [-> | ->]; [left | right; left]].
Qed.

Lemma ready_of_row w j r : inv w -> Fresh w -> x = (orgId j, job_fileUploadId j, id j) ->
  r ∈ rows w -> row_is (id j) r = true -> status r = false -> Ready w.
Proof using Type.
  intros Hw HF Hx Hr Hid Hs. assert (Hn : normalize (fd_id r) = normalize (id j)) by by apply same_uuid_normalize.
  pose proof HF as (Hu & Hh & _ & Hd). split; [done|]. split.
  - split; [done|]. intros [y o] Hy Hyx. simpl in *. destruct (inv_out _ Hw _ _ Hy) as [Hset|Hg].
    + assert (status r = true) by (apply Hset; [done|]; rewrite Hn; rewrite Hx in Hyx; by injection Hyx). congruence.
    + apply row_key_norm in Hyx. rewrite Hyx in Hg. unfold held in Hh. apply (Hu _ Hy). simpl. congruence.
  - split; [|done]. rewrite Hx. simpl. rewrite <- Hn. destruct (inv_rows _ Hw _ Hr) as (t0 & n & Hlt & E). rewrite E, run_uuid_normal. by exists t0, n.
Qed.

Lemma bulk_row_stage j : x = (orgId j, job_fileUploadId j, id j) ->
  safe t Fresh (processBulkRow t j) outcome.
Proof using own_mine.
  intros Hx. unfold processBulkRow. apply safe_bind, safe_query; [apply stable_Fresh | by intros w _; apply harmless_refl | by right; left|].
  intros w dt Hw HF. unfold gets. cbn [fst snd]. destruct (Table.first _ (rows w)) as [r|] eqn:E; cbn [option_map].
  2:{ exists Fresh. split; [done|]. split; [apply stable_Fresh | by right; left]. }
  apply Table.first_Some in E as [Hr [[Hid _]%andb_true_iff _]%andb_true_iff]. destruct (status r) eqn:Es.
  { exists Fresh. split; [done|]. split; [apply stable_Fresh | by right; left]. }
  exists Ready. split; [exact (ready_of_row w j r Hw HF Hx Hr Hid Es)|]. split; [apply stable_Ready|].
  assert (Hne : id j <> "").
  { intros E. rewrite E in Hid. apply same_uuid_normalize in Hid. destruct (inv_rows _ Hw _ Hr) as (t0 & n & _ & E0).
    rewrite E0, run_uuid_normal in Hid. exact (run_uuid_nonempty _ _ Hid). }
  apply safe_bind, safe_catching, safe_bind. eapply safe_conseq; [|apply issue_stage; [by rewrite Hx | done]].
  assert (Hend : forall error P, (P = Ready \/ P = Sent /\ error <> None \/ P = Marked) ->
    safe t P (_ ← updateFileUploadData (id j) (job_fileUploadId j) (option_map exn_message error) (Json.as_str (email_of j)); mret match error with None => true | Some _ => false end) outcome).
  { intros error P HP. apply safe_first.
    - destruct HP as [-> | [[-> _] | ->]]; [apply stable_Ready | apply stable_Sent | apply stable_Marked].
    - apply calm_record.
    - intros e. destruct HP as [-> | [[-> _] | ->]]; unfold outcome; [by left | by right; right; left | by right; right; right].
    - intros []. destruct HP as [-> | [[-> He] | ->]]; unfold outcome; [by left | right; right; left | by right; right; right]. by destruct error. }
  intros [[]|e] P HP; [apply (Hend None) | apply (Hend (Some e))]; destruct HP as [-> | [[-> He] | ->]]; auto.
  right; left. by split.
Qed.

(** *** The guard *)

Lemma release_keeps w w' : inv w -> (forall y, (y, own) ∈ dispatched w -> settled y w) -> dispatched w' = dispatched w -> contexts w' = contexts w -> offers w' = offers w -> drawn w' = drawn w -> rows w' = rows w ->
  Coordinator.guards (redis w') = delete (row_key x) (Coordinator.guards (redis w)) -> held w -> inv w' /\ promise t w w'.
Proof using own_mine.
  intros [I1 I2 I3 I4 I5 I6] Hset Hd Hc Ho Hn Hr Hg Hh.
  assert (Hdb : forall s, drawn_before w s <-> drawn_before w' s) by (intros s; unfold drawn_before; by rewrite Hn).
  split; split; rewrite ?Hd, ?Hr, ?Ho.
  - intros r Hin. by apply Hdb, I1.
  - intros y o Hy. apply Hdb. by eapply I2.
  - intros y o Hy. apply Hdb. by eapply I3.
  - intros y o Hy. unfold settled. rewrite Hr, Hg. destruct (decide (o = own)) as [->|Hne]; [left; by apply Hset|].
    destruct (I4 _ _ Hy) as [|Hgy]; [by left|]. right. rewrite lookup_delete_ne; [done|]. intros E. rewrite <- E in Hgy. unfold held in Hh. congruence.
  - done.
  - done.
  - intros k o Hk Hm. rewrite Hg, lookup_delete_ne; [done|]. intros <-. unfold held in Hh. rewrite Hh in Hk. by injection Hk as <-.
  - exists []. split; [done|]. by intros y o ?%elem_of_nil.
  - intros t' _. by rewrite Hc.
  - lia.
  - intros y _. unfold settled. by rewrite Hr.
Qed.

Definition nothing {A} (_ : result A) (_ : world -> Prop) : Prop := True.

Lemma context_step w c dt : (forall t', t' <> t -> c !! t' = contexts w !! t') -> inv w -> inv (tick dt (set_contexts c w)) /\ promise t w (tick dt (set_contexts c w)).
Proof using Type.
  intros Hc []. split; [by split|]. split; try done. exists []. split; [done|]. by intros y o ?%elem_of_nil.
Qed.

Lemma release_step P : stable t P -> (forall w, P w -> held w) -> (forall w y, P w -> (y, own) ∈ dispatched w -> settled y w) ->
  safe t P (_ ← eval (fun _ => Coordinator.RELEASE_ROW (row_key x) own); mret tt) nothing.
Proof using own_mine.
  intros HP Hh Hs. apply safe_bind, safe_act. intros w Hw HPw. unfold Coordinator.RELEASE_ROW. specialize (Hh w HPw). rewrite decide_True by exact Hh.
  match goal with |- context [set_redis ?s w] => set (s' := s) end.
  assert (Hk : forall dt, inv (tick dt w) /\ promise t w (tick dt w)).
  { intros dt. assert (Hc : harmless w (tick dt w)) by by apply harmless_keep. split; [by eapply harmless_inv | by apply harmless_promise]. }
  assert (Hr : forall dt, inv (tick dt (set_redis s' w)) /\ promise t w (tick dt (set_redis s' w))).
  { intros dt. apply release_keeps; try done. intros y. by apply Hs. }
  cbv zeta. destruct (Coordinator.eval_error _) as [e|]; [destruct (Coordinator.eval_applied _)|]; cbn [fst snd].
  - destruct (Hr (Coordinator.drift (ticks w))) as [H1 H2]. split; [exact H1|]. split; [exact H2|]. by exists (fun _ => True).
  - destruct (Hk (Coordinator.drift (ticks w))) as [H1 H2]. split; [exact H1|]. split; [exact H2|]. by exists (fun _ => True).
  - destruct (Hr (Coordinator.drift (ticks w))) as [H1 H2]. split; [exact H1|]. split; [exact H2|]. by exists (fun _ => True).
Qed.

(** Leaving the context tells whether an offer was requested in it. *)
Lemma leave_step P R d (f : bool -> prog world unit) : (forall w, P w -> inside d w) -> stable t R -> (forall w dt, P w -> R (tick dt (set_contexts (delete t (contexts w)) w))) ->
  safe t R (f d) nothing -> safe t P (dispatched ← leave_row t; f dispatched) nothing.
Proof using Type.
  intros Hi HR HPR Hf. apply safe_bind, safe_act. intros w Hw HP. cbn [fst snd]. rewrite (Hi w HP). cbn [was_dispatched].
  destruct (context_step w (delete t (contexts w)) (Coordinator.drift (ticks w))) as [H1 H2]; [intros; by apply lookup_delete_ne | done|].
  split; [exact H1|]. split; [exact H2|]. exists R. split; [by apply HPR|]. split; [exact HR | exact Hf].
Qed.

Lemma guarded_stage op : safe t Fresh op outcome ->
  safe t (fun w => unused w /\ held w /\ drew w)
    (_ ← enter_row t x own;
     finally op (fun r =>
       dispatched ← leave_row t;
       if match r with Ok b => b | Throw _ => false end || negb dispatched
       then _ ← eval (fun _ => Coordinator.RELEASE_ROW (row_key x) own); mret tt else mret tt)) nothing.
Proof using own_mine.
  intros Hop. apply safe_bind, safe_act. intros w Hw (Hu & Hh & Hd). cbn [fst snd].
  destruct (context_step w (<[t := Context false x own]> (contexts w)) (Coordinator.drift (ticks w))) as [H1 H2]; [intros; by apply lookup_insert_ne | done|].
  split; [exact H1|]. split; [exact H2|]. exists Fresh. split.
  { split; [done|]. split; [done|]. split; [|done]. unfold inside. simpl. by rewrite lookup_insert_eq. }
  split; [apply stable_Fresh|]. apply safe_finally. eapply safe_conseq; [|exact Hop]. intros r P HP.
  assert (Hclean : forall P, (forall w, P w -> Fresh w) -> safe t P (dispatched ← leave_row t;
    if match r with Ok b => b | Throw _ => false end || negb dispatched
    then _ ← eval (fun _ => Coordinator.RELEASE_ROW (row_key x) own); mret tt else mret tt) nothing).
  { intros P0 H0. apply (leave_step P0 (fun w => unused w /\ held w) false).
    - intros w0 HP0. apply (H0 w0 HP0).
    - apply stable_and; [apply stable_unused | apply stable_held].
    - intros w0 dt HP0. by destruct (H0 w0 HP0) as (? & ? & _).
    - rewrite orb_true_r. apply release_step; [apply stable_and; [apply stable_unused | apply stable_held] | by intros w0 []|].
      intros w0 y [Hu0 _] Hy. by destruct (Hu0 _ Hy). }
  destruct HP as [-> | [-> | [[-> Hr] | ->]]]; [apply Hclean; by intros w0 [] | by apply Hclean | |].
  - apply (leave_step Sent (fun _ => True) true); [by intros w0 (_ & _ & ? & _) | done | done|]. by destruct r as [[]|].
  - apply (leave_step Marked (fun w => only_row w /\ held w /\ marked w) true).
    + by intros w0 [(_ & _ & ? & _) _].
    + apply stable_and; [apply stable_only | apply stable_and; [apply stable_held | apply stable_marked]].
    + intros w0 dt [(? & ? & _) ?]. done.
    + match goal with |- context [if ?b then _ else _] => destruct b end; [|done]. apply release_step.
      * apply stable_and; [apply stable_only | apply stable_and; [apply stable_held | apply stable_marked]].
      * by intros w0 (_ & ? & _).
      * intros w0 y (Ho & _ & _ & Hset) Hy. by rewrite (Ho _ Hy eq_refl : y = x).
Qed.
End row.

Lemma acquire_keeps t w k own dt : mine t own -> Coordinator.guards (redis w) !! k = None -> inv w ->
  let w' := tick dt (set_redis (Coordinator.set_guards (<[k := own]> (Coordinator.guards (redis w))) (redis w)) w) in inv w' /\ promise t w w'.
Proof.
  intros Hm Hk [I1 I2 I3 I4 I5 I6] w'.
  assert (Hg : forall k' o, Coordinator.guards (redis w) !! k' = Some o -> Coordinator.guards (redis w') !! k' = Some o).
  { intros k' o Hk'. simpl. rewrite lookup_insert_ne; [done|]. congruence. }
  split; split; try done.
  - intros y o Hy. destruct (I4 _ _ Hy); [by left | right; by apply Hg].
  - intros k' o Hk' _. by apply Hg.
  - exists []. split; [done|]. by intros y o ?%elem_of_nil.
Qed.

Lemma guarded_row_stage t j : safe t (fun _ => True) (guardedRow t (orgId j) (job_fileUploadId j) (id j) (processBulkRow t j)) nothing.
Proof.
  unfold guardedRow. apply safe_bind, safe_act. intros w Hw _. cbn [fst snd]. set (own := run_uuid t (drawn w)).
  assert (Hm : mine t own) by by exists (drawn w). set (x := (orgId j, job_fileUploadId j, id j)).
  assert (Hh : harmless w (tick (Coordinator.drift (ticks w)) (set_drawn (S (drawn w)) w))) by (apply harmless_keep; simpl; done || lia).
  split; [by eapply harmless_inv|]. split; [by apply harmless_promise|]. exists (fun w => unused own w /\ drew own w). split.
  { split; [|exists t, (drawn w); simpl; split; [lia | done]]. intros [y o] Hy Ho. simpl in Ho. subst o.
    destruct (inv_owners _ Hw _ _ Hy) as (t0 & n & Hn & [_ E]%run_uuid_inj). lia. }
  split; [apply stable_and; [by apply stable_unused | apply stable_drew]|].
  apply safe_bind, safe_act. clearbody own. clear w Hw Hh. intros w Hw [Hu Hd]. cbv zeta. unfold Coordinator.SET_NX.
  change (Coordinator.rowKey (orgId j) (job_fileUploadId j) (id j)) with (row_key x).
  assert (Hk : forall dt, inv (tick dt w) /\ promise t w (tick dt w)).
  { intros dt. assert (Hc : harmless w (tick dt w)) by by apply harmless_keep. split; [by eapply harmless_inv | by apply harmless_promise]. }
  set (dt := Coordinator.drift (ticks w)). destruct (Coordinator.guards (redis w) !! row_key x) as [o|] eqn:Eg.
  - destruct (Coordinator.eval_error _) as [e|]; [destruct (Coordinator.eval_applied _)|]; cbn [fst snd];
      (split; [apply Hk | split; [apply Hk | by exists (fun _ => True)]]).
  - destruct (acquire_keeps t w (row_key x) own dt Hm Eg Hw) as [H1 H2].
    destruct (Coordinator.eval_error _) as [e|]; [destruct (Coordinator.eval_applied _)|]; cbn [fst snd].
    + split; [exact H1|]. split; [exact H2|]. by exists (fun _ => True).
    + split; [apply Hk|]. split; [apply Hk|]. by exists (fun _ => True).
    + split; [exact H1|]. split; [exact H2|]. exists (fun w => unused own w /\ held x own w /\ drew own w). split.
      { split; [done|]. split; [|done]. unfold held. simpl. by rewrite lookup_insert_eq. }
      split; [apply stable_and; [by apply stable_unused | apply stable_and; [by apply stable_held | apply stable_drew]]|].
      apply (guarded_stage t x own Hm). by apply bulk_row_stage.
Qed.

(** ** All runs together *)

Lemma safe_nothing {A} t P (p : prog world A) : safe t (fun _ => True) p nothing -> safe t P p nothing.
Proof. destruct p as [r|X m k]; [done|]. intros H w Hw _. by apply H. Qed.

Lemma nothing_after {A B} t (p : prog world A) (h : result A -> prog world B) :
  safe t (fun _ => True) p nothing -> (forall r, safe t (fun _ => True) (h r) nothing) -> safe t (fun _ => True) (afterwards p h) nothing.
Proof. intros Hp Hh. apply safe_after. revert Hp. apply safe_conseq. intros r P _. apply safe_nothing, Hh. Qed.

Lemma nothing_bind {A B} t (p : prog world A) (k : A -> prog world B) :
  safe t (fun _ => True) p nothing -> (forall a, safe t (fun _ => True) (k a) nothing) -> safe t (fun _ => True) (p ≫= k) nothing.
Proof. intros Hp Hk. apply nothing_after; [done|]. by intros [a|e]; [apply Hk|]. Qed.

Lemma nothing_calm {A} t (p : prog world A) : calm p -> safe t (fun _ => True) p nothing.
Proof. intros Hp. by apply safe_calm; [apply stable_true | |]. Qed.

Lemma job_safe t j : safe t (fun _ => True) (issueCredential t j) nothing.
Proof.
  apply nothing_bind; [|by intros []]. apply nothing_after.
  - apply nothing_bind.
    + apply nothing_bind; [apply nothing_calm, calm_now|]. intros now. apply nothing_bind; [apply nothing_calm, calm_now|]. intros n1.
      case_match; [done|]. apply nothing_bind; [apply nothing_calm, calm_step; intros w _; apply harmless_refl|]. intros [].
      apply nothing_bind; [apply nothing_calm, calm_now|]. intros n2. case_match; [done | apply guarded_row_stage].
    + intros b. apply nothing_calm. solve_neutral.
  - intros [b|e]; [done|]. apply nothing_calm. solve_neutral.
Qed.

(** What may run: any job any number of times, uploads, retries, the queueing of any rows
    and deletions. *)
Inductive starts (t : nat) : prog world unit -> Prop :=
  | start_job j : starts t (issueCredential t j)
  | start_upload request org client file check_schema : starts t (_ ← issueBulkCredential t request org client file check_schema; mret tt)
  | start_retry file org client check_schema : starts t (_ ← retryBulkCredential file org client check_schema; mret tt)
  | start_background l d : starts t (processInBatches t l d)
  | start_delete org : starts t (deleteFiles org).

Definition system_step := istep starts harmless.

Record initial (w : world) : Prop := {
  initial_rows r : r ∈ rows w -> drawn_before w (fd_id r);
  initial_history : dispatched w = [];
  initial_offers : offers w = 0%nat;
}.

Lemma initial_inv w : initial w -> inv w.
Proof.
  intros [H1 H2 H3]. split; rewrite ?H2; [done|..|done]; try (intros x own Hx; by apply elem_of_nil in Hx). constructor.
Qed.

Lemma starts_safe t p : starts t p -> safe t (fun _ => True) p (fun _ _ => True).
Proof. destruct 1; [apply job_safe|..]; apply nothing_calm; solve_neutral. Qed.

Lemma reachable_inv ps w0 w : initial w0 -> rtc system_step (∅, w0) (ps, w) -> inv w.
Proof.
  intros H0 Hs. eapply (interleaving_invariant starts harmless inv promise starts_safe).
  - intros w1 w2. apply harmless_inv.
  - exact Hs.
  - by apply initial_inv.
  - intros t p Hp. by rewrite lookup_empty in Hp.
Qed.

(** C6. However the jobs of rows - repeated ones, jobs of the same row under other spellings
    of its identifiers - interleave with each other and with uploads, retries and
    deletions, wherever any of them stops and whichever queries and commands fail: the
    agent is asked for one offer per row at most. *)
Theorem offered_at_most_once ps w0 w : initial w0 -> rtc system_step (∅, w0) (ps, w) ->
  offers w = length (dispatched w) /\ NoDup ((fun e => norm e.1) <$> dispatched w).
Proof. intros H0 Hs. pose proof (reachable_inv _ _ _ H0 Hs) as I. split; [apply I | apply I]. Qed.
End proofs.

(** * Bulk issuance: files

    What happens to a file as a whole: its rows are queued in batches, a retry is refused
    while the outcome of a row is uncertain, and the last job settles its status. *)

Open Scope Z_scope.

(** ** Batches *)

Lemma slices_concat {A} fuel size (l : list A) : (length l <= fuel)%nat -> (0 < size)%nat -> concat (slices fuel size l) = l.
Proof.
  revert l. induction fuel as [|fuel IH]; intros [|x l] Hl Hs; simpl in Hl; [done|lia|done|]. cbn [slices concat].
  rewrite IH; [apply take_drop | rewrite length_drop; simpl; lia | done].
Qed.

Lemma slices_sizes {A} fuel size (l : list A) i b : (0 < size)%nat -> slices fuel size l !! i = Some b ->
  (0 < length b <= size)%nat /\ (S i < length (slices fuel size l) -> length b = size)%nat.
Proof.
  revert l i. induction fuel as [|fuel IH]; intros [|x l] i Hs Hb; [done..|]. cbn [slices] in *. destruct i as [|i].
  - injection Hb as <-. rewrite length_take. split; [simpl; lia|]. intros H. simpl length in *.
    destruct (drop size (x :: l)) as [|y l'] eqn:E; [destruct fuel; simpl in H; lia|].
    assert (length (drop size (x :: l)) = S (length l')) as HL by by rewrite E. rewrite length_drop in HL. simpl in HL. lia.
  - destruct (IH _ _ Hs Hb) as [H1 H2]. split; [done|]. intros H. apply H2. simpl in H. lia.
Qed.

(** Cutting a list in batches loses nothing and keeps the order; no batch is empty, none
    is larger than asked, and all but the last have the full size. *)
Theorem batches_exact {A} (l : list A) size : (0 < size)%nat ->
  concat (splitIntoBatches l size) = l /\
  forall i b, splitIntoBatches l size !! i = Some b ->
    (0 < length b <= size)%nat /\ (S i < length (splitIntoBatches l size) -> length b = size)%nat.
Proof. intros Hs. split; [by apply slices_concat | intros i b; by apply slices_sizes]. Qed.

Example batches_exact_witness : concat (splitIntoBatches [1; 2; 3; 4; 5] 2) = [1; 2; 3; 4; 5] /\ splitIntoBatches [1; 2; 3; 4; 5] 2 = [[1; 2]; [3; 4]; [5]].
Proof. split; [apply (batches_exact [1; 2; 3; 4; 5] 2); lia | reflexivity]. Defined.

Section files.
Context {env : Coordinator.Env} {ag : Agents} {st : Storage} {ids : RunUuid} {dep : Deployment}.

(** ** Runs that are not interrupted *)

Lemma alone_step {A} (m : eff world A) w : alone (step m) w = ((m w).1, tick (Coordinator.drift (ticks w)) (m w).2).
Proof. unfold step, act. simpl. by destruct (m w). Qed.

Lemma alone_query {A} (m : eff world A) w : db_error (ticks w) = None -> alone (query m) w = ((m w).1, tick (Coordinator.drift (ticks w)) (m w).2).
Proof. intros H. unfold query. rewrite alone_step, H. done. Qed.

Lemma alone_read {A} (f : world -> A) w :
  alone (query (gets f)) w = (match db_error (ticks w) with Some e => Throw e | None => Ok (f w) end, tick (Coordinator.drift (ticks w)) w).
Proof. unfold query. rewrite alone_step. by destruct (db_error _); [destruct (db_applied _)|]. Qed.

(** ** The queue *)

Lemma add_batches_queue d job total n bs w :
  exists k, queue (alone (add_batches d job total n bs) w).2 = (queue w ++ map (job_of d job total) (concat (take k bs)))%list /\
    (is_ok (alone (add_batches d job total n bs) w).1 = true -> (length bs <= k)%nat).
Proof.
  revert n w. induction bs as [|b bs IH]; intros n w; [exists 0%nat; simpl; by rewrite app_nil_r|]. cbn [add_batches]. rewrite alone_bind.
  unfold query. rewrite alone_step. destruct (db_error (ticks w)) as [e|]; cbn [fst snd].
  { destruct (db_applied _); [exists 1%nat | exists 0%nat]; (split; [|done]); simpl; by rewrite ?app_nil_r. }
  unfold modify. cbn [fst snd]. set (w1 := tick _ _). rewrite alone_bind.
  assert (Hd : exists w2, alone (if (S n * ISSUANCE_BATCH_SIZE <? total)%nat then step (fun w => (Ok tt, tick ISSUANCE_BATCH_DELAY w)) else mret tt) w1 = (Ok tt, w2) /\ queue w2 = queue w1).
  { case_match; [rewrite alone_step|]; by eexists. }
  destruct Hd as (w2 & -> & Hq). destruct (IH (S n) w2) as (k & Hk & Hlen). exists (S k). rewrite Hk, Hq. split.
  - simpl. rewrite map_app, app_assoc. done.
  - intros H. specialize (Hlen H). simpl. lia.
Qed.

(** Queueing rows adds their jobs in order, all with the number of the rows and one job
    identifier; when it fails, those of the first batches. *)
Theorem queued_in_order run l d w :
  exists k, queue (alone (processInBatches run l d) w).2 = (queue w ++ map (job_of d (run_uuid run (drawn w)) (length l)) (take k l))%list /\
    (is_ok (alone (processInBatches run l d) w).1 = true -> (length l <= k)%nat).
Proof.
  unfold processInBatches. rewrite alone_bind. unfold randomUUID. rewrite alone_step. cbn [fst snd].
  set (w1 := tick _ _). destruct (add_batches_queue d (run_uuid run (drawn w)) (length l) 0 (splitIntoBatches l ISSUANCE_BATCH_SIZE) w1) as (k & Hk & Hlen).
  assert (Hc : concat (splitIntoBatches l ISSUANCE_BATCH_SIZE) = l) by (apply slices_concat; unfold ISSUANCE_BATCH_SIZE; lia).
  set (bs := splitIntoBatches l ISSUANCE_BATCH_SIZE) in *. exists (length (concat (take k bs))). split.
  - rewrite Hk. simpl queue. do 2 f_equal.
    assert (E : l = (concat (take k bs) ++ concat (drop k bs))%list) by by rewrite <- concat_app, take_drop.
    transitivity (take (length (concat (take k bs))) (concat (take k bs) ++ concat (drop k bs))); [by rewrite take_app_length | by rewrite <- E].
  - intros Hok. specialize (Hlen Hok). rewrite take_ge by done. by rewrite Hc.
Qed.

(** ** The end of a batch *)

Definition issued (r : file_data) : bool := negb (failed_row r).

Lemma no_errors file l : Nat.eqb (length (List.filter (fun r => row_of file r && failed_row r) l)) 0 = forallb issued (List.filter (row_of file) l).
Proof. induction l as [|r l IH]; [done|]. simpl. destruct (row_of file r); simpl; [unfold issued; by destruct (failed_row r) | done]. Qed.

(** Without failures, the job that completes a batch sets its file to completed when
    every row of the file was issued without error, to partially completed otherwise; the
    other jobs leave the files as they are. *)
Theorem completion_status j succeeded w :
  (forall k, Coordinator.eval_error k = None) -> (forall k, db_error k = None) ->
  jobId j <> "" -> id j <> "" -> 1 <= totalJobs j <= Num.MAX_SAFE_INTEGER -> existsb (file_is (job_fileUploadId j)) (files w) = true ->
  let seen := default ∅ (Coordinator.completed (redis w) !! Coordinator.toKey ("issuance-completed-v1-" +:+ Coordinator.normalize (jobId j))) in
  let last := (Coordinator.COMPLETE (Coordinator.normalize (id j)) (totalJobs j) seen).1 =? 1 in
  let all := forallb issued (List.filter (row_of (job_fileUploadId j)) (rows w)) in
  (alone (completeBulkRow j succeeded) w).1 = Ok tt /\
  files (alone (completeBulkRow j succeeded) w).2 =
    if last then Table.update_where (file_is (job_fileUploadId j)) (with_status (if all then completed else partially_completed)) (files w) else files w.
Proof.
  intros He Hd Hj Hi Ht Hf seen last all. unfold completeBulkRow. rewrite alone_bind. unfold completedRow.
  destruct (String.eqb_spec (jobId j) ""); [done|]. destruct (String.eqb_spec (id j) ""); [done|]. cbn [orb].
  unfold Num.isSafeInteger. replace (Z.abs (totalJobs j) <=? Num.MAX_SAFE_INTEGER) with true by lia.
  replace (totalJobs j <? 1) with false by lia. cbn [negb orb]. cbv zeta. rewrite alone_bind. unfold eval. rewrite alone_step.
  fold seen. destruct (Coordinator.COMPLETE _ _ seen) as [c rows'] eqn:Ec. cbv zeta. rewrite He. cbn [fst snd].
  match goal with |- context [alone (mret _) ?w0] => set (w1 := w0) end.
  change (alone (mret (c =? 1)) w1) with (Ok (c =? 1), w1). change last with (c =? 1). cbv beta iota.
  destruct (c =? 1); [|done]. rewrite alone_catching, alone_bind. unfold countErrorsForFile. rewrite alone_read, Hd.
  change (rows w1) with (rows w). rewrite no_errors. fold all. rewrite alone_bind. unfold updateFileUploadDetails. rewrite alone_query by done.
  cbv beta iota. set (w2 := tick _ w1). change (files w2) with (files w). rewrite Hf. cbn [fst snd]. destruct (negb (isRetry j)).
  - rewrite alone_bind. unfold emit. rewrite alone_step. cbn [fst snd]. by rewrite alone_query by done.
  - unfold emit. by rewrite alone_step.
Qed.

(** A job whose row throws throws the same, and its file, if it was under way, is set to
    interrupted. *)
Theorem failure_interrupts run j w e w1 : (forall k, db_error k = None) ->
  alone (bulkRow run (orgId j) (job_fileUploadId j) (id j) (processBulkRow run j)) w = (Throw e, w1) ->
  (alone (processIssuanceData run j) w).1 = Throw e /\
  files (alone (processIssuanceData run j) w).2 = Table.update_where (interruptible (job_fileUploadId j) (orgId j)) (with_status interrupted) (files w1).
Proof.
  intros Hd H. unfold processIssuanceData. rewrite alone_catching, alone_bind, H. rewrite alone_bind, alone_catching, alone_bind.
  unfold interruptFileUpload. rewrite alone_query by done. cbn [fst snd]. destruct (existsb _ _); [unfold emit; by rewrite alone_step | done].
Qed.

(** ** Retries *)

Lemma assert_refuses fuel org file l id w : (length l <= fuel)%nat -> id ∈ l -> is_Some (Coordinator.guards (redis w) !! Coordinator.rowKey org file id) ->
  exists e w', alone (assert_slices fuel org file l) w = (Throw e, w') /\ background w' = background w.
Proof.
  revert l w. induction fuel as [|fuel IH]; intros [|i l] w Hl Hin Hg; simpl in Hl; [by apply elem_of_nil in Hin | lia | by apply elem_of_nil in Hin|].
  cbn [assert_slices]. rewrite alone_bind. unfold mget, eval. rewrite alone_step. cbv zeta.
  set (k := take 2000 (i :: l)). destruct (Coordinator.eval_error (ticks w)) as [e|].
  { exists e. eexists. split; [done|]. by destruct (Coordinator.eval_applied _). }
  cbn [fst snd]. set (w1 := tick _ _). destruct (existsb _ _) eqn:E; [by do 2 eexists|].
  destruct (IH (drop 2000 (i :: l)) w1) as (e & w' & He & Hb); [rewrite length_drop; simpl; lia | | done |].
  - rewrite <- (take_drop 2000 (i :: l)) in Hin. apply elem_of_app in Hin as [Hin|]; [|done]. exfalso. fold k in Hin.
    apply not_true_iff_false in E. apply E, existsb_exists. exists (Coordinator.guards (redis w) !! Coordinator.rowKey org file id). split.
    + by apply (in_map (fun c => Coordinator.guards (redis w) !! c)), (in_map (Coordinator.rowKey org file)), list_elem_of_In.
    + by destruct Hg as [o ->].
  - exists e, w'. split; [done|]. by rewrite Hb.
Qed.

(** In every reachable state: as long as a row for which an offer was requested is not
    marked as issued, a retry of its file is refused and queues nothing. *)
Theorem retry_refused ps w0 w x own r file org client check_schema : initial w0 -> rtc system_step (∅, w0) (ps, w) ->
  (x, own) ∈ dispatched w -> r ∈ rows w -> normalize (fd_id r) = normalize x.2 -> status r = false ->
  row_of file r = true -> normalize file = normalize x.1.2 -> normalize org = normalize x.1.1 ->
  exists e w', alone (retryBulkCredential file org client check_schema) w = (Throw e, w') /\ background w' = background w.
Proof.
  intros H0 Hs Hx Hr Hid Hst Hof Hf Ho. assert (Hg : Coordinator.guards (redis w) !! Coordinator.rowKey org file (fd_id r) = Some own).
  { assert (Hi : inv w) by by eapply reachable_inv. destruct (inv_out _ Hi _ _ Hx) as [Hset|Hg]; [by rewrite (Hset r Hr Hid) in Hst|].
    rewrite <- Hg. f_equal. apply (row_key_norm (org, file, fd_id r)). unfold norm. simpl. by rewrite Hid, Hf, Ho. }
  assert (Hin : r ∈ List.filter (fun r => row_of file r && failed_row r) (rows w)).
  { apply elem_of_filter_b. split; [done|]. unfold failed_row. rewrite Hof, Hst. by destruct (isError r). }
  unfold retryBulkCredential. rewrite alone_catching, alone_bind. unfold getFileDetailsById. rewrite alone_read.
  destruct (db_error (ticks w)); [by do 2 eexists|]. destruct (Table.first _ _); [|by do 2 eexists]. rewrite alone_bind.
  unfold getFailedCredentials. rewrite alone_read. destruct (db_error _); [by do 2 eexists|]. cbn [fst snd]. change (rows (tick _ w)) with (rows w).
  set (l := List.filter _ (rows w)) in *. rewrite bool_decide_false by (intros E; rewrite E in Hin; by apply elem_of_nil in Hin).
  rewrite alone_bind. set (w1 := tick _ _). unfold assertRetryable.
  destruct (assert_refuses (length (map fd_id l)) org file (map fd_id l) (fd_id r) w1) as (e & w' & He & Hb); [done | by apply list_elem_of_fmap_2 | by exists own|].
  rewrite He. do 2 eexists. split; [done|]. by rewrite Hb.
Qed.
End files.

(** ** A file whose row was offered but not delivered *)

Module BulkSample.
Fixpoint rep (c : ascii) (n : nat) : string := match n with O => "" | S n' => String c (rep c n') end.

Definition number (t n : nat) : string := String "x" (rep "a" t +:+ rep "b" n).

Lemma number_inj t n t' n' : number t n = number t' n' -> t = t' /\ n = n'.
Proof.
  intros [= H]. revert t' H. induction t as [|t IH]; intros [|t'] H; simpl in H.
  - split; [done|]. revert n' H. induction n as [|n IH]; intros [|n'] H; simpl in H; try done. injection H as H. by rewrite (IH n').
  - by destruct n.
  - by destruct n'.
  - injection H as H. by destruct (IH _ H) as [-> ->].
Qed.

(** Text of small letters is normal. *)
Fixpoint small (s : string) : bool :=
  match s with "" => true | String c s' => negb (Str.is_space c) && Ascii.eqb (Str.lower c) c && small s' end.

Lemma small_normal s : small s = true -> Coordinator.normalize s = s.
Proof.
  intros H. unfold Coordinator.normalize. assert (Hl : forall s, small s = true -> Str.toLowerCase s = s).
  { clear. induction s as [|c s IH]; [done|]. simpl. intros [[_ Hc%Ascii.eqb_eq]%andb_true_iff Hs]%andb_true_iff. by rewrite Hc, IH. }
  assert (Hd : forall s, small s = true -> Str.drop_end Str.is_space s = s).
  { clear. induction s as [|c s IH]; [done|]. simpl. intros [[Hc%negb_true_iff _]%andb_true_iff Hs]%andb_true_iff. rewrite IH by done. by destruct s; rewrite ?Hc. }
  unfold Str.trim. destruct s as [|c s]; [done|]. cbn [small] in H. apply andb_true_iff in H as [Hc Hs]. apply andb_true_iff in Hc as [Hc Hc'].
  cbn [Str.trim_start]. destruct (Str.is_space c) eqn:E; [done|]. assert (Hcs : small (String c s) = true) by (simpl; by rewrite E, Hc', Hs).
  rewrite Hd by done. by apply Hl.
Qed.

Lemma number_small t n : small (number t n) = true.
Proof. simpl. induction t as [|t IH]; simpl; [by induction n | done]. Qed.

Definition numbers : RunUuid.
Proof.
  refine {| run_uuid := number |}; [apply number_inj | by intros | intros t n; apply small_normal, number_small].
Defined.

Definition silent_mail : Agents := {|
  on_offer _ := Ok (Some (Json.JObj [("invitationUrl", Json.JStr "https://agent/invitation")]));
  on_store _ := Ok "https://agent/1"; on_http _ := Ok true; on_qr _ := Ok "data"; on_email _ := Ok false; on_thread _ := Ok tt;
  on_schemas _ := Ok None; on_import _ := Throw (js_error "no file") |}.

Definition sound_storage : Storage := {| db_error _ := None; db_applied _ := true |}.

Definition one_agent : Deployment := {|
  org_agents := [Agent "org" None "https://agent" None]; organisations := [("org", "Issuer")];
  schemas := [Schema "schema" "Diploma" "[]"]; credential_definitions := [CredDef "definition" "schema"]; invitation_dids := [];
  platform_config := Some "no-reply@issuer"; PLATFORM_NAME := None; DEEPLINK_DOMAIN := Some "https://issuer/" |}.

Definition plain : branding := Branding None None None None None None None.
Definition row : string := number 0 0.
Definition file : string := number 0 1.
Definition data : Json.value := Json.JObj [("email_identifier", Json.JStr "holder@mail"); ("name", Json.JStr "Ada")].

Definition loaded : world := World (Coordinator.Shared ∅ ∅ ∅) 0 0 ∅
  [FileUpload file (Some "diplomas.csv") started (Some "org") (Some INDY) (Some "schema")]
  [FileData row None false None file "schema" "definition" false (Some data) (Some INDY)]
  ∅ [] [] ∅ [] [] 2.

Definition job : IQueuePayload := Job row "batch" (Some "key") "client" None file "schema" "definition" false (Some data) "org" (Some INDY) 1 false true false plain.

#[local] Existing Instances Coordinator.quiet numbers silent_mail sound_storage one_agent.

Definition after_job : world := (alone (issueCredential 1 job) loaded).2.
Definition finished : gmap nat (prog world unit) := <[1%nat := Return (alone (issueCredential 1 job) loaded).1]> ∅.

Lemma loaded_initial : initial loaded.
Proof. split; [|done..]. intros r ->%list_elem_of_singleton. exists 0%nat, 0%nat. split; [simpl; lia | done]. Qed.

Lemma after_job_reachable : rtc system_step (∅, loaded) (finished, after_job).
Proof.
  unfold finished, after_job. generalize (start_job 1 job). generalize (issueCredential 1 job). intros p Hp.
  eapply rtc_l; [by apply (step_start _ _ 1%nat p) | apply alone_steps].
Qed.

Definition asked : identity * string := ("org", file, row, number 1 2).
Definition left_row : file_data := FileData row (Some "holder@mail") true (Some "Credential offer or delivery did not complete") file "schema" "definition" false (Some data) (Some INDY).

Lemma after_job_state : dispatched after_job = [asked] /\ rows after_job = [left_row].
Proof. split; vm_compute; reflexivity. Qed.

Lemma offered_at_most_once_witness : offers after_job = length (dispatched after_job) /\ NoDup ((fun e => norm e.1) <$> dispatched after_job).
Proof. exact (offered_at_most_once finished loaded after_job loaded_initial after_job_reachable). Defined.

(** The offer was made, the message was not sent: the retry is refused. *)
Lemma retry_refused_witness : exists e w', alone (retryBulkCredential file " ORG" (Client "client" false plain) true) after_job = (Throw e, w') /\ background w' = background after_job.
Proof.
  apply (retry_refused finished loaded after_job ("org", file, row) (number 1 2) left_row);
    [exact loaded_initial | exact after_job_reachable | rewrite (proj1 after_job_state); left | rewrite (proj2 after_job_state); left | reflexivity..].
Defined.

Lemma completion_status_witness :
  files (alone (completeBulkRow job true) loaded).2 = [FileUpload file (Some "diplomas.csv") partially_completed (Some "org") (Some INDY) (Some "schema")].
Proof.
  destruct (completion_status job true loaded) as [_ H]; [done..| |reflexivity|].
  - vm_compute. split; discriminate.
  - rewrite H. vm_compute. reflexivity.
Defined.

Definition strangers_job : IQueuePayload := Job row "batch" (Some "key") "client" None file "schema" "definition" false (Some data) "other" (Some INDY) 1 false true false plain.

Lemma failure_interrupts_witness :
  (alone (processIssuanceData 1 strangers_job) loaded).1 = Throw (js_error "Issuance row does not belong to the requested file and organization").
Proof.
  eapply (failure_interrupts 1 strangers_job loaded); [done | vm_compute; reflexivity].
Defined.

(** A file that is retried is not under way, so that nothing records that its job failed. *)
Example retry_not_interrupted :
  let retried := set_files [FileUpload file (Some "diplomas.csv") partially_completed (Some "org") (Some INDY) (Some "schema")] after_job in
  is_ok (alone (processIssuanceData 2 job) retried).1 = false /\ files (alone (processIssuanceData 2 job) retried).2 = files retried.
Proof. split; vm_compute; reflexivity. Qed.
End BulkSample.
