(* ===== verification/DidcommData.v ===== *)
(** * Exchanges with wallets: data

    The rows that the connection, verification and issuance services share, what they send
    to the agent service, and the state of a run.  A connection, a presentation or a credential
    is recorded when the agent reports it; presentations and credentials refer to connections. *)

From S2P Require Import Prelude Js Table CommonUtils CommonService IssuanceData ResponseCode.

Open Scope Z_scope.

(** ** Rows *)

Record org_agents := OrgAgent {
  oa_id : string;
  oa_orgId : option string;
  agentEndPoint : option string;
  tenantId : option string;
  orgDid : option string;
  orgAgentTypeId : option string;
  redirectUriAllowlist : option string;
  oa_changedBy : string;
}.

Record organisation := Organisation { o_id : string; o_name : string; logoUrl : option string }.

Record agent_invitations := AgentInvitation {
  ai_id : string;
  ai_orgId : string;
  ai_agentId : string;
  connectionInvitation : string;
  multiUse : bool;
  ai_created : Z;
  invitationDid : option string;
}.

Record shortening_url := ShorteningUrl { su_id : string; referenceId : option string }.

Record connections := Connection {
  cn_id : string;
  cn_created : Z;
  cn_createdBy : string;
  cn_changed : Z;
  cn_changedBy : string;
  cn_connectionId : string;
  theirLabel : string;
  cn_state : string;
  cn_orgId : option string;
}.

Record credentials := Credential {
  cr_id : string;
  cr_created : Z;
  cr_createdBy : string;
  cr_changedBy : string;
  cr_connectionId : option string;
  cr_threadId : string;
  credentialExchangeId : string;
  cr_state : string;
  cr_schemaId : string;
  credDefId : string;
  cr_orgId : option string;
}.

Record presentations := Presentation {
  pr_id : string;
  pr_created : Z;
  pr_createdBy : string;
  pr_changedBy : string;
  pr_connectionId : option string;
  pr_state : option string;
  pr_threadId : string;
  isVerified : option bool;
  presentationId : option string;
  pr_schemaId : option string;
  pr_errorMessage : option string;
  emailId : option string;
  pr_orgId : option string;
}.

(** An absent value in a template literal *)
Definition literal (o : option string) : string := default "null" o.

(** ** Other parties *)

(** An object literal: a property that is [undefined] is not sent. *)
Definition obj (fields : list (string * any)) : Json.value := Json.JObj (omap (fun f => pair f.1 <$> f.2) fields).

Inductive call :=
  | Nats (cmd : string) (payload : any)
  | SendEmail (from to subject orgName deepLinkURL qrCode : string)
  | HttpGet (url : string).

#[export] Instance json_inhabited : Inhabited Json.value := populate Json.JNull.

(** The characters that [.] does not match *)
Definition line_terminator (c : ascii) : bool := Ascii.eqb c "010" || Ascii.eqb c "013".

(** What a service rejects a message with: the properties of an object *)
Definition error : Type := list (string * Json.value).

(** The tables of other services, the configuration, and how the other parties answer, given
    all that was sent to them before.  [column_order] is the order the database sorts the rows
    of a listing in, for a column and a direction; [encrypt_other] is what the cipher makes of
    something that is no string. *)
Class Agents := {
  organisations : list organisation;
  emailFrom : option string;
  agent_types : list (string * string);                (* identifier and [agent] *)
  schemas : list schema_row;
  definitions : list credential_definition;
  on_call : list call -> any + error;
  on_email : list call -> result bool;
  on_get : list call -> result any;
  reading : nat -> Z;
  toDataURL : string -> result string;
  encrypt_other : any -> result string;
  connection_order : string -> bool -> connections -> connections -> bool;
  presentation_order : string -> bool -> presentations -> presentations -> bool;
  credential_order : string -> bool -> credentials -> credentials -> bool;
}.

(** ** The state *)

Record world := World {
  agents : list org_agents;
  invitations : list agent_invitations;
  shortening_urls : list shortening_url;
  conns : list connections;
  creds : list credentials;
  proofs : list presentations;
  files : list file_upload;
  file_rows : list file_data;
  calls : list call;
  codes : ResponseCode.world;
  drawn : nat;
  readings : nat;
}.

Definition set_agents x (w : world) : world := World x (invitations w) (shortening_urls w) (conns w) (creds w) (proofs w) (files w) (file_rows w) (calls w) (codes w) (drawn w) (readings w).
Definition set_invitations x (w : world) : world := World (agents w) x (shortening_urls w) (conns w) (creds w) (proofs w) (files w) (file_rows w) (calls w) (codes w) (drawn w) (readings w).
Definition set_urls x (w : world) : world := World (agents w) (invitations w) x (conns w) (creds w) (proofs w) (files w) (file_rows w) (calls w) (codes w) (drawn w) (readings w).
Definition set_conns x (w : world) : world := World (agents w) (invitations w) (shortening_urls w) x (creds w) (proofs w) (files w) (file_rows w) (calls w) (codes w) (drawn w) (readings w).
Definition set_creds x (w : world) : world := World (agents w) (invitations w) (shortening_urls w) (conns w) x (proofs w) (files w) (file_rows w) (calls w) (codes w) (drawn w) (readings w).
Definition set_proofs x (w : world) : world := World (agents w) (invitations w) (shortening_urls w) (conns w) (creds w) x (files w) (file_rows w) (calls w) (codes w) (drawn w) (readings w).

Definition set_files x y (w : world) : world := World (agents w) (invitations w) (shortening_urls w) (conns w) (creds w) (proofs w) x y (calls w) (codes w) (drawn w) (readings w).

(** An aborted transaction leaves the tables as they were. *)
Definition rollback (w w' : world) : world :=
  World (agents w) (invitations w) (shortening_urls w) (conns w) (creds w) (proofs w) (files w) (file_rows w) (calls w') (codes w') (drawn w') (readings w').

(** ** Pages *)

Record paged {R} := Paged {
  totalItems : Z;
  hasNextPage : bool;
  hasPreviousPage : bool;
  nextPage : Z;
  previousPage : Z;
  lastPage : Z;
  data : list R;
}.
Arguments paged : clear implicits.

Record search_criteria := SearchCriteria {
  pageNumber : Z;
  pageSize : Z;
  sortField : string;
  sortBy : string;
  search : option string;
}.

Section operations.
Context {A : Agents} {U : UuidSource}.

Definition fresh : eff world string := fun w =>
  (Ok (uuid (drawn w)), World (agents w) (invitations w) (shortening_urls w) (conns w) (creds w) (proofs w) (files w) (file_rows w) (calls w) (codes w) (S (drawn w)) (readings w)).
Definition now : eff world Z := fun w =>
  (Ok (reading (readings w)), World (agents w) (invitations w) (shortening_urls w) (conns w) (creds w) (proofs w) (files w) (file_rows w) (calls w) (codes w) (drawn w) (S (readings w))).
Definition placed (c : call) : eff world (list call) := fun w =>
  let cs := (calls w ++ [c])%list in
  (Ok cs, World (agents w) (invitations w) (shortening_urls w) (conns w) (creds w) (proofs w) (files w) (file_rows w) cs (codes w) (drawn w) (readings w)).

(** An operation on the response codes *)
Definition redis {B} (m : eff ResponseCode.world B) : eff world B := fun w =>
  let '(r, c) := m (codes w) in
  (r, World (agents w) (invitations w) (shortening_urls w) (conns w) (creds w) (proofs w) (files w) (file_rows w) (calls w) c (drawn w) (readings w)).

(** [natsClient.send]: a rejection is mapped by the handler that catches it. *)
Definition send (cmd : string) (payload : list (string * any)) : eff world (any + error) :=
  cs ← placed (Nats cmd (Some (obj payload))); mret (on_call cs).
Definition sent (catch : error -> exn) (cmd : string) (payload : list (string * any)) : eff world any :=
  answer ← send cmd payload;
  match answer with inl v => mret v | inr e => throw (catch e) end.

(** ** Errors

    Of an object that ends a message its texts and numbers are kept: [message], and
    [statusCode] or [status]. *)

Definition as_num (a : any) : option Z := match a with Some (Json.JNum n) => Some n | _ => None end.
Definition nullish (a : any) : bool := match a with None | Some Json.JNull => true | _ => false end.
(** [a ?? b] and [a || b] *)
Definition or_else (a b : any) : any := if nullish a then b else a.
Definition or_falsy (a b : any) : any := if any_truthy a then a else b.

Definition rpc_with (message statusCode : any) : exn := Exn RpcException (default "" (Json.as_str message)) (as_num statusCode) None.
Definition rpc_value (v : any) : exn := rpc_with (prop_opt "message" v) (or_else (prop_opt "statusCode" v) (prop_opt "status" v)).

(** [new RpcException(error)] and [new RpcException(error?.response ?? error)] *)
Definition rpc_error (e : error) : exn := rpc_value (Some (Json.JObj e)).
Definition rpc_response (e : error) : exn := rpc_value (or_else (Json.field "response" e) (Some (Json.JObj e))).

(** [new HttpException({ status: error.status, error: error.message }, error.status)] *)
Definition wrapped (e : error) : error :=
  ("response", obj [("status", Json.field "status" e); ("error", Json.field "message" e)]) ::
  omap (fun f => pair f.1 <$> f.2) [("status", Json.field "status" e); ("message", of_str (Some "Http Exception"))].

(** [error?.status?.message?.error] and [error?.error?.reason] *)
Definition status_error (e : error) : any := prop_opt "error" (prop_opt "message" (Json.field "status" e)).
Definition error_reason (e : error) : any := prop_opt "reason" (Json.field "error" e).

(** ** Queries of the three repositories *)

Definition agent_of (orgId : string) (a : org_agents) : bool := bool_decide (oa_orgId a = Some orgId).

(** An absent tenant filters nothing. *)
Definition tenant_is (tenant : option string) (a : org_agents) : bool :=
  match tenant with None => true | Some t => bool_decide (tenantId a = Some t) end.

Definition getOrganizationByTenantId (tenant : option string) : eff world (option org_agents) :=
  gets (fun w => first (tenant_is tenant) (agents w)).

(** The organization a webhook is for: its tenant's, or the one in the path of the default tenant *)
Definition webhook_org (contextCorrelationId : option string) (orgId : option string) : eff world (option string) :=
  if bool_decide (contextCorrelationId = Some "default") then mret orgId
  else a ← getOrganizationByTenantId contextCorrelationId; mret (a ≫= oa_orgId).

Definition getInvitationDidByOrgId (orgId : string) : eff world (option agent_invitations) :=
  gets (fun w => first (fun _ => true)
    (sort_asc ai_created (List.filter (fun i => String.eqb (ai_orgId i) orgId && bool_decide (is_Some (invitationDid i))) (invitations w)))).

Definition org_exists (orgId : string) : bool := existsb (fun o => String.eqb (o_id o) orgId) organisations.
Definition connection_is (id : string) (c : connections) : bool := String.eqb (cn_connectionId c) id.

Definition prisma_validation : exn := Exn PrismaError "Argument is missing" None None.
Definition prisma_foreign_key : exn := Exn PrismaError "Foreign key constraint failed" None (Some "P2003").
Definition not_found (m : string) : exn := http_exn NotFoundException m.
Definition conflict (m : string) : exn := http_exn ConflictException m.

(** A row of a connection may be named by its identifier. *)
Definition refers (connectionId : option string) (w : world) : bool :=
  match connectionId with None => true | Some c => existsb (connection_is c) (conns w) end.

(** ** Deleted records *)

Definition count_state (s : string) (states : list string) : Z := Z.of_nat (length (List.filter (String.eqb s) states)).

(** [filteredStatusCounts]: the known states that occur, in the order they are listed *)
Definition statusCounts (known states : list string) : Json.value :=
  obj (map (fun s => (s, if 0 <? count_state s states then Some (Json.JNum (count_state s states)) else None)) known).

Record user := User { us_id : string; us_email : string }.

(** [_orgDeletedActivity], whose failure is a response of its own *)
Definition activity_failed (e : error) : exn :=
  let inner k := prop_opt k (Json.field "error" e) in
  rpc_with (or_else (or_else (Json.field "message" e) (inner "message")) (of_str (Some "Internal server error")))
    (or_else (or_else (or_else (Json.field "status" e) (Json.field "statusCode" e)) (inner "statusCode")) (Some (Json.JNum 500))).

Definition _orgDeletedActivity (orgId : string) (u : option user) (txnMetadata : Json.value) (recordType : string) : eff world unit :=
  _ ← sent activity_failed "org-deleted-activity"
    [("orgId", of_str (Some orgId)); ("userId", of_str (us_id <$> u)); ("deletedBy", of_str (us_id <$> u)); ("recordType", of_str (Some recordType));
     ("userEmail", of_str (us_email <$> u)); ("txnMetadata", Some txnMetadata)];
  mret tt.

(** ** Listings *)

(** [contains] with [mode: 'insensitive'], on a column that may be [null]; an absent text
    filters nothing. *)
Definition contains_insensitive (search : option string) (o : option string) : bool :=
  match search, o with
  | None, _ => true
  | Some s, Some t => Str.contains (Str.toLowerCase s) (Str.toLowerCase t)
  | Some _, None => false
  end.

(** [skip] must not be negative. *)
Definition find_page {W R} (le : R -> R -> bool) (c : search_criteria) (rows : list R) : eff W (list R) :=
  if (pageNumber c - 1) * pageSize c <? 0 then throw prisma_validation
  else mret (page_of (pageNumber c) (pageSize c) (sort_by le rows)).

Definition paged_response {R} (c : search_criteria) (count : Z) (rows : list R) : paged R :=
  Paged _ count (pageSize c * pageNumber c <? count) (1 <? pageNumber c) (pageNumber c + 1) (pageNumber c - 1) (ceil_div count (pageSize c)) rows.
End operations.
