(* ===== verification/Connection.v ===== *)
(** * Connections

    [connection.service.ts] with [connection.repository.ts] and the messages of
    [connection.controller.ts]: an organization's agent invites wallets to connect, reports
    their connections, and sends messages on them. *)

From S2P Require Import Prelude Js Regex Table CommonUtils CommonService ResponseCode DidcommData.

Open Scope Z_scope.

(** ** Masked labels *)

Definition slice (from to : nat) (s : string) : string := String.substring from (to - from) s.
(** [s.replace(/./g, '*')] *)
Definition stars (s : string) : string := Regex.replace_each (fun c => negb (line_terminator c)) "*" s.

Definition maskedTheirLabel (walletLabelName : string) : string :=
  let n := String.length walletLabelName in
  let masked first last := slice 0 first walletLabelName +:+ stars (slice first (n - last) walletLabelName) +:+ slice (n - last) n walletLabelName in
  if (n <=? 3)%nat then slice 0 1 walletLabelName +:+ stars (slice 1 n walletLabelName)
  else if (3 <? n)%nat && (n <? 6)%nat then masked 1%nat 1%nat
  else if (6 <=? n)%nat && (n <=? 8)%nat then masked 2%nat 2%nat
  else if (8 <? n)%nat then masked 3%nat 3%nat
  else walletLabelName.

Section service.
Context {A : Agents} {U : UuidSource}.

(** ** Repository *)

(** The agent's row and its organization, which may be absent *)
Definition getAgentEndPoint (orgId : string) : eff world (option (org_agents * option organisation)) :=
  gets (fun w => (fun a => (a, first (fun o => bool_decide (oa_orgId a = Some (o_id o))) organisations)) <$> first (agent_of orgId) (agents w)).

Definition saveAgentConnectionInvitations (connectionInvitation : any) (agentId orgId : string) (did : any) : eff world agent_invitations :=
  match connectionInvitation, did with
  | Some (Json.JStr url), (None | Some Json.JNull | Some (Json.JStr _)) =>
      id ← fresh; t ← now;
      let row := AgentInvitation id orgId agentId url true t (Json.as_str did) in
      _ ← modify (fun w => set_invitations (invitations w ++ [row])%list w);
      mret row
  | _, _ => throw prisma_validation
  end.

Record ICreateConnectionPayload := ConnectionDto {
  co_createDateTime : option string;
  co_lastChangedDateTime : option string;
  co_id : option string;
  co_state : option string;
  co_theirLabel : option string;
  co_contextCorrelationId : option string;
}.

(** A date that is given must be one. *)
Definition date_of (s : option string) : option (option Z) := match s with None => Some None | Some s => Some <$> Date.parse s end.

Definition with_report (state : option string) (changed : option Z) (by_ : string) (c : connections) : connections :=
  Connection (cn_id c) (cn_created c) (cn_createdBy c) (default (cn_changed c) changed) by_ (cn_connectionId c) (theirLabel c) (default (cn_state c) state) (cn_orgId c).

(** The data of an upsert is checked as a whole before a row is looked for. *)
Definition saveConnectionWebhook (connectionDto : option ICreateConnectionPayload) (orgId : option string) : eff world connections :=
  organisationId ← webhook_org (connectionDto ≫= co_contextCorrelationId) orgId;
  match connectionDto with
  | None => throw not_an_object
  | Some d =>
      match co_theirLabel d with
      | None => throw not_an_object
      | Some walletLabelName =>
          match co_id d, co_state d, organisationId, date_of (co_createDateTime d), date_of (co_lastChangedDateTime d) with
          | Some connectionId, Some state, Some org, Some created, Some changed =>
              rows ← gets conns;
              match first (connection_is connectionId) rows with
              | Some c =>
                  _ ← modify (set_conns (update_where (connection_is connectionId) (with_report (Some state) changed org) rows));
                  mret (with_report (Some state) changed org c)
              | None =>
                  if negb (org_exists org) then throw prisma_foreign_key else
                  id ← fresh; t ← now;
                  let row := Connection id (default t created) org (default t changed) org connectionId (maskedTheirLabel walletLabelName) state (Some org) in
                  _ ← modify (fun w => set_conns (conns w ++ [row])%list w);
                  mret row
              end
          | _, _, _, _, _ => throw prisma_validation
          end
      end
  end.

Definition storeShorteningUrl (reference : string) : eff world shortening_url :=
  rows ← gets shortening_urls;
  if existsb (fun u => bool_decide (referenceId u = Some reference)) rows then throw prisma_unique else
  id ← fresh;
  let row := ShorteningUrl id (Some reference) in
  _ ← modify (fun w => set_urls (shortening_urls w ++ [row])%list w);
  mret row.

(** An absent reference filters nothing. *)
Definition getShorteningUrl (reference : option string) : eff world (option shortening_url) :=
  gets (fun w => first (fun u => match reference with None => true | Some _ => bool_decide (referenceId u = reference) end) (shortening_urls w)).

Definition conn_of (orgId : string) (c : connections) : bool := bool_decide (cn_orgId c = Some orgId).
Definition getConnectionRecordsCount (orgId : string) : eff world Z := gets (fun w => Z.of_nat (length (List.filter (conn_of orgId) (conns w)))).

Definition ascending (c : search_criteria) : bool := String.eqb "asc" (sortBy c).
Definition searched (orgId : string) (c : search_criteria) (r : connections) : bool :=
  conn_of orgId r && (contains_insensitive (search c) (Some (theirLabel r)) || contains_insensitive (search c) (Some (cn_connectionId r))).

Definition getAllConnections (orgId : string) (c : search_criteria) : eff world (Z * list connections) :=
  rows ← gets (fun w => List.filter (searched orgId c) (conns w));
  connectionsList ← find_page (connection_order (sortField c) (ascending c)) c rows;
  mret (Z.of_nat (length rows), connectionsList).

(** *** Deletion *)

Definition referencedTables (orgId : string) (w : world) : list string :=
  (if existsb (fun c => bool_decide (cr_orgId c = Some orgId)) (creds w) then ["credentials"] else []) ++
  (if existsb (fun p => bool_decide (pr_orgId p = Some orgId)) (proofs w) then ["presentations"] else []).

Definition referenced_message (orgId : string) (tables : list string) : string :=
  "Organization ID " +:+ orgId +:+ " is referenced in the following table(s): " +:+
  match tables with
  | [t] => t +:+ ", " +:+ (if String.eqb t "presentations" then "First you have to remove verification data" else "First you have to remove issuance data")
  | [t; t'] => t +:+ ", " +:+ t' +:+ ", First you have to remove credentials data and verification data"
  | _ => ""
  end.

(** The rows that name a removed connection lose its name ([ON DELETE SET NULL]). *)
Definition kept_reference (gone : list connections) (c : option string) : option string :=
  match c with Some id => if existsb (connection_is id) gone then None else Some id | None => None end.
Definition cr_detached (gone : list connections) (c : credentials) : credentials :=
  Credential (cr_id c) (cr_created c) (cr_createdBy c) (cr_changedBy c) (kept_reference gone (cr_connectionId c)) (cr_threadId c) (credentialExchangeId c)
    (cr_state c) (cr_schemaId c) (credDefId c) (cr_orgId c).
Definition pr_detached (gone : list connections) (p : presentations) : presentations :=
  Presentation (pr_id p) (pr_created p) (pr_createdBy p) (pr_changedBy p) (kept_reference gone (pr_connectionId p)) (pr_state p) (pr_threadId p)
    (isVerified p) (presentationId p) (pr_schemaId p) (pr_errorMessage p) (emailId p) (pr_orgId p).

Definition without_connections (orgId : string) (w : world) : world :=
  let gone := List.filter (conn_of orgId) (conns w) in
  set_conns (List.filter (fun c => negb (conn_of orgId c)) (conns w))
    (set_creds (map (cr_detached gone) (creds w)) (set_proofs (map (pr_detached gone) (proofs w)) w)).

Definition deleteConnectionRecordsByOrgId (orgId : string) : eff world (list connections) :=
  transaction rollback (
    w ← get;
    match referencedTables orgId w with
    | [] =>
        let getConnectionRecords := List.filter (conn_of orgId) (conns w) in
        _ ← put (without_connections orgId w);
        mret getConnectionRecords
    | tables => throw (conflict (referenced_message orgId tables))
    end).

(** ** Service *)

Definition getConnectionWebhook (dto : option ICreateConnectionPayload) (orgId : option string) : eff world connections := rpc (saveConnectionWebhook dto orgId).
Definition getConnectionRecords (orgId : string) : eff world Z := rpc (getConnectionRecordsCount orgId).

Definition getUrl (reference : option string) : eff world (option string) :=
  rpc (urlDetails ← getShorteningUrl reference; match urlDetails with Some u => mret (referenceId u) | None => throw not_an_object end).

Definition getConnections (orgId : string) (c : search_criteria) : eff world (paged connections) :=
  rpc (
    '(connectionCount, connectionsList) ← getAllConnections orgId c;
    if 0 =? connectionCount then throw (not_found "Connection not found") else mret (paged_response c connectionCount connectionsList)).

(** The agent's row is destructured before it is tested: without one, this throws. *)
Definition endpoint_of (orgId : string) : eff world (option string) :=
  agentDetails ← getAgentEndPoint orgId;
  match agentDetails with Some (a, _) => mret (agentEndPoint a) | None => throw not_an_object end.
Definition agent_url (endpoint : option string) (flag : string) (id : option string) : eff world string := lift (getAgentUrl (default "" endpoint) flag id).

Record AgentConnectionSearchCriteria := AgentCriteria {
  ac_alias : option string;
  ac_myDid : option string;
  ac_outOfBandId : option string;
  ac_state : option string;
  ac_theirDid : option string;
  ac_theirLabel : option string;
}.

Definition criteriaParams (c : AgentConnectionSearchCriteria) : list string :=
  (criterion "alias" (ac_alias c) ++ criterion "myDid" (ac_myDid c) ++ criterion "outOfBandId" (ac_outOfBandId c) ++
   criterion "state" (ac_state c) ++ criterion "theirDid" (ac_theirDid c) ++ criterion "theirLabel" (ac_theirLabel c))%list.

Definition getAllConnectionListFromAgent (orgId : string) (c : AgentConnectionSearchCriteria) : eff world any :=
  rpc (
    endpoint ← endpoint_of orgId;
    let url := literal endpoint +:+ "/didcomm/connections" in
    let url := match criteriaParams c with [] => url | params => url +:+ "?" +:+ Str.join "&" params end in
    sent rpc_error "agent-get-all-connections" [("url", of_str (Some url)); ("orgId", of_str (Some orgId))]).

Definition reason_or (otherwise : error -> exn) (e : error) : exn :=
  if any_truthy (error_reason e) then rpc_with (of_str (Some "Connection not found")) (Json.field "status" e) else otherwise e.

Definition getConnectionsById (connectionId orgId : string) : eff world any :=
  rpc (
    endpoint ← endpoint_of orgId;
    let url := replace_first "#" connectionId "" (literal endpoint +:+ "/didcomm/connections/#") in
    sent (reason_or rpc_error) "agent-get-connection-details-by-connectionId" [("url", of_str (Some url)); ("orgId", of_str (Some orgId))]).

(** [handleError] *)
Definition handleError (e : error) : exn :=
  if any_truthy (status_error e)
  then rpc_with (or_falsy (prop_opt "reason" (status_error e)) (status_error e)) (or_else (prop_opt "code" (Json.field "status" e)) (Some (Json.JNum 500)))
  else rpc_response e.

Definition getQuestionAnswersRecord (orgId : string) : eff world any :=
  rpc (
    endpoint ← endpoint_of orgId;
    url ← agent_url endpoint "get-question-answer-record" None;
    sent handleError "agent-get-question-answer-record" [("url", of_str (Some url)); ("orgId", of_str (Some orgId))]).

(** The rejection is wrapped first, so that the reason is never read from it. *)
Definition receive_url_failed (e : error) : exn :=
  let error := wrapped e in
  let customErrorMessage := prop_opt "message" (status_error error) in
  if any_truthy customErrorMessage then rpc_with customErrorMessage (Some (Json.JNum 409)) else reason_or rpc_response error.

Definition receiveInvitationUrl (receiveInvitationUrl : any) (orgId : string) : eff world any :=
  rpc (
    endpoint ← endpoint_of orgId;
    sent receive_url_failed "agent-receive-invitation-url"
      [("url", of_str (Some (literal endpoint +:+ "/didcomm/oob/receive-invitation-url"))); ("orgId", of_str (Some orgId)); ("receiveInvitationUrl", receiveInvitationUrl)]).

Definition receiveInvitation (receiveInvitation : any) (orgId : string) : eff world any :=
  rpc (
    endpoint ← endpoint_of orgId;
    sent (reason_or rpc_response) "agent-receive-invitation"
      [("url", of_str (Some (literal endpoint +:+ "/didcomm/oob/receive-invitation"))); ("orgId", of_str (Some orgId)); ("receiveInvitation", receiveInvitation)]).

Record IQuestionPayload := Question { q_detail : any; q_validResponses : any; q_question : any; q_orgId : string; q_connectionId : option string }.

Definition sendQuestion (q : IQuestionPayload) : eff world any :=
  rpc (
    endpoint ← endpoint_of (q_orgId q);
    let questionPayload := obj [("detail", q_detail q); ("validResponses", q_validResponses q); ("question", q_question q)] in
    url ← agent_url endpoint "send-question" (q_connectionId q);
    sent handleError "agent-send-question" [("questionPayload", Some questionPayload); ("url", of_str (Some url)); ("orgId", of_str (Some (q_orgId q)))]).

Definition sendBasicMessage (content : any) (orgId : string) (connectionId : option string) : eff world any :=
  rpc (
    endpoint ← endpoint_of orgId;
    agentUrl ← agent_url endpoint "send-basic-message" connectionId;
    sent handleError "agent-send-basic-message"
      [("content", Some (obj [("content", content)])); ("url", of_str (Some agentUrl)); ("orgId", of_str (Some orgId))]).

(** *** Invitations *)

Record ICreateConnectionInvitation := InvitationDto {
  iv_alias : any;
  iv_appendedAttachments : any;
  iv_autoAcceptConnection : any;
  iv_goal : any;
  iv_goalCode : any;
  iv_handshake : any;
  iv_handshakeProtocols : any;
  iv_imageUrl : any;
  iv_messages : any;
  iv_multiUseInvitation : any;
  iv_orgId : string;
  iv_routing : any;
  iv_recipientKey : any;
  iv_invitationDid : any;
  iv_IsReuseConnection : bool;
}.

(** [a || undefined] *)
Definition truthy_or_none (a : any) : any := if any_truthy a then a else None.

Definition connectionPayload (d : ICreateConnectionInvitation) (o : organisation) (did : any) : list (string * any) :=
  [("multiUseInvitation", or_else (iv_multiUseInvitation d) (Some (Json.JBool true)));
   ("autoAcceptConnection", or_else (iv_autoAcceptConnection d) (Some (Json.JBool true)));
   ("alias", truthy_or_none (iv_alias d));
   ("imageUrl", or_falsy (of_str (logoUrl o)) (truthy_or_none (iv_imageUrl d)));
   ("label", of_str (Some (o_name o)));
   ("goal", truthy_or_none (iv_goal d));
   ("goalCode", truthy_or_none (iv_goalCode d));
   ("handshake", truthy_or_none (iv_handshake d));
   ("handshakeProtocols", truthy_or_none (iv_handshakeProtocols d));
   ("appendedAttachments", truthy_or_none (iv_appendedAttachments d));
   ("routing", truthy_or_none (iv_routing d));
   ("messages", truthy_or_none (iv_messages d));
   ("recipientKey", truthy_or_none (iv_recipientKey d));
   ("invitationDid", truthy_or_none did)].

(** The DID an invitation is made for: the one asked for, else the first one stored when
    connections are reused *)
Definition connectionInvitationDid (d : ICreateConnectionInvitation) : eff world any :=
  legacyinvitationDid ← (if iv_IsReuseConnection d then i ← getInvitationDidByOrgId (iv_orgId d); mret (of_str (i ≫= invitationDid)) else mret None);
  mret (or_falsy (iv_invitationDid d) legacyinvitationDid).

Definition storeConnectionObjectAndReturnUrl (connectionInvitationUrl persistent : any) : eff world any :=
  sent (fun e => handleError (wrapped e)) "store-object-return-url" [("persistent", persistent); ("storeObj", connectionInvitationUrl)].

Record ConnectionResponseDetail := ResponseDetail { rd_invitation : agent_invitations; rd_recordId : any }.

Definition createConnectionInvitation (d : ICreateConnectionInvitation) : eff world ConnectionResponseDetail :=
  rpc (
    agentDetails ← getAgentEndPoint (iv_orgId d);
    match agentDetails with
    | None => throw not_an_object
    | Some (agent, org) =>
        did ← connectionInvitationDid d;
        match org with
        | None => throw not_an_object
        | Some o =>
            url ← agent_url (agentEndPoint agent) "connection-invitation" None;
            created ← sent (fun e => handleError (wrapped e)) "agent-create-connection-invitation"
              [("connectionPayload", Some (obj (connectionPayload d o did))); ("url", of_str (Some url)); ("orgId", of_str (Some (iv_orgId d)))];
            shortenedUrl ← storeConnectionObjectAndReturnUrl (prop_opt "invitationUrl" created) (or_else (iv_multiUseInvitation d) (Some (Json.JBool true)));
            saved ← saveAgentConnectionInvitations shortenedUrl (oa_id agent) (iv_orgId d) (or_falsy (prop_opt "invitationDid" created) (iv_invitationDid d));
            record ← lift (r ← CommonService.prop "outOfBandRecord" created; CommonService.prop "id" r);
            mret (ResponseDetail saved record)
        end
    end).

(** *** Deletion *)

Definition ConnectionProcessState : list string :=
  ["start"; "completed"; "abandoned"; "invitation-sent"; "invitation-received"; "request-sent"; "decliend"; "request-received"; "response-sent"; "response-received"].

Definition deletedConnectionData (rows : list connections) : Json.value :=
  obj [("deletedConnectionsRecordsCount", Some (Json.JNum (Z.of_nat (length rows))));
       ("deletedRecordsStatusCount", Some (statusCounts ConnectionProcessState (map cn_state rows)))].

Definition deleteConnectionRecords (orgId : string) (u : option user) : eff world (list connections) :=
  rpc (
    deleted ← deleteConnectionRecordsByOrgId orgId;
    match deleted with
    | [] => throw (not_found "Connection records does not exists")
    | _ =>
        _ ← _orgDeletedActivity orgId u (deletedConnectionData deleted) "CONNECTION";
        mret deleted
    end).

(** ** Messages *)

Inductive message :=
  | ConnectionWebhook (dto : option ICreateConnectionPayload) (orgId : option string)
  | GetUrl (reference : option string)
  | GetConnections (orgId : string) (c : search_criteria)
  | GetAgentConnections (orgId : string) (c : AgentConnectionSearchCriteria)
  | GetConnection (connectionId orgId : string)
  | GetRecords (orgId : string)
  | ReceiveInvitationUrl (invitation : any) (orgId : string)
  | ReceiveInvitation (invitation : any) (orgId : string)
  | SendQuestion (q : IQuestionPayload)
  | GetAnswers (orgId : string)
  | CreateInvitation (d : ICreateConnectionInvitation)
  | DeleteRecords (orgId : string) (u : option user)
  | SendBasicMessage (content : any) (orgId : string) (connectionId : option string).

Definition done_ {B} (m : eff world B) : eff world unit := _ ← m; mret tt.

Definition handle (m : message) : eff world unit :=
  match m with
  | ConnectionWebhook dto orgId => done_ (getConnectionWebhook dto orgId)
  | GetUrl reference => done_ (getUrl reference)
  | GetConnections orgId c => done_ (getConnections orgId c)
  | GetAgentConnections orgId c => done_ (getAllConnectionListFromAgent orgId c)
  | GetConnection connectionId orgId => done_ (getConnectionsById connectionId orgId)
  | GetRecords orgId => done_ (getConnectionRecords orgId)
  | ReceiveInvitationUrl invitation orgId => done_ (receiveInvitationUrl invitation orgId)
  | ReceiveInvitation invitation orgId => done_ (receiveInvitation invitation orgId)
  | SendQuestion q => done_ (sendQuestion q)
  | GetAnswers orgId => done_ (getQuestionAnswersRecord orgId)
  | CreateInvitation d => done_ (createConnectionInvitation d)
  | DeleteRecords orgId u => done_ (deleteConnectionRecords orgId u)
  | SendBasicMessage content orgId connectionId => done_ (sendBasicMessage content orgId connectionId)
  end.
End service.
