(* ===== verification/ProofFormats.v ===== *)
(** * Proof requests and verified proofs

    The two formats of [verification.service.ts]: what is asked of a wallet
    ([_proofRequestPayload], [sendProofRequest]) and what is read of its answer
    ([getVerifiedProofdetails]).  Objects are JSON values; only their own properties are read. *)

From S2P Require Import Prelude Js Table CommonUtils CommonService ResponseCode DidcommData.

Open Scope Z_scope.

(** ** Text *)

(** The longest prefix of characters that satisfy [p] *)
Fixpoint take_while (p : ascii -> bool) (s : string) : string :=
  match s with String c s' => if p c then String c (take_while p s') else "" | EmptyString => "" end.

(** [parseInt(s)]: [None] is [NaN].  Beyond the safe integers the language rounds. *)
Definition hex_digit (c : ascii) : option Z := Z.of_N <$> Uri.hex c.
Fixpoint digits (base : Z) (digit : ascii -> option Z) (acc : option Z) (s : string) : option Z :=
  match s with
  | String c s' => match digit c with Some d => digits base digit (Some (base * default 0 acc + d)) s' | None => acc end
  | EmptyString => acc
  end.
Definition parseInt (s : string) : option Z :=
  let '(sign, s) := Num.read_sign (Str.trim_start s) in
  Z.mul sign <$> match s with
  | String "0" (String x r) => if Ascii.eqb (Str.lower x) "x" then digits 16 hex_digit None r else digits 10 Num.digit None s
  | _ => digits 10 Num.digit None s
  end.

(** What follows the first occurrence of [p] *)
Fixpoint after (p s : string) : option string :=
  if Str.startsWith p s then Some (String.substring (String.length p) (String.length s - String.length p) s)
  else match s with EmptyString => None | String _ s' => after p s' end.

(** The text between here and the first ["']"] on the same line *)
Fixpoint bracketed (s : string) : option string :=
  if Str.startsWith "']" s then Some "" else
  match s with
  | EmptyString => None
  | String c s' => if line_terminator c then None else String c <$> bracketed s'
  end.

(** [s.match(/\['(.*?)'\]/)?.[1]] *)
Fixpoint bracket_name (s : string) : option string :=
  let rest := match s with EmptyString => None | String _ s' => bracket_name s' end in
  if Str.startsWith "['" s
  then match bracketed (String.substring 2 (String.length s - 2) s) with Some name => Some name | None => rest end
  else rest.

(** [key?.match(ATTRIBUTE_NAME_REGEX)?.[1] || key?.split('.').pop()] *)
Definition attribute_name (key : string) : string := str_or (bracket_name key) (List.last (Str.split "." key) "").

(** The attributes an agent names as requested twice:
    [message.match(/CredoError: The proof request contains duplicate predicates and attributes: (.+)/)] *)
Definition duplicate_marker : string := "CredoError: The proof request contains duplicate predicates and attributes: ".
Fixpoint duplicateAttributes (s : string) : option string :=
  let rest := match s with EmptyString => None | String _ s' => duplicateAttributes s' end in
  if Str.startsWith duplicate_marker s
  then match take_while (fun c => negb (line_terminator c)) (default "" (after duplicate_marker s)) with EmptyString => rest | names => Some names end
  else rest.

(** ** Requests *)

Record IProofAttributesData := ProofAttribute {
  attributeName : option string;
  attributeNames : any;
  condition : option string;
  pa_value : option string;
  pa_credDefId : option string;
  pa_schemaId : option string;
}.

Definition attributeReferent (index : nat) : string := "additionalProp" +:+ pretty (Z.of_nat index + 1).
Definition is_predicate (a : IProofAttributesData) : bool := truthy_str (condition a) || truthy_str (pa_value a).
Definition attributeElement (a : IProofAttributesData) : any := if truthy_str (attributeName a) then of_str (attributeName a) else attributeNames a.
Definition attributeKey (a : IProofAttributesData) : string := if truthy_str (attributeName a) then "name" else "names".
Definition restrictions (a : IProofAttributesData) : any :=
  Some (Json.JArr [obj [("cred_def_id", if truthy_str (pa_credDefId a) then of_str (pa_credDefId a) else None); ("schema_id", of_str (pa_schemaId a))]]).

Definition requested_attribute (a : IProofAttributesData) : Json.value := obj [(attributeKey a, attributeElement a); ("restrictions", restrictions a)].
Definition requested_predicate (a : IProofAttributesData) : Json.value :=
  obj [("p_type", of_str (condition a)); ("name", attributeElement a);
       ("p_value", Some match pa_value a ≫= parseInt with Some n => Json.JNum n | None => Json.JNull end); ("restrictions", restrictions a)].

(** A predicate's entry among the attributes is [undefined]. *)
Definition requestedAttributes (attributes : list IProofAttributesData) : Json.value :=
  obj (imap (fun i a => (attributeReferent i, if is_predicate a then None else Some (requested_attribute a))) attributes).
Definition requestedPredicates (attributes : list IProofAttributesData) : Json.value :=
  obj (imap (fun i a => (attributeReferent i, if is_predicate a then Some (requested_predicate a) else None)) attributes).

(** The attributes of [proofFormats?.indy] *)
Definition _proofRequestPayload (attributes : option (list IProofAttributesData)) : result (Json.value * Json.value) :=
  match attributes with
  | Some attributes => Ok (requestedAttributes attributes, requestedPredicates attributes)
  | None => Throw (Exn RpcException "Proof request is not sent" (Some 400) None)
  end.

Record IProofRequestData := ProofRequest {
  rp_orgId : string;
  rp_version : string;
  rp_type : string;
  rp_connectionId : option string + list string;
  rp_comment : option string;
  rp_autoAcceptProof : option string;
  rp_goalCode : option string;
  rp_parentThreadId : option string;
  rp_willConfirm : bool;
  rp_protocolVersion : option string;
  rp_attributes : option (list IProofAttributesData);
  rp_presentationDefinition : any;
}.

(** [s || undefined] *)
Definition given (o : option string) : any := if truthy_str o then of_str o else None.

Definition common_fields (r : IProofRequestData) (connectionId : option string) : list (string * any) :=
  [("comment", of_str (Some (str_or (rp_comment r) ""))); ("connectionId", of_str connectionId);
   ("autoAcceptProof", of_str (Some (str_or (rp_autoAcceptProof r) "never"))); ("goalCode", given (rp_goalCode r));
   ("parentThreadId", given (rp_parentThreadId r)); ("willConfirm", if rp_willConfirm r then Some (Json.JBool true) else None)].

(** What is sent to one connection; the type is one of two, or nothing is asked. *)
Definition proofRequestPayload (r : IProofRequestData) (connectionId : option string) : result Json.value :=
  if String.eqb (rp_type r) "indy" then
    '(attributes, predicates) ← _proofRequestPayload (rp_attributes r);
    Ok (obj (("protocolVersion", of_str (Some (str_or (rp_protocolVersion r) "v1"))) ::
             ("proofFormats", Some (obj [("indy", Some (obj [("name", of_str (Some "Proof Request")); ("version", of_str (Some "1.0"));
                ("requested_attributes", Some attributes); ("requested_predicates", Some predicates)]))])) :: common_fields r connectionId))
  else if String.eqb (rp_type r) "presentationExchange" then
    Ok (obj (("protocolVersion", of_str (Some (str_or (rp_protocolVersion r) "v2"))) ::
             ("proofFormats", Some (obj [("presentationExchange", Some (obj [("presentationDefinition", rp_presentationDefinition r)]))])) ::
             common_fields r connectionId))
  else Ok (obj []).

(** ** Verified proofs *)

(** An object with a computed key: a later property replaces an earlier one. *)
Definition assign (fields : list (string * any)) : Json.value :=
  Json.JObj (foldl (fun fs f => match f.2 with Some v => Json.set_field f.1 v fs | None => List.filter (fun g => negb (String.eqb g.1 f.1)) fs end) [] fields).

(** The own properties [Object.keys] and [for ... in] go through *)
Definition entries (a : any) : result (list (string * Json.value)) :=
  match a with
  | None | Some Json.JNull => Throw not_an_object
  | Some (Json.JObj fs) => Ok fs
  | Some (Json.JArr vs) => Ok (imap (fun i v => (pretty (Z.of_nat i), v)) vs)
  | Some (Json.JStr s) => Ok (imap (fun i c => (pretty (Z.of_nat i), Json.JStr (String c ""))) (String.list_ascii_of_string s))
  | Some _ => Ok []
  end.

(** [for (const x of xs)] over a value *)
Definition items (a : any) : result (list Json.value) :=
  match a with Some (Json.JArr vs) => Ok vs | _ => Throw not_an_object end.

(** What the entries of a loop push *)
Fixpoint each {X Y} (f : X -> result (list Y)) (xs : list X) : result (list Y) :=
  match xs with [] => Ok [] | x :: xs' => ys ← f x; zs ← each f xs'; Ok (ys ++ zs)%list end.

Definition or_null (a : any) : any := if any_truthy a then a else Some Json.JNull.

(** *** Presentation exchange *)

(** [key?.match(...)]: only texts and absent values have no [match] to miss. *)
Definition key_name (key : Json.value) : result (option string) :=
  match key with Json.JStr s => Ok (Some (attribute_name s)) | Json.JNull => Ok None | _ => Throw not_an_object end.

Definition exchange_detail (schemaId subject certificate : any) (key : Json.value) : result (list Json.value) :=
  name ← key_name key;
  match name with
  | Some n =>
      match prop_opt n subject with
      | Some v => if String.eqb n "" then Ok [] else
          Ok [assign [(n, Some v); ("schemaId", or_null schemaId); ("certificateTemplate", certificate)]]
      | None => Ok []
      end
  | None => Ok []
  end.

Definition descriptor_details (p : any) (index : nat) (descriptor : any) : result (list Json.value) :=
  let verifiableCredentials := prop_opt "verifiableCredential" (prop_opt "presentationExchange" (prop_opt "presentation" p)) in
  schema ← (if nullish descriptor then Ok None else item 0 (prop_opt "schema" descriptor));
  let constraints := prop_opt "constraints" descriptor in
  field ← (if nullish constraints then Ok None else item 0 (prop_opt "fields" constraints));
  vc ← item index verifiableCredentials;
  first_vc ← item 0 verifiableCredentials;
  prettyVc ← CommonService.prop "prettyVc" first_vc;
  match prop_opt "path" field with
  | Some (Json.JArr keys) =>
      each (exchange_detail (prop_opt "uri" schema) (prop_opt "credentialSubject" vc) (prop_opt "certificate" prettyVc)) keys
  | _ => Ok []
  end.

Definition exchange_details (p : any) : result (list Json.value) :=
  let definition := prop_opt "presentation_definition" (prop_opt "presentationExchange" (prop_opt "request" p)) in
  if nullish definition then Ok [] else
  descriptors ← items (prop_opt "input_descriptors" definition);
  each (fun d => descriptor_details p d.1 (Some d.2)) (imap pair descriptors).

(** *** Indy *)

Definition ids : Type := any * any.

(** The credential definition and the schema that the restrictions of an attribute or a
    predicate name, or the first of the presentation, or [otherwise] *)
Definition restriction_ids (attribute : any) : option (result ids) :=
  let rs := prop_opt "restrictions" attribute in
  if any_truthy rs then Some (r ← item 0 rs; Ok (prop_opt "cred_def_id" r, prop_opt "schema_id" r)) else None.
Definition identifier_ids (p : any) : option (result ids) :=
  let identifiers := prop_opt "identifiers" (prop_opt "indy" (prop_opt "presentation" p)) in
  if any_truthy identifiers then Some (i ← item 0 identifiers; c ← CommonService.prop "cred_def_id" i; s ← CommonService.prop "schema_id" i; Ok (c, s)) else None.
Definition _schemaCredDefRestriction (otherwise : ids) (attribute p : any) : result ids :=
  match restriction_ids attribute with
  | Some r => r
  | None => default (Ok otherwise) (identifier_ids p)
  end.

Definition detail (attributeName : string) (v : any) (i : ids) : Json.value :=
  assign [(attributeName, v); ("credDefId", or_null i.1); ("schemaId", or_null i.2)].

Definition revealed_attrs (p : any) : any := prop_opt "revealed_attrs" (prop_opt "requested_proof" (prop_opt "indy" (prop_opt "presentation" p))).

(** [revealedAttrs.hasOwnProperty(key)] *)
Definition attribute_detail (p : any) (key : string) (attribute : Json.value) (i : ids) : result (list Json.value) :=
  name ← CommonService.prop "name" (Some attribute);
  revealed ← CommonService.prop key (revealed_attrs p);
  Ok match revealed with Some r => [detail (any_string name) (prop_opt "raw" (Some r)) i] | None => [] end.
Definition predicate_detail (attribute : Json.value) (i : ids) : list Json.value :=
  let a := Some attribute in
  [detail (any_string (prop_opt "name" a)) (of_str (Some (any_string (prop_opt "p_type" a) +:+ any_string (prop_opt "p_value" a)))) i].

(** When both are asked for, identifiers that are not found are those of the entry before. *)
Fixpoint attributes_then (p : any) (i : ids) (attributes : list (string * Json.value)) : result (list Json.value * ids) :=
  match attributes with
  | [] => Ok ([], i)
  | (key, attribute) :: rest =>
      _ ← CommonService.prop "name" (Some attribute);
      i ← _schemaCredDefRestriction i (Some attribute) p;
      d ← attribute_detail p key attribute i;
      '(ds, i) ← attributes_then p i rest;
      Ok (d ++ ds, i)%list
  end.
Fixpoint predicates_then (i : ids) (predicates : list (string * Json.value)) : result (list Json.value) :=
  match predicates with
  | [] => Ok []
  | (_, attribute) :: rest =>
      i ← default (Ok i) (restriction_ids (Some attribute));
      ds ← predicates_then i rest;
      Ok (predicate_detail attribute i ++ ds)%list
  end.

Definition indy_details (p : any) : result (list Json.value) :=
  let indy := prop_opt "indy" (prop_opt "request" p) in
  attributes ← entries (prop_opt "requested_attributes" indy);
  predicates ← entries (prop_opt "requested_predicates" indy);
  match attributes, predicates with
  | _ :: _, _ :: _ =>
      '(ds, i) ← attributes_then p (None, None) attributes;
      ps ← predicates_then i predicates;
      Ok (ds ++ ps)%list
  | _ :: _, [] =>
      each (fun kv => _ ← CommonService.prop "name" (Some kv.2); i ← _schemaCredDefRestriction (None, None) (Some kv.2) p; attribute_detail p kv.1 kv.2 i) attributes
  | [], _ :: _ =>
      each (fun kv => i ← _schemaCredDefRestriction (None, None) (Some kv.2) p; Ok (predicate_detail kv.2 i)) predicates
  | [], [] => Throw (http_exn InternalServerErrorException "Internal Server error")
  end.

(** [extractedDataArray] *)
Definition proof_details (p : any) : result (list Json.value) :=
  if negb (any_truthy (prop_opt "presentation" p)) then Throw (not_found "Proof presentations not found") else
  exchange ← (if any_truthy (prop_opt "presentationExchange" (prop_opt "request" p)) then exchange_details p else Ok []);
  indy ← (if any_truthy (prop_opt "indy" (prop_opt "request" p)) then indy_details p else Ok []);
  Ok (exchange ++ indy)%list.

(** ** Theorems: what is asked *)

Lemma attributeReferent_inj i j : attributeReferent i = attributeReferent j -> i = j.
Proof. unfold attributeReferent. intros H%Json.app_inv_str. apply (inj pretty) in H. lia. Qed.

Definition defined_at (k : string) (f : string * any) : bool := String.eqb k f.1 && bool_decide (is_Some f.2).

Lemma field_defined k (fields : list (string * any)) :
  Json.field k (omap (fun f => pair f.1 <$> f.2) fields) = first (defined_at k) fields ≫= snd.
Proof.
  induction fields as [|[k' [v|]] fs IH]; [done|..]; simpl.
  - unfold defined_at at 1. simpl. destruct (String.eqb k k'); simpl; [done | exact IH].
  - unfold defined_at at 1. simpl. rewrite andb_false_r. exact IH.
Qed.

Lemma first_cons {B} (p : B -> bool) x l : first p (x :: l) = if p x then Some x else first p l.
Proof. done. Qed.

Lemma first_referent (f : IProofAttributesData -> any) n attributes i :
  first (defined_at (attributeReferent i)) (imap (fun j a => (attributeReferent (n + j), f a)) attributes) ≫= snd
  = if (n <=? i)%nat then attributes !! (i - n)%nat ≫= f else None.
Proof.
  revert n. induction attributes as [|a attributes IH]; intros n; [by destruct (_ <=? _)%nat|]. rewrite imap_cons.
  assert (Hr : imap ((fun (j : nat) a => (attributeReferent (n + j), f a)) ∘ S) attributes = imap (fun j a => (attributeReferent (S n + j), f a)) attributes).
  { apply imap_ext. intros j a' _. unfold compose. by rewrite <- plus_n_Sm. }
  rewrite Hr. replace (n + 0)%nat with n by lia. rewrite first_cons. unfold defined_at at 1. unfold fst at 1, snd at 1.
  destruct (String.eqb_spec (attributeReferent i) (attributeReferent n)) as [->%attributeReferent_inj|Hne]; rewrite ?andb_true_l, ?andb_false_l.
  - rewrite Nat.leb_refl, Nat.sub_diag. change ((a :: attributes) !! 0%nat ≫= f) with (f a). destruct (f a) as [v|]; [done|]. rewrite bool_decide_eq_false_2 by (by intros []).
    rewrite IH. by rewrite (proj2 (Nat.leb_gt (S n) n)) by lia.
  - rewrite IH. assert (i <> n) by congruence. destruct (Nat.leb_spec n i), (Nat.leb_spec (S n) i); try lia; [|done].
    by replace (i - n)%nat with (S (i - S n)) by lia.
Qed.

Lemma get_referent (f : IProofAttributesData -> any) attributes i :
  Json.get (attributeReferent i) (obj (imap (fun i a => (attributeReferent i, f a)) attributes)) = attributes !! i ≫= f.
Proof. unfold obj. simpl. rewrite field_defined, (first_referent f 0). simpl. by rewrite Nat.sub_0_r. Qed.

Lemma get_no_referent (f : IProofAttributesData -> any) attributes key : (forall i, key = attributeReferent i -> (length attributes <= i)%nat) ->
  Json.get key (obj (imap (fun i a => (attributeReferent i, f a)) attributes)) = None.
Proof.
  intros H. unfold obj. simpl. rewrite field_defined. destruct (first _ _) as [[k v]|] eqn:Hf; [|done].
  apply first_Some in Hf as [(i & a & He & Ha)%elem_of_lookup_imap_1 [Hk%String.eqb_eq _]%andb_prop].
  injection He as -> _. apply lookup_lt_Some in Ha. specialize (H i Hk). lia.
Qed.

(** A property of the two objects of a proof request stands for one asked attribute: the
    [i]-th one is under [additionalProp<i+1>], among the predicates when it has a condition or
    a value and among the attributes otherwise, and never in both. *)
Theorem request_partition attributes key :
  (exists i a, key = attributeReferent i /\ attributes !! i = Some a /\
    Json.get key (requestedAttributes attributes) = (if is_predicate a then None else Some (requested_attribute a)) /\
    Json.get key (requestedPredicates attributes) = (if is_predicate a then Some (requested_predicate a) else None)) \/
  ((forall i, key = attributeReferent i -> (length attributes <= i)%nat) /\
    Json.get key (requestedAttributes attributes) = None /\ Json.get key (requestedPredicates attributes) = None).
Proof.
  assert (Hdec : (exists i, key = attributeReferent i /\ (i < length attributes)%nat) \/ forall i, key = attributeReferent i -> (length attributes <= i)%nat).
  { destruct (decide (Exists (fun i => key = attributeReferent i) (seq 0 (length attributes)))) as [He|Hn].
    - left. apply Exists_exists in He as (i & Hi%elem_of_seq & ->). exists i. split; [done | lia].
    - right. intros i ->. apply Nat.nlt_ge. intros Hi. apply Hn, Exists_exists. exists i. split; [apply elem_of_seq; lia | done]. }
  destruct Hdec as [(i & -> & [a Ha]%lookup_lt_is_Some)|Hno].
  - left. exists i, a. split; [done|]. split; [done|]. split; [apply (eq_trans (get_referent (fun a => if is_predicate a then None else Some (requested_attribute a)) attributes i))
      | apply (eq_trans (get_referent (fun a => if is_predicate a then Some (requested_predicate a) else None) attributes i))]; by rewrite Ha.
  - right. split; [done|]. split; by apply get_no_referent.
Qed.

(** ** Theorems: what is read *)

(** What is read of one requested attribute, when the wallet revealed it, and of one predicate *)
Definition revealed_detail (p : any) (kv : string * Json.value) (i : ids) : list Json.value :=
  match prop_opt kv.1 (revealed_attrs p) with Some r => [detail (any_string (Json.get "name" kv.2)) (prop_opt "raw" (Some r)) i] | None => [] end.
Definition proved_detail (kv : string * Json.value) (i : ids) : list Json.value := predicate_detail kv.2 i.

(** The identifiers are those of the restrictions, if there are any. *)
Definition identified (kv : string * Json.value) (i : ids) : Prop := forall r, restriction_ids (Some kv.2) = Some r -> r = Ok i.

Lemma prop_ok k a v : CommonService.prop k a = Ok v -> prop_opt k a = v.
Proof. destruct a as [x|]; [|done]. by destruct x; intros [= <-]. Qed.

Lemma detail_revealed p key attribute i ds : attribute_detail p key attribute i = Ok ds -> ds = revealed_detail p (key, attribute) i.
Proof.
  unfold attribute_detail, revealed_detail. intros H.
  apply result_bind_ok in H as (name & Hn%prop_ok & H). apply result_bind_ok in H as (r & Hr%prop_ok & H). injection H as <-. simpl in *. by rewrite Hr, <- Hn.
Qed.

Lemma restriction_identified o key attribute p i : _schemaCredDefRestriction o (Some attribute) p = Ok i -> identified (key, attribute) i.
Proof. unfold _schemaCredDefRestriction, identified. simpl. intros H r Hr. by rewrite Hr in H. Qed.

Lemma each_read {X} (f : X -> result (list Json.value)) (g : X -> ids -> list Json.value) (Q : X -> ids -> Prop) xs ds :
  (forall x d, f x = Ok d -> exists i, Q x i /\ d = g x i) -> each f xs = Ok ds -> exists l, Forall2 Q xs l /\ ds = mjoin (zip_with g xs l).
Proof.
  intros Hf. revert ds. induction xs as [|x xs IH]; intros ds H; simpl in H; [injection H as <-; by exists []|].
  apply result_bind_ok in H as (d & Hd & H). apply result_bind_ok in H as (ds' & Hds & H). injection H as <-.
  destruct (Hf _ _ Hd) as (i & ? & ->), (IH _ Hds) as (l & ? & ->). exists (i :: l). by split; [constructor|].
Qed.

Lemma attributes_then_read p i attributes ds i' : attributes_then p i attributes = Ok (ds, i') ->
  exists l, Forall2 identified attributes l /\ ds = mjoin (zip_with (revealed_detail p) attributes l).
Proof.
  revert i ds. induction attributes as [|[key a] attributes IH]; intros i ds H; simpl in H; [injection H as <- _; by exists []|].
  apply result_bind_ok in H as (n & _ & H). apply result_bind_ok in H as (j & Hj & H). apply result_bind_ok in H as (d & Hd%detail_revealed & H).
  apply result_bind_ok in H as ([ds' k] & Hds & H). injection H as <- <-. destruct (IH _ _ Hds) as (l & ? & ->). exists (j :: l).
  split; [constructor; [by apply (restriction_identified i _ _ p) | done] | by rewrite Hd].
Qed.

Lemma predicates_then_read i predicates ds : predicates_then i predicates = Ok ds ->
  exists l, Forall2 identified predicates l /\ ds = mjoin (zip_with proved_detail predicates l).
Proof.
  revert i ds. induction predicates as [|[key a] predicates IH]; intros i ds H; simpl in H; [injection H as <-; by exists []|].
  apply result_bind_ok in H as (j & Hj & H). apply result_bind_ok in H as (ds' & Hds & H). injection H as <-. destruct (IH _ _ Hds) as (l & ? & ->). exists (j :: l).
  split; [constructor; [|done] | done]. intros r Hr. simpl in Hr. by rewrite Hr in Hj.
Qed.

(** C28. The details of a verified Indy proof are those of the request: in the order asked,
    every requested attribute that the wallet revealed with the raw value it revealed under
    that referent, then every predicate with its bound, each with the identifiers its
    restrictions name, and nothing else. *)
Theorem indy_details_exact p ds : indy_details p = Ok ds ->
  exists attributes predicates ks js, entries (prop_opt "requested_attributes" (prop_opt "indy" (prop_opt "request" p))) = Ok attributes /\
    entries (prop_opt "requested_predicates" (prop_opt "indy" (prop_opt "request" p))) = Ok predicates /\
    Forall2 identified attributes ks /\ Forall2 identified predicates js /\
    ds = (mjoin (zip_with (revealed_detail p) attributes ks) ++ mjoin (zip_with proved_detail predicates js))%list.
Proof.
  unfold indy_details. intros H. apply result_bind_ok in H as (attributes & Ha & H). apply result_bind_ok in H as (predicates & Hp & H).
  exists attributes, predicates. destruct attributes as [|a0 al] eqn:Eal, predicates as [|p0 pl] eqn:Epl; rewrite <- ?Eal, <- ?Epl in *; [done|..].
  - apply (each_read _ proved_detail identified) in H as (js & ? & ->); [exists [], js; by subst|].
    intros [key a] d Hd. apply result_bind_ok in Hd as (i & Hi & Hd). injection Hd as <-. exists i. split; [by apply (restriction_identified (None, None) _ _ p) | done].
  - apply (each_read _ (revealed_detail p) identified) in H as (js & ? & ->); [exists js, []; subst; by rewrite app_nil_r|].
    intros [key a] d Hd. apply result_bind_ok in Hd as (n & _ & Hd). apply result_bind_ok in Hd as (i & Hi & Hd%detail_revealed). exists i.
    split; [by apply (restriction_identified (None, None) _ _ p) | done].
  - apply result_bind_ok in H as ([ds1 i] & H1 & H). apply result_bind_ok in H as (ds2 & H2 & H). injection H as <-.
    destruct (attributes_then_read _ _ _ _ _ H1) as (ks & ? & ->), (predicates_then_read _ _ _ H2) as (js & ? & ->). by exists ks, js.
Qed.

Definition sampleProof : any :=
  Some (obj [("request", Some (obj [("indy", Some (obj [
      ("requested_attributes", Some (obj [("additionalProp1", Some (obj [("name", of_str (Some "city")); ("restrictions", Some (Json.JArr [obj [("cred_def_id", of_str (Some "cd1")); ("schema_id", of_str (Some "s1"))]]))]))]));
      ("requested_predicates", Some (obj [("additionalProp2", Some (obj [("name", of_str (Some "age")); ("p_type", of_str (Some ">=")); ("p_value", Some (Json.JNum 18))]))]))]))]));
    ("presentation", Some (obj [("indy", Some (obj [("requested_proof", Some (obj [("revealed_attrs", Some (obj [("additionalProp1", Some (obj [("raw", of_str (Some "Thimphu"))]))]))]))]))]))]).

Lemma indy_details_exact_witness : exists ds, indy_details sampleProof = Ok ds /\ length ds = 2%nat /\
  exists attributes predicates ks js, entries (prop_opt "requested_attributes" (prop_opt "indy" (prop_opt "request" sampleProof))) = Ok attributes /\
    entries (prop_opt "requested_predicates" (prop_opt "indy" (prop_opt "request" sampleProof))) = Ok predicates /\
    Forall2 identified attributes ks /\ Forall2 identified predicates js /\
    ds = (mjoin (zip_with (revealed_detail sampleProof) attributes ks) ++ mjoin (zip_with proved_detail predicates js))%list.
Proof. eexists. split; [vm_compute; reflexivity|]. split; [reflexivity|]. apply indy_details_exact. vm_compute. reflexivity. Defined.
