(* ===== verification/Verification.v ===== *)
(** * Proof presentations

    [verification.service.ts] with [verification.repository.ts] and the messages of
    [verification.controller.ts]: an organization asks wallets for proofs, its agent reports
    the presentations, and verified ones are served.  The response codes of redirects are
    those of [ResponseCode], on the state this one contains. *)

From S2P Require Import Prelude Js Table CommonUtils CastHelper CommonService ResponseCode DidcommData ProofFormats.

Open Scope Z_scope.

Section service.
Context {A : Agents} {U : UuidSource} {C : Cipher} {E : ResponseCode.Environment} {P : RedirectUri.UrlParser}.

#[local] Instance environment : ProcessEnv := {| process_env := ResponseCode.env |}.

(** ** Repository *)

Definition getAgentEndPoint (orgId : string) : eff world org_agents :=
  t ← gets agents;
  match first (agent_of orgId) t with Some a => mret a | None => throw (not_found "Organization agent not found") end.

Definition getOrgDetails (issuerId : option string) : eff world (option (option string)) :=
  gets (fun w => oa_orgId <$> first (fun a => match issuerId with None => true | Some _ => bool_decide (orgDid a = issuerId) end) (agents w)).

Definition getOrganization (orgId : string) : option organisation := first (fun o => String.eqb (o_id o) orgId) organisations.

Definition of_org (orgId : string) (p : presentations) : bool := bool_decide (pr_orgId p = Some orgId).
Definition thread_is (threadId : string) (p : presentations) : bool := String.eqb (pr_threadId p) threadId.

(** An organization that is [undefined] filters nothing, nor does an absent state. *)
Definition getVerificationRecordsCount (orgId : option (option string)) (state : option string) : eff world Z :=
  gets (fun w => Z.of_nat (length (List.filter (fun p =>
    match orgId with None => true | Some o => bool_decide (pr_orgId p = o) end
    && (negb (truthy_str state) || bool_decide (pr_state p = state))) (proofs w)))).

Definition searched_state (search : string) : string :=
  let s := Str.toLowerCase search in
  if String.eqb s "requested" then "request-sent" else if String.eqb s "received" then "request-received"
  else if String.eqb s "verified" then "done" else if String.eqb s "declined" then "abandoned"
  else if String.eqb s "presentation received" then "presentation-received" else search.

Definition label_of (w : world) (p : presentations) : option string :=
  pr_connectionId p ≫= fun id => theirLabel <$> first (connection_is id) (conns w).

Definition searched (orgId search : string) (w : world) (p : presentations) : bool :=
  of_org orgId p &&
  (contains_insensitive (Some search) (pr_connectionId p) || contains_insensitive (Some search) (presentationId p) || contains_insensitive (Some search) (emailId p)
   || contains_insensitive (Some search) (label_of w p) || contains_insensitive (Some (searched_state search)) (pr_state p)).

Definition getAllProofRequests (orgId : string) (c : search_criteria) : eff world (Z * list presentations) :=
  match search c with
  | None => throw not_an_object
  | Some s =>
      rows ← gets (fun w => List.filter (searched orgId s w) (proofs w));
      proofRequestsList ← find_page (presentation_order (sortField c) (String.eqb "asc" (sortBy c))) c rows;
      mret (Z.of_nat (length rows), proofRequestsList)
  end.

Record IWebhookProofPresentation := ProofWebhook {
  wp_id : option string;
  wp_state : option string;
  wp_connectionId : option string;
  wp_presentationId : option string;
  wp_threadId : option string;
  wp_isVerified : option bool;
  wp_contextCorrelationId : option string;
  wp_errorMessage : option string;
  wp_proofData : any;
}.

(** The address a presented credential names, encrypted *)
Definition encryptEmailId (proofData : any) : eff world string :=
  let verifiableCredential := prop_opt "verifiableCredential" (prop_opt "presentationExchange" (prop_opt "presentation" proofData)) in
  if any_truthy verifiableCredential then
    vc ← lift (item 0 verifiableCredential);
    subject ← lift (CommonService.prop "credentialSubject" vc);
    match prop_opt "email" subject with
    | Some (Json.JStr emailId) => n ← gets drawn; lift (dataEncryption n emailId)
    | other => lift (encrypt_other other)
    end
  else mret "Not Available".

Definition requested_schema (proofData : any) : result any :=
  let exchange := prop_opt "presentationExchange" (prop_opt "request" proofData) in
  if any_truthy exchange then
    let definition := prop_opt "presentation_definition" exchange in
    if nullish definition then Ok None else
    d ← item 0 (prop_opt "input_descriptors" definition);
    schemas ← CommonService.prop "schema" d;
    s ← item 0 schemas;
    CommonService.prop "uri" s
  else Ok None.

Definition with_report (d : IWebhookProofPresentation) (by_ email : string) (p : presentations) : presentations :=
  Presentation (pr_id p) (pr_created p) (pr_createdBy p) by_ (match wp_connectionId d with Some c => Some c | None => pr_connectionId p end)
    (match wp_state d with Some s => Some s | None => pr_state p end) (pr_threadId p)
    (match wp_isVerified d with Some b => Some b | None => isVerified p end) (presentationId p) (pr_schemaId p)
    (match wp_errorMessage d with Some m => Some m | None => pr_errorMessage p end) (Some email) (pr_orgId p).

Definition text_or_absent (a : any) : bool := match a with None | Some (Json.JStr _) | Some Json.JNull => true | _ => false end.

Definition storeProofPresentation (payload : option IWebhookProofPresentation) (orgId : option string) : eff world presentations :=
  email ← encryptEmailId (payload ≫= wp_proofData);
  schemaId ← lift (requested_schema (payload ≫= wp_proofData));
  organisationId ← webhook_org (payload ≫= wp_contextCorrelationId) orgId;
  match payload with
  | None => throw not_an_object
  | Some d =>
      match wp_threadId d, organisationId, text_or_absent schemaId with
      | Some threadId, Some org, true =>
          w ← get;
          if negb (refers (wp_connectionId d) w) then throw prisma_foreign_key else
          match first (thread_is threadId) (proofs w) with
          | Some p =>
              _ ← put (set_proofs (update_where (thread_is threadId) (with_report d org email) (proofs w)) w);
              mret (with_report d org email p)
          | None =>
              if negb (org_exists org) then throw prisma_foreign_key else
              id ← fresh; t ← now;
              let row := Presentation id t org org (wp_connectionId d) (wp_state d) threadId (wp_isVerified d) (wp_id d) (Json.as_str schemaId) None (Some email) (Some org) in
              _ ← modify (fun w => set_proofs (proofs w ++ [row])%list w);
              mret row
          end
      | _, _, _ => throw prisma_validation
      end
  end.

(** The rows are read outside of the transaction's client; nothing happens in between. *)
Definition deleteVerificationRecordsByOrgId (orgId : string) : eff world (list presentations) :=
  w ← get;
  _ ← put (set_proofs (List.filter (fun p => negb (of_org orgId p)) (proofs w)) w);
  mret (List.filter (of_org orgId) (proofs w)).

Definition with_allowlist (allowlist userId : string) (a : org_agents) : org_agents :=
  OrgAgent (oa_id a) (oa_orgId a) (agentEndPoint a) (tenantId a) (orgDid a) (orgAgentTypeId a) (Some allowlist) userId.
Definition updateRedirectUriAllowlist (orgId allowlist userId : string) : eff world org_agents :=
  t ← gets agents;
  match first (agent_of orgId) t with
  | None => throw prisma_missing
  | Some a => _ ← modify (set_agents (update_where (agent_of orgId) (with_allowlist allowlist userId) t)); mret (with_allowlist allowlist userId a)
  end.

Definition getPresentationByThreadId (threadId : string) : eff world (option presentations) := gets (fun w => first (thread_is threadId) (proofs w)).

Record IEmailResponse := EmailResponse { er_email : string; er_isEmailSent : bool; er_outOfBandRecordId : any; er_proofRecordThId : any }.

Definition with_email (email : string) (p : presentations) : presentations :=
  Presentation (pr_id p) (pr_created p) (pr_createdBy p) (pr_changedBy p) (pr_connectionId p) (pr_state p) (pr_threadId p) (isVerified p) (presentationId p)
    (pr_schemaId p) (pr_errorMessage p) (Some email) (pr_orgId p).

(** [where: { threadId: undefined }] is every row. *)
Definition saveEmail (emailList : list IEmailResponse) : eff world unit :=
  for_each emailList (fun r =>
    match er_proofRecordThId r with
    | None => modify (fun w => set_proofs (map (with_email (er_email r)) (proofs w)) w)
    | Some (Json.JStr t) => modify (fun w => set_proofs (update_where (thread_is t) (with_email (er_email r)) (proofs w)) w)
    | Some _ => throw prisma_validation
    end).

(** ** Errors *)

(** A computation in which a message may be rejected: [caught] and [rejected] are what the
    handler makes of an exception and of a rejection. *)
Definition settled {B} (caught : exn -> exn) (rejected : error -> exn) (m : eff world (B + error)) : eff world B :=
  answer ← try_catch m (fun e => throw (caught e));
  match answer with inl b => mret b | inr e => throw (rejected e) end.
Definition and_then {B D} (m : eff world (B + error)) (k : B -> eff world (D + error)) : eff world (D + error) :=
  answer ← m; match answer with inl b => k b | inr e => mret (inr e) end.
Definition answered {B} (b : B) : eff world (B + error) := mret (inl b).

Definition rpc_exn (e : exn) : exn := Exn RpcException (exn_message e) (exn_status e) (exn_code e).

(** [verificationErrorHandling]: its test holds of no error, so the message is always that of
    the agent's error, which an exception does not have. *)
Definition verificationErrorHandling (e : error) : exn :=
  let reason := prop_opt "reason" (status_error e) in
  rpc_with (if any_truthy reason then reason else status_error e) (prop_opt "code" (Json.field "status" e)).
Definition verification_caught (_ : exn) : exn := rpc_with None None.

(** ** Reading *)

Definition agent_url (a : org_agents) (flag : string) (id : option string) : eff world string := lift (getAgentUrl (default "" (agentEndPoint a)) flag id).

Definition find_schema (id : option string) (schemas : any) : result any :=
  match schemas with
  | Some (Json.JArr vs) => Ok (first (fun s => match Json.get "schemaLedgerId" s, id with Some x, Some i => strict_equal x (Json.JStr i) | Some Json.JNull, None => true | _, _ => false end) vs)
  | _ => Throw not_an_object
  end.

Record proof_request_row := ProofRow { row : presentations; schemaName : any; issuanceEntity : any }.

Definition named_row (schemas : any) (p : presentations) : result (list proof_request_row) :=
  schemaDetail ← find_schema (pr_schemaId p) schemas;
  Ok [if any_truthy schemaDetail then ProofRow p (prop_opt "name" schemaDetail) (prop_opt "name" (prop_opt "organisation" schemaDetail))
      else ProofRow p (of_str (Some "")) (of_str (Some ""))].

Definition getProofPresentations (orgId : string) (c : search_criteria) : eff world (paged proof_request_row) :=
  rpc (
    '(proofRequestsCount, proofRequestsList) ← getAllProofRequests orgId c;
    let schemaIds := List.filter (fun s => negb (String.eqb s "")) (omap pr_schemaId proofRequestsList) in
    getSchemaDetails ← sent (fun e => rpc_response (wrapped e)) "get-schemas-details" [("templateIds", Some (Json.JArr (map Json.JStr schemaIds)))];
    proofDetails ← lift (each (named_row getSchemaDetails) proofRequestsList);
    if 0 =? proofRequestsCount then throw (not_found "Proof presentations not found") else
    mret (paged_response c proofRequestsCount proofDetails)).

Definition getVerificationRecords (orgId : string) : eff world Z := rpc (getVerificationRecordsCount (Some (Some orgId)) None).

Definition getProofPresentationByIssuerId (issuerId : option string) : eff world Z :=
  rpc (orgDetails ← getOrgDetails issuerId; getVerificationRecordsCount orgDetails (Some "done")).

(** [errorMessage?.includes('not found')] *)
Definition mentions_not_found (m : any) : result bool :=
  match m with
  | Some (Json.JStr s) => Ok (Str.contains "not found" s)
  | Some (Json.JArr vs) => Ok (existsb (fun v => strict_equal v (Json.JStr "not found")) vs)
  | None | Some Json.JNull => Ok false
  | Some _ => Throw not_an_object
  end.

Definition proof_by_id_failed (e : error) : exn :=
  let errorMessage := or_falsy (error_reason e) (Json.field "message" e) in
  match mentions_not_found errorMessage with
  | Ok true => http_exn NotFoundException (default "" (Json.as_str errorMessage))
  | Ok false => rpc_error e
  | Throw x => x
  end.
Definition proof_by_id_caught (e : exn) : exn := if Str.contains "not found" (exn_message e) then http_exn NotFoundException (exn_message e) else rpc_exn e.

Definition getProofPresentationById (proofId : option string) (orgId : string) : eff world any :=
  settled proof_by_id_caught proof_by_id_failed (
    getAgentDetails ← getAgentEndPoint orgId;
    url ← agent_url getAgentDetails "get-proof-presentation-by-id" proofId;
    send "agent-get-proof-presentation-by-id" [("orgId", of_str (Some orgId)); ("url", of_str (Some url))]).

Definition reason_or_error (message : string) (e : error) : exn :=
  if any_truthy (error_reason e) then rpc_with (of_str (Some message)) (Json.field "status" e) else rpc_error e.

Definition verifyPresentation (proofId : option string) (orgId : string) : eff world any :=
  settled rpc_exn (reason_or_error "Proof presentation not found") (
    getAgentData ← getAgentEndPoint orgId;
    url ← agent_url getAgentData "accept-presentation" proofId;
    send "agent-verify-presentation" [("orgId", of_str (Some orgId)); ("url", of_str (Some url))]).

Definition _getVerifiedProofDetails (orgId url : string) : eff world (any + error) :=
  send "get-agent-verified-proof-details" [("orgId", of_str (Some orgId)); ("url", of_str (Some url))].

Definition getVerifiedProofdetails (proofId : option string) (orgId : string) : eff world (list Json.value) :=
  settled rpc_exn (reason_or_error "Proof presentation not found") (
    getAgentDetails ← getAgentEndPoint orgId;
    url ← agent_url getAgentDetails "get-verified-proof" proofId;
    and_then (_getVerifiedProofDetails orgId url) (fun p => ds ← lift (proof_details p); answered ds)).

Record IProofPresentationByThread := ByThread {
  bt_threadId : string;
  bt_presentationId : string;
  bt_connectionId : option string;
  bt_state : string;
  bt_proofData : any;
}.

Definition getProofPresentationByThreadId (orgId threadId : string) : eff world IProofPresentationByThread :=
  rpc (
    presentation ← getPresentationByThreadId threadId;
    match presentation with
    | None => throw (not_found "Proof presentation not found")
    | Some p =>
        if negb (of_org orgId p) then throw (not_found "Proof presentation not found") else
        match pr_state p, isVerified p with
        | Some "done", Some true =>
            if truthy_str (presentationId p) then
              agentDetails ← getAgentEndPoint orgId;
              url ← agent_url agentDetails "get-verified-proof" (presentationId p);
              proofData ← sent rpc_response "get-agent-verified-proof-details" [("orgId", of_str (Some orgId)); ("url", of_str (Some url))];
              if any_truthy (prop_opt "presentation" proofData)
              then mret (ByThread threadId (default "" (presentationId p)) (pr_connectionId p) "done" proofData)
              else throw (not_found "Proof presentation not found")
            else throw (conflict "Proof presentation is verified but has no linked agent proof record")
        | _, _ => throw (conflict "Proof presentation is not verified")
        end
    end).

(** ** Requests to connections *)

Definition _sendProofRequest (r : IProofRequestData) (url : string) (connectionId : option string) : eff world (any + error) :=
  payload ← lift (proofRequestPayload r connectionId);
  send "agent-send-proof-request" [("orgId", of_str (Some (rp_orgId r))); ("url", of_str (Some url)); ("proofRequestPayload", Some payload)].

Fixpoint send_each (r : IProofRequestData) (url : string) (connectionIds : list (option string)) : eff world (list any + error) :=
  match connectionIds with
  | [] => answered []
  | c :: rest => and_then (_sendProofRequest r url c) (fun response => and_then (send_each r url rest) (fun responses => answered (response :: responses)))
  end.

Definition proof_request_failed (e : error) : exn :=
  match prop_opt "message" (status_error e) with
  | None | Some Json.JNull => verificationErrorHandling e
  | Some (Json.JStr m) =>
      match duplicateAttributes m with
      | Some names => Exn RpcException ("CredoError: The proof request contains duplicate attributes: " +:+ names) (Some 500) None
      | None => verificationErrorHandling e
      end
  | Some _ => not_an_object
  end.

Definition sendProofRequest (r : IProofRequestData) : eff world (list any) :=
  settled verification_caught proof_request_failed (
    getAgentDetails ← getAgentEndPoint (rp_orgId r);
    url ← agent_url getAgentDetails "request-proof" None;
    let connectionIds := match rp_connectionId r with inl c => [c] | inr cs => Some <$> cs end in
    if String.eqb "v1" (rp_version r) then send_each r url connectionIds
    else send_each r url [match rp_connectionId r with inl c => c | inr cs => head cs end]).

(** ** Out-of-band requests *)

(** The request is an object, the fields of which are passed on. *)
Definition request : Type := list (string * Json.value).

Definition without (names : list string) (fs : request) : request := List.filter (fun f => negb (existsb (String.eqb f.1) names)) fs.
Definition with_field (name : string) (v : any) (fs : request) : request := match v with Some v => Json.set_field name v fs | None => without [name] fs end.
Definition str_field (name : string) (fs : request) : option string := Json.as_str (Json.field name fs).

(** [imageUrl] and [label] are set on the request itself. *)
Definition labelled (o : option organisation) (fs : request) : request :=
  let logo := of_str (o ≫= logoUrl) in
  with_field "label" (of_str (o_name <$> o)) (if any_truthy logo then with_field "imageUrl" logo fs else fs).

Definition autoAcceptProof (fs : request) : any := or_falsy (Json.field "autoAcceptProof" fs) (of_str (Some "always")).

Definition indy_payload (o : option organisation) (did : any) (fs : request) : Json.value :=
  let update := without ["isShortenUrl"; "emailId"; "type"; "reuseConnection"; "redirectUri"] (labelled o fs) in
  let logo := of_str (o ≫= logoUrl) in
  Json.JObj (with_field "imageUrl" (if any_truthy logo then logo else None) (with_field "invitationDid" (if any_truthy did then did else None)
    (with_field "protocolVersion" (or_falsy (Json.field "protocolVersion" fs) (of_str (Some "v1"))) update))).

Definition exchange_payload (o : option organisation) (did : any) (fs : request) : result Json.value :=
  definition ← (match Json.field "presentationDefinition" fs with None | Some Json.JNull => Throw not_an_object | d => Ok d end);
  descriptors ← items (prop_opt "input_descriptors" definition);
  Ok (obj [("goalCode", Json.field "goalCode" fs); ("protocolVersion", or_falsy (Json.field "protocolVersion" fs) (of_str (Some "v2")));
    ("comment", Json.field "comment" fs); ("label", of_str (o_name <$> o)); ("imageUrl", Json.field "imageUrl" (labelled o fs));
    ("proofFormats", Some (obj [("presentationExchange", Some (obj [("presentationDefinition", Some (obj [("id", prop_opt "id" definition);
       ("name", prop_opt "name" definition); ("purpose", prop_opt "purpose" definition); ("input_descriptors", Some (Json.JArr descriptors))]))]))]));
    ("autoAcceptProof", autoAcceptProof fs); ("invitationDid", if any_truthy did then did else None)]).

(** Another type leaves the payload [undefined]. *)
Definition oob_payload (orgId url : string) (o : option organisation) (did : any) (fs : request) : result any :=
  let sent proofRequestPayload := Some (obj [("orgId", of_str (Some orgId)); ("url", of_str (Some url)); ("proofRequestPayload", Some proofRequestPayload)]) in
  if bool_decide (str_field "type" fs = Some "indy") then Ok (sent (indy_payload o did fs))
  else if bool_decide (str_field "type" fs = Some "presentationExchange") then p ← exchange_payload o did fs; Ok (sent p)
  else Ok None.

Definition _sendOutOfBandProofRequest (payload : any) : eff world (any + error) :=
  cs ← placed (Nats "agent-send-out-of-band-proof-request" payload); mret (on_call cs).
Definition generateOOBProofReq (payload : any) : eff world (any + error) :=
  and_then (_sendOutOfBandProofRequest payload) (fun p => if any_truthy p then answered p else throw (js_error "Proof presentations not found")).
Definition storeVerificationObjectAndReturnUrl (storeObj : any) : eff world (any + error) :=
  send "store-object-return-url" [("persistent", Some (Json.JBool false)); ("storeObj", storeObj)].

Definition deep_link (url : any) : eff world string := lift (convertUrlToDeepLinkUrl (ResponseCode.env "DEEPLINK_DOMAIN") (any_string url)).

(** *** By mail *)

Definition qr_code (url : any) : eff world string :=
  match url with Some (Json.JStr s) => lift (toDataURL s) | _ => throw (js_error "String required as first argument") end.

Definition sendOutOfBandProofRequest (payload : any) (email : string) (o : option organisation) : eff world (IEmailResponse + error) :=
  and_then (generateOOBProofReq payload) (fun getProofPresentation =>
  and_then (storeVerificationObjectAndReturnUrl (prop_opt "invitationUrl" getProofPresentation)) (fun shortenedUrl =>
    deepLinkURL ← deep_link shortenedUrl;
    qr ← qr_code shortenedUrl;
    match emailFrom, o with
    | None, _ => throw (js_error "Platform config not found")
    | _, None => throw not_an_object
    | Some from, Some o =>
        let subject := env_string "PLATFORM_NAME" +:+ " Platform: Verification of Your Credentials" in
        cs ← placed (SendEmail from email subject (o_name o) deepLinkURL qr);
        isEmailSent ← lift (on_email cs);
        if (isEmailSent : bool)
        then answered (EmailResponse email true (prop_opt "id" (prop_opt "outOfBandRecord" getProofPresentation)) (prop_opt "proofRecordThId" getProofPresentation))
        else throw (js_error "Unable to send email to the user")
    end)).

(** What is answered for each address, and how many failed *)
Fixpoint send_batch (payload : any) (o : option organisation) (emailIds : list string) : eff world (list IEmailResponse * nat) :=
  match emailIds with
  | [] => mret ([], O)
  | email :: rest =>
      response ← try_catch (sendOutOfBandProofRequest payload email o) (fun _ => mret (inr ([] : error)));
      '(responses, failures) ← send_batch payload o rest;
      mret match response with inl r => (r :: responses, failures) | inr _ => (responses, S failures) end
  end.

Definition sendEmailInBatches (payload : any) (emailIds : list string) (o : option organisation) : eff world (list IEmailResponse) :=
  '(accumulatedResponse, failures) ← send_batch payload o emailIds;
  if (0 <? failures)%nat then throw (js_error "Unable to send email in batches") else mret accumulatedResponse.

(** *** With a redirect *)

Definition isHttpRedirectUriAllowed : bool := bool_decide (ResponseCode.env "REDIRECT_URI_ALLOW_HTTP" = Some "true").

Definition redirect_checked (a : org_agents) (fs : request) : result unit :=
  if any_truthy (Json.field "redirectUri" fs) then
    if any_truthy (Json.field "emailId" fs) then Throw (http_exn BadRequestException "redirectUri cannot be combined with emailId") else
    if RedirectUri.isRedirectUriAllowed (any_string (Json.field "redirectUri" fs)) (RedirectUri.parseRedirectUriAllowlist (redirectUriAllowlist a)) isHttpRedirectUriAllowed
    then Ok tt else Throw (http_exn BadRequestException "redirectUri is not registered for this organization")
  else Ok tt.

Definition attachRedirect (presentationProof : request) (orgId redirectUri : string) : eff world request :=
  match Json.field "proofRecordThId" presentationProof with
  | Some (Json.JStr threadId) =>
      if String.eqb threadId "" then mret presentationProof else
      responseCode ← try_catch (c ← redis (ResponseCode.createSession orgId threadId redirectUri); mret (Some c)) (fun _ => mret None);
      match responseCode with
      | None => mret presentationProof
      | Some code =>
          returnUrl ← lift (RedirectUri.buildReturnUrl redirectUri code);
          let p := with_field "returnUrl" (of_str (Some returnUrl)) presentationProof in
          mret (if any_truthy (Json.field "deepLinkURL" p)
                then with_field "deepLinkURL" (of_str (Some (RedirectUri.appendReturnUrl (any_string (Json.field "deepLinkURL" p)) returnUrl))) p else p)
      end
  | _ => mret presentationProof
  end.

(** The properties of the agent's answer *)
Definition fields_of (a : any) : eff world request := match a with Some (Json.JObj fs) => mret fs | _ => throw not_an_object end.

Definition shortened (fs : request) (p : request) : eff world (request + error) :=
  if any_truthy (Json.field "isShortenUrl" fs) then
    and_then (storeVerificationObjectAndReturnUrl (Json.field "invitationUrl" p)) (fun shortenedUrl =>
      if any_truthy shortenedUrl then link ← deep_link shortenedUrl; answered (with_field "deepLinkURL" (of_str (Some link)) (with_field "invitationUrl" shortenedUrl p))
      else answered p)
  else answered p.

Definition with_deep_link (p : request) : eff world request :=
  if negb (any_truthy (Json.field "deepLinkURL" p)) && truthy_str (ResponseCode.env "DEEPLINK_DOMAIN")
  then link ← deep_link (Json.field "invitationUrl" p); mret (with_field "deepLinkURL" (of_str (Some link)) p)
  else mret p.

Definition send_by_link (orgId : string) (payload : any) (fs : request) : eff world (request + error) :=
  and_then (generateOOBProofReq payload) (fun answer =>
    presentationProof ← fields_of answer;
    and_then (shortened fs presentationProof) (fun p =>
      p ← with_deep_link p;
      let redirectUri := Json.field "redirectUri" fs in
      if any_truthy redirectUri then p ← attachRedirect p orgId (any_string redirectUri); answered p else answered p)).

Definition oob_caught (e : exn) : exn := if decide (exn_class e = BadRequestException) then rpc_exn e else verification_caught e.

Definition email_ids (fs : request) : result (list string) :=
  vs ← items (Json.field "emailId" fs); Ok (map json_string vs).

Definition invitation_did (orgId : string) (fs : request) : eff world any :=
  match Json.field "reuseConnection" fs with
  | Some (Json.JBool true) => i ← getInvitationDidByOrgId orgId; mret (of_str (i ≫= invitationDid))
  | _ => mret None
  end.

Definition sendOutOfBandPresentationRequest (fs : request) (orgId : string) : eff world (list IEmailResponse + request) :=
  settled oob_caught verificationErrorHandling (
    getAgentDetails ← getAgentEndPoint orgId;
    let o := getOrganization orgId in
    _ ← lift (redirect_checked getAgentDetails fs);
    url ← agent_url getAgentDetails "create-request-out-of-band" None;
    did ← invitation_did orgId fs;
    payload ← lift (oob_payload orgId url o did fs);
    if any_truthy (Json.field "emailId" fs) then
      emails ← lift (email_ids fs);
      emailResponse ← sendEmailInBatches payload emails o;
      _ ← saveEmail emailResponse;
      answered (inl emailResponse)
    else and_then (send_by_link orgId payload fs) (fun p => answered (inr p))).

(** ** Reports of the agent *)

Definition updateResponseCodeSession (d : option IWebhookProofPresentation) : eff world unit :=
  match d ≫= wp_threadId, d ≫= wp_state with
  | Some threadId, Some state => redis (ResponseCode.updateResponseCodeSession threadId state (default false (d ≫= wp_isVerified)) (d ≫= wp_presentationId))
  | _, _ => mret tt
  end.

Definition webhookProofPresentation (payload : option IWebhookProofPresentation) (orgId : option string) : eff world presentations :=
  rpc (
    proofPresentation ← storeProofPresentation payload orgId;
    _ ← updateResponseCodeSession payload;
    mret proofPresentation).

Definition getProofCallbackResult (responseCode : string) : eff world ResponseCode.IProofCallbackResult := redis (ResponseCode.getProofCallbackResult responseCode).

(** ** Redirect targets *)

Definition setRedirectUris (orgId : string) (redirectUris : list string) (userId : string) : eff world (list string) :=
  rpc (
    normalized ← lift (RedirectUri.setRedirectUris redirectUris isHttpRedirectUriAllowed);
    _ ← getAgentEndPoint orgId;
    updated ← updateRedirectUriAllowlist orgId normalized userId;
    mret (RedirectUri.parseRedirectUriAllowlist (redirectUriAllowlist updated))).

Definition getRedirectUris (orgId : string) : eff world (list string) :=
  rpc (orgAgent ← getAgentEndPoint orgId; mret (RedirectUri.parseRedirectUriAllowlist (redirectUriAllowlist orgAgent))).

(** ** Deletion *)

Definition VerificationProcessState : list string :=
  ["proposal-sent"; "proposal-received"; "request-sent"; "request-received"; "presentation-received"; "presentation-sent"; "done"; "declined"; "abandoned"].

Definition deletedVerificationData (rows : list presentations) : Json.value :=
  obj [("deletedProofRecordsCount", Some (Json.JNum (Z.of_nat (length rows))));
       ("deletedRecordsStatusCount", Some (statusCounts VerificationProcessState (omap pr_state rows)))].

Definition deleteVerificationRecords (orgId : string) (u : option user) : eff world (list presentations) :=
  rpc (
    deleted ← deleteVerificationRecordsByOrgId orgId;
    match deleted with
    | [] => throw (not_found "Verification records does not exists")
    | _ => _ ← _orgDeletedActivity orgId u (deletedVerificationData deleted) "VERIFICATION_RECORD"; mret deleted
    end).

(** ** Messages *)

Inductive message :=
  | GetPresentations (orgId : string) (c : search_criteria)
  | GetVerificationRecords (orgId : string)
  | GetPresentation (proofId : option string) (orgId : string)
  | GetByIssuer (issuerId : option string)
  | SendProofRequest (r : IProofRequestData)
  | VerifyPresentation (proofId : option string) (orgId : string)
  | PresentationWebhook (payload : option IWebhookProofPresentation) (orgId : option string)
  | SendOutOfBand (fs : request) (orgId : string)
  | GetVerifiedDetails (proofId : option string) (orgId : string)
  | GetByThread (orgId threadId : string)
  | GetCallbackResult (responseCode : string)
  | SetRedirectUris (orgId : string) (redirectUris : list string) (userId : string)
  | GetRedirectUris (orgId : string)
  | DeleteVerificationRecords (orgId : string) (u : option user).

Definition done_ {B} (m : eff world B) : eff world unit := _ ← m; mret tt.

Definition handle (m : message) : eff world unit :=
  match m with
  | GetPresentations orgId c => done_ (getProofPresentations orgId c)
  | GetVerificationRecords orgId => done_ (getVerificationRecords orgId)
  | GetPresentation proofId orgId => done_ (getProofPresentationById proofId orgId)
  | GetByIssuer issuerId => done_ (getProofPresentationByIssuerId issuerId)
  | SendProofRequest r => done_ (sendProofRequest r)
  | VerifyPresentation proofId orgId => done_ (verifyPresentation proofId orgId)
  | PresentationWebhook payload orgId => done_ (webhookProofPresentation payload orgId)
  | SendOutOfBand fs orgId => done_ (sendOutOfBandPresentationRequest fs orgId)
  | GetVerifiedDetails proofId orgId => done_ (getVerifiedProofdetails proofId orgId)
  | GetByThread orgId threadId => done_ (getProofPresentationByThreadId orgId threadId)
  | GetCallbackResult responseCode => done_ (getProofCallbackResult responseCode)
  | SetRedirectUris orgId redirectUris userId => done_ (setRedirectUris orgId redirectUris userId)
  | GetRedirectUris orgId => done_ (getRedirectUris orgId)
  | DeleteVerificationRecords orgId u => done_ (deleteVerificationRecords orgId u)
  end.
(** ** Theorems *)

Lemma rpc_refused {B} e (w : world) (r : result B) w' : rpc (throw e) w = (r, w') -> calls w' = calls w /\ exists e', r = Throw e'.
Proof. intros [= <- <-]. by eauto. Qed.

Lemma not_done {B} (s : option string) (v : option bool) (x y : B) : ~ (s = Some "done" /\ v = Some true) ->
  match s, v with Some "done", Some true => x | _, _ => y end = y.
Proof.
  intros Hn. destruct s as [s|]; [|done]. destruct (decide (s = "done")) as [->|Hs]; [destruct v as [[]|]; [by destruct Hn | done..]|].
  clear Hn. repeat first [done | case_match].
Qed.

(** C26. A proof is read from an agent by its thread only for the organization that the recorded
    presentation of the thread belongs to, only when that presentation is done, verified and
    linked to a record of the agent, and only by one call, to that organization's agent; what
    is answered is what the agent answered, which contains a presentation.  In every other
    case nobody is asked and the request fails. *)
Theorem proof_served orgId threadId w : let '(r, w') := getProofPresentationByThreadId orgId threadId w in
  (calls w' = calls w /\ exists e, r = Throw e) \/
  exists p a id url, first (thread_is threadId) (proofs w) = Some p /\ pr_orgId p = Some orgId /\ pr_state p = Some "done" /\ isVerified p = Some true /\
    presentationId p = Some id /\ id <> "" /\ first (agent_of orgId) (agents w) = Some a /\
    getAgentUrl (default "" (agentEndPoint a)) "get-verified-proof" (Some id) = Ok url /\
    calls w' = (calls w ++ [Nats "get-agent-verified-proof-details" (Some (obj [("orgId", of_str (Some orgId)); ("url", of_str (Some url))]))])%list /\
    forall b, r = Ok b -> bt_threadId b = threadId /\ bt_presentationId b = id /\ on_call (calls w') = inl (bt_proofData b) /\
      any_truthy (prop_opt "presentation" (bt_proofData b)) = true.
Proof.
  destruct (getProofPresentationByThreadId orgId threadId w) as [r w'] eqn:Hrun. unfold getProofPresentationByThreadId, rpc, try_catch in Hrun.
  rewrite (run_bind_ok (getPresentationByThreadId threadId) _ w w (first (thread_is threadId) (proofs w)) eq_refl) in Hrun.
  destruct (first (thread_is threadId) (proofs w)) as [p|] eqn:Hp; [|left; by apply (rpc_refused _ w r w') in Hrun].
  destruct (negb (of_org orgId p)) eqn:Ho; [left; by apply (rpc_refused _ w r w') in Hrun|]. apply negb_false_iff, bool_decide_eq_true in Ho.
  destruct (decide (pr_state p = Some "done" /\ isVerified p = Some true)) as [[Hs Hv]|Hn].
  2: { left. apply (rpc_refused (conflict "Proof presentation is not verified") w r w'). rewrite <- Hrun. clear Hrun. unfold rpc, try_catch.
       by rewrite not_done. }
  rewrite Hs, Hv in Hrun. destruct (truthy_str (presentationId p)) eqn:Ht; [|left; by apply (rpc_refused _ w r w') in Hrun].
  destruct (presentationId p) as [id|] eqn:Hi; [|done]. destruct (first (agent_of orgId) (agents w)) as [a|] eqn:Ha.
  2: { left. unfold getAgentEndPoint, gets in Hrun. rewrite !run_bind in Hrun. cbv beta iota in Hrun. rewrite Ha in Hrun. by injection Hrun as <- <-; eauto. }
  rewrite (run_bind_ok (getAgentEndPoint orgId) _ w w a) in Hrun by (unfold getAgentEndPoint, gets; rewrite run_bind; cbv beta iota; by rewrite Ha).
  destruct (getAgentUrl (default "" (agentEndPoint a)) "get-verified-proof" (Some id)) as [url|e] eqn:Hu.
  2: { left. unfold agent_url, lift in Hrun. rewrite run_bind, Hu in Hrun. by injection Hrun as <- <-; eauto. }
  rewrite (run_bind_ok (agent_url a "get-verified-proof" (Some id)) _ w w url) in Hrun by (unfold agent_url, lift; by rewrite Hu).
  right. exists p, a, id, url. split_and!; try done; [by intros -> | |].
  - unfold sent, send, placed in Hrun. rewrite !run_bind in Hrun. cbv beta iota zeta in Hrun. revert Hrun.
    destruct (on_call _) as [v|e]; simpl; [destruct (any_truthy _)|]; by intros [= _ <-].
  - intros b ->. unfold sent, send, placed in Hrun. rewrite !run_bind in Hrun. cbv beta iota zeta in Hrun. revert Hrun.
    destruct (on_call _) as [v|e] eqn:Hc; simpl; [destruct (any_truthy _) eqn:Hpres|]; intros [= <- <-]. done.
Qed.
End service.
