(* ===== verification/IssuanceRecords.v ===== *)
(** * Issued credentials

    The rest of [issuance.service.ts] and [issuance.repository.ts]: offers to connections and
    single out-of-band offers, what agents report of credentials, listings and deletion, and
    their messages in [issuance.controller.ts].  The bulk part is [BulkIssuance], whose checks
    of credentials ([CredentialDelivery], [AttributeValidation]) are used here.  The offers of
    one request are made one after the other. *)

From S2P Require Import Prelude Js Table CommonUtils CommonService IssuanceData AttributeValidation CredentialDelivery ResponseCode DidcommData ProofFormats.

Open Scope Z_scope.

Section service.
Context {A : Agents} {U : UuidSource}.

(** ** Repository *)

Definition agentNotFound : exn := not_found "Agent details not found".

Definition getAgentEndPoint (orgId : string) : eff world (org_agents * option organisation) :=
  t ← gets agents;
  match first (agent_of orgId) t with
  | Some a => mret (a, first (fun o => bool_decide (oa_orgId a = Some (o_id o))) organisations)
  | None => throw agentNotFound
  end.

Definition of_org (orgId : string) (c : credentials) : bool := bool_decide (cr_orgId c = Some orgId).
Definition thread_is (threadId : string) (c : credentials) : bool := String.eqb (cr_threadId c) threadId.

Definition getIssuanceRecordsCount (orgId : string) : eff world Z := gets (fun w => Z.of_nat (length (List.filter (of_org orgId) (creds w)))).

Definition searched_state (search : string) : string :=
  let s := Str.toLowerCase search in
  if String.eqb s "offered" then "offer-sent" else if String.eqb s "accepted" then "done" else if String.eqb s "declined" then "abandoned"
  else if String.eqb s "pending" then "request-received" else if String.eqb s "proposal received" then "proposal-received"
  else if String.eqb s "credential issued" then "offer-sent" else search.

Definition label_of (w : world) (c : credentials) : option string := cr_connectionId c ≫= fun id => theirLabel <$> first (connection_is id) (conns w).

Definition searched (orgId search : string) (schemaIds : list string) (w : world) (c : credentials) : bool :=
  let matched := map schemaLedgerId (List.filter (fun s => contains_insensitive (Some search) (Some (schema_name s))) schemas) in
  of_org orgId c &&
  match schemaIds with
  | _ :: _ => existsb (String.eqb (cr_schemaId c)) schemaIds
  | [] => String.eqb search "" ||
      (contains_insensitive (Some search) (cr_connectionId c) || contains_insensitive (Some search) (Some (cr_schemaId c))
       || existsb (String.eqb (cr_schemaId c)) matched || contains_insensitive (Some search) (label_of w c)
       || contains_insensitive (Some (searched_state search)) (Some (cr_state c)))
  end.

Definition getAllIssuedCredentials (orgId : string) (c : search_criteria) (schemaIds : list string) : eff world (Z * list credentials) :=
  match search c with
  | None => throw not_an_object
  | Some s =>
      rows ← gets (fun w => List.filter (searched orgId s schemaIds w) (creds w));
      issuedCredentialsList ← find_page (credential_order (sortField c) (negb (String.eqb "desc" (sortBy c)))) c rows;
      mret (Z.of_nat (length rows), issuedCredentialsList)
  end.

Record issueCredentialDto := CredentialWebhook {
  wc_id : option string;
  wc_createDateTime : option string;
  wc_connectionId : option string;
  wc_threadId : option string;
  wc_state : option string;
  wc_contextCorrelationId : option string;
  wc_metadata : any;
  wc_credentialData : any;
}.

(** [x?.jsonld?.credential?.['@context'][1]] *)
Definition context_schema (k : string) (credentialData : any) : result any :=
  let credential := prop_opt "credential" (prop_opt "jsonld" (prop_opt k credentialData)) in
  if nullish credential then Ok None else item 1 (prop_opt "@context" credential).

(** The schema a report names: its own, or that of the credential offered or proposed *)
Definition reported_schema (d : option issueCredentialDto) : result any :=
  let own := prop_opt "schemaId" (prop_opt "_anoncreds/credential" (d ≫= wc_metadata)) in
  if any_truthy own then Ok own else
  offered ← context_schema "offer" (d ≫= wc_credentialData);
  if any_truthy offered then Ok offered else
  if truthy_str (d ≫= wc_state) then
    proposed ← context_schema "proposal" (d ≫= wc_credentialData);
    Ok (if any_truthy proposed then proposed else of_str (Some ""))
  else Ok (of_str (Some "")).

Definition reported_definition (d : option issueCredentialDto) : any :=
  let own := prop_opt "credentialDefinitionId" (prop_opt "_anoncreds/credential" (d ≫= wc_metadata)) in
  if any_truthy own then own else of_str (Some "").

Definition date_of (s : option string) : option (option Z) := match s with None => Some None | Some s => Some <$> Date.parse s end.

Definition with_report (d : issueCredentialDto) (by_ schema definition : string) (created : option Z) (c : credentials) : credentials :=
  Credential (cr_id c) (default (cr_created c) created) (cr_createdBy c) by_ (match wc_connectionId d with Some x => Some x | None => cr_connectionId c end)
    (cr_threadId c) (credentialExchangeId c) (default (cr_state c) (wc_state d)) (if String.eqb schema "" then cr_schemaId c else schema) definition (cr_orgId c).

Definition saveIssuedCredentialDetails (dto : option issueCredentialDto) (id : option string) : eff world credentials :=
  organisationId ← webhook_org (dto ≫= wc_contextCorrelationId) id;
  schemaId ← lift (reported_schema dto);
  match dto with
  | None => throw prisma_validation
  | Some d =>
      match wc_threadId d, organisationId, date_of (wc_createDateTime d), schemaId, reported_definition dto with
      | Some threadId, Some org, Some created, Some (Json.JStr schema), Some (Json.JStr definition) =>
          w ← get;
          if negb (refers (wc_connectionId d) w) then throw prisma_foreign_key else
          match first (thread_is threadId) (creds w) with
          | Some c =>
              _ ← put (set_creds (update_where (thread_is threadId) (with_report d org schema definition created) (creds w)) w);
              mret (with_report d org schema definition created c)
          | None =>
              if negb (org_exists org) then throw prisma_foreign_key else
              rowId ← fresh; t ← now;
              let row := Credential rowId (default t created) org org (wc_connectionId d) threadId (default "" (wc_id d)) (default "" (wc_state d)) schema definition (Some org) in
              _ ← modify (fun w => set_creds (creds w ++ [row])%list w);
              mret row
          end
      | _, _, _, _, _ => throw prisma_validation
      end
  end.

(** A schema that is [undefined] changes nothing. *)
Definition with_schema (s : option string) (c : credentials) : credentials :=
  Credential (cr_id c) (cr_created c) (cr_createdBy c) (cr_changedBy c) (cr_connectionId c) (cr_threadId c) (credentialExchangeId c) (cr_state c)
    (default (cr_schemaId c) s) (credDefId c) (cr_orgId c).
Definition updateSchemaIdByThreadId (threadId : string) (schemaId : option string) : eff world unit :=
  modify (fun w => set_creds (update_where (thread_is threadId) (with_schema schemaId) (creds w)) w).

(** *** Deletion *)

Definition file_of (orgId : string) (f : IssuanceData.file_upload) : bool := bool_decide (IssuanceData.f_orgId f = Some orgId).
Definition row_of (files : list IssuanceData.file_upload) (r : IssuanceData.file_data) : bool :=
  existsb (fun f => String.eqb (IssuanceData.f_id f) (IssuanceData.fileUploadId r)) files.

Definition without_files (orgId : string) (w : world) : world :=
  let gone := List.filter (file_of orgId) (files w) in
  set_files (List.filter (fun f => negb (file_of orgId f)) (files w)) (List.filter (fun r => negb (row_of gone r)) (file_rows w)) w.

Definition deleteIssuanceRecordsByOrgId (orgId : string) : eff world (list credentials) :=
  w ← get;
  if existsb (fun p => bool_decide (pr_orgId p = Some orgId)) (proofs w)
  then throw (conflict ("Organization ID " +:+ orgId +:+ " is referenced in the following table(s): presentations, First you have to remove verification data"))
  else
    _ ← put (set_creds (List.filter (fun c => negb (of_org orgId c)) (creds w)) w);
    mret (List.filter (of_org orgId) (creds w)).

(** ** Service *)

Definition getIssuanceRecords (orgId : string) : eff world Z := rpc (getIssuanceRecordsCount orgId).
Definition getIssueCredentialWebhook (dto : option issueCredentialDto) (id : option string) : eff world credentials := rpc (saveIssuedCredentialDetails dto id).

Definition IssuanceProcessState : list string :=
  ["request-sent"; "request-received"; "proposal-sent"; "proposal-received"; "offer-sent"; "offer-received"; "done"; "decliend"; "credential-received"; "credential-issued"; "abandoned"].

Definition deletedIssuanceData (rows : list credentials) : Json.value :=
  obj [("deletedCredentialsRecordsCount", Some (Json.JNum (Z.of_nat (length rows))));
       ("deletedRecordsStatusCount", Some (statusCounts IssuanceProcessState (map cr_state rows)))].

(** The files go first, in a transaction of their own. *)
Definition deleteIssuanceRecords (orgId : string) (u : option user) : eff world (list credentials) :=
  rpc (
    _ ← modify (without_files orgId);
    deleted ← deleteIssuanceRecordsByOrgId orgId;
    match deleted with
    | [] => throw (not_found "Issuance records does not exists")
    | _ => _ ← _orgDeletedActivity orgId u (deletedIssuanceData deleted) "ISSUANCE_RECORD"; mret deleted
    end).

(** *** Listing *)

Definition schema_ids (a : any) : result (list string) :=
  match a with
  | Some (Json.JArr vs) => Ok (omap (fun s => Json.as_str (Json.get "schemaLedgerId" s)) vs)
  | Some (Json.JStr _) | Some (Json.JObj _) => Throw not_an_object
  | _ => Ok []
  end.

Record issued_row := IssuedRow { ir_row : credentials; ir_schemaName : any }.

Definition schema_named (schemas : any) (c : credentials) : result (list issued_row) :=
  match schemas with
  | Some (Json.JArr vs) =>
      Ok [IssuedRow c (prop_opt "name" (first (fun s => match Json.get "schemaLedgerId" s with Some x => strict_equal x (Json.JStr (cr_schemaId c)) | None => false end) vs))]
  | _ => Throw not_an_object
  end.

Definition http_get (url : string) : eff world any :=
  cs ← placed (HttpGet url);
  response ← lift (on_get cs);
  if any_truthy response then mret response else throw (not_found "Error while resolving W3C schema").

Fixpoint getSchemaUrlDetails (schemaUrls : list string) : eff world (list any) :=
  match schemaUrls with [] => mret [] | url :: rest => r ← http_get url; rs ← getSchemaUrlDetails rest; mret (r :: rs) end.

(** Without an answer of the ledger service the schemas are fetched, and every row gets the
    first title among them. *)
Definition named_rows (schemas : any) (rows : list credentials) : eff world (list issued_row) :=
  if any_truthy schemas then lift (each (schema_named schemas) rows)
  else
    details ← getSchemaUrlDetails (map cr_schemaId rows);
    mret (map (fun c => IssuedRow c (prop_opt "title" (mjoin (first (fun s => any_truthy (prop_opt "title" s)) details)))) rows).

Definition getIssueCredentials (orgId : string) (c : search_criteria) : eff world (paged issued_row) :=
  rpc (
    schemaIds ← (if truthy_str (search c) then
        schemaDetails ← sent (fun e => rpc_response (wrapped e)) "get-schemas-details-by-name" [("schemaName", of_str (search c)); ("orgId", of_str (Some orgId))];
        lift (schema_ids schemaDetails)
      else mret []);
    '(count, rows) ← getAllIssuedCredentials orgId c schemaIds;
    getSchemaDetails ← sent (fun e => rpc_response (wrapped e)) "get-schemas-details" [("templateIds", Some (Json.JArr (map (fun r => Json.JStr (cr_schemaId r)) rows)))];
    data ← named_rows getSchemaDetails rows;
    if 0 =? count then throw (not_found "Credentials not found") else mret (paged_response c count data)).

(** *** Messages to the agent *)

(** [new HttpException({ status: error.statusCode, error: error.message }, error.error)] *)
Definition nats_wrapped (e : error) : error :=
  ("response", obj [("status", Json.field "statusCode" e); ("error", Json.field "message" e)]) ::
  omap (fun f => pair f.1 <$> f.2) [("status", Json.field "error" e); ("message", of_str (Some "Http Exception"))].

Definition agent_url (a : org_agents) (flag : string) (id : option string) : eff world string := lift (getAgentUrl (default "" (agentEndPoint a)) flag id).

Definition by_id_failed (e : error) : exn :=
  let error := nats_wrapped e in
  if any_truthy (status_error error)
  then rpc_with (or_falsy (prop_opt "reason" (status_error error)) (status_error error)) (or_else (prop_opt "code" (Json.field "status" error)) (Some (Json.JNum 500)))
  else rpc_response error.

Definition getIssueCredentialsbyCredentialRecordId (credentialRecordId : option string) (orgId : string) : eff world any :=
  rpc (
    '(agentDetails, _) ← getAgentEndPoint orgId;
    url ← agent_url agentDetails "get-offer-by-cred-id" credentialRecordId;
    sent by_id_failed "agent-get-issued-credentials-by-credentialDefinitionId" [("url", of_str (Some url)); ("orgId", of_str (Some orgId))]).

(** *** Checks of attributes *)

Definition getSchemaDetailsBySchemaIdentifier (id : string) : option schema_row := first (fun s => String.eqb (schemaLedgerId s) id) schemas.
Definition getCredentialDefinitionDetails (definition : string) : result schema_row :=
  match first (fun d => String.eqb (credentialDefinitionId d) definition) definitions with
  | None => Throw (not_found ("Credential definition not found for ID: " +:+ definition))
  | Some d =>
      match getSchemaDetailsBySchemaIdentifier (cd_schemaLedgerId d) with
      | Some s => Ok s
      | None => Throw (not_found ("Schema not found for credential definition ID: " +:+ definition))
      end
  end.

(** The values given for a required attribute that are empty; one that is not given at all
    is not missed. *)
Definition empty_values (message : Json.value -> string) (attribute : Json.value) (given : list Json.value) : list string :=
  omap (fun a => if match Json.get "name" a, Json.get "attributeName" attribute with Some x, Some y => strict_equal x y | _, _ => false end
                    && negb (any_truthy (Json.get "value" a)) then Some (message attribute) else None) given.
Definition checked_attribute (attribute : Json.value) : bool := any_truthy (Json.get "attributeName" attribute) && any_truthy (Json.get "isRequired" attribute).

Definition required_at (i : nat) (attribute : Json.value) : string :=
  "Attribute " +:+ any_string (Json.get "attributeName" attribute) +:+ " is required at position " +:+ pretty (Z.of_nat i + 1).
Definition required_empty (attribute : Json.value) : string :=
  "Attribute '" +:+ any_string (Json.get "attributeName" attribute) +:+ "' is required but has an empty value.".

Definition offer_errors (credentialData : list Json.value) (attribute : Json.value) : result (list string) :=
  if checked_attribute attribute
  then each (fun ic => given ← items (Json.get "attributes" ic.2); Ok (empty_values (required_at ic.1) attribute given)) (imap pair credentialData)
  else Ok [].

Definition refused_unless_empty (errors : list string) : result unit :=
  match errors with [] => Ok tt | _ => Throw (http_exn BadRequestException (String.concat "," errors)) end.

Definition template_attributes (s : schema_row) : result (list Json.value) :=
  if String.eqb (attributes s) "" then Ok [] else a ← parse_attributes (attributes s); items (Some a).

(** *** Offers to connections *)

Record IIssuance := Issuance {
  iq_orgId : string;
  iq_credentialDefinitionId : string;
  iq_comment : any;
  iq_credentialData : list Json.value;
  iq_isValidateSchema : bool;
  iq_credentialType : option string;
  iq_protocolVersion : any;
  iq_autoAcceptCredential : any;
  iq_parentThreadId : any;
}.

Definition is_type (t : string) (type : option string) : bool := bool_decide (type = Some t).

Definition getOrgAgentType (typeId : option string) : result string :=
  match first (fun t => bool_decide (typeId = Some t.1)) agent_types with Some t => Ok t.2 | None => Throw not_an_object end.

(** The dates of JSON-LD credentials become today's. *)
Definition dated (credentialData : list Json.value) : eff world (list Json.value) := fun w =>
  (update_offers (fun n => reading (readings w + n)%nat) (Some (Json.JArr credentialData)),
   World (agents w) (invitations w) (shortening_urls w) (conns w) (creds w) (proofs w) (files w) (file_rows w) (calls w) (codes w) (drawn w)
     (readings w + S (length credentialData))%nat).

(** The answer is only logged, and so is a rejection. *)
Definition reportW3CLedgerDifferences (agent : org_agents) (offers : list Json.value) : eff world unit :=
  let templateIds := template_ids offers in
  if negb (truthy_str (didLedgerNamespace (orgDid agent))) || bool_decide (templateIds = []) then mret tt
  else _ ← send "get-schemas-details" [("templateIds", Some (Json.JArr (map Json.JStr templateIds)))]; mret tt.

Definition getW3CSchemaAttributes (schemaUrl : option string) : eff world (list Json.value) :=
  _ ← http_get (template_str schemaUrl);
  match first (fun s => match schemaUrl with Some i => String.eqb (schemaLedgerId s) i | None => true end) schemas with
  | None => throw (not_found "Schema records not found")
  | Some s => lift (a ← parse_attributes (attributes s); items (Some a))
  end.

Definition jsonld_checked (credential : any) (isValidateSchema : bool) : eff world unit :=
  filteredIssuanceAttributes ← lift (credential_attributes (default Json.JNull credential));
  schemaUrlAttributes ← getW3CSchemaAttributes (schema_server_url (default Json.JNull credential));
  if isValidateSchema then lift (validateW3CSchemaAttributes filteredIssuanceAttributes (map schema_attribute schemaUrlAttributes)) else mret tt.

Definition indy_data (q : IIssuance) (c : Json.value) : result Json.value :=
  attributes ← items (Json.get "attributes" c);
  Ok (obj [("protocolVersion", or_falsy (iq_protocolVersion q) (of_str (Some "v1"))); ("connectionId", Json.get "connectionId" c);
    ("credentialFormats", Some (obj [("indy", Some (obj [("attributes", Some (Json.JArr (map without_required attributes)));
       ("credentialDefinitionId", of_str (Some (iq_credentialDefinitionId q)))]))]));
    ("autoAcceptCredential", or_falsy (iq_autoAcceptCredential q) (of_str (Some "always"))); ("comment", iq_comment q)]).
Definition jsonld_data (q : IIssuance) (c : Json.value) : Json.value :=
  obj [("protocolVersion", or_falsy (iq_protocolVersion q) (of_str (Some "v2"))); ("connectionId", Json.get "connectionId" c);
    ("parentThreadId", if any_truthy (iq_parentThreadId q) then iq_parentThreadId q else None);
    ("credentialFormats", Some (obj [("jsonld", Some (obj [("credential", Json.get "credential" c); ("options", Json.get "options" c)]))]));
    ("autoAcceptCredential", or_falsy (iq_autoAcceptCredential q) (of_str (Some "always"))); ("comment", or_falsy (iq_comment q) (of_str (Some "")))].

Definition issue_data (q : IIssuance) (c : Json.value) : eff world any :=
  if is_type "indy" (iq_credentialType q) then d ← lift (indy_data q c); mret (Some d)
  else if is_type "jsonld" (iq_credentialType q) then _ ← jsonld_checked (Json.get "credential" c) (iq_isValidateSchema q); mret (Some (jsonld_data q c))
  else mret None.

Definition offered (q : IIssuance) (url : string) (c : Json.value) : eff world (any + error) :=
  issueData ← issue_data q c;
  send "agent-send-credential-create-offer" [("issueData", issueData); ("url", of_str (Some url)); ("orgId", of_str (Some (iq_orgId q)))].

(** What is told of one offer *)
Record offer_result := OfferResult { or_statusCode : any; or_message : any; or_error : any; or_data : any }.
Definition CREATED : any := Some (Json.JNum 201).

Definition rejected_with (e : error) : offer_result :=
  let reason := nats_wrapped e in
  let message := prop_opt "message" (Json.field "status" reason) in
  let response := Json.field "response" reason in
  OfferResult (or_falsy (prop_opt "statusCode" message) (prop_opt "statusCode" response))
    (or_falsy (prop_opt "message" (prop_opt "error" message)) (prop_opt "message" response))
    (or_falsy (prop_opt "error" response) (of_str (Some "Internal Server error"))) None.
(** The built-in exceptions have a response with a status, a message and a title. *)
Definition title (k : exn_kind) : string :=
  match k with BadRequestException => "Bad Request" | NotFoundException => "Not Found" | _ => "Internal Server error" end.
Definition rejected_by (x : exn) : offer_result :=
  match exn_class x with
  | PlainError | PrismaError => OfferResult None None (of_str (Some "Internal Server error")) None
  | k => OfferResult (Json.JNum <$> exn_status x) (of_str (Some (exn_message x))) (of_str (Some (title k))) None
  end.
Definition fulfilled (v : any) : offer_result := OfferResult CREATED (of_str (Some "Credentials offer created successfully")) None v.

(** [Promise.allSettled] *)
Definition settle (q : IIssuance) (url : string) (c : Json.value) : eff world offer_result :=
  try_catch (answer ← offered q url c; mret match answer with inl v => fulfilled v | inr e => rejected_with e end) (fun x => mret (rejected_by x)).
Fixpoint settle_all (q : IIssuance) (url : string) (cs : list Json.value) : eff world (list offer_result) :=
  match cs with [] => mret [] | c :: cs' => r ← settle q url c; rs ← settle_all q url cs'; mret (r :: rs) end.

Definition is_created (r : offer_result) : bool := match or_statusCode r with Some v => strict_equal v (Json.JNum 201) | None => false end.

(** The template of the first credential, for all that were offered *)
Definition record_schemas (q : IIssuance) (results : list offer_result) : eff world unit :=
  named ← lift (named_schema (head (iq_credentialData q) ≫= Json.get "credential"));
  match named with
  | Some schemaId =>
      for_each results (fun r => match prop_opt "threadId" (or_data r) with
        | Some (Json.JStr t) => when (negb (String.eqb t "")) (updateSchemaIdByThreadId t schemaId)
        | _ => mret tt end)
  | None => mret tt
  end.

Record ICredentialOfferResponse := OfferResponse { of_statusCode : Z; of_message : string; of_data : list offer_result }.

Definition sendCredentialCreateOffer (q : IIssuance) : eff world ICredentialOfferResponse :=
  rpc (
    _ ← (if is_type "indy" (iq_credentialType q) then
           s ← lift (getCredentialDefinitionDetails (iq_credentialDefinitionId q));
           errors ← lift (a ← template_attributes s; each (offer_errors (iq_credentialData q)) a);
           lift (refused_unless_empty errors)
         else mret tt);
    '(agentDetails, _) ← getAgentEndPoint (iq_orgId q);
    orgAgentType ← lift (getOrgAgentType (orgAgentTypeId agentDetails));
    if String.eqb orgAgentType "" then throw (not_found "Organization agent type not found") else
    url ← agent_url agentDetails "create-offer" None;
    credentialData ← (if is_type "jsonld" (iq_credentialType q)
      then ds ← dated (iq_credentialData q); _ ← reportW3CLedgerDifferences agentDetails ds; mret ds
      else mret (iq_credentialData q));
    processedResults ← settle_all q url credentialData;
    if forallb is_created processedResults then
      _ ← record_schemas q processedResults;
      mret (OfferResponse 201 "Credentials offer created successfully" processedResults)
    else if forallb (fun r => negb (is_created r)) processedResults then mret (OfferResponse 400 "Unable to create offer" processedResults)
    else mret (OfferResponse 206 "Credential offer created partially" processedResults)).

(** *** A single out-of-band offer *)

Record OOBIssueCredentialDto := OobDto {
  ob_orgId : string;
  ob_credentialDefinitionId : string;
  ob_comment : any;
  ob_attributes : any;
  ob_protocolVersion : any;
  ob_credential : any;
  ob_options : any;
  ob_credentialType : option string;
  ob_isShortenUrl : bool;
  ob_reuseConnection : bool;
  ob_isValidateSchema : bool;
  ob_autoAcceptCredential : any;
  ob_goalCode : any;
  ob_parentThreadId : any;
  ob_willConfirm : any;
  ob_imageUrl : any;
}.

Definition truthy_or_none (a : any) : any := if any_truthy a then a else None.

Definition oob_common (q : OOBIssueCredentialDto) (o : option organisation) (did : any) : list (string * any) :=
  [("autoAcceptCredential", or_falsy (ob_autoAcceptCredential q) (of_str (Some "always"))); ("goalCode", truthy_or_none (ob_goalCode q));
   ("parentThreadId", truthy_or_none (ob_parentThreadId q)); ("willConfirm", truthy_or_none (ob_willConfirm q));
   ("imageUrl", or_falsy (of_str (o ≫= logoUrl)) (truthy_or_none (ob_imageUrl q))); ("label", of_str (o_name <$> o));
   ("comment", or_falsy (ob_comment q) (of_str (Some ""))); ("invitationDid", truthy_or_none did)].

Definition oob_indy_data (q : OOBIssueCredentialDto) (o : option organisation) (did : any) : result Json.value :=
  attributes ← items (ob_attributes q);
  Ok (obj (("protocolVersion", or_falsy (ob_protocolVersion q) (of_str (Some "v1"))) ::
    ("credentialFormats", Some (obj [("indy", Some (obj [("attributes", Some (Json.JArr (map without_required attributes)));
       ("credentialDefinitionId", of_str (Some (ob_credentialDefinitionId q)))]))])) :: oob_common q o did)).
Definition oob_jsonld_data (q : OOBIssueCredentialDto) (o : option organisation) (did : any) : Json.value :=
  obj (("protocolVersion", or_falsy (ob_protocolVersion q) (of_str (Some "v2"))) ::
    ("credentialFormats", Some (obj [("jsonld", Some (obj [("credential", ob_credential q); ("options", ob_options q)]))])) :: oob_common q o did).

(** [String(credential?.['@context'][1])] *)
Definition context_of (credential : any) : result string :=
  if nullish credential then Ok "undefined" else c ← item 1 (prop_opt "@context" credential); Ok (any_string c).

Definition oob_data (q : OOBIssueCredentialDto) (o : option organisation) (did : any) : eff world any :=
  if is_type "indy" (ob_credentialType q) then d ← lift (oob_indy_data q o did); mret (Some d)
  else if is_type "jsonld" (ob_credentialType q) then
    context ← lift (context_of (ob_credential q));
    match getSchemaDetailsBySchemaIdentifier context with
    | None => throw (not_found "Schema records not found")
    | Some _ => _ ← jsonld_checked (ob_credential q) (ob_isValidateSchema q); mret (Some (oob_jsonld_data q o did))
    end
  else mret None.

Definition oob_failed (e : error) : exn :=
  let error := nats_wrapped e in
  let errorStack := status_error error in
  if any_truthy errorStack
  then rpc_with (if any_truthy (prop_opt "reason" errorStack) then prop_opt "reason" errorStack else prop_opt "message" errorStack) (prop_opt "code" (Json.field "status" error))
  else rpc_response error.

Definition storeIssuanceObjectReturnUrl (storeObj : any) : eff world any :=
  sent oob_failed "store-object-return-url" [("persistent", Some (Json.JBool false)); ("storeObj", storeObj)].

(** The link is stored and put in the agent's answer, with a deep link. *)
Definition oob_shortened (domain : option string) (details : any) : eff world any :=
  url ← storeIssuanceObjectReturnUrl (prop_opt "invitationUrl" details);
  match details with
  | Some (Json.JObj fs) =>
      deepLinkURL ← lift (convertUrlToDeepLinkUrl domain (any_string url));
      let fs := match url with Some u => Json.set_field "invitationUrl" u fs | None => List.filter (fun f => negb (String.eqb f.1 "invitationUrl")) fs end in
      mret (Some (Json.JObj (Json.set_field "deepLinkURL" (Json.JStr deepLinkURL) fs)))
  | _ => throw not_an_object
  end.

Definition sendCredentialOutOfBand (domain : option string) (q : OOBIssueCredentialDto) : eff world any :=
  rpc (
    _ ← (if is_type "indy" (ob_credentialType q) then
           s ← lift (getCredentialDefinitionDetails (ob_credentialDefinitionId q));
           errors ← lift (a ← template_attributes s;
             each (fun attribute => if checked_attribute attribute then given ← items (ob_attributes q); Ok (empty_values required_empty attribute given) else Ok []) a);
           lift (refused_unless_empty errors)
         else mret tt);
    '(agentDetails, o) ← getAgentEndPoint (ob_orgId q);
    did ← (if ob_reuseConnection q then i ← getInvitationDidByOrgId (ob_orgId q); mret (of_str (i ≫= invitationDid)) else mret None);
    url ← agent_url agentDetails "create-offer-oob" None;
    issueData ← oob_data q o did;
    details ← sent oob_failed "agent-out-of-band-credential-offer"
      [("outOfBandIssuancePayload", issueData); ("url", of_str (Some url)); ("orgId", of_str (Some (ob_orgId q)))];
    if ob_isShortenUrl q then oob_shortened domain details else mret details).

(** ** Messages *)

Inductive message :=
  | GetIssuanceRecords (orgId : string)
  | SendCredentialCreateOffer (q : IIssuance)
  | SendCredentialOutOfBand (domain : option string) (q : OOBIssueCredentialDto)
  | GetIssueCredentials (orgId : string) (c : search_criteria)
  | GetIssueCredential (credentialRecordId : option string) (orgId : string)
  | CredentialReport (dto : option issueCredentialDto) (id : option string)
  | DeleteIssuanceRecords (orgId : string) (u : option user).

Definition done_ {B} (m : eff world B) : eff world unit := _ ← m; mret tt.

Definition handle (m : message) : eff world unit :=
  match m with
  | GetIssuanceRecords orgId => done_ (getIssuanceRecords orgId)
  | SendCredentialCreateOffer q => done_ (sendCredentialCreateOffer q)
  | SendCredentialOutOfBand domain q => done_ (sendCredentialOutOfBand domain q)
  | GetIssueCredentials orgId c => done_ (getIssueCredentials orgId c)
  | GetIssueCredential credentialRecordId orgId => done_ (getIssueCredentialsbyCredentialRecordId credentialRecordId orgId)
  | CredentialReport dto id => done_ (getIssueCredentialWebhook dto id)
  | DeleteIssuanceRecords orgId u => done_ (deleteIssuanceRecords orgId u)
  end.
End service.
