(* ===== verification/Didcomm.v ===== *)
(** * Exchanges with wallets: the three services together

    The messages of the connection, verification and issuance services on the tables they
    share, what each operation leaves alone, and what all of them keep: keys are unique,
    references lead somewhere, and a label is stored masked. *)

From S2P Require Import Prelude Js Regex Table CommonUtils CommonService IssuanceData ResponseCode CastHelper DidcommData ProofFormats Connection Verification IssuanceRecords.

Open Scope Z_scope.

Inductive message :=
  | ToConnection (m : Connection.message)
  | ToVerification (m : Verification.message)
  | ToIssuance (m : IssuanceRecords.message).

Section services.
Context {A : Agents} {U : UuidSource} {C : Cipher} {E : ResponseCode.Environment} {P : RedirectUri.UrlParser}.

Definition handle (m : message) : eff world unit :=
  match m with
  | ToConnection m => Connection.handle m
  | ToVerification m => Verification.handle m
  | ToIssuance m => IssuanceRecords.handle m
  end.

Definition serve (w : world) (m : message) : world := (handle m w).2.
Definition serve_all (ms : list message) (w : world) : world := foldl serve w ms.

(** The tables before anything is reported *)
Definition start (a : list org_agents) (fs : list file_upload) (rs : list file_data) : world :=
  World a [] [] [] [] [] fs rs [] (ResponseCode.World ∅ 0 0) 0 0.

Lemma serve_all_invariant (I : world -> Prop) w ms : (forall m, preserves I (handle m)) -> I w -> I (serve_all ms w).
Proof. intros H. revert w. induction ms as [|m ms IH]; intros w Hw; [done|]. by apply IH, H. Qed.
End services.

(** ** Quiet operations

    [quiet]: agents, reported rows and response codes stay.  Invitations, shortened links and
    the messages that are sent may grow. *)

Definition quiet (w w' : world) : Prop :=
  agents w' = agents w /\ conns w' = conns w /\ creds w' = creds w /\ proofs w' = proofs w /\ codes w' = codes w /\ (drawn w <= drawn w')%nat.

#[export] Instance quiet_preorder : PreOrder quiet.
Proof. split; [by intros w | intros w w1 w2 (?&?&?&?&?&?) (?&?&?&?&?&?); split_and!; try congruence; lia]. Qed.

Section frames.
Context {A : Agents} {U : UuidSource}.

Lemma quiet_fresh : frames quiet fresh.
Proof. intros w. split_and!; try done. simpl. lia. Qed.
Lemma quiet_clock : frames quiet now.
Proof. done. Qed.
Lemma quiet_placing c : frames quiet (placed c).
Proof. done. Qed.
Lemma quiet_send cmd p : frames quiet (send cmd p).
Proof. done. Qed.
Lemma quiet_sent catch cmd p : frames quiet (sent catch cmd p).
Proof. unfold sent. apply frames_bind; [exact _ | apply quiet_send|]. intros [v|e]; [apply frames_ret; exact _ | apply frames_throw; exact _]. Qed.
Lemma quiet_gets {B} (f : world -> B) : frames quiet (gets f).
Proof. done. Qed.
Lemma quiet_lift {B} (r : result B) : frames quiet (lift r).
Proof. done. Qed.
Lemma quiet_ret {B} (b : B) : frames quiet (mret b).
Proof. done. Qed.
Lemma quiet_throw {B} e : frames quiet (throw e : eff world B).
Proof. done. Qed.
Lemma quiet_answered {B} (b : B) : frames quiet (answered b).
Proof. done. Qed.
Lemma quiet_activity o u d r : frames quiet (_orgDeletedActivity o u d r).
Proof. apply frames_bind; [exact _ | apply quiet_sent | done]. Qed.
Lemma quiet_page {R} (le : R -> R -> bool) c rows : frames quiet (find_page le c rows).
Proof. unfold find_page. by case_match. Qed.
Lemma quiet_org t o : frames quiet (webhook_org t o).
Proof. unfold webhook_org, getOrganizationByTenantId. case_match; [done|]. apply frames_bind; [exact _ | done | done]. Qed.
Lemma quiet_invitation o : frames quiet (getInvitationDidByOrgId o).
Proof. done. Qed.
End frames.

Lemma frames_rpc {S B} (R : relation S) (m : eff S B) : frames R m -> frames R (rpc m).
Proof. intros H w. rewrite rpc_state. apply H. Qed.
Lemma frames_settled {B} (R : relation world) `{!PreOrder R} caught rejected (m : eff world (B + error)) : frames R m -> frames R (settled caught rejected m).
Proof.
  intros H. unfold settled. apply frames_bind; [exact _ | |].
  - apply frames_try; [exact _ | done | intros e; apply frames_throw; exact _].
  - intros [b|e]; [apply frames_ret; exact _ | apply frames_throw; exact _].
Qed.
Lemma frames_then {B D} (R : relation world) `{!PreOrder R} (m : eff world (B + error)) (k : B -> eff world (D + error)) :
  frames R m -> (forall b, frames R (k b)) -> frames R (and_then m k).
Proof. intros Hm Hk. unfold and_then. apply frames_bind; [exact _ | done|]. intros [b|e]; [apply Hk | apply frames_ret; exact _]. Qed.

#[export] Hint Resolve quiet_fresh quiet_clock quiet_placing quiet_send quiet_sent @quiet_gets @quiet_lift @quiet_ret @quiet_throw @quiet_answered quiet_activity @quiet_page quiet_org
  quiet_invitation : platform.

(** Steps through a computation of which every part frames the state by [quiet]. *)
Ltac solve_quiet :=
  repeat first
    [ solve [auto with platform]
    | apply frames_rpc
    | apply frames_settled; [exact _|]
    | apply frames_then; [exact _ | | intros ?]
    | apply frames_bind; [exact _ | | intros ?]
    | apply frames_try; [exact _ | | intros ?]
    | apply frames_for_each; [exact _ | intros ? ?]
    | case_match ].

Section operations.
Context {A : Agents} {U : UuidSource} {C : Cipher} {E : ResponseCode.Environment} {P : RedirectUri.UrlParser}.

(** *** Connections *)

Lemma quiet_saveInvitation i a o d : frames quiet (saveAgentConnectionInvitations i a o d).
Proof. unfold saveAgentConnectionInvitations. do 3 (case_match; try done); solve_quiet; by intros w. Qed.
Lemma quiet_row o : frames quiet (Connection.getAgentEndPoint o).
Proof. done. Qed.
Lemma quiet_endpoint_of o : frames quiet (endpoint_of o).
Proof. unfold endpoint_of. apply frames_bind; [exact _ | apply quiet_row|]. intros [[? ?]|]; [apply quiet_ret | apply quiet_throw]. Qed.
Lemma quiet_url e f i : frames quiet (Connection.agent_url e f i).
Proof. done. Qed.
#[local] Hint Resolve quiet_saveInvitation quiet_row quiet_endpoint_of quiet_url : platform.

Lemma quiet_createInvitation d : frames quiet (createConnectionInvitation d).
Proof. unfold createConnectionInvitation, connectionInvitationDid, storeConnectionObjectAndReturnUrl. solve_quiet. Qed.

(** The messages that change no reported row *)
Definition connection_writes (m : Connection.message) : bool :=
  match m with ConnectionWebhook _ _ | DeleteRecords _ _ => true | _ => false end.

Lemma quiet_connection m : connection_writes m = false -> frames quiet (Connection.handle m).
Proof.
  destruct m; try done; intros _; simpl; unfold Connection.done_;
    (apply frames_bind; [exact _ | | intros ?; apply quiet_ret]).
  - unfold getUrl, getShorteningUrl. solve_quiet.
  - unfold getConnections, getAllConnections. solve_quiet.
  - unfold getAllConnectionListFromAgent. solve_quiet.
  - unfold getConnectionsById. solve_quiet.
  - unfold receiveInvitationUrl. solve_quiet.
  - unfold receiveInvitation. solve_quiet.
  - unfold sendQuestion. solve_quiet.
  - unfold getQuestionAnswersRecord. solve_quiet.
  - apply quiet_createInvitation.
  - unfold sendBasicMessage. solve_quiet.
Qed.

(** *** Verification *)

Lemma quiet_agent o : frames quiet (Verification.getAgentEndPoint o).
Proof. unfold Verification.getAgentEndPoint. solve_quiet. Qed.
Lemma quiet_verifier_url a f i : frames quiet (Verification.agent_url a f i).
Proof. done. Qed.
Lemma quiet_link u : frames quiet (deep_link u).
Proof. done. Qed.
#[local] Hint Resolve quiet_agent quiet_verifier_url quiet_link : platform.

Lemma quiet_request r url c : frames quiet (_sendProofRequest r url c).
Proof. unfold _sendProofRequest. solve_quiet. Qed.
Lemma quiet_requests r url cs : frames quiet (send_each r url cs).
Proof.
  induction cs as [|c cs IH]; [apply quiet_ret|]. simpl.
  apply frames_then; [exact _ | apply quiet_request|]. intros v. apply frames_then; [exact _ | exact IH|]. intros vs. apply quiet_ret.
Qed.
Lemma quiet_generate p : frames quiet (generateOOBProofReq p).
Proof. unfold generateOOBProofReq, _sendOutOfBandProofRequest, answered. solve_quiet. Qed.
Lemma quiet_store v : frames quiet (storeVerificationObjectAndReturnUrl v).
Proof. done. Qed.
Lemma quiet_qr u : frames quiet (qr_code u).
Proof. unfold qr_code. repeat case_match; done. Qed.
#[local] Hint Resolve quiet_request quiet_requests quiet_generate quiet_store quiet_qr : platform.
Lemma quiet_mail p e o : frames quiet (sendOutOfBandProofRequest p e o).
Proof. unfold sendOutOfBandProofRequest, answered. solve_quiet. Qed.
Lemma quiet_batch p o es : frames quiet (send_batch p o es).
Proof.
  induction es as [|e es IH]; [apply quiet_ret|]. simpl.
  apply frames_bind; [exact _ | apply frames_try; [exact _ | apply quiet_mail | intros ?; apply quiet_ret]|].
  intros r. apply frames_bind; [exact _ | exact IH|]. intros [? ?]. apply quiet_ret.
Qed.
Lemma quiet_batches p es o : frames quiet (sendEmailInBatches p es o).
Proof. unfold sendEmailInBatches. apply frames_bind; [exact _ | apply quiet_batch|]. intros [? ?]. solve_quiet. Qed.
Lemma quiet_shortened fs p : frames quiet (shortened fs p).
Proof. unfold shortened, answered. solve_quiet. Qed.
Lemma quiet_deep p : frames quiet (with_deep_link p).
Proof. unfold with_deep_link. solve_quiet. Qed.
Lemma quiet_fields a : frames quiet (fields_of a).
Proof. unfold fields_of. repeat case_match; done. Qed.
Lemma quiet_invitation_did o fs : frames quiet (invitation_did o fs).
Proof. unfold invitation_did. solve_quiet. Qed.

Definition verification_writes (m : Verification.message) : bool :=
  match m with PresentationWebhook _ _ | SendOutOfBand _ _ | GetCallbackResult _ | SetRedirectUris _ _ _ | DeleteVerificationRecords _ _ => true | _ => false end.

Lemma quiet_verification m : verification_writes m = false -> frames quiet (Verification.handle m).
Proof.
  destruct m; try done; intros _; simpl; unfold Verification.done_;
    (apply frames_bind; [exact _ | | intros ?; apply quiet_ret]).
  - unfold getProofPresentations, getAllProofRequests. solve_quiet.
  - unfold getProofPresentationById. solve_quiet.
  - unfold sendProofRequest. solve_quiet.
  - unfold verifyPresentation. solve_quiet.
  - unfold getVerifiedProofdetails, _getVerifiedProofDetails, answered. solve_quiet.
  - unfold getProofPresentationByThreadId, getPresentationByThreadId. solve_quiet.
  - unfold getRedirectUris. solve_quiet.
Qed.

(** *** Issuance *)

Lemma quiet_issuer o : frames quiet (IssuanceRecords.getAgentEndPoint o).
Proof. unfold IssuanceRecords.getAgentEndPoint. solve_quiet. Qed.
Lemma quiet_issuer_url a f i : frames quiet (IssuanceRecords.agent_url a f i).
Proof. done. Qed.
Lemma quiet_http u : frames quiet (http_get u).
Proof. unfold http_get. solve_quiet. Qed.
#[local] Hint Resolve quiet_issuer quiet_issuer_url quiet_http : platform.
Lemma quiet_details us : frames quiet (getSchemaUrlDetails us).
Proof. induction us as [|u us IH]; simpl; solve_quiet. Qed.
Lemma quiet_dated l : frames quiet (dated l).
Proof. done. Qed.
Lemma quiet_w3c u : frames quiet (IssuanceRecords.getW3CSchemaAttributes u).
Proof. unfold IssuanceRecords.getW3CSchemaAttributes. solve_quiet. Qed.
#[local] Hint Resolve quiet_details quiet_dated quiet_w3c : platform.
Lemma quiet_report a l : frames quiet (IssuanceRecords.reportW3CLedgerDifferences a l).
Proof. unfold IssuanceRecords.reportW3CLedgerDifferences. solve_quiet. Qed.
Lemma quiet_checked c b : frames quiet (jsonld_checked c b).
Proof. unfold jsonld_checked. solve_quiet. Qed.
#[local] Hint Resolve quiet_report quiet_checked : platform.
Lemma quiet_settle_all q url cs : frames quiet (settle_all q url cs).
Proof. induction cs as [|c cs IH]; simpl; [apply quiet_ret|]. unfold settle, offered, issue_data. solve_quiet. Qed.
Lemma quiet_oob_data q o d : frames quiet (oob_data q o d).
Proof. unfold oob_data. solve_quiet. Qed.
Lemma quiet_oob_shortened d v : frames quiet (oob_shortened d v).
Proof. unfold oob_shortened, IssuanceRecords.storeIssuanceObjectReturnUrl. solve_quiet. Qed.
#[local] Hint Resolve quiet_settle_all quiet_oob_data quiet_oob_shortened : platform.

Definition issuance_writes (m : IssuanceRecords.message) : bool :=
  match m with SendCredentialCreateOffer _ | CredentialReport _ _ | DeleteIssuanceRecords _ _ => true | _ => false end.

Lemma quiet_issuance m : issuance_writes m = false -> frames quiet (IssuanceRecords.handle m).
Proof.
  destruct m; try done; intros _; simpl; unfold IssuanceRecords.done_;
    (apply frames_bind; [exact _ | | intros ?; apply quiet_ret]).
  - unfold sendCredentialOutOfBand. solve_quiet.
  - unfold getIssueCredentials, getAllIssuedCredentials, named_rows. solve_quiet.
  - unfold getIssueCredentialsbyCredentialRecordId. solve_quiet.
Qed.
End operations.
#[export] Hint Resolve quiet_saveInvitation quiet_endpoint_of quiet_url quiet_agent quiet_verifier_url quiet_link quiet_request quiet_requests quiet_generate quiet_store
  quiet_qr quiet_batches quiet_shortened quiet_deep quiet_fields quiet_invitation_did quiet_issuer quiet_issuer_url quiet_report quiet_dated quiet_settle_all : platform.

(** ** The tables *)

#[local] Set Default Proof Using "All".

Definition has_connection (w : world) (o : option string) : Prop := forall id, o = Some id -> exists c, c ∈ conns w /\ cn_connectionId c = id.
Definition has_org `{Agents} (o : option string) : Prop := exists org, o = Some org /\ org_exists org = true.

Section services.
Context {A : Agents} {U : UuidSource} {C : Cipher} {E : ResponseCode.Environment} {P : RedirectUri.UrlParser}.

Record exchanges_ok (w : world) : Prop := ExchangesOk {
  xo_connections : NoDup (cn_connectionId <$> conns w);
  xo_proofs : NoDup (pr_threadId <$> proofs w);
  xo_credentials : NoDup (cr_threadId <$> creds w);
  xo_proof_refers p : p ∈ proofs w -> has_connection w (pr_connectionId p);
  xo_credential_refers c : c ∈ creds w -> has_connection w (cr_connectionId c);
  xo_connection_org c : c ∈ conns w -> has_org (cn_orgId c);
  xo_proof_org p : p ∈ proofs w -> has_org (pr_orgId p);
  xo_credential_org c : c ∈ creds w -> has_org (cr_orgId c);
}.

Definition kept (w w' : world) : Prop := exchanges_ok w -> exchanges_ok w'.
#[export] Instance kept_preorder : PreOrder kept.
Proof. split; unfold kept; [by intros w | intros w w1 w2; auto]. Qed.

(** Only the three tables matter. *)
Lemma kept_same w w' : conns w' = conns w -> creds w' = creds w -> proofs w' = proofs w -> kept w w'.
Proof. intros Hc Hr Hp []. split; unfold has_connection in *; rewrite ?Hc, ?Hr, ?Hp; done. Qed.
Lemma kept_quiet w w' : quiet w w' -> kept w w'.
Proof. intros (_ & ? & ? & ? & _). by apply kept_same. Qed.
Lemma kept_of_quiet {B} (m : eff world B) : frames quiet m -> frames kept m.
Proof. apply frames_mono, kept_quiet. Qed.

(** A quiet computation and what follows it *)
Lemma kept_then {B D} (m : eff world B) (k : B -> eff world D) : frames quiet m -> (forall b, frames kept (k b)) -> frames kept (m ≫= k).
Proof. intros Hm Hk. apply frames_bind; [exact _ | by apply kept_of_quiet | exact Hk]. Qed.

Lemma refers_has w o : refers o w = true -> has_connection w o.
Proof. unfold refers, has_connection. intros H id ->. apply existsb_elem in H as (c & Hc & He%String.eqb_eq). by exists c. Qed.

(** ** Connections *)

Lemma has_connection_sub w w' o : (forall id, id ∈ (cn_connectionId <$> conns w) -> id ∈ (cn_connectionId <$> conns w')) -> has_connection w o -> has_connection w' o.
Proof.
  intros Hsub H id Hid. destruct (H id Hid) as (c & Hc & <-).
  destruct (proj1 (list_elem_of_fmap _ _ _) (Hsub (cn_connectionId c) ltac:(apply list_elem_of_fmap; by exists c))) as (c' & ? & ?). by exists c'.
Qed.

Lemma kept_conns w l : NoDup (cn_connectionId <$> l) -> (forall id, id ∈ (cn_connectionId <$> conns w) -> id ∈ (cn_connectionId <$> l)) ->
  (forall c, c ∈ l -> (exists c0, c0 ∈ conns w /\ cn_orgId c0 = cn_orgId c) \/ has_org (cn_orgId c)) -> kept w (set_conns l w).
Proof.
  intros Hn Hsub Ho []. split; simpl; auto.
  - intros p Hp. apply (has_connection_sub w); auto.
  - intros c Hc. apply (has_connection_sub w); auto.
  - intros c [(c0 & H0 & <-)|Hc]%Ho; auto.
Qed.

Lemma org_has_org org : org_exists org = true -> has_org (Some org).
Proof. intros H. by exists org. Qed.

Lemma kept_saveConnection dto o : frames kept (saveConnectionWebhook dto o).
Proof.
  unfold saveConnectionWebhook. apply kept_then; [auto with platform|]. intros org w.
  destruct dto as [d|]; [|done]. destruct (co_theirLabel d) as [label|]; [|done].
  destruct (co_id d) as [id|], (co_state d) as [st|], org as [org|], (Connection.date_of (co_createDateTime d)) as [cr|], (Connection.date_of (co_lastChangedDateTime d)) as [ch|]; try done.
  unfold gets. rewrite run_bind. cbv beta iota. destruct (first _ _) as [c|] eqn:Hf.
  - unfold modify. rewrite run_bind. simpl. intros Hw. apply kept_conns; [| | |done].
    + rewrite fmap_update_where by done. apply Hw.
    + by rewrite fmap_update_where.
    + intros x (x0 & Hx & ->)%elem_of_update_where. left. exists x0. split; [done|]. by destruct (connection_is id x0).
  - destruct (negb (org_exists org)) eqn:Ho; [done|]. apply negb_false_iff in Ho. unfold fresh, now, modify. rewrite !run_bind. simpl.
    intros Hw. refine (kept_conns _ _ _ _ _ _); [| | |by apply (kept_same w)].
    + apply NoDup_new; [apply Hw|]. intros y Hy Hne. simpl in Hne. rewrite first_None in Hf. specialize (Hf y Hy). unfold connection_is in Hf.
      by rewrite Hne, String.eqb_refl in Hf.
    + simpl. intros i Hi. rewrite fmap_app. apply elem_of_app. by left.
    + simpl. intros x [Hx| ->%list_elem_of_singleton]%elem_of_app; [left; by exists x | right; by apply org_has_org].
Qed.

(** Nothing that stays names a connection that goes. *)
Lemma kept_reference_has w orgId o : has_connection w o ->
  has_connection (without_connections orgId w) (kept_reference (List.filter (conn_of orgId) (conns w)) o).
Proof.
  intros H id. unfold kept_reference. destruct o as [x|]; [|done]. destruct (existsb _ _) eqn:Ex; [done|]. intros [= <-].
  destruct (H x eq_refl) as (c & Hc & <-). exists c. split; [|done]. simpl. apply elem_of_filter_b. split; [done|].
  destruct (conn_of orgId c) eqn:Eo; [|done]. apply not_true_iff_false in Ex. exfalso. apply Ex, existsb_elem. exists c.
  split; [by apply elem_of_filter_b | apply String.eqb_refl].
Qed.

Lemma kept_without w orgId : kept w (without_connections orgId w).
Proof.
  intros Hw. split; simpl; try (rewrite <- list_fmap_compose; apply Hw); try apply Hw.
  - apply NoDup_filter_key, Hw.
  - intros p (p0 & <- & Hp)%list_elem_of_In%in_map_iff. apply kept_reference_has. by apply (xo_proof_refers _ Hw), list_elem_of_In.
  - intros c (c0 & <- & Hc)%list_elem_of_In%in_map_iff. apply kept_reference_has. by apply (xo_credential_refers _ Hw), list_elem_of_In.
  - intros c [Hc _]%elem_of_filter_b. by apply (xo_connection_org _ Hw).
  - intros p (p0 & <- & Hp)%list_elem_of_In%in_map_iff. by apply (xo_proof_org _ Hw p0), list_elem_of_In.
  - intros c (c0 & <- & Hc)%list_elem_of_In%in_map_iff. by apply (xo_credential_org _ Hw c0), list_elem_of_In.
Qed.

Lemma kept_deleteConnections o u : frames kept (deleteConnectionRecords o u).
Proof.
  apply frames_rpc, frames_bind; [exact _ | | intros [|c cs]; [apply frames_throw; exact _ | apply kept_of_quiet; solve_quiet]].
  intros w. unfold deleteConnectionRecordsByOrgId, transaction, get, put. rewrite run_bind. cbv beta iota.
  destruct (referencedTables o w); [apply kept_without | simpl; by apply kept_same].
Qed.

(** ** Presentations *)

Lemma kept_proofs w (l : list presentations) : NoDup (pr_threadId <$> l) -> (forall p, p ∈ l -> exists p0, p0 ∈ proofs w /\ pr_orgId p0 = pr_orgId p /\ (pr_connectionId p = pr_connectionId p0 \/ has_connection w (pr_connectionId p))) -> kept w (set_proofs l w).
Proof.
  intros Hn Hl Hw. split; simpl; try apply Hw; auto.
  - intros p (p0 & H0 & _ & [->|Hp])%Hl; [by apply (xo_proof_refers _ Hw) | done].
  - intros p (p0 & H0 & <- & _)%Hl. by apply (xo_proof_org _ Hw).
Qed.

Lemma kept_map_proofs w f : (forall p, pr_threadId (f p) = pr_threadId p /\ pr_orgId (f p) = pr_orgId p /\ pr_connectionId (f p) = pr_connectionId p) ->
  exchanges_ok w -> kept w (set_proofs (map f (proofs w)) w).
Proof.
  intros Hf Hw. apply kept_proofs.
  - assert (pr_threadId <$> map f (proofs w) = pr_threadId <$> proofs w) as ->; [|apply Hw].
    unfold fmap. induction (proofs w) as [|p l IH]; [done|]. simpl. destruct (Hf p) as (-> & _). by f_equal.
  - intros p (p0 & <- & Hp)%list_elem_of_In%in_map_iff. exists p0. destruct (Hf p0) as (_ & -> & ->). split_and!; [by apply list_elem_of_In | done | by left].
Qed.

Lemma quiet_encrypt d : frames quiet (encryptEmailId d).
Proof. unfold encryptEmailId. solve_quiet. Qed.

Lemma kept_storeProof payload o : frames kept (storeProofPresentation payload o).
Proof.
  unfold storeProofPresentation. apply kept_then; [apply quiet_encrypt|]. intros email. apply kept_then; [auto with platform|]. intros schema.
  apply kept_then; [auto with platform|]. intros org w. destruct payload as [d|]; [|done].
  destruct (wp_threadId d) as [t|], org as [org|], (text_or_absent schema); try done.
  unfold get, put. rewrite run_bind. cbv beta iota. destruct (negb (refers _ w)) eqn:Hr; [done|]. apply negb_false_iff, refers_has in Hr.
  destruct (first _ _) as [p|] eqn:Hf.
  - rewrite run_bind. simpl. intros Hw. apply kept_proofs; [| |done].
    + rewrite fmap_update_where by done. apply Hw.
    + intros x (x0 & Hx & ->)%elem_of_update_where. exists x0. split; [done|]. destruct (Verification.thread_is t x0); [|by split; [|left]].
      split; [done|]. simpl. destruct (wp_connectionId d); [by right | by left].
  - destruct (negb (org_exists org)) eqn:Ho; [done|]. apply negb_false_iff in Ho. unfold fresh, now, modify. rewrite !run_bind. simpl.
    intros Hw. split; simpl; try apply Hw.
    + apply NoDup_new; [apply Hw|]. intros y Hy Hne. simpl in Hne. rewrite first_None in Hf. specialize (Hf y Hy). unfold Verification.thread_is in Hf.
      by rewrite Hne, String.eqb_refl in Hf.
    + intros x [Hx| ->%list_elem_of_singleton]%elem_of_app; [by apply (xo_proof_refers _ Hw) | exact Hr].
    + intros x [Hx| ->%list_elem_of_singleton]%elem_of_app; [by apply (xo_proof_org _ Hw) | by apply org_has_org].
Qed.

Lemma kept_codes w c : kept w (World (agents w) (invitations w) (shortening_urls w) (conns w) (creds w) (proofs w) (files w) (file_rows w) (calls w) c (drawn w) (readings w)).
Proof. by apply kept_same. Qed.
Lemma kept_redis {B} (m : eff ResponseCode.world B) : frames kept (redis m).
Proof. intros w. unfold redis. destruct (m (codes w)). apply kept_codes. Qed.

Lemma kept_webhook payload o : frames kept (webhookProofPresentation payload o).
Proof.
  apply frames_rpc, frames_bind; [exact _ | apply kept_storeProof|]. intros p. apply frames_bind; [exact _ | | intros ?; apply frames_ret; exact _].
  unfold updateResponseCodeSession. repeat case_match; [apply kept_redis | apply frames_ret; exact _..].
Qed.

Lemma kept_saveEmail l : frames kept (saveEmail l).
Proof.
  apply frames_for_each; [exact _|]. intros r _. destruct (er_proofRecordThId r) as [v|]; [destruct v; try (apply frames_throw; exact _)|]; intros w Hw.
  - by apply (kept_map_proofs w (fun p => if Verification.thread_is s p then with_email (er_email r) p else p)); [intros p; destruct (Verification.thread_is s p)|..].
  - by apply (kept_map_proofs w (with_email (er_email r))).
Qed.

Lemma kept_attach p o u : frames kept (attachRedirect p o u).
Proof.
  unfold attachRedirect. destruct (Json.field _ p) as [v|]; [destruct v; try (apply frames_ret; exact _)|apply frames_ret; exact _].
  case_match; [apply frames_ret; exact _|]. apply frames_bind; [exact _ | |].
  - apply frames_try; [exact _ | | intros ?; apply frames_ret; exact _]. apply frames_bind; [exact _ | apply kept_redis | intros ?; apply frames_ret; exact _].
  - intros [code|]; [|apply frames_ret; exact _]. apply kept_of_quiet. solve_quiet.
Qed.

Lemma kept_by_link o p fs : frames kept (send_by_link o p fs).
Proof.
  unfold send_by_link. apply frames_then; [exact _ | apply kept_of_quiet; auto with platform|]. intros a.
  apply kept_then; [auto with platform|]. intros q. apply frames_then; [exact _ | apply kept_of_quiet; auto with platform|]. intros q'.
  apply kept_then; [auto with platform|]. intros r. case_match; [|apply kept_of_quiet; auto with platform].
  apply frames_bind; [exact _ | apply kept_attach | intros ?; apply kept_of_quiet; auto with platform].
Qed.

Lemma kept_outOfBand fs o : frames kept (sendOutOfBandPresentationRequest fs o).
Proof.
  apply frames_settled; [exact _|]. apply kept_then; [auto with platform|]. intros a. do 4 (apply kept_then; [auto with platform|]; intros ?).
  case_match.
  - do 2 (apply kept_then; [auto with platform|]; intros ?). apply frames_bind; [exact _ | apply kept_saveEmail|]. intros ?. apply kept_of_quiet. auto with platform.
  - apply frames_then; [exact _ | apply kept_by_link|]. intros ?. apply kept_of_quiet. auto with platform.
Qed.

Lemma kept_deleteProofs o u : frames kept (deleteVerificationRecords o u).
Proof.
  apply frames_rpc, frames_bind; [exact _ | | intros [|c cs]; [apply frames_throw; exact _ | apply kept_of_quiet; solve_quiet]].
  intros w Hw. apply kept_proofs; [apply NoDup_filter_key, Hw | | done].
  intros p [Hp _]%elem_of_filter_b. exists p. split_and!; [done | done | by left].
Qed.

Lemma kept_redirects o us u : frames kept (setRedirectUris o us u).
Proof.
  apply frames_rpc. apply kept_then; [auto with platform|]. intros n. apply kept_then; [auto with platform|]. intros _.
  apply frames_bind; [exact _ | | intros ?; apply frames_ret; exact _]. unfold updateRedirectUriAllowlist. apply kept_then; [auto with platform|]. intros t.
  case_match; [|apply frames_throw; exact _]. apply frames_bind; [exact _ | | intros ?; apply frames_ret; exact _]. intros w. by apply kept_same.
Qed.

(** ** Credentials *)

Lemma kept_creds w (l : list credentials) : NoDup (cr_threadId <$> l) -> (forall c, c ∈ l -> exists c0, c0 ∈ creds w /\ cr_orgId c0 = cr_orgId c /\ (cr_connectionId c = cr_connectionId c0 \/ has_connection w (cr_connectionId c))) -> kept w (set_creds l w).
Proof.
  intros Hn Hl Hw. split; simpl; try apply Hw; auto.
  - intros c (c0 & H0 & _ & [->|Hc])%Hl; [by apply (xo_credential_refers _ Hw) | done].
  - intros c (c0 & H0 & <- & _)%Hl. by apply (xo_credential_org _ Hw).
Qed.

Lemma kept_saveCredential dto o : frames kept (saveIssuedCredentialDetails dto o).
Proof.
  unfold saveIssuedCredentialDetails. apply kept_then; [auto with platform|]. intros org. apply kept_then; [auto with platform|]. intros schema w.
  destruct dto as [d|]; [|done]. destruct (wc_threadId d) as [t|], org as [org|], (date_of (wc_createDateTime d)) as [created|]; try done.
  destruct schema as [schema|]; [|done]. destruct schema; try done. destruct (reported_definition (Some d)) as [def|]; [|done]. destruct def; try done.
  unfold get, put. rewrite run_bind. cbv beta iota. destruct (negb (refers _ w)) eqn:Hr; [done|]. apply negb_false_iff, refers_has in Hr.
  destruct (first _ _) as [c|] eqn:Hf.
  - rewrite run_bind. simpl. intros Hw. apply kept_creds; [| |done].
    + rewrite fmap_update_where by done. apply Hw.
    + intros x (x0 & Hx & ->)%elem_of_update_where. exists x0. split; [done|]. destruct (IssuanceRecords.thread_is t x0); [|by split; [|left]].
      split; [done|]. simpl. destruct (wc_connectionId d); [by right | by left].
  - destruct (negb (org_exists org)) eqn:Ho; [done|]. apply negb_false_iff in Ho. unfold fresh, now, modify. rewrite !run_bind. simpl.
    intros Hw. split; simpl; try apply Hw.
    + apply NoDup_new; [apply Hw|]. intros y Hy Hne. simpl in Hne. rewrite first_None in Hf. specialize (Hf y Hy). unfold IssuanceRecords.thread_is in Hf.
      by rewrite Hne, String.eqb_refl in Hf.
    + intros x [Hx| ->%list_elem_of_singleton]%elem_of_app; [by apply (xo_credential_refers _ Hw) | exact Hr].
    + intros x [Hx| ->%list_elem_of_singleton]%elem_of_app; [by apply (xo_credential_org _ Hw) | by apply org_has_org].
Qed.

Lemma kept_updateSchema t s : frames kept (updateSchemaIdByThreadId t s).
Proof.
  intros w Hw. apply kept_creds; [rewrite fmap_update_where by done; apply Hw | | done].
  intros x (x0 & Hx & ->)%elem_of_update_where. exists x0. split; [done|]. destruct (IssuanceRecords.thread_is t x0); by split; [|left].
Qed.

Lemma kept_deleteCredentials o u : frames kept (deleteIssuanceRecords o u).
Proof.
  apply frames_rpc, frames_bind; [exact _ | intros w; by apply kept_same|]. intros _.
  apply frames_bind; [exact _ | | intros [|c cs]; [apply frames_throw; exact _ | apply kept_of_quiet; solve_quiet]].
  intros w. unfold deleteIssuanceRecordsByOrgId, get, put. rewrite run_bind. cbv beta iota. case_match; [done|]. rewrite run_bind. simpl.
  intros Hw. apply kept_creds; [apply NoDup_filter_key, Hw | | done]. intros c [Hc _]%elem_of_filter_b. exists c. split_and!; [done | done | by left].
Qed.

Lemma kept_createOffer q : frames kept (IssuanceRecords.sendCredentialCreateOffer q).
Proof.
  apply frames_rpc. apply kept_then; [solve_quiet|]. intros _. apply kept_then; [auto with platform|]. intros [a o]. apply kept_then; [auto with platform|]. intros t.
  case_match; [apply frames_throw; exact _|]. apply kept_then; [auto with platform|]. intros url. apply kept_then; [solve_quiet|]. intros cs.
  apply kept_then; [auto with platform|]. intros rs. case_match; [|case_match; apply frames_ret; exact _].
  apply frames_bind; [exact _ | | intros ?; apply frames_ret; exact _]. unfold record_schemas. apply kept_then; [auto with platform|]. intros [s|]; [|apply frames_ret; exact _].
  apply frames_for_each; [exact _|]. intros r _. destruct (prop_opt _ _) as [v|]; [destruct v; try (apply frames_ret; exact _)|apply frames_ret; exact _].
  unfold when. case_match; [apply kept_updateSchema | apply frames_ret; exact _].
Qed.

(** ** The services *)

Lemma kept_done {B} (m : eff world B) : frames kept m -> frames kept (_ ← m; mret tt).
Proof. intros H. apply frames_bind; [exact _ | done | intros ?; apply frames_ret; exact _]. Qed.

Lemma kept_serving m : frames kept (handle m).
Proof.
  destruct m as [m|m|m]; simpl.
  - destruct (connection_writes m) eqn:Hm; [|by apply kept_of_quiet, quiet_connection].
    destruct m; try done; apply kept_done; [apply frames_rpc, kept_saveConnection | apply kept_deleteConnections].
  - destruct (verification_writes m) eqn:Hm; [|by apply kept_of_quiet, quiet_verification].
    destruct m; try done; apply kept_done; [apply kept_webhook | apply kept_outOfBand | apply kept_redis | apply kept_redirects | apply kept_deleteProofs].
  - destruct (issuance_writes m) eqn:Hm; [|by apply kept_of_quiet, quiet_issuance].
    destruct m; try done; apply kept_done; [apply kept_createOffer | apply frames_rpc, kept_saveCredential | apply kept_deleteCredentials].
Qed.

(** Whatever messages the connection, verification and issuance services serve, in whatever
    order, a connection, a presentation thread and a credential thread is recorded once,
    what a presentation or a credential refers to is a recorded connection, and every row
    belongs to an organization that exists. *)
Theorem exchanges_consistent ms a fs rs : exchanges_ok (serve_all ms (start a fs rs)).
Proof.
  apply serve_all_invariant; [intros m w; apply kept_serving|].
  split; simpl; first [by constructor | by intros ? ?%elem_of_nil].
Qed.
End services.

(** ** The mask *)

(** How many characters are shown at the beginning and at the end of a label of [n] *)
Definition shown_first (n : nat) : nat := if (n <? 6)%nat then 1 else if (n <? 9)%nat then 2 else 3.
Definition shown_last (n : nat) : nat := if (n <=? 3)%nat then 0 else shown_first n.
Definition shown (n i : nat) : bool := (i <? shown_first n)%nat || (n - shown_last n <=? i)%nat.
Definition hidden (c : ascii) : ascii := if line_terminator c then c else "*"%char.

Lemma get_app_l s t i : (i < String.length s)%nat -> String.get i (s +:+ t) = String.get i s.
Proof. revert i. induction s as [|c s IH]; intros [|i] H; simpl in *; [lia..|done|]. apply IH. lia. Qed.
Lemma get_app_r s t i : String.get (String.length s + i) (s +:+ t) = String.get i t.
Proof. induction s as [|c s IH]; [done|]. exact IH. Qed.

Lemma length_append s t : String.length (s +:+ t) = (String.length s + String.length t)%nat.
Proof. induction s as [|c s IH]; [done|]. simpl. by rewrite IH. Qed.

Lemma length_slice a b s : (a <= b <= String.length s)%nat -> String.length (slice a b s) = (b - a)%nat.
Proof.
  unfold slice. remember (b - a)%nat as n eqn:E. intros H. assert (a + n <= String.length s)%nat by lia. clear E H b.
  revert a n H0. induction s as [|c s IH]; intros a n H; simpl in *; [by replace n with O by lia; replace a with O by lia|].
  destruct a as [|a], n as [|n]; simpl; try done; [rewrite IH by lia; done | rewrite IH by lia; done..].
Qed.
Lemma get_slice a b s i : (a <= b <= String.length s)%nat -> (i < b - a)%nat -> String.get i (slice a b s) = String.get (a + i) s.
Proof.
  unfold slice. remember (b - a)%nat as n eqn:E. intros H Hi. clear E H b. revert a n i Hi.
  induction s as [|c s IH]; intros a n i Hi; simpl in *; [by destruct a, n, i|].
  destruct a as [|a], n as [|n]; simpl; try lia; [|by apply IH]. destruct i as [|i]; [done|]. rewrite (IH 0%nat n i) by lia. done.
Qed.
Lemma length_stars s : String.length (stars s) = String.length s.
Proof. unfold stars. induction s as [|c s IH]; [done|]. simpl. destruct (line_terminator c); simpl; by rewrite IH. Qed.
Lemma get_stars s i : String.get i (stars s) = hidden <$> String.get i s.
Proof.
  unfold stars, hidden. revert i. induction s as [|c s IH]; intros i; [by destruct i|]. simpl.
  destruct (line_terminator c) eqn:E; simpl; destruct i as [|i]; simpl; rewrite ?E; done.
Qed.

(** The first [a] and the last [b] characters, and stars between them *)
Definition masked (a b : nat) (s : string) : string :=
  let n := String.length s in slice 0 a s +:+ stars (slice a (n - b) s) +:+ slice (n - b) n s.

Lemma masked_spec a b s i : (a + b <= String.length s)%nat ->
  String.length (masked a b s) = String.length s /\
  ((i < String.length s)%nat -> String.get i (masked a b s) = (fun c => if (i <? a)%nat || (String.length s - b <=? i)%nat then c else hidden c) <$> String.get i s).
Proof.
  intros H. unfold masked. set (n := String.length s) in *. assert (H1 : String.length (slice 0 a s) = a) by (rewrite length_slice; lia).
  assert (H2 : String.length (stars (slice a (n - b) s)) = (n - b - a)%nat) by (rewrite length_stars, length_slice; lia).
  assert (H3 : String.length (slice (n - b) n s) = b) by (rewrite length_slice; lia). split.
  { rewrite !length_append. lia. }
  intros Hi. destruct (Nat.ltb_spec i a) as [Ha|Ha]; simpl.
  - rewrite get_app_l, get_slice by lia. simpl. by destruct (String.get i s).
  - replace i with (String.length (slice 0 a s) + (i - a))%nat at 1 by lia. rewrite get_app_r.
    destruct (Nat.leb_spec (n - b) i) as [Hb|Hb].
    + replace (i - a)%nat with (String.length (stars (slice a (n - b) s)) + (i - (n - b)))%nat by lia. rewrite get_app_r, get_slice by lia.
      replace (n - b + (i - (n - b)))%nat with i by lia. by destruct (String.get i s).
    + rewrite get_app_l by lia. rewrite get_stars, get_slice by lia. by replace (a + (i - a))%nat with i by lia.
Qed.

Lemma append_nil s : s +:+ "" = s.
Proof. induction s as [|c s IH]; [done|]. simpl. by rewrite IH. Qed.
Lemma slice_empty n s : slice n n s = "".
Proof. unfold slice. rewrite Nat.sub_diag. revert n. induction s as [|c s IH]; intros [|n]; simpl; auto. Qed.

Lemma maskedTheirLabel_masked s : maskedTheirLabel s = masked (if (String.length s =? 0)%nat then 0 else shown_first (String.length s)) (shown_last (String.length s)) s.
Proof.
  unfold maskedTheirLabel, masked, shown_last, shown_first. set (n := String.length s).
  destruct (Nat.leb_spec n 3).
  - destruct (Nat.ltb_spec n 6); [|lia]. rewrite !Nat.sub_0_r, slice_empty, append_nil. subst n. by destruct s.
  - destruct (Nat.eqb_spec n 0); [lia|]. destruct (Nat.ltb_spec 3 n); [|lia]. destruct (Nat.ltb_spec n 6); [done|].
    destruct (Nat.leb_spec 6 n); [|lia]. destruct (Nat.leb_spec n 8), (Nat.ltb_spec n 9); try lia; [done|].
    destruct (Nat.ltb_spec 8 n); [done | lia].
Qed.

(** Every character is shown or hidden, by its place. *)
Lemma mask_exact s : String.length (maskedTheirLabel s) = String.length s /\
  forall i, (i < String.length s)%nat -> String.get i (maskedTheirLabel s) = (fun c => if shown (String.length s) i then c else hidden c) <$> String.get i s.
Proof.
  rewrite maskedTheirLabel_masked. set (n := String.length s). set (a := if (n =? 0)%nat then 0%nat else shown_first n).
  assert (Ha : (a + shown_last n <= n)%nat).
  { unfold a, shown_last, shown_first. repeat (case_match; simpl); rewrite ?Nat.ltb_lt, ?Nat.ltb_ge, ?Nat.leb_le, ?Nat.leb_gt, ?Nat.eqb_eq, ?Nat.eqb_neq in *; lia. }
  split; [apply (masked_spec a (shown_last n) s 0 Ha)|]. intros i Hi. destruct (masked_spec a (shown_last n) s i Ha) as [_ ->]; [|done].
  unfold shown, a. destruct (Nat.eqb_spec n 0); [lia | done].
Qed.

(** ** What is stored of a label *)

Section services.
Context {A : Agents} {U : UuidSource} {C : Cipher} {E : ResponseCode.Environment} {P : RedirectUri.UrlParser}.

(** The connections are among those there were, with their labels. *)
Definition conns_from (w w' : world) : Prop :=
  forall c, c ∈ conns w' -> exists c0, c0 ∈ conns w /\ cn_connectionId c0 = cn_connectionId c /\ theirLabel c0 = theirLabel c.
#[local] Instance conns_from_preorder : PreOrder conns_from.
Proof.
  split; [intros w c Hc; by exists c|]. intros w w1 w2 H1 H2 c (c1 & Hc1 & ? & ?)%H2. destruct (H1 c1 Hc1) as (c0 & ? & ? & ?).
  exists c0. split_and!; congruence.
Qed.
Lemma from_same w w' : conns w' = conns w -> conns_from w w'.
Proof. intros H c Hc. rewrite H in Hc. by exists c. Qed.
Lemma from_quiet {B} (m : eff world B) : frames quiet m -> frames conns_from m.
Proof. apply frames_mono. intros w w' (_ & H & _). by apply from_same. Qed.

(** The operations that leave connections and response codes as they are *)
Definition elsewhere (w w' : world) : Prop := conns w' = conns w /\ codes w' = codes w.
#[export] Instance elsewhere_preorder : PreOrder elsewhere.
Proof. split; unfold elsewhere; [by intros w | intros w w1 w2; naive_solver congruence]. Qed.
Lemma elsewhere_quiet {B} (m : eff world B) : frames quiet m -> frames elsewhere m.
Proof. apply frames_mono. by intros w w' (_ & H & _ & _ & H' & _). Qed.
Lemma elsewhere_after {B D} (m : eff world B) (k : B -> eff world D) : frames quiet m -> (forall b, frames elsewhere (k b)) -> frames elsewhere (m ≫= k).
Proof. intros Hm Hk. apply frames_bind; [exact _ | by apply elsewhere_quiet | exact Hk]. Qed.

Lemma elsewhere_storeProof p o : frames elsewhere (storeProofPresentation p o).
Proof.
  unfold storeProofPresentation. apply elsewhere_after; [apply quiet_encrypt|]. intros e. do 2 (apply elsewhere_after; [auto with platform|]; intros ?).
  intros w. destruct p as [d|]; [|done]. destruct (wp_threadId d), b0, (text_or_absent b); try done.
  unfold get, put. rewrite run_bind. cbv beta iota. destruct (negb _); [done|]. destruct (first _ _); [done|]. by destruct (negb _).
Qed.
Lemma elsewhere_saveEmail l : frames elsewhere (saveEmail l).
Proof. apply frames_for_each; [exact _|]. intros r _ w. by repeat case_match. Qed.
Lemma elsewhere_deleteProofs o u : frames elsewhere (deleteVerificationRecords o u).
Proof. apply frames_rpc, frames_bind; [exact _ | done | intros [|c cs]; [done | apply elsewhere_quiet; solve_quiet]]. Qed.
Lemma elsewhere_redirects o us u : frames elsewhere (setRedirectUris o us u).
Proof.
  apply frames_rpc. do 2 (apply elsewhere_after; [auto with platform|]; intros ?). apply frames_bind; [exact _ | | done].
  unfold updateRedirectUriAllowlist. apply elsewhere_after; [auto with platform|]. intros t. case_match; done.
Qed.
Lemma elsewhere_saveCredential d o : frames elsewhere (saveIssuedCredentialDetails d o).
Proof.
  unfold saveIssuedCredentialDetails. do 2 (apply elsewhere_after; [auto with platform|]; intros ?). intros w. destruct d as [d|]; [|done].
  destruct (wc_threadId d), b, (date_of (wc_createDateTime d)), b0 as [[]|], (reported_definition (Some d)) as [[]|]; try done.
  unfold get, put. rewrite run_bind. cbv beta iota. destruct (negb _); [done|]. destruct (first _ _); [done|]. by destruct (negb _).
Qed.
Lemma elsewhere_createOffer q : frames elsewhere (IssuanceRecords.sendCredentialCreateOffer q).
Proof.
  apply frames_rpc. apply elsewhere_after; [solve_quiet|]. intros _. apply elsewhere_after; [auto with platform|]. intros [a o]. apply elsewhere_after; [auto with platform|]. intros t.
  case_match; [done|]. apply elsewhere_after; [auto with platform|]. intros url. apply elsewhere_after; [solve_quiet|]. intros cs.
  apply elsewhere_after; [auto with platform|]. intros rs. case_match; [|by case_match].
  apply frames_bind; [exact _ | | done]. unfold record_schemas. apply elsewhere_after; [auto with platform|]. intros [s|]; [|done].
  apply frames_for_each; [exact _|]. intros r _. destruct (prop_opt _ _) as [[]|]; try done. unfold when. by case_match.
Qed.
Lemma elsewhere_deleteCredentials o u : frames elsewhere (deleteIssuanceRecords o u).
Proof.
  apply frames_rpc, frames_bind; [exact _ | done|]. intros _. apply frames_bind; [exact _ | | intros [|c cs]; [done | apply elsewhere_quiet; solve_quiet]].
  intros w. unfold deleteIssuanceRecordsByOrgId, get, put. rewrite run_bind. cbv beta iota. by case_match.
Qed.

Lemma elsewhere_issuance m : frames elsewhere (IssuanceRecords.handle m).
Proof.
  destruct (issuance_writes m) eqn:Hm; [|by apply elsewhere_quiet, quiet_issuance].
  destruct m; try done; simpl; unfold IssuanceRecords.done_; (apply frames_bind; [exact _ | | done]);
    [apply elsewhere_createOffer | apply frames_rpc, elsewhere_saveCredential | apply elsewhere_deleteCredentials].
Qed.
Lemma elsewhere_verification m : (forall p o, m <> PresentationWebhook p o) -> (forall fs o, m <> SendOutOfBand fs o) -> (forall c, m <> GetCallbackResult c) ->
  frames elsewhere (Verification.handle m).
Proof.
  intros H1 H2 H3. destruct (verification_writes m) eqn:Hm; [|by apply elsewhere_quiet, quiet_verification].
  destruct m as [| | | | | |p o|fs o| | |c|o us u| |o u]; try done; [by destruct (H1 p o) | by destruct (H2 fs o) | by destruct (H3 c)|..]; simpl; unfold Verification.done_;
    (apply frames_bind; [exact _ | | done]); [apply elsewhere_redirects | apply elsewhere_deleteProofs].
Qed.

(** *** Connections alone *)

Definition same_conns (w w' : world) : Prop := conns w' = conns w.
#[local] Instance same_conns_preorder : PreOrder same_conns.
Proof. split; unfold same_conns; [by intros w | intros w w1 w2; congruence]. Qed.
Lemma same_elsewhere {B} (m : eff world B) : frames elsewhere m -> frames same_conns m.
Proof. apply frames_mono. by intros w w' [H _]. Qed.
Lemma same_quiet {B} (m : eff world B) : frames quiet m -> frames same_conns m.
Proof. intros H. by apply same_elsewhere, elsewhere_quiet. Qed.
Lemma same_after {B D} (m : eff world B) (k : B -> eff world D) : frames quiet m -> (forall b, frames same_conns (k b)) -> frames same_conns (m ≫= k).
Proof. intros Hm Hk. apply frames_bind; [exact _ | by apply same_quiet | exact Hk]. Qed.
Lemma same_redis {B} (m : eff ResponseCode.world B) : frames same_conns (redis m).
Proof. intros w. unfold redis. by destruct (m (codes w)). Qed.

Lemma same_report p o : frames same_conns (webhookProofPresentation p o).
Proof.
  apply frames_rpc, frames_bind; [exact _ | apply same_elsewhere, elsewhere_storeProof|]. intros r. apply frames_bind; [exact _ | | done].
  unfold updateResponseCodeSession. repeat case_match; [apply same_redis | done..].
Qed.
Lemma same_attach p o u : frames same_conns (attachRedirect p o u).
Proof.
  unfold attachRedirect. destruct (Json.field _ p) as [v|]; [destruct v; try done|done]. case_match; [done|]. apply frames_bind; [exact _ | |].
  - apply frames_try; [exact _ | | done]. apply frames_bind; [exact _ | apply same_redis | done].
  - intros [code|]; [|done]. apply same_quiet. solve_quiet.
Qed.
Lemma same_outOfBand fs o : frames same_conns (sendOutOfBandPresentationRequest fs o).
Proof.
  apply frames_settled; [exact _|]. do 5 (apply same_after; [auto with platform|]; intros ?). case_match.
  - do 2 (apply same_after; [auto with platform|]; intros ?). apply frames_bind; [exact _ | apply same_elsewhere, elsewhere_saveEmail | done].
  - apply frames_then; [exact _ | | done]. unfold send_by_link. apply frames_then; [exact _ | apply same_quiet; auto with platform|]. intros ?.
    apply same_after; [auto with platform|]. intros ?. apply frames_then; [exact _ | apply same_quiet; auto with platform|]. intros ?.
    apply same_after; [auto with platform|]. intros ?. case_match; [|done]. apply frames_bind; [exact _ | apply same_attach | done].
Qed.

Lemma same_others m : (forall x, m <> ToConnection x) -> frames same_conns (handle m).
Proof.
  intros Hne. destruct m as [m|m|m]; simpl; [by destruct (Hne m) | | apply same_elsewhere, elsewhere_issuance].
  destruct m; try (apply same_elsewhere, elsewhere_verification; done); simpl; unfold Verification.done_; (apply frames_bind; [exact _ | | done]);
    [apply same_report | apply same_outOfBand | apply same_redis].
Qed.

(** A report of a connection with this identifier and this label *)
Definition reports (m : message) (id label : string) : Prop :=
  exists d o, m = ToConnection (ConnectionWebhook (Some d) o) /\ co_id d = Some id /\ co_theirLabel d = Some label.

Lemma step_labels m w c : c ∈ conns (serve w m) ->
  (exists c0, c0 ∈ conns w /\ cn_connectionId c0 = cn_connectionId c /\ theirLabel c0 = theirLabel c) \/
  (exists label, reports m (cn_connectionId c) label /\ theirLabel c = maskedTheirLabel label).
Proof.
  unfold serve. destruct m as [m|m|m]; [|left; revert c H; apply from_same; by apply same_others..].
  simpl. destruct (connection_writes m) eqn:Hm; [|intros H; left; revert c H; by apply from_quiet, quiet_connection].
  destruct m as [dto o| | | | | | | | | | |o u|]; try done; simpl; unfold Connection.done_; rewrite run_bind.
  - unfold getConnectionWebhook. pose proof (rpc_state (saveConnectionWebhook dto o) w) as Hs. destruct (rpc (saveConnectionWebhook dto o) w) as [r w1].
    simpl in Hs. subst w1. replace (match r with Ok _ => _ | Throw e => _ end).2 with (saveConnectionWebhook dto o w).2 by by destruct r.
    intros Hc. revert Hc. unfold saveConnectionWebhook. rewrite run_bind. pose proof (quiet_org (dto ≫= co_contextCorrelationId) o w) as (_ & Hq & _).
    destruct (webhook_org _ o w) as [[org|e] w1]; simpl in Hq; [|simpl; rewrite Hq; left; by exists c].
    destruct dto as [d|]; [|simpl; rewrite Hq; left; by exists c]. destruct (co_theirLabel d) as [label|] eqn:Hl; [|simpl; rewrite Hq; left; by exists c].
    destruct (co_id d) as [id|] eqn:Hi, (co_state d) as [st|], org as [org|], (Connection.date_of (co_createDateTime d)) as [cr|], (Connection.date_of (co_lastChangedDateTime d)) as [ch|];
      try (simpl; rewrite Hq; left; by exists c).
    unfold gets. rewrite run_bind. cbv beta iota. destruct (first _ _) as [c1|].
    + unfold modify. rewrite run_bind. simpl. rewrite Hq. intros (x & Hx & ->)%elem_of_update_where. left. exists x. split; [done|]. by destruct (connection_is id x).
    + destruct (negb _); [simpl; rewrite Hq; left; by exists c|]. unfold fresh, now, modify. rewrite !run_bind. simpl. rewrite Hq.
      intros [Hc| ->%list_elem_of_singleton]%elem_of_app; [left; by exists c|]. right. exists label. split; [|done]. by exists d, o.
  - intros Hc. left. revert c Hc. assert (frames conns_from (deleteConnectionRecords o u)) as H.
    { apply frames_rpc, frames_bind; [exact _ | | intros [|c cs]; [by apply from_quiet | apply from_quiet; solve_quiet]].
      intros w0. unfold deleteConnectionRecordsByOrgId, transaction, get, put. rewrite run_bind. cbv beta iota.
      destruct (referencedTables o w0); [|by apply from_same]. intros c [Hc _]%elem_of_filter_b. by exists c. }
    specialize (H w). destruct (deleteConnectionRecords o u w) as [[r|e] w1]; exact H.
Qed.

(** Whatever the services serve, the label of a recorded connection was reported with it and
    is masked: it is as long as the reported one, shows its first and last one to three
    characters (the last ones when there are more than three), and every other character is
    a star, if it is no line terminator. *)
Theorem labels_masked ms a fs rs c : c ∈ conns (serve_all ms (start a fs rs)) ->
  exists m label, m ∈ ms /\ reports m (cn_connectionId c) label /\ String.length (theirLabel c) = String.length label /\
    forall i, (i < String.length label)%nat -> String.get i (theirLabel c) = (fun x => if shown (String.length label) i then x else hidden x) <$> String.get i label.
Proof.
  enough (H : forall ms w, (forall c, c ∈ conns (serve_all ms w) -> (exists c0, c0 ∈ conns w /\ cn_connectionId c0 = cn_connectionId c /\ theirLabel c0 = theirLabel c) \/
    exists m label, m ∈ ms /\ reports m (cn_connectionId c) label /\ theirLabel c = maskedTheirLabel label)).
  { intros Hc. apply H in Hc as [(c0 & Hc & _)|(m & label & Hm & Hr & ->)]; [by apply elem_of_nil in Hc|]. exists m, label.
    split_and!; [done | done | apply (mask_exact label)..]. }
  clear. induction ms as [|m ms IH]; intros w c Hc; [left; by exists c|]. simpl in Hc. apply IH in Hc as [(c0 & Hc & Hi & Hl)|(x & label & Hx & ?)].
  - apply step_labels in Hc as [(c1 & ? & ? & ?)|(label & Hr & Hm)]; [left; exists c1; split_and!; congruence|].
    right. exists m, label. split; [left|]. rewrite <- Hi, <- Hl. done.
  - right. exists x, label. split; [by right | done].
Qed.
End services.
