(* ===== verification/DidcommProofs.v ===== *)
(** * Exchanges with wallets: response codes and deletion

    The sessions of response codes on the state of the three services: which message makes
    one, and which message ends one; what deleting the records of an organization leaves; and
    the theorems at work in a sample deployment. *)

From S2P Require Import Prelude Js Table CommonUtils CommonService IssuanceData ResponseCode CastHelper DidcommData ProofFormats Connection Verification IssuanceRecords Didcomm.

Open Scope Z_scope.

#[local] Set Default Proof Using "All".

Notation session := ResponseCode.IResponseCodeSession.

(** ** The store *)

Section store.
Context {E : ResponseCode.Environment} {U : UuidSource}.
Implicit Types c : ResponseCode.world.

Definition session_in c (token : string) (s : session) : Prop := exists x, ResponseCode.store c !! ResponseCode.tokenKey token = Some (ResponseCode.SessionValue s, x).
Definition drawn_token c (token : string) : Prop := exists n, (n < ResponseCode.drawn c)%nat /\ token = uuid n.

(** Tokens with a session were drawn, and a thread's index leads to its session. *)
Record codes_ok c : Prop := CodesOk {
  co_drawn token v : ResponseCode.store c !! ResponseCode.tokenKey token = Some v -> drawn_token c token;
  co_index t token x : ResponseCode.store c !! ResponseCode.threadIndexKey t = Some (ResponseCode.TokenValue token, x) ->
    drawn_token c token /\ forall s, session_in c token s -> ResponseCode.threadId s = t;
}.

(** The sessions are those there were, up to [T], or new ones of which [N] holds. *)
Definition sessions_from (T : session -> session -> Prop) (N : session -> Prop) c c' : Prop :=
  codes_ok c -> codes_ok c' /\ forall token s, session_in c' token s -> (exists s0, session_in c token s0 /\ (s = s0 \/ T s0 s)) \/ N s.

(** The store is not written, though tokens may be drawn. *)
Lemma from_store T N c c' : ResponseCode.store c' = ResponseCode.store c -> (ResponseCode.drawn c <= ResponseCode.drawn c')%nat -> sessions_from T N c c'.
Proof.
  intros Hs Hd [H1 H2]. unfold session_in in *. split.
  - assert (Hdr : forall t, drawn_token c t -> drawn_token c' t) by (intros t (n & ? & ->); exists n; split; [lia | done]).
    split; unfold session_in; rewrite ?Hs; [eauto|]. intros t token x H. destruct (H2 t token x H). auto.
  - intros token s H. rewrite Hs in H. left. exists s. auto.
Qed.

Lemma exec_store {B} (f : Z -> gmap string (ResponseCode.stored * Z) -> B * gmap string (ResponseCode.stored * Z)) c :
  ResponseCode.drawn (ResponseCode.exec f c).2 = ResponseCode.drawn c /\
  (ResponseCode.store (ResponseCode.exec f c).2 = ResponseCode.store c \/ exists t, ResponseCode.store (ResponseCode.exec f c).2 = (f t (ResponseCode.store c)).2).
Proof.
  unfold ResponseCode.exec. destruct (ResponseCode.deliver _); simpl; [|by eauto..]. destruct (f _ _) eqn:Hf. simpl. split; [done|]. right. eexists. by rewrite Hf.
Qed.

(** A command that only reads *)
Lemma read_store {B} (f : Z -> gmap string (ResponseCode.stored * Z) -> B) c :
  ResponseCode.store (ResponseCode.exec (fun t r => (f t r, r)) c).2 = ResponseCode.store c /\ ResponseCode.drawn (ResponseCode.exec (fun t r => (f t r, r)) c).2 = ResponseCode.drawn c.
Proof. destruct (exec_store (fun t r => (f t r, r)) c) as [Hd [Hs|[t Hs]]]; by rewrite Hs, Hd. Qed.

Lemma read_value (k : string) c o c' : ResponseCode.exec (fun t r => (ResponseCode.GET t k r, r)) c = (Ok (Some o), c') ->
  exists x, ResponseCode.store c !! k = Some (o, x).
Proof.
  unfold ResponseCode.exec. destruct (ResponseCode.deliver _); [|done..]. intros [= H _]. unfold ResponseCode.GET in H.
  destruct (ResponseCode.store c !! k) as [[v x]|]; simpl in H; [|done]. case_match; [|done]. injection H as ->. by exists x.
Qed.

Lemma key_ne a b : ResponseCode.tokenKey a <> ResponseCode.threadIndexKey b.
Proof. apply ResponseCode.keys_disjoint. Qed.
Lemma thread_inj a b : ResponseCode.threadIndexKey a = ResponseCode.threadIndexKey b -> a = b.
Proof. apply Json.app_inv_str. Qed.

(** *** Creation *)

Lemma created_sessions N org thread uri c : (forall created, N (ResponseCode.Session org thread uri ResponseCode.PENDING None created)) ->
  sessions_from (fun _ _ => False) N c (ResponseCode.createSession org thread uri c).2.
Proof.
  intros HN. unfold ResponseCode.createSession, ResponseCode.random_token, gets. rewrite !run_bind. cbv beta iota.
  set (c1 := ResponseCode.World _ _ _). set (s := ResponseCode.Session _ _ _ _ _ _). set (token := uuid (ResponseCode.drawn c)).
  pose proof (exec_store (fun t r => (tt, ResponseCode.create_commands t token s ResponseCode.pendingTtlSeconds r)) c1) as [Hd Hs].
  destruct (ResponseCode.exec _ c1) as [r c2]. simpl in Hd, Hs.
  assert (H2 : (match r with Ok _ => (Ok token, c2) | Throw e => (Throw e, c2) end).2 = c2) by by destruct r.
  replace ((match r with Ok a => _ | Throw e => _ end).2) with c2 by by destruct r. clear H2.
  destruct Hs as [Hs|[t Hs]]; [apply from_store; [done | rewrite Hd; simpl; lia]|]. intros [H1 Hi].
  assert (Hdr : forall k, drawn_token c k -> drawn_token c2 k) by (intros k (n & ? & ->); exists n; rewrite Hd; simpl; split; [lia | done]).
  assert (Hnew : drawn_token c2 token) by (exists (ResponseCode.drawn c); rewrite Hd; simpl; split; [lia | done]).
  assert (Hfresh : forall k, drawn_token c k -> k <> token) by (intros k (n & ? & ->) He%uuid_inj; lia).
  unfold ResponseCode.create_commands, ResponseCode.SET in Hs.
  assert (Htok : forall k, ResponseCode.store c2 !! ResponseCode.tokenKey k = if decide (k = token) then Some (ResponseCode.SessionValue s, t + ResponseCode.pendingTtlSeconds * 1000) else ResponseCode.store c !! ResponseCode.tokenKey k).
  { intros k. rewrite Hs, lookup_insert_ne by (intros He; by apply (key_ne k thread)). destruct (decide (k = token)) as [->|Hk]; [by rewrite lookup_insert_eq|].
    rewrite lookup_insert_ne; [done|]. by intros ?%ResponseCode.tokenKey_inj. }
  split.
  - split.
    + intros k v. rewrite Htok. destruct (decide (k = token)) as [->|]; [done|]. intros Hk. by apply Hdr, (H1 k v).
    + intros t' k x. rewrite Hs. destruct (decide (t' = thread)) as [->|Ht].
      * rewrite lookup_insert_eq. intros [= <- _]. split; [done|]. intros s' [y Hy]. rewrite Htok, decide_True in Hy by done. by injection Hy as <- _.
      * rewrite lookup_insert_ne by (intros He%thread_inj; by apply Ht). rewrite lookup_insert_ne by (intros He; by apply (key_ne token t')).
        intros Hk. destruct (Hi t' k x Hk) as [Hkd Hks]. split; [by apply Hdr|]. intros s' [y Hy]. apply Hks. exists y.
        rewrite Htok, decide_False in Hy; [done | by apply Hfresh].
  - intros k s' [y Hy]. rewrite Htok in Hy. destruct (decide (k = token)) as [->|]; [injection Hy as <- _; right; apply HN | left].
    exists s'. split; [by exists y | by left].
Qed.

(** *** Ending *)

Definition ends (thread : string) (st : ResponseCode.ResponseCodeStatus) (s0 s : session) : Prop :=
  ResponseCode.status s0 = ResponseCode.PENDING /\ ResponseCode.status s = st /\ ResponseCode.threadId s = thread /\
  ResponseCode.orgId s = ResponseCode.orgId s0 /\ ResponseCode.threadId s0 = thread /\ ResponseCode.redirectUri s = ResponseCode.redirectUri s0.

Lemma marked_sessions N t token thread s u ttl c c' x y :
  ResponseCode.store c !! ResponseCode.threadIndexKey thread = Some (ResponseCode.TokenValue token, x) -> ResponseCode.store c !! ResponseCode.tokenKey token = Some (ResponseCode.SessionValue s, y) ->
  ResponseCode.status s = ResponseCode.PENDING -> ResponseCode.drawn c' = ResponseCode.drawn c ->
  ResponseCode.orgId u = ResponseCode.orgId s /\ ResponseCode.threadId u = ResponseCode.threadId s /\ ResponseCode.redirectUri u = ResponseCode.redirectUri s ->
  ResponseCode.store c' = (ResponseCode.MARK_TERMINAL_SCRIPT t (ResponseCode.tokenKey token) (ResponseCode.threadIndexKey thread) s u ttl (ResponseCode.store c)).2 ->
  sessions_from (ends thread (ResponseCode.status u)) N c c'.
Proof.
  intros Hx Hy Hp Hd (Ho & Ht & Hu) Hs. unfold ResponseCode.MARK_TERMINAL_SCRIPT in Hs. destruct (decide _); [|apply from_store; [done | lia]].
  simpl in Hs. intros [H1 Hi]. destruct (Hi _ _ _ Hx) as [_ Hthread]. specialize (Hthread s ltac:(by exists y)).
  assert (Htok : forall k, exists e, ResponseCode.store c' !! ResponseCode.tokenKey k = if decide (k = token) then Some (ResponseCode.SessionValue u, e) else ResponseCode.store c !! ResponseCode.tokenKey k).
  { intros k. unfold ResponseCode.EXPIRE in Hs. exists (t + ttl * 1000). rewrite Hs. clear Hs.
    assert (He : (ResponseCode.SET t (ResponseCode.tokenKey token) (ResponseCode.SessionValue u) ttl (ResponseCode.store c)) !! ResponseCode.tokenKey k =
      if decide (k = token) then Some (ResponseCode.SessionValue u, t + ttl * 1000) else ResponseCode.store c !! ResponseCode.tokenKey k).
    { unfold ResponseCode.SET. destruct (decide (k = token)) as [->|]; [by rewrite lookup_insert_eq|]. rewrite lookup_insert_ne; [done|]. by intros ?%ResponseCode.tokenKey_inj. }
    destruct (ResponseCode.GET t (ResponseCode.threadIndexKey thread) _); [|done]. rewrite lookup_insert_ne; [done|]. intros Hk. by apply (key_ne k thread). }
  assert (Hindex : forall t' k z, ResponseCode.store c' !! ResponseCode.threadIndexKey t' = Some (ResponseCode.TokenValue k, z) -> exists z', ResponseCode.store c !! ResponseCode.threadIndexKey t' = Some (ResponseCode.TokenValue k, z')).
  { intros t' k z. rewrite Hs. unfold ResponseCode.EXPIRE. assert (Hne : ResponseCode.tokenKey token <> ResponseCode.threadIndexKey t') by apply key_ne.
    destruct (ResponseCode.GET t (ResponseCode.threadIndexKey thread) _) as [v|] eqn:Hg.
    - destruct (decide (t' = thread)) as [->|Hn].
      + rewrite lookup_insert_eq. intros [= -> _]. unfold ResponseCode.GET, ResponseCode.SET in Hg. rewrite lookup_insert_ne, Hx in Hg by done. simpl in Hg.
        case_match; [|done]. injection Hg as <-. by exists x.
      + rewrite lookup_insert_ne by (intros ?%thread_inj; congruence). unfold ResponseCode.SET. rewrite lookup_insert_ne by done. by exists z.
    - unfold ResponseCode.SET. rewrite lookup_insert_ne by done. by exists z. }
  assert (Hdr : forall k, drawn_token c k -> drawn_token c' k) by (intros k (n & ? & ->); exists n; rewrite Hd; done).
  split.
  - split.
    + intros k v. destruct (Htok k) as [e1 ->]. destruct (decide (k = token)) as [->|]; [intros _; by apply Hdr, (H1 _ _ Hy) | intros Hk; by apply Hdr, (H1 k v)].
    + intros t' k z [z' Hz]%Hindex. destruct (Hi _ _ _ Hz) as [Hk Hks]. split; [by apply Hdr|]. intros s' [e' He']. destruct (Htok k) as [e1 He1]. rewrite He1 in He'.
      destruct (decide (k = token)) as [->|]; [injection He' as <- _; rewrite Ht; apply Hks; by exists y | apply Hks; by exists e'].
  - intros k s' [e' He']. destruct (Htok k) as [e1 He1]. rewrite He1 in He'. left. destruct (decide (k = token)) as [->|].
    + injection He' as <- _. exists s. split; [by exists y|]. right. unfold ends. rewrite Ht. done.
    + exists s'. split; [by exists e' | by left].
Qed.

Lemma terminal_sessions N thread st res c : sessions_from (ends thread st) N c (ResponseCode.markTerminalByThreadId thread st res c).2.
Proof.
  unfold ResponseCode.markTerminalByThreadId. rewrite run_bind. destruct (read_store (fun t r => ResponseCode.GET t (ResponseCode.threadIndexKey thread) r) c) as [Hs1 Hd1].
  destruct (ResponseCode.exec _ c) as [[[[v|token]|]|e] c1] eqn:E1; simpl in Hs1, Hd1; try (apply from_store; [done | simpl; lia]).
  destruct (String.eqb token ""); [apply from_store; [done | simpl; lia]|]. apply read_value in E1 as [x Hx]. rewrite run_bind.
  destruct (read_store (fun t r => ResponseCode.GET t (ResponseCode.tokenKey token) r) c1) as [Hs2 Hd2].
  destruct (ResponseCode.exec _ c1) as [[[[s|?]|]|e] c2] eqn:E2; simpl in Hs2, Hd2; try (apply from_store; [simpl; congruence | simpl; lia]).
  apply read_value in E2 as [y Hy]. destruct (decide _) as [Hp|]; [|apply from_store; [simpl; congruence | simpl; lia]]. rewrite run_bind.
  set (u := ResponseCode.Session _ _ _ _ _ _).
  destruct (exec_store (fun t r => ResponseCode.MARK_TERMINAL_SCRIPT t (ResponseCode.tokenKey token) (ResponseCode.threadIndexKey thread) s u ResponseCode.resultTtlSeconds r) c2) as [Hd3 Hs3].
  destruct (ResponseCode.exec _ c2) as [r c3]. simpl in Hd3, Hs3. replace ((match r with Ok a => _ | Throw e => _ end).2) with c3 by by destruct r.
  destruct Hs3 as [Hs3|[t Hs3]]; [apply from_store; [congruence | lia]|]. rewrite Hs2, Hs1 in Hs3. rewrite Hs1 in Hy.
  apply (marked_sessions N t token thread s u ResponseCode.resultTtlSeconds c c3 x y); [done | done | done | lia | done | done].
Qed.

(** *** Reading and consuming *)

Lemma deleted_sessions T N c c' ks : ResponseCode.drawn c' = ResponseCode.drawn c -> ResponseCode.store c' = foldr (fun k r => delete k r) (ResponseCode.store c) ks -> sessions_from T N c c'.
Proof.
  intros Hd Hs [H1 Hi]. assert (Hsub : forall k v, ResponseCode.store c' !! k = Some v -> ResponseCode.store c !! k = Some v).
  { intros k v. rewrite Hs. induction ks as [|k' ks IH] in c', Hs |- *; [done|]. simpl. rewrite lookup_delete_Some. intros [_ H].
    apply (IH (ResponseCode.World (foldr (fun k r => delete k r) (ResponseCode.store c) ks) (ResponseCode.drawn c) 0)); done. }
  assert (Hdr : forall k, drawn_token c k -> drawn_token c' k) by (intros k (n & ? & ->); exists n; rewrite Hd; done).
  split; [split|].
  - intros k v Hk%Hsub. by apply Hdr, (H1 k v).
  - intros t k x Hk%Hsub. destruct (Hi _ _ _ Hk) as [? Hks]. split; [by apply Hdr|]. intros s [y Hy%Hsub]. apply Hks. by exists y.
  - intros k s [y Hy%Hsub]. left. exists s. split; [by exists y | by left].
Qed.

Lemma callback_sessions T N code c : sessions_from T N c (ResponseCode.getProofCallbackResult code c).2.
Proof.
  unfold ResponseCode.getProofCallbackResult. destruct (String.eqb code ""); [by apply from_store|]. unfold try_catch, ResponseCode.getSession.
  rewrite !run_bind. destruct (read_store (fun t r => ResponseCode.GET t (ResponseCode.tokenKey code) r) c) as [Hs1 Hd1].
  destruct (ResponseCode.exec _ c) as [[o|e] c1]; simpl in Hs1, Hd1; [|apply from_store; [done | simpl; lia]]. simpl.
  destruct (match o with Some (ResponseCode.SessionValue s) => Some s | _ => None end) as [s|]; [|apply from_store; [done | simpl; lia]].
  destruct (decide _); [apply from_store; [done | simpl; lia]|]. unfold ResponseCode.consume. rewrite !run_bind.
  destruct (exec_store (fun t r => ResponseCode.consume_commands t code (ResponseCode.threadId s) r) c1) as [Hd2 Hs2].
  destruct (ResponseCode.exec _ c1) as [r c2]. simpl in Hd2, Hs2. set (res := match _ with (_, _) => _ end). assert (Hres : res.2 = c2) by (unfold res; destruct r; simpl; [by destruct (negb _) | done]).
  rewrite Hres. destruct Hs2 as [Hs2|[t Hs2]]; [apply from_store; [congruence | lia]|].
  apply (deleted_sessions _ _ _ _ [ResponseCode.threadIndexKey (ResponseCode.threadId s); ResponseCode.tokenKey code]); [lia|]. rewrite Hs2, Hs1. done.
Qed.
End store.

(** ** The services *)

Section services.
Context {A : Agents} {U : UuidSource} {C : Cipher} {E : ResponseCode.Environment} {P : RedirectUri.UrlParser}.

Definition same_codes (w w' : world) : Prop := codes w' = codes w.
#[local] Instance same_codes_preorder : PreOrder same_codes.
Proof. split; unfold same_codes; [by intros w | intros w w1 w2; congruence]. Qed.
Lemma codes_quiet {B} (m : eff world B) : frames quiet m -> frames same_codes m.
Proof. apply frames_mono. by intros w w' (_ & _ & _ & _ & Hcodes & _). Qed.
Lemma codes_elsewhere {B} (m : eff world B) : frames elsewhere m -> frames same_codes m.
Proof. apply frames_mono. by intros w w' [_ Hcodes]. Qed.

Lemma codes_saveConnection d o : frames same_codes (saveConnectionWebhook d o).
Proof.
  unfold saveConnectionWebhook. apply frames_bind; [exact _ | apply codes_quiet; auto with platform|]. intros org w.
  destruct d as [d|]; [|done]. destruct (co_theirLabel d); [|done].
  destruct (co_id d), (co_state d), org, (Connection.date_of (co_createDateTime d)), (Connection.date_of (co_lastChangedDateTime d)); try done.
  unfold gets. rewrite run_bind. cbv beta iota. destruct (first _ _); [done|]. by destruct (negb _).
Qed.
Lemma codes_deleteConnections o u : frames same_codes (deleteConnectionRecords o u).
Proof.
  apply frames_rpc, frames_bind; [exact _ | | intros [|c cs]; [done | apply codes_quiet; solve_quiet]].
  intros w. unfold deleteConnectionRecordsByOrgId, transaction, get, put. rewrite run_bind. cbv beta iota. by destruct (referencedTables o w).
Qed.
Lemma codes_connection m : frames same_codes (Connection.handle m).
Proof.
  destruct (connection_writes m) eqn:Hm; [|by apply codes_quiet, quiet_connection].
  destruct m; try done; simpl; unfold Connection.done_; (apply frames_bind; [exact _ | | done]); [apply frames_rpc, codes_saveConnection | apply codes_deleteConnections].
Qed.

Definition evolves (N : session -> Prop) (w w' : world) : Prop := sessions_from (fun _ _ => False) N (codes w) (codes w').
#[local] Instance evolves_preorder N : PreOrder (evolves N).
Proof.
  split; unfold evolves, sessions_from; [intros w H; split; [done|]; intros token s Hs; left; exists s; auto|].
  intros w w1 w2 H1 H2 H. destruct (H1 H) as [Ho1 Hs1], (H2 Ho1) as [Ho2 Hs2]. split; [done|].
  intros token s [(s0 & Hs0 & [->|[]])|?]%Hs2; [by apply Hs1 | by right].
Qed.
Lemma evolves_same N w w' : same_codes w w' -> evolves N w w'.
Proof. unfold same_codes, evolves. intros ->. by apply from_store. Qed.
Lemma evolves_quiet N {B} (m : eff world B) : frames quiet m -> frames (evolves N) m.
Proof. intros H. apply (frames_mono same_codes); [apply evolves_same | by apply codes_quiet]. Qed.
Lemma evolves_after N {B D} (m : eff world B) (k : B -> eff world D) : frames quiet m -> (forall b, frames (evolves N) (k b)) -> frames (evolves N) (m ≫= k).
Proof. intros Hm Hk. apply frames_bind; [exact _ | by apply evolves_quiet | exact Hk]. Qed.

(** *** Out-of-band requests *)

Definition redirect_of (fs : request) : string := any_string (Json.field "redirectUri" fs).
Definition new_session (o : string) (fs : request) (s : session) : Prop :=
  ResponseCode.orgId s = o /\ ResponseCode.redirectUri s = redirect_of fs /\ ResponseCode.status s = ResponseCode.PENDING /\ any_truthy (Json.field "redirectUri" fs) = true.

Lemma evolves_attach fs p o : any_truthy (Json.field "redirectUri" fs) = true -> frames (evolves (new_session o fs)) (attachRedirect p o (redirect_of fs)).
Proof.
  intros Hr. unfold attachRedirect. destruct (Json.field _ p) as [v|]; [destruct v as [| | |thread| |]; try (apply frames_ret; exact _)|apply frames_ret; exact _].
  case_match; [apply frames_ret; exact _|]. apply frames_bind; [exact _ | |].
  - apply frames_try; [exact _ | | intros ?; apply frames_ret; exact _]. apply frames_bind; [exact _ | | intros ?; apply frames_ret; exact _].
    intros w. unfold redis, evolves. pose proof (created_sessions (new_session o fs) o thread (redirect_of fs) (codes w)) as Hnew.
    destruct (ResponseCode.createSession o thread (redirect_of fs) (codes w)) as [r c]. by apply Hnew.
  - intros [code|]; [|apply frames_ret; exact _]. apply evolves_quiet. solve_quiet.
Qed.

Lemma evolves_by_link o p fs : frames (evolves (new_session o fs)) (send_by_link o p fs).
Proof.
  unfold send_by_link. apply frames_then; [exact _ | apply evolves_quiet; auto with platform|]. intros a.
  apply evolves_after; [auto with platform|]. intros q. apply frames_then; [exact _ | apply evolves_quiet; auto with platform|]. intros q'.
  apply evolves_after; [auto with platform|]. intros r. destruct (any_truthy _) eqn:Hr; [|apply evolves_quiet; auto with platform].
  apply frames_bind; [exact _ | by apply evolves_attach | intros ?; apply evolves_quiet; auto with platform].
Qed.

(** The agent of the organization allows the target of the request. *)
Definition allowed (w : world) (o uri : string) : Prop :=
  exists a, a ∈ agents w /\ oa_orgId a = Some o /\ RedirectUri.isRedirectUriAllowed uri (RedirectUri.parseRedirectUriAllowlist (redirectUriAllowlist a)) isHttpRedirectUriAllowed = true.

Lemma settled_state {B} caught rejected (m : eff world (B + error)) w : (settled caught rejected m w).2 = (m w).2.
Proof. unfold settled, try_catch, throw. rewrite run_bind. destruct (m w) as [[[b|e]|e] w1]; done. Qed.

Lemma outOfBand_sessions fs o w :
  evolves (fun s => new_session o fs s /\ allowed w o (ResponseCode.redirectUri s)) w (sendOutOfBandPresentationRequest fs o w).2.
Proof.
  unfold sendOutOfBandPresentationRequest. rewrite settled_state. destruct (first (agent_of o) (agents w)) as [a|] eqn:Ha.
  2: { rewrite run_bind. unfold Verification.getAgentEndPoint, gets. rewrite run_bind. cbv beta iota. rewrite Ha. by apply evolves_same. }
  assert (Hg : Verification.getAgentEndPoint o w = (Ok a, w)) by (unfold Verification.getAgentEndPoint, gets; rewrite run_bind; cbv beta iota; by rewrite Ha).
  rewrite (run_bind_ok _ _ _ _ _ Hg). apply first_Some in Ha as [Ha Ho%bool_decide_eq_true]. cbv zeta beta.
  destruct (redirect_checked a fs) as [u|e] eqn:Hc; [|by apply evolves_same]. rewrite (run_bind_ok (lift (Ok u)) _ w w u) by done.
  set (N := fun s => _). assert (HN : forall s, new_session o fs s -> N s).
  { intros s Hs. split; [done|]. exists a. split_and!; [done | done|]. destruct Hs as (_ & -> & _ & Hr). unfold redirect_checked in Hc. rewrite Hr in Hc.
    destruct (any_truthy (Json.field "emailId" fs)); [done|]. fold (redirect_of fs) in Hc. by destruct (RedirectUri.isRedirectUriAllowed _ _ _). }
  assert (Hmono : forall w1 w2, evolves (new_session o fs) w1 w2 -> evolves N w1 w2).
  { intros w1 w2 H Hok. destruct (H Hok) as [? Hs]. split; [done|]. intros token s [?|?]%Hs; [by left | right; by apply HN]. }
  apply Hmono. match goal with |- evolves _ _ (?m w).2 => enough (frames (evolves (new_session o fs)) m) as Hf by apply Hf end.
  do 3 (apply evolves_after; [auto with platform|]; intros ?). case_match.
  - do 2 (apply evolves_after; [auto with platform|]; intros ?). apply frames_bind; [exact _ | | intros ?; apply evolves_quiet; auto with platform].
    apply (frames_mono same_codes); [apply evolves_same | apply codes_elsewhere, elsewhere_saveEmail].
  - apply frames_then; [exact _ | apply evolves_by_link | intros ?; apply evolves_quiet; auto with platform].
Qed.

(** *** Reports *)

(** The presentation a report leaves *)
Lemma stored_report d o w r w' : storeProofPresentation (Some d) o w = (Ok r, w') ->
  exists t p, wp_threadId d = Some t /\ p ∈ proofs w' /\ pr_threadId p = t /\
    (forall s, wp_state d = Some s -> pr_state p = Some s) /\ (forall b, wp_isVerified d = Some b -> isVerified p = Some b).
Proof.
  unfold storeProofPresentation. intros H. apply bind_ok_inv in H as (e & w1 & _ & H). apply bind_ok_inv in H as (sc & w2 & _ & H). apply bind_ok_inv in H as (org & w3 & _ & H).
  destruct (wp_threadId d) as [t|] eqn:Ht, org as [org|], (text_or_absent sc); try done. unfold get, put in H. rewrite run_bind in H. cbv beta iota in H.
  destruct (negb (refers _ w3)); [done|]. destruct (first _ _) as [p|] eqn:Hf.
  - rewrite run_bind in H. injection H as _ <-. exists t. apply first_Some in Hf as [Hp Hpt]. exists (Verification.with_report d org e p). split; [done|]. split.
    + apply elem_of_update_where. exists p. split; [done|]. by rewrite Hpt.
    + split; [by apply String.eqb_eq|]. simpl. split; intros x ->; done.
  - destruct (negb (org_exists org)); [done|]. unfold fresh, now, modify in H. rewrite !run_bind in H. cbv beta iota in H. injection H as _ <-. simpl.
    exists t. eexists. split; [done|]. split; [apply elem_of_app; right; by apply list_elem_of_singleton|]. simpl. split_and!; [done | by intros s -> | by intros b ->].
Qed.

(** A session of a thread ends with a report of the thread that is stored; it is completed
    only when the stored presentation is done and verified. *)
Definition reported (d : IWebhookProofPresentation) (w' : world) (s0 s : session) : Prop :=
  ResponseCode.status s0 = ResponseCode.PENDING /\ wp_threadId d = Some (ResponseCode.threadId s) /\
  ResponseCode.orgId s = ResponseCode.orgId s0 /\ ResponseCode.threadId s = ResponseCode.threadId s0 /\ ResponseCode.redirectUri s = ResponseCode.redirectUri s0 /\
  exists p, p ∈ proofs w' /\ pr_threadId p = ResponseCode.threadId s /\
    (ResponseCode.status s = ResponseCode.COMPLETED -> pr_state p = Some "done" /\ isVerified p = Some true).

Lemma completed_only state b st : ResponseCode.toTerminalResponseCodeStatus state b = Some st -> st = ResponseCode.COMPLETED -> state = "done" /\ b = true.
Proof.
  unfold ResponseCode.toTerminalResponseCodeStatus. destruct (String.eqb_spec state "done"); [|by destruct (_ || _); intros [= <-]].
  destruct b; [done | by intros [= <-]].
Qed.

Lemma webhook_sessions payload o w : codes_ok (codes w) ->
  codes_ok (codes (webhookProofPresentation payload o w).2) /\ forall token s, session_in (codes (webhookProofPresentation payload o w).2) token s ->
    exists s0, session_in (codes w) token s0 /\ (s = s0 \/ exists d, payload = Some d /\ reported d (webhookProofPresentation payload o w).2 s0 s).
Proof.
  intros Hok. unfold webhookProofPresentation. rewrite rpc_state, run_bind. pose proof (elsewhere_storeProof payload o w) as [_ Hc].
  destruct (storeProofPresentation payload o w) as [[r|e] w1] eqn:Hst; simpl in Hc.
  2: { simpl. rewrite Hc. split; [done|]. intros token s Hs. exists s. auto. }
  rewrite run_bind. unfold updateResponseCodeSession. destruct payload as [d|]; simpl; [|rewrite Hc; split; [done|]; intros token s Hs; exists s; auto].
  destruct (wp_threadId d) as [t|] eqn:Ht; [|simpl; rewrite Hc; split; [done|]; intros token s Hs; exists s; auto].
  destruct (wp_state d) as [st|] eqn:Hs; [|simpl; rewrite Hc; split; [done|]; intros token s Hs0; exists s; auto].
  destruct (stored_report d o w r w1 Hst) as (t' & p & Ht' & Hp & Hpt & Hps & Hpv). rewrite Ht in Ht'. injection Ht' as <-.
  unfold redis. set (m := ResponseCode.updateResponseCodeSession _ _ _ _). destruct (m (codes w1)) as [u c] eqn:Hm.
  replace ((match u with Ok a => _ | Throw e => _ end).2) with (World (agents w1) (invitations w1) (shortening_urls w1) (conns w1) (creds w1) (proofs w1) (files w1) (file_rows w1) (calls w1) c (drawn w1) (readings w1)) by by destruct u.
  simpl. assert (Hfrom : codes_ok c /\ forall token s, session_in c token s -> exists s0, session_in (codes w) token s0 /\
      (s = s0 \/ exists x, ResponseCode.toTerminalResponseCodeStatus st (default false (wp_isVerified d)) = Some x /\ ends t x s0 s)).
  { unfold m, ResponseCode.updateResponseCodeSession in Hm. rewrite Hc in Hm. destruct (ResponseCode.toTerminalResponseCodeStatus _ _) as [x|] eqn:Hx; [|injection Hm as _ <-; split; [done|]; intros token s Hs0; exists s; auto].
    destruct (String.eqb t ""); [injection Hm as _ <-; split; [done|]; intros token s Hs0; exists s; auto|].
    pose proof (terminal_sessions (fun _ => False) t x (ResponseCode.Result st (wp_presentationId d)) (codes w)) as Hsess. unfold try_catch in Hm.
    destruct (ResponseCode.markTerminalByThreadId _ _ _ _) as [r' c'] eqn:Hmark. simpl in Hsess. assert (c = c') as -> by by destruct r'; injection Hm as _ <-.
    destruct (Hsess Hok) as [? Hss]. split; [done|]. intros token s [(s0 & ? & [->|?])|[]]%Hss; exists s0; eauto. }
  destruct Hfrom as [? Hss]. split; [done|]. intros token s (s0 & Hs0 & [->|(x & Hx & Hend)])%Hss; [by exists s0; auto|].
  exists s0. split; [done|]. right. exists d. split; [done|]. destruct Hend as (H1 & H2 & H3 & H4 & H5 & H6). split_and!; [done | by rewrite H3 | done | congruence | done|].
  exists p. split_and!; [done | congruence|]. intros Hcomp. rewrite Hcomp in H2. destruct (completed_only _ _ _ Hx ltac:(congruence)) as [-> Hb].
  split; [by apply Hps|]. destruct (wp_isVerified d) as [[]|]; try done. by apply Hpv.
Qed.

(** *** The services together *)

(** The request names that target. *)
Definition asks_redirect (fs : request) (uri : string) : Prop := any_truthy (Json.field "redirectUri" fs) = true /\ redirect_of fs = uri.

(** How a session after a message comes from those before it *)
Definition explained (m : message) (w w' : world) (token : string) (s : session) : Prop :=
  (exists s0, session_in (codes w) token s0 /\ (s = s0 \/ exists d o, m = ToVerification (PresentationWebhook (Some d) o) /\ reported d w' s0 s)) \/
  (exists fs, m = ToVerification (SendOutOfBand fs (ResponseCode.orgId s)) /\ asks_redirect fs (ResponseCode.redirectUri s) /\
    allowed w (ResponseCode.orgId s) (ResponseCode.redirectUri s) /\ ResponseCode.status s = ResponseCode.PENDING).

Lemma same_explained m w w' : same_codes w w' -> codes_ok (codes w) -> codes_ok (codes w') /\ forall token s, session_in (codes w') token s -> explained m w w' token s.
Proof. unfold same_codes. intros -> Hok. split; [done|]. intros token s Hs. left. exists s. auto. Qed.
Lemma evolved_explained N m w w' : (forall s, N s -> exists fs, m = ToVerification (SendOutOfBand fs (ResponseCode.orgId s)) /\ asks_redirect fs (ResponseCode.redirectUri s) /\
    allowed w (ResponseCode.orgId s) (ResponseCode.redirectUri s) /\ ResponseCode.status s = ResponseCode.PENDING) ->
  evolves N w w' -> codes_ok (codes w) -> codes_ok (codes w') /\ forall token s, session_in (codes w') token s -> explained m w w' token s.
Proof.
  intros HN He Hok. destruct (He Hok) as [? Hs]. split; [done|]. intros token s [(s0 & ? & [->|[]])|Hnew]%Hs; [left; exists s0; auto | right; by apply HN].
Qed.
Lemma then_ret {B} (m : eff world B) w : ((_ ← m; mret tt) w).2 = (m w).2.
Proof. rewrite run_bind. by destruct (m w) as [[b|e] w1]. Qed.

Lemma step_sessions m w : codes_ok (codes w) -> codes_ok (codes (serve w m)) /\ forall token s, session_in (codes (serve w m)) token s -> explained m w (serve w m) token s.
Proof.
  unfold serve. destruct m as [m|m|m]; [apply same_explained, codes_connection | | apply same_explained, codes_elsewhere, elsewhere_issuance].
  assert (Hother : forall m, frames elsewhere (Verification.handle m) -> codes_ok (codes w) ->
    codes_ok (codes (Verification.handle m w).2) /\ forall token s, session_in (codes (Verification.handle m w).2) token s -> explained (ToVerification m) w (Verification.handle m w).2 token s).
  { intros m' Hm'. apply same_explained. by apply codes_elsewhere. }
  destruct m as [| | | | | |payload o|fs o| | |c|o us u| |o u]; try (apply Hother, elsewhere_verification; done); simpl; unfold Verification.done_; rewrite then_ret.
  - intros Hok. destruct (webhook_sessions payload o w Hok) as [? Hs]. split; [done|]. intros token s (s0 & ? & [->|(d & -> & ?)])%Hs; left; exists s0; [by auto|].
    split; [done|]. right. by exists d, o.
  - apply (evolved_explained _ _ _ _) with (2 := outOfBand_sessions fs o w). intros s [(-> & Hu & Hp & Hr) Ha]. exists fs. split_and!; [done | by split | done | done].
  - intros Hok. assert (Hc : (getProofCallbackResult c w).2 = World (agents w) (invitations w) (shortening_urls w) (conns w) (creds w) (proofs w) (files w) (file_rows w) (calls w) (ResponseCode.getProofCallbackResult c (codes w)).2 (drawn w) (readings w))
      by (unfold getProofCallbackResult, redis; by destruct (ResponseCode.getProofCallbackResult c (codes w))).
    rewrite Hc. simpl. destruct (callback_sessions (fun _ _ => False) (fun _ => False) c (codes w) Hok) as [? Hs]. split; [done|].
    intros token s [(s0 & ? & [->|[]])|[]]%Hs. left. exists s0. auto.
Qed.

Lemma serve_all_last ms m w : serve_all (ms ++ [m]) w = serve (serve_all ms w) m.
Proof. unfold serve_all. by rewrite foldl_app. Qed.

Lemma start_codes a fs rs : codes_ok (codes (start a fs rs)).
Proof. split; simpl; intros *; by rewrite lookup_empty. Qed.

(** At some message a target was asked for and allowed; at some message a thread was verified. *)
Definition requested_at (ms : list message) (w : world) (s : session) : Prop :=
  exists before fs rest, ms = before ++ ToVerification (SendOutOfBand fs (ResponseCode.orgId s)) :: rest /\
    asks_redirect fs (ResponseCode.redirectUri s) /\ allowed (serve_all before w) (ResponseCode.orgId s) (ResponseCode.redirectUri s).
Definition verified_at (ms : list message) (w : world) (s : session) : Prop :=
  exists before d o rest, ms = before ++ ToVerification (PresentationWebhook (Some d) o) :: rest /\ wp_threadId d = Some (ResponseCode.threadId s) /\
    exists p, p ∈ proofs (serve_all (before ++ [ToVerification (PresentationWebhook (Some d) o)]) w) /\
      pr_threadId p = ResponseCode.threadId s /\ pr_state p = Some "done" /\ isVerified p = Some true.

Lemma requested_snoc ms m w s : requested_at ms w s -> requested_at (ms ++ [m]) w s.
Proof. intros (b & fs & r & -> & ? & ?). exists b, fs, (r ++ [m])%list. by rewrite <- app_assoc. Qed.
Lemma verified_snoc ms m w s : verified_at ms w s -> verified_at (ms ++ [m]) w s.
Proof. intros (b & d & o & r & -> & ?). exists b, d, o, (r ++ [m])%list. by rewrite <- app_assoc. Qed.

(** C5. Whatever the services serve, a session of a response code is there because its
    organization asked for a proof, the request named the session's redirect target, and the
    target was then allowed for the organization; and it is completed only if the agent reported its thread
    and the presentation then recorded of the thread was done and verified. *)
Theorem sessions_authorized ms a fs rs token s : session_in (codes (serve_all ms (start a fs rs))) token s ->
  requested_at ms (start a fs rs) s /\ (ResponseCode.status s = ResponseCode.COMPLETED -> verified_at ms (start a fs rs) s).
Proof.
  set (w := start a fs rs).
  enough (codes_ok (codes (serve_all ms w)) /\ forall token s, session_in (codes (serve_all ms w)) token s ->
    requested_at ms w s /\ (ResponseCode.status s = ResponseCode.COMPLETED -> verified_at ms w s)) as [_ Hs] by apply Hs. clear.
  induction ms as [|m ms [Hok IH]] using rev_ind.
  { split; [apply start_codes|]. intros token s [x Hx]. simpl in Hx. by rewrite lookup_empty in Hx. }
  rewrite serve_all_last. destruct (step_sessions m _ Hok) as [? Hs]. split; [done|].
  intros token s [(s0 & Hs0 & [->|(d & o & -> & Hr)])|(fs' & -> & Har & Hal & Hp)]%Hs.
  - destruct (IH _ _ Hs0). split; [by apply requested_snoc | intros Hc; apply verified_snoc; auto].
  - destruct (IH _ _ Hs0) as [(b & fs' & r & -> & Har & Hal) _]. destruct Hr as (_ & Ht & Ho & _ & Hu & p & Hp & Hpt & Hdone). split.
    + apply requested_snoc. exists b, fs', r. rewrite Ho, Hu. done.
    + intros Hc. destruct (Hdone Hc). exists (b ++ ToVerification (SendOutOfBand fs' (ResponseCode.orgId s0)) :: r)%list, d, o, [].
      split; [done|]. split; [done|]. exists p. by rewrite serve_all_last.
  - split; [|by rewrite Hp]. exists ms, fs', []. done.
Qed.
End services.

(** ** Deletion *)

Section deletion.
Context {A : Agents} {U : UuidSource} {C : Cipher} {E : ResponseCode.Environment} {P : RedirectUri.UrlParser}.

(** What a deletion tells the other services changes no table. *)
Definition tables_kept (w w' : world) : Prop :=
  agents w' = agents w /\ conns w' = conns w /\ creds w' = creds w /\ proofs w' = proofs w /\ files w' = files w /\ file_rows w' = file_rows w /\ codes w' = codes w.

Lemma activity_tables o u d r w : tables_kept w (_orgDeletedActivity o u d r w).2.
Proof. unfold _orgDeletedActivity, sent, send, placed. rewrite !run_bind. by destruct (on_call _). Qed.

(** Once the rows are gone they are reported, if there are any. *)
Lemma reported_tables {B} (m : eff world (list B)) e o u (d : list B -> Json.value) r w bs w1 : m w = (Ok bs, w1) ->
  tables_kept w1 (rpc (deleted ← m; match deleted with [] => throw e | _ => _ ← _orgDeletedActivity o u (d deleted) r; mret deleted end) w).2.
Proof.
  intros Hm. rewrite rpc_state, (run_bind_ok _ _ _ _ _ Hm). destruct bs as [|b bs]; [done|]. rewrite run_bind.
  pose proof (activity_tables o u (d (b :: bs)) r w1) as Ht. by destruct (_orgDeletedActivity _ _ _ _ w1) as [[[]|x] w2].
Qed.

Lemma cleared_proofs o u w : tables_kept (set_proofs (List.filter (fun p => negb (Verification.of_org o p)) (proofs w)) w) (deleteVerificationRecords o u w).2.
Proof. by apply reported_tables with (bs := List.filter (Verification.of_org o) (proofs w)). Qed.

Lemma cleared_creds o u w : existsb (fun p => bool_decide (pr_orgId p = Some o)) (proofs w) = false ->
  tables_kept (set_creds (List.filter (fun c => negb (IssuanceRecords.of_org o c)) (creds w)) (without_files o w)) (deleteIssuanceRecords o u w).2.
Proof.
  intros Hn. unfold deleteIssuanceRecords. rewrite rpc_state. rewrite (run_bind_ok (modify (without_files o)) _ w (without_files o w) tt) by done. rewrite <- rpc_state.
  apply reported_tables with (bs := List.filter (IssuanceRecords.of_org o) (creds w)). unfold deleteIssuanceRecordsByOrgId, get, put. rewrite run_bind. cbv beta iota.
  change (proofs (without_files o w)) with (proofs w). by rewrite Hn.
Qed.

Lemma cleared_conns o u w : referencedTables o w = [] -> tables_kept (without_connections o w) (deleteConnectionRecords o u w).2.
Proof.
  intros Hn. apply reported_tables with (bs := List.filter (conn_of o) (conns w)).
  unfold deleteConnectionRecordsByOrgId, transaction, get, put. rewrite run_bind. cbv beta iota. by rewrite Hn.
Qed.

Lemma none_left {R} (p : R -> bool) l : existsb p (List.filter (fun x => negb (p x)) l) = false.
Proof. apply not_true_iff_false. intros (x & [_ Hx]%elem_of_filter_b & Hp)%existsb_elem. by rewrite Hp in Hx. Qed.

Definition removal (orgId : string) (u : option user) : list message :=
  [ToVerification (DeleteVerificationRecords orgId u); ToIssuance (DeleteIssuanceRecords orgId u); ToConnection (DeleteRecords orgId u)].

(** C25. Deleting an organization's presentations, then its credentials, then its connections
    leaves none of them nor of its files, even when nobody can be told, and every row of
    another organization, of which a reference to a removed connection is cleared and nothing
    else changes.  Out of this order the last two are refused: no record changes, though the
    files are gone. *)
Theorem organization_cleared o u w :
  (let w' := serve_all (removal o u) w in
   let gone := List.filter (conn_of o) (conns w) in
   proofs w' = map (pr_detached gone) (List.filter (fun p => negb (Verification.of_org o p)) (proofs w)) /\
   creds w' = map (cr_detached gone) (List.filter (fun c => negb (IssuanceRecords.of_org o c)) (creds w)) /\
   conns w' = List.filter (fun c => negb (conn_of o c)) (conns w) /\
   files w' = List.filter (fun f => negb (file_of o f)) (files w) /\
   agents w' = agents w /\ codes w' = codes w) /\
  (existsb (Verification.of_org o) (proofs w) = true ->
    deleteIssuanceRecords o u w = (Throw (Exn RpcException ("Organization ID " +:+ o +:+ " is referenced in the following table(s): presentations, First you have to remove verification data") (Some 409) None), without_files o w)) /\
  (existsb (Verification.of_org o) (proofs w) || existsb (IssuanceRecords.of_org o) (creds w) = true ->
    deleteConnectionRecords o u w = (Throw (Exn RpcException (referenced_message o (referencedTables o w)) (Some 409) None), w)).
Proof.
  split_and!.
  - cbv zeta. unfold serve_all, removal. simpl. unfold serve. simpl. unfold Verification.done_, IssuanceRecords.done_, Connection.done_. rewrite !then_ret.
    destruct (cleared_proofs o u w) as (Ha1 & Hc1 & Hr1 & Hp1 & Hf1 & _ & Hk1). set (w1 := (deleteVerificationRecords o u w).2) in *. simpl in *.
    assert (Hn1 : existsb (fun p => bool_decide (pr_orgId p = Some o)) (proofs w1) = false) by (rewrite Hp1; apply (none_left (Verification.of_org o))).
    destruct (cleared_creds o u w1 Hn1) as (Ha2 & Hc2 & Hr2 & Hp2 & Hf2 & _ & Hk2). set (w2 := (deleteIssuanceRecords o u w1).2) in *. simpl in *.
    assert (Hn2 : referencedTables o w2 = []).
    { unfold referencedTables. rewrite Hr2, Hp2, Hn1. by rewrite (none_left (IssuanceRecords.of_org o)). }
    destruct (cleared_conns o u w2 Hn2) as (Ha3 & Hc3 & Hr3 & Hp3 & Hf3 & _ & Hk3). simpl in *.
    rewrite Hp3, Hr3, Hc3, Hf3, Ha3, Hk3, Hp2, Hr2, Hc2, Hf2, Ha2, Hk2, Hp1, Hr1, Hc1, Hf1, Ha1, Hk1. done.
  - intros Hp. unfold deleteIssuanceRecords, rpc, try_catch. rewrite (run_bind_ok (modify (without_files o)) _ w (without_files o w) tt) by done.
    unfold deleteIssuanceRecordsByOrgId, get. rewrite !run_bind. cbv beta iota. change (proofs (without_files o w)) with (proofs w). unfold Verification.of_org in Hp. by rewrite Hp.
  - intros Hp. unfold deleteConnectionRecords, rpc, try_catch, deleteConnectionRecordsByOrgId, transaction, get. rewrite !run_bind. cbv beta iota.
    assert (Hr : referencedTables o w <> []).
    { unfold referencedTables, Verification.of_org, IssuanceRecords.of_org in *. destruct (existsb _ (creds w)); [done|]. by destruct (existsb _ (proofs w)). }
    destruct (referencedTables o w) as [|t ts]; [done|]. by destruct w.
Qed.
End deletion.

(** ** A sample deployment *)

Module DidcommSample.
#[local] Existing Instance ResponseCodeSample.tokens.
#[local] Existing Instance ResponseCodeSample.toy_parser.
#[local] Existing Instance CipherSample.prefix_cipher.

#[local] Instance variables : ResponseCode.Environment.
Proof. refine {| ResponseCode.deliver _ := ResponseCode.Delivered; ResponseCode.clock _ := 0; ResponseCode.env k := if String.eqb k "CRYPTO_PRIVATE_KEY" then Some "key" else None |}. Defined.

(** Every party answers with the same object; rows are listed as they are. *)
#[local] Instance parties : Agents.
Proof.
  refine {| organisations := [Organisation "o1" "Census" None; Organisation "o2" "Bank" None];
    emailFrom := Some "noreply@example.com"; agent_types := [("ty", "SHARED")]; schemas := []; definitions := [];
    on_call _ := inl (Some (obj [("proofRecordThId", of_str (Some "t1")); ("invitationUrl", of_str (Some "https://agent.example/invitation"))]));
    on_email _ := Ok true; on_get _ := Ok None; reading := Z.of_nat; toDataURL := Ok; encrypt_other _ := Ok "encrypted";
    connection_order _ _ _ _ := true; presentation_order _ _ _ _ := true; credential_order _ _ _ _ := true |}.
Defined.

Definition agent : org_agents := OrgAgent "a1" (Some "o1") (Some "https://agent.example") (Some "tenant") None (Some "ty") (Some "https://rp.example/cb") "u1".

Definition connected : message :=
  ToConnection (ConnectionWebhook (Some (ConnectionDto None None (Some "c1") (Some "completed") (Some "Karma Dorji") (Some "default"))) (Some "o1")).
Definition asked : message :=
  ToVerification (SendOutOfBand [("type", Json.JStr "presentationExchange"); ("redirectUri", Json.JStr "https://rp.example/cb/x");
    ("presentationDefinition", obj [("id", of_str (Some "pd")); ("input_descriptors", Some (Json.JArr []))])] "o1").
Definition report : IWebhookProofPresentation := ProofWebhook (Some "p1") (Some "done") (Some "c1") (Some "p1") (Some "t1") (Some true) (Some "default") None None.
Definition verified : message := ToVerification (PresentationWebhook (Some report) (Some "o1")).

Notation served := (serve_all [connected; asked; verified] (start [agent] [] [])).

Example served_tables : (theirLabel <$> conns served, pr_threadId <$> proofs served) = (["Kar*****rji"], ["t1"]).
Proof. vm_compute. reflexivity. Qed.

Definition session_row : session := ResponseCode.Session "o1" "t1" "https://rp.example/cb/x" ResponseCode.COMPLETED (Some (ResponseCode.Result "done" (Some "p1"))) "1970-01-01T00:00:00.000Z".

Lemma sessions_authorized_witness : session_in (codes served) "tok0" session_row /\
  requested_at [connected; asked; verified] (start [agent] [] []) session_row /\ verified_at [connected; asked; verified] (start [agent] [] []) session_row.
Proof.
  assert (H : session_in (codes served) "tok0" session_row) by (exists 60000; vm_compute; reflexivity).
  destruct (sessions_authorized [connected; asked; verified] [agent] [] [] "tok0" session_row H) as [Hr Hv].
  split; [exact H|]. split; [exact Hr | exact (Hv eq_refl)].
Defined.

Lemma labels_masked_witness : exists c, c ∈ conns served /\ exists m label, m ∈ [connected; asked; verified] /\ reports m (cn_connectionId c) label.
Proof.
  assert (H : exists c l, conns served = c :: l) by (vm_compute; eauto). destruct H as (c & l & H).
  assert (Hc : c ∈ conns served) by (rewrite H; left). exists c. split; [exact Hc|].
  destruct (labels_masked [connected; asked; verified] [agent] [] [] c Hc) as (m & label & Hm & Hr & _). exists m, label. split; [exact Hm | exact Hr].
Defined.

(** With the presentation in place, the other records cannot be removed. *)
Lemma organization_cleared_witness :
  (deleteConnectionRecords "o1" None served).1 = Throw (Exn RpcException (referenced_message "o1" ["presentations"]) (Some 409) None) /\
  proofs (serve_all (removal "o1" None) served) = [] /\ conns (serve_all (removal "o1" None) served) = [].
Proof.
  destruct (organization_cleared "o1" None served) as ((Hp & _ & Hc & _) & _ & Hd). split.
  - rewrite Hd by (vm_compute; reflexivity). vm_compute. reflexivity.
  - cbv zeta in Hp, Hc. rewrite Hp, Hc. vm_compute. split; reflexivity.
Defined.
End DidcommSample.
