(* ===== verification/LedgerData.v ===== *)
(** * Ledger: data

    The rows that the schema and the credential definition services keep, what they ask of
    an agent and of the schema file server, and the queries of both repositories on
    organizations and agents. *)

From S2P Require Import Prelude Js Table CommonService DidcommData.

Open Scope Z_scope.

(** ** Rows *)

Record schema := Schema {
  sc_id : string;
  sc_created : Z;
  sc_createdBy : string;
  sc_changed : Z;
  sc_changedBy : string;
  name : string;
  version : string;
  attributes : string;              (* a JSON text *)
  schemaLedgerId : string;
  publisherDid : string;
  issuerId : string;
  sc_orgId : option string;
  ledgerId : option string;
  type : option string;
  isSchemaArchived : bool;
  alias : option string;
}.

Record credential_definition := CredentialDefinition {
  cd_id : string;
  cd_created : Z;
  cd_createdBy : string;
  cd_changedBy : string;
  credentialDefinitionId : string;
  tag : string;
  cd_schemaLedgerId : string;
  cd_schemaId : string;
  revocable : bool;
  cd_orgId : option string;
}.

Record ledgers := Ledger {
  l_id : string;
  l_name : string;
  indyNamespace : option string;
  networkUrl : option string;
}.

(** [SchemaType], [SchemaTypeEnum] and [OrgAgentType] *)
Definition INDY : string := "indy".
Definition W3C_Schema : string := "w3c".
Definition JSON : string := "json".
Definition DEDICATED : string := "DEDICATED".
Definition SHARED : string := "SHARED".

(** [JSONSchemaType], [LedgerLessMethods] and [LedgerLessConstant] *)
Definition POLYGON_W3C : string := "polygon".
Definition ETHEREUM_W3C : string := "ethr".
Definition LEDGER_LESS : string := "no_ledger".
Definition WEB : string := "web".
Definition KEY : string := "key".
Definition NO_LEDGER : string := "no_ledger".

(** ** Other parties *)

Inductive request :=
  | AskAgent (cmd : string) (payload : any)      (* a message to the agent service *)
  | AskLedger (cmd : string) (payload : any)     (* a message to this service itself *)
  | Http (rq : http_request).

(** The tables of other services, the configuration, how the other parties answer, given all
    that was asked before, whether a message of the service to itself is lost, and the order
    the database sorts the rows of a listing in, for a column and a direction. *)
Class Platform := {
  orgs : list organisation;
  first_user : string -> option string;           (* [firstName] of the first user of an organization *)
  ledger_rows : list ledgers;
  orgAgentTypes : list (string * string);         (* identifier and [agent] *)
  SCHEMA_FILE_SERVER_URL : option string;
  SCHEMA_FILE_SERVER_TOKEN : option string;
  on_request : list request -> any + error;
  on_http : list request -> any + axios_error;
  lost : list request -> option error;
  clock : nat -> Z;
  schema_order : string -> bool -> schema -> schema -> bool;
  definition_order : string -> bool -> credential_definition -> credential_definition -> bool;
}.

(** ** The state *)

Record world := World {
  agent_rows : list org_agents;
  schema_rows : list schema;
  definition_rows : list credential_definition;
  requests : list request;
  ids_drawn : nat;
  clock_read : nat;
}.

Definition set_schemas x (w : world) : world := World (agent_rows w) x (definition_rows w) (requests w) (ids_drawn w) (clock_read w).
Definition set_definitions x (w : world) : world := World (agent_rows w) (schema_rows w) x (requests w) (ids_drawn w) (clock_read w).

Section operations.
Context {P : Platform} {U : UuidSource}.

Definition new_id : eff world string := fun w =>
  (Ok (uuid (ids_drawn w)), World (agent_rows w) (schema_rows w) (definition_rows w) (requests w) (S (ids_drawn w)) (clock_read w)).
Definition read_clock : eff world Z := fun w =>
  (Ok (clock (clock_read w)), World (agent_rows w) (schema_rows w) (definition_rows w) (requests w) (ids_drawn w) (S (clock_read w))).
Definition request_made (q : request) : eff world (list request) := fun w =>
  let qs := (requests w ++ [q])%list in
  (Ok qs, World (agent_rows w) (schema_rows w) (definition_rows w) qs (ids_drawn w) (clock_read w)).

#[export] Instance client : HttpClient world := fun rq => qs ← request_made (Http rq); mret (on_http qs).

(** [natsClient.send] to the agent service, whose value becomes [{ response }]; a rejection is
    mapped by the handler that catches it. *)
Definition ask_agent (catch : error -> exn) (cmd : string) (payload : list (string * any)) : eff world any :=
  qs ← request_made (AskAgent cmd (Some (obj payload)));
  match on_request qs with inl v => mret v | inr e => throw (catch e) end.

(** ** Errors *)

(** [if (error?.status?.message?.error) throw new RpcException({...}); throw new
    RpcException(error.response || error)], of a [new HttpException(response, status)] *)
Definition http_ended (response : list (string * any)) (status : any) : exn :=
  let reason := prop_opt "error" (prop_opt "message" status) in
  if any_truthy reason
  then rpc_with (or_falsy (prop_opt "reason" reason) reason) (or_else (prop_opt "code" status) (Some (Json.JNum 500)))
  else rpc_value (Some (obj response)).

(** ** Organizations and agents *)

Definition org_known (orgId : string) : bool := existsb (fun o => String.eqb (o_id o) orgId) orgs.
Definition orgName (orgId : option string) : option string :=
  o_name <$> (orgId ≫= fun id => first (fun o => String.eqb (o_id o) id) orgs).

Definition getAgentDetailsByOrgId (orgId : string) : eff world (option org_agents) := gets (fun w => first (agent_of orgId) (agent_rows w)).

(** [getAgentDetails.org_agents[0].orgAgentTypeId] of [getAgentType]: an organization that does
    not exist is [null]. *)
Definition getAgentType (orgId : string) : eff world (option string) :=
  agent ← getAgentDetailsByOrgId orgId;
  match agent with
  | Some a => if org_known orgId then mret (orgAgentTypeId a) else throw not_an_object
  | None => throw not_an_object
  end.

(** The identifier of a row may not be [null] in a query. *)
Definition getOrgAgentType (orgAgentId : option string) : eff world string :=
  match orgAgentId with
  | None => throw prisma_validation
  | Some id => match first (fun t => String.eqb t.1 id) orgAgentTypes with Some t => mret t.2 | None => throw not_an_object end
  end.

(** ** Ledgers *)

(** An absent namespace filters nothing. *)
Definition getLedgerByNamespace (LedgerName : option string) : eff world (option ledgers) :=
  mret (first (fun l => match LedgerName with None => true | Some n => bool_decide (indyNamespace l = Some n) end) ledger_rows).
Definition ledger_known (id : string) : bool := existsb (fun l => String.eqb (l_id l) id) ledger_rows.

(** [DID.split(':').length >= 4 ? DID : orgDid] *)
Definition issuing_did (requested orgDid : option string) : option string :=
  match requested with
  | Some d => if (4 <=? length (Str.split ":" d))%nat then Some d else orgDid
  | None => orgDid
  end.

(** ** Values of any type in a query *)

(** A text in [contains] or an equality: [undefined] filters nothing, and what is no text is refused. *)
Definition text_filter (v : any) : result (option string) :=
  match v with None => Ok None | Some (Json.JStr s) => Ok (Some s) | Some _ => Throw prisma_validation end.
Definition text_is (o : option string) (s : string) : bool := match o with None => true | Some t => String.eqb t s end.
(** A text that a new row must have *)
Definition text_of (v : any) : result string := match v with Some (Json.JStr s) => Ok s | _ => Throw prisma_validation end.

(** A column that may be [null], as a value *)
Definition column (o : option string) : any := Some match o with Some s => Json.JStr s | None => Json.JNull end.

(** [equals] with [mode: 'insensitive'] *)
Definition equals_insensitive (a b : string) : bool := String.eqb (Str.toLowerCase a) (Str.toLowerCase b).
End operations.
