(* ===== verification/Schema.v ===== *)
(** * Ledger: schemas

    [schema.service.ts] with [schema.repository.ts] and the messages of
    [schema.controller.ts]: an organization's agent publishes a schema on a ledger, or the
    schema file server keeps it, and its row is recorded. *)

From S2P Require Import Prelude Js JsonParse Table CommonUtils CastHelper CommonService W3cSchema DidcommData LedgerData.

Open Scope Z_scope.

Section repository.
Context {P : Platform} {U : UuidSource}.

(** ** Repository *)

Definition schema_exists : exn := conflict "Schema already exists".

(** The rows the check for an existing schema looks at *)
Definition active (t : string) (s : schema) : bool := bool_decide (type s = Some t) && negb (isSchemaArchived s).

Definition schemaExists (schemaName schemaVersion : option string) : eff world (list schema) :=
  gets (fun w => List.filter (fun s => active INDY s && contains_insensitive schemaName (Some (name s)) && contains_insensitive schemaVersion (Some (version s)))
    (schema_rows w)).

Definition w3cSchemaExists (schemaName schemaVersion orgId : string) : eff world bool :=
  gets (fun w => existsb (fun s => active W3C_Schema s && equals_insensitive (name s) schemaName && equals_insensitive (version s) schemaVersion &&
    bool_decide (sc_orgId s = Some orgId)) (schema_rows w)).

(** [prisma.schema.create]: the organization and the ledger must exist. *)
Definition create_schema (nm ver attrs ledger issuer createdBy changedBy publisher orgId : string) (lid ty al : option string) : eff world schema :=
  if negb (org_known orgId && match lid with Some l => ledger_known l | None => true end) then throw prisma_foreign_key else
  id ← new_id; t ← read_clock;
  let row := Schema id t createdBy t changedBy nm ver attrs ledger publisher issuer (Some orgId) lid ty false al in
  _ ← modify (fun w => set_schemas (schema_rows w ++ [row])%list w);
  mret row.

(** What a service made of an answer: its texts may be anything. *)
Record ISchema := SchemaResult {
  is_schemaName : any;
  is_schemaVersion : any;
  is_attributes : Json.value;
  is_id : any;
  is_createdBy : string;
  is_issuerId : any;
  is_orgId : string;
  is_ledgerId : string;
  is_type : string;
  is_alias : option string;
}.

(** [schemaResult.issuerId.split(':')[4] || schemaResult.issuerId] *)
Definition publisher_of (issuer : string) : string := str_or (Str.split ":" issuer !! 4%nat) issuer.

Definition saveSchema (r : ISchema) : eff world (option schema) :=
  if negb (any_truthy (is_schemaName r)) then mret None else
  nm ← lift (text_filter (is_schemaName r)); ver ← lift (text_filter (is_schemaVersion r));
  found ← schemaExists nm ver;
  match found with
  | _ :: _ => throw schema_exists
  | [] =>
      issuer ← lift (match is_issuerId r with Some (Json.JStr s) => Ok s | _ => Throw not_an_object end);
      nm ← lift (text_of (is_schemaName r)); ver ← lift (text_of (is_schemaVersion r)); ledger ← lift (text_of (is_id r));
      saved ← create_schema nm ver (Json.stringify (is_attributes r)) ledger issuer (is_createdBy r) (is_createdBy r) (publisher_of issuer) (is_orgId r)
        (Some (is_ledgerId r)) (Some (is_type r)) (is_alias r);
      mret (Some saved)
  end.

Record ISaveSchema := SaveSchema {
  ss_name : string;
  ss_version : string;
  ss_attributes : string;
  ss_schemaLedgerId : string;
  ss_issuerId : string;
  ss_createdBy : string;
  ss_lastChangedBy : string;
  ss_publisherDid : string;
  ss_orgId : string;
  ss_ledgerId : option string;
  ss_type : option string;
}.

Definition saveSchemaRecord (d : ISaveSchema) : eff world schema :=
  create_schema (ss_name d) (ss_version d) (ss_attributes d) (ss_schemaLedgerId d) (ss_issuerId d) (ss_createdBy d) (ss_lastChangedBy d) (ss_publisherDid d)
    (ss_orgId d) (ss_ledgerId d) (ss_type d) None.

(** *** Listings *)

Record ISchemaSearchCriteria := SchemaCriteria {
  criteria : search_criteria;
  by_ledgerId : option string;
  by_schemaType : option string;
  by_orgId : option string;
  by_schemaId : option string;
}.

(** A column compared with a value that filters nothing when it is absent *)
Definition filter_is (v : option string) (o : option string) : bool := match v with None => true | Some _ => bool_decide (o = v) end.
Definition found_by (c : option string) (texts : list (option string)) : bool := existsb (contains_insensitive c) texts.
Definition ascending (c : search_criteria) : bool := String.eqb "asc" (sortBy c).
Definition descending (c : search_criteria) : bool := String.eqb "desc" (sortBy c).
Definition number_of {R} (rows : list R) : Z := Z.of_nat (length rows).

Definition schema_of (orgId : string) (s : schema) : bool := bool_decide (sc_orgId s = Some orgId).
Definition searched (c : search_criteria) (s : schema) : bool :=
  found_by (search c) [Some (name s); Some (version s); Some (schemaLedgerId s); Some (issuerId s)].

(** The count is of all schemas of the organization. *)
Definition getSchemas (c : search_criteria) (orgId : string) : eff world (Z * list schema) :=
  rows ← gets schema_rows;
  schemasResult ← find_page (schema_order (sortField c) (ascending c)) c
    (List.filter (fun s => schema_of orgId s && negb (isSchemaArchived s) && searched c s) rows);
  mret (number_of (List.filter (schema_of orgId) rows), schemasResult).

Definition getSchemasDetailsBySchemaName (schemaName : option string) (orgId : option string) : eff world (list string) :=
  gets (fun w => map schemaLedgerId (List.filter (fun s => filter_is orgId (sc_orgId s) && contains_insensitive schemaName (Some (name s))) (schema_rows w))).

(** With the name of the organization *)
Definition getSchemasDetailsBySchemaIds (templateIds : list string) : eff world (list (schema * option string)) :=
  gets (fun w => map (fun s => (s, orgName (sc_orgId s))) (List.filter (fun s => bool_decide (schemaLedgerId s ∈ templateIds)) (schema_rows w))).

Definition archived (s : schema) : schema :=
  Schema (sc_id s) (sc_created s) (sc_createdBy s) (sc_changed s) (sc_changedBy s) (name s) (version s) (attributes s) (schemaLedgerId s) (publisherDid s)
    (issuerId s) (sc_orgId s) (ledgerId s) (type s) true (alias s).

(** An absent DID filters nothing.  The result is the number of the rows. *)
Definition archiveSchemasByDid (did : option string) : eff world Z :=
  rows ← gets schema_rows;
  let by_did s := filter_is did (Some (issuerId s)) in
  _ ← modify (set_schemas (update_where by_did archived rows));
  mret (number_of (List.filter by_did rows)).

Definition definition_found (c : search_criteria) (d : credential_definition) : bool :=
  found_by (search c) [Some (tag d); Some (credentialDefinitionId d); Some (cd_schemaLedgerId d)].

Definition getSchemasCredDeffList (c : ISchemaSearchCriteria) : eff world (Z * list credential_definition) :=
  rows ← gets (fun w => List.filter (fun d => filter_is (by_orgId c) (cd_orgId d) && filter_is (by_schemaId c) (Some (cd_schemaLedgerId d))) (definition_rows w));
  credDefResult ← find_page (definition_order (sortField (criteria c)) (ascending (criteria c))) (criteria c)
    (List.filter (definition_found (criteria c)) rows);
  mret (number_of rows, credDefResult).

(** A search looks at all schemas and answers with its first page, whatever page is asked for. *)
Definition getAllSchemaDetails (c : ISchemaSearchCriteria) : eff world (Z * list schema) :=
  rows ← gets (fun w => List.filter (fun s => filter_is (by_ledgerId c) (ledgerId s) && filter_is (by_schemaType c) (type s)) (schema_rows w));
  let order := schema_order (sortField (criteria c)) (negb (descending (criteria c))) in
  let listed := List.filter (fun s => negb (isSchemaArchived s)) rows in
  schemaResult ←
    (if truthy_str (search (criteria c))
     then mret (page_of 1 (pageSize (criteria c)) (sort_by order
       (List.filter (fun s => searched (criteria c) s || contains_insensitive (search (criteria c)) (alias s)) listed)))
     else find_page order (criteria c) listed);
  mret (number_of rows, schemaResult).

Definition getSchemaBySchemaId (schemaId : option string) : eff world (option schema) :=
  gets (fun w => first (fun s => filter_is schemaId (Some (schemaLedgerId s))) (schema_rows w)).

Definition getSchemaByOrgSchemaUrl (schemaUrl orgId : string) : eff world (option schema) :=
  gets (fun w => first (fun s => schema_of orgId s && String.eqb (schemaLedgerId s) schemaUrl) (schema_rows w)).

Record IUpdateSchemaLedgerDetails := LedgerDetails {
  ul_id : string;
  ul_changedBy : string;
  ul_publisherDid : string;
  ul_type : string;
}.

Definition migrated (d : IUpdateSchemaLedgerDetails) (ledger : string) (s : schema) : schema :=
  Schema (sc_id s) (sc_created s) (sc_createdBy s) (sc_changed s) (ul_changedBy d) (name s) (version s) (attributes s) (schemaLedgerId s) (ul_publisherDid d)
    (ul_publisherDid d) (sc_orgId s) (Some ledger) (Some (ul_type d)) (isSchemaArchived s) (alias s).

Definition schema_is (id : string) (s : schema) : bool := String.eqb (sc_id s) id.

Definition updateSchemaLedgerDetails (d : IUpdateSchemaLedgerDetails) (ledger : string) : eff world schema :=
  rows ← gets schema_rows;
  match first (schema_is (ul_id d)) rows with
  | None => throw prisma_missing
  | Some s =>
      _ ← modify (set_schemas (update_where (schema_is (ul_id d)) (migrated d ledger) rows));
      mret (migrated d ledger s)
  end.

Definition schemaExist (schemaName ver : option string) : eff world (list schema) :=
  gets (fun w => List.filter (fun s => text_is schemaName (name s) && text_is ver (version s)) (schema_rows w)).

Record IUpdateSchema := UpdateSchema { us_alias : option string; us_schemaLedgerId : option string; us_orgId : option string }.

Definition with_alias (a : option string) (s : schema) : schema :=
  Schema (sc_id s) (sc_created s) (sc_createdBy s) (sc_changed s) (sc_changedBy s) (name s) (version s) (attributes s) (schemaLedgerId s) (publisherDid s)
    (issuerId s) (sc_orgId s) (ledgerId s) (type s) (isSchemaArchived s) (match a with Some _ => a | None => alias s end).

Definition updateSchema (d : IUpdateSchema) : eff world Z :=
  rows ← gets schema_rows;
  let named s := filter_is (us_schemaLedgerId d) (Some (schemaLedgerId s)) && (negb (truthy_str (us_orgId d)) || bool_decide (sc_orgId s = us_orgId d)) in
  _ ← modify (set_schemas (update_where named (with_alias (us_alias d)) rows));
  mret (number_of (List.filter named rows)).
End repository.

Section service.
Context {P : Platform} {U : UuidSource} {R : RegExpSyntax}.

(** ** Indy schemas *)

Record IAttributeValue := Attribute { ia_name : string; ia_dataType : string; ia_displayName : string; ia_isRequired : bool }.

Record ICreateSchema := CreateSchema {
  ic_schemaName : string;
  ic_schemaVersion : option string;
  ic_attributes : list IAttributeValue;
  ic_orgDid : option string;
}.

(** [!isNaN(parseFloat(s))]: the text begins with a number *)
Definition begins_with_number (s : string) : bool :=
  let s := (Num.read_sign (Str.trim_start s)).2 in
  let digit_first t := match t with String c _ => bool_decide (is_Some (Num.digit c)) | EmptyString => false end in
  Str.startsWith "Infinity" s || digit_first s || match s with String "." t => digit_first t | _ => false end.

Definition valid_version (v : option string) : bool :=
  match v with Some s => begins_with_number s && Str.contains "." s | None => false end.

Fixpoint indexOf (v : string) (l : list string) : option nat :=
  match l with [] => None | x :: l => if String.eqb x v then Some 0%nat else S <$> indexOf v l end.
(** [l.filter((value, index, element) => element.indexOf(value) !== index)] *)
Definition duplicates (l : list string) : list string :=
  map snd (List.filter (fun p => negb (bool_decide (indexOf p.2 l = Some p.1))) (imap pair l)).

Definition trimmed (a : IAttributeValue) : IAttributeValue := Attribute (Str.trim (ia_name a)) (ia_dataType a) (Str.trim (ia_displayName a)) (ia_isRequired a).

Definition invalid_version : exn := http_exn NotAcceptableException "Invalid schema version provided.".

Definition trimmedAttributes (attrs : list IAttributeValue) : result (list IAttributeValue) :=
  let ts := map trimmed attrs in
  match attrs with
  | [] => Throw (http_exn NotAcceptableException "Please provide at least one attribute.")
  | _ =>
      match duplicates (map (fun a => Str.toLowerCase (ia_name a)) ts) with
      | _ :: _ => Throw (conflict "Please provide unique attribute names")
      | [] =>
          match duplicates (map (fun a => Str.toLowerCase (ia_displayName a)) ts) with
          | _ :: _ => Throw (conflict "Please provide unique display names for attributes")
          | [] => Ok ts
          end
      end
  end.

Definition attribute_json (a : IAttributeValue) : Json.value :=
  obj [("attributeName", of_str (Some (ia_name a))); ("schemaDataType", of_str (Some (ia_dataType a))); ("displayName", of_str (Some (ia_displayName a)));
       ("isRequired", Some (Json.JBool (ia_isRequired a)))].

Definition strings (l : list string) : any := Some (Json.JArr (map Json.JStr l)).

(** The message to the agent service; an agent of another type is not asked. *)
Definition indy_payload (agentType : string) (agent : org_agents) (did : option string) (ts : list IAttributeValue) (nm : string) (ver : option string)
    (orgId : string) : option (list (string * any)) :=
  let schema := [("attributes", strings (map ia_name ts)); ("version", of_str ver); ("name", of_str (Some nm)); ("issuerId", column did)] in
  let rest := [("agentEndPoint", column (agentEndPoint agent)); ("orgId", of_str (Some orgId)); ("agentType", of_str (Some agentType))] in
  if String.eqb DEDICATED agentType then Some (schema ++ rest)%list
  else if String.eqb SHARED agentType
  then Some ([("tenantId", column (tenantId agent)); ("method", of_str (Some "registerSchema")); ("payload", Some (obj schema))] ++ rest)%list
  else None.

Definition create_failed (e : error) : exn := rpc_with (Json.field "message" e) (Json.field "statusCode" e).

Definition _createSchema (payload : list (string * any)) : eff world any := ask_agent create_failed "agent-create-schema" payload.

(** [JSON.parse(JSON.stringify(v))] *)
Definition reparsed (v : any) : result Json.value := match v with Some v => Ok v | None => Throw (js_error "Unexpected token") end.

Definition is_finished (v : any) : bool := match v with Some (Json.JStr s) => String.eqb "finished" s | _ => false end.

(** Name, version, identifier and issuer of a published schema, in one of the two shapes of
    the answer; [None] when it is not finished *)
Definition published (responseObj : Json.value) : result (option (any * any * any * any)) :=
  outer ← prop "schema" (Some responseObj);
  state ← prop "state" outer;
  if is_finished state then
    inner ← prop "schema" outer;
    nm ← prop "name" inner; ver ← prop "version" inner; id ← prop "schemaId" outer; issuer ← prop "issuerId" inner;
    mret (Some (nm, ver, id, issuer))
  else
    state ← prop "state" (Some responseObj);
    if is_finished state then
      nm ← prop "name" outer; ver ← prop "version" outer; id ← prop "schemaId" (Some responseObj); issuer ← prop "issuerId" outer;
      mret (Some (nm, ver, id, issuer))
    else mret None.

(** [`${did.split(':')[2]}:${did.split(':')[3]}`] *)
Definition indy_namespace (did : option string) : result string :=
  match did with
  | None => Throw not_an_object
  | Some d => let segments := Str.split ":" d in Ok (template_str (segments !! 2%nat) +:+ ":" +:+ template_str (segments !! 3%nat))
  end.

Definition agentDetailsNotFound : exn := not_found "Agent details not found".

(** The part after the checks on the request: the agent publishes the schema and its row is
    recorded.  The attributes of the row that is returned are read back from its text. *)
Definition publish_schema (p : ICreateSchema) (ts : list IAttributeValue) (userId orgId : string) : eff world schema :=
  agentDetails ← getAgentDetailsByOrgId orgId;
  match agentDetails with
  | None => throw agentDetailsNotFound
  | Some agent =>
      let did := issuing_did (ic_orgDid p) (orgDid agent) in
      typeId ← getAgentType orgId;
      orgAgentType ← getOrgAgentType typeId;
      if negb (existsb ia_isRequired ts) then throw (http_exn BadRequestException "At least one of the attributes should have isReuired as `true`") else
      match indy_payload orgAgentType agent did ts (Str.trim (ic_schemaName p)) (ic_schemaVersion p) orgId with
      | None => throw not_an_object
      | Some payload =>
          response ← _createSchema payload;
          responseObj ← lift (reparsed response);
          namespace ← lift (indy_namespace did);
          getLedgerId ← getLedgerByNamespace (Some namespace);
          match getLedgerId with
          | None => throw not_an_object
          | Some l =>
              answer ← lift (published responseObj);
              match answer with
              | None => throw (not_found "Schema not created")
              | Some (nm, ver, id, issuer) =>
                  saveResponse ← saveSchema (SchemaResult nm ver (Json.JArr (map attribute_json ts)) id userId issuer orgId (l_id l) INDY None);
                  match saveResponse with Some s => mret s | None => throw not_an_object end
              end
          end
      end
  end.

Definition createIndySchema (p : ICreateSchema) (userId orgId : string) : eff world schema :=
  found ← schemaExists (Some (ic_schemaName p)) (ic_schemaVersion p);
  match found with
  | _ :: _ => throw schema_exists
  | [] =>
      if negb (valid_version (ic_schemaVersion p)) then throw invalid_version else
      ts ← lift (trimmedAttributes (ic_attributes p));
      publish_schema p ts userId orgId
  end.

(** ** W3C schemas *)

(** The attributes as the schema builder reads them and as the request has them *)
Record ICreateW3CSchema := CreateW3C {
  iw_attributes : list IW3CAttributeValue;
  iw_attributes_sent : Json.value;
  iw_schemaName : string;
  iw_description : string;
  iw_schemaType : string;
  iw_schemaVersion : option string;
}.

Definition file_url (id : string) : string := template_str SCHEMA_FILE_SERVER_URL +:+ id.

(** The properties of an object that is extended; a primitive has none to set. *)
Definition extensible (v : any) : result (list (string * Json.value)) :=
  match v with Some (Json.JObj fs) => Ok fs | Some (Json.JArr _) => Ok [] | _ => Throw not_an_object end.

(** The rejection is read as an error of the agent, whose message is nested. *)
Definition w3c_failed (e : error) : exn :=
  let read := (
    code ← prop "code" (Json.field "error" e);
    m ← prop "message" (Json.field "error" e); m ← prop "error" m; m ← prop "message" m;
    mret (rpc_with m code)) in
  match read with Ok x => x | Throw x => x end.

Definition _createW3CSchema (payload : list (string * any)) : eff world any := ask_agent w3c_failed "agent-create-w3c-schema" payload.

Definition _createW3CledgerAgnostic (payload : Json.value) (schemaResourceId : option string) : eff world any :=
  try_catch
    (httpPost (template_str SCHEMA_FILE_SERVER_URL) (JsonBody (obj [("schemaId", of_str schemaResourceId); ("schema", Some payload)]))
      [("authorization", "Bearer " +:+ template_str SCHEMA_FILE_SERVER_TOKEN); ("Content-Type", "application/json")])
    (fun e => throw (js_error ("Failed to create W3C ledger agnostic schema: " +:+ exn_message e))).

Definition networkNotFound : exn := not_found "Error while fetching network".

Definition storeW3CSchemas (schemaDetails : list (string * Json.value)) (user orgId : string) (attrs : Json.value) (al : option string) (schemaVersion : string)
    : eff world (option schema) :=
  schemaRequest ← httpGet (file_url (any_string (Json.field "schemaId" schemaDetails))) [];
  if negb (any_truthy schemaRequest) then throw (not_found "Error while resolving W3C schema") else
  match Json.field "did" schemaDetails with
  | Some (Json.JStr did) =>
      let namespace := networkNamespace did in
      ledgerDetails ← getLedgerByNamespace
        (if bool_decide (namespace = Some WEB) || bool_decide (namespace = Some KEY) then Some NO_LEDGER else namespace);
      match ledgerDetails with
      | None => throw networkNotFound
      | Some l =>
          saveSchema (SchemaResult (prop_opt "title" schemaRequest) (of_str (Some schemaVersion)) attrs (Json.field "schemaUrl" schemaDetails) user
            (Json.field "did" schemaDetails) orgId (l_id l) W3C_Schema al)
      end
  | _ => throw not_an_object
  end.

Definition didAndSchemaType : exn := http_exn BadRequestException "Organization DID and schema type does not match".

(** [checkDidLedgerAndNetwork] of a DID that may be [null], which has no [trim] *)
Definition checked_did (schemaType : string) (did : option string) : result string :=
  match did with
  | None => Throw not_an_object
  | Some d => if checkDidLedgerAndNetwork schemaType d then Ok d else Throw didAndSchemaType
  end.

Definition on_ledger (schemaType : string) : bool := String.eqb schemaType POLYGON_W3C || String.eqb schemaType ETHEREUM_W3C.

(** The schema is uploaded, by the agent or to the file server; what is known of it then *)
Definition upload_schema (p : ICreateW3CSchema) (agent : org_agents) (did orgId : string) : eff world (list (string * Json.value)) :=
  let url := literal (agentEndPoint agent) +:+ (if String.eqb (iw_schemaType p) ETHEREUM_W3C then "/ethereum/create-schema" else "/polygon/create-schema") in
  schemaResourceId ← (if String.eqb (iw_schemaType p) LEDGER_LESS then id ← new_id; mret (Some id) else mret None);
  built ← lift (w3cSchemaBuilder (iw_attributes p) (iw_schemaName p) (iw_description p) (file_url <$> schemaResourceId));
  let schemaObject := Json.JObj built in
  if on_ledger (iw_schemaType p) then
    response ← _createW3CSchema
      [("url", of_str (Some url)); ("orgId", of_str (Some orgId));
       ("schemaRequestPayload", Some (obj [("schema", Some schemaObject); ("did", of_str (Some did)); ("schemaName", of_str (Some (iw_schemaName p)))]))];
    fs ← lift (extensible response);
    mret (Json.set_field "type" (Json.JStr (iw_schemaType p)) fs)
  else
    created ← _createW3CledgerAgnostic schemaObject schemaResourceId;
    if negb (any_truthy created) then throw (http_exn BadRequestException "Error while uploading schema JSON") else
    fs ← lift (extensible (prop_opt "data" created));
    let schemaUrl := file_url (any_string (Json.field "schemaId" fs)) in
    mret (Json.set_field "schemaUrl" (Json.JStr schemaUrl) (Json.set_field "type" (Json.JStr LEDGER_LESS) (Json.set_field "did" (Json.JStr did) fs))).

Definition createW3CSchema (orgId : string) (p : ICreateW3CSchema) (user : string) (al : option string) : eff world schema :=
  let schemaVersion := default "1.0" (iw_schemaVersion p) in
  agentDetails ← getAgentDetailsByOrgId orgId;
  match agentDetails with
  | None => throw agentDetailsNotFound
  | Some agent =>
      did ← lift (checked_did (iw_schemaType p) (orgDid agent));
      schemaAlreadyExists ← w3cSchemaExists (iw_schemaName p) schemaVersion orgId;
      if (schemaAlreadyExists : bool) then throw schema_exists else
      createSchema ← upload_schema p agent did orgId;
      storeW3CSchema ← storeW3CSchemas createSchema user orgId (iw_attributes_sent p) al schemaVersion;
      match storeW3CSchema with Some s => mret s | None => throw (http_exn BadRequestException "Error while storing W3C schema") end
  end.

(** The agent's alias of an Indy schema is in the request, and not used. *)
Inductive IGenericSchema :=
  | IndySchema (p : ICreateSchema) (al : option string)
  | JsonSchema (p : ICreateW3CSchema) (al : option string)
  | OtherSchema.

Definition createSchema (schemaDetails : IGenericSchema) (userId orgId : string) : eff world (option schema) :=
  rpc match schemaDetails with
  | IndySchema p _ => s ← createIndySchema p userId orgId; mret (Some s)
  | JsonSchema p al => s ← createW3CSchema orgId p userId al; mret (Some s)
  | OtherSchema => mret None
  end.

(** ** Migration *)

Definition nullish_first (l : list any) : any := foldr or_else None l.

Definition migrate_failed (e : error) : exn :=
  let inner k := prop_opt k (Json.field "error" e) in
  let message := nullish_first [prop_opt "message" (prop_opt "error" (inner "message")); inner "reason"; inner "message"; Json.field "message" e;
                               of_str (Some "Failed to migrate W3C schema")] in
  Exn HttpException (default "" (Json.as_str message)) (as_num (inner "code")) None.

Definition _migrateW3CSchema (payload : list (string * any)) : eff world any := ask_agent migrate_failed "agent-migrate-w3c-schema" payload.

Definition updateW3CSchemas (d : IUpdateSchemaLedgerDetails) : eff world schema :=
  ledgerDetails ← getLedgerByNamespace (networkNamespace (ul_publisherDid d));
  match ledgerDetails with None => throw networkNotFound | Some l => updateSchemaLedgerDetails d (l_id l) end.

Definition schemaNotFound : exn := not_found "Schema records not found".

(** Not wrapped: the exception of a step is the one of the whole. *)
Definition migrateW3CSchema (schemaId targetSchemaType userId orgId : string) : eff world schema :=
  agentDetails ← getAgentDetailsByOrgId orgId;
  match agentDetails with
  | None => throw agentDetailsNotFound
  | Some agent =>
      found ← getSchemaByOrgSchemaUrl (file_url schemaId) orgId;
      match found with
      | None => throw schemaNotFound
      | Some s =>
          did ← lift (checked_did targetSchemaType (orgDid agent));
          _ ← _migrateW3CSchema
            [("url", of_str (Some (literal (agentEndPoint agent) +:+ "/ethereum/migrate-schema"))); ("orgId", of_str (Some orgId));
             ("schemaRequestPayload", Some (obj [("did", of_str (Some did)); ("schemaId", of_str (Some schemaId))]))];
          updateW3CSchemas (LedgerDetails (sc_id s) userId did targetSchemaType)
      end
  end.

(** ** Queries *)

(** [new HttpException({ status: error.statusCode, error: error.message }, error.error)] *)
Definition read_failed (e : error) : exn :=
  http_ended [("status", Json.field "statusCode" e); ("error", Json.field "message" e)] (Json.field "error" e).

Definition _getSchemaById (payload : list (string * any)) : eff world any := ask_agent read_failed "agent-get-schema" payload.

(** A question to the agent about something it has: the shape depends on the type of the agent. *)
Definition reading_payload (agentType : string) (agent : org_agents) (method : string) (what : list (string * any)) (orgId : string)
    : option (list (string * any)) :=
  let rest := [("agentType", of_str (Some agentType)); ("agentEndPoint", column (agentEndPoint agent)); ("orgId", of_str (Some orgId))] in
  if String.eqb DEDICATED agentType then Some (what ++ rest)%list
  else if String.eqb SHARED agentType
  then Some ([("tenantId", column (tenantId agent)); ("method", of_str (Some method)); ("payload", Some (obj what))] ++ rest)%list
  else None.

(** What the agent answers for an Indy schema, and the row of a W3C one *)
Definition getSchemaById (schemaId orgId : string) : eff world (any + schema) :=
  rpc (
    agentDetails ← getAgentDetailsByOrgId orgId;
    match agentDetails with
    | None => throw not_an_object
    | Some agent =>
        getSchemaDetails ← getSchemaBySchemaId (Some schemaId);
        match getSchemaDetails with
        | None => throw schemaNotFound
        | Some s =>
            typeId ← getAgentType orgId;
            orgAgentType ← getOrgAgentType typeId;
            if bool_decide (type s = Some INDY) then
              match reading_payload orgAgentType agent "getSchemaById" [("schemaId", of_str (Some schemaId))] orgId with
              | None => throw not_an_object
              | Some payload => response ← _getSchemaById payload; mret (inl response)
              end
            else if bool_decide (type s = Some W3C_Schema) then mret (inr s)
            else mret (inl None)
        end
    end).

Definition getSchemaDetails (templateIds : list string) : eff world (list (schema * option string)) := rpc (getSchemasDetailsBySchemaIds templateIds).
Definition getSchemaDetailsBySchemaName (schemaName orgId : option string) : eff world (list string) := rpc (getSchemasDetailsBySchemaName schemaName orgId).

(** The columns a listing shows, with the attributes read from their text *)
Record ISchemaListed := Listed {
  ls_createDateTime : Z;
  ls_createdBy : string;
  ls_name : string;
  ls_version : string;
  ls_attributes : Json.value;
  ls_schemaLedgerId : string;
  ls_publisherDid : string;
  ls_orgId : option string;
  ls_issuerId : string;
  ls_alias : option string;
  ls_organizationName : option string;
}.

Definition listed_as (organizationName : option string) (s : schema) : result ISchemaListed :=
  match JsonParse.parse (attributes s) with
  | Some v => Ok (Listed (sc_created s) (sc_createdBy s) (name s) (version s) v (schemaLedgerId s) (publisherDid s) (sc_orgId s) (issuerId s) (alias s)
      organizationName)
  | None => Throw (js_error "Unexpected token in JSON")
  end.

Fixpoint list_all {X Y} (f : X -> result Y) (l : list X) : result (list Y) :=
  match l with [] => Ok [] | x :: l => y ← f x; ys ← list_all f l; mret (y :: ys) end.

(** With the name of a user of the organization *)
Definition schemas_page (c : search_criteria) (orgId : string) : eff world (paged (ISchemaListed * option string)) :=
  rpc (
    '(schemasCount, schemasResult) ← getSchemas c orgId;
    if 0 =? schemasCount then throw schemaNotFound else
    schemasDetails ← lift (list_all (fun s => l ← listed_as (orgName (Some orgId)) s; mret (l, first_user orgId)) schemasResult);
    mret (paged_response c schemasCount schemasDetails)).

Definition getcredDefListBySchemaId (c : ISchemaSearchCriteria) : eff world (paged credential_definition) :=
  rpc (
    '(credDefCount, credDefResult) ← getSchemasCredDeffList c;
    if 0 =? credDefCount then throw (not_found "No credential definition exist") else mret (paged_response (criteria c) credDefCount credDefResult)).

(** With the archive mark and the type.  The texts of the rows are read before they are counted. *)
Definition getAllSchema (c : ISchemaSearchCriteria) : eff world (paged (ISchemaListed * bool * option string)) :=
  rpc (
    '(schemasCount, schemasResult) ← getAllSchemaDetails c;
    schemasDetails ← lift (list_all (fun s => l ← listed_as (Some (str_or (orgName (sc_orgId s)) "")) s; mret (l, isSchemaArchived s, type s)) schemasResult);
    if negb (0 =? schemasCount) then mret (paged_response (criteria c) schemasCount schemasDetails) else throw schemaNotFound).

Definition schema_known (schemaName ver : option string) : eff world (list schema) := rpc (schemaExist schemaName ver).
Definition archiveSchemas (did : option string) : eff world Z := rpc (archiveSchemasByDid did).
Definition storeSchemaDetails (d : ISaveSchema) : eff world schema := rpc (saveSchemaRecord d).
Definition schema_record (schemaId : option string) : eff world (option schema) := rpc (getSchemaBySchemaId schemaId).

Definition schema_updated (d : IUpdateSchema) : eff world Z :=
  rpc (
    count ← updateSchema d;
    if 0 =? count then throw (not_found "Records with given condition not found") else mret count).

(** ** Messages *)

Inductive message :=
  | CreateSchemaMessage (schemaDetails : IGenericSchema) (userId orgId : string)
  | MigrateW3CSchema (schemaId targetSchemaType userId orgId : string)
  | GetSchemasDetails (templateIds : list string)
  | GetSchemasDetailsByName (schemaName orgId : option string)
  | GetSchemaById (schemaId orgId : string)
  | GetSchemas (c : search_criteria) (orgId : string)
  | GetDefinitionsOfSchema (c : ISchemaSearchCriteria)
  | GetAllSchemas (c : ISchemaSearchCriteria)
  | SchemaExist (schemaName ver : option string)
  | ArchiveSchemas (did : option string)
  | StoreSchemaRecord (d : ISaveSchema)
  | GetSchemaRecord (schemaId : option string)
  | UpdateSchemaMessage (d : IUpdateSchema).

Definition ignore {B} (m : eff world B) : eff world unit := _ ← m; mret tt.

Definition handle (m : message) : eff world unit :=
  match m with
  | CreateSchemaMessage d userId orgId => ignore (createSchema d userId orgId)
  | MigrateW3CSchema schemaId target userId orgId => ignore (migrateW3CSchema schemaId target userId orgId)
  | GetSchemasDetails ids => ignore (getSchemaDetails ids)
  | GetSchemasDetailsByName n orgId => ignore (getSchemaDetailsBySchemaName n orgId)
  | GetSchemaById schemaId orgId => ignore (getSchemaById schemaId orgId)
  | GetSchemas c orgId => ignore (schemas_page c orgId)
  | GetDefinitionsOfSchema c => ignore (getcredDefListBySchemaId c)
  | GetAllSchemas c => ignore (getAllSchema c)
  | SchemaExist n ver => ignore (schema_known n ver)
  | ArchiveSchemas did => ignore (archiveSchemas did)
  | StoreSchemaRecord d => ignore (storeSchemaDetails d)
  | GetSchemaRecord schemaId => ignore (schema_record schemaId)
  | UpdateSchemaMessage d => ignore (schema_updated d)
  end.
End service.
