(* ===== verification/CredentialDefinition.v ===== *)
(** * Ledger: credential definitions and networks

    [credential-definition.service.ts] with [credential-definition.repository.ts], and
    [ledger.service.ts] with [ledger.repository.ts]: an organization's agent publishes a
    definition for a schema, and its row is recorded; the ledgers are looked up. *)

From S2P Require Import Prelude Js Table CommonUtils CommonService DidcommData LedgerData Schema.

Open Scope Z_scope.

Section repository.
Context {P : Platform} {U : UuidSource}.

(** ** Repository *)

(** The query of a value that is no text fails, and the failure is swallowed. *)
Definition getByAttribute (schema tagged : any) : eff world (option credential_definition) :=
  match text_filter schema, text_filter tagged with
  | Ok s, Ok t => gets (fun w => first (fun d => text_is s (cd_schemaLedgerId d) && contains_insensitive t (Some (tag d))) (definition_rows w))
  | _, _ => mret None
  end.

Record ISaveCredDef := SaveCredDef {
  sd_schemaLedgerId : any;
  sd_tag : any;
  sd_credentialDefinitionId : any;
  sd_revocable : option bool;
  sd_createdBy : string;
  sd_lastChangedBy : string;
  sd_orgId : string;
  sd_schemaId : string;
}.

(** [prisma.credential_definition.create]: the organization and the schema must exist. *)
Definition storeCredDefRecord (d : ISaveCredDef) : eff world credential_definition :=
  ledger ← lift (text_of (sd_schemaLedgerId d)); tg ← lift (text_of (sd_tag d)); cid ← lift (text_of (sd_credentialDefinitionId d));
  rows ← gets schema_rows;
  if negb (org_known (sd_orgId d) && existsb (schema_is (sd_schemaId d)) rows) then throw prisma_foreign_key else
  id ← new_id; t ← read_clock;
  let row := CredentialDefinition id t (sd_createdBy d) (sd_lastChangedBy d) cid tg ledger (sd_schemaId d) (default false (sd_revocable d)) (Some (sd_orgId d)) in
  _ ← modify (fun w => set_definitions (definition_rows w ++ [row])%list w);
  mret row.

Definition saveCredentialDefinition (d : ISaveCredDef) : eff world (option credential_definition) :=
  dbResult ← getByAttribute (sd_schemaLedgerId d) (sd_tag d);
  match dbResult with
  | Some _ => mret None
  | None => saved ← storeCredDefRecord d; mret (Some saved)
  end.

Definition definition_of (orgId : string) (d : credential_definition) : bool := bool_decide (cd_orgId d = Some orgId).

(** The ledger of the schema of a definition *)
Definition definition_ledger (rows : list schema) (d : credential_definition) : option string := first (schema_is (cd_schemaId d)) rows ≫= ledgerId.

Definition getAllPlatformCredDefsDetails (ledger : option string) (c : search_criteria) : eff world (Z * list credential_definition) :=
  rows ← gets (fun w => List.filter (fun d => filter_is ledger (definition_ledger (schema_rows w) d)) (definition_rows w));
  credDefResult ← find_page (definition_order (sortField c) (negb (descending c))) c (List.filter (definition_found c) rows);
  mret (number_of rows, credDefResult).

Definition definitions_page (c : search_criteria) (orgId : string) : eff world (list credential_definition) :=
  rows ← gets (fun w => List.filter (fun d => definition_of orgId d && definition_found c d) (definition_rows w));
  find_page (definition_order (sortField c) (negb (descending c))) c rows.

Definition definitions_of_schema (schemaId : option string) : eff world (list credential_definition) :=
  gets (fun w => List.filter (fun d => filter_is schemaId (Some (cd_schemaLedgerId d))) (definition_rows w)).

Record CredDefSchema := CredDefTemplate {
  cs_credentialDefinitionId : string;
  cs_credentialDefinition : string;
  cs_schemaCredDefName : string;
  cs_schemaName : string;
  cs_schemaVersion : string;
  cs_schemaAttributes : string;
  cs_schemaLedgerId : string;
  cs_isSchemaArchived : bool;
}.

Definition template_row (d : credential_definition) (s : schema) : CredDefSchema :=
  CredDefTemplate (credentialDefinitionId d) (tag d) (name s +:+ ":" +:+ version s +:+ "-" +:+ tag d) (name s) (version s) (attributes s) (schemaLedgerId s)
    (isSchemaArchived s).

(** Every definition with the first Indy schema of its ledger identifier, those without one left out *)
Definition getAllCredDefsByOrgIdForBulk (credDefSortBy sortValue orgId : string) : eff world (list CredDefSchema) :=
  gets (fun w =>
    let credentialDefinitions := sort_by (definition_order credDefSortBy (negb (String.eqb "desc" sortValue))) (List.filter (definition_of orgId) (definition_rows w)) in
    let schemas := List.filter (fun s => bool_decide (schemaLedgerId s ∈ map cd_schemaLedgerId credentialDefinitions) && bool_decide (type s = Some INDY)) (schema_rows w) in
    omap (fun d => template_row d <$> first (fun s => String.eqb (schemaLedgerId s) (cd_schemaLedgerId d)) schemas) credentialDefinitions).

Definition getAllSchemaByOrgIdAndType (orgId schemaType : string) : eff world (list schema) :=
  gets (fun w => List.filter (fun s => schema_of orgId s && active schemaType s) (schema_rows w)).
End repository.

Section service.
Context {P : Platform} {U : UuidSource}.

(** ** Creation *)

Record CreateCredentialDefinition := CreateCredDef {
  cc_tag : string;
  cc_schemaLedgerId : string;
  cc_orgDid : option string;
  cc_orgId : string;
  cc_revocable : option bool;
}.

(** [new HttpException({ status: error.statusCode, error: error.message }, error.statusCode ?? 500)] *)
Definition definition_failed (e : error) : exn :=
  http_ended [("status", Json.field "statusCode" e); ("error", Json.field "message" e)] (or_else (Json.field "statusCode" e) (Some (Json.JNum 500))).

Definition _createCredentialDefinition (payload : list (string * any)) : eff world any := ask_agent definition_failed "agent-create-credential-definition" payload.

Definition definition_payload (agentType : string) (agent : org_agents) (did : option string) (tagged ledger orgId : string) : option (list (string * any)) :=
  let what := [("tag", of_str (Some tagged)); ("schemaId", of_str (Some ledger)); ("issuerId", column did)] in
  let rest := [("agentEndPoint", column (agentEndPoint agent)); ("orgId", of_str (Some orgId)); ("agentType", of_str (Some agentType))] in
  if String.eqb DEDICATED agentType then Some (what ++ rest)%list
  else if String.eqb SHARED agentType
  then Some ([("tenantId", column (tenantId agent)); ("method", of_str (Some "registerCredentialDefinition")); ("payload", Some (obj what))] ++ rest)%list
  else None.

(** Tag, schema and identifier of a published definition, in one of the two shapes of the
    answer; [None] when it is not finished *)
Definition defined (response : Json.value) : result (option (any * any * any)) :=
  let read body id := tagged ← prop "tag" body; ledger ← prop "schemaId" body; mret (Some (tagged, ledger, id)) in
  state ← prop "state" (Some response);
  let inner := prop_opt "credentialDefinition" (Some response) in
  if is_finished state then
    read inner (prop_opt "credentialDefinitionId" (Some response))
  else
    state ← prop "state" inner;
    if is_finished state then read (prop_opt "credentialDefinition" inner) (prop_opt "credentialDefinitionId" inner) else mret None.

(** What is recorded: a publication that is not finished leaves the values a row starts with. *)
Definition credDefData (p : CreateCredentialDefinition) (userId schemaId : string) (answer : option (any * any * any)) : ISaveCredDef :=
  match answer with
  | Some (tagged, ledger, id) => SaveCredDef ledger tagged id (cc_revocable p) userId userId (cc_orgId p) schemaId
  | None => let empty := of_str (Some "") in SaveCredDef empty empty empty (cc_revocable p) "0" "0" "0" "0"
  end.

Definition publish_definition (p : CreateCredentialDefinition) (agent : org_agents) (typeId : option string) (userId : string) : eff world credential_definition :=
  let tagged := Str.trim (cc_tag p) in
  orgAgentType ← getOrgAgentType typeId;
  match definition_payload orgAgentType agent (issuing_did (cc_orgDid p) (orgDid agent)) tagged (cc_schemaLedgerId p) (cc_orgId p) with
  | None => throw not_an_object
  | Some payload =>
      answer ← _createCredentialDefinition payload;
      response ← lift (reparsed answer);
      schemaDetails ← getSchemaBySchemaId (Some (cc_schemaLedgerId p));
      match schemaDetails with
      | None => throw (not_found "SchemaLedgerId not found")
      | Some s =>
          published ← lift (defined response);
          credDefResponse ← saveCredentialDefinition (credDefData p userId (sc_id s) published);
          match credDefResponse with Some d => mret d | None => throw not_an_object end
      end
  end.

Definition createCredentialDefinition (p : CreateCredentialDefinition) (userId : string) : eff world credential_definition :=
  rpc (
    agentDetails ← getAgentDetailsByOrgId (cc_orgId p);
    match agentDetails with
    | None => throw not_an_object
    | Some agent =>
        dbResult ← getByAttribute (of_str (Some (cc_schemaLedgerId p))) (of_str (Some (Str.trim (cc_tag p))));
        match dbResult with
        | Some _ => throw (conflict "Credential definition already exists")
        | None => typeId ← getAgentType (cc_orgId p); publish_definition p agent typeId userId
        end
    end).

(** ** Queries *)

Definition definitionsNotFound : exn := not_found "No credential definitions found.".

Definition getAllPlatformCredDefs (ledger : option string) (c : search_criteria) : eff world (paged credential_definition) :=
  rpc (
    '(credDefCount, credDefResult) ← getAllPlatformCredDefsDetails ledger c;
    if negb (0 =? credDefCount) then mret (paged_response c credDefCount credDefResult) else throw definitionsNotFound).

Definition _getCredentialDefinitionById (payload : list (string * any)) : eff world any := ask_agent definition_failed "agent-get-credential-definition" payload.

Definition getCredentialDefinitionById (id orgId : string) : eff world any :=
  rpc (
    agentDetails ← getAgentDetailsByOrgId orgId;
    match agentDetails with
    | None => throw not_an_object
    | Some agent =>
        typeId ← getAgentType orgId;
        orgAgentType ← getOrgAgentType typeId;
        match reading_payload orgAgentType agent "getCredentialDefinitionById" [("credentialDefinitionId", of_str (Some id))] orgId with
        | None => throw not_an_object
        | Some payload =>
            response ← _getCredentialDefinitionById payload;
            failed ← lift (m ← prop "resolutionMetadata" response; prop "error" m);
            if any_truthy failed then throw (not_found "Credential Definition Id not found") else mret response
        end
    end).

(** The service asks itself, by a message that may be lost. *)
Definition _getSchemaDetails (schemaIds : list string) : eff world (list (schema * option string)) :=
  qs ← request_made (AskLedger "get-schemas-details" (Some (obj [("templateIds", strings schemaIds)])));
  match lost qs with
  | Some e => throw (rpc_response (wrapped e))
  | None => getSchemaDetails schemaIds
  end.

(** The numbers of the page are those of the rows that were read for it. *)
Definition getAllCredDefs (c : search_criteria) (orgId : string) : eff world (paged credential_definition) :=
  rpc (
    response ← definitions_page c orgId;
    schemaDetails ← _getSchemaDetails (map cd_schemaLedgerId response);
    let archivedSchemaIds := map (fun s => schemaLedgerId s.1) (List.filter (fun s => isSchemaArchived s.1) schemaDetails) in
    let filteredResponse := List.filter (fun d => negb (bool_decide (cd_schemaLedgerId d ∈ archivedSchemaIds))) response in
    match filteredResponse with
    | [] => throw definitionsNotFound
    | _ =>
        let read := number_of response in
        mret (Paged _ (number_of filteredResponse) (pageSize c * pageNumber c <? read) (1 <? pageNumber c) (pageNumber c + 1) (pageNumber c - 1)
          (ceil_div read (pageSize c)) filteredResponse)
    end).

Definition getCredentialDefinitionBySchemaId (schemaId : option string) : eff world (list credential_definition) := rpc (definitions_of_schema schemaId).

Record W3CTemplate := SchemaTemplate {
  wt_schemaCredDefName : string;
  wt_schemaName : string;
  wt_schemaVersion : string;
  wt_schemaAttributes : string;
  wt_type : string;
  wt_schemaIdentifier : string;
  wt_createDateTime : Z;
  wt_organizationName : option string;
  wt_userName : option string;
}.

Definition w3c_template (orgId : string) (s : schema) : W3CTemplate :=
  SchemaTemplate (name s +:+ "-" +:+ version s) (name s) (version s) (attributes s) W3C_Schema (schemaLedgerId s) (sc_created s) (orgName (Some orgId)) (first_user orgId).

(** The type is checked outside of what is wrapped. *)
Definition getAllCredentialTemplates (orgId schemaType : string) : eff world (list W3CTemplate + list CredDefSchema) :=
  if negb (bool_decide (schemaType ∈ [INDY; W3C_Schema])) then throw (not_found "Invalid schema type or not supported yet") else
  rpc (
    if String.eqb schemaType W3C_Schema then
      schemaDetailList ← getAllSchemaByOrgIdAndType orgId schemaType;
      mret (inl (map (w3c_template orgId) schemaDetailList))
    else
      credDefSchemaList ← getAllCredDefsByOrgIdForBulk "id" "asc" orgId;
      mret (inr (List.filter (fun t => negb (cs_isSchemaArchived t)) credDefSchemaList))).

Definition definition_stored (d : ISaveCredDef) : eff world credential_definition := rpc (storeCredDefRecord d).

(** ** Networks *)

Definition ledgersNotFound : exn := not_found "No ledgers found.".

Definition getAllLedgers : eff world (list ledgers) := rpc (mret ledger_rows).

(** The query throws when there is no row, before the service can. *)
Definition getNetworkUrl (namespace : option string) : eff world (option string) :=
  rpc (
    match first (fun l => filter_is namespace (indyNamespace l)) ledger_rows with
    | Some l => mret (networkUrl l)
    | None => throw prisma_missing
    end).

Definition getLedgerDetailsById (id : option string) : eff world ledgers :=
  rpc (match first (fun l => filter_is id (Some (l_id l))) ledger_rows with Some l => mret l | None => throw ledgersNotFound end).

Definition listed_for (schemaArray : list string) (text : option string) (s : schema) : bool :=
  bool_decide (schemaLedgerId s ∈ schemaArray) && found_by text [Some (version s); Some (name s); Some (schemaLedgerId s)].

Definition schemaDetailsForEcosystem (schemaArray : list string) (c : search_criteria) : eff world (Z * list schema) :=
  rpc (
    rows ← gets (fun w => List.filter (listed_for schemaArray (search c)) (schema_rows w));
    schemasResult ← find_page (fun a b => sc_created b <=? sc_created a) c rows;
    mret (number_of rows, schemasResult)).

(** ** Messages *)

Inductive message :=
  | CreateDefinition (p : CreateCredentialDefinition) (userId : string)
  | GetDefinition (id orgId : string)
  | GetAllPlatformDefinitions (ledger : option string) (c : search_criteria)
  | GetAllDefinitions (c : search_criteria) (orgId : string)
  | GetDefinitionsBySchema (schemaId : option string)
  | GetTemplates (orgId schemaType : string)
  | StoreDefinition (d : ISaveCredDef)
  | GetAllLedgers
  | GetNetworkUrl (namespace : option string)
  | GetNetwork (id : option string)
  | GetEcosystemSchemas (schemaArray : list string) (c : search_criteria).

Definition handle (m : message) : eff world unit :=
  match m with
  | CreateDefinition p userId => ignore (createCredentialDefinition p userId)
  | GetDefinition id orgId => ignore (getCredentialDefinitionById id orgId)
  | GetAllPlatformDefinitions ledger c => ignore (getAllPlatformCredDefs ledger c)
  | GetAllDefinitions c orgId => ignore (getAllCredDefs c orgId)
  | GetDefinitionsBySchema schemaId => ignore (getCredentialDefinitionBySchemaId schemaId)
  | GetTemplates orgId schemaType => ignore (getAllCredentialTemplates orgId schemaType)
  | StoreDefinition d => ignore (definition_stored d)
  | GetAllLedgers => ignore getAllLedgers
  | GetNetworkUrl namespace => ignore (getNetworkUrl namespace)
  | GetNetwork id => ignore (getLedgerDetailsById id)
  | GetEcosystemSchemas schemaArray c => ignore (schemaDetailsForEcosystem schemaArray c)
  end.
End service.
