(* ===== verification/LedgerProofs.v ===== *)
(** * Ledger: what holds

    The messages of the schema, the credential definition and the ledger service on the
    tables they share, what every operation keeps, and what is true of a row that was
    recorded: it belongs to an organization and a ledger that exist, and an agent answered
    that it published it. *)

From S2P Require Import Prelude Js Table CommonUtils CastHelper CommonService W3cSchema DidcommData LedgerData Schema CredentialDefinition.

Open Scope Z_scope.

(** ** Messages of the three services, and agents that others provision *)

Inductive event :=
  | ToSchema (m : Schema.message)
  | ToDefinition (m : CredentialDefinition.message)
  | AgentsBecome (rows : list org_agents).

(** ** Quiet operations *)

Definition unchanged (w w' : world) : Prop :=
  schema_rows w' = schema_rows w /\ definition_rows w' = definition_rows w /\ (ids_drawn w <= ids_drawn w')%nat.

#[export] Instance unchanged_preorder : PreOrder unchanged.
Proof. split; [by intros w | intros w w1 w2 (?&?&?) (?&?&?); split_and!; try congruence; lia]. Qed.

Section services.
Context {P : Platform} {U : UuidSource} {R : RegExpSyntax}.

Definition handle (e : event) : eff world unit :=
  match e with
  | ToSchema m => Schema.handle m
  | ToDefinition m => CredentialDefinition.handle m
  | AgentsBecome rows => modify (fun w => World rows (schema_rows w) (definition_rows w) (requests w) (ids_drawn w) (clock_read w))
  end.

Definition serve (w : world) (e : event) : world := (handle e w).2.
Definition serve_all (es : list event) (w : world) : world := foldl serve w es.

(** The tables before anything is recorded *)
Definition start : world := World [] [] [] [] 0 0.

(** The messages that record a row as it is given, without looking for one of its name *)
Definition stores (e : event) : bool :=
  match e with ToSchema (StoreSchemaRecord _) | ToDefinition (StoreDefinition _) => true | _ => false end.

Lemma un_gets {B} (f : world -> B) : frames unchanged (gets f).
Proof. done. Qed.
Lemma un_lift {B} (r : result B) : frames unchanged (lift r).
Proof. done. Qed.
Lemma un_ret {B} (b : B) : frames unchanged (mret b).
Proof. done. Qed.
Lemma un_throw {B} e : frames unchanged (throw e : eff world B).
Proof. done. Qed.
Lemma un_id : frames unchanged new_id.
Proof. intros w. split_and!; try done. simpl. lia. Qed.
Lemma un_clock : frames unchanged read_clock.
Proof. done. Qed.
Lemma un_request q : frames unchanged (request_made q).
Proof. done. Qed.
Lemma un_rpc {B} (m : eff world B) : frames unchanged m -> frames unchanged (rpc m).
Proof. intros H w. rewrite rpc_state. apply H. Qed.
Lemma un_page {X} (le : X -> X -> bool) c rows : frames unchanged (find_page le c rows).
Proof. unfold find_page. by case_match. Qed.
#[local] Hint Resolve @un_gets @un_lift @un_ret @un_throw un_id un_clock un_request @un_page : platform.

(** Steps through a computation of which every part leaves the tables as they are. *)
Ltac solve_unchanged :=
  repeat first
    [ solve [auto with platform]
    | apply un_rpc
    | apply frames_bind; [exact _ | | intros ?]
    | apply frames_try; [exact _ | | intros ?]
    | case_match ].

Lemma un_client rq : frames unchanged (axios rq).
Proof. unfold axios, client. solve_unchanged. Qed.
Lemma un_ask catch cmd p : frames unchanged (ask_agent catch cmd p).
Proof. unfold ask_agent. solve_unchanged. Qed.
Lemma un_post url b h : frames unchanged (httpPost url b h).
Proof. apply frames_httpPost; [exact _ | apply un_client]. Qed.
Lemma un_get url h : frames unchanged (httpGet url h).
Proof. apply frames_httpGet; [exact _ | apply un_client]. Qed.
Lemma un_agent o : frames unchanged (getAgentDetailsByOrgId o).
Proof. done. Qed.
Lemma un_ledger n : frames unchanged (getLedgerByNamespace n).
Proof. done. Qed.
#[local] Hint Resolve un_client un_ask un_post un_get un_agent un_ledger : platform.
Lemma un_agentType o : frames unchanged (getAgentType o).
Proof. unfold getAgentType. solve_unchanged. Qed.
Lemma un_typeOf i : frames unchanged (getOrgAgentType i).
Proof. unfold getOrgAgentType. solve_unchanged. Qed.
Lemma un_attribute s t : frames unchanged (getByAttribute s t).
Proof. unfold getByAttribute. by repeat case_match. Qed.
#[local] Hint Resolve un_agentType un_typeOf un_attribute : platform.
Lemma un_upload p a d o : frames unchanged (upload_schema p a d o).
Proof. unfold upload_schema, _createW3CSchema, _createW3CledgerAgnostic. solve_unchanged. Qed.
#[local] Hint Resolve un_upload : platform.

(** The messages that only read *)
Definition reads (e : event) : bool :=
  match e with
  | ToSchema (CreateSchemaMessage _ _ _ | MigrateW3CSchema _ _ _ _ | ArchiveSchemas _ | StoreSchemaRecord _ | UpdateSchemaMessage _)
  | ToDefinition (CreateDefinition _ _ | StoreDefinition _) => false
  | _ => true
  end.

Lemma un_ignore {B} (m : eff world B) : frames unchanged m -> frames unchanged (ignore m).
Proof. intros H. apply frames_bind; [exact _ | done|]. intros ?. by apply frames_ret; exact _. Qed.

Lemma un_reads e : reads e = true -> frames unchanged (handle e).
Proof.
  destruct e as [m|m|rows]; [destruct m; try done; intros _; simpl; apply un_ignore ..|done].
  all: unfold getSchemaDetails, getSchemaDetailsBySchemaName, getSchemaById, schemas_page, getSchemas, getcredDefListBySchemaId, getSchemasCredDeffList,
    getAllSchema, getAllSchemaDetails, schema_known, schema_record, _getSchemaById, getSchemaBySchemaId, getCredentialDefinitionById, getAllPlatformCredDefs,
    getAllPlatformCredDefsDetails, getAllCredDefs, definitions_page, _getSchemaDetails, getCredentialDefinitionBySchemaId, getAllCredentialTemplates,
    getAllSchemaByOrgIdAndType, getAllCredDefsByOrgIdForBulk, getAllLedgers, getNetworkUrl, getLedgerDetailsById, schemaDetailsForEcosystem,
    _getCredentialDefinitionById, getSchemasDetailsBySchemaIds, getSchemasDetailsBySchemaName, schemaExist, definitions_of_schema, getSchemaDetails; solve_unchanged.
Qed.

(** ** What every message keeps

    [carried]: an invariant that depends on the tables only, and that the operations that
    write keep, is kept by every message. *)

Section carried.
Variable I : world -> Prop.
Hypothesis I_tables : forall w w', unchanged w w' -> I w -> I w'.
Hypothesis I_save : forall r, preserves I (saveSchema r).
Hypothesis I_define : forall d, preserves I (saveCredentialDefinition d).
Hypothesis I_archive : forall did, preserves I (archiveSchemasByDid did).
Hypothesis I_alias : forall d, preserves I (updateSchema d).
Hypothesis I_migrate : forall d l, ul_type d <> INDY -> ledger_known l = true -> preserves I (updateSchemaLedgerDetails d l).

Lemma keep {B} (m : eff world B) : frames unchanged m -> preserves I m.
Proof using I_tables. intros H w Hw. by eapply I_tables, Hw. Qed.

Lemma keep_rpc {B} (m : eff world B) : preserves I m -> preserves I (rpc m).
Proof using Type. intros H w Hw. rewrite rpc_state. by apply H. Qed.
Lemma keep_ignore {B} (m : eff world B) : preserves I m -> preserves I (ignore m).
Proof using Type. intros H. apply preserves_bind; [done|]. intros ?. apply preserves_ret. Qed.

(** Steps through a computation; its quiet parts keep [I]. *)
Ltac carry :=
  repeat first
    [ apply preserves_ret | apply preserves_throw
    | solve [apply keep; solve_unchanged]
    | apply I_save | apply I_define | apply I_archive | apply I_alias
    | apply preserves_bind; [|intros ?]
    | case_match ].

Lemma keep_createCredentialDefinition p u : preserves I (createCredentialDefinition p u).
Proof using I_tables I_define.
  apply keep_rpc. unfold publish_definition, _createCredentialDefinition, getSchemaBySchemaId. carry.
Qed.

Lemma ledger_of_table n w l w' : getLedgerByNamespace n w = (Ok (Some l), w') -> ledger_known (l_id l) = true.
Proof using Type.
  unfold getLedgerByNamespace. run. intros [= E <-]. apply first_Some in E as [E _]. apply existsb_exists. exists l.
  by rewrite <- list_elem_of_In, String.eqb_refl.
Qed.

Lemma keep_migrate s target u o : preserves I (migrateW3CSchema s target u o).
Proof using I_tables I_migrate.
  unfold migrateW3CSchema, getSchemaByOrgSchemaUrl, _migrateW3CSchema.
  apply preserves_bind; [apply keep; solve_unchanged|]. intros [agent|]; [|apply preserves_throw].
  apply preserves_bind; [apply keep; solve_unchanged|]. intros [row|]; [|apply preserves_throw].
  apply (preserves_bind_post _ (fun _ => target <> INDY)); [apply keep; solve_unchanged | |].
  { intros w did w' _ E ->. unfold checked_did in E. destruct (orgDid agent) as [d|]; [|done].
    assert (checkDidLedgerAndNetwork INDY d = false) as X by reflexivity. by rewrite X in E. }
  intros did Ht. apply preserves_bind; [apply keep; solve_unchanged|]. intros _. unfold updateW3CSchemas.
  apply (preserves_bind_post _ (fun l => forall r, l = Some r -> ledger_known (l_id r) = true)); [apply keep; solve_unchanged | |].
  { intros w l w' _ E r ->. by eapply ledger_of_table. }
  intros [l|] Hl; [|apply preserves_throw]. apply I_migrate; [done | by apply Hl].
Qed.

Lemma carried e : (stores e = true -> preserves I (handle e)) -> preserves I (handle e).
Proof using I_tables I_save I_define I_archive I_alias I_migrate.
  destruct (reads e) eqn:E; [intros _; by apply keep, un_reads|].
  destruct e as [m|m|rows]; [destruct m | destruct m | done]; try done; intros H; try (by apply H); simpl; apply keep_ignore.
  - unfold createSchema. apply keep_rpc. carry.
  - apply keep_migrate.
  - apply keep_rpc, I_archive.
  - unfold schema_updated. apply keep_rpc. carry.
  - apply keep_createCredentialDefinition.
Qed.
End carried.

(** ** Rows are unique and refer to rows that exist *)

Definition drawn_before (w : world) (id : string) : Prop := exists n, (n < ids_drawn w)%nat /\ id = uuid n.

Definition schema_placed (s : schema) : Prop :=
  (exists o, sc_orgId s = Some o /\ org_known o = true) /\ forall l, ledgerId s = Some l -> ledger_known l = true.
Definition definition_placed (rows : list schema) (d : credential_definition) : Prop :=
  (exists o, cd_orgId d = Some o /\ org_known o = true) /\ exists s, s ∈ rows /\ sc_id s = cd_schemaId d.

Record consistent (w : world) : Prop := {
  schema_ids : NoDup (sc_id <$> schema_rows w);
  definition_ids : NoDup (cd_id <$> definition_rows w);
  schemas_drawn : Forall (fun s => drawn_before w (sc_id s)) (schema_rows w);
  definitions_drawn : Forall (fun d => drawn_before w (cd_id d)) (definition_rows w);
  schemas_placed : Forall schema_placed (schema_rows w);
  definitions_placed : Forall (definition_placed (schema_rows w)) (definition_rows w);
}.

Lemma drawn_grows w w' id : (ids_drawn w <= ids_drawn w')%nat -> drawn_before w id -> drawn_before w' id.
Proof. intros H (n & Hn & ->). exists n. split; [lia | done]. Qed.

(** The next identifier is no row's. *)
Lemma new_id_fresh {X} (key : X -> string) w l : Forall (fun x => drawn_before w (key x)) l -> forall x, x ∈ l -> key x <> uuid (ids_drawn w).
Proof. rewrite Forall_forall. intros H x Hx E. destruct (H x Hx) as (n & Hn & En). rewrite En in E. apply (inj uuid) in E. lia. Qed.

Lemma consistent_tables w w' : unchanged w w' -> consistent w -> consistent w'.
Proof.
  intros (Es & Ed & Hn) [H1 H2 H3 H4 H5 H6]. split; rewrite ?Es, ?Ed; try done.
  - eapply Forall_impl; [exact H3|]. intros s. by apply drawn_grows.
  - eapply Forall_impl; [exact H4|]. intros s. by apply drawn_grows.
Qed.

(** A new schema *)
Lemma consistent_schema w w' s : consistent w -> sc_id s = uuid (ids_drawn w) -> schema_placed s ->
  schema_rows w' = (schema_rows w ++ [s])%list -> definition_rows w' = definition_rows w -> ids_drawn w' = S (ids_drawn w) -> consistent w'.
Proof.
  intros [H1 H2 H3 H4 H5 H6] Hid Hs Es Ed Hn. split; rewrite ?Es, ?Ed; try done.
  - apply NoDup_new; [done|]. intros y Hy. rewrite Hid. by apply (new_id_fresh _ w (schema_rows w)).
  - apply Forall_app. split; [eapply Forall_impl; [exact H3|]; intros x; apply drawn_grows; lia|].
    apply Forall_singleton. exists (ids_drawn w). split; [lia | done].
  - eapply Forall_impl; [exact H4|]. intros x. apply drawn_grows. lia.
  - apply Forall_app. split; [done | by apply Forall_singleton].
  - eapply Forall_impl; [exact H6|]. intros d (Ho & x & Hx & E). split; [done|]. exists x. split; [set_solver | done].
Qed.

(** A change of schemas that keeps what identifies and places them *)
Lemma consistent_update w w' q f : consistent w -> (forall s, sc_id (f s) = sc_id s) -> (forall s, schema_placed s -> schema_placed (f s)) ->
  schema_rows w' = update_where q f (schema_rows w) -> definition_rows w' = definition_rows w -> ids_drawn w' = ids_drawn w -> consistent w'.
Proof.
  intros [H1 H2 H3 H4 H5 H6] Hid Hf Es Ed Hn.
  assert (Hx : forall x, x ∈ update_where q f (schema_rows w) -> exists s, s ∈ schema_rows w /\ (x = s \/ x = f s)).
  { intros x (s & Hs & ->)%elem_of_update_where. exists s. split; [done|]. destruct (q s); auto. }
  split; rewrite ?Es, ?Ed; try done.
  - by rewrite fmap_update_where by (intros; apply Hid).
  - rewrite Forall_forall in *. intros x (s & Hs & [->| ->])%Hx; rewrite ?Hid; destruct (H3 s Hs) as (n & ? & ?); exists n; split; [lia | done | lia | done].
  - eapply Forall_impl; [exact H4|]. intros x. apply drawn_grows. lia.
  - rewrite Forall_forall in *. intros x (s & Hs & [->| ->])%Hx; auto.
  - rewrite Forall_forall in *. intros d Hd. destruct (H6 d Hd) as (Ho & s & Hs & E). split; [done|].
    exists (if q s then f s else s). split; [apply elem_of_update_where; eauto|]. destruct (q s); [by rewrite Hid | done].
Qed.

(** A new definition *)
Lemma consistent_definition w w' d : consistent w -> cd_id d = uuid (ids_drawn w) -> definition_placed (schema_rows w) d ->
  schema_rows w' = schema_rows w -> definition_rows w' = (definition_rows w ++ [d])%list -> ids_drawn w' = S (ids_drawn w) -> consistent w'.
Proof.
  intros [H1 H2 H3 H4 H5 H6] Hid Hd Es Ed Hn. split; rewrite ?Es, ?Ed; try done.
  - apply NoDup_new; [done|]. intros y Hy. rewrite Hid. by apply (new_id_fresh _ w (definition_rows w)).
  - eapply Forall_impl; [exact H3|]. intros x. apply drawn_grows. lia.
  - apply Forall_app. split; [eapply Forall_impl; [exact H4|]; intros x; apply drawn_grows; lia|].
    apply Forall_singleton. exists (ids_drawn w). split; [lia | done].
  - apply Forall_app. split; [done | by apply Forall_singleton].
Qed.

(** What creating a row does *)
Lemma create_schema_spec nm ver at_ ledger issuer cb ch pub o lid ty al w :
  let '(r, w') := create_schema nm ver at_ ledger issuer cb ch pub o lid ty al w in
  match r with
  | Throw _ => w' = w
  | Ok s => org_known o = true /\ (forall l, lid = Some l -> ledger_known l = true) /\
      s = Schema (uuid (ids_drawn w)) (sc_created s) cb (sc_created s) ch nm ver at_ ledger pub issuer (Some o) lid ty false al /\
      schema_rows w' = (schema_rows w ++ [s])%list /\ definition_rows w' = definition_rows w /\ ids_drawn w' = S (ids_drawn w) /\ requests w' = requests w
  end.
Proof.
  unfold create_schema. destruct (org_known o && _) eqn:E; [|done]. apply andb_true_iff in E as [Ho Hl].
  simpl. split_and!; try done. by intros l ->.
Qed.

Lemma consistent_create nm ver at_ ledger issuer cb ch pub o lid ty al : preserves consistent (create_schema nm ver at_ ledger issuer cb ch pub o lid ty al).
Proof.
  intros w Hw. pose proof (create_schema_spec nm ver at_ ledger issuer cb ch pub o lid ty al w) as H.
  destruct (create_schema _ _ _ _ _ _ _ _ _ _ _ _ w) as [[s|e] w']; [|by subst]. destruct H as (Ho & Hl & Es & Hr & Hd & Hn & _).
  apply (consistent_schema w w' s); try done; rewrite Es; [done|]. split; [by exists o | exact Hl].
Qed.

Lemma store_definition_spec d w :
  let '(r, w') := storeCredDefRecord d w in
  match r with
  | Throw _ => w' = w
  | Ok c => cd_id c = uuid (ids_drawn w) /\ definition_placed (schema_rows w) c /\
      of_str (Some (cd_schemaLedgerId c)) = sd_schemaLedgerId d /\ of_str (Some (tag c)) = sd_tag d /\
      of_str (Some (credentialDefinitionId c)) = sd_credentialDefinitionId d /\ cd_schemaId c = sd_schemaId d /\ cd_orgId c = Some (sd_orgId d) /\
      cd_createdBy c = sd_createdBy d /\ revocable c = default false (sd_revocable d) /\
      schema_rows w' = schema_rows w /\ definition_rows w' = (definition_rows w ++ [c])%list /\ ids_drawn w' = S (ids_drawn w) /\ requests w' = requests w
  end.
Proof.
  unfold storeCredDefRecord, text_of. run. destruct (sd_schemaLedgerId d) as [[]|]; try done.
  destruct (sd_tag d) as [[]|]; try done. destruct (sd_credentialDefinitionId d) as [[]|]; try done.
  destruct (org_known (sd_orgId d) && _) eqn:E; [|done]. apply andb_true_iff in E as [Ho (x & Hx%list_elem_of_In & Ex%String.eqb_eq)%existsb_exists].
  simpl. split_and!; try done. split; eauto.
Qed.

Lemma consistent_store d : preserves consistent (storeCredDefRecord d).
Proof.
  intros w Hw. pose proof (store_definition_spec d w) as H. destruct (storeCredDefRecord d w) as [[c|e] w']; [|by subst].
  destruct H as (Hid & Hp & _ & _ & _ & _ & _ & _ & _ & Es & Ed & Hn & _). by apply (consistent_definition w w' c).
Qed.

Lemma consistent_event e : preserves consistent (handle e).
Proof.
  pose proof (@keep consistent consistent_tables) as K.
  apply carried; [apply consistent_tables | ..].
  - intros r. unfold saveSchema, schemaExists. case_match; [apply preserves_ret|].
    do 3 (apply preserves_bind; [apply K; solve_unchanged | intros ?]). case_match; [|apply preserves_throw].
    do 4 (apply preserves_bind; [apply K; solve_unchanged | intros ?]). apply preserves_bind; [apply consistent_create | intros ?; apply preserves_ret].
  - intros d. unfold saveCredentialDefinition. apply preserves_bind; [apply K; solve_unchanged | intros ?]. case_match; [apply preserves_ret|].
    apply preserves_bind; [apply consistent_store | intros ?; apply preserves_ret].
  - intros did w Hw. by apply (consistent_update w _ (fun s => filter_is did (Some (issuerId s))) archived).
  - intros d w Hw. eapply consistent_update; [exact Hw | | | reflexivity..]; done.
  - intros d l Ht Hl w Hw. unfold updateSchemaLedgerDetails. run. destruct (first (schema_is (ul_id d)) (schema_rows w)); [|done].
    eapply consistent_update; [exact Hw | | | reflexivity..]; [done|]. intros x [Ho _]. split; [exact Ho|]. by intros ? [= <-].
  - destruct e as [m|m|rows]; [destruct m | destruct m | done]; try done; intros _; apply keep_ignore, keep_rpc; [apply consistent_create | apply consistent_store].
Qed.

Lemma events_keep (I : world -> Prop) es w : (forall e, e ∈ es -> preserves I (handle e)) -> I w -> I (serve_all es w).
Proof.
  revert w. induction es as [|e es IH]; intros w H Hw; [done|]. apply IH; [intros e' He'; apply H; by right|]. by apply H; [left|].
Qed.

(** ** Names are distinct *)

Definition schema_key (s : schema) : string * string := (Str.toLowerCase (name s), Str.toLowerCase (version s)).
Definition definition_key (d : credential_definition) : string * string := (cd_schemaLedgerId d, Str.toLowerCase (tag d)).

(** The Indy schemas that are not archived, and the definitions, by what names them, in
    whatever case *)
Definition named_once (w : world) : Prop :=
  NoDup (schema_key <$> List.filter (active INDY) (schema_rows w)) /\ NoDup (definition_key <$> definition_rows w).

Lemma named_tables w w' : unchanged w w' -> named_once w -> named_once w'.
Proof. unfold named_once. by intros (-> & -> & _). Qed.

Lemma contains_same s : Str.contains s s = true.
Proof.
  assert (Str.startsWith s s = true) as H by (induction s as [|c s IH]; [done|]; simpl; by rewrite Ascii.eqb_refl).
  destruct s; [done|]. simpl in *. by rewrite H.
Qed.
Lemma contains_insensitive_same a b : Str.toLowerCase a = Str.toLowerCase b -> contains_insensitive (Some a) (Some b) = true.
Proof. intros E. simpl. rewrite E. apply contains_same. Qed.

(** A change that makes no schema active and renames none *)
Lemma active_update q f l : (forall s, active INDY (f s) = true -> active INDY s = true) -> (forall s, schema_key (f s) = schema_key s) ->
  schema_key <$> List.filter (active INDY) (update_where q f l) `sublist_of` schema_key <$> List.filter (active INDY) l.
Proof.
  intros Ha Hk. induction l as [|s l IH]; [done|]. simpl. set (s' := if q s then f s else s).
  assert (schema_key s' = schema_key s) as E by (unfold s'; destruct (q s); auto).
  assert (active INDY s' = true -> active INDY s = true) as A by (unfold s'; destruct (q s); auto).
  destruct (active INDY s') eqn:E'.
  - rewrite A by done. simpl. rewrite E. by constructor.
  - destruct (active INDY s); [by constructor | done].
Qed.

Lemma named_update w w' q f : named_once w -> (forall s, active INDY (f s) = true -> active INDY s = true) -> (forall s, schema_key (f s) = schema_key s) ->
  schema_rows w' = update_where q f (schema_rows w) -> definition_rows w' = definition_rows w -> named_once w'.
Proof. intros [H1 H2] Ha Hk Es Ed. split; [|by rewrite Ed]. rewrite Es. eapply sublist_NoDup; [exact H1 | by apply active_update]. Qed.

(** [saveSchema] records a schema only if none of the active Indy schemas contains its name and version. *)
Lemma saveSchema_spec r w :
  let '(a, w') := saveSchema r w in
  match a with
  | Throw _ | Ok None => schema_rows w' = schema_rows w /\ definition_rows w' = definition_rows w /\ requests w' = requests w
  | Ok (Some s) =>
      is_schemaName r = of_str (Some (name s)) /\ is_schemaVersion r = of_str (Some (version s)) /\ is_id r = of_str (Some (schemaLedgerId s)) /\
      is_issuerId r = of_str (Some (issuerId s)) /\ attributes s = Json.stringify (is_attributes r) /\ sc_createdBy s = is_createdBy r /\
      sc_orgId s = Some (is_orgId r) /\ ledgerId s = Some (is_ledgerId r) /\ type s = Some (is_type r) /\ alias s = is_alias r /\ isSchemaArchived s = false /\
      (schemaExists (Some (name s)) (Some (version s)) w).1 = Ok [] /\
      schema_rows w' = (schema_rows w ++ [s])%list /\ definition_rows w' = definition_rows w /\ requests w' = requests w
  end.
Proof.
  unfold saveSchema. destruct (any_truthy (is_schemaName r)); simpl; [|done].
  destruct (is_schemaName r) as [[| | |nm| |]|] eqn:En; try done.
  2:{ destruct (is_schemaVersion r) as [[]|]; unfold schemaExists; run; try done; destruct (List.filter _ (schema_rows w)); try done;
    by destruct (is_issuerId r) as [[]|]. }
  destruct (is_schemaVersion r) as [[| | |ver| |]|] eqn:Ev; try done.
  2:{ unfold schemaExists. run. destruct (List.filter _ (schema_rows w)); [|done]. by destruct (is_issuerId r) as [[]|]. }
  unfold schemaExists. run. destruct (List.filter _ (schema_rows w)) eqn:F; [|done].
  destruct (is_issuerId r) as [[| | |issuer| |]|] eqn:Ei; try done. destruct (is_id r) as [[| | |ledger| |]|] eqn:El; try done. simpl.
  match goal with |- context [create_schema ?a ?b ?c ?d ?e ?f ?g ?h ?i ?j ?k ?l w] => pose proof (create_schema_spec a b c d e f g h i j k l w) as H;
    destruct (create_schema a b c d e f g h i j k l w) as [[x|x] w'] end; [|by subst].
  destruct H as (_ & _ & E & Es & Ed & _ & Er). rewrite E. simpl. rewrite F, Es, E. split_and!; done.
Qed.

Lemma named_save r : preserves named_once (saveSchema r).
Proof.
  intros w Hw. pose proof (saveSchema_spec r w) as H. unfold preserves.
  destruct (saveSchema r w) as [[[s|]|e] w']; [|by destruct H as (Es & Ed & _); unfold named_once; simpl; rewrite Es, Ed ..].
  destruct H as (_ & _ & _ & _ & _ & _ & _ & _ & _ & _ & _ & F & Es & Ed & _). destruct Hw as [H1 H2]. split; simpl; [|by rewrite Ed].
  rewrite Es, List.filter_app. simpl. destruct (active INDY s); [|by rewrite app_nil_r]. apply NoDup_new; [done|].
  intros y [Hy Ay]%elem_of_filter_b [= En Ev]. unfold schemaExists in F. run. injection F as F.
  assert (y ∈ []) as []%not_elem_of_nil. rewrite <- F. apply elem_of_filter_b. split; [done|].
  rewrite Ay. simpl. by rewrite En, Ev, !contains_same.
Qed.

Lemma named_define d : preserves named_once (saveCredentialDefinition d).
Proof.
  intros w [H1 H2]. unfold saveCredentialDefinition, getByAttribute.
  destruct (text_filter (sd_schemaLedgerId d)) as [s|] eqn:Es, (text_filter (sd_tag d)) as [t|] eqn:Et.
  2-4: pose proof (store_definition_spec d w) as H; run; destruct (storeCredDefRecord d w) as [[c|?] w']; [|by subst];
    destruct H as (_ & _ & Ed & Eg & _); first [by rewrite <- Ed in Es | by rewrite <- Eg in Et].
  run. destruct (first _ (definition_rows w)) eqn:F; [done|]. pose proof (store_definition_spec d w) as H.
  destruct (storeCredDefRecord d w) as [[c|e] w']; [|by subst]. destruct H as (_ & _ & Ed & Eg & _ & _ & _ & _ & _ & Er & Ec & _). simpl.
  unfold named_once. rewrite Er, Ec. split; [done|]. apply NoDup_new; [done|]. intros y Hy [= El Etag].
  rewrite <- Ed in Es. rewrite <- Eg in Et. injection Es as <-. injection Et as <-.
  rewrite first_None in F. specialize (F y Hy). simpl in F. by rewrite El, String.eqb_refl, Etag, contains_same in F.
Qed.

Lemma named_event e : stores e = false -> preserves named_once (handle e).
Proof.
  intros Hs. apply carried; [apply named_tables | apply named_save | apply named_define | .. | by rewrite Hs].
  - intros did w Hw. eapply named_update; [exact Hw | | | reflexivity..]; [|done]. intros s. unfold active. by rewrite andb_false_r.
  - intros d w Hw. eapply named_update; [exact Hw | | | reflexivity..]; done.
  - intros d l Ht Hl w Hw. unfold updateSchemaLedgerDetails. run. destruct (first (schema_is (ul_id d)) (schema_rows w)); [|done].
    eapply named_update; [exact Hw | | | reflexivity..]; [|done]. intros x. unfold active. simpl. by rewrite bool_decide_eq_false_2 by congruence.
Qed.

(** C21. Whatever messages the schema, credential definition and ledger services serve,
    schemas and definitions have distinct identifiers, belong to an organization that
    exists, a schema's ledger exists and a definition's schema is recorded.  And unless a
    record was stored as it was given, active Indy schemas differ in name or version and
    definitions of a schema in their tag, in whatever case these are written. *)
Theorem ledger_consistent es :
  let w := serve_all es start in
  NoDup (sc_id <$> schema_rows w) /\ NoDup (cd_id <$> definition_rows w) /\
  (forall s, s ∈ schema_rows w -> schema_placed s) /\ (forall d, d ∈ definition_rows w -> definition_placed (schema_rows w) d) /\
  (existsb stores es = true \/ named_once w).
Proof.
  assert (consistent (serve_all es start)) as H by (apply events_keep; [intros e _; apply consistent_event | by split; constructor]).
  destruct H as [H1 H2 _ _ H5 H6]. rewrite Forall_forall in H5. rewrite Forall_forall in H6. split_and!; try done.
  destruct (existsb stores es) eqn:E; [by left | right]. apply events_keep; [|by split; constructor].
  intros e He. apply named_event. destruct (stores e) eqn:Ee; [|done].
  assert (existsb stores es = true); [|congruence]. apply existsb_exists. exists e. by rewrite <- list_elem_of_In.
Qed.

(** ** What is recorded was published *)

Lemma duplicates_nil l : duplicates l = [] -> NoDup l.
Proof.
  unfold duplicates. intros H%map_eq_nil. apply NoDup_alt.
  assert (forall i v, l !! i = Some v -> indexOf v l = Some i) as A.
  { intros i v Hi. destruct (bool_decide (indexOf v l = Some i)) eqn:E; [by apply bool_decide_eq_true in E|]. exfalso.
    assert ((i, v) ∈ List.filter (fun p => negb (bool_decide (indexOf p.2 l = Some p.1))) (imap pair l)) as X; [|by rewrite H in X; apply not_elem_of_nil in X].
    apply elem_of_filter_b. split; [|simpl; by rewrite E]. apply list_elem_of_lookup. exists i. by rewrite list_lookup_imap, Hi. }
  intros i j x Hi%A Hj%A. congruence.
Qed.

(** The checks on a request to create an Indy schema *)
Record request_checked (p : ICreateSchema) (w : world) : Prop := {
  unknown_name : forall s, s ∈ schema_rows w -> active INDY s = true ->
    contains_insensitive (Some (ic_schemaName p)) (Some (name s)) && contains_insensitive (ic_schemaVersion p) (Some (version s)) = false;
  version_is_valid : valid_version (ic_schemaVersion p) = true;
  some_attribute : ic_attributes p <> [];
  attribute_names : NoDup (map (fun a => Str.toLowerCase (Str.trim (ia_name a))) (ic_attributes p));
  display_names : NoDup (map (fun a => Str.toLowerCase (Str.trim (ia_displayName a))) (ic_attributes p));
  one_required : existsb ia_isRequired (ic_attributes p) = true;
}.

Lemma trimmedAttributes_ok attrs ts : trimmedAttributes attrs = Ok ts ->
  ts = map trimmed attrs /\ attrs <> [] /\ NoDup (map (fun a => Str.toLowerCase (Str.trim (ia_name a))) attrs) /\
  NoDup (map (fun a => Str.toLowerCase (Str.trim (ia_displayName a))) attrs).
Proof.
  unfold trimmedAttributes. destruct attrs as [|a l] eqn:Ea; [done|]. rewrite <- Ea.
  destruct (duplicates _) eqn:E1; [|done]. destruct (duplicates (map (fun a => Str.toLowerCase (ia_displayName a)) _)) eqn:E2; [|done]. intros [= <-].
  apply duplicates_nil in E1, E2. rewrite map_map in E1, E2. split_and!; [done | by rewrite Ea | exact E1 | exact E2].
Qed.

(** The answer, or the value it has under [k], is in the state finished. *)
Definition says_finished (k : string) (answer : Json.value) : Prop :=
  Json.get "state" answer = Some (Json.JStr "finished") \/ exists v, Json.get k answer = Some v /\ Json.get "state" v = Some (Json.JStr "finished").

Lemma is_finished_eq v : is_finished v = true -> v = Some (Json.JStr "finished").
Proof. destruct v as [[]|]; try done. by intros <-%String.eqb_eq. Qed.

Lemma prop_get k v x : prop k v = Ok x -> (exists y, v = Some y) /\ (v ≫= Json.get k) = x.
Proof. destruct v as [[]|]; try done; intros [= <-]; eauto. Qed.

Lemma published_finished answer x : published answer = Ok (Some x) -> says_finished "schema" answer.
Proof.
  unfold published. intros (outer & Ho & H)%result_bind_ok. apply result_bind_ok in H as (state & Hs & H).
  apply prop_get in Ho as [_ Ho]. apply prop_get in Hs as [[y ->] Hs]. simpl in Ho, Hs. destruct (is_finished state) eqn:E.
  - right. apply is_finished_eq in E as ->. by exists y.
  - apply result_bind_ok in H as (state' & Hs' & H). destruct (is_finished state') eqn:E'; [|done].
    left. apply is_finished_eq in E' as ->. by apply prop_get in Hs' as [_ Hs'].
Qed.

Lemma defined_finished answer x : defined answer = Ok (Some x) -> says_finished "credentialDefinition" answer.
Proof.
  unfold defined. intros (state & Hs & H)%result_bind_ok. destruct (is_finished state) eqn:E.
  - left. apply is_finished_eq in E as ->. by apply prop_get in Hs as [_ Hs].
  - apply result_bind_ok in H as (state' & Hs' & H). destruct (is_finished state') eqn:E'; [|done].
    right. apply is_finished_eq in E' as ->. apply prop_get in Hs' as [[y Hy] Hs']. exists y. split; [exact Hy|]. by rewrite Hy in Hs'.
Qed.

(** A row is what the agent answered, on the ledger of the issuing DID. *)
Definition records_answer (p : ICreateSchema) (agent : org_agents) (userId orgId : string) (answer : Json.value) (s : schema) : Prop :=
  says_finished "schema" answer /\
  published answer = Ok (Some (of_str (Some (name s)), of_str (Some (version s)), of_str (Some (schemaLedgerId s)), of_str (Some (issuerId s)))) /\
  attributes s = Json.stringify (Json.JArr (map attribute_json (map trimmed (ic_attributes p)))) /\
  sc_orgId s = Some orgId /\ sc_createdBy s = userId /\ type s = Some INDY /\ alias s = None /\ isSchemaArchived s = false /\
  exists namespace l, indy_namespace (issuing_did (ic_orgDid p) (orgDid agent)) = Ok namespace /\
    l ∈ ledger_rows /\ indyNamespace l = Some namespace /\ ledgerId s = Some (l_id l).

Definition asked_agent (p : ICreateSchema) (agent : org_agents) (orgId : string) (payload : list (string * any)) (w w' : world) : Prop :=
  agent ∈ agent_rows w /\ oa_orgId agent = Some orgId /\
  (exists ty, indy_payload ty agent (issuing_did (ic_orgDid p) (orgDid agent)) (map trimmed (ic_attributes p)) (Str.trim (ic_schemaName p)) (ic_schemaVersion p)
    orgId = Some payload) /\
  requests w' = (requests w ++ [AskAgent "agent-create-schema" (Some (obj payload))])%list.

(** No definition of the schema has a tag that contains the one asked for. *)
Definition tag_free (p : CreateCredentialDefinition) (w : world) : Prop :=
  forall d, d ∈ definition_rows w -> cd_schemaLedgerId d = cc_schemaLedgerId p -> contains_insensitive (Some (Str.trim (cc_tag p))) (Some (tag d)) = false.

Definition asked_to_define (p : CreateCredentialDefinition) (agent : org_agents) (payload : list (string * any)) (w w' : world) : Prop :=
  agent ∈ agent_rows w /\ oa_orgId agent = Some (cc_orgId p) /\
  (exists ty, definition_payload ty agent (issuing_did (cc_orgDid p) (orgDid agent)) (Str.trim (cc_tag p)) (cc_schemaLedgerId p) (cc_orgId p) = Some payload) /\
  requests w' = (requests w ++ [AskAgent "agent-create-credential-definition" (Some (obj payload))])%list.

(** The agent was asked and nothing was recorded. *)
Ltac refused :=
  right; split; [assumption|];
  match goal with
  | A : forall _, _ -> asked_agent _ ?a _ ?pl _ _ |- _ => exists a, pl; split; [by apply A | by left]
  | A : forall _, _ -> asked_to_define _ ?a ?pl _ _ |- _ => exists a, pl; split; [by apply A | by left]
  end.

Lemma publish_schema_spec p userId orgId w :
  let '(r, w') := publish_schema p (map trimmed (ic_attributes p)) userId orgId w in
  (is_ok r = false /\ w' = w) \/
  existsb ia_isRequired (ic_attributes p) = true /\
  exists agent payload, asked_agent p agent orgId payload w w' /\
    ((is_ok r = false /\ schema_rows w' = schema_rows w) \/
     exists s answer, r = Ok s /\ on_request (requests w') = inl (Some answer) /\ records_answer p agent userId orgId answer s /\
       schema_rows w' = (schema_rows w ++ [s])%list).
Proof.
  unfold publish_schema, getAgentDetailsByOrgId. run. destruct (first (agent_of orgId) (agent_rows w)) as [agent|] eqn:Ea; [|by left].
  set (did := issuing_did (ic_orgDid p) (orgDid agent)). unfold getAgentType, getAgentDetailsByOrgId. run. rewrite Ea.
  destruct (org_known orgId); [|by left]. unfold getOrgAgentType. destruct (orgAgentTypeId agent) as [ty|]; [|by left].
  run. destruct (first _ orgAgentTypes) as [[i agentType]|]; [|by left]. run.
  destruct (existsb ia_isRequired (map trimmed (ic_attributes p))) eqn:Er; [|by left]. simpl.
  destruct (indy_payload agentType agent did _ _ _ orgId) as [payload|] eqn:Ep; [|by simpl; left]. unfold _createSchema, ask_agent. run.
  assert (existsb ia_isRequired (ic_attributes p) = true) as Hr.
  { apply existsb_exists in Er as (x & (y & <- & Hy)%in_map_iff & Hr). apply existsb_exists. by exists y. }
  apply first_Some in Ea as [Hin Ha%bool_decide_eq_true].
  assert (forall w', requests w' = (requests w ++ [AskAgent "agent-create-schema" (Some (obj payload))])%list ->
    asked_agent p agent orgId payload w w') as A by (intros w' E; split_and!; [done | done | by exists agentType | done]).
  destruct (on_request _) as [[answer|]|e] eqn:Eo; simpl; [|refused ..].
  destruct (indy_namespace did) as [ns|] eqn:En; simpl; [|refused].
  unfold getLedgerByNamespace. run. destruct (first _ ledger_rows) as [l|] eqn:El; simpl; [|refused].
  destruct (published answer) as [[[[[nm ver] id] issuer]|]|] eqn:Eq; simpl; [|refused ..].
  match goal with |- context [saveSchema ?r ?w0] => pose proof (saveSchema_spec r w0) as H; destruct (saveSchema r w0) as [[[s|]|e] w'] end.
  2-3: destruct H as (Es & _ & Eq'); simpl; refused.
  simpl in H. destruct H as (-> & -> & -> & -> & Hat & Hby & Ho & Hl & Ht & Hal & Har & _ & Hs & _ & Hq). simpl. right. split; [done|].
  exists agent, payload. split; [by apply A|]. right. exists s, answer. rewrite Hq. unfold records_answer. split_and!; try done.
  - by eapply published_finished.
  - apply first_Some in El as [Hl1 Hl2%bool_decide_eq_true]. by exists ns, l.
Qed.

(** C22. A request to create an Indy schema is refused without asking anybody, or it passed
    every check (no active schema contains its name and version, the version is a number,
    there are attributes, with distinct names, one required) and the organization's agent
    was asked once to publish it with trimmed names.  A row appears only when the agent's
    answer says the publication is finished, holds what that answer says, for the asking
    organization and user and the ledger of the issuing DID; otherwise the schemas stay. *)
Theorem schema_published p al userId orgId w :
  let '(r, w') := createSchema (IndySchema p al) userId orgId w in
  (is_ok r = false /\ w' = w) \/
  request_checked p w /\ exists agent payload, asked_agent p agent orgId payload w w' /\
    ((is_ok r = false /\ schema_rows w' = schema_rows w) \/
     exists s answer, r = Ok (Some s) /\ on_request (requests w') = inl (Some answer) /\ records_answer p agent userId orgId answer s /\
       schema_rows w' = (schema_rows w ++ [s])%list).
Proof.
  unfold createSchema, createIndySchema, schemaExists. run. destruct (List.filter _ (schema_rows w)) eqn:F; simpl; [|by left].
  destruct (valid_version (ic_schemaVersion p)) eqn:Ev; simpl; [|by left].
  destruct (trimmedAttributes (ic_attributes p)) as [ts|] eqn:Et; simpl; [|by left]. apply trimmedAttributes_ok in Et as (-> & Hne & Hn & Hd).
  pose proof (publish_schema_spec p userId orgId w) as H. destruct (publish_schema p _ userId orgId w) as [r w'].
  assert (request_checked p w \/ existsb ia_isRequired (ic_attributes p) = false) as C.
  { destruct (existsb ia_isRequired (ic_attributes p)) eqn:E; [left | by right]. split; try done. intros s Hs Ha. destruct (_ && _) eqn:Ec; [|done].
    exfalso. apply (not_elem_of_nil s). rewrite <- F. apply elem_of_filter_b. split; [done|]. by rewrite Ha. }
  destruct H as [[Hr ->]|(Hreq & agent & payload & A & [[Hr Hs]|(s & answer & -> & H)])].
  - destruct r; [done|]. by left.
  - destruct r; [done|]. right. destruct C as [C|]; [|congruence]. split; [exact C|]. exists agent, payload. split; [exact A | by left].
  - right. destruct C as [C|]; [|congruence]. split; [exact C|]. exists agent, payload. split; [exact A|]. right. by exists s, answer.
Qed.

(** *** Definitions *)

(** A row is what the agent answered, for the recorded schema that was asked for. *)
Definition records_definition (p : CreateCredentialDefinition) (userId : string) (answer : Json.value) (w : world) (d : credential_definition) : Prop :=
  says_finished "credentialDefinition" answer /\
  defined answer = Ok (Some (of_str (Some (tag d)), of_str (Some (cd_schemaLedgerId d)), of_str (Some (credentialDefinitionId d)))) /\
  cd_orgId d = Some (cc_orgId p) /\ cd_createdBy d = userId /\ revocable d = default false (cc_revocable p) /\
  exists s, s ∈ schema_rows w /\ schemaLedgerId s = cc_schemaLedgerId p /\ cd_schemaId d = sc_id s.

Lemma saveCredentialDefinition_spec d w :
  let '(a, w') := saveCredentialDefinition d w in
  schema_rows w' = schema_rows w /\ requests w' = requests w /\
  match a with
  | Throw _ | Ok None => definition_rows w' = definition_rows w
  | Ok (Some c) =>
      definition_placed (schema_rows w) c /\ of_str (Some (cd_schemaLedgerId c)) = sd_schemaLedgerId d /\ of_str (Some (tag c)) = sd_tag d /\
      of_str (Some (credentialDefinitionId c)) = sd_credentialDefinitionId d /\ cd_schemaId c = sd_schemaId d /\ cd_orgId c = Some (sd_orgId d) /\
      cd_createdBy c = sd_createdBy d /\ revocable c = default false (sd_revocable d) /\ definition_rows w' = (definition_rows w ++ [c])%list
  end.
Proof.
  unfold saveCredentialDefinition, getByAttribute. pose proof (store_definition_spec d w) as H.
  assert (let '(a, w') := (saved ← storeCredDefRecord d; mret (Some saved)) w in
    schema_rows w' = schema_rows w /\ requests w' = requests w /\
    match a with
    | Throw _ | Ok None => definition_rows w' = definition_rows w
    | Ok (Some c) =>
        definition_placed (schema_rows w) c /\ of_str (Some (cd_schemaLedgerId c)) = sd_schemaLedgerId d /\ of_str (Some (tag c)) = sd_tag d /\
        of_str (Some (credentialDefinitionId c)) = sd_credentialDefinitionId d /\ cd_schemaId c = sd_schemaId d /\ cd_orgId c = Some (sd_orgId d) /\
        cd_createdBy c = sd_createdBy d /\ revocable c = default false (sd_revocable d) /\ definition_rows w' = (definition_rows w ++ [c])%list
    end) as S.
  { rewrite run_bind. destruct (storeCredDefRecord d w) as [[c|e] w']; [|by subst]. destruct H as (_ & ? & ? & ? & ? & ? & ? & ? & ? & ? & ? & _ & ?). by split_and!. }
  destruct (text_filter (sd_schemaLedgerId d)), (text_filter (sd_tag d)); try exact S.
  rewrite run_bind. unfold gets. destruct (first _ (definition_rows w)); [done | exact S].
Qed.

#[local] Arguments definition_payload : simpl never.
#[local] Arguments defined : simpl never.

(** A request to create a credential definition is refused without asking anybody, or no
    definition of the schema has a tag that contains the one asked for and the
    organization's agent was asked once to publish it.  A row appears only when the agent's
    answer says the publication is finished, and then it holds what that answer says, for
    the asking organization and user and a recorded schema; otherwise the definitions stay.
    Identifiers of organizations are UUIDs, so none is 0. *)
Theorem definition_published p userId w (Huuid : org_known "0" = false) :
  let '(r, w') := createCredentialDefinition p userId w in
  (is_ok r = false /\ w' = w) \/
  tag_free p w /\ exists agent payload, asked_to_define p agent payload w w' /\
    ((is_ok r = false /\ definition_rows w' = definition_rows w) \/
     exists d answer, r = Ok d /\ on_request (requests w') = inl (Some answer) /\ records_definition p userId answer w d /\
       definition_rows w' = (definition_rows w ++ [d])%list).
Proof.
  unfold createCredentialDefinition, getAgentDetailsByOrgId. run. destruct (first (agent_of (cc_orgId p)) (agent_rows w)) as [agent|] eqn:Ea; simpl; [|by left].
  destruct (first _ (definition_rows w)) eqn:F; simpl; [by left|]. assert (tag_free p w) as T.
  { intros d Hd Hl. rewrite first_None in F. specialize (F d Hd). simpl in F. by rewrite Hl, String.eqb_refl in F. }
  unfold getAgentType, getAgentDetailsByOrgId. run. rewrite Ea. destruct (org_known (cc_orgId p)); simpl; [|by left].
  unfold publish_definition, getOrgAgentType. destruct (orgAgentTypeId agent) as [ty|]; simpl; [|by left].
  destruct (first _ orgAgentTypes) as [[i agentType]|]; run; [|by left].
  destruct (definition_payload agentType agent (issuing_did (cc_orgDid p) (orgDid agent)) (Str.trim (cc_tag p)) (cc_schemaLedgerId p) (cc_orgId p))
    as [payload|] eqn:Ep; simpl; [|by left]. unfold _createCredentialDefinition, ask_agent. run.
  apply first_Some in Ea as [Hin Ha%bool_decide_eq_true].
  assert (forall w', requests w' = (requests w ++ [AskAgent "agent-create-credential-definition" (Some (obj payload))])%list ->
    asked_to_define p agent payload w w') as A by (intros w' E; split_and!; [done | done | by exists agentType | done]).
  destruct (on_request _) as [[answer|]|e] eqn:Eo; simpl; [|refused ..].
  unfold getSchemaBySchemaId. run. destruct (first _ (schema_rows w)) as [s|] eqn:Es; simpl; [|refused].
  destruct (defined answer) as [[[[tagged ledger] id]|]|] eqn:Eq; simpl; [| |refused];
    match goal with |- context [saveCredentialDefinition ?x ?w0] => pose proof (saveCredentialDefinition_spec x w0) as H;
      destruct (saveCredentialDefinition x w0) as [[[d|]|e] w'] end; simpl in H; destruct H as (Hs & Hr & H); simpl.
  2-3,5-6: refused.
  - destruct H as (_ & Hl & Ht & Hc & Hi & Ho & Hb & Hv & Hd). right. split; [exact T|]. exists agent, payload. split; [by apply A|]. right. exists d, answer. rewrite Hr. unfold records_definition.
    simpl. rewrite Ht, Hl, Hc. split_and!; try done; [by eapply defined_finished|]. apply first_Some in Es as [Es Ex]. simpl in Ex. apply bool_decide_eq_true in Ex; injection Ex as Ex. by exists s.
  - destruct H as (((o & Ho & Hk) & _) & _ & _ & _ & _ & Ho' & _). congruence.
Qed.

(** ** Migration *)

(** A W3C schema that is migrated is the organization's, its agent agreed, and the row gets the
    agent's DID, its ledger and the type of the target; the other rows stay.  A refusal changes no row. *)
Theorem migration_effect schemaId target userId orgId w :
  let '(r, w') := migrateW3CSchema schemaId target userId orgId w in
  definition_rows w' = definition_rows w /\
  ((is_ok r = false /\ schema_rows w' = schema_rows w) \/
   exists s l did, s ∈ schema_rows w /\ sc_orgId s = Some orgId /\ schemaLedgerId s = file_url schemaId /\ checkDidLedgerAndNetwork target did = true /\
     l ∈ ledger_rows /\ (forall n, networkNamespace did = Some n -> indyNamespace l = Some n) /\
     is_Some (match on_request (requests w') with inl v => Some v | inr _ => None end) /\
     schema_rows w' = update_where (schema_is (sc_id s)) (migrated (LedgerDetails (sc_id s) userId did target) (l_id l)) (schema_rows w)).
Proof.
  unfold migrateW3CSchema, getAgentDetailsByOrgId, getSchemaByOrgSchemaUrl. run.
  destruct (first (agent_of orgId) (agent_rows w)) as [agent|]; simpl; [|by split; [|left]].
  destruct (first _ (schema_rows w)) as [s|] eqn:Es; simpl; [|by split; [|left]].
  destruct (checked_did target (orgDid agent)) as [did|] eqn:Ed; simpl; [|by split; [|left]].
  unfold _migrateW3CSchema, ask_agent. run. destruct (on_request _) as [v|] eqn:Eo; simpl; [|by split; [|left]].
  unfold updateW3CSchemas, getLedgerByNamespace. run. destruct (first _ ledger_rows) as [l|] eqn:El; simpl; [|by split; [|left]].
  unfold updateSchemaLedgerDetails. run. destruct (first (schema_is (sc_id s)) (schema_rows w)) as [s'|] eqn:Es'; simpl; [|by split; [|left]].
  split; [done|]. right. apply first_Some in Es as [Hs (Ho%bool_decide_eq_true & Hu%String.eqb_eq)%andb_true_iff].
  apply first_Some in El as [Hl Hn]. exists s, l, did. rewrite Eo. split_and!; try done.
  - unfold checked_did in Ed. destruct (orgDid agent) as [d|]; [|done]. destruct (checkDidLedgerAndNetwork target d) eqn:E; [|done]. by injection Ed as ->.
  - intros n E. rewrite E in Hn. by apply bool_decide_eq_true in Hn.
Qed.
End services.

(** ** A deployment *)

Module LedgerSample.
#[local] Instance sample_uuid : UuidSource.
Proof. refine {| uuid := pretty |}. Defined.
#[local] Instance sample_syntax : RegExpSyntax := {| valid_regexp := fun _ => true |}.

Definition str (s : string) : Json.value := Json.JStr s.
Definition degree : Json.value :=
  Json.JObj [("schema", Json.JObj [("state", str "finished"); ("schemaId", str "did:indy:bcovrin:testnet:A/SCHEMA/Degree/1.0");
    ("schema", Json.JObj [("name", str "Degree"); ("version", str "1.0"); ("issuerId", str "did:indy:bcovrin:testnet:A")])])].
Definition degree_definition : Json.value :=
  Json.JObj [("state", str "finished"); ("credentialDefinitionId", str "did:indy:bcovrin:testnet:A/CLAIM_DEF/7/v1");
    ("credentialDefinition", Json.JObj [("tag", str "v1"); ("schemaId", str "did:indy:bcovrin:testnet:A/SCHEMA/Degree/1.0"); ("issuerId", str "did:indy:bcovrin:testnet:A")])].

(** The agent publishes what it is asked for; the file server keeps a schema as [f1] and gives
    it back with the title [Degree]. *)
#[local] Instance sample : Platform := {|
  orgs := [Organisation "acme" "Acme" None; Organisation "web" "Web" None];
  first_user := fun _ => Some "Ann";
  ledger_rows := [Ledger "l1" "BCovrin" (Some "bcovrin:testnet") None; Ledger "l2" "None" (Some NO_LEDGER) None; Ledger "l3" "Sepolia" (Some "ethr:sepolia") None];
  orgAgentTypes := [("t1", DEDICATED); ("t2", SHARED)];
  SCHEMA_FILE_SERVER_URL := Some "https://files/";
  SCHEMA_FILE_SERVER_TOKEN := Some "secret";
  on_request := fun qs =>
    match last qs with
    | Some (AskAgent "agent-create-schema" _) => inl (Some degree)
    | Some (AskAgent "agent-create-credential-definition" _) => inl (Some degree_definition)
    | _ => inl (Some (Json.JObj []))
    end;
  on_http := fun qs =>
    match last qs with
    | Some (Http (Request POST _ _ _)) => inl (Some (Json.JObj [("data", Json.JObj [("schemaId", str "f1")])]))
    | _ => inl (Some (Json.JObj [("title", str "Degree")]))
    end;
  lost := fun _ => None;
  clock := Z.of_nat;
  schema_order := fun _ _ a b => (sc_created a <=? sc_created b)%Z;
  definition_order := fun _ _ a b => (cd_created a <=? cd_created b)%Z;
|}.

Definition agent_row (org type did : string) : org_agents := OrgAgent ("a" +:+ org) (Some org) (Some "http://agent") (Some "tenant") (Some did) (Some type) None "u".
Definition agents : event := AgentsBecome [agent_row "acme" "t1" "did:indy:bcovrin:testnet:A"; agent_row "web" "t2" "did:web:example.com"].
Definition attribute (n : string) : IAttributeValue := Attribute n "string" n true.
Definition indy (n v : string) : IGenericSchema := IndySchema (CreateSchema n (Some v) [attribute " Name"; attribute "Year "] None) (Some "shown").
Definition json (n : string) : IGenericSchema := JsonSchema (CreateW3C [] (Json.JArr []) n "d" LEDGER_LESS None) None.
Definition create (s : IGenericSchema) (org : string) : event := ToSchema (CreateSchemaMessage s "ann" org).
Definition definition : CreateCredentialDefinition := CreateCredDef " v1 " "did:indy:bcovrin:testnet:A/SCHEMA/Degree/1.0" None "acme" (Some true).

Definition issued : world := serve_all [agents; create (indy " Degree" "1.0") "acme"; ToDefinition (CreateDefinition definition "ann")] start.

(** The alias of an Indy schema is lost. *)
Example recorded :
  map (fun s => (name s, alias s, ledgerId s, publisherDid s)) (schema_rows issued) = [("Degree", None, Some "l1", "A")] /\
  map (fun d => (tag d, cd_schemaId d, revocable d)) (definition_rows issued) = [("v1", "0", true)] /\ length (requests issued) = 2%nat.
Proof. vm_compute. done. Qed.

(** A name that is part of the name of another schema is refused as if it existed. *)
Example part_of_name_refused : (createSchema (indy "gree" "1.0") "ann" "acme" issued).1 = Throw (Exn RpcException "Schema already exists" (Some 409) None).
Proof. vm_compute. done. Qed.

(** A W3C schema is uploaded and then refused, when an Indy schema of another organization has its title. *)
Example uploaded_then_refused :
  (createSchema (json "Degree") "bob" "web" issued).1 = Throw (Exn RpcException "Schema already exists" (Some 409) None) /\
  length (requests (serve issued (create (json "Degree") "web"))) = 4%nat /\ schema_rows (serve issued (create (json "Degree") "web")) = schema_rows issued.
Proof. vm_compute. done. Qed.

(** A migrated schema has the target as its type: it is no template any more, and its name is free. *)
Definition migrated_world : world :=
  serve_all [agents; create (json "Degree") "web"; AgentsBecome [agent_row "web" "t2" "did:ethr:sepolia:0x1"]; ToSchema (MigrateW3CSchema "f1" ETHEREUM_W3C "bob" "web")] start.
Example migrated_unlisted :
  map (fun s => (name s, type s, ledgerId s)) (schema_rows migrated_world) = [("Degree", Some ETHEREUM_W3C, Some "l3")] /\
  (getAllCredentialTemplates "web" W3C_Schema migrated_world).1 = Ok (inl []) /\ (w3cSchemaExists "Degree" "1.0" "web" migrated_world).1 = Ok false.
Proof. vm_compute. done. Qed.

Example ledger_consistent_witness : length (schema_rows issued) = 1%nat /\ named_once issued.
Proof.
  split; [vm_compute; reflexivity|]. destruct (ledger_consistent [agents; create (indy " Degree" "1.0") "acme"; ToDefinition (CreateDefinition definition "ann")])
    as (_ & _ & _ & _ & [H|H]); [discriminate H | exact H].
Defined.

Example definition_published_witness :
  exists agent payload d, asked_to_define definition agent payload (serve_all [agents; create (indy " Degree" "1.0") "acme"] start) issued /\
    definition_rows issued = [d] /\ tag d = "v1".
Proof.
  pose proof (definition_published definition "ann" (serve_all [agents; create (indy " Degree" "1.0") "acme"] start)) as H.
  assert (org_known "0" = false) as H0 by reflexivity. specialize (H H0).
  assert ((createCredentialDefinition definition "ann" (serve_all [agents; create (indy " Degree" "1.0") "acme"] start)).2 = issued) as Ew by (vm_compute; reflexivity).
  destruct (createCredentialDefinition definition "ann" _) as [r w'] eqn:E. simpl in Ew. subst w'.
  destruct H as [[_ Hw]|(_ & agent & payload & A & _)].
  - exfalso. assert (length (requests issued) = 2%nat) as H2 by (vm_compute; reflexivity). rewrite Hw in H2. vm_compute in H2. discriminate H2.
  - exists agent, payload. eexists. split; [exact A|]. split; [vm_compute; reflexivity | reflexivity].
Defined.
End LedgerSample.
