(* ===== verification/Webhook.v ===== *)
(** * Webhooks

    [webhook.service.ts] with [webhook.repository.ts] and [url-validator.util.ts]: an
    organization's events are posted to the URL it registered, signed with its secret, if
    the URL leads out of the platform's network. *)

From S2P Require Import Prelude Js Regex Table CommonService CastHelper.

Open Scope Z_scope.

(** ** Addresses

    An expression without [$] matches a prefix.  The ones with the flag [i] are tested on the
    address in lower case. *)

Definition begins (r : Regex.re) (s : string) : bool := Regex.test (Regex.Cat r (Regex.Star (Regex.Cls (fun _ => true)))) s.

Definition d : Regex.re := Regex.Cls Regex.digit.
Definition range (a b : ascii) : Regex.re := Regex.Cls (Regex.in_range a b).
Definition octets : Regex.re := Regex.seq [Regex.between 1 3 d; Regex.str "."; Regex.between 1 3 d; Regex.str "."; Regex.between 1 3 d; Regex.str "."; Regex.between 1 3 d].
Definition ipv4Mapped : Regex.re := Regex.Cat (Regex.str "::ffff:") octets.

Definition private_ipv4 : list Regex.re := [
  Regex.str "0.";
  Regex.seq [Regex.str "100.";
    Regex.any [Regex.Cat (Regex.str "6") (range "4" "9"); Regex.Cat (range "7" "9") (range "0" "9");
               Regex.seq [Regex.str "1"; Regex.Cls (Regex.one_of "01"); range "0" "9"]; Regex.Cat (Regex.str "12") (range "0" "7")];
    Regex.str "."];
  Regex.str "127.";
  Regex.str "10.";
  Regex.seq [Regex.str "172.";
    Regex.any [Regex.Cat (Regex.str "1") (range "6" "9"); Regex.Cat (Regex.str "2") (range "0" "9"); Regex.Cat (Regex.str "3") (range "0" "1")];
    Regex.str "."];
  Regex.str "192.168.";
  Regex.str "169.254."].

Definition hex : Regex.re := Regex.Cls (fun c => Regex.digit c || Regex.in_range "a" "f" c).
Definition loopback : Regex.re := Regex.any [Regex.str "::1"; Regex.str "0:0:0:0:0:0:0:1"].
Definition unspecified : Regex.re := Regex.any [Regex.str "::"; Regex.str "0:0:0:0:0:0:0:0"].
Definition private_ipv6 : list Regex.re := [
  Regex.str "fe80:";
  Regex.seq [Regex.str "f"; Regex.Cls (Regex.one_of "cd"); hex; hex; Regex.str ":"]].

Definition private_plain (ip : string) : bool :=
  existsb (fun r => begins r ip) private_ipv4 || Regex.test loopback (Str.toLowerCase ip) || Regex.test unspecified (Str.toLowerCase ip) ||
  existsb (fun r => begins r (Str.toLowerCase ip)) private_ipv6.

(** The recursion takes one turn: what follows [::ffff:] is not mapped again. *)
Definition isPrivateIp (ip : string) : bool :=
  if Regex.test ipv4Mapped (Str.toLowerCase ip) then private_plain (String.substring 7 (String.length ip) ip) else private_plain ip.

(** *** What the expressions say of an IPv4 address *)

(** The ranges the comments name: 0/8, 10/8, 100.64/10, 127/8, 169.254/16, 172.16/12, 192.168/16 *)
Definition private_range (a b : nat) : bool :=
  ((a =? 0) || (a =? 10) || (a =? 127) || ((a =? 100) && (64 <=? b) && (b <=? 127)) || ((a =? 169) && (b =? 254)) ||
   ((a =? 172) && (16 <=? b) && (b <=? 31)) || ((a =? 192) && (b =? 168)))%nat.

Definition dotted (a b c e : nat) : string := pretty a +:+ "." +:+ pretty b +:+ "." +:+ pretty c +:+ "." +:+ pretty e.

(** Reading a part of a text, and expressions that are decided after it *)
Fixpoint derivs (r : Regex.re) (s : string) : Regex.re := match s with EmptyString => r | String c s => derivs (Regex.deriv c r) s end.
Definition decided (r : Regex.re) : option bool :=
  match r with Regex.Void => Some false | Regex.Star (Regex.Cls p) => if forallb p Json.all_chars then Some true else None | _ => None end.

Lemma test_app r s t : Regex.test r (s +:+ t) = Regex.test (derivs r s) t.
Proof. revert r. induction s as [|c s IH]; intros r; [done|]. apply IH. Qed.

Lemma decided_test r b t : decided r = Some b -> Regex.test r t = b.
Proof.
  destruct r as [| |p|x y|x y|x]; try done; cbn [decided].
  - intros [= <-]. induction t as [|c t IH]; [done | exact IH].
  - destruct x as [| |p| | |]; try done. destruct (forallb p Json.all_chars) eqn:E; [|done]. intros [= <-]. rewrite forallb_forall in E.
    induction t as [|c t IH]; [done|]. simpl. rewrite (E c (Json.in_all_chars c)). exact IH.
Qed.

Definition tail : Regex.re := Regex.Star (Regex.Cls (fun _ => true)).
(** All expressions of [private_plain], and that of a mapped address *)
Definition prefix_tests : list Regex.re := map (fun r => Regex.Cat r tail) private_ipv4.
Definition other_tests : list Regex.re := [loopback; unspecified; ipv4Mapped] ++ map (fun r => Regex.Cat r tail) private_ipv6.

(** The verdict of the expressions on every text that begins with [p], if that decides it *)
Definition verdict (p : string) : option bool :=
  match mapM (fun r => decided (derivs r p)) prefix_tests with
  | Some ds => if forallb (fun r => bool_decide (decided (derivs r (Str.toLowerCase p)) = Some false)) other_tests then Some (existsb id ds) else None
  | None => None
  end.

(** The first numbers that do not decide alone *)
Definition ambiguous (a : nat) : bool := existsb (Nat.eqb a) [100; 169; 172; 192]%nat.

Lemma verdicts :
  let texts := map (fun n => (n, pretty n +:+ ".")) (seq 0 256) in
  forallb (fun x => if ambiguous x.1
    then forallb (fun y => bool_decide (verdict (x.2 +:+ y.2) = Some (private_range x.1 y.1))) texts
    else bool_decide (verdict x.2 = Some (private_range x.1 0))) texts = true.
Proof. vm_compute. reflexivity. Qed.

Lemma toLowerCase_app s t : Str.toLowerCase (s +:+ t) = Str.toLowerCase s +:+ Str.toLowerCase t.
Proof. induction s as [|c s IH]; [done|]. simpl. by rewrite IH. Qed.

Lemma verdict_plain p b t : verdict p = Some b -> private_plain (p +:+ t) = b /\ Regex.test ipv4Mapped (Str.toLowerCase (p +:+ t)) = false.
Proof.
  unfold verdict. destruct (mapM _ prefix_tests) as [ds|] eqn:E; [|done]. destruct (forallb _ other_tests) eqn:Ho; [|done]. intros [= <-].
  assert (forall r, r ∈ other_tests -> Regex.test r (Str.toLowerCase (p +:+ t)) = false) as H.
  { intros r Hr. rewrite forallb_forall in Ho. rewrite toLowerCase_app, test_app.
    apply decided_test. by apply (bool_decide_eq_true_1 _), Ho, list_elem_of_In. }
  unfold private_plain. rewrite (H loopback), (H unspecified), !orb_false_r by (unfold other_tests; set_solver).
  assert (existsb (fun r => begins r (Str.toLowerCase (p +:+ t))) private_ipv6 = false) as ->.
  { apply not_true_iff_false. intros (r & Hr%list_elem_of_In & Ht)%existsb_exists. unfold begins in Ht.
    rewrite H in Ht; [done|]. unfold other_tests. apply elem_of_app. right. apply list_elem_of_fmap. by exists r. }
  split; [|apply H; unfold other_tests; set_solver]. rewrite orb_false_r. apply mapM_Some in E. clear - E. unfold prefix_tests in E. revert ds E.
  induction private_ipv4 as [|r l IH]; intros ds E; simpl in E; [by apply Forall2_nil_inv_l in E as ->|].
  apply Forall2_cons_inv_l in E as (b & bs & Hb & Hbs & ->). simpl. f_equal; [|by apply IH].
  unfold begins. rewrite test_app. by apply decided_test.
Qed.

Lemma dotted_verdict a b : (a < 256)%nat -> (b < 256)%nat -> exists p t, verdict p = Some (private_range a b) /\
  forall c e, dotted a b c e = p +:+ t +:+ pretty c +:+ "." +:+ pretty e.
Proof.
  intros Ha Hb. pose proof verdicts as H. cbv zeta in H. rewrite forallb_forall in H.
  assert (forall n, (n < 256)%nat -> In (n, pretty n +:+ ".") (map (fun n => (n, pretty n +:+ ".")) (seq 0 256))) as Hin.
  { intros n Hn. apply in_map_iff. exists n. split; [done|]. apply in_seq. lia. }
  specialize (H _ (Hin a Ha)). cbn [fst snd] in H. destruct (ambiguous a) eqn:Ea.
  - rewrite forallb_forall in H. specialize (H _ (Hin b Hb)). apply bool_decide_eq_true in H. cbn [fst snd] in H.
    exists ((pretty a +:+ ".") +:+ (pretty b +:+ ".")), "". split; [exact H|]. intros c e. unfold dotted.
    by rewrite !Json.app_assoc_str.
  - apply bool_decide_eq_true in H. exists (pretty a +:+ "."), (pretty b +:+ "."). split.
    + rewrite H. f_equal. unfold ambiguous in Ea. simpl in Ea. unfold private_range. repeat (apply orb_false_iff in Ea as [?E Ea]).
      by rewrite E, E0, E1, E2.
    + intros c e. unfold dotted. by rewrite !Json.app_assoc_str.
Qed.

(** The number of an octet, in a text *)
Lemma octet_lang n : (n < 256)%nat -> Regex.lang (Regex.between 1 3 d) (pretty n).
Proof.
  intros Hn. apply Regex.test_spec.
  assert (forallb (fun n => Regex.test (Regex.between 1 3 d) (pretty n)) (seq 0 256) = true) as H by (vm_compute; reflexivity).
  rewrite forallb_forall in H. apply H, in_seq. lia.
Qed.
Lemma str_lang w : Regex.lang (Regex.str w) w.
Proof. by apply Regex.lang_str. Qed.
Lemma octet_lower n : (n < 256)%nat -> Str.toLowerCase (pretty n) = pretty n.
Proof.
  intros Hn. assert (forallb (fun n => String.eqb (Str.toLowerCase (pretty n)) (pretty n)) (seq 0 256) = true) as H by (vm_compute; reflexivity).
  rewrite forallb_forall in H. apply String.eqb_eq, H, in_seq. lia.
Qed.

Lemma dotted_lower a b c e : (a < 256)%nat -> (b < 256)%nat -> (c < 256)%nat -> (e < 256)%nat -> Str.toLowerCase (dotted a b c e) = dotted a b c e.
Proof. intros Ha Hb Hc He. unfold dotted. rewrite !toLowerCase_app, !octet_lower by done. reflexivity. Qed.

Lemma dotted_lang a b c e : (a < 256)%nat -> (b < 256)%nat -> (c < 256)%nat -> (e < 256)%nat -> Regex.lang octets (dotted a b c e).
Proof.
  intros Ha Hb Hc He. unfold octets, Regex.seq, dotted. cbn [foldr]. rewrite <- (Regex.app_str_nil (pretty e)).
  do 6 (apply Regex.l_cat; [first [by apply octet_lang | apply str_lang]|]). apply Regex.l_cat; [by apply octet_lang | constructor].
Qed.

Lemma substring_longer s n : (String.length s <= n)%nat -> String.substring 0 n s = s.
Proof. revert n. induction s as [|c s IH]; intros [|n] H; simpl in *; try done; [lia|]. rewrite IH by lia. done. Qed.
Lemma substring_mapped s : String.substring 7 (String.length ("::ffff:" +:+ s)) ("::ffff:" +:+ s) = s.
Proof. simpl. apply substring_longer. lia. Qed.

(** C37. An IPv4 address, alone or mapped to IPv6, is taken to be private exactly when its first
    two numbers lie in the ranges the comments name. *)
Theorem private_ranges_exact a b c e : (a < 256)%nat -> (b < 256)%nat -> (c < 256)%nat -> (e < 256)%nat ->
  isPrivateIp (dotted a b c e) = private_range a b /\ isPrivateIp ("::ffff:" +:+ dotted a b c e) = private_range a b.
Proof.
  intros Ha Hb Hc He. destruct (dotted_verdict a b Ha Hb) as (p & t & Hv & Ht).
  destruct (verdict_plain p _ (t +:+ pretty c +:+ "." +:+ pretty e) Hv) as [Hp Hm]. rewrite <- Ht in Hp, Hm.
  unfold isPrivateIp. rewrite Hm. split; [exact Hp|].
  assert (Regex.test ipv4Mapped (Str.toLowerCase ("::ffff:" +:+ dotted a b c e)) = true) as ->.
  { rewrite toLowerCase_app, dotted_lower by done. apply Regex.test_spec, Regex.l_cat; [apply str_lang | by apply dotted_lang]. }
  by rewrite substring_mapped.
Qed.

(** ** Rows and other parties *)

(** What the service reads and writes of [org_agents] *)
Record org_agent := OrgAgent {
  wa_orgId : option string;
  wa_tenantId : option string;
  webhookUrl : option string;
  webhookSecret : option string;
}.

Record post := Post { p_url : string; p_body : string; p_signature : option (string * string) }.   (* [X-Signature] and [X-Timestamp] *)

(** The configuration, protocol and host of a URL, the addresses the resolver finds at each
    time it is asked, the tenants of cloud wallets, the digest, the status a post is
    answered with (without one the request fails), and whether [bail] keeps [async-retry] from
    running an operation that throws after it once more. *)
Class Network := {
  PLATFORM_PROFILE_MODE : option string;
  CRYPTO_PRIVATE_KEY : option string;
  url_parts : string -> option (string * string);
  lookup : nat -> string -> option string;
  subWallets : list string;
  hmac : string -> string -> string;
  respond : list post -> option Z;
  aborts : bool;
  time : nat -> Z;
}.

(** What leaves the service: a question to the resolver, with its number, or a post *)
Inductive event := Resolved (n : nat) (hostname : string) | Posted (p : post).

(** [ticks] counts what was asked of the resolver, the clock and the salt of the cipher. *)
Record world := World { agents : list org_agent; log : list event; ticks : nat }.

Definition posts_of (es : list event) : list post := omap (fun e => match e with Posted p => Some p | Resolved _ _ => None end) es.
Definition posts (w : world) : list post := posts_of (log w).

Section service.
Context {N : Network} {C : Cipher}.

Definition tick : eff world nat := fun w => (Ok (ticks w), World (agents w) (log w) (S (ticks w))).
Definition set_agents x (w : world) : world := World x (log w) (ticks w).

(** ** Registration *)

Definition agent_of (orgId : string) (a : org_agent) : bool := bool_decide (wa_orgId a = Some orgId).
Definition getOrganizationDetails (orgId : string) : eff world (option org_agent) := gets (fun w => first (agent_of orgId) (agents w)).

Definition encrypted (secret : string) : eff world string := n ← tick; lift (encryptClientCredential CRYPTO_PRIVATE_KEY n secret).

Definition with_webhook (url : option string) (secret : option (option string)) (a : org_agent) : org_agent :=
  OrgAgent (wa_orgId a) (wa_tenantId a) (match url with Some _ => url | None => webhookUrl a end) (default (webhookSecret a) secret).

Definition update_agent (orgId : string) (f : org_agent -> org_agent) : eff world org_agent :=
  rows ← gets agents;
  match first (agent_of orgId) rows with
  | None => throw prisma_missing
  | Some a => _ ← modify (set_agents (update_where (agent_of orgId) f rows)); mret (f a)
  end.

(** Without a secret the stored one stays. *)
Definition register_row (orgId url : string) (secret : option string) : eff world org_agent :=
  stored ← (if truthy_str secret then e ← encrypted (default "" secret); mret (Some (Some e)) else mret None);
  update_agent orgId (with_webhook (Some url) stored).

(** An empty secret removes the stored one. *)
Definition update_row (orgId : string) (url secret : option string) : eff world org_agent :=
  stored ← match secret with
    | None => mret None
    | Some s => if String.eqb s "" then mret (Some None) else e ← encrypted s; mret (Some (Some e))
    end;
  update_agent orgId (with_webhook url stored).

Definition failed (m : string) : exn := http_exn InternalServerErrorException m.

Definition of_existing (orgId message : string) (m : eff world org_agent) : eff world (option string * option string) :=
  rpc (
    orgData ← getOrganizationDetails orgId;
    match orgData with
    | None => throw (http_exn NotFoundException "Organization agent not found")
    | Some _ => a ← try_catch m (fun _ => throw (failed message)); mret (webhookUrl a, webhookSecret a)
    end).

Definition registerWebhook (orgId url : string) (secret : option string) : eff world (option string * option string) :=
  of_existing orgId "Unable to register a webhook url" (register_row orgId url secret).
Definition updateWebhook (orgId : string) (url secret : option string) : eff world (option string * option string) :=
  of_existing orgId "Unable to update webhook Url" (update_row orgId url secret).

(** ** Whose webhook it is *)

Definition tenant_of (tenantId : string) (a : org_agent) : bool := bool_decide (wa_tenantId a = Some tenantId).

Definition org_row (orgId : string) : eff world org_agent :=
  a ← getOrganizationDetails orgId; match a with Some a => mret a | None => throw prisma_missing end.

(** [None] where no branch applies *)
Definition webhook_row (tenantId orgId : option string) : eff world (option org_agent) :=
  if negb (truthy_str orgId) then mret None else
  let org := default "" orgId in
  match tenantId with
  | None => a ← org_row org; mret (Some a)
  | Some t =>
      if String.eqb t "default" then a ← org_row org; mret (Some a)
      else if String.eqb t "" then mret None
      else
        own ← gets (fun w => first (tenant_of t) (agents w));
        match own with
        | Some a => mret (Some a)
        | None =>
            if bool_decide (t ∈ subWallets) then a ← org_row org; mret (Some a)
            else throw (http_exn NotFoundException ("No org agent or cloud wallet found for tenantId " +:+ t))
        end
  end.

Definition getWebhookUrl (tenantId orgId : option string) : eff world (option string * option string) :=
  rpc (
    webhookUrlInfo ← webhook_row tenantId orgId;
    match webhookUrlInfo with
    | None => throw (http_exn NotFoundException "Webhook Url not found")
    | Some a => mret (webhookUrl a, if truthy_str (webhookSecret a) then webhookSecret a else None)
    end).

(** ** Delivery *)

Definition resolve (hostname : string) : eff world (option string) := fun w =>
  (Ok (lookup (ticks w) hostname), World (agents w) (log w ++ [Resolved (ticks w) hostname])%list (S (ticks w))).

Definition isValidWebhookUrl (url : string) : eff world bool :=
  if bool_decide (PLATFORM_PROFILE_MODE = Some "DEV") then mret true else
  match url_parts url with
  | None => mret false
  | Some (protocol, hostname) =>
      if negb (String.eqb protocol "https:") then mret false else
      found ← resolve hostname;
      mret match found with
        | None => false
        | Some address => negb (String.eqb address "") && negb (isPrivateIp address)
        end
  end.

Definition webhookError (status : option Z) : exn := Exn HttpException "Error in sending webhook response to org webhook url" status None.

(** The headers of a signed request; a decrypted value that is no text is no key. *)
Definition signature (webhookSecret : option string) (requestBody : string) : eff world (option (string * string)) :=
  if truthy_str webhookSecret then
    n ← tick;
    let timestamp := pretty (time n) in
    decryptedSecret ← lift (decryptClientCredential CRYPTO_PRIVATE_KEY (default "" webhookSecret));
    match decryptedSecret with
    | Json.JStr key => mret (Some (hmac key (timestamp +:+ "." +:+ requestBody), timestamp))
    | _ => throw not_an_object
    end
  else mret None.

Definition fetch (p : post) : eff world Z := fun w =>
  let w := World (agents w) (log w ++ [Posted p])%list (ticks w) in
  match respond (posts w) with
  | None => (Throw (js_error "fetch failed"), w)
  | Some status => if (200 <=? status) && (status <=? 299) then (Ok status, w) else (Throw (webhookError (Some status)), w)
  end.

Definition is_http (e : exn) : bool := match exn_class e with PlainError | PrismaError | RpcException => false | _ => true end.

Definition webhookFunc (url : string) (data : Json.value) (webhookSecret : option string) : eff world Z :=
  isSafe ← isValidWebhookUrl url;
  if negb (isSafe : bool) then throw (http_exn BadRequestException "Invalid or blocked webhook URL") else
  try_catch (
    let requestBody := Json.stringify data in
    headers ← signature webhookSecret requestBody;
    fetch (Post url requestBody headers))
    (fun err => if is_http err then throw err else throw (failed "Error in sending webhook response to org webhook url")).

Definition client_error (e : exn) : bool :=
  is_http e && match exn_status e with Some s => (400 <=? s) && (s <? 500) | None => false end.

(** [AsyncRetry] with as many retries: the operation is repeated when it throws.  A bail decides
    the outcome; where it does not keep the library from going on, what follows changes nothing in it. *)
Fixpoint attempts (retries : nat) (url : string) (data : Json.value) (webhookSecret : option string) : eff world Z :=
  try_catch (webhookFunc url data webhookSecret) (fun error =>
    match retries with
    | O => throw error
    | S n =>
        if client_error error then
          if aborts then throw error else
          _ ← try_catch (_ ← attempts n url data webhookSecret; mret tt) (fun _ => mret tt);
          throw error
        else attempts n url data webhookSecret
    end).

Definition webhookResponse (url : string) (data : Json.value) (webhookSecret : option string) : eff world Z :=
  rpc (attempts 3 url data webhookSecret).

(** ** Messages *)

Inductive message :=
  | RegisterWebhook (orgId url : string) (secret : option string)
  | GetWebhookUrl (tenantId orgId : option string)
  | UpdateWebhook (orgId : string) (url secret : option string)
  | PostWebhook (url : string) (data : Json.value) (secret : option string).

Definition handle (m : message) : eff world unit :=
  match m with
  | RegisterWebhook orgId url secret => _ ← registerWebhook orgId url secret; mret tt
  | GetWebhookUrl tenantId orgId => _ ← getWebhookUrl tenantId orgId; mret tt
  | UpdateWebhook orgId url secret => _ ← updateWebhook orgId url secret; mret tt
  | PostWebhook url data secret => _ ← webhookResponse url data secret; mret tt
  end.

(** ** Where events go *)

(** A post carries the data, and with a secret the digest of time and data under the secret. *)
Definition carries (url : string) (data : Json.value) (secret : option string) (p : post) : Prop :=
  p_url p = url /\ p_body p = Json.stringify data /\
  if truthy_str secret
  then exists key t, decryptClientCredential CRYPTO_PRIVATE_KEY (default "" secret) = Ok (Json.JStr key) /\
    p_signature p = Some (hmac key (t +:+ "." +:+ p_body p), t)
  else p_signature p = None.

Definition accepted (status : option Z) : bool := match status with Some s => (200 <=? s) && (s <=? 299) | None => false end.
Definition refused (status : option Z) : bool := match status with Some s => (400 <=? s) && (s <? 500) | None => false end.

(** What one attempt lets out: nothing, a question to the resolver, or a post that the resolver's
    answer to the question just before allows.  In the mode [DEV] nobody is asked. *)
Definition attempt_of (url : string) (data : Json.value) (secret : option string) (es : list event) : Prop :=
  es = [] \/ (exists hostname n, es = [Resolved n hostname]) \/
  exists p, carries url data secret p /\
    ((PLATFORM_PROFILE_MODE = Some "DEV" /\ es = [Posted p]) \/
     exists hostname n address, PLATFORM_PROFILE_MODE <> Some "DEV" /\ url_parts url = Some ("https:", hostname) /\
       lookup n hostname = Some address /\ address <> "" /\ isPrivateIp address = false /\ es = [Resolved n hostname; Posted p]).

Lemma valid_spec url w : let '(r, w') := isValidWebhookUrl url w in
  agents w' = agents w /\ exists es, log w' = (log w ++ es)%list /\
  ((PLATFORM_PROFILE_MODE = Some "DEV" /\ r = Ok true /\ es = []) \/
   (r = Ok false /\ (es = [] \/ exists hostname n, es = [Resolved n hostname])) \/
   exists hostname n address, PLATFORM_PROFILE_MODE <> Some "DEV" /\ r = Ok true /\ url_parts url = Some ("https:", hostname) /\
     lookup n hostname = Some address /\ address <> "" /\ isPrivateIp address = false /\ es = [Resolved n hostname]).
Proof.
  unfold isValidWebhookUrl. destruct (bool_decide _) eqn:Ed; [apply bool_decide_eq_true in Ed | apply bool_decide_eq_false in Ed].
  { split; [done|]. exists []. rewrite app_nil_r. split; [done|]. by left. }
  destruct (url_parts url) as [[protocol hostname]|] eqn:Eu; [|split; [done|]; exists []; rewrite app_nil_r; split; [done|]; right; left; by auto].
  destruct (String.eqb_spec protocol "https:") as [->|]; [|split; [done|]; exists []; rewrite app_nil_r; split; [done|]; right; left; by auto].
  unfold resolve. run. split; [done|]. eexists. split; [reflexivity|]. right. destruct (lookup (ticks w) hostname) as [address|] eqn:El; [|left; by eauto].
  destruct (negb (String.eqb address "") && negb (isPrivateIp address)) eqn:Ea; [|left; by eauto].
  apply andb_true_iff in Ea as [Ea%negb_true_iff%String.eqb_neq Eb%negb_true_iff]. right. by exists hostname, (ticks w), address.
Qed.

Lemma signature_spec secret data url w : let '(r, w') := signature secret (Json.stringify data) w in
  agents w' = agents w /\ log w' = log w /\ forall h, r = Ok h -> carries url data secret (Post url (Json.stringify data) h).
Proof.
  unfold signature, tick, carries. destruct (truthy_str secret); run; [|by split_and!; [..|intros h [= <-]]].
  destruct (decryptClientCredential CRYPTO_PRIVATE_KEY (default "" secret)) as [v|e]; [destruct v|]; simpl; (split; [done|]); (split; [done|]).
  all: intros h [= <-]; by eauto 6.
Qed.

Lemma posts_of_app a b : posts_of (a ++ b) = (posts_of a ++ posts_of b)%list.
Proof. apply omap_app. Qed.

(** One attempt: nothing is posted, or one post, whose answer decides *)
Lemma webhookFunc_spec url data secret w :
  let '(r, w') := webhookFunc url data secret w in
  agents w' = agents w /\ exists es, log w' = (log w ++ es)%list /\ attempt_of url data secret es /\
  ((exists e, r = Throw e /\ posts_of es = []) \/
   exists p, posts_of es = [p] /\
     match r with
     | Ok s => respond (posts w ++ [p])%list = Some s /\ accepted (Some s) = true
     | Throw e => accepted (respond (posts w ++ [p])%list) = false /\ client_error e = refused (respond (posts w ++ [p])%list)
     end).
Proof.
  unfold webhookFunc. rewrite run_bind. pose proof (valid_spec url w) as Hv. destruct (isValidWebhookUrl url w) as [v w1].
  destruct Hv as (Ha & es & Hl & Hv). assert (Hblocked : v = Ok false -> es = [] \/ exists hostname n, es = [Resolved n hostname]).
  { intros ->. destruct Hv as [(? & ? & ?)|[[? ?]|(? & ? & ? & ? & ? & ?)]]; done. }
  destruct v as [[]|e]; [| |exfalso; by destruct Hv as [(? & ? & ?)|[[? ?]|(? & ? & ? & ? & ? & ?)]]].
  2: { simpl. split; [done|]. exists es. split; [done|]. destruct (Hblocked eq_refl) as [->|(h & n & ->)]; (split; [unfold attempt_of; eauto|]); left; eauto. }
  assert (Hes : posts_of es = [] /\ attempt_of url data secret es /\
    forall p, carries url data secret p -> attempt_of url data secret (es ++ [Posted p])%list).
  { destruct Hv as [(? & _ & ->)|[[? _]|(h & n & ad & ? & _ & ? & ? & ? & ? & ->)]]; [|done|]; (split; [done|]; split; [unfold attempt_of; by eauto|]);
      intros p Hp; right; right; exists p; (split; [done|]); [by left | right]; by exists h, n, ad. }
  clear Hv Hblocked. destruct Hes as (Hnone & Hat & Hpost). cbn [negb]. unfold try_catch. rewrite run_bind.
  pose proof (signature_spec secret data url w1) as Hs. destruct (signature secret (Json.stringify data) w1) as [[h|e] w2]; destruct Hs as (Ha2 & Hl2 & Hs).
  2: { rewrite <- Ha, <- Ha2. destruct (is_http e); run; (split; [done|]); exists es; (split; [by rewrite Hl2|]); (split; [done|]); left; eauto. }
  specialize (Hs h eq_refl). set (p := Post url (Json.stringify data) h) in *. unfold fetch. unfold posts at 1. simpl. rewrite Hl2, Hl, !posts_of_app, Hnone, app_nil_r.
  assert (Hp : posts_of [Posted p] = [p]) by done. rewrite Hp. change (posts_of (log w)) with (posts w).
  destruct (respond (posts w ++ [p])) as [s|] eqn:Er; [destruct ((200 <=? s) && (s <=? 299)) eqn:Eo|]; simpl;
    (split; [congruence|]); exists (es ++ [Posted p])%list; rewrite app_assoc; (split; [done|]); (split; [by apply Hpost|]); right; exists p;
    rewrite posts_of_app, Hnone; rewrite ?Er; split_and!; done.
Qed.

(** The answers to [ps], posted after [before] *)
Fixpoint answers (before ps : list post) : list (option Z) :=
  match ps with [] => [] | p :: ps => respond (before ++ [p])%list :: answers (before ++ [p])%list ps end.

Definition client_status (e : exn) : bool := match exn_status e with Some s => (400 <=? s) && (s <? 500) | None => false end.

(** What a delivery may report of the answers it got: it ends with an answer that accepts; success
    is that answer, and no refusal came before.  A failure hides an acceptance only where a bail
    did not end the retries; where it does, a refusal is the last answer. *)
Definition outcome (r : result Z) (l : list (option Z)) : Prop :=
  Forall (fun a => accepted a = false) (removelast l) /\
  (aborts = true -> Forall (fun a => refused a = false) (removelast l)) /\
  match r with
  | Ok s => last l = Some (Some s) /\ accepted (Some s) = true /\ Forall (fun a => refused a = false) l
  | Throw e => (exists a, last l = Some a /\ accepted a = true) -> aborts = false /\ client_status e = true
  end.

Lemma removelast_cons {B} (P : B -> Prop) a l : P a -> Forall P (removelast l) -> Forall P (removelast (a :: l)).
Proof. intros Ha Hl. destruct l; [constructor | by constructor]. Qed.
Lemma last_cons_Some {B} (a : B) l x : last l = Some x -> last (a :: l) = Some x.
Proof. by destruct l. Qed.

Lemma accepted_not_refused a : accepted a = true -> refused a = false.
Proof. destruct a as [s|]; [|done]. unfold accepted, refused. intros [H1%Z.leb_le H2%Z.leb_le]%andb_true_iff. apply andb_false_iff. left. apply Z.leb_gt. lia. Qed.

Lemma outcome_nothing e : outcome (Throw e) [].
Proof. split_and!; [constructor | intros _; constructor |]. by intros (a & ? & _). Qed.
Lemma outcome_accepted s : accepted (Some s) = true -> outcome (Ok s) [Some s].
Proof. intros H. split_and!; [constructor | intros _; constructor | done | done |]. constructor; [by apply accepted_not_refused | constructor]. Qed.
Lemma outcome_failed e a : accepted a = false -> outcome (Throw e) [a].
Proof. intros H. split_and!; [constructor | intros _; constructor |]. intros (a' & [= <-] & ?). congruence. Qed.
Lemma outcome_cons r a l : accepted a = false -> refused a = false -> outcome r l -> outcome r (a :: l).
Proof.
  intros Ha Hr (H1 & H2 & H3). split_and!; [by apply removelast_cons | intros Hab; apply removelast_cons; auto|]. destruct r as [s|e].
  - destruct H3 as (Hl & ? & ?). split_and!; [by apply last_cons_Some | done | by constructor].
  - intros (x & Hx & Hax). apply H3. exists x. split; [|done]. destruct l; [simpl in Hx; congruence | done].
Qed.
(** A bail that does not end the retries *)
Lemma outcome_bailed r e l : aborts = false -> client_status e = true -> outcome r l -> outcome (Throw e) l.
Proof. intros Hab He (H1 & _). split_and!; [done | by rewrite Hab | done]. Qed.
Lemma outcome_bailed_cons r e a l : aborts = false -> client_status e = true -> accepted a = false -> outcome r l -> outcome (Throw e) (a :: l).
Proof. intros Hab He Ha (H1 & _). split_and!; [by apply removelast_cons | by rewrite Hab | done]. Qed.

(** What a run of attempts that began with the events [before] did *)
Definition delivered (bound : nat) (before : list event) (url : string) (data : Json.value) (secret : option string) (r : result Z) (after : list event) : Prop :=
  exists tries, after = (before ++ concat tries)%list /\ (length tries <= bound)%nat /\ Forall (attempt_of url data secret) tries /\
    outcome r (answers (posts_of before) (posts_of (concat tries))).

Lemma delivered_one bound before url data secret r es : attempt_of url data secret es ->
  outcome r (answers (posts_of before) (posts_of es)) -> delivered (S bound) before url data secret r (before ++ es)%list.
Proof. intros He Ho. exists [es]. simpl. rewrite app_nil_r. split_and!; [done | lia | constructor; [done | constructor] | done]. Qed.

Lemma delivered_more bound before url data secret r r' es after : attempt_of url data secret es ->
  delivered bound (before ++ es)%list url data secret r after ->
  (forall l, outcome r (answers (posts_of (before ++ es)) l) -> outcome r' (answers (posts_of before) (posts_of es ++ l)%list)) ->
  delivered (S bound) before url data secret r' after.
Proof.
  intros He (tries & -> & Hl & Hf & Ho) H. exists (es :: tries). simpl. rewrite <- app_assoc, posts_of_app.
  split_and!; [done | lia | by constructor | by apply H].
Qed.

Lemma client_error_status e : client_error e = true -> client_status e = true.
Proof. unfold client_error, client_status. by intros [_ ?]%andb_true_iff. Qed.

Lemma attempts_spec n url data secret : forall w, let '(r, w') := attempts n url data secret w in
  agents w' = agents w /\ delivered (S n) (log w) url data secret r (log w').
Proof.
  induction n as [|n IH]; intros w; cbn [attempts]; unfold try_catch at 1; pose proof (webhookFunc_spec url data secret w) as H;
    destruct (webhookFunc url data secret w) as [[s|e] w1]; destruct H as (Ha & es & Hl & Hat & [(e' & He & Hp)|(p & Hp & Hr)]); try done.
  - rewrite Hl. split; [done|]. apply delivered_one; [done|]. rewrite Hp. unfold posts in Hr. simpl. destruct Hr as [-> Hr]. by apply outcome_accepted.
  - simpl. rewrite Hl. split; [done|]. apply delivered_one; [done|]. rewrite Hp. apply outcome_nothing.
  - simpl. rewrite Hl. split; [done|]. apply delivered_one; [done|]. rewrite Hp. unfold posts in Hr. simpl. destruct Hr as [Hr _]. by apply outcome_failed.
  - rewrite Hl. split; [done|]. apply delivered_one; [done|]. rewrite Hp. unfold posts in Hr. simpl. destruct Hr as [-> Hr]. by apply outcome_accepted.
  - specialize (IH w1). rewrite Ha, Hl in IH.
    assert (Hmore : forall l, answers (posts_of (log w ++ es)) l = answers (posts_of (log w)) (posts_of es ++ l)%list) by (intros l; by rewrite posts_of_app, Hp, app_nil_r).
    destruct (client_error e) eqn:Ee; [destruct aborts eqn:Eab|].
    + simpl. rewrite Hl. split; [done|]. apply delivered_one; [done|]. rewrite Hp. apply outcome_nothing.
    + unfold try_catch. run. destruct (attempts n url data secret w1) as [[]  w2]; destruct IH as [IHa IH]; simpl; (split; [done|]);
        (eapply delivered_more; [exact Hat | exact IH|]); intros l; rewrite Hmore; apply outcome_bailed; try done; by apply client_error_status.
    + destruct (attempts n url data secret w1) as [r w2]. destruct IH as [IHa IH]. split; [done|].
      eapply delivered_more; [exact Hat | exact IH|]. intros l. by rewrite Hmore.
  - specialize (IH w1). rewrite Ha, Hl in IH. destruct Hr as [Hr1 Hr2]. change (posts w) with (posts_of (log w)) in Hr1, Hr2.
    assert (Hmore : forall l, answers (posts_of (log w)) (posts_of es ++ l)%list = respond (posts_of (log w) ++ [p])%list :: answers (posts_of (log w ++ es)) l)
      by (intros l; by rewrite posts_of_app, Hp).
    destruct (client_error e) eqn:Ee; [destruct aborts eqn:Eab|].
    + simpl. rewrite Hl. split; [done|]. apply delivered_one; [done|]. rewrite Hp. by apply outcome_failed.
    + unfold try_catch. run. destruct (attempts n url data secret w1) as [[]  w2]; destruct IH as [IHa IH]; simpl; (split; [done|]);
        (eapply delivered_more; [exact Hat | exact IH|]); intros l; rewrite Hmore; apply outcome_bailed_cons; try done; by apply client_error_status.
    + destruct (attempts n url data secret w1) as [r w2]. destruct IH as [IHa IH]. split; [done|].
      eapply delivered_more; [exact Hat | exact IH|]. intros l. rewrite Hmore. by apply outcome_cons.
Qed.

(** C23. A delivery makes at most four attempts, each with one post at most, and changes no row.
    Unless the platform runs in the mode [DEV], every post follows a question to the resolver
    of its own, asked for the host of an https URL just before, whose answer is an address that
    [isPrivateIp] does not take for private; each post carries the data, signed with the
    organization's secret if it has one.  Nothing is posted after an answer that accepts;
    success reports that answer, and no refusal came before it.  Where a bail ends the retries
    nothing is posted after a refusal either and a failure means that no answer accepted; where
    it does not, a failure that hides an acceptance is reported as a refusal. *)
Theorem deliveries_guarded url data secret w :
  let '(r, w') := webhookResponse url data secret w in
  agents w' = agents w /\ delivered 4 (log w) url data secret r (log w').
Proof.
  unfold webhookResponse. pose proof (attempts_spec 3 url data secret w) as H. unfold rpc, try_catch.
  destruct (attempts 3 url data secret w) as [[s|e] w']; exact H.
Qed.

(** *** The way of a secret *)

(** The rows of other organizations *)
Definition filter_others (org : string) : list org_agent -> list org_agent := List.filter (fun a => negb (agent_of org a)).

Lemma org_row_first org w a : first (agent_of org) (agents w) = Some a -> org_row org w = (Ok a, w).
Proof. intros H. unfold org_row, getOrganizationDetails. run. by rewrite H. Qed.

(** C24. The secret an organization registers is the key of its deliveries: registering answers
    with what is stored, the lookup by the organization gives that and the URL, and the stored
    text decrypts to the secret; the rows of others stay as they are. *)
Theorem registered_key org url secret w r w' : org <> "" -> secret <> "" -> registerWebhook org url (Some secret) w = (Ok r, w') ->
  exists stored, r = (Some url, Some stored) /\ decryptClientCredential CRYPTO_PRIVATE_KEY stored = Ok (Json.JStr secret) /\
    getWebhookUrl None (Some org) w' = (Ok (Some url, if truthy_str (Some stored) then Some stored else None), w') /\
    filter_others org (agents w') = filter_others org (agents w).
Proof.
  intros Ho Hs. assert (truthy_str (Some secret) = true /\ truthy_str (Some org) = true) as [Ts To] by (split; [by destruct secret | by destruct org]).
  unfold registerWebhook, of_existing, register_row, update_agent, encrypted, tick, getOrganizationDetails, rpc, try_catch. rewrite Ts. run.
  destruct (first (agent_of org) (agents w)) as [a|] eqn:Ea; [|by destruct w]. run.
  destruct (encryptClientCredential CRYPTO_PRIVATE_KEY (ticks w) secret) as [stored|] eqn:Ee; [|by destruct w]. run. rewrite Ea. run. intros [= <- <-].
  exists stored. split; [done|]. split; [by eapply credential_round_trip|]. simpl. split.
  - unfold getWebhookUrl, webhook_row. cbn [truthy_str]. rewrite To. unfold rpc, try_catch. run.
    erewrite org_row_first; [|simpl; rewrite first_update, Ea; [|done]; simpl; apply first_Some in Ea as [_ ->]; reflexivity]. reflexivity.
  - clear. unfold filter_others. induction (agents w) as [|a l IH]; [done|]. simpl. destruct (agent_of org a) eqn:E; simpl.
    + change (agent_of org (with_webhook _ _ a)) with (agent_of org a). by rewrite E.
    + rewrite E. simpl. by rewrite IH.
Qed.
End service.

(** ** An organization's webhook *)

Module WebhookSample.
#[local] Existing Instance CipherSample.prefix_cipher.

(** A host whose address changes after a while, and answers by their number. *)
Definition hook : string := "https://hook.test/events".
Definition network (lasts : nat) (status : nat -> option Z) (stops : bool) : Network := {|
  PLATFORM_PROFILE_MODE := None; CRYPTO_PRIVATE_KEY := Some "key";
  url_parts u := if String.eqb u hook then Some ("https:", "hook.test") else None;
  lookup n _ := Some (if (n <? lasts)%nat then "93.184.216.34" else "10.0.0.7");
  subWallets := ["holder"]; hmac k t := k +:+ "/" +:+ t;
  respond ps := status (length ps); aborts := stops; time n := Z.of_nat n |}.

Definition orgs : world := World [OrgAgent (Some "acme") (Some "t1") None None; OrgAgent (Some "base") None (Some "https://base.test") None] [] 0.
Definition event : Json.value := Json.JObj [("type", Json.JStr "done")].

Example private_ranges_exact_witness : isPrivateIp (dotted 100 64 0 1) = true /\ isPrivateIp ("::ffff:" +:+ dotted 100 64 0 1) = true.
Proof. apply (private_ranges_exact 100 64 0 1); lia. Defined.

(** Other link-local addresses than [fe80:] pass. *)
Example link_local_passes : isPrivateIp "FE80::1" = true /\ isPrivateIp "fe90::1" = false /\ isPrivateIp "febf::1" = false.
Proof. vm_compute. done. Qed.

Definition registered : result (option string * option string) * world := let _ := network 9 (fun _ => Some 200) true in registerWebhook "acme" hook (Some "s3cret") orgs.

Example registered_key_witness : let _ := network 9 (fun _ => Some 200) true in exists stored, (Some hook, Some ("key" +:+ Json.quote "s3cret")) = (Some hook, Some stored) /\
  decryptClientCredential CRYPTO_PRIVATE_KEY stored = Ok (Json.JStr "s3cret") /\
  getWebhookUrl None (Some "acme") registered.2 = (Ok (Some hook, if truthy_str (Some stored) then Some stored else None), registered.2) /\
  filter_others "acme" (agents registered.2) = filter_others "acme" (agents orgs).
Proof.
  intros net. apply (@registered_key net CipherSample.prefix_cipher "acme" hook "s3cret" orgs _ registered.2); [done | done |]. vm_compute. reflexivity.
Defined.

(** Whose webhook is it: the tenant's own, the base wallet's for a holder of a cloud wallet. *)
Example tenant_first : let _ := network 9 (fun _ => Some 200) true in
  (getWebhookUrl (Some "t1") (Some "base") registered.2).1 = Ok (Some hook, Some ("key" +:+ Json.quote "s3cret")) /\
  (getWebhookUrl (Some "holder") (Some "base") registered.2).1 = Ok (Some "https://base.test", None) /\
  (getWebhookUrl (Some "stranger") (Some "base") registered.2).1 = Throw (Exn RpcException "No org agent or cloud wallet found for tenantId stranger" (Some 404) None).
Proof. vm_compute. done. Qed.

Definition posted (n : Network) (secret : option string) := let '(r, w) := @webhookResponse n CipherSample.prefix_cipher hook event secret orgs in (r, p_signature <$> posts w).

(** The third post is accepted, each is signed with the time of its own. *)
Example delivery_retried : posted (network 9 (fun n => if (n =? 1)%nat then Some 503 else if (n =? 2)%nat then None else Some 204) true) (Some ("key" +:+ Json.quote "s3cret")) =
  (Ok 204, (fun t => Some ("s3cret/" +:+ t +:+ "." +:+ Json.stringify event, t)) <$> ["1"; "3"; "5"]).
Proof. vm_compute. reflexivity. Qed.

(** The host is resolved again before each post. *)
Example rebound_refused : posted (network 1 (fun _ => Some 503) true) None = (Throw (Exn RpcException "Invalid or blocked webhook URL" (Some 400) None), [None]).
Proof. vm_compute. reflexivity. Qed.

(** A refusal ends the retries; four failures are the end as well. *)
Example delivery_refused : posted (network 9 (fun _ => Some 410) true) None = (Throw (Exn RpcException "Error in sending webhook response to org webhook url" (Some 410) None), [None]) /\
  posted (network 9 (fun _ => Some 500) true) None = (Throw (Exn RpcException "Error in sending webhook response to org webhook url" (Some 500) None), [None; None; None; None]).
Proof. vm_compute. done. Qed.
End WebhookSample.
