(* ===== verification/Utilities.v ===== *)
(** * Notifications, utilities and places

    Three small services.  [apps/notification] keeps the endpoints of organizations and the
    registrations of holders and posts notifications; [apps/utility] shortens URLs, stores
    objects and sends the alert about organizations without a ledger, where concurrent
    requests meet; [apps/geo-location] lists countries, states and cities. *)

From S2P Require Import Prelude Js Regex Table CastHelper CommonService.

Open Scope Z_scope.

Definition not_found (m : string) : exn := http_exn NotFoundException m.

(** ** Notifications *)

Module Notification.
Record notification := NotificationRow { n_id : string; n_orgId : string; notificationWebhook : string }.
Record holder_notification := Holder { h_id : string; sessionId : string; holderDid : string; h_fcmToken : string; h_state : string }.

(** [requests] is what was posted, with what was answered. *)
Record world := World { endpoints : list notification; holders : list holder_notification; requests : list http_request; drawn : nat }.

Definition INITIATED : string := "initiated".

Section service.
Context {U : UuidSource} (answer : list http_request -> any + axios_error).

Definition draw : eff world string := fun w => (Ok (uuid (drawn w)), World (endpoints w) (holders w) (requests w) (S (drawn w))).
#[local] Instance client : HttpClient world := fun r w =>
  let rs := (requests w ++ [r])%list in (Ok (answer rs), World (endpoints w) (holders w) rs (drawn w)).

Definition endpoint_of (orgId : string) (n : notification) : bool := String.eqb (n_orgId n) orgId.

Definition storeOrgWebhookEndpoint (orgId webhook : string) : eff world notification :=
  id ← draw;
  rows ← gets endpoints;
  if existsb (endpoint_of orgId) rows then throw prisma_unique else
  let n := NotificationRow id orgId webhook in
  _ ← modify (fun w => World (endpoints w ++ [n]) (holders w) (requests w) (drawn w));
  mret n.

Definition getOrgWebhookEndpoint (orgId : string) : eff world notification :=
  n ← gets (fun w => first (endpoint_of orgId) (endpoints w));
  match n with Some n => mret n | None => throw (not_found "Notification record not found.") end.

Definition registerOrgWebhookEndpoint (orgId webhook : string) : eff world notification := rpc (storeOrgWebhookEndpoint orgId webhook).

Definition space (c : ascii) : bool := existsb (N.eqb (Str.code c)) [9; 10; 11; 12; 13; 32; 160]%N.
Definition newline (c : ascii) : bool := existsb (N.eqb (Str.code c)) [10; 13]%N.
Definition urlRegex : Regex.re := Regex.seq [
  Regex.any [Regex.Cat (Regex.str "http") (Regex.opt (Regex.str "s")); Regex.str "ftp"]; Regex.str "://";
  Regex.Cls (fun c => negb (space c || Regex.one_of "/$.?#" c)); Regex.Cls (fun c => negb (newline c)); Regex.Star (Regex.Cls (fun c => negb (space c)))].
Definition isValidUrl (url : string) : bool := Regex.test urlRegex url.

Record ISendNotification := SendNotification { fcmToken : string; messageType : string; clientCode : string }.
Definition webhookPayload (p : ISendNotification) : http_body :=
  JsonBody (Json.JObj [("fcmToken", Json.JStr (fcmToken p)); ("messageType", Json.JStr (messageType p))]).

(** The endpoint is validated after it was posted to. *)
Definition sendNotification (p : ISendNotification) : eff world any :=
  rpc (
    e ← getOrgWebhookEndpoint (clientCode p);
    webhookResponse ← httpPost (notificationWebhook e) (webhookPayload p) [];
    if isValidUrl (notificationWebhook e) then mret webhookResponse else throw (http_exn BadRequestException "Invalid URL")).

Definition session_is (s : string) (h : holder_notification) : bool := String.eqb (sessionId h) s.

Definition storeHolder (session did token state : string) : eff world holder_notification :=
  found ← gets (fun w => first (session_is session) (holders w));
  match found with
  | Some _ => throw (http_exn ConflictException "Holder already registered for this session")
  | None =>
      id ← draw;
      let h := Holder id session did token state in
      _ ← modify (fun w => World (endpoints w) (holders w ++ [h]) (requests w) (drawn w));
      mret h
  end.

Definition getHolderNotificationBySessionId (session : string) : eff world holder_notification :=
  h ← gets (fun w => first (session_is session) (holders w));
  match h with Some h => mret h | None => throw (not_found "Notification record not found.") end.

Definition with_state (state : string) (h : holder_notification) : holder_notification := Holder (h_id h) (sessionId h) (holderDid h) (h_fcmToken h) state.

(** No message leads here. *)
Definition updateHolderNotificationState (session state : string) : eff world holder_notification :=
  found ← gets (fun w => first (session_is session) (holders w));
  match found with
  | None => throw prisma_missing
  | Some _ =>
      _ ← modify (fun w => World (endpoints w) (update_where (session_is session) (with_state state) (holders w)) (requests w) (drawn w));
      getHolderNotificationBySessionId session
  end.

Definition registerHolderNotification (session did token : string) : eff world holder_notification := rpc (storeHolder session did token INITIATED).

Inductive message :=
  | RegisterOrgWebhookEndpoint (orgId webhook : string)
  | SendNotificationToHolder (p : ISendNotification)
  | RegisterHolderNotification (session did token : string).

Definition handle (m : message) : eff world unit :=
  match m with
  | RegisterOrgWebhookEndpoint orgId webhook => _ ← registerOrgWebhookEndpoint orgId webhook; mret tt
  | SendNotificationToHolder p => _ ← sendNotification p; mret tt
  | RegisterHolderNotification session did token => _ ← registerHolderNotification session did token; mret tt
  end.
Fixpoint serve_all (ms : list message) (w : world) : world := match ms with [] => w | m :: ms => serve_all ms (handle m w).2 end.

(** An organization has one endpoint and a session one holder; a holder that was registered
    stays, and what is posted goes to registered endpoints. *)
Definition consistent (w : world) : Prop :=
  NoDup (n_orgId <$> endpoints w) /\ NoDup (sessionId <$> holders w) /\ Forall (fun h => h_state h = INITIATED) (holders w) /\
  Forall (fun r => exists n, n ∈ endpoints w /\ rq_url r = notificationWebhook n) (requests w).

Definition grows (w w' : world) : Prop := (exists l, endpoints w' = (endpoints w ++ l)%list) /\ (exists l, holders w' = (holders w ++ l)%list).

Lemma requests_grow es es' rs : (exists l, es' = (es ++ l)%list) -> Forall (fun r => exists n, n ∈ es /\ rq_url r = notificationWebhook n) rs ->
  Forall (fun r => exists n, n ∈ es' /\ rq_url r = notificationWebhook n) rs.
Proof. intros [l ->] H. eapply Forall_impl; [exact H|]. intros r (n & Hn & Hu). exists n. split; [apply elem_of_app; by left | done]. Qed.

Lemma handle_keeps m w : consistent w -> consistent (handle m w).2 /\ grows w (handle m w).2.
Proof.
  intros (H1 & H2 & H3 & H4). assert (Hr : forall x : Type, grows w w) by (split; exists []; by rewrite app_nil_r).
  destruct m as [orgId webhook|p|session did token]; unfold handle.
  - unfold registerOrgWebhookEndpoint, storeOrgWebhookEndpoint, draw, rpc, try_catch. run. destruct (existsb _ (endpoints w)) eqn:E; simpl.
    + split; [done | by apply (Hr unit)].
    + split; [|split; [by eexists | exists []; by rewrite app_nil_r]]. split_and!; [|done|done|].
      * apply (NoDup_new n_orgId); [done|]. intros y Hy Hyo. apply not_true_iff_false in E. apply E, existsb_elem. exists y. split; [done|]. by apply String.eqb_eq.
      * revert H4. apply requests_grow. by eexists.
  - unfold sendNotification, getOrgWebhookEndpoint, rpc, try_catch. run. destruct (first _ (endpoints w)) as [n|] eqn:E; run; [|split; [done | by apply (Hr unit)]].
    assert (Hq : forall w', w' = World (endpoints w) (holders w) (requests w ++ [Request POST (notificationWebhook n) (webhookPayload p) []]) (drawn w) -> consistent w' /\ grows w w').
    { intros w' ->. split; [|split; exists []; by rewrite app_nil_r]. split_and!; try done. apply Forall_app. split; [done|]. apply Forall_singleton.
      exists n. by apply first_Some in E as [? _]. }
    assert (Hs : forall w', w' = (httpPost (notificationWebhook n) (webhookPayload p) [] w).2 -> consistent w' /\ grows w w').
    { intros w' ->. apply Hq. unfold httpPost, axios, client. run. destruct (answer _) as [v|e]; [done|]. run. symmetry. apply (frames_handleCommonErrors eq). }
    destruct (httpPost _ _ _ w) as [[v|e] w1]; simpl in Hs; [|simpl; by apply Hs]. destruct (isValidUrl _); simpl; by apply Hs.
  - unfold registerHolderNotification, storeHolder, draw, rpc, try_catch. run. destruct (first _ (holders w)) eqn:E; simpl.
    + split; [done | by apply (Hr unit)].
    + split; [|split; [exists []; by rewrite app_nil_r | by eexists]]. split_and!; try done.
      * apply (NoDup_new sessionId); [done|]. intros y Hy Hyo. rewrite first_None in E. specialize (E y Hy). unfold session_is in E. simpl in Hyo.
        by rewrite Hyo, String.eqb_refl in E.
      * apply Forall_app. split; [done|]. by apply Forall_singleton.
Qed.

(** Whatever messages are served, an organization has one endpoint and a session one holder,
    who stays as registered, and notifications go to registered endpoints. *)
Theorem notifications_consistent ms w : consistent w -> consistent (serve_all ms w) /\ grows w (serve_all ms w).
Proof.
  revert w. induction ms as [|m ms IH]; intros w Hw.
  - split; [done|]. split; exists []; by rewrite app_nil_r.
  - destruct (handle_keeps m w Hw) as [H1 [[l Hl] [k Hk]]]. destruct (IH _ H1) as [H2 [[l' Hl'] [k' Hk']]]. split; [done|].
    split; [exists (l ++ l')%list; simpl; by rewrite Hl', Hl, app_assoc | exists (k ++ k')%list; simpl; by rewrite Hk', Hk, app_assoc].
Qed.
End service.
End Notification.

(** ** Short URLs and stored objects *)

Module Utility.
Record shortening_url := ShortUrl { referenceId : string; invitationPayload : Json.value }.
Record stored_object := StoredObject { so_persistent : bool; so_key : string; so_body : Json.value }.
Record world := World { urls : list shortening_url; objects : list stored_object; drawn : nat }.

Record IShorteningUrlData := ShorteningUrlData { credentialId : string; schemaId : any; credDefId : any; invitationUrl : any; attributes : any }.

(** The service that keeps objects answers with the key of what it stored. *)
Class ObjectStore := { store : stored_object -> string + string }.

Section service.
Context {U : UuidSource} {O : ObjectStore} {V : ProcessEnv}.

Definition reference_is (r : string) (u : shortening_url) : bool := String.eqb (referenceId u) r.

(** An undefined property is left out of the JSON column; the reference has fifty characters at most. *)
Definition present (l : list (string * any)) : Json.value := Json.JObj (omap (fun '(k, v) => (fun v => (k, v)) <$> v) l).
Definition payload_of (p : IShorteningUrlData) : Json.value :=
  present [("schemaId", schemaId p); ("credDefId", credDefId p); ("invitationUrl", invitationUrl p); ("attributes", attributes p)].
Definition too_long : exn := Exn PrismaError "The provided value for the column is too long" None (Some "P2000").

Definition saveShorteningUrl (u : shortening_url) : eff world unit :=
  if (50 <? String.length (referenceId u))%nat then throw too_long else
  rows ← gets urls;
  let rows' := if existsb (reference_is (referenceId u)) rows then update_where (reference_is (referenceId u)) (fun _ => u) rows else (rows ++ [u])%list in
  modify (fun w => World rows' (objects w) (drawn w)).

Definition url_of (id : string) : string :=
  env_string "API_GATEWAY_PROTOCOL" +:+ "://" +:+ env_string "API_ENDPOINT" +:+ "/invitation/qr-code/" +:+ id.

Definition createAndStoreShorteningUrl (p : IShorteningUrlData) : eff world string :=
  rpc (_ ← saveShorteningUrl (ShortUrl (credentialId p) (payload_of p)); mret (url_of (credentialId p))).

Definition getShorteningUrl (reference : string) : eff world shortening_url :=
  rpc (
    u ← gets (fun w => first (reference_is reference) (urls w));
    match u with Some u => mret u | None => throw (not_found ("Shortening URL not found for referenceId: " +:+ reference)) end).

Definition storeObject (persistent : bool) (body : Json.value) : eff world string :=
  n ← gets drawn;
  let o := StoredObject persistent (uuid n) body in
  _ ← modify (fun w => World (urls w) (objects w) (S (drawn w)));
  match store o with
  | inl key => _ ← modify (fun w => World (urls w) (objects w ++ [o]) (drawn w)); mret (env_string "SHORTENED_URL_DOMAIN" +:+ "/" +:+ key)
  | inr m => throw (js_error ("An error occurred while uploading data to storage: " +:+ m))
  end.

Inductive message :=
  | CreateShorteningUrl (p : IShorteningUrlData)
  | GetShorteningUrl (reference : string)
  | StoreObject (persistent : bool) (body : Json.value).

Definition handle (m : message) : eff world unit :=
  match m with
  | CreateShorteningUrl p => _ ← createAndStoreShorteningUrl p; mret tt
  | GetShorteningUrl reference => _ ← getShorteningUrl reference; mret tt
  | StoreObject persistent body =>
      try_catch (_ ← storeObject persistent body; mret tt) (fun _ => throw (js_error "Error occured in Utility Microservices Controller"))
  end.

(** A URL that was shortened reads back, references stay unique and other URLs as they are. *)
Theorem short_url_round_trip p w : NoDup (referenceId <$> urls w) -> (String.length (credentialId p) <= 50)%nat ->
  let w' := (createAndStoreShorteningUrl p w).2 in
  (createAndStoreShorteningUrl p w).1 = Ok (url_of (credentialId p)) /\
  getShorteningUrl (credentialId p) w' = (Ok (ShortUrl (credentialId p) (payload_of p)), w') /\
  NoDup (referenceId <$> urls w') /\
  forall r, r <> credentialId p -> first (reference_is r) (urls w') = first (reference_is r) (urls w).
Proof.
  intros Hn Hl. unfold createAndStoreShorteningUrl, saveShorteningUrl, getShorteningUrl, rpc, try_catch. simpl.
  rewrite (proj2 (Nat.ltb_ge _ _) Hl). run. set (u := ShortUrl _ _). set (id := credentialId p) in *.
  assert (Hi : reference_is id u = true) by apply String.eqb_refl.
  split; [done|]. destruct (existsb (reference_is id) (urls w)) eqn:E; simpl.
  - apply existsb_elem in E as (v & Hv & Hvi). split_and!.
    + rewrite first_update; [|intros r _ Hr; by rewrite Hi, Hr]. destruct (first (reference_is id) (urls w)) as [x|] eqn:Ex.
      * simpl. apply first_Some in Ex as [_ ->]. done.
      * rewrite first_None in Ex. by rewrite (Ex v Hv) in Hvi.
    + rewrite fmap_update_where; [done|]. intros r _ Hr%String.eqb_eq. done.
    + intros r Hr. apply first_update_other. intros x _ Hx%String.eqb_eq. unfold reference_is. simpl. rewrite Hx.
      split; by apply String.eqb_neq.
  - assert (Hnew : forall y, y ∈ urls w -> reference_is id y = false).
    { intros y Hy. apply not_true_iff_false. intros Hyi. apply not_true_iff_false in E. apply E, existsb_elem. eauto. }
    split_and!.
    + rewrite first_app, (proj2 (first_None _ _) Hnew). simpl. by rewrite Hi.
    + apply (NoDup_new referenceId); [done|]. intros y Hy Hyi. specialize (Hnew y Hy). unfold reference_is in Hnew. rewrite Hyi in Hnew. by rewrite String.eqb_refl in Hnew.
    + intros r Hr. rewrite first_app. destruct (first (reference_is r) (urls w)); [done|]. simpl. unfold reference_is. simpl.
      by rewrite (proj2 (String.eqb_neq _ _)) by done.
Qed.
End service.
End Utility.

(** ** Alerts

    [handleLedgerAlert] and [sendWithRetry].  A call gives up control while it reads the
    configuration, while a mail is sent and while it pauses; the events say what happens
    next to which call, in any order. *)

Module Alert.
Record EmailDto := Email { emailFrom : string; emailTo : string; emailText : string }.

Inductive phase :=
  | Looking                      (* for the configuration *)
  | Sending (attempt : nat)
  | Pausing (attempt : nat) (until : Z)
  | Ending                       (* before the [finally] *)
  | Over.

(** [delivered] has the times of the mails that were accepted, the last one first. *)
Record world := World {
  lastAlertTime : option Z;
  isSendingAlert : bool;
  now : Z;
  calls : list (EmailDto * phase);
  mails : list EmailDto;
  delivered : list Z;
}.

Definition interval : Z := 2 * 60 * 60 * 1000.
Definition retries : nat := 3.
Definition delayMs : Z := 3000.

Inductive event :=
  | Called (dto : EmailDto)
  | Configured (call : nat) (from : option string)   (* the configuration was read *)
  | Sent (call : nat) (accepted : bool)              (* the mail service answered [true], or not, or threw *)
  | Woken (call : nat)
  | Settled (call : nat)
  | Passed (time : nat).

Definition recent (w : world) : bool :=
  match lastAlertTime w with Some t => negb (t =? 0) && (now w - t <? interval) | None => false end.

Definition set_call (i : nat) (c : EmailDto * phase) (w : world) : world :=
  World (lastAlertTime w) (isSendingAlert w) (now w) (<[i := c]> (calls w)) (mails w) (delivered w).

(** The call of the mail service, up to its first [await] *)
Definition attempt (i : nat) (dto : EmailDto) (n : nat) (w : world) : world :=
  World (lastAlertTime w) (isSendingAlert w) (now w) (<[i := (dto, Sending n)]> (calls w)) (mails w ++ [dto])%list (delivered w).

Definition step (e : event) (w : world) : world :=
  match e with
  | Called dto =>
      if recent w || isSendingAlert w then w
      else World (lastAlertTime w) (isSendingAlert w) (now w) (calls w ++ [(dto, Looking)])%list (mails w) (delivered w)
  | Configured i from =>
      match calls w !! i, from with
      | Some (dto, Looking), None => set_call i (dto, Over) w
      | Some (dto, Looking), Some from =>
          attempt i (Email from (emailTo dto) (emailText dto)) 1 (World (lastAlertTime w) true (now w) (calls w) (mails w) (delivered w))
      | _, _ => w
      end
  | Sent i accepted =>
      match calls w !! i with
      | Some (dto, Sending n) =>
          if accepted : bool then World (Some (now w)) (isSendingAlert w) (now w) (<[i := (dto, Ending)]> (calls w)) (mails w) (now w :: delivered w)
          else if Nat.eqb n retries then set_call i (dto, Ending) w
          else set_call i (dto, Pausing n (now w + delayMs)) w
      | _ => w
      end
  | Woken i =>
      match calls w !! i with
      | Some (dto, Pausing n until) => if until <=? now w then attempt i dto (S n) w else w
      | _ => w
      end
  | Settled i =>
      match calls w !! i with
      | Some (dto, Ending) => set_call i (dto, Over) (World (lastAlertTime w) false (now w) (calls w) (mails w) (delivered w))
      | _ => w
      end
  | Passed time => World (lastAlertTime w) (isSendingAlert w) (now w + Z.of_nat time) (calls w) (mails w) (delivered w)
  end.

Definition run_events : list event -> world -> world := fold_left (fun w e => step e w).

(** *** Calls that do not meet *)

Definition looking (p : phase) : bool := match p with Looking => true | _ => false end.
Definition active (p : phase) : bool := match p with Over => false | _ => true end.

(** No call arrives while another one reads the configuration. *)
Fixpoint apart_calls (es : list event) (w : world) : bool :=
  match es with
  | [] => true
  | e :: es => (match e with Called _ => negb (existsb (fun c => looking c.2) (calls w)) | _ => true end) && apart_calls es (step e w)
  end.

Fixpoint spaced (l : list Z) : Prop := match l with t :: ((t' :: _) as l') => t' + interval <= t /\ spaced l' | _ => True end.

(** What a call in this phase knows *)
Definition knows (w : world) (p : phase) : Prop :=
  match p with
  | Looking => isSendingAlert w = false /\ recent w = false
  | Sending n => (1 <= n <= retries)%nat /\ isSendingAlert w = true /\ recent w = false
  | Pausing n _ => (1 <= n < retries)%nat /\ isSendingAlert w = true /\ recent w = false
  | Ending => isSendingAlert w = true
  | Over => True
  end.

Record sound (w : world) : Prop := {
  s_one : forall i j c c', calls w !! i = Some c -> calls w !! j = Some c' -> active c.2 = true -> active c'.2 = true -> i = j;
  s_knows : forall i c, calls w !! i = Some c -> knows w c.2;
  s_flag : isSendingAlert w = true -> exists i c, calls w !! i = Some c /\ active c.2 = true;
  s_last : lastAlertTime w = head (delivered w);
  s_time : 0 < now w /\ Forall (fun t => 0 < t <= now w) (delivered w);
  s_spaced : spaced (delivered w);
}.

Lemma recent_false w : lastAlertTime w = head (delivered w) -> Forall (fun t => 0 < t <= now w) (delivered w) -> recent w = false ->
  spaced (delivered w) -> spaced (now w :: delivered w).
Proof.
  intros Hl Ht Hr Hs. unfold recent in Hr. rewrite Hl in Hr. destruct (delivered w) as [|t l]; [done|]. simpl in Hr. inversion Ht; subst.
  split; [|done]. destruct (Z.eqb_spec t 0); [lia|]. simpl in Hr. apply Z.ltb_ge in Hr. lia.
Qed.

(** One call changes, the others know what they knew. *)
Lemma sound_call w w' i dto p p' :
  sound w -> calls w !! i = Some (dto, p) -> active p = true ->
  (exists dto', calls w' = <[i := (dto', p')]> (calls w)) -> knows w' p' -> (isSendingAlert w' = true -> active p' = true) ->
  lastAlertTime w' = head (delivered w') -> 0 < now w' -> Forall (fun t => 0 < t <= now w') (delivered w') -> spaced (delivered w') -> sound w'.
Proof.
  intros [Ho Hk Hf _ _ _] Hc Ha [dto' Hcs] Hp Hfl Hl Hn Ht Hs.
  assert (Hi : (i < length (calls w))%nat) by (by eapply lookup_lt_Some).
  assert (Hothers : forall j c, j <> i -> calls w !! j = Some c -> active c.2 = false).
  { intros j c Hj Hjc. apply not_true_iff_false. intros Hac. apply Hj. by eapply (Ho j i). }
  split; [| | | done | done | done].
  - intros j k c c'. rewrite Hcs. intros [(<- & <- & _)|[Hj Hjc]]%list_lookup_insert_Some [(<- & <- & _)|[Hkk Hkc]]%list_lookup_insert_Some Hac Hac'; try done.
    + by rewrite (Hothers k c') in Hac'.
    + by rewrite (Hothers j c) in Hac.
    + by eapply Ho.
  - intros j c. rewrite Hcs. intros [(<- & <- & _)|[Hj Hjc]]%list_lookup_insert_Some; [done|].
    assert (active c.2 = false) as Hoff by (by eapply Hothers). destruct c as [? []]; done.
  - intros Hfw. exists i, (dto', p'). split; [|by apply Hfl]. rewrite Hcs. by apply list_lookup_insert_eq.
Qed.

Lemma recent_later w w' : lastAlertTime w' = lastAlertTime w -> now w <= now w' -> recent w = false -> recent w' = false.
Proof.
  unfold recent. intros -> Hn. destruct (lastAlertTime w) as [t|]; [|done]. destruct (negb _); [|done]. simpl.
  rewrite !Z.ltb_ge. lia.
Qed.

Lemma step_sound e w : (match e with Called _ => negb (existsb (fun c => looking c.2) (calls w)) | _ => true end) = true ->
  sound w -> sound (step e w).
Proof.
  intros Ha Hw. destruct e as [dto|i from|i accepted|i|i|time]; simpl.
  - destruct (recent w || isSendingAlert w) eqn:E; [done|]. apply orb_false_iff in E as [Er Es]. apply negb_true_iff in Ha.
    assert (Hoff : forall j c, calls w !! j = Some c -> active c.2 = false).
    { intros j c Hj. pose proof (s_knows w Hw j c Hj) as Hk. assert (looking c.2 = false) as Hl.
      { apply not_true_iff_false. intros Hl. apply not_true_iff_false in Ha. apply Ha, existsb_elem. exists c. split; [by eapply list_elem_of_lookup_2 | done]. }
      destruct c as [? []]; simpl in *; try done; destruct_and?; congruence. }
    destruct Hw as [Ho Hk Hf ? ? ?]. split; simpl; try done.
    + intros j k c c' [[_ Hj]|[-> <-]]%lookup_snoc_Some [[_ Hk']|[-> <-]]%lookup_snoc_Some Hac Hac'; try done;
        [by rewrite (Hoff j c Hj) in Hac | by rewrite (Hoff j c Hj) in Hac | by rewrite (Hoff k c' Hk') in Hac'].
    + intros j c [[_ Hj]|[_ <-]]%lookup_snoc_Some; [|done]. specialize (Hoff j c Hj). by destruct c as [? []].
    + congruence.
  - destruct (calls w !! i) as [[dto []]|] eqn:E; try done. pose proof (s_knows w Hw i _ E) as [Hf Hr].
    destruct Hw as [? ? ? ? [? ?] ?] eqn:Ew. destruct from as [from|].
    + eapply (sound_call w); [exact Hw | exact E | done | by eexists | | done..]. simpl. split_and!; [lia | unfold retries; lia | done | done].
    + eapply (sound_call w); [exact Hw | exact E | done | by eexists | done | simpl; congruence | done..].
  - destruct (calls w !! i) as [[dto []]|] eqn:E; try done. pose proof (s_knows w Hw i _ E) as (Hn & Hf & Hr).
    destruct Hw as [? ? ? Hl [? Ht] Hs] eqn:Ew. destruct accepted; [|destruct (Nat.eqb_spec attempt0 retries)].
    + eapply (sound_call w); [exact Hw | exact E | done | by eexists | done | done | done | done | | by apply recent_false].
      simpl. constructor; [lia | done].
    + eapply (sound_call w); [exact Hw | exact E | done | by eexists | done..].
    + eapply (sound_call w); [exact Hw | exact E | done | by eexists | | done..]. simpl. split_and!; [lia | lia | done | done].
  - destruct (calls w !! i) as [[dto []]|] eqn:E; try done. pose proof (s_knows w Hw i _ E) as (Hn & Hf & Hr). destruct (_ <=? _); [|done].
    destruct Hw as [? ? ? ? [? ?] ?] eqn:Ew. eapply (sound_call w); [exact Hw | exact E | done | by eexists | | done..]. simpl. split_and!; [lia | lia | done | done].
  - destruct (calls w !! i) as [[dto []]|] eqn:E; try done. destruct Hw as [? ? ? ? [? ?] ?] eqn:Ew.
    eapply (sound_call w); [exact Hw | exact E | done | by eexists | done..].
  - destruct Hw as [Ho Hk Hf Hl [Hn Ht] Hs]. split; simpl; try done.
    + intros j c Hj. specialize (Hk j c Hj). destruct c as [? []]; simpl in *; try done; split_and!; try apply Hk;
        (apply (recent_later w); [done | simpl; lia | apply Hk]).
    + split; [lia|]. eapply Forall_impl; [exact Ht|]. simpl. lia.
Qed.

Definition start (time : Z) : world := World None false time [] [] [].

(** Where calls do not meet while they read the configuration, at most one of them is under
    way and accepted alerts are two hours apart, whatever the mail service does. *)
Theorem alerts_spaced time es : 0 < time -> apart_calls es (start time) = true ->
  let w := run_events es (start time) in
  spaced (delivered w) /\ forall i j c c', calls w !! i = Some c -> calls w !! j = Some c' -> active c.2 = true -> active c'.2 = true -> i = j.
Proof.
  intros Ht H. cbv zeta. enough (sound (run_events es (start time))) as [? ? ? ? ? ?] by done. revert H.
  assert (sound (start time)) as H0 by (by split). revert H0. generalize (start time) as w. induction es as [|e es IH]; intros w Hw H; [done|].
  simpl in H. apply andb_true_iff in H as [H1 H2]. simpl. apply IH; [by apply step_sound | done].
Qed.

Definition mail : EmailDto := Email "" "ops" "ledgers".
Example alerts_spaced_witness : apart_calls [Called mail; Configured 0 (Some "us"); Sent 0 false; Passed 3000; Woken 0; Called mail; Sent 0 true; Settled 0; Passed 7200000; Called mail; Configured 1 (Some "us"); Sent 1 true] (start 1000) = true /\
  let w := run_events [Called mail; Configured 0 (Some "us"); Sent 0 false; Passed 3000; Woken 0; Called mail; Sent 0 true; Settled 0; Passed 7200000; Called mail; Configured 1 (Some "us"); Sent 1 true] (start 1000) in
  spaced (delivered w) /\ forall i j c c', calls w !! i = Some c -> calls w !! j = Some c' -> active c.2 = true -> active c'.2 = true -> i = j.
Proof. split; [reflexivity|]. apply alerts_spaced; [lia | reflexivity]. Defined.

(** The flag is set only after the configuration was read: two calls that meet there both send. *)
Example alert_twice : delivered (run_events [Called mail; Called mail; Configured 0 (Some "us"); Configured 1 (Some "us"); Sent 0 true; Sent 1 true] (start 1000)) = [1000; 1000].
Proof. reflexivity. Qed.
End Alert.

(** ** Places *)

Module GeoLocation.
Record countries := Country { c_id : Z; c_name : string; c_isoCode : string; phonecode : option string }.
Record states := State { s_id : Z; s_name : string; s_countryId : Z; s_countryCode : string; s_isoCode : string }.
Record cities := City { ci_id : Z; ci_name : string; ci_stateId : Z; ci_stateCode : string; ci_countryId : Z; ci_countryCode : string }.
Record tables := Tables { all_countries : list countries; all_states : list states; all_cities : list cities }.

Section service.
(** The order of the database's collation *)
Context (collates : string -> string -> bool).

Definition by_name {R} (name : R -> string) : list R -> list R := sort_by (fun a b => collates (name a) (name b)).

Definition getAllCountries (t : tables) : list countries := by_name c_name (all_countries t).
Definition findStatesByCountryId (countryId : Z) (t : tables) : list states := by_name s_name (List.filter (fun s => s_countryId s =? countryId) (all_states t)).
Definition findCitiesByStateAndCountry (countryId stateId : Z) (t : tables) : list cities :=
  by_name ci_name (List.filter (fun c => (ci_stateId c =? stateId) && (ci_countryId c =? countryId)) (all_cities t)).

Definition some_rows {R} (message : string) (rows : list R) : eff tables (list R) :=
  rpc (match rows with [] => throw (not_found message) | _ => mret rows end).

Definition getStatesByCountryId (countryId : Z) : eff tables (list states) := fun t =>
  some_rows "No states found for provided countryId.Please provide valid countryId" (findStatesByCountryId countryId t) t.
Definition getCitiesByStateAndCountry (countryId stateId : Z) : eff tables (list cities) := fun t =>
  some_rows "No cities found for provided stateId and countryId.Please provide valid stateId and countryId" (findCitiesByStateAndCountry countryId stateId t) t.

(** A listing of cities has those of the state in the country, each once and in order; it is
    refused exactly when there are none. *)
Lemma cities_listed countryId stateId t : (forall a b, collates a b = true \/ collates b a = true) ->
  let '(r, t') := getCitiesByStateAndCountry countryId stateId t in t' = t /\
  match r with
  | Ok rows => rows <> [] /\ rows ≡ₚ List.filter (fun c => (ci_stateId c =? stateId) && (ci_countryId c =? countryId)) (all_cities t) /\
      Sorted (fun a b => collates (ci_name a) (ci_name b) = true) rows
  | Throw e => exn_status e = Some 404 /\ forall c, c ∈ all_cities t -> (ci_stateId c =? stateId) && (ci_countryId c =? countryId) = false
  end.
Proof.
  intros Hc. unfold getCitiesByStateAndCountry, some_rows, rpc, try_catch.
  pose proof (sort_by_perm (fun a b => collates (ci_name a) (ci_name b)) (List.filter (fun c => (ci_stateId c =? stateId) && (ci_countryId c =? countryId)) (all_cities t))) as Hp.
  pose proof (sort_by_sorted (fun a b => collates (ci_name a) (ci_name b)) (List.filter (fun c => (ci_stateId c =? stateId) && (ci_countryId c =? countryId)) (all_cities t))
    (fun a b => Hc (ci_name a) (ci_name b))) as Hs.
  unfold findCitiesByStateAndCountry, by_name. destruct (sort_by _ _) as [|x l].
  - split; [done|]. split; [done|]. apply filter_b_nil. by apply Permutation_nil in Hp.
  - split; [done|]. split_and!; [done | exact Hp | exact Hs].
Qed.
End service.

Inductive message := GetAllCountries | GetAllStates (countryId : Z) | GetAllCities (countryId stateId : Z).
Definition handle (collates : string -> string -> bool) (m : message) : eff tables unit :=
  match m with
  | GetAllCountries => _ ← gets (getAllCountries collates); mret tt
  | GetAllStates countryId => _ ← getStatesByCountryId collates countryId; mret tt
  | GetAllCities countryId stateId => _ ← getCitiesByStateAndCountry collates countryId stateId; mret tt
  end.
End GeoLocation.

(** ** Notifications that are sent *)

Module NotificationSample.
Import Notification.
#[local] Instance ids : UuidSource.
Proof. refine {| uuid n := "id" +:+ pretty n |}. Defined.

Definition accepts (rs : list http_request) : any + axios_error := inl (Some (Json.JNum (Z.of_nat (length rs)))).
Definition fresh : world := World [] [] [] 0.
Definition served : list message := [RegisterOrgWebhookEndpoint "acme" "https://push.test/a"; RegisterOrgWebhookEndpoint "acme" "https://push.test/b";
  RegisterHolderNotification "s1" "did:x" "t1"; RegisterHolderNotification "s1" "did:y" "t2"; SendNotificationToHolder (SendNotification "t1" "offer" "acme")].

Example notifications_consistent_witness : consistent (serve_all accepts served fresh) /\ grows fresh (serve_all accepts served fresh).
Proof. apply notifications_consistent. split_and!; constructor. Defined.

Example first_kept : let w := serve_all accepts served fresh in
  (notificationWebhook <$> endpoints w, holderDid <$> holders w, rq_url <$> requests w) = (["https://push.test/a"], ["did:x"], ["https://push.test/a"]).
Proof. vm_compute. reflexivity. Qed.

(** A text that is no URL is posted to before it is refused. *)
Example sent_then_refused : let '(r, w) := sendNotification accepts (SendNotification "t1" "offer" "acme") (serve_all accepts [RegisterOrgWebhookEndpoint "acme" "intranet"] fresh) in
  r = Throw (Exn RpcException "Invalid URL" (Some 400) None) /\ rq_url <$> requests w = ["intranet"].
Proof. vm_compute. done. Qed.
End NotificationSample.
